(* ===== verification/_CoqProject ===== *)
-Q . S2P
Prelude.v
GoStr.v
GoLib.v
Types.v
GoFmt.v
GoConv.v
GoIo.v
GoJson.v
GoJsonProps.v
JsonDec.v
GoUrl.v
GoGlob.v
Filter.v
Shell.v
SafeQueue.v
Notify.v
Backends.v
BackendsProps.v
Config.v
ConfigLoad.v
ConfigLoadProps.v
DiagTypes.v
Engine.v
EngineProps.v
AlertKey.v
DiagState.v
GoSlice.v
AiClient.v
Failover.v
AiWire.v
Report.v
Record.v
Registry.v
Mcp.v
McpProps.v
Prompt.v
Executor.v
Concrete.v
Chat.v
ChatHost.v
DiagEngine.v
Aggregator.v
RingBuf.v
Session.v
Remote.v
Server.v
Agent.v
Logfile.v
LogfileProps.v
Resp.v
RespProps.v
NetLog.v
Pushing.v
Flight.v
PluginConfig.v
RedisConfig.v
RedisChecks.v
RedisGather.v
RedisProps.v
RedisPeer.v
RedisPeerProps.v
RedisDiagnose.v
RedisDiagnoseProps.v
SentinelConfig.v
SentinelAccessor.v
SentinelGather.v
SentinelDiagnose.v
SentinelProps.v
DockerApi.v
Docker.v
DockerDiagnose.v
DockerProps.v
FileCheck.v
Netif.v
Journaltail.v
Exec.v
Ntp.v
Mount.v
HostChecks.v
