(* ===== verification/Prelude.v ===== *)
(** * catpaw: a verification library of the monitoring agent's core

    catpaw runs check plugins on a host.  A plugin hands events to the alert
    engine, which forwards alerts and recoveries to notifiers and offers new
    alerts to a diagnosis: an AI that calls read-only tools and writes a
    report.  The agent also keeps a connection to a server, which receives the
    alerts and may start remote diagnoses and chats.  This library models that
    core, the Go packages under [src/digcore], [src/agent], [src/chat] and check
    plugins under [src/plugins], and proves what makes it correct.

    ** Parts, files and code

    - [Prelude] (this file): Go's integers, calls that panic ([go]), results
      with an error ([res]), tactics and shared lemmas.  [GoStr], [GoSlice] and
      [GoLib] model what the code uses of Go itself: UTF-8 decoding, [strings],
      [strconv.Quote], [sort.Strings]; slices with their array and capacity;
      [filepath.Join], the formatting of times and SHA-256.  [GoFmt]: fixed-point printing of
      doubles, durations, hexadecimal, invalid UTF-8, sizes (pkg/conv, config/size.go).
      [GoConv]: parsing of integers, cutting of strings, addresses.  [GoIo]:
      computations on a state that may panic, their errors and invariants.
      [GoJson], [GoJsonProps]: encoding/json, texts to values and back, on one
      line or indented, and the round trips.  [JsonDec]: decoding into structs,
      [Decoder.Decode], numbers as doubles, [ParseFloat].  [GoUrl]: net/url and [os.Expand].
      [GoGlob]: [filepath.Match].
    - [Filter]: patterns of the configuration (pkg/filter, pkg/choice).  [Shell]:
      the words of a command line (pkg/shell).
    - [Types]: events and thresholds (types/event.go).
    - [SafeQueue]: the queue from the plugins to the engine (pkg/safe/queue.go).
    - [Notify]: the fan-out to notifiers (notify/notify.go).  [Backends],
      [BackendsProps]: FlashDuty, PagerDuty, web API and console, their payloads
      and retries (notify/flashduty.go, pagerduty.go, webapi.go, console.go).
    - [Config]: settings, their defaults and validation (config/config.go,
      config/inline.go).  [ConfigLoad], [ConfigLoadProps]: what happens to a
      decoded configuration before the start: environment references, labels, the
      identity of the host, addresses (config.go, server_config.go, mcp_config.go).
    - [Engine], [EngineProps], [AlertKey]: the alert engine (engine/engine.go,
      engine/cache.go) on an explicit heap of events, its runs and its keys.
    - [DiagTypes], [DiagState]: data of the diagnosis and its token budget and
      cooldowns (diagnose/types.go, state.go).
    - [AiClient], [Failover]: messages, token estimates, compaction; retries,
      model priorities and pinning (diagnose/aiclient).  [AiWire]: the body of a
      request, and the format of Bedrock (client.go, bedrock.go).
    - [Report], [Record]: texts sent to the alert platform, records on disk and
      their retention (diagnose/report.go, record.go, cleanup.go).
    - [Registry], [Prompt], [Executor]: the tools, what the AI is told about
      them, and how its calls are routed (diagnose/registry.go, prompt.go,
      executor.go, toolconv.go).  [Mcp], [McpProps]: tools of other processes over
      JSON-RPC (mcp/).
    - [Chat]: conversations with a user (diagnose/streaming.go).  [ChatHost]: the
      terminal's side of them, snapshot, prompt, shell commands and their approval
      (chat/).
    - [DiagEngine]: a diagnosis from admission to its accounts
      (diagnose/engine.go).  [Aggregator]: alerts of one target share a request
      (diagnose/aggregator.go).
    - [RingBuf], [Session], [Server]: the buffer of alerts for the server, its
      remote sessions, the connection (server/).  [Remote]: the adapters that give
      sessions a diagnosis or a chat (agent/agent.go).
    - [Agent]: plugins loaded from their directories, reloaded and stopped, the
      rhythm of an instance and the recovery of its panics (agent/agent.go,
      funcs.go, runner.go).
    - [Logfile], [LogfileProps]: the log monitor (plugins/logfile).
    - The Redis check (plugins/redis): [Resp], [RespProps] its protocol and
      accessor (accessor.go); [RedisConfig] settings and templates (types.go,
      config.go); [RedisChecks] the checks on one answer (checks.go, cluster.go);
      [RedisGather], [RedisProps] gathering from a target and from all of them
      (gather.go); [RedisPeer], [RedisPeerProps] the other nodes of a cluster
      (peer.go); [RedisDiagnose], [RedisDiagnoseProps] the tools of the AI
      (diagnose.go).
    - The Sentinel check (plugins/redis_sentinel), on the protocol of [Resp]:
      [SentinelConfig] settings and templates (types.go, config.go);
      [SentinelAccessor] commands and answers (accessor.go); [SentinelGather]
      gathering (gather.go); [SentinelDiagnose] the tools of the AI (diagnose.go);
      [SentinelProps] their properties.
    - The Docker check (plugins/docker): [DockerApi] the daemon's answers and the
      requests (api.go); [Docker] settings, matching, checks and gathering
      (docker.go); [DockerDiagnose] the tools of the AI (diagnose.go);
      [DockerProps] their properties.
    - [FileCheck]: existence, times and digests of files
      (plugins/filecheck).  [Netif]: the error counters and the links
      of network interfaces (plugins/netif).  [Mount]: the table of
      mounts against what is expected and against fstab (plugins/mount).
    - [HostChecks]: single values of the host against thresholds or expectations
      (plugins/conntrack, filefd, neigh, mem, cpu, tcpstate, sockstat, uptime,
      sysctl, secmod, hostident).
    - Plugins that run a command ([Pushing.Process], how a run ends and what is
      kept of its output): [Journaltail] the journal and its cursor
      (plugins/journaltail); [Exec] scripts that print JSON or follow
      Nagios (plugins/exec, pkg/cmdx); [Ntp] chronyc, ntpq and
      timedatectl (plugins/ntp).
    - Shared by the plugins: [Pushing] what a check pushes, [Flight] targets that
      are still being checked, [PluginConfig] templates, targets, severities.
      [NetLog]: a log on any network.
    - [Concrete]: a scripted AI and a small JSON codec, on which the witnesses
      of the conversational components run.

    ** How the components meet

    Interfaces are type classes.  [Notifier] and [Forwarder] (Notify) stand
    between the engine and the notifiers; [Notify.Forward] and the server's ring
    buffer are instances.  [DiagnoseSink] (Engine) is what the engine asks of
    the aggregator, which is an instance.  [ChatBackend] (Failover) is an AI
    client and the clock of its pauses; [JsonCodec] (Executor) is the JSON
    decoder of tool arguments; [ConcurrencyLimiter] (Session) carries laws of
    the slots that sessions share with local diagnoses, discharged by the
    semaphore of the diagnosis engine.  [Network] (Resp) is what connections do:
    dialling, writing, the bytes that arrive until a deadline, the clock;
    [NetLog.logged] puts a log on any network, and the theorems on what may be
    sent are stated on it; [McpProps.recorded] does so for the lines that child
    processes print.  [HttpClient] (Backends) is one HTTP exchange and the
    pause between two, [HostProbe] (ConfigLoad) what the host says of itself,
    [McpProcess] (Mcp) the child processes and the lines that arrive from them;
    a tool of an MCP server is registered as any other ([Mcp.registerTools]).
    [NameSort] (SentinelAccessor) is [sort.Slice] by a name that may repeat: some
    sorted permutation.  [DockerHttp] (DockerApi) is one GET of the Docker daemon and
    the clock; [DockerProps.logged_http] puts a log on it.  [Process] (Pushing) runs a
    command to its end.  What a check reads of the host in one gathering (files,
    interfaces, tables) is a record of functions, its view.  [Pushing] is a state with a queue of events, on which
    [reports] states what a computation pushes.

    ** State and effects

    A Go struct is a record and a method that changes it returns the new one; a
    call that panics returns [Panic].  Pointers that are shared and mutated are
    locations of an explicit heap: events in [Engine] (the cache holds the
    pointer that is updated after the delivery), sessions in [Session] (the
    table and the goroutine refer to one session).  Slices are an array with a
    length where the capacity matters ([Chat], whose rollback reslices).  What
    is outside the program (AI, tools, clock, randomness, files) is a world [W]
    passed along, or a parameter.  Where goroutines interleave, one step per
    critical section is a relation ([agg_step], [sys_step], [conn_step],
    [registry_step]) or an order argument ([Notify.Forward_in_order], the
    visiting order of maps in [Registry]).  Ghost fields, said to be such where
    they are declared, log what was sent or taken in.

    ** What the theorems show

    - Alerting: recoveries follow deliveries, the cache is well formed,
      [repeat_number], [repeat_interval] and [for_duration] do what they say;
      keys do not depend on map order, separate label sets without colons, and
      every label has a definite writer.
    - Conversations: every history a diagnosis or a chat sends answers every
      tool call in order; compaction keeps the longest suffix of whole groups;
      requests are bounded; errors roll a chat back; models are asked by
      priority, with bounded retries.
    - Concurrency: slots are accounted for across diagnoses and sessions, the
      aggregator neither loses nor doubles an alert, sessions end with exactly
      one final message, fan-out is independent of the completion order.
    - Storage and transport: state and records are written whole or not at all,
      a restart on the same day restores the accounts through the text of the
      file, retention keeps the newest records, the ring buffer is a bounded
      queue, a flush sends it all, reconnection waits follow the documented
      schedule.
    - Catalogs: the registry is consistent, listings are deterministic, only
      offered tools run, texts stay within their limits.

    - Plugins and helpers: a growing log file is read once and in order, a
      rotated one from its start, an idle one to its end, each monitored file is
      reported; merged contexts show what each match asks for; quoted words are
      split back; a filter matches what one of its patterns matches; a command
      runs as it was approved; a remote chat gets the tools it was allowed.
    - Redis: replies are read to their end whatever arrives, commands are read
      back as sent, secrets do not show; accepted settings are sound; a target
      that answers reports each enabled check once and one that does not reports
      that, with the error; counters add up, hung targets are
      reported and recover; the tools of the AI only send commands that read,
      connect to peers of the topology only, and sample keys within limits.
    - Sentinel: answers are read back as the maps that were sent; accepted settings
      are sound; a gathering reports each enabled check of the node and of each
      configured master once, asks its target about those masters only, and
      closes what it opened when it returns normally; flags and counts get the verdict that is due.
    - Docker: of each name the first container that is wanted is checked; a
      gathering reports the engine, the named containers that are missing and of
      each other one exactly the checks that apply by what the daemon answers; the restarts in the window are the growth of the
      restart count; what is remembered follows the containers that are listed;
      the daemon is only read.
    - Checks of the host: the files that are checked are the first distinct ones
      that the targets stand for, and a change of contents is reported once; the
      growth of an interface's error counters is reported once and adds up; the
      entries of the journal are read once and in order, whatever fails in
      between, while the output fits; the kernel's table of mounts and fstab are
      read back and the mounts judged; events that a
      script prints are pushed as they are; reports of chronyc are read back; the
      tables of the kernel are read back, overflows of listening sockets are counted
      across failed readings, a longer uptime is never more severe, parameters of the
      kernel are compared as whole numbers, the identity of the host is compared with
      the one at the start.

    - The edges: an event is sent within its retries and its body says which
      event it was; the messages to Bedrock are well formed and its answers read
      back; an accepted configuration has its defaults, and its keys, tokens and
      gateway are those the files name, resolved; a call of an MCP server takes only
      its own answer, one that its own process printed, and a server adds only the
      tools it was allowed.

    The library also proves behaviour that departs from what the code or its
    comments intend: [Chat.rollback_after_compaction_panics],
    [Aggregator.rejected_alert_is_never_diagnosed],
    [Session.late_end_cancels_successor],
    [Failover.ChatWithRetry_negative_returns_nil],
    [AlertKey.alert_key_collision], [Server.auth_backoff_leaks],
    [Server.flush_loses_batch], [Agent.reload_misses_removed_file],
    [LogfileProps.unreadable_head_rereads], [Filter.comma_splits_pattern],
    [RedisConfig.bracketed_target_broken], [RedisProps.waiting_target_started_twice],
    [RespProps.array_header_panics], [RedisDiagnoseProps.scan_ends_at_empty_batch],
    [RedisDiagnoseProps.failing_keys_are_not_counted],
    [AiWire.empty_text_has_no_member], [BackendsProps.pagerduty_summary_splits_rune],
    [ConfigLoadProps.identity_template_lost], [ConfigLoadProps.needsAutoDetect_prefix],
    [McpProps.late_answer_fails_next_call], [McpProps.null_id_passed_over],
    [SentinelProps.late_reply_misread], [SentinelProps.empty_address_resolves],
    [SentinelProps.tilt_needs_masters], [SentinelProps.auth_panic_leaks_connection],
    [DockerProps.too_many_containers], [DockerProps.inspect_failure_contradicts],
    [DockerProps.cpu_delta_wraps], [DockerProps.failed_negotiation_sticks],
    [DockerProps.reference_leaves_the_path], [DockerProps.health_output_cut_in_rune],
    [FileCheck.linked_directory_is_taken_for_a_file],
    [FileCheck.bad_pattern_passes_for_existing],
    [Netif.growth_below_threshold_is_denied], [Journaltail.overflow_repeats],
    [Exec.exec_error_never_recovers], [Ntp.leap_second_alarms],
    [Mount.path_of_slashes_vanishes], [Mount.bind_mount_is_reported],
    [HostChecks.dotted_names_are_out_of_reach] and
    [HostChecks.overflow_below_threshold_is_denied].

    ** Bounds and fuel

    Integers that can overflow are reduced by [i64]; [float64] is [spec_float].
    Loops are structural recursions over what they visit or count down the
    rounds the code allows ([maxRounds], [chatMaxRounds], [MaxRetries] + 1).
    These functions take fuel: [AiClient.group_loop] is given the number of
    messages, each round consumes one ([group_loop_cuts]);
    [Server.flushAlertEvents] is given one more than the buffered events, each
    round takes at least one ([flush_spec]); [Shell.split_loop] is given one more
    than the runes of the input, each round takes one ([split_loop_total]);
    [GoFmt.human_loop] divides a 64-bit size by 1024, six rounds reach exabytes;
    [Resp.read_value] is given twice the bytes of the input, each call takes one
    or ends ([readReplyValue_total]); [RedisDiagnose.scan_loop] goes on until its
    context ends, which [bigkeys_scan_ends] turns into a bound;
    [GoJson.parse_value] is given two more than twice the bytes of the text, which
    [Marshal_Unmarshal] and [MarshalIndent_Unmarshal] show to be enough for what
    is written;
    [GoUrl.pieces] one more than the bytes of a query; [GoGlob] the bytes of the
    pattern, of which each step takes one ([chunks_of_fuel], [class_ranges_fuel],
    [matchChunk_fuel]).  Sorting by
    [merge_sort] stands for [sort.Slice] where ties cannot be told apart: node IDs
    are distinct, and a key sampled twice has one type.

    ** Not modelled

    HTTP, sockets, terminals, processes, TLS and the signatures of requests to
    AWS; decoding of configuration files; logging; deadlines of contexts
    (the world decides when a context ends); the agent's wiring of its parts; the
    messages that a session drops when its connection closes while it waits to
    send; the other check plugins (certificates, HTTP, ping, net, DNS, disks, processes,
    systemd, filters of scripts), the read-only tools of plugins/sysdiag and the
    queries by netlink; the registration of the tools of the plugins with their
    descriptions. *)
From stdpp Require Export base decidable list gmap strings sets sorting pretty.
From Stdlib Require Export ZArith Lia Ascii.
#[global] Open Scope Z_scope.

(** ** Notations *)
Declare Scope go_scope.
Delimit Scope go_scope with go.

(** Go's [len] of a slice or of a string, as the [int] it returns. *)
Definition zlen {A} (l : list A) : Z := Z.of_nat (length l).
Definition slen (s : string) : Z := Z.of_nat (String.length s).

(** ** Machine integers *)

(** Two's complement reduction to Go's [int64] (and [int] on 64-bit targets). *)
Definition i64 (z : Z) : Z := (z + 2 ^ 63) mod 2 ^ 64 - 2 ^ 63.
Definition min_i64 : Z := - 2 ^ 63.
Definition max_i64 : Z := 2 ^ 63 - 1.
Definition in_i64 (z : Z) : Prop := min_i64 <= z <= max_i64.

#[global] Instance in_i64_dec z : Decision (in_i64 z).
Proof. unfold in_i64. apply _. Defined.

(** Go's [+], [-] and [*] on [int] and [int64] wrap around. *)
Notation "a ⊞ b" := (i64 (a + b)) (at level 50, left associativity) : go_scope.
Notation "a ⊟ b" := (i64 (a - b)) (at level 50, left associativity) : go_scope.
Notation "a ⊠ b" := (i64 (a * b)) (at level 40, left associativity) : go_scope.

(** Reduction to [uint64]. *)
Definition u64 (z : Z) : Z := z mod 2 ^ 64.

(** Go's [/] on integers truncates toward zero. *)
Definition go_div (a b : Z) : Z := Z.quot a b.

(** [time.Second] in nanoseconds, the unit of [time.Duration]. *)
Definition Second : Z := 1000000000.
Definition Minute : Z := 60 * Second.

(** ** Results *)

(** A call that returns or panics. *)
Inductive go (A : Type) : Type :=
| Ret (a : A)
| Panic.
Arguments Ret {A} a.
Arguments Panic {A}.

#[export] Instance go_ret : MRet go := fun A a => Ret a.
#[export] Instance go_bind : MBind go := fun A B f m =>
  match m with Ret a => f a | Panic => Panic end.

(** A Go [(value, error)] pair in which the error decides. *)
Inductive res (E A : Type) : Type :=
| Good (a : A)
| Bad (e : E).
Arguments Good {E A} a.
Arguments Bad {E A} e.

(** ** Tactics *)

(** Case analysis on the first [if] or [match] of the goal or of a hypothesis. *)
Ltac destruct_match_goal :=
  match goal with
  | |- context [match ?x with _ => _ end] => destruct x eqn:?
  end.
Ltac destruct_match_hyp :=
  match goal with
  | H : context [match ?x with _ => _ end] |- _ => destruct x eqn:?
  end.
Ltac case_all := repeat (destruct_match_goal; simplify_eq/=).
Ltac case_hyps := repeat (destruct_match_hyp; simplify_eq/=).

(** Booleans that come from [Z] comparisons, as propositions. *)
Ltac zbool :=
  repeat match goal with
  | H : (_ <? _) = true |- _ => apply Z.ltb_lt in H
  | H : (_ <? _) = false |- _ => apply Z.ltb_ge in H
  | H : (_ <=? _) = true |- _ => apply Z.leb_le in H
  | H : (_ <=? _) = false |- _ => apply Z.leb_gt in H
  | H : (_ =? _) = true |- _ => apply Z.eqb_eq in H
  | H : (_ =? _) = false |- _ => apply Z.eqb_neq in H
  | H : _ && _ = true |- _ => apply andb_true_iff in H as [? ?]
  | H : _ && _ = false |- _ => apply andb_false_iff in H
  | H : _ || _ = true |- _ => apply orb_true_iff in H
  | H : _ || _ = false |- _ => apply orb_false_iff in H as [? ?]
  | H : negb _ = true |- _ => apply negb_true_iff in H
  | H : negb _ = false |- _ => apply negb_false_iff in H
  | H : bool_decide _ = true |- _ => apply bool_decide_eq_true in H
  | H : bool_decide _ = false |- _ => apply bool_decide_eq_false in H
  end.

(** Succeeds when [P] is not a hypothesis yet. *)
Ltac unlearned P := lazymatch goal with H : P |- _ => fail | |- _ => idtac end.

Create HintDb catpaw.

(** ** Arithmetic lemmas *)

Lemma i64_id z : in_i64 z -> i64 z = z.
Proof. unfold in_i64, i64, min_i64, max_i64. intros. rewrite Z.mod_small; lia. Qed.

Lemma i64_range z : in_i64 (i64 z).
Proof.
  unfold in_i64, i64, min_i64, max_i64.
  pose proof (Z.mod_pos_bound (z + 2 ^ 63) (2 ^ 64)). lia.
Qed.

Lemma in_i64_small z : - 2 ^ 62 <= z <= 2 ^ 62 -> in_i64 z.
Proof. unfold in_i64, min_i64, max_i64. lia. Qed.

#[export] Hint Resolve i64_range in_i64_small i64_id : catpaw.
#[export] Hint Extern 5 (_ <= _ <= _) => lia : catpaw.
#[export] Hint Extern 5 (_ <= _) => lia : catpaw.

Lemma zlen_nil {A} : zlen (@nil A) = 0.
Proof. done. Qed.
Lemma zlen_cons {A} (x : A) l : zlen (x :: l) = 1 + zlen l.
Proof. unfold zlen. simpl. lia. Qed.
Lemma zlen_app {A} (l k : list A) : zlen (l ++ k) = zlen l + zlen k.
Proof. unfold zlen. rewrite length_app. lia. Qed.
Lemma zlen_nonneg {A} (l : list A) : 0 <= zlen l.
Proof. unfold zlen. lia. Qed.
Lemma zlen_zero {A} (l : list A) : zlen l = 0 -> l = [].
Proof. destruct l; [done|]. unfold zlen. simpl. lia. Qed.
Lemma zlen_reverse {A} (l : list A) : zlen (reverse l) = zlen l.
Proof. unfold zlen. by rewrite length_reverse. Qed.
Lemma zlen_to_nat {A} (l : list A) : Z.to_nat (zlen l) = length l.
Proof. unfold zlen. lia. Qed.
Lemma filter_all {A} (P : A -> Prop) `{!forall x, Decision (P x)} (l : list A) :
  Forall P l -> filter P l = l.
Proof. induction 1 as [|x l Hx Hl IH]; [done|]. rewrite filter_cons_True by done. by rewrite IH. Qed.
Lemma filter_none {A} (P : A -> Prop) `{!forall x, Decision (P x)} l : Forall (fun x => ~ P x) l -> filter P l = [].
Proof. induction 1; [done|]. by rewrite filter_cons_False. Qed.
Create Rewrite HintDb len.
#[export] Hint Rewrite @zlen_nil @zlen_cons @zlen_app : len.
#[export] Hint Resolve zlen_nonneg : catpaw.
