(* ===== verification/GoStr.v ===== *)
(** * Go strings: bytes, UTF-8 decoding and the [strings]/[fmt] helpers the agent uses

    A Go string is a sequence of bytes; here it is Rocq's [string], whose
    characters are bytes.  [decode_rune], [runes] and [encode_rune] follow
    package unicode/utf8 (first-byte table and accept ranges). *)
From S2P Require Import Prelude.

(** ** Bytes and slicing *)
Definition byte_val (c : ascii) : Z := Z.of_N (N_of_ascii c).
Definition byte (z : Z) : ascii := ascii_of_N (Z.to_N z).

(** [s[:n]] and [s[n:]] for [0 <= n <= len(s)]. *)
Fixpoint stake (n : nat) (s : string) : string :=
  match n, s with
  | S n', String c s' => String c (stake n' s')
  | _, _ => ""
  end.
Fixpoint sdrop (n : nat) (s : string) : string :=
  match n, s with
  | S n', String _ s' => sdrop n' s'
  | O, _ => s
  | S _, "" => ""
  end.
(** [s[i]], within bounds. *)
Fixpoint sget (n : nat) (s : string) : option Z :=
  match s with
  | "" => None
  | String c s' => match n with O => Some (byte_val c) | S n' => sget n' s' end
  end.

(** ** UTF-8 *)
Definition RuneError : Z := 65533.
Definition in_range (lo hi b : Z) : bool := (lo <=? b) && (b <=? hi).
Definition is_cont (b : Z) : bool := in_range 128 191 b.
(** [utf8.RuneStart]: [b & 0xC0 != 0x80]. *)
Definition RuneStart (b : Z) : bool := negb (Z.land b 192 =? 128).

(** Accept range of the second byte, by first byte. *)
Definition accept_lo (b0 : Z) : Z := if b0 =? 224 then 160 else if b0 =? 240 then 144 else 128.
Definition accept_hi (b0 : Z) : Z := if b0 =? 237 then 159 else if b0 =? 244 then 143 else 191.

(** Values of the encodings of two, three and four bytes. *)
Definition rune2 (b0 b1 : Z) : Z := (b0 - 192) * 64 + (b1 - 128).
Definition rune3 (b0 b1 b2 : Z) : Z := (b0 - 224) * 4096 + (b1 - 128) * 64 + (b2 - 128).
Definition rune4 (b0 b1 b2 b3 : Z) : Z :=
  (b0 - 240) * 262144 + (b1 - 128) * 4096 + (b2 - 128) * 64 + (b3 - 128).

(** [utf8.DecodeRuneInString] on the byte values. *)
Definition decode_bytes (l : list Z) : Z * nat :=
  match l with
  | [] => (RuneError, 0%nat)
  | b0 :: l1 =>
    if b0 <? 128 then (b0, 1%nat)
    else if in_range 194 223 b0 then
      match l1 with
      | b1 :: _ => if is_cont b1 then (rune2 b0 b1, 2%nat) else (RuneError, 1%nat)
      | [] => (RuneError, 1%nat)
      end
    else if in_range 224 239 b0 then
      match l1 with
      | b1 :: b2 :: _ =>
        if in_range (accept_lo b0) (accept_hi b0) b1 && is_cont b2
        then (rune3 b0 b1 b2, 3%nat) else (RuneError, 1%nat)
      | _ => (RuneError, 1%nat)
      end
    else if in_range 240 244 b0 then
      match l1 with
      | b1 :: b2 :: b3 :: _ =>
        if in_range (accept_lo b0) (accept_hi b0) b1 && is_cont b2 && is_cont b3
        then (rune4 b0 b1 b2 b3, 4%nat) else (RuneError, 1%nat)
      | _ => (RuneError, 1%nat)
      end
    else (RuneError, 1%nat)
  end.

(** The next (at most four) byte values of a string. *)
Fixpoint peek (n : nat) (s : string) : list Z :=
  match n, s with
  | S n', String c s' => byte_val c :: peek n' s'
  | _, _ => []
  end.

Definition DecodeRune (s : string) : Z * nat := decode_bytes (peek 4 s).

(** [[]rune(s)], the runes a [range] loop over the string visits: [skip]
    counts the bytes left of the rune being consumed. *)
Fixpoint runes_from (skip : nat) (s : string) : list Z :=
  match s with
  | "" => []
  | String _ s' =>
    match skip with
    | S k => runes_from k s'
    | O => let '(r, n) := DecodeRune s in r :: runes_from (n - 1) s'
    end
  end.
Definition runes (s : string) : list Z := runes_from 0 s.
Definition RuneCount (s : string) : Z := zlen (runes s).

(** [utf8.ValidRune]. *)
Definition ValidRune (r : Z) : bool := in_range 0 55295 r || in_range 57344 1114111 r.

(** [string(rune)]: invalid runes are written as U+FFFD. *)
Definition encode_valid (r : Z) : list Z :=
  if r <? 128 then [r]
  else if r <? 2048 then [192 + r / 64; 128 + r mod 64]
  else if r <? 65536 then [224 + r / 4096; 128 + (r / 64) mod 64; 128 + r mod 64]
  else [240 + r / 262144; 128 + (r / 4096) mod 64; 128 + (r / 64) mod 64; 128 + r mod 64].
Definition encode_bytes (r : Z) : list Z :=
  if ValidRune r then encode_valid r else encode_valid RuneError.

Fixpoint of_bytes (l : list Z) : string :=
  match l with [] => "" | b :: l' => String (byte b) (of_bytes l') end.
Definition encode_rune (r : Z) : string := of_bytes (encode_bytes r).

(** [string([]rune)]. *)
Fixpoint of_runes (l : list Z) : string :=
  match l with [] => "" | r :: l' => encode_rune r +:+ of_runes l' end.

(** ** Package strings *)
Fixpoint Contains (s sub : string) : bool :=
  String.prefix sub s || match s with "" => false | String _ s' => Contains s' sub end.
Definition HasPrefix (s pre : string) : bool := String.prefix pre s.
Definition HasSuffix (s suf : string) : bool :=
  (slen suf <=? slen s) &&
  bool_decide (sdrop (String.length s - String.length suf) s = suf).
(** [strings.ContainsRune], for a set of ASCII runes. *)
Definition ContainsRune (set : string) (r : Z) : bool := bool_decide (r ∈ runes set).
(** The texts written to a [strings.Builder] one after the other. *)
Definition concat_lines (l : list string) : string := foldr (fun a b => a +:+ b) "" l.
Fixpoint Join (l : list string) (sep : string) : string :=
  match l with
  | [] => ""
  | [x] => x
  | x :: l' => x +:+ sep +:+ Join l' sep
  end.

(** [strings.ToLower], up to the letters no ASCII letter comes from: besides
    [A]-[Z] only U+0130 and U+212A have an ASCII lower case, and the agent only
    searches the result for ASCII substrings. *)
Definition lower_rune (r : Z) : Z :=
  if in_range 65 90 r then r + 32
  else if r =? 304 then 105
  else if r =? 8490 then 107
  else r.
Definition ToLower (s : string) : string := of_runes (map lower_rune (runes s)).

(** [strings.ToUpper], likewise: besides [a]-[z] only U+0131 and U+017F have an
    ASCII upper case. *)
Definition upper_rune (r : Z) : Z :=
  if in_range 97 122 r then r - 32
  else if r =? 305 then 73
  else if r =? 383 then 83
  else r.
Definition ToUpper (s : string) : string := of_runes (map upper_rune (runes s)).

(** [unicode.IsSpace]. *)
Definition IsSpace (r : Z) : bool :=
  in_range 9 13 r || (r =? 32) || (r =? 133) || (r =? 160) || (r =? 5760)
  || in_range 8192 8202 r || (r =? 8232) || (r =? 8233) || (r =? 8239)
  || (r =? 8287) || (r =? 12288).

(** The runes of a string, each with its bytes. *)
Fixpoint segments_from (skip : nat) (s : string) : list (Z * string) :=
  match s with
  | "" => []
  | String _ s' =>
    match skip with
    | S k => segments_from k s'
    | O => let '(r, n) := DecodeRune s in (r, stake n s) :: segments_from (n - 1) s'
    end
  end.
Definition segments (s : string) : list (Z * string) := segments_from 0 s.

Fixpoint drop_spaces (l : list (Z * string)) : list (Z * string) :=
  match l with
  | (r, b) :: l' => if IsSpace r then drop_spaces l' else l
  | [] => []
  end.
Fixpoint concat_bytes (l : list (Z * string)) : string :=
  match l with [] => "" | (_, b) :: l' => b +:+ concat_bytes l' end.
Definition TrimSpace (s : string) : string :=
  concat_bytes (reverse (drop_spaces (reverse (drop_spaces (segments s))))).

(** [sort.Strings]: bytewise lexicographic order. *)
Definition sort_Strings (l : list string) : list string := merge_sort String.le l.

(** ** Package fmt *)
(** [%d]. *)
Definition itoa (z : Z) : string := pretty z.
Fixpoint spaces (n : nat) : string := match n with O => "" | S n' => String " " (spaces n') end.
(** [%-ws]: pad on the right to [w] runes. *)
Definition pad_right (w : Z) (s : string) : string := s +:+ spaces (Z.to_nat (w - RuneCount s)).
Definition newline : string := String (ascii_of_N 10) "".

(** [strconv.Quote], the [%q] of package fmt.  [is_print] stands for the table
    of printable characters above U+007F. *)
Definition hex_digit (d : Z) : ascii := byte (if d <? 10 then 48 + d else 87 + d).
Fixpoint hex (width : nat) (z : Z) : string :=
  match width with
  | O => ""
  | S w => hex w (z / 16) +:+ String (hex_digit (z mod 16)) ""
  end.
Section quote.
Variable is_print : Z -> bool.
Definition IsPrint (r : Z) : bool := if r <? 128 then in_range 32 126 r else is_print r.
(** The rune [r] is written in [b]; a byte that does not decode is escaped as such. *)
Definition quote_rune (rb : Z * string) : string :=
  let '(r, b) := rb in
  if (slen b =? 1) && (r =? RuneError) then "\x" +:+ hex 2 (default 0 (sget 0 b))
  else if (r =? 34) || (r =? 92) then "\" +:+ b
  else if IsPrint r then b
  else if r =? 7 then "\a"
  else if r =? 8 then "\b"
  else if r =? 12 then "\f"
  else if r =? 10 then "\n"
  else if r =? 13 then "\r"
  else if r =? 9 then "\t"
  else if r =? 11 then "\v"
  else if (r <? 32) || (r =? 127) then "\x" +:+ hex 2 r
  else if r <? 65536 then "\u" +:+ hex 4 r
  else "\U" +:+ hex 8 r.
Definition dquote : string := String (ascii_of_N 34) "".
Definition Quote (s : string) : string :=
  dquote +:+ foldr (fun rb t => quote_rune rb +:+ t) "" (segments s) +:+ dquote.
End quote.

(** ** Lemmas on sorting *)

Lemma sort_Strings_perm l : sort_Strings l ≡ₚ l.
Proof. apply merge_sort_Permutation. Qed.

Lemma sort_Strings_sorted l : Sorted String.le (sort_Strings l).
Proof. apply Sorted_merge_sort, _. Qed.

(** The sorted list does not depend on the order in which a map hands out
    its keys. *)
Lemma sort_Strings_unique l k : l ≡ₚ k -> sort_Strings l = sort_Strings k.
Proof.
  intros H. apply (Sorted_unique String.le); try apply sort_Strings_sorted.
  by rewrite !sort_Strings_perm.
Qed.

(** ** Lemmas on bytes and slices *)

Lemma byte_val_byte b : 0 <= b <= 255 -> byte_val (byte b) = b.
Proof. intros. unfold byte_val, byte. rewrite N_ascii_embedding; lia. Qed.

Lemma byte_val_range c : 0 <= byte_val c <= 255.
Proof. unfold byte_val. pose proof (N_ascii_bounded c). lia. Qed.

Lemma sapp_cons c s t : String c s +:+ t = String c (s +:+ t).
Proof. reflexivity. Qed.
Lemma sapp_nil t : "" +:+ t = t.
Proof. reflexivity. Qed.
Lemma slen_cons c s : slen (String c s) = 1 + slen s.
Proof. unfold slen. cbn [String.length]. lia. Qed.

Lemma slen_empty : slen "" = 0.
Proof. done. Qed.
Lemma length_app_str s t : String.length (s +:+ t) = (String.length s + String.length t)%nat.
Proof. induction s as [|c s IH]; [done|]. rewrite sapp_cons. cbn. by rewrite IH. Qed.

Lemma slen_app s t : slen (s +:+ t) = slen s + slen t.
Proof. induction s as [|c s IH]; [done|]. rewrite sapp_cons, !slen_cons. lia. Qed.

Lemma slen_nonneg s : 0 <= slen s.
Proof. unfold slen. lia. Qed.

Lemma string_app_nil_r s : s +:+ "" = s.
Proof. induction s as [|c s IH]; [done|]; rewrite !sapp_cons; by rewrite IH. Qed.

Lemma string_app_assoc s t u : (s +:+ t) +:+ u = s +:+ (t +:+ u).
Proof. induction s as [|c s IH]; [done|]; rewrite !sapp_cons; by rewrite IH. Qed.

Lemma slen_stake n s : slen (stake n s) = Z.min (Z.of_nat n) (slen s).
Proof.
  unfold slen. revert s. induction n as [|n IH]; intros [|c s];
    cbn [stake String.length]; try lia.
  specialize (IH s). lia.
Qed.

Lemma stake_sdrop n s : stake n s +:+ sdrop n s = s.
Proof. revert s. induction n as [|n IH]; intros [|c s]; cbn [stake sdrop]; try done. by rewrite sapp_cons, IH. Qed.

Lemma stake_all n s : (String.length s <= n)%nat -> stake n s = s.
Proof.
  revert s. induction n as [|n IH]; intros [|c s] H; simpl in *; try done; try lia.
  rewrite IH; [done | lia].
Qed.

#[export] Hint Resolve slen_nonneg : catpaw.
#[export] Hint Rewrite slen_app slen_stake slen_empty : len.

(** Arithmetic on lengths: they distribute over appends and are not negative. *)
Ltac len_facts :=
  autorewrite with len in *;
  repeat match goal with
  | |- context [slen ?s] => unlearned (0 <= slen s); pose proof (slen_nonneg s)
  | |- context [zlen ?l] => unlearned (0 <= zlen l); pose proof (zlen_nonneg l)
  | _ : context [zlen ?l] |- _ => unlearned (0 <= zlen l); pose proof (zlen_nonneg l)
  end.
Ltac len_lia := len_facts; lia.

(** ** Lemmas on UTF-8 *)

Lemma in_range_true lo hi b : lo <= b <= hi -> in_range lo hi b = true.
Proof. intros. unfold in_range. apply andb_true_iff. split; apply Z.leb_le; lia. Qed.

Lemma in_range_false lo hi b : b < lo \/ hi < b -> in_range lo hi b = false.
Proof. intros [?|?]; unfold in_range; apply andb_false_iff; [left|right]; apply Z.leb_gt; lia. Qed.

Lemma in_range_spec lo hi b : in_range lo hi b = true <-> lo <= b <= hi.
Proof. unfold in_range. rewrite andb_true_iff, !Z.leb_le. done. Qed.

Lemma ValidRune_spec r : ValidRune r = true <-> 0 <= r <= 55295 \/ 57344 <= r <= 1114111.
Proof. unfold ValidRune. rewrite orb_true_iff, !in_range_spec. done. Qed.

Lemma encode_valid_range r : ValidRune r = true -> Forall (fun b => 0 <= b <= 255) (encode_valid r).
Proof.
  intros H%ValidRune_spec. unfold encode_valid.
  repeat case_match; zbool; repeat constructor; Z.div_mod_to_equations; lia.
Qed.

(** Resolves the tests of [decode_bytes] and [encode_valid] by arithmetic. *)
Ltac utf8_step :=
  first
    [ rewrite (proj2 (Z.ltb_lt _ _)) by (Z.div_mod_to_equations; lia)
    | rewrite (proj2 (Z.ltb_ge _ _)) by (Z.div_mod_to_equations; lia)
    | rewrite in_range_true by (Z.div_mod_to_equations; lia)
    | rewrite in_range_false by (Z.div_mod_to_equations; lia) ].

Lemma accept3 r :
  2048 <= r < 65536 -> ValidRune r = true ->
  in_range (accept_lo (224 + r / 4096)) (accept_hi (224 + r / 4096)) (128 + (r / 64) mod 64) = true.
Proof.
  intros Hr H%ValidRune_spec. apply in_range_true. unfold accept_lo, accept_hi.
  repeat case_match; zbool; Z.div_mod_to_equations; lia.
Qed.

Lemma accept4 r :
  65536 <= r -> ValidRune r = true ->
  in_range (accept_lo (240 + r / 262144)) (accept_hi (240 + r / 262144)) (128 + (r / 4096) mod 64) = true.
Proof.
  intros Hr H%ValidRune_spec. apply in_range_true. unfold accept_lo, accept_hi.
  repeat case_match; zbool; Z.div_mod_to_equations; lia.
Qed.

Lemma cont_mod z : is_cont (128 + z mod 64) = true.
Proof. apply in_range_true. Z.div_mod_to_equations; lia. Qed.

Lemma decode_encode_valid r rest :
  ValidRune r = true ->
  decode_bytes (encode_valid r ++ rest) = (r, length (encode_valid r)).
Proof.
  intros Hv. pose proof Hv as Hr. apply ValidRune_spec in Hr. unfold encode_valid.
  destruct (r <? 128) eqn:E1; [|destruct (r <? 2048) eqn:E2; [|destruct (r <? 65536) eqn:E3]];
    zbool; cbn [decode_bytes app length].
  - by utf8_step.
  - do 2 utf8_step. rewrite cont_mod. f_equal. unfold rune2. Z.div_mod_to_equations; lia.
  - do 3 utf8_step. rewrite accept3, cont_mod by (done || lia). cbn [andb].
    f_equal. unfold rune3. Z.div_mod_to_equations; lia.
  - do 4 utf8_step. rewrite accept4, !cont_mod by (done || lia). cbn [andb].
    f_equal. unfold rune4. Z.div_mod_to_equations; lia.
Qed.

Lemma decode_valid l : Forall (fun b => 0 <= b) l -> ValidRune (decode_bytes l).1 = true.
Proof.
  intros Hl. apply ValidRune_spec. unfold decode_bytes, is_cont.
  destruct Hl as [|b0 l H0 Hl]; [cbn; unfold RuneError; lia|].
  repeat case_match; cbn [fst]; unfold RuneError, rune2, rune3, rune4; zbool;
    repeat match goal with
    | H : in_range _ _ _ = true |- _ => apply in_range_spec in H
    | H : (_ && _) && _ = true |- _ => apply andb_true_iff in H as [? ?]
    | H : _ && _ = true |- _ => apply andb_true_iff in H as [? ?]
    end; unfold accept_lo, accept_hi in *; repeat case_match; zbool; lia.
Qed.

Lemma decode_size l : (length l > 0)%nat ->
  (1 <= (decode_bytes l).2 <= length l)%nat /\ ((decode_bytes l).2 <= 4)%nat.
Proof.
  intros H. unfold decode_bytes. destruct l as [|b0 [|b1 [|b2 [|b3 l]]]];
    repeat case_match; cbn [fst snd length] in *; lia.
Qed.

Lemma peek_length n s : length (peek n s) = Nat.min n (String.length s).
Proof.
  revert s. induction n as [|n IH]; intros [|c s]; cbn [peek String.length length]; try done.
  rewrite IH. lia.
Qed.

Lemma peek_nonneg n s : Forall (fun b => 0 <= b) (peek n s).
Proof.
  revert s. induction n as [|n IH]; intros [|c s]; cbn [peek]; constructor; [|done].
  apply byte_val_range.
Qed.

Lemma DecodeRune_size s : s <> "" ->
  (1 <= (DecodeRune s).2 <= String.length s)%nat /\ ((DecodeRune s).2 <= 4)%nat.
Proof.
  intros Hs. unfold DecodeRune. pose proof (peek_length 4 s) as Hl.
  destruct s as [|c s]; [done|]. cbn [String.length] in *.
  destruct (decode_size (peek 4 (String c s))) as [??]; lia.
Qed.

Lemma runes_from_sdrop k s : runes_from k s = runes (sdrop k s).
Proof. revert s. induction k as [|k IH]; intros [|c s]; try done. apply IH. Qed.

(** One step of a [range] loop over a string. *)
Lemma runes_step s : s <> "" ->
  runes s = (DecodeRune s).1 :: runes (sdrop (DecodeRune s).2 s).
Proof.
  intros Hs. destruct s as [|c s]; [done|].
  destruct (DecodeRune_size (String c s)) as [[Hn _] _]; [done|].
  unfold runes at 1. cbn [runes_from].
  destruct (DecodeRune (String c s)) as [r [|n]]; cbn [fst snd] in *; [lia|].
  cbn [Nat.sub sdrop]. rewrite Nat.sub_0_r. by rewrite runes_from_sdrop.
Qed.

Lemma length_sdrop n s : String.length (sdrop n s) = (String.length s - n)%nat.
Proof. revert s. induction n as [|n IH]; intros [|c s]; cbn [sdrop String.length]; try done. Qed.

(** Induction along the decoding of a string. *)
Lemma runes_ind (P : string -> Prop) :
  P "" ->
  (forall s, s <> "" -> P (sdrop (DecodeRune s).2 s) -> P s) ->
  forall s, P s.
Proof.
  intros H0 Hstep s. remember (String.length s) as n eqn:Hn.
  revert s Hn. induction (lt_wf n) as [n _ IH]. intros s ->.
  destruct s as [|c s]; [done|]. apply Hstep; [done|].
  apply (IH (String.length (sdrop (DecodeRune (String c s)).2 (String c s)))); [|done].
  destruct (DecodeRune_size (String c s)) as [? _]; [done|]. rewrite length_sdrop. lia.
Qed.

Lemma runes_valid s : Forall (fun r => ValidRune r = true) (runes s).
Proof.
  induction s as [|s Hs IH] using runes_ind; [constructor|].
  rewrite runes_step by done. constructor; [|done].
  apply decode_valid, peek_nonneg.
Qed.

(** A string whose first byte does not continue a rune. *)
Definition starts_rune (t : string) : Prop :=
  match t with "" => True | String c _ => is_cont (byte_val c) = false end.

Lemma in_accept_is_cont b0 b1 :
  in_range (accept_lo b0) (accept_hi b0) b1 = true -> is_cont b1 = true.
Proof.
  unfold is_cont, accept_lo, accept_hi. rewrite !in_range_spec.
  repeat case_match; lia.
Qed.

Lemma not_cont_not_accept b0 b1 :
  is_cont b1 = false -> in_range (accept_lo b0) (accept_hi b0) b1 = false.
Proof.
  intros H. destruct (in_range _ _ _) eqn:E; [|done].
  apply in_accept_is_cont in E. congruence.
Qed.

(** Decoding does not look past a rune boundary. *)
Lemma DecodeRune_app s t : s <> "" -> starts_rune t -> DecodeRune (s +:+ t) = DecodeRune s.
Proof.
  intros Hs Ht. unfold DecodeRune.
  destruct s as [|c0 [|c1 [|c2 [|c3 s]]]]; [done| | | |];
    destruct t as [|d t]; rewrite ?string_app_nil_r; try done;
    rewrite ?sapp_cons, ?sapp_nil; cbn [starts_rune peek decode_bytes] in *;
    rewrite ?Ht, ?(not_cont_not_accept _ _ Ht), ?andb_false_r; cbn [andb];
    repeat case_match; simplify_eq; done.
Qed.

Lemma sdrop_sdrop n m s : sdrop n (sdrop m s) = sdrop (m + n) s.
Proof. revert s. induction m as [|m IH]; intros [|c s]; [done..|by destruct n|apply IH]. Qed.

Lemma sdrop_all n s : (String.length s <= n)%nat -> sdrop n s = "".
Proof. revert s. induction n as [|n IH]; intros [|c s] H; cbn in *; [done|lia|done|].
  apply IH. lia. Qed.

Lemma sdrop_app n s t : (n <= String.length s)%nat -> sdrop n (s +:+ t) = sdrop n s +:+ t.
Proof.
  revert s. induction n as [|n IH]; intros [|c s] H; cbn [String.length] in *; try done; [lia|].
  rewrite sapp_cons. apply IH. lia.
Qed.

Lemma HasPrefix_spec s pre : HasPrefix s pre = true <-> exists r, s = pre +:+ r.
Proof.
  unfold HasPrefix. revert s. induction pre as [|c pre IH]; intros s.
  { split; [by exists s|by destruct s]. }
  destruct s as [|d s].
  { split; [done|]. intros [r Hr]. by rewrite sapp_cons in Hr. }
  change (String.prefix (String c pre) (String d s))
    with (if ascii_dec c d then String.prefix pre s else false).
  destruct (ascii_dec c d) as [<-|Hne].
  - rewrite IH. split; intros [r Hr]; exists r; rewrite sapp_cons in *; congruence.
  - split; [done|]. intros [r Hr]. rewrite sapp_cons in Hr. congruence.
Qed.

Lemma runes_app s t : starts_rune t -> runes (s +:+ t) = runes s ++ runes t.
Proof.
  intros Ht. induction s as [|s Hs IH] using runes_ind; [done|].
  rewrite (runes_step s), runes_step by (done || by destruct s).
  rewrite DecodeRune_app by done. rewrite sdrop_app by by apply DecodeRune_size.
  by rewrite IH.
Qed.

Lemma peek_of_bytes n l s :
  Forall (fun b => 0 <= b <= 255) l -> (length l <= n)%nat ->
  peek n (of_bytes l +:+ s) = l ++ peek (n - length l) s.
Proof.
  intros Hl. revert n. induction Hl as [|b l Hb Hl IH]; intros n Hn;
    [by rewrite Nat.sub_0_r|].
  destruct n as [|n]; cbn [length] in *; [lia|].
  cbn [of_bytes]. rewrite sapp_cons. cbn [peek app].
  rewrite byte_val_byte by done. by rewrite IH by lia.
Qed.

Lemma length_of_bytes l : String.length (of_bytes l) = length l.
Proof. induction l; cbn; congruence. Qed.

Lemma sdrop_of_bytes l s : sdrop (length l) (of_bytes l +:+ s) = s.
Proof. induction l as [|b l IH]; [by destruct s|]. apply IH. Qed.

Lemma encode_valid_length r : (1 <= length (encode_valid r) <= 4)%nat.
Proof. unfold encode_valid. repeat case_match; cbn; lia. Qed.

(** Decoding undoes encoding, whatever follows. *)
Lemma runes_encode_app r s : ValidRune r = true -> runes (encode_rune r +:+ s) = r :: runes s.
Proof.
  intros Hr. unfold encode_rune, encode_bytes. rewrite Hr.
  pose proof (encode_valid_length r) as Hlen. pose proof (encode_valid_range r Hr) as Hrange.
  rewrite runes_step.
  - assert (DecodeRune (of_bytes (encode_valid r) +:+ s) = (r, length (encode_valid r))) as ->.
    { unfold DecodeRune. rewrite peek_of_bytes by (done || lia). by apply decode_encode_valid. }
    cbn [fst snd]. by rewrite sdrop_of_bytes.
  - destruct (encode_valid r); cbn in *; [lia | done].
Qed.

Lemma runes_of_runes l : Forall (fun r => ValidRune r = true) l -> runes (of_runes l) = l.
Proof.
  induction 1 as [|r l Hr Hl IH]; [done|]. cbn [of_runes].
  rewrite runes_encode_app by done. by rewrite IH.
Qed.

Lemma RuneCount_app s t : starts_rune t -> RuneCount (s +:+ t) = RuneCount s + RuneCount t.
Proof. intros. unfold RuneCount. by rewrite runes_app, zlen_app. Qed.

Lemma RuneCount_nonneg s : 0 <= RuneCount s.
Proof. apply zlen_nonneg. Qed.

(** Every rune takes at least one byte. *)
Lemma RuneCount_le_slen s : RuneCount s <= slen s.
Proof.
  unfold RuneCount. induction s as [|s Hs IH] using runes_ind; [done|].
  rewrite runes_step by done. rewrite zlen_cons.
  destruct (DecodeRune_size s Hs) as [[? ?] _].
  unfold slen in *. rewrite length_sdrop in IH. lia.
Qed.

#[export] Hint Resolve RuneCount_nonneg runes_valid : catpaw.

(** ** Segments: the runes with their bytes *)

Lemma segments_from_sdrop k s : segments_from k s = segments (sdrop k s).
Proof. revert s. induction k as [|k IH]; intros [|c s]; try done. apply IH. Qed.

Lemma segments_step s : s <> "" ->
  segments s = ((DecodeRune s).1, stake (DecodeRune s).2 s) :: segments (sdrop (DecodeRune s).2 s).
Proof.
  intros Hs. destruct s as [|c s]; [done|].
  destruct (DecodeRune_size (String c s)) as [[Hn _] _]; [done|].
  unfold segments at 1. cbn [segments_from].
  destruct (DecodeRune (String c s)) as [r [|n]]; cbn [fst snd] in *; [lia|].
  cbn [Nat.sub sdrop]. rewrite Nat.sub_0_r. by rewrite segments_from_sdrop.
Qed.

Lemma stake_app n s t : (n <= String.length s)%nat -> stake n (s +:+ t) = stake n s.
Proof.
  revert s. induction n as [|n IH]; intros [|c s] H; cbn [String.length] in *;
    [by destruct t|done|lia|].
  rewrite sapp_cons. cbn [stake]. rewrite IH; [done|lia].
Qed.

Lemma stake_app_long n s t :
  (String.length s <= n)%nat -> stake n (s +:+ t) = s +:+ stake (n - String.length s) t.
Proof.
  revert n. induction s as [|c s IH]; intros n H; cbn [String.length] in *.
  - by rewrite !sapp_nil, Nat.sub_0_r.
  - destruct n as [|n]; [lia|]. rewrite !sapp_cons. cbn [stake Nat.sub]. rewrite IH; [done|lia].
Qed.

Lemma stake_stake n m s : stake n (stake m s) = stake (Nat.min n m) s.
Proof.
  revert m s. induction n as [|n IH]; intros [|m] [|c s]; cbn; [done..|by destruct n|done|by destruct n|]. by rewrite IH.
Qed.

Lemma segments_app s t : starts_rune t -> segments (s +:+ t) = segments s ++ segments t.
Proof.
  intros Ht. induction s as [|s Hs IH] using runes_ind; [done|].
  rewrite (segments_step s), segments_step by (done || by destruct s).
  rewrite DecodeRune_app by done.
  rewrite sdrop_app, stake_app by by apply DecodeRune_size.
  by rewrite IH.
Qed.

(** A string is the concatenation of the bytes of its segments. *)
Lemma concat_segments s : concat_bytes (segments s) = s.
Proof.
  induction s as [|s Hs IH] using runes_ind; [done|].
  rewrite segments_step by done. cbn [concat_bytes]. rewrite IH. apply stake_sdrop.
Qed.

Lemma concat_bytes_app l k : concat_bytes (l ++ k) = concat_bytes l +:+ concat_bytes k.
Proof. induction l as [|[r b] l IH]; [done|]. cbn. by rewrite IH, string_app_assoc. Qed.

Lemma DecodeRune_ascii c s : byte_val c < 128 -> DecodeRune (String c s) = (byte_val c, 1%nat).
Proof.
  intros Hc. unfold DecodeRune. cbn [peek decode_bytes].
  by destruct (byte_val c <? 128) eqn:E; zbool; [|lia].
Qed.

Lemma segments_ascii c s : byte_val c < 128 -> segments (String c s) = (byte_val c, String c "") :: segments s.
Proof. intros Hc. rewrite segments_step by done. rewrite DecodeRune_ascii by done. by destruct s. Qed.

Lemma starts_rune_ascii c s : byte_val c < 128 -> starts_rune (String c s).
Proof. intros Hc. cbn. unfold is_cont. apply in_range_false. lia. Qed.
