(* ===== verification/GoLib.v ===== *)
(** * Paths, dates and digests: [path/filepath] on Unix, [time.Time.Format],
    [crypto/sha256] *)
From S2P Require Import Prelude GoStr.
#[local] Open Scope Z_scope.

(** ** [strings.Split] on a one-byte separator *)
Fixpoint split_on (c : ascii) (s : string) : list string :=
  match s with
  | "" => [""]
  | String a s' =>
    if decide (a = c) then "" :: split_on c s'
    else
      match split_on c s' with
      | x :: l => String a x :: l
      | [] => [String a ""]
      end
  end.

(** ** [filepath.Clean] and [filepath.Join] *)
Definition slash : ascii := "/"%char.

(** The elements kept so far, last first. *)
Definition clean_step (rooted : bool) (out : list string) (e : string) : list string :=
  if bool_decide (e = "") || bool_decide (e = ".") then out
  else if bool_decide (e = "..") then
    match out with
    | top :: out' => if bool_decide (top = "..") then e :: out else out'
    | [] => if rooted then [] else [e]
    end
  else e :: out.

Definition Clean (path : string) : string :=
  if decide (path = "") then "."
  else
    let rooted := HasPrefix path "/" in
    let out := fold_left (clean_step rooted) (split_on slash path) [] in
    let body := Join (reverse out) "/" in
    if rooted then "/" +:+ body
    else if decide (body = "") then "." else body.

(** Leading empty elements are dropped; no element at all gives the empty path. *)
Fixpoint JoinPath (elem : list string) : string :=
  match elem with
  | [] => ""
  | e :: elem' => if decide (e = "") then JoinPath elem' else Clean (Join elem "/")
  end.

(** ** [Format(time.DateTime)], "2006-01-02 15:04:05" *)

(** Year, month and day of a number of days since 1970-01-01. *)
Definition civil (days : Z) : Z * Z * Z :=
  let z := days + 719468 in
  let era := z / 146097 in
  let doe := z mod 146097 in
  let yoe := (doe - doe / 1460 + doe / 36524 - doe / 146096) / 365 in
  let doy := doe - (365 * yoe + yoe / 4 - yoe / 100) in
  let mp := (5 * doy + 2) / 153 in
  let d := doy - (153 * mp + 2) / 5 + 1 in
  let m := if mp <? 10 then mp + 3 else mp - 9 in
  ((yoe + era * 400) + (if m <=? 2 then 1 else 0), m, d).

(** [n] written with at least [w] digits. *)
Fixpoint zeros (n : nat) : string := match n with O => "" | S n' => String "0" (zeros n') end.
Definition pad0 (w : Z) (n : Z) : string :=
  let s := itoa (Z.abs n) in
  (if n <? 0 then "-" else "") +:+ zeros (Z.to_nat (w - slen s)) +:+ s.

(** [t] is in Unix seconds; [zone] is the offset of the local time zone then. *)
Definition FormatDateTime (zone : Z -> Z) (t : Z) : string :=
  let local := t + zone t in
  let '(y, m, d) := civil (local / 86400) in
  let s := local mod 86400 in
  pad0 4 y +:+ "-" +:+ pad0 2 m +:+ "-" +:+ pad0 2 d +:+ " "
  +:+ pad0 2 (s / 3600) +:+ ":" +:+ pad0 2 (s / 60 mod 60) +:+ ":" +:+ pad0 2 (s mod 60).

Example Clean_ex : Clean "/a/./b//../c/" = "/a/c" /\ Clean "../x/.." = ".." /\ Clean "a/.." = ".".
Proof. split_and!; reflexivity. Qed.
Example JoinPath_ex : JoinPath [""; "state.d"; "diagnoses"; "x.json"] = "state.d/diagnoses/x.json".
Proof. reflexivity. Qed.
Example FormatDateTime_ex :
  FormatDateTime (fun _ => 28800) 1709164799 = "2024-02-29 07:59:59" /\
  FormatDateTime (fun _ => 0) 1704067199 = "2023-12-31 23:59:59".
Proof. split; vm_compute; reflexivity. Qed.

(** * [crypto/sha256]

    The digest of a string of bytes (FIPS 180-4), on words of 32 bits. *)
Definition w32 (z : Z) : Z := z mod 2 ^ 32.
Definition rotr (n x : Z) : Z := Z.lor (Z.shiftr x n) (w32 (Z.shiftl x (32 - n))).
Definition xor3 (a b c : Z) : Z := Z.lxor a (Z.lxor b c).

(** The constants are the first 32 bits of the fractional parts of the square
    roots of the first eight primes, and of the cube roots of the first 64. *)
Definition prime (n : Z) : bool := forallb (fun d => negb (n mod Z.of_nat d =? 0)) (seq 2 (Z.to_nat n - 2)).
Definition primes : list Z := filter (fun n => prime n = true) (map Z.of_nat (seq 2 310)).
Definition cube_root (n : Z) : Z :=
  fold_left (fun r i => let r' := r + 2 ^ Z.of_nat i in if r' ^ 3 <=? n then r' else r) (rev (seq 0 40)) 0.
Definition sha256_init : list Z := Eval vm_compute in map (fun p => w32 (Z.sqrt (p * 2 ^ 64))) (take 8 primes).
Definition sha256_k : list Z := Eval vm_compute in map (fun p => w32 (cube_root (p * 2 ^ 96))) primes.

(** The message schedule: the last sixteen words, newest last, give the next. *)
Fixpoint schedule (n : nat) (w : list Z) : list Z :=
  match n, w with
  | S n', w0 :: (w1 :: _) as w' =>
    let s0 := xor3 (rotr 7 w1) (rotr 18 w1) (Z.shiftr w1 3) in
    let w14 := nth 13 w' 0 in
    let s1 := xor3 (rotr 17 w14) (rotr 19 w14) (Z.shiftr w14 10) in
    w0 :: schedule n' (w' ++ [w32 (w0 + s0 + nth 8 w' 0 + s1)])
  | _, _ => w
  end.

Definition sha256_round (st : list Z) (kw : Z * Z) : list Z :=
  match st with
  | [a; b; c; d; e; f; g; h] =>
    let s1 := xor3 (rotr 6 e) (rotr 11 e) (rotr 25 e) in
    let ch := Z.lxor (Z.land e f) (Z.land (Z.lxor e (2 ^ 32 - 1)) g) in
    let t1 := h + s1 + ch + kw.1 + kw.2 in
    let s0 := xor3 (rotr 2 a) (rotr 13 a) (rotr 22 a) in
    let maj := xor3 (Z.land a b) (Z.land a c) (Z.land b c) in
    [w32 (t1 + s0 + maj); a; b; c; w32 (d + t1); e; f; g]
  | _ => st
  end.

Definition sha256_block (st words : list Z) : list Z :=
  zip_with (fun a b => w32 (a + b)) st (fold_left sha256_round (combine sha256_k (schedule 48 words)) st).

(** Big-endian words of the bytes, by four. *)
Fixpoint words (l : list Z) : list Z :=
  match l with
  | a :: b :: c :: d :: l' => (((a * 256 + b) * 256 + c) * 256 + d) :: words l'
  | _ => []
  end.
Fixpoint be_bytes (n : nat) (z : Z) : list Z :=
  match n with O => [] | S n' => be_bytes n' (z / 256) ++ [z mod 256] end.

Definition bytes_of (s : string) : list Z := map byte_val (String.list_ascii_of_string s).
Definition sha256_pad (l : list Z) : list Z :=
  let n := zlen l in
  l ++ [128] ++ repeat 0 (Z.to_nat ((55 - n) mod 64)) ++ be_bytes 8 ((8 * n) mod 2 ^ 64).

(** One round for each block of sixteen words. *)
Fixpoint sha256_blocks (n : nat) (ws st : list Z) : list Z :=
  match n with
  | O => st
  | S n' => sha256_blocks n' (drop 16 ws) (sha256_block st (take 16 ws))
  end.

(** [h.Sum(nil)]. *)
Definition sha256_Sum (s : string) : string :=
  let ws := words (sha256_pad (bytes_of s)) in
  of_bytes (concat (map (be_bytes 4) (sha256_blocks (length ws / 16) ws sha256_init))).

Example sha256_Sum_ex :
  map byte_val (String.list_ascii_of_string (stake 8 (sha256_Sum "abc"))) = [0xba; 0x78; 0x16; 0xbf; 0x8f; 0x01; 0xcf; 0xea].
Proof. vm_compute. reflexivity. Qed.

(** ** The digest has 32 bytes *)
Lemma be_bytes_length n z : length (be_bytes n z) = n.
Proof. revert z. induction n as [|n IH]; intros z; cbn; [done|]. rewrite length_app, IH. cbn. lia. Qed.

Lemma sha256_round_length st kw : length (sha256_round st kw) = length st.
Proof. unfold sha256_round. by do 9 (destruct st as [|? st]; [done|]). Qed.

Lemma sha256_block_length st ws : length (sha256_block st ws) = length st.
Proof.
  unfold sha256_block. rewrite length_zip_with.
  assert (forall l, length (fold_left sha256_round l st) = length st) as ->; [|lia].
  intros l. revert st. induction l as [|kw l IH]; intros st; cbn; [done|]. by rewrite IH, sha256_round_length.
Qed.

Lemma sha256_blocks_length n ws st : length (sha256_blocks n ws st) = length st.
Proof. revert ws st. induction n as [|n IH]; intros ws st; cbn; [done|]. by rewrite IH, sha256_block_length. Qed.

Lemma sha256_Sum_length s : slen (sha256_Sum s) = 32.
Proof.
  unfold sha256_Sum, slen. rewrite length_of_bytes.
  set (st := sha256_blocks _ _ _). assert (length st = 8%nat) as Hst by apply sha256_blocks_length. clearbody st.
  by do 9 (destruct st as [|? st]; try done).
Qed.
