(* ===== verification/Types.v ===== *)
(** * Events (digcore/types/event.go)

    The event record every plugin produces, its setters, the status
    predicates and the threshold evaluation on [float64]. *)
From S2P Require Import Prelude.
From Stdlib Require Export Floats.SpecFloat.
#[local] Open Scope Z_scope.

(** ** Statuses and attribute keys *)
Definition EventStatusCritical : string := "Critical".
Definition EventStatusWarning : string := "Warning".
Definition EventStatusInfo : string := "Info".
Definition EventStatusOk : string := "Ok".
Definition AttrCurrentValue : string := "current_value".
Definition AttrThresholdDesc : string := "threshold_desc".

(** A Go map that may be [nil]: reads of a nil map find nothing. *)
Abbreviation gomap V := (option (gmap string V)).

(** [m[k]] with the zero value [""] for a missing key. *)
Definition gomap_get (m : gomap string) (k : string) : string :=
  default "" (m ≫= lookup k).

(** [for k, v := range src { dst[k] = v }]: the keys of a map are distinct, so
    the order of the loop does not matter and the copies win over [dst]. *)
Definition copy_into (src : gomap string) (dst : gmap string string) : gmap string string :=
  match src with None => dst | Some m => m ∪ dst end.

(** [types.Event]; the struct tags only concern JSON. *)
Record Event := mkEvent {
  EventTime : Z;
  EventStatus : string;
  AlertKey : string;
  Labels : gomap string;
  Attrs : gomap string;
  Description : string;
  DescriptionFormat : string;
  FirstFireTime : Z;
  NotifyCount : Z;
  LastSent : Z
}.

Definition with_EventTime (t : Z) (e : Event) : Event :=
  mkEvent t (EventStatus e) (AlertKey e) (Labels e) (Attrs e) (Description e)
    (DescriptionFormat e) (FirstFireTime e) (NotifyCount e) (LastSent e).
Definition with_EventStatus (s : string) (e : Event) : Event :=
  mkEvent (EventTime e) s (AlertKey e) (Labels e) (Attrs e) (Description e)
    (DescriptionFormat e) (FirstFireTime e) (NotifyCount e) (LastSent e).
Definition with_AlertKey (k : string) (e : Event) : Event :=
  mkEvent (EventTime e) (EventStatus e) k (Labels e) (Attrs e) (Description e)
    (DescriptionFormat e) (FirstFireTime e) (NotifyCount e) (LastSent e).
Definition with_Labels (l : gomap string) (e : Event) : Event :=
  mkEvent (EventTime e) (EventStatus e) (AlertKey e) l (Attrs e) (Description e)
    (DescriptionFormat e) (FirstFireTime e) (NotifyCount e) (LastSent e).
Definition with_Attrs (a : gomap string) (e : Event) : Event :=
  mkEvent (EventTime e) (EventStatus e) (AlertKey e) (Labels e) a (Description e)
    (DescriptionFormat e) (FirstFireTime e) (NotifyCount e) (LastSent e).
Definition with_Description (d : string) (e : Event) : Event :=
  mkEvent (EventTime e) (EventStatus e) (AlertKey e) (Labels e) (Attrs e) d
    (DescriptionFormat e) (FirstFireTime e) (NotifyCount e) (LastSent e).
Definition with_FirstFireTime (t : Z) (e : Event) : Event :=
  mkEvent (EventTime e) (EventStatus e) (AlertKey e) (Labels e) (Attrs e) (Description e)
    (DescriptionFormat e) t (NotifyCount e) (LastSent e).
Definition with_NotifyCount (n : Z) (e : Event) : Event :=
  mkEvent (EventTime e) (EventStatus e) (AlertKey e) (Labels e) (Attrs e) (Description e)
    (DescriptionFormat e) (FirstFireTime e) n (LastSent e).
Definition with_LastSent (t : Z) (e : Event) : Event :=
  mkEvent (EventTime e) (EventStatus e) (AlertKey e) (Labels e) (Attrs e) (Description e)
    (DescriptionFormat e) (FirstFireTime e) (NotifyCount e) t.

Definition EventStatusValid (status : string) : bool :=
  if decide (status = EventStatusCritical) then true
  else if decide (status = EventStatusWarning) then true
  else if decide (status = EventStatusInfo) then true
  else if decide (status = EventStatusOk) then true
  else false.

(** ** Setters: they mutate the event and return it, for chaining *)
Definition SetEventStatus (e : Event) (status : string) : Event := with_EventStatus status e.
Definition SetEventTime (e : Event) (t : Z) : Event := with_EventTime t e.
Definition SetAttrs (e : Event) (attrs : gomap string) : Event :=
  with_Attrs (Some (copy_into attrs (default ∅ (Attrs e)))) e.
Definition SetCurrentValue (e : Event) (v : string) : Event :=
  with_Attrs (Some (<[AttrCurrentValue := v]> (default ∅ (Attrs e)))) e.
Definition SetDescription (e : Event) (desc : string) : Event := with_Description desc e.

(** ** Thresholds: [float64] values are [spec_float]s, so NaN, the infinities
    and signed zeros compare the way IEEE 754 and Go say *)
Definition f64_zero : spec_float := S754_zero false.
Definition f64_pos (f : spec_float) : bool := SFltb f64_zero f.

Definition EvaluateGeThreshold (value warnGe criticalGe : spec_float) : string :=
  if SFltb f64_zero criticalGe && SFleb criticalGe value then EventStatusCritical
  else if SFltb f64_zero warnGe && SFleb warnGe value then EventStatusWarning
  else EventStatusOk.

Definition BuildEvent (labelMaps : list (gomap string)) : Event :=
  mkEvent 0 EventStatusOk "" (Some (fold_left (fun acc m => copy_into m acc) labelMaps ∅))
    None "" "" 0 0 0.

(** [diagnose.SeverityRank] (digcore/diagnose/types.go). *)
Definition SeverityRank (status : string) : Z :=
  if decide (status = EventStatusCritical) then 3
  else if decide (status = EventStatusWarning) then 2
  else if decide (status = EventStatusInfo) then 1
  else 0.

(** ** Comparison of floats *)

Definition sf_le (a b : spec_float) : Prop := SFleb a b = true.

Lemma SFleb_trans a b c : sf_le a b -> sf_le b c -> sf_le a c.
Proof.
  unfold sf_le, SFleb.
  destruct a as [sa|sa| |sa ma ea], b as [sb|sb| |sb mb eb], c as [sc|sc| |sc mc ec];
    try destruct sa; try destruct sb; try destruct sc; cbn; try done;
    repeat match goal with |- context [Z.compare ?x ?y] => destruct (Z.compare_spec x y) end;
    repeat match goal with |- context [Pos.compare_cont Eq ?x ?y] =>
      change (Pos.compare_cont Eq x y) with (Pos.compare x y); destruct (Pos.compare_spec x y) end;
    cbn; try done; subst; try lia.
Qed.

Lemma EventStatusValid_spec s :
  EventStatusValid s = true <->
  s = EventStatusCritical \/ s = EventStatusWarning \/ s = EventStatusInfo \/ s = EventStatusOk.
Proof. unfold EventStatusValid. repeat case_decide; intuition congruence. Qed.

Lemma SeverityRank_range s : 0 <= SeverityRank s <= 3.
Proof. unfold SeverityRank. repeat case_decide; lia. Qed.

(** Statuses rank above [Ok] exactly when they are alerts. *)
Lemma SeverityRank_pos s :
  EventStatusValid s = true -> (0 < SeverityRank s <-> s <> EventStatusOk).
Proof.
  rewrite EventStatusValid_spec. unfold SeverityRank.
  intros [-> | [-> | [-> | ->]]]; vm_compute; split; intros; done.
Qed.

Lemma copy_into_lookup src dst k :
  copy_into src dst !! k = match src ≫= lookup k with Some v => Some v | None => dst !! k end.
Proof.
  destruct src as [m|]; cbn; [|done]. destruct (m !! k) eqn:E.
  - by rewrite (lookup_union_Some_l _ _ _ _ E).
  - by rewrite (lookup_union_r _ _ _ E).
Qed.

(** ** Properties *)

(** A severity never drops when the value grows, and NaN values or
    unconfigured thresholds never alert. *)
Theorem EvaluateGeThreshold_monotone v1 v2 warnGe criticalGe :
  sf_le v1 v2 ->
  SeverityRank (EvaluateGeThreshold v1 warnGe criticalGe)
    <= SeverityRank (EvaluateGeThreshold v2 warnGe criticalGe).
Proof.
  intros Hv. unfold EvaluateGeThreshold.
  pose proof (fun a H => SFleb_trans a v1 v2 H Hv) as Htr. unfold sf_le in Htr.
  destruct (SFltb f64_zero criticalGe), (SFltb f64_zero warnGe); cbn [andb];
    destruct (SFleb criticalGe v1) eqn:E1; rewrite ?(Htr _ E1);
    destruct (SFleb warnGe v1) eqn:E2; rewrite ?(Htr _ E2);
    repeat case_match; vm_compute; done.
Qed.

(** Values 50 and 90 against thresholds 80 and 90. *)
Definition f64_of_pos (p : positive) : spec_float := S754_finite false p 0.
Lemma EvaluateGeThreshold_monotone_witness :
  sf_le (f64_of_pos 50) (f64_of_pos 90) /\
  SeverityRank (EvaluateGeThreshold (f64_of_pos 50) (f64_of_pos 80) (f64_of_pos 90))
    <= SeverityRank (EvaluateGeThreshold (f64_of_pos 90) (f64_of_pos 80) (f64_of_pos 90)).
Proof. split; [reflexivity|]. apply EvaluateGeThreshold_monotone. reflexivity. Defined.
