(* ===== verification/GoFmt.v ===== *)
(** * Numbers as text: floats, durations and hexadecimal

    [float64] is [spec_float] with 53 bits; [%.nf] prints the exact value of a
    float rounded to [n] decimals, half to even.  [time.Duration.String] and the
    binary byte counts of pkg/conv are built on it. *)
From S2P Require Import Prelude GoStr GoLib Types.
#[local] Open Scope Z_scope.

(** ** float64 *)
Definition f64 : Type := spec_float.

(** [float64(z)] of an integer, rounded to even. *)
Definition f64_of_Z (z : Z) : f64 := binary_normalize 53 1024 z 0 false.
Definition f64_add : f64 -> f64 -> f64 := SFadd 53 1024.
Definition f64_sub : f64 -> f64 -> f64 := SFsub 53 1024.
Definition f64_mul : f64 -> f64 -> f64 := SFmul 53 1024.
Definition f64_div : f64 -> f64 -> f64 := SFdiv 53 1024.

(** [num / den] rounded to an integer, half to even; [0 <= num], [0 < den]. *)
Definition round_even (num den : Z) : Z :=
  let q := num / den in
  let r := num mod den in
  if 2 * r <? den then q
  else if den <? 2 * r then q + 1
  else if Z.even q then q else q + 1.

(** [m * 2^e] in units of [10^-prec]. *)
Definition decimal_units (prec : Z) (m : positive) (e : Z) : Z :=
  if 0 <=? e then Z.pos m * 2 ^ e * 10 ^ prec else round_even (Z.pos m * 10 ^ prec) (2 ^ (- e)).

Definition print_units (prec : Z) (n : Z) : string :=
  itoa (n / 10 ^ prec) +:+ (if prec <=? 0 then "" else "." +:+ pad0 prec (n mod 10 ^ prec)).

(** [%.<prec>f]. *)
Definition FormatFixed (prec : Z) (f : f64) : string :=
  match f with
  | S754_zero s => (if s then "-" else "") +:+ print_units prec 0
  | S754_infinity s => if s then "-Inf" else "+Inf"
  | S754_nan => "NaN"
  | S754_finite s m e => (if s then "-" else "") +:+ print_units prec (decimal_units prec m e)
  end.

(** [int64(f)]: toward zero.  The result is implementation-defined outside the
    range; it is the smallest [int64] on amd64. *)
Definition f64_to_int64 (f : f64) : Z :=
  match f with
  | S754_zero _ => 0
  | S754_finite s m e =>
    let t := if 0 <=? e then Z.pos m * 2 ^ e else Z.pos m / 2 ^ (- e) in
    let t := if s then - t else t in
    if (min_i64 <=? t) && (t <=? max_i64) then t else min_i64
  | _ => min_i64
  end.

(** ** [time.Duration.String] *)

(** The fraction [v mod 10^prec] without its trailing zeros, after a point
    unless it is empty; [print] tells that a digit was printed. *)
Fixpoint fmtFrac (prec : nat) (v : Z) (print : bool) (acc : string) : string :=
  match prec with
  | O => if print then "." +:+ acc else acc
  | S prec' =>
    let digit := v mod 10 in
    let print := print || negb (digit =? 0) in
    fmtFrac prec' (v / 10) print (if print then String (byte (48 + digit)) acc else acc)
  end.

Definition duration_units (u : Z) (prec : nat) (unit : string) : string :=
  itoa (u / 10 ^ Z.of_nat prec) +:+ fmtFrac prec u false "" +:+ unit.

Definition Duration_String (d : Z) : string :=
  let u := Z.abs d in
  (if d <? 0 then "-" else "") +:+
  (if u =? 0 then "0s"
   else if u <? 1000 then duration_units u 0 "ns"
   else if u <? 1000000 then duration_units u 3 "µs"
   else if u <? Second then duration_units u 6 "ms"
   else
     let secs := u / Second in
     let mins := secs / 60 in
     let s := itoa (secs mod 60) +:+ fmtFrac 9 u false "" +:+ "s" in
     if mins =? 0 then s
     else
       let s := itoa (mins mod 60) +:+ "m" +:+ s in
       if mins / 60 =? 0 then s else itoa (mins / 60) +:+ "h" +:+ s).

(** [time.Duration.Seconds]. *)
Definition Duration_Seconds (d : Z) : f64 :=
  f64_add (f64_of_Z (go_div d Second)) (f64_div (f64_of_Z (Z.rem d Second)) (f64_of_Z Second)).

(** ** pkg/conv *)

(** The loop of [HumanBytes]: [n] is divided as long as a unit is left; 6 rounds
    exhaust a [uint64]. *)
Fixpoint human_loop (fuel : nat) (n div : Z) (exp : nat) : Z * nat :=
  match fuel with
  | O => (div, exp)
  | S fuel' => if n <? 1024 then (div, exp) else human_loop fuel' (n / 1024) (div * 1024) (S exp)
  end.

Definition HumanBytes (b : Z) : string :=
  if b <? 1024 then itoa b +:+ " B"
  else
    let '(div, exp) := human_loop 6 (b / 1024) 1024 0 in
    FormatFixed 1 (f64_div (f64_of_Z b) (f64_of_Z div)) +:+ " "
    +:+ stake 1 (sdrop exp "KMGTPE") +:+ "iB".

(** ** [config.Size] (digcore/config/size.go) *)
Definition KB : Z := 2 ^ 10.
Definition MB : Z := 2 ^ 20.
Definition GB : Z := 2 ^ 30.
Definition TB : Z := 2 ^ 40.
Definition Size_String (s : Z) : string :=
  let in_unit (u : Z) := FormatFixed 1 (f64_div (f64_of_Z s) (f64_of_Z u)) in
  if TB <=? s then in_unit TB +:+ "TB"
  else if GB <=? s then in_unit GB +:+ "GB"
  else if MB <=? s then in_unit MB +:+ "MB"
  else if KB <=? s then in_unit KB +:+ "KB"
  else itoa s +:+ "B".

(** ** [hex.EncodeToString] *)
Fixpoint EncodeToString (s : string) : string :=
  match s with
  | "" => ""
  | String c s' =>
    String (hex_digit (byte_val c / 16)) (String (hex_digit (byte_val c mod 16)) (EncodeToString s'))
  end.

(** ** Invalid UTF-8 and trailing characters *)

(** A byte that starts no rune. *)
Definition invalid_segment (rb : Z * string) : bool := (rb.1 =? RuneError) && (slen rb.2 =? 1).

(** [strings.ToValidUTF8]: each run of invalid bytes becomes one replacement. *)
Fixpoint to_valid (replacement : string) (invalid : bool) (l : list (Z * string)) : string :=
  match l with
  | [] => ""
  | rb :: l' =>
    if invalid_segment rb
    then (if invalid then "" else replacement) +:+ to_valid replacement true l'
    else rb.2 +:+ to_valid replacement false l'
  end.
Definition ToValidUTF8 (s replacement : string) : string := to_valid replacement false (segments s).
Definition ValidString (s : string) : bool := forallb (fun rb => negb (invalid_segment rb)) (segments s).

(** [strings.TrimRight] with a cutset of one byte. *)
Fixpoint TrimRight1 (c : ascii) (s : string) : string :=
  match s with
  | "" => ""
  | String a s' =>
    match TrimRight1 c s' with
    | "" => if decide (a = c) then "" else String a ""
    | t => String a t
    end
  end.

(** ** Lemmas *)

Lemma EncodeToString_app s t : EncodeToString (s +:+ t) = EncodeToString s +:+ EncodeToString t.
Proof. induction s as [|c s IH]; [done|]. rewrite sapp_cons. cbn. by rewrite IH. Qed.

Lemma EncodeToString_slen s : slen (EncodeToString s) = 2 * slen s.
Proof. induction s as [|c s IH]; [done|]. cbn [EncodeToString]. rewrite !slen_cons, IH. lia. Qed.

Lemma hex_digit_val d : 0 <= d < 16 -> byte_val (hex_digit d) = if d <? 10 then 48 + d else 87 + d.
Proof. intros Hd. unfold hex_digit. apply byte_val_byte. destruct (d <? 10) eqn:E; zbool; lia. Qed.

Lemma hex_digit_inj a b : 0 <= a < 16 -> 0 <= b < 16 -> hex_digit a = hex_digit b -> a = b.
Proof.
  intros Ha Hb H. apply (f_equal byte_val) in H. rewrite !hex_digit_val in H by done.
  destruct (a <? 10) eqn:E1, (b <? 10) eqn:E2; zbool; lia.
Qed.

Lemma EncodeToString_inj s t : EncodeToString s = EncodeToString t -> s = t.
Proof.
  revert t. induction s as [|c s IH]; intros [|d t]; try done. cbn [EncodeToString].
  intros [= H1 H2 H%IH]. pose proof (byte_val_range c). pose proof (byte_val_range d).
  apply hex_digit_inj in H1, H2; try (split; [apply Z.div_pos|apply Z.div_lt_upper_bound]; lia);
    try (apply Z.mod_pos_bound; lia).
  rewrite H. f_equal. assert (byte_val c = byte_val d) as Hv
    by (rewrite (Z.div_mod (byte_val c) 16), (Z.div_mod (byte_val d) 16), H1, H2 by done; done).
  unfold byte_val in Hv. apply (inj Z.of_N) in Hv. by rewrite <-(ascii_N_embedding c), Hv, ascii_N_embedding.
Qed.

Example FormatFixed_ex :
  FormatFixed 1 (f64_div (f64_of_Z 5) (f64_of_Z 4)) = "1.2" /\
  FormatFixed 1 (f64_div (f64_of_Z 7) (f64_of_Z 4)) = "1.8" /\
  FormatFixed 2 (f64_div (f64_of_Z 1) (f64_of_Z 10)) = "0.10".
Proof. split_and!; vm_compute; reflexivity. Qed.
Example Duration_String_ex :
  Duration_String 1500000000 = "1.5s" /\ Duration_String 90061000000001 = "25h1m1.000000001s" /\
  Duration_String (- 2500) = "-2.5µs" /\ Duration_String 0 = "0s" /\ Duration_String 600000000000 = "10m0s".
Proof. split_and!; vm_compute; reflexivity. Qed.
Example HumanBytes_ex :
  HumanBytes 1023 = "1023 B" /\ HumanBytes 1536 = "1.5 KiB" /\ HumanBytes (2 ^ 64 - 1) = "16.0 EiB".
Proof. split_and!; vm_compute; reflexivity. Qed.
