(* ===== verification/GoConv.v ===== *)
(** * Text to numbers and addresses: [strconv], [strings] and [net]

    [strconv.ParseUint], [ParseInt] and [Atoi] in base 10 with their errors, the
    searches of package strings that parsers use, and the splitting of
    [host:port] addresses of package net. *)
From S2P Require Import Prelude GoStr GoLib.
#[local] Open Scope Z_scope.

(** ** strconv *)
Inductive num_error := ErrSyntax | ErrRange.

Definition max_u64 : Z := 2 ^ 64 - 1.

Definition is_digit (c : ascii) : bool := in_range 48 57 (byte_val c).

(** The loop of [ParseUint]: a number that has become too large is reported
    before the characters after it are looked at. *)
Fixpoint parse_digits (s : string) (n : Z) : res num_error Z :=
  match s with
  | "" => Good n
  | String c s' =>
    if negb (is_digit c) then Bad ErrSyntax
    else
      let n1 := 10 * n + (byte_val c - 48) in
      if max_u64 <? n1 then Bad ErrRange else parse_digits s' n1
  end.

Definition ParseUint (s : string) : res num_error Z :=
  if decide (s = "") then Bad ErrSyntax else parse_digits s 0.

Definition ParseInt (s : string) : res num_error Z :=
  let neg := HasPrefix s "-" in
  let body := if neg || HasPrefix s "+" then sdrop 1 s else s in
  match ParseUint body with
  | Bad err => Bad err
  | Good un =>
    if negb neg && (2 ^ 63 <=? un) then Bad ErrRange
    else if neg && (2 ^ 63 <? un) then Bad ErrRange
    else Good (if neg then - un else un)
  end.

(** [Atoi] on a 64-bit target; its fast path for short numbers agrees. *)
Definition Atoi (s : string) : res num_error Z := ParseInt s.

Definition num_error_text (err : num_error) : string :=
  match err with ErrSyntax => "invalid syntax" | ErrRange => "value out of range" end.
(** [NumError.Error]. *)
Definition NumError (is_print : Z -> bool) (fn s : string) (err : num_error) : string :=
  "strconv." +:+ fn +:+ ": parsing " +:+ Quote is_print s +:+ ": " +:+ num_error_text err.

(** ** strings *)

(** The text before and after the first [c]. *)
Fixpoint cut_at (c : ascii) (s : string) : option (string * string) :=
  match s with
  | "" => None
  | String a s' =>
    if decide (a = c) then Some ("", s')
    else match cut_at c s' with Some (x, y) => Some (String a x, y) | None => None end
  end.

(** The text before and after the last [c]. *)
Fixpoint cut_last (c : ascii) (s : string) : option (string * string) :=
  match s with
  | "" => None
  | String a s' =>
    match cut_last c s' with
    | Some (x, y) => Some (String a x, y)
    | None => if decide (a = c) then Some ("", s') else None
    end
  end.

Fixpoint has_byte (c : ascii) (s : string) : bool :=
  match s with "" => false | String a s' => bool_decide (a = c) || has_byte c s' end.

(** [strings.Count] of a one-byte text. *)
Fixpoint count_byte (c : ascii) (s : string) : Z :=
  match s with "" => 0 | String a s' => (if decide (a = c) then 1 else 0) + count_byte c s' end.

Definition TrimSuffix (s suf : string) : string :=
  if HasSuffix s suf then stake (String.length s - String.length suf) s else s.
Definition TrimPrefix (s pre : string) : string :=
  if HasPrefix s pre then sdrop (String.length pre) s else s.

(** [strings.Fields]; [cur] is the field being read. *)
Fixpoint fields_from (cur : string) (l : list (Z * string)) : list string :=
  match l with
  | [] => if decide (cur = "") then [] else [cur]
  | (r, b) :: l' =>
    if IsSpace r then (if decide (cur = "") then fields_from "" l' else cur :: fields_from "" l')
    else fields_from (cur +:+ b) l'
  end.
Definition Fields (s : string) : list string := fields_from "" (segments s).

(** ** net *)
Definition colon : ascii := ":"%char.
Definition lbracket : ascii := "["%char.
Definition rbracket : ascii := "]"%char.

(** [AddrError.Error]. *)
Definition AddrError (err addr : string) : string :=
  if decide (addr = "") then err else "address " +:+ addr +:+ ": " +:+ err.

Definition missing_port : string := "missing port in address".

(** What follows the host of an address in brackets; [rest] comes after ["]"]. *)
Definition bracket_port (hostport host rest : string) : res string (string * string) :=
  match rest with
  | "" => Bad (AddrError missing_port hostport)
  | String c port =>
    if decide (c = colon) then
      (if has_byte colon port then Bad (AddrError "too many colons in address" hostport)
       else if has_byte lbracket (host +:+ port) then Bad (AddrError "unexpected '[' in address" hostport)
       else if has_byte rbracket port then Bad (AddrError "unexpected ']' in address" hostport)
       else Good (host, port))
    else Bad (AddrError missing_port hostport)
  end.

Definition SplitHostPort (hostport : string) : res string (string * string) :=
  match cut_last colon hostport with
  | None => Bad (AddrError missing_port hostport)
  | Some (host, port) =>
    if HasPrefix hostport "[" then
      match cut_at rbracket hostport with
      | None => Bad (AddrError "missing ']' in address" hostport)
      | Some (h, rest) => bracket_port hostport (sdrop 1 h) rest
      end
    else if has_byte colon host then Bad (AddrError "too many colons in address" hostport)
    else if has_byte lbracket hostport then Bad (AddrError "unexpected '[' in address" hostport)
    else if has_byte rbracket hostport then Bad (AddrError "unexpected ']' in address" hostport)
    else Good (host, port)
  end.

Definition JoinHostPort (host port : string) : string :=
  if has_byte colon host then "[" +:+ host +:+ "]:" +:+ port else host +:+ ":" +:+ port.

(** ** Lemmas *)

Lemma pretty_N_char_digit d : (d < 10)%N ->
  is_digit (pretty_N_char d) = true /\ byte_val (pretty_N_char d) = 48 + Z.of_N d.
Proof.
  intros Hd. assert (d = 0 \/ d = 1 \/ d = 2 \/ d = 3 \/ d = 4 \/ d = 5 \/ d = 6 \/ d = 7 \/ d = 8 \/ d = 9)%N as H
    by lia.
  repeat (destruct H as [->|H]; [by vm_compute|]). subst. by vm_compute.
Qed.

Lemma parse_pretty_go x s : Z.of_N x <= max_u64 ->
  parse_digits (pretty_N_go x s) 0 = parse_digits s (Z.of_N x).
Proof.
  revert s. induction (N.lt_wf_0 x) as [x _ IH]; intros s Hx.
  destruct (decide (x = 0%N)) as [->|H0]; [by rewrite pretty_N_go_0|].
  assert (x `div` 10 < x)%N as Hlt by (apply N.div_lt; lia).
  pose proof (N.div_mod' x 10) as Hdm. pose proof (N.mod_lt x 10 ltac:(done)) as Hm.
  rewrite pretty_N_go_step by lia. rewrite IH by lia. cbn [parse_digits].
  destruct (pretty_N_char_digit (x `mod` 10)) as [-> ->]; [lia|]. cbn [negb].
  replace (10 * Z.of_N (x `div` 10) + (48 + Z.of_N (x `mod` 10) - 48)) with (Z.of_N x) by lia.
  destruct (Z.ltb_spec max_u64 (Z.of_N x)); [lia|done].
Qed.

Lemma pretty_N_go_head x s : (0 < x)%N -> exists c t, pretty_N_go x s = String c t /\ is_digit c = true.
Proof.
  revert s. induction (N.lt_wf_0 x) as [x _ IH]; intros s Hx.
  rewrite pretty_N_go_step by lia.
  destruct (decide (x `div` 10 = 0)%N) as [->|H0].
  - rewrite pretty_N_go_0. eexists _, _. split; [done|]. apply pretty_N_char_digit. by apply N.mod_lt.
  - apply IH; [apply N.div_lt; lia|by apply N.neq_0_lt_0].
Qed.

Lemma itoa_N_head x : exists c t, pretty (x : N) = String c t /\ is_digit c = true.
Proof.
  unfold pretty, pretty_N. case_decide; [by eexists _, _|]. apply pretty_N_go_head. lia.
Qed.

Lemma ParseUint_pretty x : Z.of_N x <= max_u64 -> ParseUint (pretty x) = Good (Z.of_N x).
Proof.
  intros Hx. unfold ParseUint. destruct (itoa_N_head x) as (c & t & E & Hc). rewrite E, decide_False by done. rewrite <- E.
  unfold pretty, pretty_N. case_decide as H0; [by subst|]. by rewrite parse_pretty_go.
Qed.

Lemma digit_no_sign c t : is_digit c = true -> HasPrefix (String c t) "-" = false /\ HasPrefix (String c t) "+" = false.
Proof.
  intros Hc. split; apply not_true_is_false; rewrite HasPrefix_spec; intros (r & E);
    rewrite sapp_cons in E; injection E as -> _; done.
Qed.

Lemma itoa_nonneg z : 0 <= z -> itoa z = pretty (Z.to_N z).
Proof. intros Hz. by destruct z. Qed.
Lemma itoa_neg z : z < 0 -> itoa z = "-" +:+ pretty (Z.to_N (- z)).
Proof. intros Hz. by destruct z. Qed.

Lemma ParseUint_itoa z : 0 <= z <= max_u64 -> ParseUint (itoa z) = Good z.
Proof. intros Hz. rewrite itoa_nonneg, ParseUint_pretty by lia. f_equal. lia. Qed.

Lemma Atoi_itoa z : in_i64 z -> Atoi (itoa z) = Good z.
Proof.
  unfold in_i64, min_i64, max_i64. intros Hz. unfold Atoi, ParseInt.
  destruct (Z.ltb_spec z 0) as [Hn|Hn].
  - rewrite itoa_neg by lia. rewrite (proj2 (HasPrefix_spec _ "-")) by eauto. cbn [orb].
    change (sdrop 1 ("-" +:+ pretty (Z.to_N (- z)))) with (pretty (Z.to_N (- z))).
    rewrite ParseUint_pretty by (unfold max_u64; lia). cbn [negb andb].
    destruct (Z.ltb_spec (2 ^ 63) (Z.of_N (Z.to_N (- z)))); [lia|]. f_equal. lia.
  - rewrite itoa_nonneg by lia. destruct (itoa_N_head (Z.to_N z)) as (c & t & E & Hc).
    rewrite E. destruct (digit_no_sign c t Hc) as [-> ->]. cbn [orb negb andb]. rewrite <- E.
    rewrite ParseUint_pretty by (unfold max_u64; lia).
    destruct (Z.leb_spec (2 ^ 63) (Z.of_N (Z.to_N z))); [lia|]. f_equal. lia.
Qed.

(** A number is written in digits, after a sign. *)
Fixpoint all_chars (P : ascii -> bool) (s : string) : bool :=
  match s with "" => true | String c s' => P c && all_chars P s' end.

Lemma all_chars_app P s t : all_chars P (s +:+ t) = all_chars P s && all_chars P t.
Proof. induction s as [|c s IH]; [done|]. rewrite sapp_cons. cbn [all_chars]. by rewrite IH, andb_assoc. Qed.

Lemma all_chars_impl (P Q : ascii -> bool) s :
  (forall c, P c = true -> Q c = true) -> all_chars P s = true -> all_chars Q s = true.
Proof.
  intros H. induction s as [|c s IH]; [done|]. cbn. rewrite !andb_true_iff. intros [? ?]. auto.
Qed.

Lemma pretty_go_chars x s : all_chars is_digit s = true -> all_chars is_digit (pretty_N_go x s) = true.
Proof.
  revert s. induction (N.lt_wf_0 x) as [x _ IH]; intros s Hs.
  destruct (decide (x = 0%N)) as [->|H0]; [by rewrite pretty_N_go_0|].
  rewrite pretty_N_go_step by lia. apply IH; [apply N.div_lt; lia|]. cbn. rewrite Hs, andb_true_r.
  apply pretty_N_char_digit. by apply N.mod_lt.
Qed.

Definition is_sign_digit (c : ascii) : bool := is_digit c || bool_decide (c = "-"%char).

Lemma itoa_chars z : all_chars is_sign_digit (itoa z) = true.
Proof.
  assert (forall x : N, all_chars is_digit (pretty x) = true) as H.
  { intros x. unfold pretty, pretty_N. case_decide; [done|]. by apply pretty_go_chars. }
  assert (forall x : N, all_chars is_sign_digit (pretty x) = true) as H'.
  { intros x. eapply all_chars_impl; [|apply H]. intros c Hc. unfold is_sign_digit. by rewrite Hc. }
  destruct (Z.ltb_spec z 0); [rewrite itoa_neg by lia|rewrite itoa_nonneg by lia]; [|apply H'].
  change ("-" +:+ pretty (Z.to_N (- z))) with (String "-" (pretty (Z.to_N (- z)))). cbn [all_chars].
  by rewrite H'.
Qed.

(** *** Addresses *)

Lemma cut_last_none c s : has_byte c s = false -> cut_last c s = None.
Proof.
  induction s as [|a s IH]; [done|]. cbn. rewrite orb_false_iff, bool_decide_eq_false. intros [? H].
  rewrite (IH H), decide_False; done.
Qed.

Lemma cut_last_app c s t : has_byte c t = false -> cut_last c (s +:+ String c t) = Some (s, t).
Proof.
  intros Ht. induction s as [|a s IH]; [|by rewrite sapp_cons; cbn; rewrite IH].
  rewrite sapp_nil. cbn. by rewrite cut_last_none, decide_True.
Qed.

Lemma cut_at_app c s t : has_byte c s = false -> cut_at c (s +:+ String c t) = Some (s, t).
Proof.
  induction s as [|a s IH]; [by intros _; rewrite sapp_nil; cbn; rewrite decide_True|].
  cbn. rewrite orb_false_iff, bool_decide_eq_false. intros [? H]. rewrite sapp_cons. cbn.
  by rewrite decide_False, IH.
Qed.

Lemma has_byte_app c s t : has_byte c (s +:+ t) = has_byte c s || has_byte c t.
Proof. induction s as [|a s IH]; [done|]. rewrite sapp_cons. cbn. by rewrite IH, orb_assoc. Qed.

(** An address without brackets is split where it was joined. *)
Lemma SplitHostPort_Join host port :
  has_byte lbracket host = false -> has_byte rbracket host = false ->
  has_byte lbracket port = false -> has_byte rbracket port = false -> has_byte colon port = false ->
  SplitHostPort (JoinHostPort host port) = Good (host, port).
Proof.
  intros Hl Hr Hl' Hr' Hc. unfold JoinHostPort, SplitHostPort. destruct (has_byte colon host) eqn:Eh.
  - change ("[" +:+ host +:+ "]:" +:+ port) with (String "[" (host +:+ "]:" +:+ port)).
    replace (String "[" (host +:+ "]:" +:+ port)) with (String "[" (host +:+ "]") +:+ String colon port)
      by (rewrite sapp_cons, string_app_assoc; done).
    rewrite cut_last_app by done. rewrite sapp_cons, string_app_assoc. cbn [HasPrefix prefix].
    rewrite (proj2 (HasPrefix_spec _ "[")) by (eexists; reflexivity).
    change (String "[" (host +:+ "]" +:+ String colon port)) with (String "[" (host) +:+ String rbracket (String colon port)).
    rewrite cut_at_app by (cbn; by rewrite Hr). cbn [bracket_port sdrop].
    by rewrite decide_True, Hc, has_byte_app, Hl, Hl', Hr'.
  - change (host +:+ ":" +:+ port) with (host +:+ String colon port). rewrite cut_last_app by done.
    destruct (HasPrefix (host +:+ String colon port) "[") eqn:Ep.
    { exfalso. apply HasPrefix_spec in Ep as (r & Ep). destruct host as [|a host]; [done|].
      change ("[" +:+ r) with (String lbracket r) in Ep. rewrite sapp_cons in Ep. injection Ep as -> _.
      cbn in Hl. by rewrite bool_decide_true in Hl. }
    rewrite Eh, !has_byte_app. cbn [has_byte]. rewrite Hl, Hr, Hl', Hr'. done.
Qed.

Lemma all_chars_byte P c s : all_chars P s = true -> P c = false -> has_byte c s = false.
Proof.
  intros Hs Hc. induction s as [|a s IH]; [done|]. cbn in *. apply andb_true_iff in Hs as [Ha Hs].
  rewrite IH by done. rewrite bool_decide_eq_false_2 by congruence. done.
Qed.
Lemma count_byte_none c s : has_byte c s = false -> count_byte c s = 0.
Proof.
  induction s as [|a s IH]; [done|]. cbn. rewrite orb_false_iff, bool_decide_eq_false. intros [? H].
  by rewrite decide_False, IH.
Qed.
Lemma HasPrefix_bracket s : has_byte lbracket s = false -> HasPrefix s "[" = false.
Proof.
  intros H. apply not_true_is_false. rewrite HasPrefix_spec. intros (r & ->).
  rewrite has_byte_app in H. by apply orb_false_iff in H as [H _].
Qed.

Lemma cut_at_none c s : has_byte c s = false -> cut_at c s = None.
Proof.
  induction s as [|a s IH]; [done|]. cbn. intros [Ha Hs]%orb_false_iff. apply bool_decide_eq_false in Ha.
  by rewrite decide_False, IH.
Qed.

Lemma count_byte_app c s t : count_byte c (s +:+ t) = count_byte c s + count_byte c t.
Proof. induction s as [|a s IH]; [done|]. rewrite sapp_cons. cbn. rewrite IH. lia. Qed.

(** ** Lines and words *)
Lemma split_on_line c s t : has_byte c s = false -> split_on c (s +:+ String c t) = s :: split_on c t.
Proof.
  induction s as [|a s IH]; cbn [has_byte].
  - intros _. change (split_on c (String c t) = "" :: split_on c t). cbn. by rewrite decide_True.
  - intros [Ha Hs]%orb_false_iff. apply bool_decide_eq_false in Ha. rewrite sapp_cons. cbn [split_on].
    by rewrite decide_False, IH.
Qed.

(** ASCII characters that are not spaces. *)
Definition visible (c : ascii) : bool := (byte_val c <? 128) && negb (IsSpace (byte_val c)).

Lemma visible_no c s : visible c = false -> all_chars visible s = true -> has_byte c s = false.
Proof. intros Hc Hs. eapply all_chars_byte; done. Qed.

Lemma fields_visible w cur l : all_chars visible w = true -> fields_from cur (segments w ++ l) = fields_from (cur +:+ w) l.
Proof.
  revert cur. induction w as [|c w IH]; intros cur Hw; [by rewrite string_app_nil_r|].
  cbn [all_chars] in Hw. apply andb_true_iff in Hw as [[Hc Hs]%andb_true_iff Hw]. apply Z.ltb_lt in Hc. apply negb_true_iff in Hs.
  rewrite segments_ascii by done. cbn [app fields_from]. rewrite Hs, IH by done. f_equal. by rewrite string_app_assoc.
Qed.

Definition word (w : string) : Prop := w <> "" /\ all_chars visible w = true.

(** The fields of words with one space between them are the words, whatever ends
    the text. *)
Definition space_char (c : ascii) : bool := (byte_val c <? 128) && IsSpace (byte_val c).

Lemma fields_spaced c w l : space_char c = true -> word w -> fields_from "" (segments (w +:+ String c l)) = w :: fields_from "" (segments l).
Proof.
  intros [Hc Hs]%andb_true_iff [Hne Hw]. apply Z.ltb_lt in Hc.
  rewrite segments_app by (by apply starts_rune_ascii). rewrite fields_visible, segments_ascii by done.
  cbn [fields_from]. rewrite Hs, sapp_nil. by rewrite decide_False.
Qed.
Lemma Fields_Join_sep c ws : space_char c = true -> Forall word ws -> Fields (Join ws (String c "")) = ws.
Proof.
  unfold Fields. intros Hc. induction 1 as [|w ws [Hne Hw] Hws IH]; [done|]. destruct ws as [|w' ws].
  - cbn [Join]. rewrite <- (app_nil_r (segments w)), fields_visible by done. cbn [fields_from]. rewrite sapp_nil. by rewrite decide_False.
  - change (Join (w :: w' :: ws) (String c "")) with (w +:+ String c (Join (w' :: ws) (String c ""))).
    rewrite fields_spaced by done. by rewrite IH.
Qed.
Lemma Fields_Join ws : Forall word ws -> Fields (Join ws " ") = ws.
Proof. by apply Fields_Join_sep. Qed.

Lemma drop_spaces_snoc l x : IsSpace x.1 = true ->
  drop_spaces (l ++ [x]) = match drop_spaces l with [] => [] | _ => drop_spaces l ++ [x] end.
Proof.
  intros Hx. induction l as [|[r b] l IH]; cbn [app drop_spaces].
  - destruct x as [r b]. cbn in Hx. by rewrite Hx.
  - destruct (IsSpace r); [exact IH|done].
Qed.
Lemma TrimSpace_newline s : TrimSpace (s +:+ newline) = TrimSpace s.
Proof.
  unfold TrimSpace. rewrite segments_app by (by apply starts_rune_ascii).
  change (segments newline) with [(10, newline)]. rewrite drop_spaces_snoc by done.
  destruct (drop_spaces (segments s)); [done|]. by rewrite reverse_app.
Qed.

(** Spaces are trimmed at the ends only. *)
Lemma drop_spaces_visible c s : visible c = true -> drop_spaces (segments (String c s)) = segments (String c s).
Proof.
  intros [Hc Hs]%andb_true_iff. apply Z.ltb_lt in Hc. apply negb_true_iff in Hs. rewrite segments_ascii by done.
  cbn [drop_spaces]. by rewrite Hs.
Qed.
Lemma TrimSpace_ends c s d : visible c = true -> visible d = true -> TrimSpace (String c s +:+ String d "") = String c s +:+ String d "".
Proof.
  intros Hc Hd. unfold TrimSpace. change (String c s +:+ String d "") with (String c (s +:+ String d "")).
  rewrite drop_spaces_visible by done. change (String c (s +:+ String d "")) with (String c s +:+ String d "").
  pose proof Hd as [Hd1 Hd2]%andb_true_iff. apply Z.ltb_lt in Hd1. apply negb_true_iff in Hd2.
  rewrite segments_app by (by apply starts_rune_ascii). rewrite (segments_ascii d) by done. change (segments "") with (@nil (Z * string)).
  rewrite reverse_app. change (reverse [(byte_val d, String d "")]) with [(byte_val d, String d "")]. cbn [app drop_spaces]. rewrite Hd2.
  change ((byte_val d, String d "") :: reverse (segments (String c s))) with (reverse [(byte_val d, String d "")] ++ reverse (segments (String c s))).
  rewrite <- reverse_app, reverse_involutive, concat_bytes_app, concat_segments. done.
Qed.

Lemma word_itoa n : word (itoa n).
Proof.
  split.
  - destruct (Z.le_gt_cases 0 n); [rewrite itoa_nonneg by done; destruct (itoa_N_head (Z.to_N n)) as (c & u & -> & _); done|].
    by rewrite itoa_neg.
  - eapply all_chars_impl; [|apply itoa_chars]. intros c Hc. unfold is_sign_digit, is_digit in Hc. apply orb_true_iff in Hc as [Hc|Hc].
    + apply in_range_spec in Hc. unfold visible, IsSpace. rewrite (proj2 (Z.ltb_lt _ _)) by lia.
      rewrite (in_range_false 9 13), (in_range_false 8192 8202) by lia. cbn.
      repeat match goal with |- context [?x =? ?k] => rewrite (proj2 (Z.eqb_neq x k)) by lia end. done.
    + apply bool_decide_eq_true in Hc as ->. done.
Qed.

(** ** Lines of a text *)
Definition nl : ascii := ascii_of_N 10.
Definition text_of (lines : list string) : string := concat_lines (map (fun l => l +:+ newline) lines).

Lemma newline_app s : newline +:+ s = String nl s.
Proof. done. Qed.

Lemma split_text_of ls : Forall (fun l => has_byte nl l = false) ls ->
  split_on nl (text_of ls) = ls ++ [""].
Proof.
  induction 1 as [|l ls Hl Hls IH]; [done|].
  change (text_of (l :: ls)) with ((l +:+ newline) +:+ text_of ls).
  rewrite string_app_assoc. change (newline +:+ ?x) with (String nl ("" +:+ x)). rewrite sapp_nil, split_on_line by done. by rewrite IH.
Qed.

Lemma split_on_none c s : has_byte c s = false -> split_on c s = [s].
Proof.
  induction s as [|a s IH]; [done|]. cbn [has_byte split_on]. intros [Ha Hs]%orb_false_iff. apply bool_decide_eq_false in Ha.
  by rewrite decide_False, IH.
Qed.
Lemma split_on_lines ls : ls <> [] -> Forall (fun l => has_byte nl l = false) ls -> split_on nl (Join ls newline) = ls.
Proof.
  intros Hne Hls. induction Hls as [|l ls Hl Hls IH]; [done|]. destruct ls as [|m ls]; [by apply split_on_none|].
  change (Join (l :: m :: ls) newline) with (l +:+ String nl (Join (m :: ls) newline)). by rewrite split_on_line, IH.
Qed.
Lemma Join_no_newline ws : Forall word ws -> has_byte nl (Join ws " ") = false.
Proof.
  induction 1 as [|w ws [_ Hw] Hws IH]; [done|]. assert (has_byte nl w = false) as Hn by (by apply visible_no). destruct ws as [|v ws]; [done|].
  change (Join (w :: v :: ws) " ") with (w +:+ " " +:+ Join (v :: ws) " "). by rewrite !has_byte_app, Hn, IH.
Qed.
