(* ===== verification/GoIo.v ===== *)
(** * Effects in sequence

    [io S A] is a computation on a state [S] that returns or panics; what it
    did to the state before a panic stays done.  [e_bind] is Go's
    [if err != nil { return err }]. *)
From S2P Require Import Prelude.
#[local] Open Scope Z_scope.

Definition io (S A : Type) : Type := S -> go A * S.

Definition io_ret {S A} (a : A) : io S A := fun s => (Ret a, s).
Definition io_bind {S A B} (f : A -> io S B) (m : io S A) : io S B := fun s =>
  match m s with
  | (Ret a, s) => f a s
  | (Panic, s) => (Panic, s)
  end.
#[export] Instance io_mret S : MRet (io S) := fun A => io_ret.
#[export] Instance io_mbind S : MBind (io S) := fun A B => io_bind.

Definition io_get {S} : io S S := fun s => (Ret s, s).
Definition io_put {S} (s : S) : io S unit := fun _ => (Ret tt, s).
Definition io_gets {S A} (f : S -> A) : io S A := fun s => (Ret (f s), s).
Definition io_modify {S} (f : S -> S) : io S unit := fun s => (Ret tt, f s).
Definition io_lift {S A} (f : S -> A * S) : io S A := fun s => let '(a, s) := f s in (Ret a, s).
Definition io_go {S A} (r : go A) : io S A := fun s => (r, s).

Definition e_bind {S E A B} (m : io S (res E A)) (f : A -> io S (res E B)) : io S (res E B) :=
  io_bind (fun r => match r with Good a => f a | Bad e => io_ret (Bad e) end) m.
Definition e_ok {S E A} (a : A) : io S (res E A) := io_ret (Good a).
Definition e_err {S E A} (e : E) : io S (res E A) := io_ret (Bad e).

Notation "x ←? m ; k" := (e_bind m (fun x => k)) (at level 20, m at level 100, k at level 200, right associativity).

Definition when {S} (b : bool) (m : io S unit) : io S unit := if b then m else io_ret tt.

(** The loop over a list, with the results in order. *)
Fixpoint io_each {S A B} (f : A -> io S B) (l : list A) : io S (list B) :=
  match l with
  | [] => io_ret []
  | x :: l' => io_bind (fun y => io_bind (fun ys => io_ret (y :: ys)) (io_each f l')) (f x)
  end.

(** ** Lemmas *)

Lemma io_bind_Ret {S A B} (f : A -> io S B) m s a s' : m s = (Ret a, s') -> io_bind f m s = f a s'.
Proof. intros H. unfold io_bind. by rewrite H. Qed.

Lemma io_bind_inv {S A B} (f : A -> io S B) m s b s' :
  io_bind f m s = (Ret b, s') -> exists a s1, m s = (Ret a, s1) /\ f a s1 = (Ret b, s').
Proof. unfold io_bind. destruct (m s) as [[a|] s1]; [eauto|done]. Qed.

(** What a computation keeps: [I] holds of the state afterwards, panic or not. *)
Definition keeps {S A} (I : S -> Prop) (m : io S A) : Prop := forall s, I s -> I (m s).2.

Lemma keeps_ret {S A} (I : S -> Prop) (a : A) : keeps I (io_ret a).
Proof. by intros s. Qed.
Lemma keeps_bind {S A B} (I : S -> Prop) (f : A -> io S B) m :
  keeps I m -> (forall a, keeps I (f a)) -> keeps I (io_bind f m).
Proof.
  intros Hm Hf s Hs. specialize (Hm s Hs). unfold io_bind. destruct (m s) as [[a|] s1]; [by apply Hf|done].
Qed.
Lemma keeps_e_bind {S E A B} (I : S -> Prop) (f : A -> io S (res E B)) m :
  keeps I m -> (forall a, keeps I (f a)) -> keeps I (e_bind m f).
Proof. intros Hm Hf. apply keeps_bind; [done|]. intros [a|e]; [apply Hf|apply keeps_ret]. Qed.
Lemma keeps_gets {S A} (I : S -> Prop) (f : S -> A) : keeps I (io_gets f).
Proof. by intros s. Qed.
Lemma keeps_modify {S} (I : S -> Prop) (f : S -> S) : (forall s, I s -> I (f s)) -> keeps I (io_modify f).
Proof. intros H s Hs. by apply H. Qed.
Lemma keeps_each {S A B} (I : S -> Prop) (f : A -> io S B) l :
  (forall a, keeps I (f a)) -> keeps I (io_each f l).
Proof.
  intros H. induction l as [|x l IH]; cbn; [apply keeps_ret|].
  apply keeps_bind; [done|]. intros y. apply keeps_bind; [done|]. intros ys. apply keeps_ret.
Qed.
Create HintDb keeps.
#[export] Hint Resolve keeps_ret keeps_bind keeps_e_bind keeps_gets keeps_modify keeps_each : keeps.

(** A computation that never panics. *)
Definition returns {S A} (m : io S A) : Prop := forall s, exists a s', m s = (Ret a, s').

Lemma returns_ret {S A} (a : A) : returns (S := S) (io_ret a).
Proof. by intros s; exists a, s. Qed.
Lemma returns_bind {S A B} (m : io S A) (f : A -> io S B) : returns m -> (forall a, returns (f a)) -> returns (m ≫= f).
Proof. intros Hm Hf s. destruct (Hm s) as (a & s1 & E). destruct (Hf a s1) as (b & s2 & E2). exists b, s2. by rewrite <- E2; apply io_bind_Ret. Qed.
Lemma returns_gets {S A} (f : S -> A) : returns (io_gets f).
Proof. intros s. by exists (f s), s. Qed.
Lemma returns_modify {S} (f : S -> S) : returns (io_modify f).
Proof. intros s. by exists tt, (f s). Qed.
Lemma returns_lift {S A} (f : S -> A * S) : returns (io_lift f).
Proof. intros s. unfold io_lift. destruct (f s) as [a s']. by exists a, s'. Qed.
Lemma returns_when {S} b (m : io S unit) : returns m -> returns (when b m).
Proof. destruct b; [done|]. intros _. apply returns_ret. Qed.
Lemma returns_each {S A B} (f : A -> io S B) l : (forall a, returns (f a)) -> returns (io_each f l).
Proof.
  intros Hf. induction l as [|x l IH]; [apply returns_ret|].
  apply returns_bind; [done|]. intros y. apply returns_bind; [done|]. intros ys. apply returns_ret.
Qed.
Create HintDb returns.
#[export] Hint Resolve returns_ret returns_bind returns_gets returns_modify returns_lift returns_when returns_each : returns.

(** What a computation leaves as it is: [f] of the state. *)
Definition stays {S X A} (f : S -> X) (m : io S A) : Prop := forall s a s', m s = (Ret a, s') -> f s' = f s.

Lemma stays_ret {S X A} (f : S -> X) (a : A) : stays f (io_ret a).
Proof. by intros s b s' [= <- <-]. Qed.
Lemma stays_bind {S X A B} (f : S -> X) (m : io S A) (k : A -> io S B) :
  stays f m -> (forall a, stays f (k a)) -> stays f (m ≫= k).
Proof.
  intros Hm Hk s b s' H. apply io_bind_inv in H as (a & s1 & H1 & H2). apply Hm in H1. apply Hk in H2. congruence.
Qed.
Lemma stays_gets {S X A} (f : S -> X) (g : S -> A) : stays f (io_gets g).
Proof. by intros s b s' [= <- <-]. Qed.
Lemma stays_modify {S X} (f : S -> X) (g : S -> S) : (forall s, f (g s) = f s) -> stays f (io_modify g).
Proof. by intros H s b s' [= <- <-]. Qed.
Lemma stays_when {S X} (f : S -> X) b (m : io S unit) : stays f m -> stays f (when b m).
Proof. destruct b; [done|]. intros _. apply stays_ret. Qed.
