(* ===== verification/GoJson.v ===== *)
(** * Package encoding/json

    The values a JSON text stands for, the scanner with its limit on nesting,
    strings with their escapes, and how [Marshal] writes.  Numbers keep their
    text; the members of an object keep their order and duplicates, because the
    decoders of the agent look members up by name. *)
From S2P Require Import Prelude GoStr GoConv GoFmt.
#[local] Open Scope Z_scope.

Inductive jval :=
| VNull
| VBool (b : bool)
| VNum (literal : string)
| VStr (s : string)
| VArr (l : list jval)
| VObj (l : list (string * jval)).

(** ** Scanning *)
Definition backslash : ascii := ascii_of_N 92.
Definition quote_char : ascii := ascii_of_N 34.
Definition json_space (c : ascii) : bool := bool_decide (byte_val c ∈ [32; 9; 13; 10]).
Fixpoint skip_ws (s : string) : string :=
  match s with String c s' => if json_space c then skip_ws s' else s | "" => "" end.

Definition hex_val (c : ascii) : option Z :=
  let b := byte_val c in
  if in_range 48 57 b then Some (b - 48)
  else if in_range 97 102 b then Some (b - 87)
  else if in_range 65 70 b then Some (b - 55)
  else None.
Definition is_hex (c : ascii) : bool := match hex_val c with Some _ => true | None => false end.

(** The text of a string literal after its opening quote, up to the closing one. *)
Fixpoint scan_string (s : string) : option (string * string) :=
  let skip (t : string) (r : option (string * string)) := match r with Some (raw, rest) => Some (t +:+ raw, rest) | None => None end in
  match s with
  | "" => None
  | String c s' =>
    if bool_decide (c = quote_char) then Some ("", s')
    else if byte_val c <? 32 then None
    else if bool_decide (c = backslash) then
      match s' with
      | String e s2 =>
        if bool_decide (e = "u"%char) then
          match s2 with
          | String h1 (String h2 (String h3 (String h4 s3))) =>
            if is_hex h1 && is_hex h2 && is_hex h3 && is_hex h4
            then skip (String c (String e (String h1 (String h2 (String h3 (String h4 "")))))) (scan_string s3)
            else None
          | _ => None
          end
        else if bool_decide (e ∈ ["b"; "f"; "n"; "r"; "t"; "/"]%char) || bool_decide (e = backslash) || bool_decide (e = quote_char)
        then skip (String c (String e "")) (scan_string s2)
        else None
      | "" => None
      end
    else skip (String c "") (scan_string s')
  end.

(** Digits, as many as there are. *)
Fixpoint span_digits (s : string) : string * string :=
  match s with
  | String c s' => if is_digit c then let '(d, r) := span_digits s' in (String c d, r) else ("", s)
  | "" => ("", "")
  end.

(** An optional part of a number: what starts it, then digits. *)
Definition scan_fraction (s : string) : option (string * string) :=
  match s with
  | String "." s' =>
    let '(d, r) := span_digits s' in if decide (d = "") then None else Some (String "." d, r)
  | _ => Some ("", s)
  end.
Definition scan_exponent (s : string) : option (string * string) :=
  match s with
  | String c s' =>
    if bool_decide (c ∈ ["e"; "E"]%char) then
      let '(sign, s2) := match s' with
        | String d t => if bool_decide (d ∈ ["+"; "-"]%char) then (String d "", t) else ("", s')
        | "" => ("", "") end in
      let '(d, r) := span_digits s2 in if decide (d = "") then None else Some (String c sign +:+ d, r)
    else Some ("", s)
  | "" => Some ("", "")
  end.
Definition scan_integer (s : string) : option (string * string) :=
  match s with
  | String "0" s' => Some ("0", s')
  | _ => let '(d, r) := span_digits s in if decide (d = "") then None else Some (d, r)
  end.
Definition scan_number (s : string) : option (string * string) :=
  let '(sign, s1) := match s with String "-" t => ("-", t) | _ => ("", s) end in
  match scan_integer s1 with
  | None => None
  | Some (i, s2) =>
    match scan_fraction s2 with
    | None => None
    | Some (f, s3) =>
      match scan_exponent s3 with
      | None => None
      | Some (e, rest) => Some (sign +:+ i +:+ f +:+ e, rest)
      end
    end
  end.

(** ** Strings *)

(** [getu4] on four digits. *)
Definition hex4 (h1 h2 h3 h4 : Z * string) : Z :=
  let v (h : Z * string) := match h.2 with String c "" => default 0 (hex_val c) | _ => 0 end in
  v h1 * 4096 + v h2 * 256 + v h3 * 16 + v h4.
Definition IsSurrogate (r : Z) : bool := in_range 55296 57343 r.
(** [utf16.DecodeRune]. *)
Definition utf16_pair (r1 r2 : Z) : option Z :=
  if in_range 55296 56319 r1 && in_range 56320 57343 r2 then Some ((r1 - 55296) * 1024 + (r2 - 56320) + 65536) else None.

Definition simple_escape (e : Z) : string :=
  if e =? 98 then encode_rune 8 else if e =? 102 then encode_rune 12 else if e =? 110 then encode_rune 10
  else if e =? 114 then encode_rune 13 else if e =? 116 then encode_rune 9 else encode_rune e.

(** [unquote], on the runes of the literal. *)
Fixpoint unquote (l : list (Z * string)) : string :=
  match l with
  | [] => ""
  | (r, _) :: l' =>
    if negb (r =? 92) then encode_rune r +:+ unquote l'
    else
      match l' with
      | (e, _) :: l2 =>
        if negb (e =? 117) then simple_escape e +:+ unquote l2
        else
          match l2 with
          | h1 :: h2 :: h3 :: h4 :: l3 =>
            let u := hex4 h1 h2 h3 h4 in
            if negb (IsSurrogate u) then encode_rune u +:+ unquote l3
            else
              match l3 with
              | (r5, _) :: (e5, _) :: h5 :: h6 :: h7 :: h8 :: l4 =>
                match (if (r5 =? 92) && (e5 =? 117) then utf16_pair u (hex4 h5 h6 h7 h8) else None) with
                | Some dec => encode_rune dec +:+ unquote l4
                | None => encode_rune RuneError +:+ unquote l3
                end
              | _ => encode_rune RuneError +:+ unquote l3
              end
          | _ => ""
          end
      | [] => ""
      end
  end.

Definition parse_string (s : string) : option (string * string) :=
  match scan_string s with
  | Some (raw, rest) => Some (unquote (segments raw), rest)
  | None => None
  end.

(** ** Values *)
Definition maxNestingDepth : nat := 10000.

(** A keyword or a number. *)
Definition parse_atom (s : string) : option (jval * string) :=
  if HasPrefix s "null" then Some (VNull, sdrop 4 s)
  else if HasPrefix s "true" then Some (VBool true, sdrop 4 s)
  else if HasPrefix s "false" then Some (VBool false, sdrop 5 s)
  else match scan_number s with Some (lit, rest) => Some (VNum lit, rest) | None => None end.

(** A value that starts at a character that is no space, within [depth] more
    levels.  Every call takes a character; the fuel counts calls. *)
Fixpoint parse_value (fuel : nat) (depth : nat) (s : string) {struct fuel} : option (jval * string) :=
  match fuel with
  | O => None
  | S fuel' =>
    match s with
    | "" => None
    | String c s' =>
      if bool_decide (c = quote_char) then
        match parse_string s' with Some (v, rest) => Some (VStr v, rest) | None => None end
      else if bool_decide (c = "["%char) then
        match depth with
        | O => None
        | S depth' =>
          match skip_ws s' with
          | String "]" rest => Some (VArr [], rest)
          | s2 => match parse_elems fuel' depth' s2 with Some (l, rest) => Some (VArr l, rest) | None => None end
          end
        end
      else if bool_decide (c = "{"%char) then
        match depth with
        | O => None
        | S depth' =>
          match skip_ws s' with
          | String "}" rest => Some (VObj [], rest)
          | s2 => match parse_members fuel' depth' s2 with Some (l, rest) => Some (VObj l, rest) | None => None end
          end
        end
      else parse_atom s
    end
  end
with parse_elems (fuel : nat) (depth : nat) (s : string) {struct fuel} : option (list jval * string) :=
  match fuel with
  | O => None
  | S fuel' =>
    match parse_value fuel' depth s with
    | None => None
    | Some (v, s2) =>
      match skip_ws s2 with
      | String "]" rest => Some ([v], rest)
      | String "," s3 =>
        match parse_elems fuel' depth (skip_ws s3) with Some (vs, rest) => Some (v :: vs, rest) | None => None end
      | _ => None
      end
    end
  end
with parse_members (fuel : nat) (depth : nat) (s : string) {struct fuel} : option (list (string * jval) * string) :=
  match fuel with
  | O => None
  | S fuel' =>
    match s with
    | String c s1 =>
      if negb (bool_decide (c = quote_char)) then None
      else
        match parse_string s1 with
        | None => None
        | Some (k, s2) =>
          match skip_ws s2 with
          | String ":" s3 =>
            match parse_value fuel' depth (skip_ws s3) with
            | None => None
            | Some (v, s4) =>
              match skip_ws s4 with
              | String "}" rest => Some ([(k, v)], rest)
              | String "," s5 =>
                match parse_members fuel' depth (skip_ws s5) with
                | Some (vs, rest) => Some ((k, v) :: vs, rest)
                | None => None
                end
              | _ => None
              end
            end
          | _ => None
          end
        end
    | "" => None
    end
  end.

Definition json_fuel (s : string) : nat := S (S (2 * String.length s)).

(** A whole text. *)
Definition json_Unmarshal (s : string) : option jval :=
  match parse_value (json_fuel s) maxNestingDepth (skip_ws s) with
  | Some (v, rest) => if decide (skip_ws rest = "") then Some v else None
  | None => None
  end.
Definition json_Valid (s : string) : bool := match json_Unmarshal s with Some _ => true | None => false end.

(** ** Writing *)

(** One rune of a string, with HTML escapes as [Marshal] writes them. *)
Definition json_rune (rb : Z * string) : string :=
  let '(r, b) := rb in
  let esc (c : string) := String backslash c in
  if invalid_segment rb then esc "ufffd"
  else if (r =? 34) || (r =? 92) then esc b
  else if r =? 8 then esc "b"
  else if r =? 12 then esc "f"
  else if r =? 10 then esc "n"
  else if r =? 13 then esc "r"
  else if r =? 9 then esc "t"
  else if (r <? 32) || (r =? 60) || (r =? 62) || (r =? 38) then esc ("u00" +:+ hex 2 r)
  else if (r =? 8232) || (r =? 8233) then esc ("u" +:+ hex 4 r)
  else b.
Definition json_runes (l : list (Z * string)) : string := foldr (fun rb t => json_rune rb +:+ t) "" l.
Definition json_string (s : string) : string := String quote_char (json_runes (segments s) +:+ String quote_char "").

Fixpoint json_Marshal (v : jval) : string :=
  match v with
  | VNull => "null"
  | VBool b => if b then "true" else "false"
  | VNum lit => lit
  | VStr s => json_string s
  | VArr l => "[" +:+ Join (map json_Marshal l) "," +:+ "]"
  | VObj l => "{" +:+ Join (map (fun '(k, v) => json_string k +:+ ":" +:+ json_Marshal v) l) "," +:+ "}"
  end.

(** [MarshalIndent]: a value on its own line after [brk] and its level, names
    and values apart by [sp], empty arrays and objects on one line. *)
Fixpoint json_print (brk : nat -> string) (sp : string) (k : nat) (v : jval) : string :=
  match v with
  | VArr ((_ :: _) as l) =>
    "[" +:+ brk (S k) +:+ Join (map (json_print brk sp (S k)) l) ("," +:+ brk (S k)) +:+ brk k +:+ "]"
  | VObj ((_ :: _) as l) =>
    "{" +:+ brk (S k) +:+ Join (map (fun '(n, v) => json_string n +:+ ":" +:+ sp +:+ json_print brk sp (S k) v) l) ("," +:+ brk (S k))
    +:+ brk k +:+ "}"
  | _ => json_Marshal v
  end.
Definition indent_of (prefix indent : string) (k : nat) : string :=
  String (ascii_of_N 10) (prefix +:+ String.concat "" (replicate k indent)).
Definition json_MarshalIndent (prefix indent : string) (v : jval) : string := json_print (indent_of prefix indent) " " 0 v.

(** ** Members *)

(** Names match up to case; [strings.EqualFold] on names in ASCII. *)
Definition same_name (a b : string) : bool := bool_decide (ToLower a = ToLower b).
(** The last member with a name. *)
Fixpoint member (name : string) (l : list (string * jval)) : option jval :=
  match l with
  | [] => None
  | (k, v) :: l' =>
    match member name l' with
    | Some w => Some w
    | None => if same_name k name then Some v else None
    end
  end.
