(* ===== verification/GoJsonProps.v ===== *)
(** * Properties of package encoding/json

    What is written is read back, and takes one line. *)
From S2P Require Import Prelude GoStr GoConv GoFmt GoJson.
#[local] Open Scope Z_scope.

(** ** Strings of whole runes *)
Definition utf8 (s : string) : Prop := exists rs, Forall (fun r => ValidRune r = true) rs /\ s = of_runes rs.

Lemma DecodeRune_encode r s : ValidRune r = true ->
  DecodeRune (encode_rune r +:+ s) = (r, String.length (encode_rune r)) /\ encode_rune r <> "".
Proof.
  intros Hr. unfold encode_rune, encode_bytes. rewrite Hr.
  pose proof (encode_valid_length r) as Hlen. pose proof (encode_valid_range r Hr) as Hrange.
  assert (forall l, String.length (of_bytes l) = length l) as Hl by (induction l; cbn; congruence).
  split.
  - unfold DecodeRune. rewrite peek_of_bytes by (done || lia). rewrite Hl. by apply decode_encode_valid.
  - destruct (encode_valid r); cbn in *; [lia|done].
Qed.

Lemma segments_encode_app r s : ValidRune r = true ->
  segments (encode_rune r +:+ s) = (r, encode_rune r) :: segments s.
Proof.
  intros Hr. destruct (DecodeRune_encode r s Hr) as [Hd Hn].
  rewrite segments_step by (by destruct (encode_rune r)). rewrite Hd. cbn [fst snd].
  rewrite stake_app by done. rewrite stake_all by done. f_equal. f_equal.
  clear. induction (encode_rune r); [by destruct s|done].
Qed.

Lemma segments_of_runes rs : Forall (fun r => ValidRune r = true) rs ->
  segments (of_runes rs) = map (fun r => (r, encode_rune r)) rs.
Proof. induction 1 as [|r rs Hr _ IH]; [done|]. cbn [of_runes map]. by rewrite segments_encode_app, IH. Qed.

(** ** Digits *)
Lemma hex_val_digit d : 0 <= d < 16 -> hex_val (hex_digit d) = Some d.
Proof.
  intros Hd. unfold hex_val. rewrite hex_digit_val by done. destruct (d <? 10) eqn:E; zbool.
  - rewrite in_range_true by lia. f_equal. lia.
  - rewrite in_range_false by lia. rewrite in_range_true by lia. f_equal. lia.
Qed.
Lemma hex_digit_ascii d : 0 <= d < 16 -> byte_val (hex_digit d) < 128.
Proof. intros Hd. rewrite hex_digit_val by done. destruct (d <? 10); lia. Qed.

(** The escape of a code point below 65536. *)
Definition esc4 (d1 d2 d3 d4 : Z) (t : string) : string :=
  String backslash (String "u" (String (hex_digit d1) (String (hex_digit d2) (String (hex_digit d3) (String (hex_digit d4) t))))).

Lemma scan_esc4 d1 d2 d3 d4 t : 0 <= d1 < 16 -> 0 <= d2 < 16 -> 0 <= d3 < 16 -> 0 <= d4 < 16 ->
  scan_string (esc4 d1 d2 d3 d4 t) =
  match scan_string t with Some (raw, rest) => Some (esc4 d1 d2 d3 d4 "" +:+ raw, rest) | None => None end.
Proof.
  intros. unfold esc4. cbn -[hex_digit byte_val is_hex].
  change (byte_val backslash <? 32) with false. cbn -[hex_digit is_hex].
  unfold is_hex. by rewrite !hex_val_digit.
Qed.

Lemma unquote_u b1 b2 h1 h2 h3 h4 l : IsSurrogate (hex4 h1 h2 h3 h4) = false ->
  unquote ((92, b1) :: (117, b2) :: h1 :: h2 :: h3 :: h4 :: l) = encode_rune (hex4 h1 h2 h3 h4) +:+ unquote l.
Proof. intros H. cbn -[encode_rune hex4 IsSurrogate]. by rewrite H. Qed.

Lemma unquote_esc4 d1 d2 d3 d4 t : 0 <= d1 < 16 -> 0 <= d2 < 16 -> 0 <= d3 < 16 -> 0 <= d4 < 16 ->
  let u := d1 * 4096 + d2 * 256 + d3 * 16 + d4 in IsSurrogate u = false ->
  unquote (segments (esc4 d1 d2 d3 d4 t)) = encode_rune u +:+ unquote (segments t).
Proof.
  intros H1 H2 H3 H4 u Hu. unfold esc4.
  rewrite !segments_ascii by first [by apply hex_digit_ascii|by vm_compute].
  assert (hex4 (byte_val (hex_digit d1), String (hex_digit d1) "") (byte_val (hex_digit d2), String (hex_digit d2) "")
    (byte_val (hex_digit d3), String (hex_digit d3) "") (byte_val (hex_digit d4), String (hex_digit d4) "") = u) as E.
  { unfold hex4. cbn [snd]. by rewrite !hex_val_digit. }
  rewrite <- E in Hu |- *. by apply (unquote_u (String backslash "") "u").
Qed.

(** ** Strings *)
Lemma encode_rune_high r : ValidRune r = true -> 128 <= r ->
  exists c t, encode_rune r = String c t /\ all_chars (fun c => 128 <=? byte_val c) (encode_rune r) = true.
Proof.
  intros Hr Hh. pose proof Hr as Hv. apply ValidRune_spec in Hv. unfold encode_rune, encode_bytes. rewrite Hr.
  assert (Forall (fun b => 128 <= b <= 255) (encode_valid r)) as Hf.
  { unfold encode_valid. repeat case_match; zbool; repeat constructor; Z.div_mod_to_equations; lia. }
  pose proof (encode_valid_length r) as Hl.
  destruct (encode_valid r) as [|b l]; cbn in Hl; [lia|]. exists (byte b), (of_bytes l). split; [done|]. clear Hl.
  induction Hf as [|x l' Hx Hf IH]; [done|]. cbn. rewrite IH, byte_val_byte by lia. rewrite andb_true_r. apply Z.leb_le. lia.
Qed.

Lemma scan_high a t : all_chars (fun c => 128 <=? byte_val c) a = true ->
  scan_string (a +:+ t) = match scan_string t with Some (raw, rest) => Some (a +:+ raw, rest) | None => None end.
Proof.
  induction a as [|c a IH]; cbn [all_chars]; [intros _; rewrite sapp_nil; by destruct (scan_string t) as [[??]|]|].
  rewrite andb_true_iff. intros [Hc Ha]. rewrite sapp_cons. cbn [scan_string]. zbool.
  rewrite !bool_decide_eq_false_2; [|intros ->; by vm_compute in Hc..].
  rewrite (proj2 (Z.ltb_ge _ _)) by lia. rewrite IH by done. by destruct (scan_string t) as [[??]|].
Qed.

Lemma scan_plain c t : 32 <= byte_val c -> byte_val c <> 34 -> byte_val c <> 92 ->
  scan_string (String c t) = match scan_string t with Some (raw, rest) => Some (String c raw, rest) | None => None end.
Proof.
  intros H1 H2 H3. cbn [scan_string].
  rewrite !bool_decide_eq_false_2; [|intros ->; by vm_compute in H3 || by vm_compute in H2..].
  by rewrite (proj2 (Z.ltb_ge _ _)) by lia.
Qed.

(** What [json_rune] makes of a rune is scanned as it is, and stands for the rune. *)
Definition reads_back (r : Z) (e : string) : Prop := forall t,
  scan_string (e +:+ t) = match scan_string t with Some (raw, rest) => Some (e +:+ raw, rest) | None => None end /\
  unquote (segments (e +:+ t)) = encode_rune r +:+ unquote (segments t).

Lemma reads_back_esc4 d1 d2 d3 d4 r : 0 <= d1 < 16 -> 0 <= d2 < 16 -> 0 <= d3 < 16 -> 0 <= d4 < 16 ->
  r = d1 * 4096 + d2 * 256 + d3 * 16 + d4 -> IsSurrogate r = false -> reads_back r (esc4 d1 d2 d3 d4 "").
Proof.
  intros H1 H2 H3 H4 -> Hs t. change (esc4 d1 d2 d3 d4 "" +:+ t) with (esc4 d1 d2 d3 d4 t).
  split; [by apply scan_esc4|by apply unquote_esc4].
Qed.

Lemma reads_back_short r e :
  bool_decide (e ∈ ["b"; "f"; "n"; "r"; "t"; "/"]%char) || bool_decide (e = backslash) || bool_decide (e = quote_char) = true ->
  bool_decide (e = "u"%char) = false -> (byte_val e <? 128) && negb (byte_val e =? 117) = true ->
  simple_escape (byte_val e) = encode_rune r -> reads_back r (String backslash (String e "")).
Proof.
  intros H1 H2 [H3%Z.ltb_lt H4%negb_true_iff%Z.eqb_neq]%andb_true_iff H5 t. rewrite !sapp_cons, sapp_nil. split.
  - cbn [scan_string]. change (bool_decide (backslash = quote_char)) with false.
    change (byte_val backslash <? 32) with false. rewrite (bool_decide_eq_true_2 (backslash = backslash)) by done.
    cbv iota. rewrite H2, H1. by destruct (scan_string t) as [[??]|].
  - rewrite !segments_ascii by first [done|by vm_compute]. change (byte_val backslash) with 92.
    cbn -[byte_val simple_escape]. rewrite (proj2 (Z.eqb_neq _ _)) by done. cbn -[byte_val simple_escape]. by rewrite H5.
Qed.

Lemma reads_back_self c : 32 <= byte_val c < 128 -> byte_val c <> 34 -> byte_val c <> 92 ->
  reads_back (byte_val c) (String c "").
Proof.
  intros Hc H1 H2 t. rewrite sapp_cons, sapp_nil. split; [apply scan_plain; lia|].
  rewrite segments_ascii by lia. cbn [unquote]. by rewrite (proj2 (Z.eqb_neq _ _)).
Qed.

Lemma reads_back_high r : ValidRune r = true -> 128 <= r -> reads_back r (encode_rune r).
Proof.
  intros Hr Hh t. destruct (encode_rune_high r Hr Hh) as (c & t' & _ & Ha). split; [by apply scan_high|].
  rewrite segments_encode_app by done. cbn [unquote]. by rewrite (proj2 (Z.eqb_neq _ _)) by lia.
Qed.

Lemma encode_rune_ascii r : 0 <= r < 128 -> encode_rune r = String (byte r) "".
Proof.
  intros Hr. unfold encode_rune, encode_bytes. rewrite (proj2 (ValidRune_spec r)) by lia.
  unfold encode_valid. by rewrite (proj2 (Z.ltb_lt _ _)) by lia.
Qed.

Lemma hex2_digits r : 0 <= r < 256 -> hex 2 r = String (hex_digit (r / 16)) (String (hex_digit (r mod 16)) "").
Proof. intros Hr. cbn. rewrite (Z.mod_small (r / 16)); [done|]. Z.div_mod_to_equations; lia. Qed.

Lemma json_rune_reads_back r : ValidRune r = true -> reads_back r (json_rune (r, encode_rune r)).
Proof.
  intros Hr. pose proof Hr as Hv. apply ValidRune_spec in Hv. unfold json_rune.
  assert (invalid_segment (r, encode_rune r) = false) as ->.
  { unfold invalid_segment. cbn [fst snd]. destruct (r =? RuneError) eqn:E; [|done]. zbool. subst. by vm_compute. }
  destruct (_ || _) eqn:E1 at 1.
  { apply orb_true_iff in E1 as [E|E]; zbool; subst; by apply reads_back_short. }
  destruct (r =? 8) eqn:E8; [zbool; subst; by apply reads_back_short|].
  destruct (r =? 12) eqn:E12; [zbool; subst; by apply reads_back_short|].
  destruct (r =? 10) eqn:E10; [zbool; subst; by apply reads_back_short|].
  destruct (r =? 13) eqn:E13; [zbool; subst; by apply reads_back_short|].
  destruct (r =? 9) eqn:E9; [zbool; subst; by apply reads_back_short|].
  destruct (_ || (r =? 38)) eqn:E2.
  { assert (0 <= r < 128) by (repeat (apply orb_true_iff in E2 as [E2|E2]); zbool; lia).
    rewrite hex2_digits by lia. apply (reads_back_esc4 0 0); try (Z.div_mod_to_equations; lia).
    unfold IsSurrogate. apply in_range_false. lia. }
  destruct (_ || (r =? 8233)) eqn:E3.
  { apply orb_true_iff in E3 as [E|E]; zbool; subst.
    - by apply (reads_back_esc4 2 0 2 8).
    - by apply (reads_back_esc4 2 0 2 9). }
  apply orb_false_iff in E1 as [??]. apply orb_false_iff in E2 as [E2 ?]. apply orb_false_iff in E2 as [E2 ?].
  apply orb_false_iff in E2 as [??]. zbool.
  destruct (Z.lt_ge_cases r 128); [|by apply reads_back_high].
  rewrite encode_rune_ascii by lia. rewrite <- (byte_val_byte r) at 1 by lia.
  apply reads_back_self; rewrite byte_val_byte; lia.
Qed.

(** A string is read back. *)
Lemma parse_json_string s rest : utf8 s ->
  parse_string (json_runes (segments s) +:+ String quote_char rest) = Some (s, rest).
Proof.
  intros (rs & Hrs & ->). unfold parse_string. rewrite segments_of_runes by done.
  assert (scan_string (json_runes (map (fun r => (r, encode_rune r)) rs) +:+ String quote_char rest)
          = Some (json_runes (map (fun r => (r, encode_rune r)) rs), rest)
       /\ unquote (segments (json_runes (map (fun r => (r, encode_rune r)) rs))) = of_runes rs) as [-> ->]; [|done].
  induction Hrs as [|r rs Hr _ [IH1 IH2]]; [done|]. destruct (json_rune_reads_back r Hr (json_runes (map (fun r => (r, encode_rune r)) rs))) as [_ Hu].
  cbn [map json_runes foldr of_runes]. fold (json_runes (map (fun r => (r, encode_rune r)) rs)). split.
  - rewrite string_app_assoc. rewrite (proj1 (json_rune_reads_back r Hr _)). by rewrite IH1.
  - by rewrite Hu, IH2.
Qed.

(** ** Numbers *)

(** What may follow a value. *)
Definition ends_value (rest : string) : Prop :=
  match rest with "" => True | String c _ => json_space c = true \/ c ∈ [","; "]"; "}"]%char end.

Lemma byte_of_val c : byte (byte_val c) = c.
Proof. unfold byte, byte_val. by rewrite N2Z.id, ascii_N_embedding. Qed.

(** A character that ends a value is none of those that numbers are made of. *)
Lemma ends_char (P : ascii -> bool) c : json_space c = true \/ c ∈ [","; "]"; "}"]%char ->
  forallb (fun b => negb (P (byte b))) [32; 9; 13; 10; 44; 93; 125] = true -> P c = false.
Proof.
  intros Hc HP. assert (byte_val c ∈ [32; 9; 13; 10; 44; 93; 125]) as Hb.
  { destruct Hc as [Hc|Hc].
    - unfold json_space in Hc. apply bool_decide_eq_true in Hc. set_solver.
    - repeat (apply elem_of_cons in Hc as [->|Hc]; [vm_compute; set_solver|]). by apply elem_of_nil in Hc. }
  rewrite forallb_forall in HP. apply list_elem_of_In in Hb. specialize (HP _ Hb).
  rewrite byte_of_val in HP. by apply negb_true_iff in HP.
Qed.

Lemma span_digits_all d rest : all_chars is_digit d = true -> ends_value rest -> span_digits (d +:+ rest) = (d, rest).
Proof.
  intros Hd Hr. induction d as [|c d IH]; cbn [all_chars] in Hd.
  - rewrite sapp_nil. destruct rest as [|c rest]; [done|]. cbn [span_digits].
    by rewrite (ends_char is_digit c Hr) by (by vm_compute).
  - apply andb_true_iff in Hd as [Hc Hd]. rewrite sapp_cons. cbn [span_digits]. by rewrite Hc, IH.
Qed.

Lemma pretty_go_head x s : (0 < x)%N ->
  exists c t, pretty_N_go x s = String c t /\ is_digit c = true /\ c <> "0"%char.
Proof.
  revert s. induction (N.lt_wf_0 x) as [x _ IH]; intros s Hx. rewrite pretty_N_go_step by lia.
  destruct (decide (x `div` 10 = 0)%N) as [Hd|H0].
  - rewrite Hd, pretty_N_go_0. eexists _, _. split; [done|].
    assert (x < 10)%N as Hlt by (apply N.div_small_iff in Hd; lia). rewrite N.mod_small by done.
    destruct (pretty_N_char_digit x Hlt) as [H1 H2]. split; [done|]. intros E. rewrite E in H2. vm_compute (byte_val _) in H2. lia.
  - apply IH; [apply N.div_lt; lia|by apply N.neq_0_lt_0].
Qed.

Lemma scan_integer_pretty (x : N) rest : ends_value rest -> scan_integer (pretty x +:+ rest) = Some (pretty x, rest).
Proof.
  intros Hr. unfold pretty, pretty_N. case_decide as H; [done|].
  assert (all_chars is_digit (pretty_N_go x "") = true) as Ha by by apply pretty_go_chars.
  destruct (pretty_go_head x "" ltac:(lia)) as (c & t & E & Hc & Hz).
  assert (scan_integer (pretty_N_go x "" +:+ rest)
          = let '(d, r) := span_digits (pretty_N_go x "" +:+ rest) in if decide (d = "") then None else Some (d, r)) as ->.
  { rewrite E, sapp_cons. unfold scan_integer. destruct c as [[] [] [] [] [] [] [] []]; done. }
  rewrite span_digits_all by done. by rewrite E.
Qed.

Lemma ends_no_fraction rest : ends_value rest -> scan_fraction rest = Some ("", rest) /\ scan_exponent rest = Some ("", rest).
Proof.
  destruct rest as [|c rest]; [done|]. intros Hr. split.
  - pose proof (ends_char (fun c => bool_decide (c = "."%char)) c Hr ltac:(by vm_compute)) as H. apply bool_decide_eq_false in H.
    unfold scan_fraction. destruct c as [[] [] [] [] [] [] [] []]; done.
  - unfold scan_exponent. by rewrite (ends_char (fun c => bool_decide (c ∈ ["e"; "E"]%char)) c Hr) by (by vm_compute).
Qed.

Lemma scan_number_itoa z rest : ends_value rest -> scan_number (itoa z +:+ rest) = Some (itoa z, rest).
Proof.
  intros Hr. destruct (ends_no_fraction rest Hr) as [Hf He]. unfold scan_number.
  destruct (Z.ltb_spec z 0) as [Hz|Hz].
  - rewrite itoa_neg by done. change (("-" +:+ pretty (Z.to_N (- z))) +:+ rest) with (String "-" (pretty (Z.to_N (- z)) +:+ rest)).
    cbv beta iota. rewrite scan_integer_pretty by done. rewrite Hf, He. by rewrite !string_app_nil_r.
  - rewrite itoa_nonneg by done. destruct (itoa_N_head (Z.to_N z)) as (c & t & E & Hc).
    assert ((match pretty (Z.to_N z) +:+ rest with String "-" t => ("-", t) | _ => ("", pretty (Z.to_N z) +:+ rest) end)
      = ("", pretty (Z.to_N z) +:+ rest)) as ->.
    { rewrite E, sapp_cons. destruct c as [[] [] [] [] [] [] [] []]; done. }
    rewrite scan_integer_pretty by done. rewrite Hf, He. by rewrite !string_app_nil_r.
Qed.

(** ** Values *)

(** Values that are written in whole: strings of whole runes, integers, at most
    [d] levels of arrays and objects. *)
Inductive json_ok : nat -> jval -> Prop :=
| ok_null d : json_ok d VNull
| ok_bool d b : json_ok d (VBool b)
| ok_num d z : json_ok d (VNum (itoa z))
| ok_str d s : utf8 s -> json_ok d (VStr s)
| ok_arr d l : Forall (json_ok d) l -> json_ok (S d) (VArr l)
| ok_obj d l : Forall (fun p => utf8 p.1 /\ json_ok d p.2) l -> json_ok (S d) (VObj l).

Section json_ok_ind.
Variable P : nat -> jval -> Prop.
Hypothesis Pnull : forall d, P d VNull.
Hypothesis Pbool : forall d b, P d (VBool b).
Hypothesis Pnum : forall d z, P d (VNum (itoa z)).
Hypothesis Pstr : forall d s, utf8 s -> P d (VStr s).
Hypothesis Parr : forall d l, Forall (P d) l -> P (S d) (VArr l).
Hypothesis Pobj : forall d l, Forall (fun p => utf8 p.1 /\ P d p.2) l -> P (S d) (VObj l).

Lemma json_ok_nested d v : json_ok d v -> P d v.
Proof.
  revert d v. fix IH 3. intros d v [d'|d' b|d' z|d' s Hs|d' l Hl|d' l Hl]; auto.
  - apply Parr. induction Hl as [|v' l' Hv _ IHl]; constructor; [by apply IH|done].
  - apply Pobj. induction Hl as [|p l' [Hk Hv] _ IHl]; constructor; [split; [done|by apply IH]|done].
Qed.
End json_ok_ind.

Lemma json_ok_mono d1 d2 v : json_ok d1 v -> (d1 <= d2)%nat -> json_ok d2 v.
Proof.
  intros H. revert d2. pattern d1, v. revert H. apply json_ok_nested; try (intros; by constructor).
  - intros d l Hl [|d2] Hd; [lia|]. constructor. eapply Forall_impl; [exact Hl|]. intros w Hw. apply Hw. lia.
  - intros d l Hl [|d2] Hd; [lia|]. constructor. eapply Forall_impl; [exact Hl|]. intros w [Hk Hw]. split; [done|]. apply Hw. lia.
Qed.

(** The first character of a value. *)
Definition starts_value (s : string) : Prop :=
  match s with "" => False | String c _ => json_space c = false /\ c <> "]"%char /\ c <> "}"%char end.

Lemma digit_starts c t : is_digit c = true \/ c = "-"%char -> starts_value (String c t).
Proof.
  intros H. cbn. destruct c as [[] [] [] [] [] [] [] []]; (destruct H as [H|H]; [try done|done]); vm_compute in H |- *; done.
Qed.

Lemma itoa_starts z : exists c t, itoa z = String c t /\ (is_digit c = true \/ c = "-"%char).
Proof.
  destruct (Z.ltb_spec z 0).
  - rewrite itoa_neg by done. eexists _, _. split; [reflexivity|]. by right.
  - rewrite itoa_nonneg by done. destruct (itoa_N_head (Z.to_N z)) as (c & t & E & Hc). exists c, t. auto.
Qed.

Lemma skip_ws_starts s : starts_value s -> skip_ws s = s.
Proof. destruct s as [|c s]; [done|]. cbn. by intros [-> _]. Qed.

(** White space. *)
Definition blank (s : string) : Prop := all_chars json_space s = true.
Lemma skip_ws_blank ws s : blank ws -> skip_ws (ws +:+ s) = skip_ws s.
Proof.
  unfold blank. induction ws as [|c ws IH]; [done|]. cbn [all_chars]. intros [Hc Hws]%andb_true_iff.
  rewrite sapp_cons. cbn [skip_ws]. rewrite Hc. by apply IH.
Qed.
Lemma blank_ends ws s : blank ws -> ends_value s -> ends_value (ws +:+ s).
Proof. destruct ws as [|c ws]; [done|]. unfold blank. cbn. intros [Hc _]%andb_true_iff _. by left. Qed.
Lemma ends_close c s : c ∈ [","; "]"; "}"]%char -> ends_value (String c s).
Proof. intros Hc. by right. Qed.

Lemma digit_value c t f d : is_digit c = true \/ c = "-"%char ->
  parse_value (S f) d (String c t)
  = match scan_number (String c t) with Some (lit, rest) => Some (VNum lit, rest) | None => None end.
Proof.
  intros H. destruct c as [[] [] [] [] [] [] [] []]; (destruct H as [H|H]; [try done|done]); vm_compute in H; try done.
Qed.

Lemma string_value s f d rest : utf8 s -> parse_value (S f) d (json_string s +:+ rest) = Some (VStr s, rest).
Proof.
  intros Hs. unfold json_string. rewrite sapp_cons, string_app_assoc, sapp_cons, sapp_nil.
  cbn [parse_value]. rewrite (bool_decide_eq_true_2 (quote_char = quote_char)) by done. by rewrite parse_json_string.
Qed.

Lemma Join_cons2 x y l sep : Join (x :: y :: l) sep = x +:+ sep +:+ Join (y :: l) sep.
Proof. done. Qed.

(** Without white space it is the text of [Marshal]. *)
Lemma json_print_Marshal d v : json_ok d v -> forall k, json_print (fun _ => "") "" k v = json_Marshal v.
Proof.
  intros H. induction H as [d|d b|d z|d s Hs|d l IH|d l IH] using json_ok_nested; intros k; try done.
  - destruct l as [|v l]; [done|]. cbn [json_print json_Marshal]. rewrite !sapp_nil. do 3 f_equal.
    change (map (json_print (λ _ : nat, "") "" (S k)) (v :: l) = map json_Marshal (v :: l)).
    apply map_ext_in. intros w Hw. rewrite Forall_forall in IH. apply IH. by apply list_elem_of_In.
  - destruct l as [|p l]; [done|]. cbn [json_print json_Marshal]. rewrite !sapp_nil. do 3 f_equal.
    apply (map_ext_in (fun '(n, v) => json_string n +:+ ":" +:+ "" +:+ json_print (λ _ : nat, "") "" (S k) v)
      (fun '(n, v) => json_string n +:+ ":" +:+ json_Marshal v) (p :: l)).
    intros [n w] Hw. rewrite Forall_forall in IH. apply list_elem_of_In in Hw. destruct (IH _ Hw) as [_ Hp]. cbn in Hp.
    by rewrite Hp, sapp_nil.
Qed.

(** ** What is printed is read back *)
Section printed.
Variables (brk : nat -> string) (sp : string).
Hypothesis brk_blank : forall k, blank (brk k).
Hypothesis sp_blank : blank sp.
#[local] Abbreviation text := (json_print brk sp).
#[local] Abbreviation sep k := ("," +:+ brk k).

Lemma print_starts d v k : json_ok d v -> exists c t, text k v = String c t /\ starts_value (String c t).
Proof.
  intros [ | ? [] | ? z | | ? [] | ? []]; try (eexists _, _; split; [reflexivity|done]).
  destruct (itoa_starts z) as (c & t & E & Hc). exists c, t. split; [done|by apply digit_starts].
Qed.

(** The text of a value is read back, with enough fuel and depth. *)
Definition value_back (d : nat) (v : jval) : Prop := forall k fuel rest,
  (2 * String.length (text k v) <= fuel)%nat -> ends_value rest ->
  parse_value fuel d (text k v +:+ rest) = Some (v, rest).

(** A value that is read back and starts as a value does. *)
Definition back (d : nat) (v : jval) : Prop :=
  value_back d v /\ forall k, exists c t, text k v = String c t /\ starts_value (String c t).

Lemma parse_elems_step k f d v s rest : value_back d v -> (2 * String.length (text k v) <= f)%nat -> ends_value rest ->
  s = text k v +:+ rest ->
  parse_elems (S f) d s = match skip_ws rest with
                          | String "]" r => Some ([v], r)
                          | String "," s3 =>
                            match parse_elems f d (skip_ws s3) with Some (vs, r) => Some (v :: vs, r) | None => None end
                          | _ => None end.
Proof. intros Hv Hf Hr ->. cbn [parse_elems]. by rewrite Hv. Qed.

Lemma elems_back k d l : l <> [] -> Forall (back d) l -> forall fuel ws rest, blank ws ->
  (2 * String.length (Join (map (text k) l) (sep k)) + 1 <= fuel)%nat ->
  parse_elems fuel d (Join (map (text k) l) (sep k) +:+ ws +:+ String "]" rest) = Some (l, rest).
Proof.
  intros Hn Hl. induction Hl as [|v l [Hv _] Hl IH]; [done|]. intros [|fuel] ws rest Hws Hf; [lia|].
  destruct l as [|v' l].
  - cbn [map Join] in *. rewrite (parse_elems_step k _ _ v _ (ws +:+ String "]" rest));
      [by rewrite skip_ws_blank|done|lia|apply blank_ends; [done|apply ends_close; set_solver]|done].
  - cbn [map] in *. rewrite Join_cons2 in *. rewrite !length_app_str in Hf. cbn [String.length] in Hf.
    rewrite (parse_elems_step k _ _ v _ (String "," (brk k +:+ Join (text k v' :: map (text k) l) (sep k) +:+ ws +:+ String "]" rest)));
      [|done|lia|apply ends_close; set_solver|by rewrite !string_app_assoc].
    apply Forall_cons in Hl as [[_ Hs] _]. destruct (Hs k) as (c & t & E & Hc).
    change (skip_ws (String "," ?s)) with (String "," s). cbv beta iota. rewrite skip_ws_blank by done.
    rewrite skip_ws_starts by (destruct l; cbn [map Join]; rewrite E; done).
    rewrite IH; [done|done|done|cbn [map]; lia].
Qed.

Lemma Join_nonempty_head k d l s : l <> [] -> Forall (back d) l ->
  exists c t, Join (map (text k) l) s = String c t /\ starts_value (String c t).
Proof.
  intros Hn Hl. revert Hn. destruct Hl as [|v l' [_ Hs] _]; [done|]. intros _. destruct (Hs k) as (c & t & E & Hc).
  destruct l'; cbn [map Join]; rewrite E; eauto.
Qed.

Lemma array_back d l : Forall (back d) l -> value_back (S d) (VArr l).
Proof.
  intros Hl k [|fuel] rest; (destruct l as [|v l]; [intros Hf _; first [reflexivity|change (4 <= 0)%nat in Hf; lia]|]); set (l0 := v :: l) in *;
    change (text k (VArr l0)) with (String "[" (brk (S k) +:+ Join (map (text (S k)) l0) (sep (S k)) +:+ brk k +:+ "]"));
    cbn [String.length]; rewrite !length_app_str; intros Hf _; [lia|].
  rewrite sapp_cons, !string_app_assoc. change ("]" +:+ rest) with (String "]" rest). cbn [parse_value].
  change (bool_decide ("["%char = quote_char)) with false. change (bool_decide ("["%char = "["%char)) with true. cbv iota.
  rewrite skip_ws_blank by done.
  destruct (Join_nonempty_head (S k) d l0 (sep (S k))) as (c & t & E & Hs); [done..|].
  pose proof (elems_back (S k) d l0 ltac:(done) Hl fuel (brk k) rest ltac:(done) ltac:(lia)) as He.
  rewrite E, sapp_cons in He |- *. rewrite skip_ws_starts by done.
  destruct Hs as (_ & Hs & _). destruct c as [[] [] [] [] [] [] [] []]; try done; by rewrite He.
Qed.

(** *** Objects *)
Definition member_text (k : nat) (p : string * jval) : string := let '(n, v) := p in json_string n +:+ ":" +:+ sp +:+ text k v.
Definition member_back (d : nat) (p : string * jval) : Prop := utf8 p.1 /\ back d p.2.

Lemma parse_members_step k f d n v rest : utf8 n -> back d v -> (2 * String.length (text k v) <= f)%nat -> ends_value rest ->
  parse_members (S f) d (member_text k (n, v) +:+ rest)
  = match skip_ws rest with
    | String "}" r => Some ([(n, v)], r)
    | String "," s5 =>
      match parse_members f d (skip_ws s5) with Some (vs, r) => Some ((n, v) :: vs, r) | None => None end
    | _ => None end.
Proof.
  intros Hk [Hv Hs] Hf Hr. destruct (Hs k) as (c & t & E & Hc). unfold member_text, json_string.
  rewrite !sapp_cons, !string_app_assoc, !sapp_cons, !sapp_nil. cbn [parse_members].
  rewrite (bool_decide_eq_true_2 (quote_char = quote_char)) by done. cbn [negb].
  rewrite parse_json_string by done. change (skip_ws (String ":" ?s)) with (String ":" s).
  cbv beta iota. rewrite !string_app_assoc, skip_ws_blank by done.
  rewrite (skip_ws_starts (text k v +:+ rest)) by (by rewrite E). by rewrite Hv.
Qed.

Lemma members_back k d l : l <> [] -> Forall (member_back d) l -> forall fuel ws rest, blank ws ->
  (2 * String.length (Join (map (member_text k) l) (sep k)) + 1 <= fuel)%nat ->
  parse_members fuel d (Join (map (member_text k) l) (sep k) +:+ ws +:+ String "}" rest) = Some (l, rest).
Proof.
  assert (forall n v, (String.length (text k v) <= String.length (member_text k (n, v)))%nat) as Hm
    by (intros n v; unfold member_text; rewrite !length_app_str; lia).
  intros Hn Hl. induction Hl as [|[n v] l [Hk Hv] Hl IH]; [done|]. intros [|fuel] ws rest Hws Hf; [lia|]. specialize (Hm n v).
  destruct l as [|p l].
  - cbn [map Join] in *. rewrite parse_members_step;
      [by rewrite skip_ws_blank|done|done|lia|apply blank_ends; [done|apply ends_close; set_solver]].
  - cbn [map] in *. rewrite Join_cons2 in *. rewrite !length_app_str in Hf. cbn [String.length] in Hf.
    rewrite !string_app_assoc. rewrite parse_members_step; [|done|done|lia|apply ends_close; set_solver].
    change (skip_ws ("," +:+ ?s)) with (String "," s). cbv beta iota. rewrite skip_ws_blank by done.
    rewrite skip_ws_starts by (destruct p, l; done). rewrite IH; [done|done|done|cbn [map]; lia].
Qed.

Lemma object_back d l : Forall (member_back d) l -> value_back (S d) (VObj l).
Proof.
  intros Hl k [|fuel] rest; (destruct l as [|p l]; [intros Hf _; first [reflexivity|change (4 <= 0)%nat in Hf; lia]|]); set (l0 := p :: l) in *;
    change (text k (VObj l0)) with (String "{" (brk (S k) +:+ Join (map (member_text (S k)) l0) (sep (S k)) +:+ brk k +:+ "}"));
    cbn [String.length]; rewrite !length_app_str; intros Hf _; [lia|].
  rewrite sapp_cons, !string_app_assoc. change ("}" +:+ rest) with (String "}" rest). cbn [parse_value].
  change (bool_decide ("{"%char = quote_char)) with false. change (bool_decide ("{"%char = "["%char)) with false.
  change (bool_decide ("{"%char = "{"%char)) with true. cbv iota. rewrite skip_ws_blank by done.
  assert (exists t, Join (map (member_text (S k)) l0) (sep (S k)) +:+ brk k +:+ String "}" rest = String quote_char t) as (t & E)
    by (destruct p, l; eexists; reflexivity).
  pose proof (members_back (S k) d l0 ltac:(done) Hl fuel (brk k) rest ltac:(done) ltac:(lia)) as Hm. rewrite E in Hm |- *.
  transitivity (match parse_members fuel d (String quote_char t) with Some (l, rest) => Some (VObj l, rest) | None => None end);
    [reflexivity|by rewrite Hm].
Qed.

(** *** All values *)
Lemma value_text_back d v : json_ok d v -> back d v.
Proof.
  intros H. induction H as [d|d b|d z|d s Hs|d l IH|d l IH] using json_ok_nested;
    (split; [|intros k; first [by apply (print_starts d); constructor|by destruct l; eexists _, _]]).
  - intros k [|fuel] rest Hf Hr; [cbn in Hf; lia|by destruct rest].
  - intros k [|fuel] rest Hf Hr; [destruct b; cbn in Hf; lia|by destruct b, rest].
  - destruct (itoa_starts z) as (c & t & E & Hc).
    intros k [|fuel] rest Hf Hr; cbn [json_print json_Marshal] in *; [rewrite E in Hf; cbn in Hf; lia|].
    rewrite E, sapp_cons, digit_value by done. rewrite <- sapp_cons, <- E. by rewrite scan_number_itoa.
  - intros k [|fuel] rest Hf Hr; [cbn in Hf; lia|]. by apply string_value.
  - by apply array_back.
  - by apply object_back.
Qed.

Lemma print_Unmarshal k v : json_ok maxNestingDepth v -> json_Unmarshal (text k v) = Some v.
Proof.
  intros H. destruct (value_text_back _ _ H) as [Hb Hs]. destruct (Hs k) as (c & t & E & Hc). unfold json_Unmarshal, json_fuel.
  rewrite skip_ws_starts by (by rewrite E).
  rewrite <- (string_app_nil_r (text k v)) at 2. rewrite Hb; [done|lia|done].
Qed.
End printed.

(** A text that [Marshal] writes is read back. *)
Theorem Marshal_Unmarshal v : json_ok maxNestingDepth v -> json_Unmarshal (json_Marshal v) = Some v.
Proof. intros H. rewrite <- (json_print_Marshal _ _ H 0). by apply print_Unmarshal. Qed.

(** A text that [MarshalIndent] writes is read back, when the indentation is
    white space. *)
Theorem MarshalIndent_Unmarshal prefix indent v : blank prefix -> blank indent -> json_ok maxNestingDepth v ->
  json_Unmarshal (json_MarshalIndent prefix indent v) = Some v.
Proof.
  intros Hp Hi H. apply print_Unmarshal; [|done|done]. intros k. unfold blank, indent_of.
  cbn [all_chars]. apply andb_true_iff. split; [done|]. rewrite all_chars_app. apply andb_true_iff. split; [done|].
  induction k as [|k IH]; [done|]. destruct k as [|k]; [done|].
  change (all_chars json_space (indent +:+ "" +:+ String.concat "" (replicate (S k) indent)) = true).
  rewrite !all_chars_app. by rewrite Hi, IH.
Qed.

(** ** One line *)
Definition no_newline (s : string) : Prop := all_chars (fun c => negb (byte_val c =? 10)) s = true.

Lemma no_newline_app s t : no_newline (s +:+ t) <-> no_newline s /\ no_newline t.
Proof. unfold no_newline. by rewrite all_chars_app, andb_true_iff. Qed.

Lemma no_newline_Join l sep : no_newline sep -> Forall no_newline l -> no_newline (Join l sep).
Proof.
  intros Hs. induction 1 as [|x l Hx Hl IH]; [done|]. destruct l; [done|]. rewrite Join_cons2, !no_newline_app. auto.
Qed.

Lemma itoa_no_newline z : no_newline (itoa z).
Proof.
  eapply all_chars_impl; [|apply itoa_chars]. intros c. unfold is_sign_digit, is_digit. rewrite orb_true_iff.
  intros [H|H]; [|zbool; by subst]. apply in_range_spec in H. apply negb_true_iff, Z.eqb_neq. lia.
Qed.

Lemma json_rune_no_newline r : ValidRune r = true -> no_newline (json_rune (r, encode_rune r)).
Proof.
  intros Hr. pose proof Hr as Hv. apply ValidRune_spec in Hv. unfold json_rune.
  destruct (invalid_segment _); [done|].
  destruct (_ || _) eqn:E1 at 1; [apply orb_true_iff in E1 as [E|E]; zbool; by subst|].
  destruct (r =? 8); [done|]. destruct (r =? 12); [done|]. destruct (r =? 10) eqn:E10; [done|].
  destruct (r =? 13); [done|]. destruct (r =? 9); [done|].
  destruct (_ || (r =? 38)) eqn:E2.
  { assert (0 <= r < 128) by (repeat (apply orb_true_iff in E2 as [E2|E2]); zbool; lia).
    rewrite hex2_digits by lia. unfold no_newline.
    change (String backslash ("u00" +:+ String (hex_digit (r / 16)) (String (hex_digit (r mod 16)) "")))
      with (String backslash "u00" +:+ String (hex_digit (r / 16)) (String (hex_digit (r mod 16)) "")).
    rewrite all_chars_app. cbn [all_chars].
    rewrite !hex_digit_val by (Z.div_mod_to_equations; lia).
    assert (forall d, 0 <= d < 16 -> negb ((if d <? 10 then 48 + d else 87 + d) =? 10) = true) as Hd.
    { intros d Hd. destruct (d <? 10) eqn:E; zbool; apply negb_true_iff, Z.eqb_neq; lia. }
    rewrite !Hd by (Z.div_mod_to_equations; lia). by vm_compute. }
  destruct (_ || (r =? 8233)) eqn:E3; [apply orb_true_iff in E3 as [E|E]; zbool; by subst|].
  zbool. destruct (Z.lt_ge_cases r 128).
  - rewrite encode_rune_ascii by lia. unfold no_newline. cbn -[byte_val byte]. rewrite byte_val_byte by lia.
    by rewrite (proj2 (Z.eqb_neq _ _)).
  - destruct (encode_rune_high r Hr ltac:(lia)) as (? & ? & _ & Ha). eapply all_chars_impl; [|exact Ha].
    intros c Hc%Z.leb_le. apply negb_true_iff, Z.eqb_neq. lia.
Qed.

Lemma json_string_no_newline s : utf8 s -> no_newline (json_string s).
Proof.
  intros (rs & Hrs & ->). unfold json_string. rewrite segments_of_runes by done.
  assert (no_newline (json_runes (map (fun r => (r, encode_rune r)) rs))) as H.
  { induction Hrs as [|r rs Hr _ IH]; [done|]. cbn [map json_runes foldr]. rewrite no_newline_app.
    split; [by apply json_rune_no_newline|exact IH]. }
  change (no_newline (String quote_char "" +:+ (json_runes (map (fun r => (r, encode_rune r)) rs) +:+ String quote_char ""))).
  rewrite !no_newline_app. done.
Qed.

Theorem Marshal_no_newline d v : json_ok d v -> no_newline (json_Marshal v).
Proof.
  intros H. induction H as [d|d b|d z|d s Hs|d l IH|d l IH] using json_ok_nested; cbn [json_Marshal];
    [done|by destruct b|apply itoa_no_newline|by apply json_string_no_newline| |];
    rewrite !no_newline_app; (split; [done|split; [|done]]); apply no_newline_Join; try done; apply Forall_map.
  - done.
  - eapply Forall_impl; [exact IH|]. intros [k v] [Hk Hv]. cbn. rewrite !no_newline_app.
    split; [by apply json_string_no_newline|done].
Qed.

(** ** Valid strings *)
Lemma cons_eq {A} (x y : A) l k : x = y -> l = k -> x :: l = y :: k.
Proof. congruence. Qed.
(** Byte by byte, by arithmetic. *)
Ltac bytes_eq := repeat (apply cons_eq; [Z.div_mod_to_equations; lia|]); done.

(** What decodes without an error is the encoding of its rune. *)
Lemma encode_decode l r n : Forall (fun b => 0 <= b <= 255) l -> decode_bytes l = (r, n) -> (r, n) <> (RuneError, 1%nat) -> l <> [] ->
  ValidRune r = true /\ encode_valid r = take n l.
Proof.
  intros Hl H Hn Hne.
  assert (ValidRune r = true) as Hv.
  { replace r with (decode_bytes l).1 by (by rewrite H). apply decode_valid. eapply Forall_impl; [exact Hl|]. cbn. lia. }
  split; [done|]. apply ValidRune_spec in Hv. destruct l as [|b0 l]; [done|]. cbn [decode_bytes] in H.
  apply Forall_cons in Hl as [H0 Hl].
  destruct (b0 <? 128) eqn:E0.
  { injection H as <- <-. unfold encode_valid. rewrite E0. by destruct l. }
  destruct (in_range 194 223 b0) eqn:E1.
  { destruct l as [|b1 l]; [congruence|]. unfold is_cont in H. destruct (in_range 128 191 b1) eqn:E2; [|congruence].
    apply in_range_spec in E1, E2. injection H as <- <-. unfold encode_valid, rune2 in *. cbn [take].
    repeat utf8_step. bytes_eq. }
  destruct (in_range 224 239 b0) eqn:E3.
  { destruct l as [|b1 [|b2 l]]; [congruence..|]. unfold is_cont in H.
    destruct (in_range (accept_lo b0) (accept_hi b0) b1 && in_range 128 191 b2) eqn:E4; [|congruence].
    apply andb_true_iff in E4 as [E4 E5]. apply in_range_spec in E3, E4, E5. injection H as <- <-.
    unfold encode_valid, rune3 in *. cbn [take]. unfold accept_lo, accept_hi in E4.
    destruct (b0 =? 224) eqn:Ea; destruct (b0 =? 240) eqn:Eb; destruct (b0 =? 237) eqn:Ec; destruct (b0 =? 244) eqn:Ed; zbool; try lia;
      repeat utf8_step; bytes_eq. }
  destruct (in_range 240 244 b0) eqn:E4; [|congruence].
  destruct l as [|b1 [|b2 [|b3 l]]]; [congruence..|]. unfold is_cont in H.
  destruct (in_range (accept_lo b0) (accept_hi b0) b1 && in_range 128 191 b2 && in_range 128 191 b3) eqn:E5; [|congruence].
  apply andb_true_iff in E5 as [E5 E7]. apply andb_true_iff in E5 as [E5 E6].
  apply in_range_spec in E4, E5, E6, E7. injection H as <- <-.
  unfold encode_valid, rune4 in *. cbn [take]. unfold accept_lo, accept_hi in E5.
  destruct (b0 =? 224) eqn:Ea; destruct (b0 =? 240) eqn:Eb; destruct (b0 =? 237) eqn:Ec; destruct (b0 =? 244) eqn:Ed; zbool; try lia;
    repeat utf8_step; bytes_eq.
Qed.

Lemma stake_peek n m s : (n <= m)%nat -> stake n s = of_bytes (take n (peek m s)).
Proof.
  revert m s. induction n as [|n IH]; intros [|m] s H; try lia; try done; destruct s as [|c s]; try done.
  cbn. rewrite (IH m s) by lia. f_equal. unfold byte, byte_val. by rewrite N2Z.id, ascii_N_embedding.
Qed.

Lemma peek_bytes n s : Forall (fun b => 0 <= b <= 255) (peek n s).
Proof. revert s. induction n as [|n IH]; intros [|c s]; cbn; constructor; [apply byte_val_range|apply IH]. Qed.

Lemma ValidString_utf8 s : ValidString s = true -> utf8 s.
Proof.
  unfold ValidString. induction s as [|s Hs IH] using runes_ind; [intros _; by exists []|].
  rewrite segments_step by done. cbn [forallb]. rewrite andb_true_iff. intros [H1 H2].
  destruct (IH H2) as (rs & Hrs & E). destruct (DecodeRune s) as [r n] eqn:Ed. cbn [fst snd] in *.
  destruct (DecodeRune_size s Hs) as [Hn Hn4]. rewrite Ed in Hn, Hn4. cbn [snd] in Hn, Hn4.
  destruct (encode_decode (peek 4 s) r n) as [Hv He]; [apply peek_bytes|exact Ed| |by destruct s|].
  - intros [= -> ->]. unfold invalid_segment in H1. cbn [fst snd] in H1. rewrite slen_stake in H1.
    apply negb_true_iff in H1. apply andb_false_iff in H1 as [H1|H1]; zbool; [done|].
    unfold slen in H1. lia.
  - exists (r :: rs). split; [by constructor|]. cbn [of_runes]. rewrite <- E.
    unfold encode_rune, encode_bytes. rewrite Hv, He. rewrite <- (stake_peek n 4) by done. symmetry. apply stake_sdrop.
Qed.
