(* ===== verification/JsonDec.v ===== *)
(** * Package encoding/json: decoding into Go values

    A decoder of a struct, a slice or a map goes through a [jval] the way
    [Unmarshal] does, and [Decoder.Decode] reads one value from a stream. *)
From S2P Require Import Prelude GoStr Types GoFmt GoConv GoJson.
#[local] Open Scope Z_scope.

(** ** Decoding into structs

    A decoder starts from the value that is there; the flag is cleared by a
    value of the wrong type, and decoding goes on. *)
Definition dec (T : Type) : Type := T * bool.
Definition wrong {T} (d : dec T) : dec T := (d.1, false).

Definition dec_string (v : jval) (d : dec string) : dec string :=
  match v with VNull => d | VStr s => (s, d.2) | _ => wrong d end.
Definition dec_int (v : jval) (d : dec Z) : dec Z :=
  match v with VNull => d | VNum lit => match ParseInt lit with Good n => (n, d.2) | Bad _ => wrong d end | _ => wrong d end.
(** An unsigned integer up to [max]. *)
Definition dec_uint (max : Z) (v : jval) (d : dec Z) : dec Z :=
  match v with
  | VNull => d
  | VNum lit => match ParseUint lit with Good n => if n <=? max then (n, d.2) else wrong d | Bad _ => wrong d end
  | _ => wrong d
  end.
Definition dec_bool (v : jval) (d : dec bool) : dec bool :=
  match v with VNull => d | VBool b => (b, d.2) | _ => wrong d end.
(** A [json.RawMessage] keeps the value. *)
Definition dec_raw (v : jval) (d : dec (option jval)) : dec (option jval) := (Some v, d.2).

Definition dec_struct {T} (field : string -> jval -> dec T -> dec T) (v : jval) (d : dec T) : dec T :=
  match v with
  | VNull => d
  | VObj l => fold_left (fun d '(k, v) => field k v d) l d
  | _ => wrong d
  end.
Definition dec_slice {T} (zero : T) (elem : jval -> dec T -> dec T) (v : jval) (d : dec (list T)) : dec (list T) :=
  match v with
  | VNull => ([], d.2)
  | VArr l => fold_left (fun d v => let '(x, ok) := elem v (zero, true) in (d.1 ++ [x], d.2 && ok)) l ([], d.2)
  | _ => wrong d
  end.
Definition dec_map {T} (zero : T) (elem : jval -> dec T -> dec T) (v : jval) (d : dec (gmap string T)) : dec (gmap string T) :=
  match v with
  | VNull => (∅, d.2)
  | VObj l => fold_left (fun d '(k, v) => let '(x, ok) := elem v (zero, true) in (<[k := x]> d.1, d.2 && ok)) l d
  | _ => wrong d
  end.
(** A pointer: [null] is nil, another value is decoded into what it points to. *)
Definition dec_pointer {T} (zero : T) (elem : jval -> dec T -> dec T) (v : jval) (d : dec (option T)) : dec (option T) :=
  match v with
  | VNull => (None, d.2)
  | _ => let '(x, ok) := elem v (default zero d.1, d.2) in (Some x, ok)
  end.

(** A field of a struct: how it is read, how it is replaced. *)
Definition in_field {T F} (get : T -> F) (put : F -> T -> T) (elem : jval -> dec F -> dec F) (v : jval) (d : dec T) : dec T :=
  let '(x, ok) := elem v (get d.1, d.2) in (put x d.1, ok).

(** *** Maps read back *)
Lemma inserts_list {T} (l : list (string * T)) (m0 : gmap string T) : NoDup l.*1 ->
  fold_left (fun m p => <[p.1 := p.2]> m) l m0 = list_to_map l ∪ m0.
Proof.
  revert m0. induction l as [|[k v] l IH]; intros m0 Hn; [cbn; by rewrite (left_id_L ∅ (∪))|]. apply NoDup_cons in Hn as [Hk Hl].
  cbn [fold_left fst snd]. rewrite IH by done. cbn [list_to_map foldr].
  change (uncurry insert (k, v)) with (insert (M := gmap string T) k v).
  rewrite <- insert_union_l, insert_union_r; [done|]. by apply not_elem_of_list_to_map_1.
Qed.

(** A map that is written with its keys in order, and read into an empty map. *)
Definition sorted_members {T} (zero : T) (enc : T -> jval) (m : gmap string T) : list (string * jval) :=
  map (fun k => (k, enc (default zero (m !! k)))) (sort_Strings (map_to_list m).*1).

Lemma dec_map_back {T} (zero : T) elem (enc : T -> jval) (m : gmap string T) ok :
  map_Forall (fun _ x => elem (enc x) (zero, true) = (x, true)) m ->
  dec_map zero elem (VObj (sorted_members zero enc m)) (∅, ok) = (m, ok).
Proof.
  intros Hm. unfold sorted_members, dec_map.
  set (pairs := map (fun k => (k, default zero (m !! k))) (sort_Strings (map_to_list m).*1)).
  assert (map (fun k => (k, enc (default zero (m !! k)))) (sort_Strings (map_to_list m).*1) = map (fun p => (p.1, enc p.2)) pairs) as ->.
  { unfold pairs. by rewrite map_map. }
  assert (pairs ≡ₚ map_to_list m) as Hp.
  { unfold pairs. change (map ?f ?l) with (f <$> l). rewrite sort_Strings_perm, <- list_fmap_compose.
    erewrite (list_fmap_ext _ id); [by rewrite list_fmap_id|].
    intros i [k v] Hin%list_elem_of_lookup_2%elem_of_map_to_list. cbn. by rewrite Hin. }
  assert (Forall (fun p => elem (enc p.2) (zero, true) = (p.2, true)) pairs) as He.
  { apply Forall_forall. intros [k x] Hin. rewrite Hp in Hin. apply elem_of_map_to_list in Hin. by apply (Hm k). }
  assert (NoDup pairs.*1) as Hn by (rewrite Hp; apply NoDup_fst_map_to_list).
  transitivity (fold_left (fun m p => <[p.1 := p.2]> m) pairs (∅ : gmap string T), ok).
  - clear Hp Hn. generalize (∅ : gmap string T) as m0. induction He as [|[k x] l Hx _ IH]; intros m0; [done|].
    cbn [map fold_left fst snd] in *. rewrite Hx, andb_true_r. apply IH.
  - rewrite inserts_list, (right_id_L ∅ (∪)) by done. f_equal. rewrite <- (list_to_map_to_list m). by apply list_to_map_proper.
Qed.

(** ** Numbers as [float64] *)

(** [num / den], correctly rounded. *)
Definition f64_ratio (neg : bool) (num : Z) (den : positive) : f64 :=
  match num with
  | Z.pos p => SFdiv 53 1024 (S754_finite neg p 0) (S754_finite false den 0)
  | _ => S754_zero neg
  end.

(** The digits of a text, and the value they stand for. *)
Fixpoint digits_value (s : string) (n : Z) : Z :=
  match s with String c s' => digits_value s' (10 * n + (byte_val c - 48)) | "" => n end.

(** [strconv.ParseFloat] of a number that the scanner accepted; [None] when it
    is out of range. *)
Definition ParseFloat (lit : string) : option f64 :=
  let '(neg, s1) := match lit with String "-" t => (true, t) | _ => (false, lit) end in
  let '(i, s2) := span_digits s1 in
  let '(f, s3) := match s2 with String "." t => span_digits t | _ => ("", s2) end in
  let e := match s3 with
           | String _ (String "-" t) => - digits_value t 0
           | String _ (String "+" t) => digits_value t 0
           | String _ t => digits_value t 0
           | "" => 0
           end in
  let e := e - slen f in
  let n := digits_value (i +:+ f) 0 in
  let x := if 0 <=? e then f64_ratio neg (n * 10 ^ e) 1 else f64_ratio neg n (Z.to_pos (10 ^ (- e))) in
  match x with S754_infinity _ => None | _ => Some x end.

(** ** [Decoder.Decode] *)

(** What a stream delivers before it ends, and the error it ends with unless
    that is [io.EOF]. *)
Record stream := mkStream { delivered : string; broken : option string }.

Definition is_container (v : jval) : bool := match v with VArr _ | VObj _ => true | _ => false end.

(** The first value of the stream; what comes after it stays unread.  The end
    of an array or an object is seen at its last character, the end of another
    value only at the next one or at the end of the stream. *)
Definition decode_value (s : stream) : option jval :=
  match parse_value (json_fuel (delivered s)) maxNestingDepth (skip_ws (delivered s)) with
  | None => None
  | Some (v, rest) =>
    if is_container v || negb (bool_decide (rest = "")) || bool_decide (broken s = None) then Some v else None
  end.

Definition Decode {T} (zero : T) (elem : jval -> dec T -> dec T) (s : stream) : option T :=
  match decode_value s with
  | None => None
  | Some v => let '(x, ok) := elem v (zero, true) in if ok then Some x else None
  end.
Definition Unmarshal {T} (zero : T) (elem : jval -> dec T -> dec T) (s : string) : option T :=
  match json_Unmarshal s with
  | None => None
  | Some v => let '(x, ok) := elem v (zero, true) in if ok then Some x else None
  end.

Example ParseFloat_ex :
  ParseFloat "1.5" = Some (f64_div (f64_of_Z 3) (f64_of_Z 2)) /\ ParseFloat "-25e-1" = Some (SFopp (f64_div (f64_of_Z 5) (f64_of_Z 2))) /\
  ParseFloat "0.1" = Some (f64_div (f64_of_Z 1) (f64_of_Z 10)) /\ ParseFloat "104857600" = Some (f64_of_Z 104857600) /\
  ParseFloat "1e400" = None.
Proof. split_and!; vm_compute; reflexivity. Qed.
Example Decode_ex :
  Decode [] (dec_slice "" dec_string) (mkStream (json_Marshal (VArr [VStr "a"; VStr "b"]) +:+ " x") (Some "reset")) = Some ["a"; "b"] /\
  Decode [] (dec_slice "" dec_string) (mkStream "null" (Some "reset")) = None /\
  Decode [] (dec_slice "" dec_string) (mkStream "[1]" None) = None.
Proof. split_and!; vm_compute; reflexivity. Qed.

(** * [strconv.ParseFloat]

    Decimal and hexadecimal floating-point texts with signs, exponents and
    underscores, infinities and NaN, as the nearest double. *)
Definition low (c : ascii) : Z := let v := byte_val c in if in_range 65 90 v then v + 32 else v.
Fixpoint lower_ascii (s : string) : string := match s with "" => "" | String c s' => String (byte (low c)) (lower_ascii s') end.

Definition cut_sign (s : string) : bool * string :=
  match s with
  | String c s' => if byte_val c =? 45 then (true, s') else if byte_val c =? 43 then (false, s') else (false, s)
  | "" => (false, "")
  end.

Definition special (s : string) : option f64 :=
  let '(neg, t) := cut_sign s in
  let t := lower_ascii t in
  if bool_decide (t = "inf") || bool_decide (t = "infinity") then Some (S754_infinity neg)
  else if bool_decide (lower_ascii s = "nan") then Some S754_nan
  else None.

Definition hex_value (c : ascii) : option Z :=
  if is_digit c then Some (byte_val c - 48) else if in_range 97 102 (low c) then Some (low c - 87) else None.
Definition digit_value (hex : bool) (c : ascii) : option Z :=
  if hex then hex_value c else if is_digit c then Some (byte_val c - 48) else None.

(** The mantissa as an integer, the number of digits after the point, whether
    there was a digit, the rest. *)
Fixpoint mantissa (hex dot : bool) (s : string) (n frac : Z) (digits : bool) : Z * Z * bool * string :=
  match s with
  | "" => (n, frac, digits, "")
  | String c s' =>
    if byte_val c =? 95 then mantissa hex dot s' n frac digits
    else if byte_val c =? 46 then if dot then (n, frac, digits, s) else mantissa hex true s' n frac digits
    else
      match digit_value hex c with
      | Some d => mantissa hex dot s' ((if hex then 16 else 10) * n + d) (if dot then frac + 1 else frac) true
      | None => (n, frac, digits, s)
      end
  end.

(** The digits of an exponent, which count up to ten thousand. *)
Fixpoint exponent (s : string) (e : Z) : Z * string :=
  match s with
  | String c s' =>
    if byte_val c =? 95 then exponent s' e
    else if is_digit c then exponent s' (if e <? 10000 then 10 * e + (byte_val c - 48) else e)
    else (e, s)
  | "" => (e, "")
  end.

(** Underscores stand between digits, or after a prefix. *)
Inductive seen := Start | Digit | Underscore | Other.
Fixpoint underscores_ok (hex : bool) (saw : seen) (s : string) : bool :=
  match s with
  | "" => match saw with Underscore => false | _ => true end
  | String c s' =>
    if is_digit c || (hex && in_range 97 102 (low c)) then underscores_ok hex Digit s'
    else if byte_val c =? 95 then match saw with Digit => underscores_ok hex Underscore s' | _ => false end
    else match saw with Underscore => false | _ => underscores_ok hex Other s' end
  end.
Definition underscoreOK (s : string) : bool :=
  let t := (cut_sign s).2 in
  match t with
  | String a (String b u) =>
    if (byte_val a =? 48) && bool_decide (low b ∈ [98; 111; 120]) then underscores_ok (low b =? 120) Digit u
    else underscores_ok false Start t
  | _ => underscores_ok false Start t
  end.

Definition scaled (neg : bool) (n base e : Z) : f64 :=
  if 0 <=? e then f64_ratio neg (n * base ^ e) 1 else f64_ratio neg n (Z.to_pos (base ^ (- e))).

Definition strconv_ParseFloat (s : string) : res num_error f64 :=
  match special s with
  | Some f => Good f
  | None =>
    let '(neg, t) := cut_sign s in
    let '(hex, t) :=
      match t with
      | String a (String b ((String _ _) as u)) => if (byte_val a =? 48) && (low b =? 120) then (true, u) else (false, t)
      | _ => (false, t)
      end in
    let '(n, frac, digits, rest) := mantissa hex false t 0 0 false in
    let finish (e : Z) :=
      if negb (underscoreOK s) then Bad ErrSyntax
      else
        let f := if hex then scaled neg n 2 (e - 4 * frac) else scaled neg n 10 (e - frac) in
        match f with S754_infinity _ => Bad ErrRange | _ => Good f end in
    if negb digits then Bad ErrSyntax
    else
      match rest with
      | "" => if hex then Bad ErrSyntax else finish 0
      | String c t =>
        if low c =? (if hex then 112 else 101) then
          let '(eneg, t) := cut_sign t in
          match t with
          | String d _ =>
            if is_digit d then let '(e, rest) := exponent t 0 in if bool_decide (rest = "") then finish (if eneg then - e else e) else Bad ErrSyntax
            else Bad ErrSyntax
          | "" => Bad ErrSyntax
          end
        else Bad ErrSyntax
      end
  end.

Example ParseFloat_decimal :
  map strconv_ParseFloat ["0.5"; "-2.50"; "+.5"; "5."; "1e3"; "1_23.5_0"; "0x1p-2"; "Inf"; "nan"; "1e400"; "."; ""; "1__0"; "0x1"; "1e"; "12 "]
  = [Good (f64_div (f64_of_Z 1) (f64_of_Z 2)); Good (SFopp (f64_div (f64_of_Z 5) (f64_of_Z 2))); Good (f64_div (f64_of_Z 1) (f64_of_Z 2));
     Good (f64_of_Z 5); Good (f64_of_Z 1000); Good (f64_div (f64_of_Z 247) (f64_of_Z 2)); Good (f64_div (f64_of_Z 1) (f64_of_Z 4));
     Good (S754_infinity false); Good S754_nan; Bad ErrRange; Bad ErrSyntax; Bad ErrSyntax; Bad ErrSyntax; Bad ErrSyntax; Bad ErrSyntax; Bad ErrSyntax].
Proof. vm_compute. reflexivity. Qed.
