(* ===== verification/GoUrl.v ===== *)
(** * Package net/url and [os.Expand]

    Parsing and printing of addresses as the configuration and the notifiers
    use them (Go 1.25), and the expansion of [$name] and [${name}]. *)
From S2P Require Import Prelude GoStr GoConv GoFmt GoJson.
#[local] Open Scope Z_scope.

(** ** Escaping *)
Inductive encoding := encodePath | encodeHost | encodeZone | encodeUserPassword | encodeQueryComponent | encodeFragment.
#[export] Instance encoding_eq : EqDecision encoding.
Proof. solve_decision. Defined.

Definition is_alnum (c : ascii) : bool :=
  let b := byte_val c in in_range 48 57 b || in_range 65 90 b || in_range 97 122 b.

Definition shouldEscape (c : ascii) (mode : encoding) : bool :=
  let host := match mode with encodeHost | encodeZone => true | _ => false end in
  if is_alnum c then false
  else if host && (bool_decide (c ∈ ["!"; "$"; "&"; "'"; "("; ")"; "*"; "+"; ","; ";"; "="; ":"; "["; "]"; "<"; ">"]%char)
                   || bool_decide (c = quote_char)) then false
  else if bool_decide (c ∈ ["-"; "_"; "."; "~"]%char) then false
  else if bool_decide (c ∈ ["$"; "&"; "+"; ","; "/"; ":"; ";"; "="; "?"; "@"]%char) then
    match mode with
    | encodePath => bool_decide (c = "?"%char)
    | encodeUserPassword => bool_decide (c ∈ ["@"; "/"; "?"; ":"]%char)
    | encodeFragment => false
    | _ => true
    end
  else negb (bool_decide (mode = encodeFragment) && bool_decide (c ∈ ["!"; "("; ")"; "*"]%char)).

Definition upper_hex (d : Z) : ascii := byte (if d <? 10 then 48 + d else 55 + d).
Fixpoint escape (s : string) (mode : encoding) : string :=
  match s with
  | "" => ""
  | String c s' =>
    if bool_decide (c = " "%char) && bool_decide (mode = encodeQueryComponent) then String "+" (escape s' mode)
    else if shouldEscape c mode then
      let b := byte_val c in String "%" (String (upper_hex (b / 16)) (String (upper_hex (b mod 16)) (escape s' mode)))
    else String c (escape s' mode)
  end.

Section url.
Variable is_print : Z -> bool.

Definition EscapeError (s : string) : string := "invalid URL escape " +:+ Quote is_print s.
Definition InvalidHostError (s : string) : string := "invalid character " +:+ Quote is_print s +:+ " in host name".
Definition res_map {E A B} (f : A -> B) (r : res E A) : res E B := match r with Good a => Good (f a) | Bad e => Bad e end.

(** The first error, from the left. *)
Fixpoint unescape (s : string) (mode : encoding) : res string string :=
  let host := match mode with encodeHost | encodeZone => true | _ => false end in
  match s with
  | "" => Good ""
  | String c s' =>
    if bool_decide (c = "%"%char) then
      match s' with
      | String h1 (String h2 s2) =>
        match hex_val h1, hex_val h2 with
        | Some d1, Some d2 =>
          let v := 16 * d1 + d2 in
          let percent := bool_decide (h1 = "2"%char) && bool_decide (h2 = "5"%char) in
          if bool_decide (mode = encodeHost) && (d1 <? 8) && negb percent then Bad (EscapeError (stake 3 s))
          else if bool_decide (mode = encodeZone) && negb percent && negb (v =? 32) && shouldEscape (byte v) encodeHost
          then Bad (EscapeError (stake 3 s))
          else res_map (String (byte v)) (unescape s2 mode)
        | _, _ => Bad (EscapeError (stake 3 s))
        end
      | _ => Bad (EscapeError (stake 3 s))
      end
    else if bool_decide (c = "+"%char) && bool_decide (mode = encodeQueryComponent) then res_map (String " ") (unescape s' mode)
    else if host && (byte_val c <? 128) && shouldEscape c mode then Bad (InvalidHostError (String c ""))
    else res_map (String c) (unescape s' mode)
  end.

(** ** URLs *)
Record Userinfo := mkUserinfo { username : string; password : option string }.
Record URL := mkURL {
  Scheme : string; Opaque : string; User : option Userinfo; Host : string; Path : string; RawPath : string;
  OmitHost : bool; ForceQuery : bool; RawQuery : string; Fragment : string; RawFragment : string
}.
Definition with_Scheme (s : string) (u : URL) : URL :=
  mkURL s (Opaque u) (User u) (Host u) (Path u) (RawPath u) (OmitHost u) (ForceQuery u) (RawQuery u) (Fragment u) (RawFragment u).
(** [u.Path = p; u.RawPath = ""]. *)
Definition with_Path (p : string) (u : URL) : URL :=
  mkURL (Scheme u) (Opaque u) (User u) (Host u) p "" (OmitHost u) (ForceQuery u) (RawQuery u) (Fragment u) (RawFragment u).
Definition with_RawQuery (q : string) (u : URL) : URL :=
  mkURL (Scheme u) (Opaque u) (User u) (Host u) (Path u) (RawPath u) (OmitHost u) (ForceQuery u) q (Fragment u) (RawFragment u).
Definition with_Fragment (f : string) (u : URL) : URL :=
  mkURL (Scheme u) (Opaque u) (User u) (Host u) (Path u) (RawPath u) (OmitHost u) (ForceQuery u) (RawQuery u) f (RawFragment u).

(** A scheme before the first colon; a colon first or an odd byte before it. *)
Fixpoint scheme_from (first : bool) (s : string) : option (option (string * string)) :=
  match s with
  | "" => Some None
  | String c s' =>
    let b := byte_val c in
    if in_range 65 90 b || in_range 97 122 b || (negb first && (in_range 48 57 b || bool_decide (c ∈ ["+"; "-"; "."]%char))) then
      match scheme_from false s' with
      | Some (Some (sch, rest)) => Some (Some (String c sch, rest))
      | r => r
      end
    else if negb first && bool_decide (c = colon) then Some (Some ("", s'))
    else if first && bool_decide (c = colon) then None
    else Some None
  end.
Definition getScheme (rawURL : string) : res string (string * string) :=
  match scheme_from true rawURL with
  | None => Bad "missing protocol scheme"
  | Some (Some p) => Good p
  | Some None => Good ("", rawURL)
  end.

Definition validOptionalPort (port : string) : bool :=
  match port with
  | "" => true
  | String c digits => bool_decide (c = colon) && all_chars is_digit digits
  end.
Definition invalid_port (colonPort : string) : string := "invalid port " +:+ Quote is_print colonPort +:+ " after host".

(** [s] up to and from the first occurrence of [sub]. *)
Fixpoint split_at (sub s : string) : option (string * string) :=
  if String.prefix sub s then Some ("", s)
  else match s with "" => None | String c s' => prod_map (String c) id <$> split_at sub s' end.

Definition parseHost (host : string) : res string string :=
  if HasPrefix host "[" then
    match cut_last rbracket host with
    | None => Bad "missing ']' in host"
    | Some (inside, colonPort) =>
      if negb (validOptionalPort colonPort) then Bad (invalid_port colonPort)
      else
        match split_at "%25" inside with
        | Some (addr, zone) =>
          match unescape addr encodeHost, unescape zone encodeZone, unescape ("]" +:+ colonPort) encodeHost with
          | Good a, Good z, Good p => Good (a +:+ z +:+ p)
          | Bad e, _, _ | _, Bad e, _ | _, _, Bad e => Bad e
          end
        | None => unescape host encodeHost
        end
    end
  else
    match cut_last colon host with
    | Some (_, port) => if validOptionalPort (String colon port) then unescape host encodeHost else Bad (invalid_port (String colon port))
    | None => unescape host encodeHost
    end.

Definition validUserinfo (s : string) : bool :=
  all_chars (fun c => is_alnum c || bool_decide (c ∈ ["-"; "."; "_"; ":"; "~"; "!"; "$"; "&"; "'"; "("; ")"; "*"; "+"; ","; ";"; "="; "%"; "@"]%char)) s.

Definition parseAuthority (authority : string) : res string (option Userinfo * string) :=
  match cut_last "@"%char authority with
  | None => res_map (pair None) (parseHost authority)
  | Some (userinfo, rest) =>
    match parseHost rest with
    | Bad e => Bad e
    | Good host =>
      if negb (validUserinfo userinfo) then Bad "net/url: invalid userinfo"
      else
        match cut_at colon userinfo with
        | None => res_map (fun u => (Some (mkUserinfo u None), host)) (unescape userinfo encodeUserPassword)
        | Some (u, p) =>
          match unescape u encodeUserPassword, unescape p encodeUserPassword with
          | Good u, Good p => Good (Some (mkUserinfo u (Some p)), host)
          | Bad e, _ | _, Bad e => Bad e
          end
        end
    end
  end.

Definition is_ctl (c : ascii) : bool := (byte_val c <? 32) || (byte_val c =? 127).
Definition slash_char : ascii := "/"%char.

(** The path of what is left after the authority. *)
Definition set_path (u : URL) (p : string) : res string URL :=
  match unescape p encodePath with
  | Bad e => Bad e
  | Good path =>
    let raw := if decide (p = escape path encodePath) then "" else p in
    Good (mkURL (Scheme u) (Opaque u) (User u) (Host u) path raw (OmitHost u) (ForceQuery u) (RawQuery u) (Fragment u) (RawFragment u))
  end.

Definition first_segment (s : string) : string := match cut_at slash_char s with Some (seg, _) => seg | None => s end.

(** [parse(rawURL, false)]. *)
Definition parse_rest (scheme rest : string) (force : bool) (query : string) : res string URL :=
  let u := mkURL scheme "" None "" "" "" false force query "" "" in
  if negb (HasPrefix rest "/") && negb (bool_decide (scheme = "")) then
    Good (mkURL scheme rest None "" "" "" false force query "" "")
  else if negb (HasPrefix rest "/") && has_byte colon (first_segment rest) then
    Bad "first path segment in URL cannot contain colon"
  else if (negb (bool_decide (scheme = "")) || negb (HasPrefix rest "///")) && HasPrefix rest "//" then
    let '(authority, path) :=
      match split_at "/" (sdrop 2 rest) with Some p => p | None => (sdrop 2 rest, "") end in
    match parseAuthority authority with
    | Bad e => Bad e
    | Good (user, host) => set_path (mkURL scheme "" user host "" "" false force query "" "") path
    end
  else
    set_path (mkURL scheme "" None "" "" "" (negb (bool_decide (scheme = "")) && HasPrefix rest "/") force query "" "") rest.

Definition parse_url (rawURL : string) : res string URL :=
  if negb (all_chars (fun c => negb (is_ctl c)) rawURL) then Bad "net/url: invalid control character in URL"
  else if decide (rawURL = "*") then Good (mkURL "" "" None "" "*" "" false false "" "" "")
  else
    match getScheme rawURL with
    | Bad e => Bad e
    | Good (scheme, rest) =>
      let scheme := ToLower scheme in
      if HasSuffix rest "?" && (count_byte "?"%char rest =? 1) then parse_rest scheme (TrimSuffix rest "?") true ""
      else
        match cut_at "?"%char rest with
        | Some (path, query) => parse_rest scheme path false query
        | None => parse_rest scheme rest false ""
        end
    end.

Definition url_error (u err : string) : string := "parse " +:+ Quote is_print u +:+ ": " +:+ err.

Definition Parse (rawURL : string) : res string URL :=
  let '(u, frag) := match cut_at "#"%char rawURL with Some p => p | None => (rawURL, "") end in
  match parse_url u with
  | Bad e => Bad (url_error u e)
  | Good url =>
    if decide (frag = "") then Good url
    else
      match unescape frag encodeFragment with
      | Bad e => Bad (url_error rawURL e)
      | Good f =>
        let raw := if decide (frag = escape f encodeFragment) then "" else frag in
        Good (mkURL (Scheme url) (Opaque url) (User url) (Host url) (Path url) (RawPath url) (OmitHost url) (ForceQuery url)
                (RawQuery url) f raw)
      end
  end.

(** [validEncoded]: an encoded path or fragment that need not be encoded anew. *)
Definition validEncoded (s : string) (mode : encoding) : bool :=
  all_chars (fun c =>
    bool_decide (c ∈ ["!"; "$"; "&"; "'"; "("; ")"; "*"; "+"; ","; ";"; "="; ":"; "@"; "["; "]"; "%"]%char)
    || negb (shouldEscape c mode)) s.
Definition escaped (raw text : string) (mode : encoding) : string :=
  if negb (bool_decide (raw = "")) && validEncoded raw mode
     && (match unescape raw mode with Good t => bool_decide (t = text) | Bad _ => false end) then raw
  else if bool_decide (text = "*") && bool_decide (mode = encodePath) then "*"
  else escape text mode.

Definition Userinfo_String (ui : Userinfo) : string :=
  escape (username ui) encodeUserPassword
  +:+ match password ui with Some p => ":" +:+ escape p encodeUserPassword | None => "" end.

Definition URL_String (u : URL) : string :=
  let scheme := if decide (Scheme u = "") then "" else Scheme u +:+ ":" in
  let body :=
    if decide (Opaque u <> "") then scheme +:+ Opaque u
    else
      let hosted := negb (bool_decide (Scheme u = "")) || negb (bool_decide (Host u = "")) || bool_decide (is_Some (User u)) in
      let omit := OmitHost u && bool_decide (Host u = "") && negb (bool_decide (is_Some (User u))) in
      let authority :=
        if hosted && negb omit then
          (if negb (bool_decide (Host u = "")) || negb (bool_decide (Path u = "")) || bool_decide (is_Some (User u)) then "//" else "")
          +:+ match User u with Some ui => Userinfo_String ui +:+ "@" | None => "" end
          +:+ escape (Host u) encodeHost
        else "" in
      let path := escaped (RawPath u) (Path u) encodePath in
      let sep := if negb (bool_decide (path = "")) && negb (HasPrefix path "/") && negb (bool_decide (Host u = "")) then "/" else "" in
      let start := scheme +:+ authority +:+ sep in
      let dot := if bool_decide (start = "") && has_byte colon (first_segment path) then "./" else "" in
      start +:+ dot +:+ path in
  body +:+ (if ForceQuery u || negb (bool_decide (RawQuery u = "")) then "?" +:+ RawQuery u else "")
  +:+ (if decide (Fragment u = "") then "" else "#" +:+ escaped (RawFragment u) (Fragment u) encodeFragment).

(** ** Query values *)

(** [u.Query()]: pairs with a bad escape or a semicolon are dropped. *)
Definition query_pair (p : string) : option (string * string) :=
  if decide (p = "") then None
  else if has_byte ";"%char p then None
  else
    let '(k, v) := match cut_at "="%char p with Some kv => kv | None => (p, "") end in
    match unescape k encodeQueryComponent, unescape v encodeQueryComponent with
    | Good k, Good v => Some (k, v)
    | _, _ => None
    end.
Definition Values : Type := gmap string (list string).
Fixpoint pieces (fuel : nat) (s : string) : list string :=
  match fuel with
  | O => []
  | S fuel' => match cut_at "&"%char s with Some (p, rest) => p :: pieces fuel' rest | None => [s] end
  end.
Definition ParseQuery (q : string) : Values :=
  foldl (fun m '(k, v) => <[k := default [] (m !! k) ++ [v]]> m) ∅ (omap query_pair (pieces (S (String.length q)) q)).
Definition Values_Set (k v : string) (m : Values) : Values := <[k := [v]]> m.
Definition Encode (m : Values) : string :=
  Join (flat_map (fun k => map (fun v => escape k encodeQueryComponent +:+ "=" +:+ escape v encodeQueryComponent) (default [] (m !! k)))
          (sort_Strings (map_to_list m).*1)) "&".
End url.

(** ** [os.Expand] *)
Definition isShellSpecialVar (c : ascii) : bool := bool_decide (c ∈ ["*"; "#"; "$"; "@"; "!"; "?"; "-"]%char) || is_digit c.
Definition isAlphaNum (c : ascii) : bool := bool_decide (c = "_"%char) || is_alnum c.
Fixpoint span_alnum (s : string) : string :=
  match s with "" => "" | String c s' => if isAlphaNum c then String c (span_alnum s') else "" end.

(** The name after a dollar and how many bytes it takes. *)
Definition getShellName (s : string) : string * nat :=
  match s with
  | "" => ("", O)
  | String c s' =>
    if bool_decide (c = "{"%char) then
      match s' with
      | String a (String b _) =>
        if isShellSpecialVar a && bool_decide (b = "}"%char) then (String a "", 3%nat)
        else match cut_at "}"%char s' with
             | Some ("", _) => ("", 2%nat)
             | Some (name, _) => (name, S (S (String.length name)))
             | None => ("", 1%nat)
             end
      | _ => match cut_at "}"%char s' with
             | Some ("", _) => ("", 2%nat)
             | Some (name, _) => (name, S (S (String.length name)))
             | None => ("", 1%nat)
             end
      end
    else if isShellSpecialVar c then (String c "", 1%nat)
    else let name := span_alnum s in (name, String.length name)
  end.

Section expand.
Context {W : Type}.
(** The mapping may look at the world, and change it. *)
Variable mapping : string -> W -> string * W.

Fixpoint expand_from (skip : nat) (s : string) (w : W) : string * W :=
  match s with
  | "" => ("", w)
  | String c s' =>
    match skip with
    | S skip' => expand_from skip' s' w
    | O =>
      if bool_decide (c = "$"%char) && negb (bool_decide (s' = "")) then
        let '(name, n) := getShellName s' in
        if decide (name = "") then
          let '(t, w) := expand_from n s' w in
          (if (0 <? n)%nat then t else String c t, w)
        else
          let '(v, w) := mapping name w in
          let '(t, w) := expand_from n s' w in (v +:+ t, w)
      else let '(t, w) := expand_from O s' w in (String c t, w)
    end
  end.
Definition Expand (s : string) (w : W) : string * W := expand_from O s w.
End expand.

Example Parse_ex :
  let p s := res_map (URL_String (fun _ => true)) (Parse (fun _ => true) s) in
  p "HTTP://a.b:80/x%20y?q=1#f" = Good "http://a.b:80/x%20y?q=1#f" /\ p "http://[::1]:80" = Good "http://[::1]:80"
  /\ p "a:b@c/d" = Good "a:b@c/d" /\ p "//u:p@h?" = Good "//u:p@h?"
  /\ Parse (fun _ => true) "http://h:8x/" = Bad ("parse " +:+ dquote +:+ "http://h:8x/" +:+ dquote +:+ ": invalid port " +:+ dquote +:+ ":8x" +:+ dquote +:+ " after host").
Proof. split_and!; vm_compute; reflexivity. Qed.
Example Encode_ex : Encode (Values_Set "integration_key" "a&b c" (ParseQuery (fun _ => true) "z=1&y=%41&bad=%4")) = "integration_key=a%26b+c&y=A&z=1".
Proof. vm_compute; reflexivity. Qed.
Example Expand_ex :
  let env := fun (n : string) (w : list string) => ((if decide (n = "IP") then "10.0.0.1" else ""), n :: w) in
  Expand env "ip=${IP} $IP-${} $ ${x" [] = ("ip=10.0.0.1 10.0.0.1- $ x", ["IP"; "IP"]).
Proof. vm_compute; reflexivity. Qed.

(** ** Lemmas on plain texts *)

(** Letters, digits, dots and dashes: what a host name is made of. *)
Definition plain (c : ascii) : bool := is_alnum c || bool_decide (c ∈ ["."; "-"]%char).

Lemma plain_ascii c : plain c = true -> 32 < byte_val c < 127.
Proof. destruct c as [[] [] [] [] [] [] [] []]; (intros H; vm_compute in H; try discriminate H; vm_compute; split; reflexivity). Qed.

Lemma digit_plain c : is_digit c = true -> plain c = true.
Proof. intros H. unfold plain, is_alnum. unfold is_digit in H. by rewrite H. Qed.

Lemma unescape_plain is_print s mode : all_chars plain s = true -> unescape is_print s mode = Good s.
Proof.
  induction s as [|c s IH]; [done|]. cbn [all_chars]. intros [Hc Hs]%andb_true_iff. cbn [unescape].
  assert (bool_decide (c = "%"%char) = false /\ bool_decide (c = "+"%char) = false /\ shouldEscape c encodeHost = false /\ shouldEscape c encodeZone = false)
    as (-> & -> & H1 & H2) by (destruct c as [[] [] [] [] [] [] [] []]; vm_compute in Hc |- *; done).
  rewrite IH by done. destruct mode; cbn [andb]; rewrite ?H1, ?H2, ?andb_false_r; done.
Qed.
Lemma escape_plain s mode : all_chars plain s = true -> escape s mode = s.
Proof.
  induction s as [|c s IH]; [done|]. cbn [all_chars]. intros [Hc Hs]%andb_true_iff. cbn [escape].
  assert (bool_decide (c = " "%char) = false /\ shouldEscape c mode = false) as [-> ->]
    by (destruct mode, c as [[] [] [] [] [] [] [] []]; vm_compute in Hc |- *; done).
  by rewrite IH.
Qed.

Lemma TrimSpace_no_space s : all_chars (fun c => (byte_val c <? 128) && negb (IsSpace (byte_val c))) s = true -> TrimSpace s = s.
Proof.
  intros Hs. assert (Forall (fun rb => IsSpace rb.1 = false) (segments s)) as Hf.
  { induction s as [|c s IH]; [constructor|]. cbn [all_chars] in Hs. zbool. rewrite segments_ascii by lia. constructor; [done|by apply IH]. }
  assert (forall l, Forall (fun rb : Z * string => IsSpace rb.1 = false) l -> drop_spaces l = l) as Hd.
  { intros l Hl. destruct Hl as [|rb l' H _]; [reflexivity|]. destruct rb as [r b]. cbn in *. by rewrite H. }
  unfold TrimSpace. rewrite (Hd (segments s) Hf), Hd by (by apply Forall_reverse). by rewrite reverse_involutive, concat_segments.
Qed.

Lemma TrimSpace_space v : TrimSpace (String " " v) = TrimSpace v.
Proof. unfold TrimSpace. by rewrite segments_ascii. Qed.

Lemma word_trimmed w : word w -> TrimSpace w = w.
Proof. intros [_ Hw]. by apply TrimSpace_no_space. Qed.

Lemma word_head w : word w -> exists c s, w = String c s /\ visible c = true.
Proof. intros [Hne Hw]. destruct w as [|c s]; [done|]. cbn in Hw. apply andb_true_iff in Hw as [Hc _]. eauto. Qed.

Lemma visible_last w : word w -> exists s d, w = s +:+ String d "" /\ visible d = true.
Proof.
  intros [Hne Hw]. induction w as [|c w IH]; [done|]. cbn [all_chars] in Hw. apply andb_true_iff in Hw as [Hc Hw].
  destruct (decide (w = "")) as [->|Hn]; [by exists "", c|]. destruct (IH Hn Hw) as (s & d & -> & Hd). by exists (String c s), d.
Qed.

Lemma trimmed_between w m d : word w -> visible d = true -> TrimSpace (w +:+ m +:+ String d "") = w +:+ m +:+ String d "".
Proof.
  intros Hw Hd. destruct (word_head w Hw) as (c & s & -> & Hc).
  assert (String c s +:+ m +:+ String d "" = String c (s +:+ m) +:+ String d "") as -> by (rewrite !sapp_cons, string_app_assoc; done).
  by apply TrimSpace_ends.
Qed.

Lemma split_at_slash_none s : has_byte slash_char s = false -> split_at "/" s = None.
Proof.
  induction s as [|c s IH]; [done|]. cbn [has_byte split_at]. intros [Hc Hs]%orb_false_iff. apply bool_decide_eq_false in Hc.
  cbn [String.prefix]. destruct (ascii_dec "/" c) as [<-|]; [done|]. by rewrite IH.
Qed.
Lemma split_at_slash_app s t : has_byte slash_char s = false -> split_at "/" (s +:+ String slash_char t) = Some (s, String slash_char t).
Proof.
  induction s as [|c s IH]; [by destruct t|]. cbn [has_byte]. intros [Hc Hs]%orb_false_iff. apply bool_decide_eq_false in Hc.
  rewrite sapp_cons. cbn [split_at String.prefix]. destruct (ascii_dec "/" c) as [<-|]; [done|]. by rewrite IH.
Qed.
Lemma Contains_byte c sub s : has_byte c s = false -> has_byte c sub = true -> Contains s sub = false.
Proof.
  intros Hs Hsub. assert (forall t, has_byte c t = false -> String.prefix sub t = false) as Hp.
  { intros t Ht. apply not_true_is_false. intros [r ->]%(proj1 (HasPrefix_spec t sub)). rewrite has_byte_app in Ht. by rewrite Hsub in Ht. }
  induction s as [|a s IH]; cbn [Contains]; [by rewrite Hp|]. rewrite Hp by done.
  cbn [has_byte] in Hs. apply orb_false_iff in Hs as [_ Hs]. cbn. by apply IH.
Qed.
Lemma TrimRight1_last c s a : a <> c -> TrimRight1 c (s +:+ String a "") = s +:+ String a "".
Proof.
  intros Ha. induction s as [|b s IH]; [change (TrimRight1 c (String a "") = String a ""); cbn [TrimRight1]; by destruct (decide (a = c))|]. rewrite sapp_cons. cbn [TrimRight1]. rewrite IH.
  by destruct s.
Qed.
Lemma TrimRight1_app c s : TrimRight1 c (s +:+ String c "") = TrimRight1 c s.
Proof.
  induction s as [|b s IH]; [change (TrimRight1 c (String c "") = ""); cbn [TrimRight1]; by destruct (decide (c = c))|]. rewrite sapp_cons. cbn [TrimRight1]. by rewrite IH.
Qed.

Lemma Contains_mid s sub t : Contains (s +:+ sub +:+ t) sub = true.
Proof.
  assert (String.prefix sub (sub +:+ t) = true) as Hp by (apply (HasPrefix_spec (sub +:+ t) sub); eauto).
  induction s as [|c s IH].
  - change ("" +:+ sub +:+ t) with (sub +:+ t). destruct (sub +:+ t); cbn [Contains]; by rewrite Hp.
  - rewrite sapp_cons. cbn [Contains]. by rewrite IH, orb_true_r.
Qed.
Lemma count_byte_nonneg c s : 0 <= count_byte c s.
Proof. induction s as [|a s IH]; cbn; [done|]. case_decide; lia. Qed.
Lemma Contains_count c s sub : count_byte c s < count_byte c sub -> Contains s sub = false.
Proof.
  intros H. assert (forall t, count_byte c t < count_byte c sub -> String.prefix sub t = false) as Hp.
  { intros t Ht. apply not_true_is_false. intros [r ->]%(proj1 (HasPrefix_spec t sub)). rewrite count_byte_app in Ht.
    pose proof (count_byte_nonneg c r). lia. }
  induction s as [|a s IH]; cbn [Contains]; [by rewrite Hp|]. rewrite Hp by done. cbn [orb]. apply IH.
  cbn [count_byte] in H. case_decide; lia.
Qed.
