(* ===== verification/GoGlob.v ===== *)
(** * filepath.Match

    Shell patterns as the standard library matches them on Unix: [*] and [?] do
    not match a slash, a class is a list of ranges between brackets, a backslash
    takes the next character as it is.  A pattern is cut at its stars into
    chunks.  [None] is [ErrBadPattern]. *)
From S2P Require Import Prelude GoStr GoLib GoConv.
#[local] Open Scope Z_scope.

Definition star : ascii := "*"%char.
Definition caret : ascii := "^"%char.
Definition dash : ascii := "-"%char.
Definition question : ascii := "?"%char.
Definition backslash : ascii := byte 92.
Definition lbrack : ascii := "["%char.
Definition rbrack : ascii := "]"%char.

(** The bytes up to the next star outside of brackets, and the rest. *)
Fixpoint scan (inrange : bool) (p : string) : string * string :=
  match p with
  | "" => ("", "")
  | String c p' =>
    if decide (c = backslash) then
      match p' with
      | "" => (p, "")
      | String d p'' => let '(chunk, rest) := scan inrange p'' in (String c (String d chunk), rest)
      end
    else if decide (c = star /\ inrange = false) then ("", p)
    else
      let inrange := if decide (c = lbrack) then true else if decide (c = rbrack) then false else inrange in
      let '(chunk, rest) := scan inrange p' in (String c chunk, rest)
  end.

Fixpoint drop_stars (p : string) : bool * string :=
  match p with
  | String c p' => if decide (c = star) then (true, (drop_stars p').2) else (false, p)
  | "" => (false, "")
  end.

Definition scanChunk (p : string) : bool * string * string :=
  let '(s, p) := drop_stars p in let '(chunk, rest) := scan false p in (s, chunk, rest).

(** All the chunks, each with the star before it: every round takes a byte. *)
Fixpoint chunks_of (fuel : nat) (p : string) : list (bool * string) :=
  match fuel, p with
  | S fuel', String _ _ => let '(s, chunk, rest) := scanChunk p in (s, chunk) :: chunks_of fuel' rest
  | _, _ => []
  end.
Definition chunks (p : string) : list (bool * string) := chunks_of (String.length p) p.

(** A character of a class, and the rest of the chunk, which is not empty. *)
Definition getEsc (chunk : string) : option (Z * string) :=
  match chunk with
  | "" => None
  | String c chunk' =>
    if decide (c = dash \/ c = rbrack) then None
    else
      let chunk := if decide (c = backslash) then chunk' else chunk in
      if decide (chunk = "") then None
      else
        let '(r, n) := DecodeRune chunk in
        if (r =? RuneError) && (Z.of_nat n =? 1) then None
        else if decide (sdrop n chunk = "") then None
        else Some (r, sdrop n chunk)
  end.

(** The ranges of a class, up to its bracket. *)
Fixpoint class_ranges (fuel : nat) (chunk : string) : option (list (Z * Z) * string) :=
  match fuel with
  | O => None
  | S fuel' =>
    match getEsc chunk with
    | None => None
    | Some (lo, chunk) =>
      match (match chunk with
             | String c chunk' => if decide (c = dash) then getEsc chunk' else Some (lo, chunk)
             | "" => Some (lo, chunk)
             end) with
      | None => None
      | Some (hi, chunk) =>
        match chunk with
        | String c chunk' =>
          if decide (c = rbrack) then Some ([(lo, hi)], chunk')
          else option_map (fun '(l, rest) => ((lo, hi) :: l, rest)) (class_ranges fuel' chunk)
        | "" => None
        end
      end
    end
  end.

(** A class: whether it is negated, its ranges, the rest. *)
Definition getClass (chunk : string) : option (bool * list (Z * Z) * string) :=
  let '(negated, chunk) :=
    match chunk with
    | String c chunk' => if decide (c = caret) then (true, chunk') else (false, chunk)
    | "" => (false, chunk)
    end in
  option_map (fun '(l, rest) => (negated, l, rest)) (class_ranges (String.length chunk) chunk).

Definition in_class (negated : bool) (l : list (Z * Z)) (r : Z) : bool :=
  xorb negated (existsb (fun '(lo, hi) => (lo <=? r) && (r <=? hi)) l).

(** A chunk at the start of the text [s] ([None]: the match has failed, but the
    chunk is still read to its end). *)
Fixpoint matchChunk (fuel : nat) (chunk : string) (s : option string) : option (option string) :=
  match fuel, chunk with
  | _, "" => Some s
  | O, _ => Some s
  | S fuel', String c chunk' =>
    let s := match s with Some "" => None | _ => s end in
    if decide (c = lbrack) then
      match getClass chunk' with
      | None => None
      | Some (negated, l, rest) =>
        matchChunk fuel' rest
          (match s with
           | Some t => let '(r, n) := DecodeRune t in if in_class negated l r then Some (sdrop n t) else None
           | None => None
           end)
      end
    else if decide (c = question) then
      matchChunk fuel' chunk'
        (match s with
         | Some t => if HasPrefix t "/" then None else Some (sdrop (DecodeRune t).2 t)
         | None => None
         end)
    else
      match (if decide (c = backslash) then match chunk' with "" => None | String d rest => Some (d, rest) end
             else Some (c, chunk')) with
      | None => None
      | Some (d, rest) =>
        matchChunk fuel' rest
          (match s with Some (String a t) => if decide (a = d) then Some t else None | _ => None end)
      end
  end.
Definition chunk_match (chunk name : string) : option (option string) :=
  matchChunk (String.length chunk) chunk (Some name).

(** After a star: the rest of the name after the chunk, skipping a byte at a
    time, none of them a slash. *)
Fixpoint skip_match (chunk : string) (last : bool) (name : string) : option (option string) :=
  match name with
  | "" => Some None
  | String c name' =>
    if decide (c = slash) then Some None
    else
      match chunk_match chunk name' with
      | None => None
      | Some (Some t) => if last && negb (bool_decide (t = "")) then skip_match chunk last name' else Some (Some t)
      | Some None => skip_match chunk last name'
      end
  end.

Definition chunk_ok (chunk : string) : bool := bool_decide (is_Some (chunk_match chunk "")).

Fixpoint match_chunks (l : list (bool * string)) (name : string) : option bool :=
  match l with
  | [] => Some (bool_decide (name = ""))
  | (s, chunk) :: l' =>
    if s && bool_decide (chunk = "") then Some (negb (Contains name "/"))
    else
      let last := bool_decide (l' = []) in
      let fails := if forallb (fun '(_, chunk) => chunk_ok chunk) l' then Some false else None in
      match chunk_match chunk name with
      | None => None
      | Some first =>
        match (match first with Some t => if last && negb (bool_decide (t = "")) then None else Some t | None => None end) with
        | Some t => match_chunks l' t
        | None =>
          if s then
            match skip_match chunk last name with
            | None => None
            | Some (Some t) => match_chunks l' t
            | Some None => fails
            end
          else fails
        end
      end
  end.

Definition Match (pattern name : string) : option bool := match_chunks (chunks pattern) name.

Example Match_ex :
  map (fun '(p, s) => Match p s)
    [("eth*", "eth0"); ("eth*", "lo"); ("*", "a/b"); ("a*b*c", "axxbyyc"); ("a*b*c", "axxbyy"); ("[a-c]?", "bz");
     ("[^a-c]?", "bz"); ("[a", "b"); ("a[", "b"); ("\*", "*"); ("*x", "axbx"); ("a*/b", "axx/b"); ("[]a]", "]"); ("br-*", "br-12"); ("x\", "test")]
  = [Some true; Some false; Some false; Some true; Some false; Some true; Some false; None; None; Some true; Some true; Some true; None; Some true; None].
Proof. vm_compute. reflexivity. Qed.

(** ** Whether a pattern is malformed does not depend on the name *)

Lemma matchChunk_ok fuel chunk s t : is_Some (matchChunk fuel chunk s) <-> is_Some (matchChunk fuel chunk t).
Proof.
  revert chunk s t. induction fuel as [|fuel IH]; intros [|c chunk] s t; try (by split; eauto). cbn -[getClass DecodeRune].
  case_decide; [|case_decide].
  - destruct (getClass chunk) as [[[negated l] rest]|]; [apply IH|done].
  - apply IH.
  - case_decide; [destruct chunk as [|d rest]; [done|]|]; apply IH.
Qed.

Lemma chunk_match_ok chunk name : is_Some (chunk_match chunk name) <-> chunk_ok chunk = true.
Proof. unfold chunk_ok. rewrite bool_decide_eq_true. apply matchChunk_ok. Qed.

Lemma skip_match_ok chunk last name : chunk_ok chunk = true -> is_Some (skip_match chunk last name).
Proof.
  intros Hc. induction name as [|c name IH]; cbn; [eauto|]. case_decide; [eauto|].
  destruct (proj2 (chunk_match_ok chunk name) Hc) as [[t|] ->]; [|done]. destruct (last && _); [done|eauto].
Qed.

Definition well_formed (pattern : string) : bool := forallb (fun '(_, chunk) => chunk_ok chunk) (chunks pattern).

(** A star ends a list of chunks when nothing follows it. *)
Definition star_last (l : list (bool * string)) : Prop := forall s chunk l1 l2, l = l1 ++ (s, chunk) :: l2 -> chunk = "" -> l2 = [].

Lemma match_chunks_ok l name : star_last l ->
  is_Some (match_chunks l name) <-> forallb (fun '(_, chunk) => chunk_ok chunk) l = true.
Proof.
  revert name. induction l as [|[s chunk] l IH]; intros name Hs; [by split; eauto|]. cbn [match_chunks forallb].
  assert (star_last l) as Hs' by (intros s' c' l1 l2 ->; apply (Hs s' c' ((s, chunk) :: l1) l2 eq_refl)).
  destruct (s && bool_decide (chunk = "")) eqn:Ee.
  { apply andb_true_iff in Ee as [_ Ec]. apply bool_decide_eq_true in Ec as ->. rewrite (Hs s "" [] l eq_refl eq_refl). split; eauto. }
  rewrite andb_true_iff, <- (chunk_match_ok chunk name).
  destruct (chunk_match chunk name) as [first|] eqn:Ef; [|split; [by intros [? ?]|by intros [[? ?] ?]]].
  assert (chunk_ok chunk = true) as Hc by (apply (chunk_match_ok chunk name); rewrite Ef; eauto).
  set (fails := if forallb _ l then Some false else None).
  assert (is_Some fails <-> is_Some (Some first) /\ forallb (fun '(_, chunk) => chunk_ok chunk) l = true) as Hfails.
  { unfold fails. destruct (forallb _ l); split; try (by intros [? ?]); try done; eauto. }
  assert (forall t, is_Some (match_chunks l t) <-> is_Some (Some first) /\ forallb (fun '(_, chunk) => chunk_ok chunk) l = true) as Hrec.
  { intros t. rewrite IH by done. split; [eauto|tauto]. }
  destruct (match first with Some t => _ | None => None end) as [t|]; [apply Hrec|].
  destruct s; [|done]. destruct (skip_match_ok chunk (bool_decide (l = [])) name Hc) as [[t|] ->]; [apply Hrec|done].
Qed.

Lemma scan_empty inrange p chunk rest : scan inrange p = (chunk, rest) -> chunk = "" ->
  rest = p /\ (p = "" \/ exists p', p = String star p').
Proof.
  destruct p as [|c p]; cbn; [by intros [= <- <-]; auto|]. intros H ->. revert H.
  case_decide; [destruct p as [|d p]; [done|]; by destruct (scan inrange p)|].
  case_decide as Hs; [|by destruct (scan _ p)]. destruct Hs as [-> _]. intros [= <-]. eauto.
Qed.

Lemma drop_stars_head p s q : drop_stars p = (s, q) -> forall q', q <> String star q'.
Proof.
  revert s q. induction p as [|c p IH]; intros s q; cbn; [by intros [= <- <-]|]. case_decide as Hc.
  - destruct (drop_stars p) as [s' r] eqn:E. cbn. intros [= <- <-]. by eapply IH.
  - intros [= <- <-] q' [=]. done.
Qed.

(** ** More fuel changes nothing *)

Lemma getEsc_shorter chunk r rest : getEsc chunk = Some (r, rest) -> (String.length rest < String.length chunk)%nat.
Proof.
  destruct chunk as [|c chunk]; [done|]. cbn [getEsc]. case_decide; [done|].
  set (u := if decide (c = backslash) then chunk else String c chunk). cbv zeta. fold u.
  assert (String.length u <= String.length (String c chunk))%nat as Hu by (unfold u; case_decide; cbn; lia). clearbody u.
  case_decide as Hne; [done|]. pose proof (DecodeRune_size u Hne) as Hd. destruct (DecodeRune u) as [r' n].
  destruct (_ && _); [done|]. case_decide; [done|]. intros [= <- <-]. rewrite length_sdrop. cbn in Hd. lia.
Qed.

Lemma class_ranges_fuel n m chunk : (String.length chunk <= n)%nat -> (String.length chunk <= m)%nat ->
  class_ranges n chunk = class_ranges m chunk.
Proof.
  revert m chunk. induction n as [|n IH]; intros [|m] chunk Hn Hm; try done.
  1,2: assert (chunk = "") as -> by (destruct chunk; [done|cbn in *; lia]); done.
  cbn [class_ranges]. destruct (getEsc chunk) as [[lo u]|] eqn:E1; [|done]. apply getEsc_shorter in E1.
  destruct (match u with String c u' => _ | "" => _ end) as [[hi v]|] eqn:E2; [|done].
  assert (String.length v <= String.length u)%nat as Hv.
  { destruct u as [|c u']; [by injection E2 as _ <-|]. case_decide; [|by injection E2 as _ <-]. apply getEsc_shorter in E2. cbn. lia. }
  destruct v as [|d v]; [done|]. case_decide; [done|]. f_equal. apply IH; lia.
Qed.

Lemma class_ranges_shorter n chunk l rest : class_ranges n chunk = Some (l, rest) -> (String.length rest < String.length chunk)%nat.
Proof.
  revert chunk l rest. induction n as [|n IH]; intros chunk l rest; [done|]. cbn [class_ranges].
  destruct (getEsc chunk) as [[lo u]|] eqn:E1; [|done]. apply getEsc_shorter in E1.
  destruct (match u with String c u' => _ | "" => _ end) as [[hi v]|] eqn:E2; [|done].
  assert (String.length v <= String.length u)%nat as Hv.
  { destruct u as [|c u']; [by injection E2 as _ <-|]. case_decide; [|by injection E2 as _ <-]. apply getEsc_shorter in E2. cbn. lia. }
  destruct v as [|d v]; [done|]. case_decide; [intros [= _ <-]; cbn in *; lia|].
  destruct (class_ranges n (String d v)) as [[l' rest']|] eqn:E3; [|done]. intros [= _ <-]. apply IH in E3. lia.
Qed.

Lemma getClass_shorter chunk b l rest : getClass chunk = Some (b, l, rest) -> (String.length rest < String.length chunk)%nat.
Proof.
  unfold getClass. destruct (match chunk with String c u => _ | "" => _ end) as [neg u] eqn:E.
  assert (String.length u <= String.length chunk)%nat as Hu.
  { destruct chunk; [by injection E as _ <-|]. case_decide; injection E as _ <-; cbn; lia. }
  destruct (class_ranges _ u) as [[l' rest']|] eqn:E2; [|done]. intros [= _ _ <-]. apply class_ranges_shorter in E2. lia.
Qed.

Lemma matchChunk_fuel n m chunk s : (String.length chunk <= n)%nat -> (String.length chunk <= m)%nat ->
  matchChunk n chunk s = matchChunk m chunk s.
Proof.
  revert m chunk s. induction n as [|n IH]; intros [|m] [|c chunk] s Hn Hm; try done; cbn [String.length] in *; try lia.
  cbn -[getClass DecodeRune]. case_decide; [|case_decide].
  - destruct (getClass chunk) as [[[negated l] rest]|] eqn:E; [|done]. apply getClass_shorter in E. apply IH; lia.
  - apply IH; lia.
  - case_decide; [destruct chunk as [|d rest]; [done|]|]; apply IH; cbn in *; lia.
Qed.

Lemma scan_shorter b p : (String.length (scan b p).2 <= String.length p)%nat.
Proof.
  revert b. induction p as [p IH] using (induction_ltof1 _ String.length). intros b. unfold ltof in IH.
  destruct p as [|c p]; [done|]. cbn [scan]. case_decide; [|case_decide; [done|]].
  - destruct p as [|d p]; [cbn; lia|]. specialize (IH p ltac:(cbn; lia) b). destruct (scan b p). cbn in *. lia.
  - specialize (IH p ltac:(cbn; lia) (if decide (c = lbrack) then true else if decide (c = rbrack) then false else b)).
    destruct (scan _ p). cbn in *. lia.
Qed.

Lemma drop_stars_shorter p : (String.length (drop_stars p).2 <= String.length p)%nat /\
  ((drop_stars p).2 = p \/ (String.length (drop_stars p).2 < String.length p)%nat).
Proof. induction p as [|c p [IH _]]; [by split; [|left]|]. cbn [drop_stars]. case_decide; cbn; split; auto; right; lia. Qed.

Lemma scanChunk_shorter c p : (String.length (scanChunk (String c p)).2 < String.length (String c p))%nat.
Proof.
  unfold scanChunk. destruct (drop_stars (String c p)) as [s q] eqn:Ed. pose proof (drop_stars_shorter (String c p)) as [H1 H2].
  rewrite Ed in H1, H2. cbn [snd] in H1, H2. destruct (scan false q) as [chunk rest] eqn:Es. cbn [snd].
  pose proof (scan_shorter false q) as H3. rewrite Es in H3. cbn [snd] in H3.
  destruct (decide (chunk = "")) as [Hc|Hc].
  - destruct (scan_empty _ _ _ _ Es Hc) as [-> [->|[q' Hq]]]; [cbn; lia|]. by apply (drop_stars_head _ _ _ Ed) in Hq.
  - destruct H2 as [->|H2]; [|lia]. revert Es. cbn [scan]. case_decide; [|case_decide].
    + destruct p as [|d p]; [intros [= <- <-]; cbn; lia|]. pose proof (scan_shorter false p). destruct (scan false p). intros [= _ <-]. cbn in *. lia.
    + by intros [= <- _].
    + match goal with |- context [scan ?b p] => pose proof (scan_shorter b p); destruct (scan b p) end. intros [= _ <-]. cbn in *. lia.
Qed.

Lemma chunks_of_fuel n m p : (String.length p <= n)%nat -> (String.length p <= m)%nat -> chunks_of n p = chunks_of m p.
Proof.
  revert m p. induction n as [|n IH]; intros [|m] [|c p] Hn Hm; try done; cbn [String.length] in *; try lia.
  cbn [chunks_of]. pose proof (scanChunk_shorter c p) as H. destruct (scanChunk (String c p)) as [[s chunk] rest].
  cbn [snd String.length] in H. f_equal. apply IH; lia.
Qed.

Lemma chunks_of_star_last fuel p : star_last (chunks_of fuel p).
Proof.
  revert p. induction fuel as [|fuel IH]; intros p s chunk l1 l2; [by destruct l1|].
  destruct p as [|c p]; [by destruct l1|]. cbn [chunks_of]. unfold scanChunk.
  destruct (drop_stars (String c p)) as [s' q] eqn:Ed. destruct (scan false q) as [chunk' rest] eqn:Es.
  destruct l1 as [|x l1]; [|intros [= _ H]; by eapply IH]. intros [= <- <- <-] Hc.
  destruct (scan_empty _ _ _ _ Es Hc) as [-> [->|[q' Hq]]]; [by destruct fuel|]. by apply (drop_stars_head _ _ _ Ed) in Hq.
Qed.

(** A match reports a malformed pattern whatever the name is. *)
Lemma Match_well_formed pattern name : is_Some (Match pattern name) <-> well_formed pattern = true.
Proof. apply match_chunks_ok, chunks_of_star_last. Qed.

Lemma Match_ok_any pattern name name' : is_Some (Match pattern name) -> is_Some (Match pattern name').
Proof. by rewrite !Match_well_formed. Qed.
