(* ===== verification/Filter.v ===== *)
(** * String filters (digcore/pkg/filter/filter.go, digcore/pkg/choice/choice.go)

    A list of patterns is compiled into one filter that matches when any of
    them does.  [github.com/gobwas/glob] and the engine of [regexp] are
    parameters. *)
From S2P Require Import Prelude GoStr GoLib.
#[local] Open Scope Z_scope.

(** ** Package choice *)
Definition Contains (choice : string) (choices : list string) : bool := bool_decide (choice ∈ choices).
Fixpoint ContainsPrefix (choice : string) (choices : list string) : bool :=
  match choices with
  | [] => false
  | item :: choices' => if HasPrefix choice item then true else ContainsPrefix choice choices'
  end.
Definition Check_choice (choice : string) (available : list string) : option string :=
  if Contains choice available then None else Some ("unknown choice " +:+ choice).
Fixpoint CheckSlice (choices available : list string) : option string :=
  match choices with
  | [] => None
  | choice :: choices' =>
    match Check_choice choice available with
    | Some err => Some err
    | None => CheckSlice choices' available
    end
  end.

(** ** Filters *)

(** Matchers of the two libraries are functions. *)
Inductive Filter :=
| filtersingle (s : string)
| filterset (m : gset string)
| globFilter (g : string -> bool)
| regexFilter (patterns : list (string -> bool))
| CombinedFilter (filters : list Filter)
| IncludeExcludeFilter (include exclude : option Filter) (includeDefault excludeDefault : bool).

Fixpoint Match (f : Filter) (s : string) : bool :=
  match f with
  | filtersingle s' => bool_decide (s' = s)
  | filterset m => bool_decide (s ∈ m)
  | globFilter g => g s
  | regexFilter patterns => existsb (fun re => re s) patterns
  | CombinedFilter filters => existsb (fun sub => Match sub s) filters
  | IncludeExcludeFilter include exclude includeDefault excludeDefault =>
    match include with Some f => Match f s | None => includeDefault end
    && negb (match exclude with Some f => Match f s | None => excludeDefault end)
  end.

(** [strings.ContainsAny] with ASCII characters. *)
Fixpoint ContainsAny (s chars : string) : bool :=
  match s with
  | "" => false
  | String c s' => bool_decide (byte_val c ∈ runes chars) || ContainsAny s' chars
  end.
Definition HasMeta (s : string) : bool := ContainsAny s "*?[".

Definition isRegexPattern (s : string) : bool := (2 <=? slen s) && HasPrefix s "/" && HasSuffix s "/".
(** [p[1 : len(p)-1]]. *)
Definition regex_body (p : string) : string := stake (String.length p - 2) (sdrop 1 p).

Definition compileFilterNoGlob (filters : list string) : Filter :=
  match filters with
  | [f] => filtersingle f
  | _ => filterset (list_to_set filters)
  end.

Section compile.
Variable is_print : Z -> bool.
Variable glob_Compile : string -> res string (string -> bool).
Variable regexp_Compile : string -> res string (string -> bool).

Definition braces (filters : list string) : string := "{" +:+ Join filters "," +:+ "}".

Definition glob_filter (pattern : string) : res string Filter :=
  match glob_Compile pattern with Good g => Good (globFilter g) | Bad err => Bad err end.

Definition compileGlob (filters : list string) : res string Filter :=
  if negb (existsb HasMeta filters) then Good (compileFilterNoGlob filters)
  else
    match filters with
    | [f] => glob_filter f
    | _ => glob_filter (braces filters)
    end.

(** The loop of [Compile]: the glob patterns, and a filter per regex, in order. *)
Fixpoint split_patterns (filters : list string) : res string (list string * list Filter) :=
  match filters with
  | [] => Good ([], [])
  | p :: filters' =>
    if isRegexPattern p then
      match regexp_Compile (regex_body p) with
      | Bad err => Bad ("invalid regex " +:+ Quote is_print p +:+ ": " +:+ err)
      | Good re =>
        match split_patterns filters' with
        | Bad err => Bad err
        | Good (globs, regexes) => Good (globs, regexFilter [re] :: regexes)
        end
      end
    else
      match split_patterns filters' with
      | Bad err => Bad err
      | Good (globs, regexes) => Good (p :: globs, regexes)
      end
  end.

Definition combine (parts : list Filter) : option Filter :=
  match parts with
  | [] => None
  | [f] => Some f
  | _ => Some (CombinedFilter parts)
  end.

(** A nil filter for an empty list. *)
Definition Compile (filters : list string) : res string (option Filter) :=
  match filters with
  | [] => Good None
  | _ =>
    match split_patterns filters with
    | Bad err => Bad err
    | Good ([], regexes) => Good (combine regexes)
    | Good (globs, regexes) =>
      match compileGlob globs with
      | Bad err => Bad err
      | Good gf => Good (combine (gf :: regexes))
      end
    end
  end.

Definition NewIncludeExcludeFilterDefaults (include exclude : list string) (includeDefault excludeDefault : bool)
  : res string Filter :=
  match Compile include with
  | Bad err => Bad err
  | Good inc =>
    match Compile exclude with
    | Bad err => Bad err
    | Good ex => Good (IncludeExcludeFilter inc ex includeDefault excludeDefault)
    end
  end.

Definition NewIncludeExcludeFilter (include exclude : list string) : res string Filter :=
  NewIncludeExcludeFilterDefaults include exclude true false.

(** ** What a pattern means on its own *)

Definition compiled (c : res string (string -> bool)) (s : string) : bool :=
  match c with Good g => g s | Bad _ => false end.

Definition pattern_matches (p s : string) : bool :=
  if isRegexPattern p then compiled (regexp_Compile (regex_body p)) s
  else compiled (glob_Compile p) s.

(** A pattern that keeps its meaning inside [{...}]. *)
Definition brace_safe (p : string) : Prop := ContainsAny p "{},\" = false.

(** The documented syntax of the glob library: a pattern without special
    characters matches itself, and [{a,b}] matches what [a] or [b] match. *)
Definition glob_documented : Prop :=
  (forall p s, brace_safe p -> HasMeta p = false -> compiled (glob_Compile p) s = bool_decide (p = s)) /\
  (forall ps g s, ps <> [] -> Forall brace_safe ps -> glob_Compile (braces ps) = Good g ->
     g s = existsb (fun p => compiled (glob_Compile p) s) ps).

Lemma combine_match parts s :
  match combine parts with Some f => Match f s | None => false end = existsb (fun f => Match f s) parts.
Proof. destruct parts as [|f [|f' parts]]; [done|cbn; by rewrite orb_false_r|done]. Qed.

Lemma existsb_list_to_set (l : list string) s :
  bool_decide (s ∈ (list_to_set l : gset string)) = existsb (fun p => bool_decide (p = s)) l.
Proof.
  apply eq_bool_prop_intro. rewrite bool_decide_spec, elem_of_list_to_set. rewrite Is_true_true, existsb_exists.
  split.
  - intros Hs. exists s. split; [by apply list_elem_of_In|by apply bool_decide_eq_true].
  - intros (p & Hp%list_elem_of_In & ->%bool_decide_eq_true). done.
Qed.

Lemma compileFilterNoGlob_match filters s :
  Match (compileFilterNoGlob filters) s = existsb (fun p => bool_decide (p = s)) filters.
Proof.
  destruct filters as [|p [|q filters]]; [|cbn; by rewrite orb_false_r|]; cbn [compileFilterNoGlob Match];
    apply existsb_list_to_set.
Qed.

Lemma existsb_ext_Forall {A} (f g : A -> bool) l :
  Forall (fun x => f x = g x) l -> existsb f l = existsb g l.
Proof. induction 1 as [|x l Hx _ IH]; [done|]. cbn. by rewrite Hx, IH. Qed.

Lemma compileGlob_match globs f s :
  glob_documented -> Forall brace_safe globs -> compileGlob globs = Good f ->
  Match f s = existsb (fun p => compiled (glob_Compile p) s) globs.
Proof.
  intros [Hlit Hbr] Hsafe. unfold compileGlob. destruct (existsb HasMeta globs) eqn:Hm; cbn [negb].
  - assert (forall pat, glob_filter pat = Good f -> exists g, glob_Compile pat = Good g /\ f = globFilter g) as Hg.
    { intros pat. unfold glob_filter. destruct (glob_Compile pat) as [g|]; [|done]. intros [= <-]. by exists g. }
    destruct globs as [|p [|q globs]]; [done| |].
    + intros (g & Hc & ->)%Hg. cbn. by rewrite Hc, orb_false_r.
    + intros (g & Hc & ->)%Hg. by rewrite <-(Hbr _ g) by done.
  - intros [= <-]. rewrite compileFilterNoGlob_match. apply existsb_ext_Forall, Forall_forall.
    intros p Hp. rewrite Hlit; [done|by eapply Forall_forall|].
    destruct (HasMeta p) eqn:E; [|done]. exfalso.
    assert (existsb HasMeta globs = true) as Hx by (apply existsb_exists; exists p; by rewrite <-list_elem_of_In).
    congruence.
Qed.

Lemma split_patterns_match filters globs regexes s :
  split_patterns filters = Good (globs, regexes) ->
  existsb (fun p => pattern_matches p s) filters
  = existsb (fun p => compiled (glob_Compile p) s) globs || existsb (fun f => Match f s) regexes.
Proof.
  revert globs regexes. induction filters as [|p filters IH]; intros globs regexes; cbn [split_patterns existsb].
  { by intros [= <- <-]. }
  unfold pattern_matches at 1. destruct (isRegexPattern p).
  - destruct (regexp_Compile _) as [re|]; [|done]. destruct (split_patterns filters) as [[gs rs]|]; [|done].
    intros [= <- <-]. rewrite (IH gs rs eq_refl). cbn. rewrite orb_false_r.
    by destruct (re s), (existsb _ gs).
  - destruct (split_patterns filters) as [[gs rs]|]; [|done]. intros [= <- <-].
    rewrite (IH gs rs eq_refl). cbn. by rewrite orb_assoc.
Qed.

Lemma split_patterns_globs filters globs regexes :
  split_patterns filters = Good (globs, regexes) -> globs ⊆ filters.
Proof.
  revert globs regexes. induction filters as [|p filters IH]; intros globs regexes; cbn [split_patterns].
  { by intros [= <- <-]. }
  destruct (isRegexPattern p); [destruct (regexp_Compile _); [|done]|];
    (destruct (split_patterns filters) as [[gs rs]|]; [|done]); intros [= <- <-];
    specialize (IH gs rs eq_refl); set_solver.
Qed.

(** Only the empty list has no filter. *)
Lemma Compile_nil filters : Compile filters = Good None -> filters = [].
Proof.
  destruct filters as [|p filters]; [done|]. cbn [Compile split_patterns].
  assert (forall f parts, combine (f :: parts) <> None) as Hc by by intros f [].
  destruct (isRegexPattern p).
  - destruct (regexp_Compile _) as [re|]; [|done]. destruct (split_patterns filters) as [[[|g globs] regexes]|]; [| |done].
    + by intros [= ?%Hc].
    + destruct (compileGlob _); [|done]. by intros [= ?%Hc].
  - destruct (split_patterns filters) as [[globs regexes]|]; [|done]. destruct (compileGlob _); [|done]. by intros [= ?%Hc].
Qed.

(** ** Properties *)

(** A compiled list of patterns matches exactly what one of its patterns
    matches: literals, globs and regular expressions mix freely. *)
Theorem Compile_matches_any filters f s
    (Hglob : glob_documented) (Hsafe : Forall brace_safe filters)
    (Hf : Compile filters = Good (Some f)) :
  Match f s = existsb (fun p => pattern_matches p s) filters.
Proof.
  revert Hf. unfold Compile. destruct filters as [|p0 filters0]; [done|].
  set (filters := p0 :: filters0) in *.
  destruct (split_patterns filters) as [[globs regexes]|] eqn:Hs; [|done].
  rewrite (split_patterns_match _ _ _ s Hs).
  assert (Forall brace_safe globs) as Hg.
  { apply Forall_forall. intros p Hp. apply (split_patterns_globs _ _ _ Hs) in Hp. by eapply Forall_forall. }
  assert (forall parts, combine parts = Some f -> Match f s = existsb (fun f => Match f s) parts) as Hc.
  { intros parts E. rewrite <-combine_match. by rewrite E. }
  destruct globs as [|g globs].
  - intros [= Hf]. cbn. by apply Hc.
  - destruct (compileGlob (g :: globs)) as [gf|] eqn:E; [|done]. intros [= Hf].
    rewrite (Hc (gf :: regexes) Hf). cbn [existsb]. by rewrite (compileGlob_match _ _ s Hglob Hg E).
Qed.
End compile.

(** ** A small glob library: [*], and alternatives in braces *)

Fixpoint wildcard (p s : string) : bool :=
  match p with
  | "" => bool_decide (s = "")
  | String c p' =>
    if decide (c = "*"%char) then
      (fix any (s : string) : bool :=
         wildcard p' s || match s with "" => false | String _ s' => any s' end) s
    else match s with String d s' => bool_decide (c = d) && wildcard p' s' | "" => false end
  end.

Definition tiny_glob (p : string) : res string (string -> bool) :=
  Good (fun s =>
    if HasPrefix p "{" then existsb (fun alt => wildcard alt s) (split_on ","%char (stake (String.length p - 2) (sdrop 1 p)))
    else wildcard p s).

Lemma wildcard_literal p s : HasMeta p = false -> wildcard p s = bool_decide (p = s).
Proof.
  revert s. induction p as [|c p IH]; intros s; [cbn; intros _; apply bool_decide_ext; naive_solver|].
  unfold HasMeta. cbn [ContainsAny]. intros [Hc Hp]%orb_false_iff. cbn [wildcard].
  rewrite decide_False by (intros ->; vm_compute in Hc; done).
  destruct s as [|d s]; [done|]. rewrite IH by done. rewrite <-bool_decide_and.
  apply bool_decide_ext. naive_solver.
Qed.

Lemma brace_safe_chars c p : brace_safe (String c p) -> c <> "{"%char /\ c <> ","%char /\ brace_safe p.
Proof.
  unfold brace_safe. cbn [ContainsAny]. intros [Hc Hp]%orb_false_iff.
  split_and!; [intros ->; vm_compute in Hc; done..|done].
Qed.

Lemma split_on_safe p : brace_safe p -> split_on ","%char p = [p].
Proof.
  induction p as [|c p IH]; [done|]. intros (_ & Hc & Hp)%brace_safe_chars. cbn [split_on].
  by rewrite decide_False, IH.
Qed.

Lemma split_on_app p q : brace_safe p -> split_on ","%char (p +:+ "," +:+ q) = p :: split_on ","%char q.
Proof.
  induction p as [|c p IH]; [done|]. intros (_ & Hc & Hp)%brace_safe_chars.
  rewrite sapp_cons. cbn [split_on]. by rewrite decide_False, IH.
Qed.

Lemma split_on_Join ps : ps <> [] -> Forall brace_safe ps -> split_on ","%char (Join ps ",") = ps.
Proof.
  intros Hne Hs. induction Hs as [|p ps Hp Hs IH]; [done|]. destruct ps as [|q ps]; [by apply split_on_safe|].
  change (Join (p :: q :: ps) ",") with (p +:+ "," +:+ Join (q :: ps) ",").
  rewrite split_on_app by done. by rewrite IH.
Qed.

Lemma stake_app_length s t : stake (String.length s) (s +:+ t) = s.
Proof. induction s as [|c s IH]; [by destruct t|]. rewrite sapp_cons. cbn [String.length stake]. by rewrite IH. Qed.

Lemma tiny_glob_documented : glob_documented tiny_glob.
Proof.
  split.
  - intros p s Hs Hm. cbn. destruct p as [|c p].
    { change (HasPrefix "" "{") with false. by apply wildcard_literal. }
    destruct (brace_safe_chars _ _ Hs) as (Hc & _). destruct (HasPrefix (String c p) "{") eqn:E.
    + apply HasPrefix_spec in E as [r Hr]. rewrite sapp_cons in Hr. by simplify_eq.
    + by apply wildcard_literal.
  - intros ps g s Hne Hs Hg. change (g s) with (compiled (Good g) s). rewrite <-Hg. unfold tiny_glob at 1. cbn [compiled].
    assert (HasPrefix (braces ps) "{" = true) as -> by (apply HasPrefix_spec; by eexists).
    assert (stake (String.length (braces ps) - 2) (sdrop 1 (braces ps)) = Join ps ",") as ->.
    { unfold braces. rewrite sapp_cons, sapp_nil. cbn [sdrop String.length].
      replace (S (String.length (Join ps "," +:+ "}")) - 2)%nat with (String.length (Join ps ",")).
      - apply stake_app_length.
      - pose proof (slen_app (Join ps ",") "}") as H. unfold slen in H. cbn in H. lia. }
    rewrite split_on_Join by done. apply existsb_ext_Forall, Forall_forall. intros p Hp.
    eapply Forall_forall in Hs; [|exact Hp]. cbn. destruct p as [|c p]; [done|].
    destruct (brace_safe_chars _ _ Hs) as (Hc & _). destruct (HasPrefix (String c p) "{") eqn:E; [|done].
    apply HasPrefix_spec in E as [r Hr]. rewrite sapp_cons in Hr. by simplify_eq.
Qed.

(** Regular expressions of the witness are plain substrings. *)
Definition tiny_regexp (p : string) : res string (string -> bool) := Good (fun s => GoStr.Contains s p).

Lemma Compile_matches_any_witness :
  exists f, Compile (fun _ => true) tiny_glob tiny_regexp ["cpu"; "net*"; "/panic/"] = Good (Some f) /\
    Match f "network" = true /\ Match f "kernel panic" = true /\ Match f "memory" = false.
Proof.
  eexists. split; [reflexivity|].
  assert (Forall brace_safe ["cpu"; "net*"; "/panic/"]) as Hsafe by (repeat constructor).
  split_and!;
    (erewrite (Compile_matches_any (fun _ => true) tiny_glob tiny_regexp _ _ _ tiny_glob_documented Hsafe eq_refl);
     vm_compute; reflexivity).
Defined.

(** ** A comma inside a pattern *)

(** Next to a glob, a literal with a comma is taken apart: it no longer matches
    itself but what stands between its commas. *)
Theorem comma_splits_pattern :
  exists f, Compile (fun _ => true) tiny_glob tiny_regexp ["a,b"; "c*"] = Good (Some f) /\
    Match f "a,b" = false /\ Match f "a" = true /\
    exists g, Compile (fun _ => true) tiny_glob tiny_regexp ["a,b"] = Good (Some g) /\ Match g "a,b" = true.
Proof. eexists. split_and!; [reflexivity..|]. eexists. split; reflexivity. Qed.
