(* ===== verification/Shell.v ===== *)
(** * Splitting a command line into words (digcore/pkg/shell/shellquote.go)

    The parser cuts its input only between runes, so it works on the runes of
    the input, each with its bytes.  Its blocks, joined by [goto], are the modes
    of one function. *)
From S2P Require Import Prelude GoStr.
#[local] Open Scope Z_scope.

Abbreviation rune := (Z * string)%type.

Definition singleChar : Z := 39.
Definition doubleChar : Z := 34.
Definition escapeChar : Z := 92.
Definition newlineChar : Z := 10.
(** Space, newline and tab. *)
Definition splitChars : list Z := [32; 10; 9].
(** [$], backquote, double quote, newline and backslash. *)
Definition doubleEscapeChars : list Z := [36; 96; 34; 10; 92].

Inductive shell_error := UnterminatedSingleQuoteError | UnterminatedDoubleQuoteError | UnterminatedEscapeError.

Inductive mode := Raw | Escape | Single | Double.

(** One word, with [buf] what was written of it; the word and the rest.  The
    bytes between two special runes are written rune by rune. *)
Fixpoint splitWord (windows : bool) (m : mode) (input : list rune) (buf : string)
  : res shell_error (string * list rune) :=
  match input with
  | [] =>
    match m with
    | Raw => Good (buf, [])
    | Escape => Bad UnterminatedEscapeError
    | Single => Bad UnterminatedSingleQuoteError
    | Double => Bad UnterminatedDoubleQuoteError
    end
  | (c, b) :: cur =>
    match m with
    | Raw =>
      if c =? singleChar then splitWord windows Single cur buf
      else if c =? doubleChar then splitWord windows Double cur buf
      else if c =? escapeChar then splitWord windows Escape cur (if windows then buf +:+ b else buf)
      else if bool_decide (c ∈ splitChars) then Good (buf, cur)
      else splitWord windows Raw cur (buf +:+ b)
    | Escape => splitWord windows Raw cur (if c =? newlineChar then buf else buf +:+ b)
    | Single =>
      if c =? singleChar then splitWord windows Raw cur buf
      else splitWord windows Single cur (buf +:+ b)
    | Double =>
      if c =? doubleChar then splitWord windows Raw cur buf
      else if c =? escapeChar then
        match cur with
        | [] => Bad UnterminatedDoubleQuoteError
        | (c2, b2) :: cur2 =>
          if bool_decide (c2 ∈ doubleEscapeChars)
          then splitWord windows Double cur2 (if c2 =? newlineChar then buf else buf +:+ encode_rune c2)
          else splitWord windows Double cur2 (buf +:+ b +:+ b2)
        end
      else splitWord windows Double cur (buf +:+ b)
    end
  end.

(** The loop of [QuoteSplit]; [None] when the fuel is used up. *)
Fixpoint split_loop (windows : bool) (fuel : nat) (input : list rune) (words : list string)
  : option (list string * option shell_error) :=
  match fuel with
  | O => None
  | S fuel' =>
    match input with
    | [] => Some (words, None)
    | (c, b) :: next =>
      let word :=
        match splitWord windows Raw input "" with
        | Bad err => Some (words, Some err)
        | Good (w, rest) => split_loop windows fuel' rest (words ++ [w])
        end in
      if bool_decide (c ∈ splitChars) then split_loop windows fuel' next words
      else if c =? escapeChar then
        match next with
        | [] => Some (words, Some UnterminatedEscapeError)
        | (c2, _) :: rest => if c2 =? newlineChar then split_loop windows fuel' rest words else word
        end
      else word
    end
  end.

(** The words, and the error if there is one; a round for every rune and one
    to stop. *)
Definition QuoteSplit (windows : bool) (input : string) : option (list string * option shell_error) :=
  split_loop windows (S (length (segments input))) (segments input) [].

(** ** Lemmas *)

(** A word consumes input. *)
Lemma splitWord_rest windows m input buf w rest :
  splitWord windows m input buf = Good (w, rest) ->
  (length rest <= length input)%nat /\ (input <> [] -> (length rest < length input)%nat).
Proof.
  remember (length input) as n eqn:Hn. revert m input buf Hn.
  induction (lt_wf n) as [n _ IH]. intros m input buf ->.
  assert (forall m' cur buf', splitWord windows m' cur buf' = Good (w, rest) ->
    (length cur < length input)%nat -> (length rest <= length cur)%nat) as Hrec.
  { intros m' cur buf' Hs Hlt. by destruct (IH _ Hlt m' cur buf' eq_refl Hs). }
  assert (forall cur : list rune, (length cur < length input)%nat -> (length rest <= length cur)%nat ->
    (length rest <= length input)%nat /\ (input <> [] -> (length rest < length input)%nat)) as Hle
    by (intros; lia).
  clear IH. destruct input as [|[c b] cur]; cbn [splitWord].
  { destruct m; intros [= <- <-]; cbn; done. }
  assert (length cur < length ((c, b) :: cur))%nat as Hc by (cbn; lia).
  destruct m; repeat (destruct_match_goal; try done); try (intros Hs; apply (Hle cur); [done|by eapply Hrec]).
  { intros [= <- <-]. by apply (Hle cur). }
  all: intros Hs; subst cur; apply (Hle l); [cbn; lia|]; eapply Hrec; [exact Hs|cbn; lia].
Qed.

Lemma split_loop_total windows fuel input words :
  (length input < fuel)%nat -> is_Some (split_loop windows fuel input words).
Proof.
  revert input words. induction fuel as [|fuel IH]; intros input words Hf; [lia|]. cbn [split_loop].
  destruct input as [|[c b] next]; [by eexists|]. cbn [length] in Hf.
  assert (is_Some match splitWord windows Raw ((c, b) :: next) "" with
    | Good (w, rest) => split_loop windows fuel rest (words ++ [w])
    | Bad err => Some (words, Some err) end) as Hw.
  { destruct (splitWord _ _ _ _) as [[w rest]|err] eqn:Hs; [|by eexists].
    apply splitWord_rest in Hs as [_ Hs]. apply IH. specialize (Hs ltac:(done)). cbn in Hs. lia. }
  destruct (bool_decide (c ∈ splitChars)); [apply IH; lia|]. destruct (c =? escapeChar); [|done].
  destruct next as [|[c2 b2] rest]; [by eexists|]. destruct (c2 =? newlineChar); [|done].
  apply IH. cbn in Hf. lia.
Qed.

(** More fuel changes nothing. *)
Lemma split_loop_fuel windows fuel fuel' input words r :
  split_loop windows fuel input words = Some r -> (fuel <= fuel')%nat ->
  split_loop windows fuel' input words = Some r.
Proof.
  revert fuel' input words. induction fuel as [|fuel IH]; intros [|fuel'] input words; cbn [split_loop]; try done; [lia|].
  intros Hr Hle. destruct input as [|[c b] next]; [done|].
  assert (forall i ws, split_loop windows fuel i ws = Some r -> split_loop windows fuel' i ws = Some r) as Hrec
    by (intros; apply IH; [done|lia]). clear IH.
  repeat (destruct_match_goal; simplify_eq; try done); by apply Hrec.
Qed.

(** ** Quoting *)

(** A word in single quotes; a single quote inside is closed, escaped and
    reopened. *)
Fixpoint escape_quotes (w : string) : string :=
  match w with
  | "" => ""
  | String c w' => if decide (c = "'"%char) then "'\''" +:+ escape_quotes w' else String c (escape_quotes w')
  end.
Definition quote (w : string) : string := "'" +:+ escape_quotes w +:+ "'".

Fixpoint no_quote (u : string) : Prop :=
  match u with "" => True | String c u' => c <> "'"%char /\ no_quote u' end.

Lemma no_quote_app u v : no_quote (u +:+ v) <-> no_quote u /\ no_quote v.
Proof. induction u as [|c u IH]; [naive_solver|]. rewrite sapp_cons. cbn. rewrite IH. naive_solver. Qed.

Lemma no_quote_sdrop n u : no_quote u -> no_quote (sdrop n u).
Proof. revert u. induction n as [|n IH]; intros [|c u]; cbn; try done. intros [_ H]. by apply IH. Qed.

(** Only the byte of a quote decodes to a quote. *)
Lemma decode_quote l n : decode_bytes l = (singleChar, n) -> head l = Some singleChar.
Proof.
  destruct l as [|b0 l]; [done|]. unfold decode_bytes. destruct (b0 <? 128) eqn:E; [by intros [= -> _]|].
  assert (forall b1, accept_lo b0 <= b1 <= accept_hi b0 ->
    128 <= b1 /\ (b0 = 224 -> 160 <= b1) /\ (b0 = 240 -> 144 <= b1)) as Hacc.
  { intros b1 H. unfold accept_lo in H.
    destruct (b0 =? 224) eqn:E1, (b0 =? 240) eqn:E2; zbool; lia. }
  intros H. exfalso. revert H. unfold singleChar, RuneError, rune2, rune3, rune4, is_cont.
  repeat (destruct_match_goal; try done); intros [= H _]; zbool; rewrite ?in_range_spec in *;
    repeat match goal with H : accept_lo _ <= _ <= _ |- _ => apply Hacc in H as (? & ? & ?) end; lia.
Qed.

Lemma segments_no_quote u : no_quote u -> Forall (fun rb => rb.1 <> singleChar) (segments u).
Proof.
  induction u as [|u Hu IH] using runes_ind; intros Hq; [constructor|].
  rewrite segments_step by done. constructor; [|by apply IH, no_quote_sdrop].
  cbn. intros Hr. unfold DecodeRune in Hr. destruct (decode_bytes (peek 4 u)) as [r n] eqn:E. cbn in Hr. subst r.
  apply decode_quote in E. destruct u as [|c u]; [done|]. cbn in E. injection E as E.
  destruct Hq as [Hc _]. apply Hc. rewrite <-(ascii_N_embedding c). unfold byte_val, singleChar in E.
  by replace (N_of_ascii c) with 39%N by lia.
Qed.

Lemma single_runes windows l rest buf :
  Forall (fun rb => rb.1 <> singleChar) l ->
  splitWord windows Single (l ++ (singleChar, "'") :: rest) buf = splitWord windows Raw rest (buf +:+ concat_bytes l).
Proof.
  intros Hl. revert buf. induction Hl as [|[r b] l Hr _ IH]; intros buf; cbn [app splitWord concat_bytes].
  - by rewrite Z.eqb_refl, string_app_nil_r.
  - cbn in Hr. rewrite (proj2 (Z.eqb_neq _ _) Hr), IH. by rewrite string_app_assoc.
Qed.

Lemma single_block windows u t buf :
  no_quote u ->
  splitWord windows Single (segments (u +:+ "'" +:+ t)) buf = splitWord windows Raw (segments t) (buf +:+ u).
Proof.
  intros Hu. rewrite segments_app by (by apply starts_rune_ascii).
  change ("'" +:+ t) with (String "'" t). rewrite segments_ascii by done.
  change (byte_val "'", "'") with (singleChar, "'").
  rewrite single_runes by by apply segments_no_quote. by rewrite concat_segments.
Qed.

Lemma quoted_block w u t buf :
  no_quote u ->
  splitWord false Single (segments (u +:+ escape_quotes w +:+ "'" +:+ t)) buf
  = splitWord false Raw (segments t) (buf +:+ u +:+ w).
Proof.
  revert u buf. induction w as [|c w IH]; intros u buf Hu; cbn [escape_quotes].
  - rewrite string_app_nil_r. by apply single_block.
  - destruct (decide (c = "'"%char)) as [->|Hc].
    + change ("'\''" +:+ escape_quotes w) with ("'" +:+ "\''" +:+ escape_quotes w).
      rewrite (string_app_assoc "'"), single_block by done.
      rewrite string_app_assoc. change ("\''" +:+ escape_quotes w +:+ "'" +:+ t)
        with (String "\" (String "'" (String "'" (escape_quotes w +:+ "'" +:+ t)))).
      rewrite !segments_ascii by done. cbn [splitWord].
      change (splitWord false Single (segments (escape_quotes w +:+ "'" +:+ t)) ((buf +:+ u) +:+ "'")
        = splitWord false Raw (segments t) (buf +:+ u +:+ String "'" w)).
      rewrite (IH "") by done. by rewrite sapp_nil, !string_app_assoc.
    + change (String c (escape_quotes w)) with (String c "" +:+ escape_quotes w).
      rewrite (string_app_assoc (String c "")), <-(string_app_assoc u).
      rewrite IH by (apply no_quote_app; done). by rewrite string_app_assoc.
Qed.

Lemma splitWord_quote w t :
  splitWord false Raw (segments (quote w +:+ t)) "" = splitWord false Raw (segments t) w.
Proof.
  unfold quote. rewrite !string_app_assoc.
  change ("'" +:+ escape_quotes w +:+ "'" +:+ t) with (String "'" (escape_quotes w +:+ "'" +:+ t)).
  rewrite segments_ascii by done. cbn [splitWord].
  change (splitWord false Single (segments ("" +:+ escape_quotes w +:+ "'" +:+ t)) "" = splitWord false Raw (segments t) w).
  by rewrite quoted_block.
Qed.

Lemma split_loop_word fuel w t words :
  split_loop false (S fuel) (segments (quote w +:+ t)) words
  = match splitWord false Raw (segments t) w with
    | Bad err => Some (words, Some err)
    | Good (w, rest) => split_loop false fuel rest (words ++ [w])
    end.
Proof.
  cbn [split_loop]. pose proof (splitWord_quote w t) as Hw. revert Hw. unfold quote.
  rewrite !string_app_assoc.
  change ("'" +:+ escape_quotes w +:+ "'" +:+ t) with (String "'" (escape_quotes w +:+ "'" +:+ t)).
  rewrite segments_ascii by done. intros Hw. rewrite Hw. done.
Qed.

Lemma split_loop_quoted ws fuel words :
  (length ws < fuel)%nat ->
  split_loop false fuel (segments (Join (map quote ws) " ")) words = Some (words ++ ws, None).
Proof.
  revert fuel words. induction ws as [|w ws IH]; intros fuel words Hf.
  { destruct fuel; [lia|]. cbn. by rewrite app_nil_r. }
  destruct fuel as [|fuel]; [lia|]. cbn [length] in Hf. destruct ws as [|w' ws].
  - cbn [map Join]. rewrite <-(string_app_nil_r (quote w)), split_loop_word.
    destruct fuel; [cbn in Hf; lia|done].
  - change (Join (map quote (w :: w' :: ws)) " ") with (quote w +:+ String " " (Join (map quote (w' :: ws)) " ")).
    rewrite split_loop_word, segments_ascii by done.
    change (split_loop false fuel (segments (Join (map quote (w' :: ws)) " ")) (words ++ [w])
      = Some (words ++ w :: w' :: ws, None)).
    rewrite IH by lia. by rewrite <-(assoc_L (++)).
Qed.

Lemma length_quoted ws : (length ws <= length (segments (Join (map quote ws) " ")))%nat.
Proof.
  induction ws as [|w ws IH]; [cbn; lia|]. destruct ws as [|w' ws].
  - cbn [map Join length]. unfold quote. change ("'" +:+ ?s) with (String "'" s).
    rewrite segments_ascii by done. cbn. lia.
  - change (Join (map quote (w :: w' :: ws)) " ") with (quote w +:+ String " " (Join (map quote (w' :: ws)) " ")).
    rewrite segments_app, segments_ascii by (by apply starts_rune_ascii || done).
    rewrite length_app. cbn [length] in *. lia.
Qed.

(** ** Properties *)

(** Splitting a command line always ends, with words or with an error: a round
    consumes at least a rune, so more rounds change nothing. *)
Theorem QuoteSplit_terminates windows input :
  exists r, QuoteSplit windows input = Some r /\
    forall fuel, (length (segments input) < fuel)%nat -> split_loop windows fuel (segments input) [] = Some r.
Proof.
  destruct (split_loop_total windows (S (length (segments input))) (segments input) []) as [r Hr]; [lia|].
  exists r. split; [exact Hr|]. intros fuel Hf. eapply split_loop_fuel; [exact Hr|lia].
Qed.

(** Words of any bytes, single-quoted and joined by spaces, are read back. *)
Theorem QuoteSplit_quoted ws :
  QuoteSplit false (Join (map quote ws) " ") = Some (ws, None).
Proof. apply (split_loop_quoted ws _ []). pose proof (length_quoted ws). lia. Qed.

Example QuoteSplit_ex :
  QuoteSplit false "ls -l 'a b'\''c' 'x" = Some (["ls"; "-l"; "a b'c"], Some UnterminatedSingleQuoteError) /\
  QuoteSplit false "a\ b  c" = Some (["a b"; "c"], None).
Proof. split; vm_compute; reflexivity. Qed.
