(* ===== verification/SafeQueue.v ===== *)
(** * The event queue (digcore/pkg/safe/queue.go)

    [Queue] wraps container/list under a lock: producers push at the front,
    the engine pops at the back.  The list is modelled front first.  Popped
    values pass the assertion [item.(T)]: [assertT] says which stored values
    satisfy it (every pointer does). *)
From S2P Require Import Prelude.
#[local] Open Scope Z_scope.

Section queue.
Context {T : Type} (assertT : T -> bool).

(** ** [Queue] *)
Record Queue := mkQueue { linkedlist : list T }.

Definition NewQueue : Queue := mkQueue [].

Definition PushFront (q : Queue) (v : T) : Queue := mkQueue (v :: linkedlist q).

(** The loop of [PushFrontN] pushes one item after the other. *)
Fixpoint push_loop (l : list T) (vs : list T) : list T :=
  match vs with [] => l | v :: vs' => push_loop (v :: l) vs' end.
Definition PushFrontN (q : Queue) (vs : list T) : Queue := mkQueue (push_loop (linkedlist q) vs).

(** [linkedlist.Remove(linkedlist.Back())]; [None] is the nil element. *)
Definition remove_back (l : list T) : option (T * list T) :=
  match reverse l with
  | [] => None
  | v :: r => Some (v, reverse r)
  end.

Definition PopBack (q : Queue) : option T * Queue :=
  match remove_back (linkedlist q) with
  | Some (item, l) => (if assertT item then Some item else None, mkQueue l)
  | None => (None, q)
  end.

(** [count] rounds of removal at the back; asserted items are kept. *)
Fixpoint pop_loop (count : nat) (l : list T) (items : list T) : list T * list T :=
  match count with
  | O => (items, l)
  | S n =>
    match remove_back l with
    | None => (items, l)
    | Some (item, l') => pop_loop n l' (if assertT item then items ++ [item] else items)
    end
  end.

(** A negative [n] reaches [make([]T, 0, n)], which panics. *)
Definition PopBackN (q : Queue) (n : Z) : go (list T * Queue) :=
  let count := zlen (linkedlist q) in
  if count =? 0 then Ret ([], q)
  else
    let count := if n <? count then n else count in
    if count <? 0 then Panic
    else let '(items, l) := pop_loop (Z.to_nat count) (linkedlist q) [] in
         Ret (items, mkQueue l).

Definition PopBackAll (q : Queue) : list T * Queue :=
  let count := zlen (linkedlist q) in
  if count =? 0 then ([], q)
  else let '(items, l) := pop_loop (Z.to_nat count) (linkedlist q) [] in
       (items, mkQueue l).

Definition RemoveAll (q : Queue) : Queue := mkQueue [].
Definition Len (q : Queue) : Z := zlen (linkedlist q).

(** ** [QueueLimited] *)
Record QueueLimited := mkQueueLimited { maxSize : Z; queue : Queue }.

Definition NewQueueLimited (n : Z) : QueueLimited := mkQueueLimited n NewQueue.

Definition limited_PushFront (ql : QueueLimited) (v : T) : bool * QueueLimited :=
  if maxSize ql <=? Len (queue ql) then (false, ql)
  else (true, mkQueueLimited (maxSize ql) (PushFront (queue ql) v)).

Definition limited_PushFrontN (ql : QueueLimited) (vs : list T) : bool * QueueLimited :=
  if maxSize ql <=? Len (queue ql) then (false, ql)
  else (true, mkQueueLimited (maxSize ql) (PushFrontN (queue ql) vs)).

(** ** The FIFO the queue stands for: oldest value first *)
Definition contents (q : Queue) : list T := reverse (linkedlist q).

Lemma push_loop_app l vs : push_loop l vs = reverse vs ++ l.
Proof.
  revert l. induction vs as [|v vs IH]; intros l; [done|].
  cbn [push_loop]. rewrite IH, reverse_cons, <- app_assoc. done.
Qed.

Lemma pop_loop_spec n l items :
  pop_loop n l items = (items ++ filter (fun v => assertT v = true) (take n (reverse l)),
                        reverse (drop n (reverse l))).
Proof.
  revert l items. induction n as [|n IH]; intros l items; cbn [pop_loop].
  - by rewrite take_0, drop_0, app_nil_r, reverse_involutive.
  - unfold remove_back. destruct (reverse l) as [|v r] eqn:E.
    + rewrite <- (reverse_involutive l), E. by rewrite app_nil_r.
    + rewrite IH, reverse_involutive. cbn [take drop]. rewrite filter_cons.
      destruct (assertT v) eqn:Ea; case_decide; try congruence.
      by rewrite <- app_assoc.
Qed.

Lemma contents_length q : zlen (contents q) = Len q.
Proof. unfold contents, Len, zlen. by rewrite length_reverse. Qed.

Lemma PushFront_contents q v : contents (PushFront q v) = contents q ++ [v].
Proof. unfold contents. cbn [linkedlist PushFront]. by rewrite reverse_cons. Qed.

Lemma PushFrontN_contents q vs : contents (PushFrontN q vs) = contents q ++ vs.
Proof. unfold contents. cbn [linkedlist PushFrontN]. by rewrite push_loop_app, reverse_app, reverse_involutive. Qed.

Lemma PopBackAll_contents q :
  PopBackAll q = (filter (fun v => assertT v = true) (contents q), mkQueue []).
Proof.
  unfold PopBackAll, contents. destruct (zlen (linkedlist q) =? 0) eqn:E; zbool.
  - apply zlen_zero in E. destruct q as [l]. cbn in E. by subst.
  - rewrite pop_loop_spec. unfold zlen. rewrite Nat2Z.id.
    rewrite take_ge, drop_ge by (rewrite length_reverse; lia). done.
Qed.

(** ** Properties *)

(** The queue is a FIFO: with values that satisfy the type assertion, popping
    [n >= 0] values returns the [n] oldest in the order they were pushed and
    leaves the others; only a negative count on a non-empty queue panics. *)
Theorem PopBackN_fifo (q : Queue) (n : Z) :
  (forall v, assertT v = true) ->
  PopBackN q n =
    if (n <? 0) && negb (Len q =? 0) then Panic
    else Ret (take (Z.to_nat n) (contents q), mkQueue (reverse (drop (Z.to_nat n) (contents q)))).
Proof.
  intros HT. unfold PopBackN, Len. pose proof (zlen_nonneg (linkedlist q)) as Hnn.
  destruct (zlen (linkedlist q) =? 0) eqn:E; zbool.
  - apply zlen_zero in E. destruct q as [l]. cbn in E. subst.
    change (contents (mkQueue [])) with (@nil T).
    by rewrite andb_false_r, take_nil, drop_nil.
  - cbn [negb]. rewrite andb_true_r. destruct (n <? 0) eqn:En; zbool.
    + rewrite (proj2 (Z.ltb_lt n _)), (proj2 (Z.ltb_lt n 0)) by lia. done.
    + assert (forall k, pop_loop k (linkedlist q) [] =
        (take k (contents q), reverse (drop k (contents q)))) as Hp.
      { intros k. rewrite pop_loop_spec. cbn [app]. f_equal.
        apply filter_all, Forall_forall. auto. }
      destruct (n <? zlen (linkedlist q)) eqn:E2; zbool;
        rewrite (proj2 (Z.ltb_ge _ 0)), Hp by lia; [done|].
      assert (Z.to_nat (zlen (linkedlist q)) = length (contents q)) as Hk.
      { unfold contents, zlen. rewrite length_reverse. lia. }
      rewrite Hk, !take_ge, !drop_ge; try done; lia.
Qed.
End queue.
Arguments Queue T : clear implicits.
Arguments QueueLimited T : clear implicits.
