(* ===== verification/Notify.v ===== *)
(** * Fan-out to notifiers (digcore/notify/notify.go)

    [Forward] and [ForwardComment] start one goroutine per notifier; goroutine
    [idx] writes [results[idx]], and the caller waits for all of them.  A run is
    an order in which the goroutines complete.  Notifiers are a type class:
    what a notifier does with an event is its own state and its own answer. *)
From S2P Require Import Prelude Types.
#[local] Open Scope Z_scope.

(** ** The interfaces [Notifier] and [CommentNotifier] *)
Class Notifier (NS : Type) := {
  Name : NS -> string;
  notifier_Forward : NS -> Event -> bool * NS;
  (** [Some f] when the type assertion to [CommentNotifier] succeeds *)
  notifier_Comment : NS -> option (string -> string -> bool * NS)
}.

(** What the alert engine needs from the fan-out: one attempt to deliver an
    event to the outside world [W]. *)
Class Forwarder (W : Type) := forward_event : W -> Event -> bool * W.

Section notify.
Context {NS : Type} `{!Notifier NS}.

Definition Register (notifiers : list NS) (n : NS) : list NS := notifiers ++ [n].

(** Goroutine number [idx], working for the notifier at position [p]. *)
Definition goroutine (f : NS -> bool * NS) (acc : list bool * list NS) (task : nat * nat)
  : list bool * list NS :=
  let '(idx, p) := task in
  match acc.2 !! p with
  | Some n => (<[idx := (f n).1]> acc.1, <[p := (f n).2]> acc.2)
  | None => acc
  end.

Definition tasks_of (ps : list nat) : list (nat * nat) := zip (seq 0 (length ps)) ps.

(** The goroutines for positions [ps], completing in the given order. *)
Definition run_goroutines (f : NS -> bool * NS) (ps : list nat) (order : list (nat * nat))
    (ns : list NS) : bool * list NS :=
  let '(results, ns') := fold_left (goroutine f) order (replicate (length ps) false, ns) in
  (existsb id results, ns').

Definition Forward_in_order (order : list (nat * nat)) (notifiers : list NS) (event : Event)
  : bool * list NS :=
  match notifiers with
  | [] => (false, notifiers)
  | [n] => let '(ok, n') := notifier_Forward n event in (ok, [n'])
  | _ => run_goroutines (fun n => notifier_Forward n event) (seq 0 (length notifiers)) order notifiers
  end.

Definition Forward (notifiers : list NS) (event : Event) : bool * list NS :=
  Forward_in_order (tasks_of (seq 0 (length notifiers))) notifiers event.

(** The positions of the notifiers that accept comments. *)
Definition comment_positions (notifiers : list NS) : list nat :=
  filter (fun p => is_Some (notifiers !! p ≫= notifier_Comment)) (seq 0 (length notifiers)).

Definition comment_call (alertKey comment : string) (n : NS) : bool * NS :=
  match notifier_Comment n with Some f => f alertKey comment | None => (false, n) end.

Definition ForwardComment_in_order (order : list (nat * nat)) (notifiers : list NS)
    (alertKey comment : string) : bool * list NS :=
  match notifiers with
  | [] => (false, notifiers)
  | _ =>
    match comment_positions notifiers with
    | [] => (false, notifiers)
    | [p] =>
      match notifiers !! p with
      | Some n => let '(ok, n') := comment_call alertKey comment n in (ok, <[p := n']> notifiers)
      | None => (false, notifiers)
      end
    | ps => run_goroutines (comment_call alertKey comment) ps order notifiers
    end
  end.

Definition ForwardComment (notifiers : list NS) (alertKey comment : string) : bool * list NS :=
  ForwardComment_in_order (tasks_of (comment_positions notifiers)) notifiers alertKey comment.

#[export] Instance notify_forwarder : Forwarder (list NS) := Forward.

(** ** Lemmas *)

Lemma fold_left_commute {A B} (g : A -> B -> A) (l k : list B) :
  (forall a x y, x ∈ l -> y ∈ l -> g (g a x) y = g (g a y) x) ->
  l ≡ₚ k -> forall a, fold_left g l a = fold_left g k a.
Proof.
  intros Hc Hp. induction Hp as [|x l k Hp IH|x y l|l k m H1 IH1 H2 IH2]; intros a; cbn.
  - done.
  - apply IH. intros b u v Hu Hv. apply Hc; by constructor.
  - rewrite Hc; [done|repeat constructor..].
  - rewrite IH1 by done. apply IH2. intros b u v Hu Hv.
    apply Hc; by rewrite H1.
Qed.

Lemma goroutine_commute f ps a t1 t2 :
  NoDup ps -> t1 ∈ tasks_of ps -> t2 ∈ tasks_of ps ->
  goroutine f (goroutine f a t1) t2 = goroutine f (goroutine f a t2) t1.
Proof.
  intros Hnd [k1 H1]%list_elem_of_lookup [k2 H2]%list_elem_of_lookup.
  destruct t1 as [i1 p1], t2 as [i2 p2], a as [rs ns].
  apply lookup_zip_with_Some in H1 as (? & ? & [= <- <-] & Hs1 & Hp1).
  apply lookup_zip_with_Some in H2 as (? & ? & [= <- <-] & Hs2 & Hp2).
  apply lookup_seq in Hs1 as [-> _]. apply lookup_seq in Hs2 as [-> _].
  destruct (decide (k1 = k2)) as [->|Hne]; [by simplify_eq|].
  assert (p1 <> p2) as Hp by (intros ->; eapply Hne, NoDup_lookup; eauto).
  unfold goroutine; cbn [fst snd].
  destruct (ns !! p1) as [n1|] eqn:E1, (ns !! p2) as [n2|] eqn:E2; cbn [fst snd];
    rewrite ?list_lookup_insert_ne, ?E1, ?E2 by done; try done.
  f_equal; apply list_insert_insert_ne; cbn; lia.
Qed.

(** The outcome of a fan-out does not depend on the order of its goroutines. *)
Lemma run_goroutines_order f ps order ns :
  NoDup ps -> order ≡ₚ tasks_of ps ->
  run_goroutines f ps order ns = run_goroutines f ps (tasks_of ps) ns.
Proof.
  intros Hnd Hp. unfold run_goroutines. erewrite fold_left_commute; [done| |done].
  intros a x y Hx Hy. rewrite Hp in Hx, Hy. by eapply goroutine_commute.
Qed.

Definition answer (f : NS -> bool * NS) (ns : list NS) (p : nat) : bool :=
  match ns !! p with Some n => (f n).1 | None => false end.
Definition updated (f : NS -> bool * NS) (ns : list NS) (p : nat) : list NS :=
  match ns !! p with Some n => <[p := (f n).2]> ns | None => ns end.

Lemma answer_updated f ns p q : p <> q -> answer f (updated f ns p) q = answer f ns q.
Proof.
  intros. unfold answer, updated. destruct (ns !! p) eqn:E; [|done].
  by rewrite list_lookup_insert_ne.
Qed.

Lemma goroutines_fold f ps pre ns :
  NoDup ps -> (forall p, p ∈ ps -> (p < length ns)%nat) ->
  fold_left (goroutine f) (zip (seq (length pre) (length ps)) ps)
      (pre ++ replicate (length ps) false, ns)
    = (pre ++ map (answer f ns) ps, fold_left (updated f) ps ns).
Proof.
  intros Hnd. revert pre ns.
  induction Hnd as [|p ps Hp Hnd IH]; intros pre ns Hlt; cbn [length seq replicate map fold_left zip].
  - done.
  - cbn [zip_with fold_left]. unfold goroutine at 2. cbn [fst snd].
    destruct (lookup_lt_is_Some_2 ns p) as [n Hn]; [apply Hlt; constructor|].
    rewrite Hn.
    assert (forall b, <[length pre := b]> (pre ++ false :: replicate (length ps) false)
      = (pre ++ [b]) ++ replicate (length ps) false) as Hins.
    { intros b. rewrite insert_app_r_alt, Nat.sub_diag, <- app_assoc by lia. done. }
    rewrite Hins.
    replace (S (length pre)) with (length (pre ++ [(f n).1])) by (rewrite length_app; cbn; lia).
    rewrite IH.
    + assert (map (answer f (<[p:=(f n).2]> ns)) ps = map (answer f ns) ps) as ->.
      { apply map_ext_in. intros q Hq%list_elem_of_In.
        rewrite <- (answer_updated f ns p q) by (by intros ->).
        unfold updated. by rewrite Hn. }
      rewrite <- app_assoc. cbn [app].
      assert (updated f ns p = <[p:=(f n).2]> ns) as -> by (unfold updated; by rewrite Hn).
      unfold answer at 2. by rewrite Hn.
    + intros q Hq. rewrite length_insert. apply Hlt. by constructor.
Qed.

Lemma run_goroutines_answers f ps ns :
  NoDup ps -> (forall p, p ∈ ps -> (p < length ns)%nat) ->
  run_goroutines f ps (tasks_of ps) ns
    = (existsb (answer f ns) ps, fold_left (updated f) ps ns).
Proof.
  intros Hnd Hlt. unfold run_goroutines, tasks_of.
  pose proof (goroutines_fold f ps [] ns Hnd Hlt) as H. cbn [length app] in H. rewrite H.
  f_equal. clear. induction ps as [|p ps IH]; [done|]. cbn. by rewrite IH.
Qed.

Lemma comment_positions_NoDup ns : NoDup (comment_positions ns).
Proof. apply NoDup_filter, NoDup_seq. Qed.

Lemma comment_positions_lt ns p : p ∈ comment_positions ns -> (p < length ns)%nat.
Proof. unfold comment_positions. rewrite list_elem_of_filter, elem_of_seq. lia. Qed.

Lemma existsb_answers_seq f ns :
  existsb (answer f ns) (seq 0 (length ns)) = existsb (fun n => (f n).1) ns.
Proof.
  unfold answer.
  enough (forall pre, existsb (fun p => match (pre ++ ns) !! p with Some n => (f n).1 | None => false end)
    (seq (length pre) (length ns)) = existsb (fun n => (f n).1) ns) as H by apply (H []).
  induction ns as [|n ns IH]; intros pre; [done|]. cbn [length seq existsb].
  rewrite list_lookup_middle by done. f_equal.
  specialize (IH (pre ++ [n])). rewrite length_app, <- app_assoc in IH. cbn in IH.
  by rewrite Nat.add_1_r in IH.
Qed.

Lemma updated_other f ps ns q : q ∉ ps -> fold_left (updated f) ps ns !! q = ns !! q.
Proof.
  revert ns. induction ps as [|p ps IH]; intros ns Hq; [done|].
  apply not_elem_of_cons in Hq as [Hqp Hq]. cbn. rewrite IH by done.
  unfold updated. destruct (ns !! p); [|done]. by rewrite list_lookup_insert_ne.
Qed.

Lemma comment_positions_mute ns p n :
  ns !! p = Some n -> notifier_Comment n = None -> p ∉ comment_positions ns.
Proof.
  intros Hp Hn. unfold comment_positions. rewrite list_elem_of_filter, Hp. cbn.
  rewrite Hn. intros [[? ?] _]. done.
Qed.

(** ** Properties *)

(** A fan-out succeeds exactly when some notifier accepts the event, in every
    order in which the goroutines can complete, and no notifier means failure. *)
Theorem Forward_any_accepts (notifiers : list NS) (event : Event) (order : list (nat * nat)) :
  order ≡ₚ tasks_of (seq 0 (length notifiers)) ->
  (Forward_in_order order notifiers event).1
    = existsb (fun n => (notifier_Forward n event).1) notifiers
  /\ Forward_in_order order notifiers event = Forward notifiers event.
Proof.
  intros Ho. unfold Forward, Forward_in_order.
  destruct notifiers as [|n [|m ns]]; [done| |].
  - cbn. destruct (notifier_Forward n event); cbn. by rewrite orb_false_r.
  - rewrite run_goroutines_order by (done || apply NoDup_seq).
    rewrite run_goroutines_answers by
      (apply NoDup_seq || (intros p; rewrite elem_of_seq; lia)).
    cbn [fst]. by rewrite existsb_answers_seq.
Qed.

(** A diagnosis comment is delivered exactly when some comment-capable notifier
    takes it, in every completion order; notifiers without comment support are
    never called. *)
Theorem ForwardComment_any_accepts (notifiers : list NS) (alertKey comment : string)
    (order : list (nat * nat)) :
  order ≡ₚ tasks_of (comment_positions notifiers) ->
  (ForwardComment_in_order order notifiers alertKey comment).1
    = existsb (answer (comment_call alertKey comment) notifiers) (comment_positions notifiers)
  /\ (forall p n, notifiers !! p = Some n -> notifier_Comment n = None ->
      (ForwardComment_in_order order notifiers alertKey comment).2 !! p = Some n).
Proof.
  intros Ho.
  assert (forall ps : list nat, comment_positions notifiers = ps ->
    run_goroutines (comment_call alertKey comment) ps order notifiers
    = (existsb (answer (comment_call alertKey comment) notifiers) ps,
       fold_left (updated (comment_call alertKey comment)) ps notifiers)) as Hrun.
  { intros ps <-. rewrite run_goroutines_order by (done || apply comment_positions_NoDup).
    apply run_goroutines_answers; [apply comment_positions_NoDup | apply comment_positions_lt]. }
  pose proof (fun p n => comment_positions_mute notifiers p n) as Hmute.
  unfold ForwardComment_in_order. destruct notifiers as [|n0 ns0]; [done|].
  destruct (comment_positions (n0 :: ns0)) as [|p [|q ps]] eqn:Eps; [done| |].
  - destruct (lookup_lt_is_Some_2 (n0 :: ns0) p) as [n Hn].
    { apply comment_positions_lt. rewrite Eps. constructor. }
    rewrite Hn. destruct (comment_call alertKey comment n) as [ok n'] eqn:Ec. cbn [fst snd].
    split.
    + cbn [existsb]. unfold answer. by rewrite Hn, Ec, orb_false_r.
    + intros p' m Hp' Hm. rewrite list_lookup_insert_ne; [done|].
      intros ->. apply (Hmute p' m); [done..|constructor].
  - rewrite Hrun by done. cbn [fst snd]. split; [done|].
    intros p' m Hp' Hm. rewrite updated_other; [done|]. by apply (Hmute p' m).
Qed.
End notify.

(** ** Witness: three notifiers that are up or down, finishing in reverse order *)

#[local] Instance switch : Notifier bool := {
  Name b := if b then "up" else "down";
  notifier_Forward b _ := (b, b);
  notifier_Comment _ := None
}.

Lemma Forward_any_accepts_witness :
  let event := mkEvent 1 EventStatusWarning "k" None None "" "" 0 0 0 in
  let order := [(2, 2); (1, 1); (0, 0)]%nat in
  (Forward_in_order order [false; true; false] event).1 = true.
Proof.
  intros event order.
  refine (proj1 (Forward_any_accepts [false; true; false] event order _)).
  apply (bool_decide_unpack (_ ≡ₚ _)). vm_compute. exact I.
Defined.
