(* ===== verification/Backends.v ===== *)
(** * Notification backends (digcore/notify/flashduty.go, pagerduty.go, webapi.go, console.go)

    The three HTTP backends turn an event into a JSON body and share one retry
    loop; the console prints.  The network is the interface [HttpClient]: one
    exchange, and the pause between two attempts. *)
From S2P Require Import Prelude GoStr GoLib GoConv GoFmt GoJson Types Notify.
#[local] Open Scope Z_scope.

(** ** Requests and what comes back *)

(** [Header.Set] writes the canonical form of a key; [None] is an invalid byte. *)
Definition token_byte (c : ascii) : bool :=
  let b := byte_val c in
  in_range 48 57 b || in_range 65 90 b || in_range 97 122 b
  || bool_decide (b ∈ [33; 35; 36; 37; 38; 39; 42; 43; 45; 46; 94; 95; 96; 124; 126]).
Fixpoint canonical_from (upper : bool) (s : string) : string :=
  match s with
  | "" => ""
  | String c s' =>
    let b := byte_val c in
    let c' := if upper && in_range 97 122 b then byte (b - 32)
              else if negb upper && in_range 65 90 b then byte (b + 32) else c in
    String c' (canonical_from (b =? 45) s')
  end.
Definition CanonicalMIMEHeaderKey (k : string) : string :=
  if all_chars token_byte k then canonical_from true k else k.
Definition header_Set (k v : string) (h : gmap string string) : gmap string string := <[CanonicalMIMEHeaderKey k := v]> h.

Record http_request := mkRequest {
  req_Method : string; req_URL : string; req_Header : gmap string string; req_Body : string; req_Timeout : Z
}.

(** [http.NewRequest] refuses a method or an address, [Do] fails, or there is a
    response with a body that may break off while it is read ([None]). *)
Inductive http_result :=
| RequestRefused
| ExchangeFailed
| Response (StatusCode : Z) (body : option string).

Class HttpClient (W : Type) := {
  http_do : http_request -> W -> http_result * W;
  sleep : Z -> W -> W
}.

(** The two results of [doPost]: ok and retryable. *)
Definition verdict : Type := bool * bool.

Section retry.
Context {W : Type}.
Variables (post : W -> verdict * W) (wait : Z -> W -> W).

(** [for attempt := ...; attempt <= MaxRetries; attempt++], [n] rounds left. *)
Fixpoint attempts (n : nat) (attempt : Z) (w : W) : bool * W :=
  match n with
  | O => (false, w)
  | S n' =>
    let w := if 0 <? attempt then wait (attempt * Second) w else w in
    let '((ok, retryable), w) := post w in
    if ok then (true, w)
    else if negb retryable then (false, w)
    else attempts n' (attempt + 1) w
  end.
Definition with_retries (MaxRetries : Z) (w : W) : bool * W := attempts (Z.to_nat (MaxRetries + 1)) 0 w.
End retry.

Definition map_value (m : gmap string string) : jval :=
  VObj (map (fun k => (k, VStr (default "" (m !! k)))) (sort_Strings (map_to_list m).*1)).
(** A field of a map type; a nil map is [null]. *)
Definition gomap_value (m : gomap string) : jval := match m with None => VNull | Some m => map_value m end.
Definition gomap_len (m : gomap string) : Z := match m with None => 0 | Some m => Z.of_nat (size m) end.

Definition json_header : gmap string string := header_Set "Content-Type" "application/json" ∅.

Section backends.
Context {W : Type} `{!HttpClient W}.

(** ** flashduty.go *)
Definition flashdutyAttrPrefix : string := "_attr_".

Record FlashdutyConfig := mkFlashdutyConfig { IntegrationKey : string; fd_BaseUrl : string; fd_Timeout : Z; fd_MaxRetries : Z }.
Record FlashdutyNotifier := mkFlashdutyNotifier { fd_cfg : FlashdutyConfig; fd_url : string; fd_commentURL : string }.

Record flashDutyPayload := mkFlashDutyPayload {
  fp_EventTime : Z; fp_EventStatus : string; fp_AlertKey : string; fp_Labels : gmap string string; fp_TitleRule : string;
  fp_Description : string
}.

Definition attr_labels (attrs : gomap string) (labels : gmap string string) : gmap string string :=
  match attrs with
  | None => labels
  | Some m => foldr (fun '(k, v) acc => <[flashdutyAttrPrefix +:+ k := v]> acc) labels (map_to_list m)
  end.

Definition flashduty_toPayload (event : Event) : flashDutyPayload :=
  let labels := attr_labels (Attrs event) (copy_into (Labels event) ∅) in
  let titleRule :=
    if decide (gomap_get (Labels event) "target" <> "") then "[TPL]${check} ${from_hostip} ${target}"
    else "[TPL]${check} ${from_hostip}" in
  let desc := if decide (DescriptionFormat event = "markdown") then "[MD]" +:+ Description event else Description event in
  mkFlashDutyPayload (EventTime event) (EventStatus event) (AlertKey event) labels titleRule desc.

Definition flashduty_value (p : flashDutyPayload) : jval :=
  VObj [("event_time", VNum (itoa (fp_EventTime p))); ("event_status", VStr (fp_EventStatus p)); ("alert_key", VStr (fp_AlertKey p));
        ("labels", map_value (fp_Labels p)); ("title_rule", VStr (fp_TitleRule p)); ("description", VStr (fp_Description p))].
Definition comment_value (alertKey comment : string) : jval := VObj [("alert_key", VStr alertKey); ("comment", VStr comment)].

Definition flashduty_status (r : http_result) : verdict :=
  match r with
  | RequestRefused => (false, false)
  | ExchangeFailed | Response _ None => (false, true)
  | Response code (Some _) =>
    if 500 <=? code then (false, true) else if 400 <=? code then (false, false) else (true, false)
  end.
Definition flashduty_doPost (f : FlashdutyNotifier) (requestURL payload : string) (w : W) : verdict * W :=
  let '(r, w) := http_do (mkRequest "POST" requestURL json_header payload (fd_Timeout (fd_cfg f))) w in
  (flashduty_status r, w).

Definition flashduty_Forward (f : FlashdutyNotifier) (event : Event) (w : W) : bool * W :=
  let bs := json_Marshal (flashduty_value (flashduty_toPayload event)) in
  with_retries (flashduty_doPost f (fd_url f) bs) sleep (fd_MaxRetries (fd_cfg f)) w.

Definition flashduty_Comment (f : FlashdutyNotifier) (alertKey comment : string) (w : W) : bool * W :=
  let comment := TrimSpace comment in
  if decide (comment = "") then (false, w)
  else with_retries (flashduty_doPost f (fd_commentURL f) (json_Marshal (comment_value alertKey comment))) sleep
         (fd_MaxRetries (fd_cfg f)) w.

(** ** pagerduty.go *)
Record PagerDutyConfig := mkPagerDutyConfig {
  RoutingKey : string; pd_BaseUrl : string; SeverityMap : gomap string; pd_Timeout : Z; pd_MaxRetries : Z
}.
Record pdPayload := mkPdPayload {
  pp_Summary : string; pp_Severity : string; pp_Source : string; pp_Timestamp : string; CustomDetails : gmap string string
}.
Record pdEnvelope := mkPdEnvelope { pe_RoutingKey : string; EventAction : string; DedupKey : string; pe_Payload : pdPayload }.

(** [Format(time.RFC3339)] of a UTC time. *)
Definition FormatRFC3339 (t : Z) : string :=
  let '(y, m, d) := civil (t / 86400) in
  let s := t mod 86400 in
  pad0 4 y +:+ "-" +:+ pad0 2 m +:+ "-" +:+ pad0 2 d +:+ "T"
  +:+ pad0 2 (s / 3600) +:+ ":" +:+ pad0 2 (s / 60 mod 60) +:+ ":" +:+ pad0 2 (s mod 60) +:+ "Z".

Definition pagerduty_toPayload (cfg : PagerDutyConfig) (event : Event) : pdEnvelope :=
  let action := if decide (EventStatus event = EventStatusOk) then "resolve" else "trigger" in
  let severity := default "warning" (SeverityMap cfg ≫= lookup (EventStatus event)) in
  let source := gomap_get (Labels event) "from_hostip" in
  let source := if decide (source = "") then gomap_get (Labels event) "from_hostname" else source in
  let source := if decide (source = "") then "catpaw" else source in
  let summary := if decide (DescriptionFormat event = "markdown") then TrimPrefix (Description event) "[MD]" else Description event in
  let check := gomap_get (Labels event) "check" in
  let summary := if decide (check <> "") then check +:+ " " +:+ summary else summary in
  let summary := if 1024 <? slen summary then stake 1024 summary else summary in
  let details := copy_into (Attrs event) (copy_into (Labels event) ∅) in
  mkPdEnvelope (RoutingKey cfg) action (AlertKey event)
    (mkPdPayload summary severity source (FormatRFC3339 (EventTime event)) details).

Definition pagerduty_value (e : pdEnvelope) : jval :=
  let p := pe_Payload e in
  VObj [("routing_key", VStr (pe_RoutingKey e)); ("event_action", VStr (EventAction e)); ("dedup_key", VStr (DedupKey e));
        ("payload", VObj ([("summary", VStr (pp_Summary p)); ("severity", VStr (pp_Severity p)); ("source", VStr (pp_Source p));
                           ("timestamp", VStr (pp_Timestamp p))]
                          ++ (if decide (CustomDetails p = ∅) then [] else [("custom_details", map_value (CustomDetails p))])))].

Definition pagerduty_status (r : http_result) : verdict :=
  match r with
  | RequestRefused => (false, false)
  | ExchangeFailed | Response _ None => (false, true)
  | Response code (Some _) =>
    if code =? 202 then (true, false) else if (code =? 429) || (500 <=? code) then (false, true) else (false, false)
  end.
Definition pagerduty_doPost (cfg : PagerDutyConfig) (payload : string) (w : W) : verdict * W :=
  let '(r, w) := http_do (mkRequest "POST" (pd_BaseUrl cfg) json_header payload (pd_Timeout cfg)) w in
  (pagerduty_status r, w).
Definition pagerduty_Forward (cfg : PagerDutyConfig) (event : Event) (w : W) : bool * W :=
  with_retries (pagerduty_doPost cfg (json_Marshal (pagerduty_value (pagerduty_toPayload cfg event)))) sleep (pd_MaxRetries cfg) w.

(** ** webapi.go *)
Record WebAPIConfig := mkWebAPIConfig {
  wa_URL : string; wa_Method : string; Headers : gomap string; wa_Timeout : Z; wa_MaxRetries : Z
}.

(** The tags of [types.Event]; empty optional fields are left out. *)
Definition event_value (e : Event) : jval :=
  VObj ([("event_time", VNum (itoa (EventTime e))); ("event_status", VStr (EventStatus e)); ("alert_key", VStr (AlertKey e));
         ("labels", gomap_value (Labels e))]
        ++ (if gomap_len (Attrs e) =? 0 then [] else [("attrs", gomap_value (Attrs e))])
        ++ [("description", VStr (Description e))]
        ++ (if decide (DescriptionFormat e = "") then [] else [("description_format", VStr (DescriptionFormat e))])).

(** [visit] is the order in which the loop meets the headers. *)
Variable visit : gmap string string -> list (string * string).

Definition webapi_headers (cfg : WebAPIConfig) : gmap string string :=
  fold_left (fun h '(k, v) => header_Set k v h) (visit (default ∅ (Headers cfg))) json_header.

(** The body is read up to a limit and its error is dropped. *)
Definition webapi_status (r : http_result) : verdict :=
  match r with
  | RequestRefused => (false, false)
  | ExchangeFailed => (false, true)
  | Response code _ =>
    if (200 <=? code) && (code <? 300) then (true, false)
    else if (code =? 429) || (500 <=? code) then (false, true) else (false, false)
  end.
Definition webapi_doRequest (cfg : WebAPIConfig) (payload : string) (w : W) : verdict * W :=
  let '(r, w) := http_do (mkRequest (wa_Method cfg) (wa_URL cfg) (webapi_headers cfg) payload (wa_Timeout cfg)) w in
  (webapi_status r, w).
Definition webapi_Forward (cfg : WebAPIConfig) (event : Event) (w : W) : bool * W :=
  with_retries (webapi_doRequest cfg (json_Marshal (event_value event))) sleep (wa_MaxRetries cfg) w.
End backends.

(** The path of the comment API, next to the path alerts go to.  [before] is
    [s[:strings.Index(s, sub)]]. *)
Fixpoint before (sub s : string) : option string :=
  if String.prefix sub s then Some ""
  else match s with "" => None | String c s' => String c <$> before sub s' end.
Definition alertPathMarker : string := "/event/push/alert/".
Definition commentPath : string := "/push/incident/comment-by-alert".
Definition deriveFlashdutyCommentPath (alertPath : string) : string :=
  match before alertPathMarker alertPath with
  | Some p => let prefix := TrimRight1 slash p in if decide (prefix = "") then commentPath else prefix +:+ commentPath
  | None => commentPath
  end.

(** ** console.go *)
Section console.
Variables (isTTY : bool) (zone : Z -> Z) (Language : option string).

Definition sgr (code : string) : string := String (byte 27) ("[" +:+ code +:+ "m").
Definition colorReset : string := sgr "0".
Definition colorRed : string := sgr "31".
Definition colorYellow : string := sgr "33".
Definition colorCyan : string := sgr "36".
Definition colorGreen : string := sgr "32".
Definition colorGray : string := sgr "90".
Definition colorBold : string := sgr "1".

Definition statusColor (status : string) : string :=
  if decide (status = EventStatusCritical) then colorRed
  else if decide (status = EventStatusWarning) then colorYellow
  else if decide (status = EventStatusInfo) then colorCyan
  else if decide (status = EventStatusOk) then colorGreen
  else colorReset.

Definition colorize (color text : string) : string := if isTTY then color +:+ text +:+ colorReset else text.

Definition omission (omitted : Z) : string :=
  if decide (Language = Some "zh") then newline +:+ "... [省略 " +:+ itoa omitted +:+ " 字符] ..." +:+ newline
  else newline +:+ "... [" +:+ itoa omitted +:+ " chars omitted] ..." +:+ newline.

Definition truncateHeadTail (s : string) (headRunes tailRunes : Z) : string :=
  let rs := runes s in
  let total := zlen rs in
  if total <=? headRunes + tailRunes then s
  else
    of_runes (take (Z.to_nat headRunes) rs) +:+ omission (total - headRunes - tailRunes)
    +:+ of_runes (drop (Z.to_nat (total - tailRunes)) rs).

Definition sortedKeys (m : gomap string) : list string := sort_Strings (map_to_list (default ∅ m)).*1.

Definition print_map (m : gomap string) : string :=
  foldr (fun k t => "    " +:+ colorize colorGray (k +:+ "=") +:+ gomap_get m k +:+ newline +:+ t) "" (sortedKeys m).

(** What is printed. *)
Definition printEvent (event : Event) : string :=
  let desc := truncateHeadTail (Description event) 500 200 in
  colorize colorGray (FormatDateTime zone (EventTime event)) +:+ "  "
  +:+ colorize (colorBold +:+ statusColor (EventStatus event)) (pad_right 8 (EventStatus event)) +:+ "  "
  +:+ colorize colorBold (AlertKey event) +:+ newline
  +:+ print_map (Labels event)
  +:+ (if 0 <? gomap_len (Attrs event) then print_map (Attrs event) else "")
  +:+ (if decide (desc <> "") then "    " +:+ desc +:+ newline else "").

Definition printComment (now : Z) (alertKey comment : string) : string :=
  colorize colorGray (FormatDateTime zone now) +:+ "  "
  +:+ colorize (colorBold +:+ colorCyan) (pad_right 8 "COMMENT") +:+ "  "
  +:+ colorize colorBold alertKey +:+ newline
  +:+ (if decide (comment <> "") then "    " +:+ comment +:+ newline else "").
End console.

(** ** The backends as notifiers *)
Class Terminal (W : Type) := { Print : string -> W -> W; now : W -> Z }.

Inductive backend :=
| ConsoleNotifier
| Flashduty (f : FlashdutyNotifier)
| PagerDuty (cfg : PagerDutyConfig)
| WebAPI (cfg : WebAPIConfig).

Section notifiers.
Context {W : Type} `{!HttpClient W, !Terminal W}.
Variables (isTTY : bool) (zone : Z -> Z) (Language : option string).
Variable visit : gmap string string -> list (string * string).

Definition backend_Name (b : backend) : string :=
  match b with
  | ConsoleNotifier => "console" | Flashduty _ => "flashduty" | PagerDuty _ => "pagerduty" | WebAPI _ => "webapi"
  end.
Definition backend_Forward (b : backend) (event : Event) (w : W) : bool * W :=
  match b with
  | ConsoleNotifier => (true, Print (printEvent isTTY zone Language event) w)
  | Flashduty f => flashduty_Forward f event w
  | PagerDuty cfg => pagerduty_Forward cfg event w
  | WebAPI cfg => webapi_Forward visit cfg event w
  end.
(** PagerDuty and the web API take no comments. *)
Definition backend_Comment (b : backend) : option (string -> string -> W -> bool * W) :=
  match b with
  | ConsoleNotifier => Some (fun alertKey comment w => (true, Print (printComment isTTY zone (now w) alertKey comment) w))
  | Flashduty f => Some (flashduty_Comment f)
  | _ => None
  end.

(** Every backend has a world of its own: its connections and its answers. *)
#[export] Instance backend_notifier : Notifier (backend * W) := {
  Name n := backend_Name n.1;
  notifier_Forward n event := let '(ok, w) := backend_Forward n.1 event n.2 in (ok, (n.1, w));
  notifier_Comment n := (fun f alertKey comment => let '(ok, w) := f alertKey comment n.2 in (ok, (n.1, w))) <$> backend_Comment n.1
}.
End notifiers.
