(* ===== verification/BackendsProps.v ===== *)
(** * Properties of the notification backends

    What is sent, how often and when, on a network that answers from a script;
    and what the receiver can read back from the body. *)
From S2P Require Import Prelude GoStr GoConv GoFmt GoJson GoJsonProps Types Notify Backends.
#[local] Open Scope Z_scope.

(** ** A network that answers from a script and keeps a log *)
Inductive op := OSend (req : http_request) | OSleep (d : Z) | OPrint (s : string).
Record net := mkNet { script : list http_result; log : list op; clock : Z }.

Definition next_answer (script : list http_result) : http_result := default ExchangeFailed (head script).

#[export] Instance net_http : HttpClient net := {
  http_do req w := (next_answer (script w), mkNet (tail (script w)) (log w ++ [OSend req]) (clock w));
  sleep d w := mkNet (script w) (log w ++ [OSleep d]) (clock w + d)
}.
#[export] Instance net_terminal : Terminal net := {
  Print s w := mkNet (script w) (log w ++ [OPrint s]) (clock w);
  now w := clock w / Second
}.

(** The log of [k] attempts from number [i] on: a pause of [i] seconds before
    every attempt but the first. *)
Fixpoint tried (req : http_request) (i : Z) (k : nat) : list op :=
  match k with
  | O => []
  | S k' => (if 0 <? i then [OSleep (i * Second)] else []) ++ OSend req :: tried req (i + 1) k'
  end.

Definition answer_at (w : net) (i : nat) : http_result := default ExchangeFailed (script w !! i).

(** What a delivery of at most [n] attempts does: [k] attempts with the same
    request, all but the last answered by a retryable failure; fewer than [n]
    only when the last answer is final. *)
Record delivery (req : http_request) (status : http_result -> verdict) (n k : nat) (w w' : net) (ok : bool) : Prop := {
  d_log : log w' = log w ++ tried req 0 k;
  d_script : script w' = drop k (script w);
  d_bound : (k <= n)%nat;
  d_some : (0 < n)%nat -> (0 < k)%nat;
  d_retry : forall i, (S i < k)%nat -> status (answer_at w i) = (false, true);
  d_final : (k < n)%nat -> status (answer_at w (pred k)) <> (false, true);
  d_ok : ok = true <-> (0 < k)%nat /\ (status (answer_at w (pred k))).1 = true
}.

Section delivery.
Variables (req : http_request) (status : http_result -> verdict).
Let post (w : net) : verdict * net := let '(r, w) := http_do req w in (status r, w).

Lemma post_eq w : post w = (status (answer_at w 0), mkNet (drop 1 (script w)) (log w ++ [OSend req]) (clock w)).
Proof. unfold post; cbn. unfold next_answer, answer_at. by destruct (script w). Qed.

Lemma attempts_run n : forall attempt w, 0 <= attempt ->
  let '(ok, w') := attempts post sleep n attempt w in
  exists k, log w' = log w ++ tried req attempt k /\ script w' = drop k (script w) /\ (k <= n)%nat /\ ((0 < n)%nat -> (0 < k)%nat) /\
    (forall i, (S i < k)%nat -> status (answer_at w i) = (false, true)) /\
    ((k < n)%nat -> status (answer_at w (pred k)) <> (false, true)) /\
    (ok = true <-> (0 < k)%nat /\ (status (answer_at w (pred k))).1 = true).
Proof.
  induction n as [|n IH]; intros attempt w Ha; cbn [attempts].
  { exists O. cbn. rewrite app_nil_r. split_and!; try done; lia. }
  set (w1 := if 0 <? attempt then sleep (attempt * Second) w else w).
  assert (script w1 = script w) as Es by (unfold w1; by destruct (0 <? attempt)).
  assert (log w1 = log w ++ (if 0 <? attempt then [OSleep (attempt * Second)] else [])) as El.
  { unfold w1. destruct (0 <? attempt); cbn; by rewrite ?app_nil_r. }
  assert (forall i, answer_at w1 i = answer_at w i) as Ea by (intros i; unfold answer_at; by rewrite Es).
  rewrite post_eq, Ea, Es, El. destruct (status (answer_at w 0)) as [ok retryable] eqn:Est.
  assert (forall b, (b = true <-> (0 < 1)%nat /\ ok = true) -> retryable && negb ok = false ->
    exists k : nat, (log w ++ (if 0 <? attempt then [OSleep (attempt * Second)] else [])) ++ [OSend req] = log w ++ tried req attempt k
      /\ drop 1 (script w) = drop k (script w) /\ (k <= S n)%nat /\ ((0 < S n)%nat -> (0 < k)%nat)
      /\ (forall i, (S i < k)%nat -> status (answer_at w i) = (false, true))
      /\ ((k < S n)%nat -> status (answer_at w (pred k)) <> (false, true))
      /\ (b = true <-> (0 < k)%nat /\ (status (answer_at w (pred k))).1 = true)) as Hstop.
  { intros b Hb Hr. exists 1%nat. cbn [tried pred]. rewrite Est, <- app_assoc. split_and!; try done; try lia. by intros _ [= -> ->]. }
  destruct ok; [|destruct retryable].
  - cbn [script log]. apply Hstop; [split; [split; [lia|done]|done]|]. by destruct retryable.
  - cbn [negb]. specialize (IH (attempt + 1) (mkNet (drop 1 (script w)) ((log w ++ (if 0 <? attempt then [OSleep (attempt * Second)] else [])) ++ [OSend req]) (clock w1)) ltac:(lia)).
    destruct (attempts post sleep n _ _) as [b w'].
    destruct IH as (k & Hlog & Hscript & Hk & Hk0 & Hretry & Hfinal & Hok). cbn [script log] in *.
    assert (forall i, answer_at (mkNet (drop 1 (script w)) ((log w ++ (if 0 <? attempt then [OSleep (attempt * Second)] else [])) ++ [OSend req]) (clock w1)) i
      = answer_at w (S i)) as Hs by (intros i; unfold answer_at; cbn [script]; by rewrite lookup_drop).
    setoid_rewrite Hs in Hretry. rewrite Hs in Hfinal, Hok.
    exists (S k). cbn [tried]. split_and!.
    + rewrite Hlog, <- !app_assoc. done.
    + by rewrite Hscript, drop_drop.
    + lia.
    + lia.
    + intros [|i] Hi; [done|]. apply Hretry. lia.
    + destruct k as [|k]; [lia|]. cbn [pred] in *. intros. apply Hfinal. lia.
    + destruct k as [|k]; [|cbn [pred] in *; rewrite Hok; split; intros [? ?]; (split; [lia|done])].
      cbn [pred]. rewrite Est. rewrite Hok. cbn. split; [lia|]. by intros [_ ?].
  - cbn [negb script log]. apply Hstop; [|done]. split; [done|]. by intros [_ ?].
Qed.

Lemma retries_deliver MaxRetries w : exists k,
  let '(ok, w') := with_retries post sleep MaxRetries w in
  delivery req status (Z.to_nat (MaxRetries + 1)) k w w' ok.
Proof.
  unfold with_retries. pose proof (attempts_run (Z.to_nat (MaxRetries + 1)) 0 w ltac:(lia)) as H.
  destruct (attempts post sleep _ 0 w) as [ok w']. destruct H as (k & ? & ? & ? & ? & ? & ? & ?).
  exists k. by constructor.
Qed.
End delivery.

(** ** The request, the verdict and the attempts of a backend *)
Section backend_spec.
Variable visit : gmap string string -> list (string * string).

Definition request_body (b : backend) (event : Event) : jval :=
  match b with
  | ConsoleNotifier => VNull
  | Flashduty _ => flashduty_value (flashduty_toPayload event)
  | PagerDuty cfg => pagerduty_value (pagerduty_toPayload cfg event)
  | WebAPI _ => event_value event
  end.
Definition request_of (b : backend) (event : Event) : http_request :=
  let body := json_Marshal (request_body b event) in
  match b with
  | ConsoleNotifier => mkRequest "" "" ∅ "" 0
  | Flashduty f => mkRequest "POST" (fd_url f) json_header body (fd_Timeout (fd_cfg f))
  | PagerDuty cfg => mkRequest "POST" (pd_BaseUrl cfg) json_header body (pd_Timeout cfg)
  | WebAPI cfg => mkRequest (wa_Method cfg) (wa_URL cfg) (webapi_headers visit cfg) body (wa_Timeout cfg)
  end.
Definition status_of (b : backend) : http_result -> verdict :=
  match b with
  | ConsoleNotifier => fun _ => (true, false)
  | Flashduty _ => flashduty_status
  | PagerDuty _ => pagerduty_status
  | WebAPI _ => webapi_status
  end.
Definition retries_of (b : backend) : Z :=
  match b with
  | ConsoleNotifier => 0
  | Flashduty f => fd_MaxRetries (fd_cfg f)
  | PagerDuty cfg => pd_MaxRetries cfg
  | WebAPI cfg => wa_MaxRetries cfg
  end.
End backend_spec.

(** Which answers a backend accepts, and which it takes for passing trouble: a
    failed exchange, a server error, a body that breaks off (a web API ignores
    its body) and, except for FlashDuty, a rate limit. *)
Definition accepts (b : backend) (r : http_result) : Prop :=
  match b, r with
  | Flashduty _, Response code (Some _) => code < 400
  | PagerDuty _, Response code (Some _) => code = 202
  | WebAPI _, Response code _ => 200 <= code < 300
  | _, _ => False
  end.
Definition transient (b : backend) (r : http_result) : Prop :=
  match b, r with
  | _, RequestRefused => False
  | _, ExchangeFailed => True
  | Flashduty _, Response code (Some _) => 500 <= code
  | WebAPI _, Response code _ => code = 429 \/ 500 <= code
  | _, Response _ None => True
  | _, Response code (Some _) => code = 429 \/ 500 <= code
  end.

Lemma status_of_spec b r : b <> ConsoleNotifier ->
  ((status_of b r).1 = true <-> accepts b r) /\ (status_of b r = (false, true) <-> transient b r).
Proof.
  intros Hb. destruct b as [|f|cfg|cfg]; [done|..]; destruct r as [| |code [body|]]; cbn;
    unfold flashduty_status, pagerduty_status, webapi_status; repeat case_match; zbool; cbn; intuition (try done; try lia).
Qed.

(** C24: Delivering an event over HTTP sends one and the same request at most
    [MaxRetries + 1] times, waits [i] seconds before retry [i] and never before
    the first attempt, goes on only after an answer its backend takes for
    passing trouble, and succeeds exactly when it accepts the last answer. *)
Theorem backend_Forward_delivery isTTY zone Language visit (b : backend) (event : Event) (w : net) :
  b <> ConsoleNotifier ->
  (exists k,
    let '(ok, w') := backend_Forward isTTY zone Language visit b event w in
    delivery (request_of visit b event) (status_of b) (Z.to_nat (retries_of b + 1)) k w w' ok)
  /\ forall r, ((status_of b r).1 = true <-> accepts b r) /\ (status_of b r = (false, true) <-> transient b r).
Proof. intros Hb. split; [destruct b; [done|apply retries_deliver..]|]. intros r. by apply status_of_spec. Qed.

(** ** What the receiver reads *)

Definition utf8_map (m : gmap string string) : Prop := map_Forall (fun k v => utf8 k /\ utf8 v) m.
Record utf8_event (e : Event) : Prop := {
  u_status : utf8 (EventStatus e);
  u_key : utf8 (AlertKey e);
  u_desc : utf8 (Description e);
  u_format : utf8 (DescriptionFormat e);
  u_labels : utf8_map (default ∅ (Labels e));
  u_attrs : utf8_map (default ∅ (Attrs e))
}.

Lemma utf8_nil : utf8 "".
Proof. exists []. by split; [constructor|]. Qed.

Lemma of_runes_app l k : of_runes (l ++ k) = of_runes l +:+ of_runes k.
Proof. induction l as [|r l IH]; cbn; [done|]. by rewrite IH, string_app_assoc. Qed.

Lemma utf8_app s t : utf8 s -> utf8 t -> utf8 (s +:+ t).
Proof.
  intros (rs & Hrs & ->) (ts & Hts & ->). exists (rs ++ ts). by rewrite Forall_app, of_runes_app.
Qed.

Lemma map_value_ok d m : utf8_map m -> json_ok (S d) (map_value m).
Proof.
  intros Hm. constructor. apply Forall_map, Forall_forall. intros k Hk. cbn.
  rewrite sort_Strings_perm in Hk. apply list_elem_of_fmap in Hk as ([k' v] & -> & Hin). apply elem_of_map_to_list in Hin.
  cbn. rewrite Hin. destruct (Hm _ _ Hin). split; [done|by constructor].
Qed.

Lemma map_value_pairs (m : gmap string string) :
  map (fun k => (k, VStr (default "" (m !! k)))) (sort_Strings (map_to_list m).*1) ≡ₚ map (prod_map id VStr) (map_to_list m).
Proof.
  rewrite sort_Strings_perm, <- list_fmap_compose.
  erewrite (list_fmap_ext _ (prod_map id VStr)); [done|]. intros i [k v] Hin%list_elem_of_lookup_2%elem_of_map_to_list. cbn. by rewrite Hin.
Qed.

Lemma map_value_inj m1 m2 : map_value m1 = map_value m2 -> m1 = m2.
Proof.
  intros [= H]. pose proof (map_value_pairs m1) as H1. rewrite H, (map_value_pairs m2) in H1.
  set (back := prod_map id (fun v => match v with VStr s => s | _ => "" end) : string * jval -> string * string).
  assert (forall l : list (string * string), map back (map (prod_map id VStr) l) = l) as Hb.
  { intros l. rewrite map_map. rewrite <- (map_id l) at 2. apply map_ext. by intros []. }
  apply map_to_list_inj. rewrite <- (Hb (map_to_list m1)), <- (Hb (map_to_list m2)). by rewrite H1.
Qed.

(** *** The labels of FlashDuty *)
Section attr_fold.
Variable labels : gmap string string.
Let add := fun '(k, v) (acc : gmap string string) => <[flashdutyAttrPrefix +:+ k := v]> acc.

Lemma attr_fold_in (l : list (string * string)) k v : NoDup l.*1 -> (k, v) ∈ l -> foldr add labels l !! (flashdutyAttrPrefix +:+ k) = Some v.
Proof.
  induction l as [|[k' v'] l IH]; intros Hnd Hin; [by apply not_elem_of_nil in Hin|].
  cbn [foldr]. apply NoDup_cons in Hnd as [Hk' Hnd]. unfold add at 1.
  apply elem_of_cons in Hin as [[= -> ->]|Hin]; [by rewrite lookup_insert_eq|].
  rewrite lookup_insert_ne; [by apply IH|]. intros E%(inj _). subst. apply Hk'. apply list_elem_of_fmap. by exists (k, v).
Qed.
Lemma attr_fold_out (l : list (string * string)) k : (forall k', k = flashdutyAttrPrefix +:+ k' -> k' ∉ l.*1) -> foldr add labels l !! k = labels !! k.
Proof.
  induction l as [|[k' v'] l IH]; intros Hout; [done|]. cbn [foldr]. unfold add at 1.
  rewrite lookup_insert_ne; [apply IH|].
  - intros k2 E Hin. apply (Hout k2 E). by right.
  - intros E. apply (Hout k' (eq_sym E)). by left.
Qed.
End attr_fold.

Definition attr_key (k : string) : Prop := exists k', k = flashdutyAttrPrefix +:+ k'.

Lemma attr_labels_attr attrs labels k :
  attr_labels attrs labels !! (flashdutyAttrPrefix +:+ k)
    = match default ∅ attrs !! k with Some v => Some v | None => labels !! (flashdutyAttrPrefix +:+ k) end.
Proof.
  destruct attrs as [m|]; cbn; [|by rewrite lookup_empty]. destruct (m !! k) as [v|] eqn:E.
  - apply attr_fold_in; [apply NoDup_fst_map_to_list|by apply elem_of_map_to_list].
  - apply attr_fold_out. intros k' Ek Hin. apply (inj _) in Ek as <-.
    apply list_elem_of_fmap in Hin as ([k2 v] & -> & Hin%elem_of_map_to_list). cbn in *. congruence.
Qed.
Lemma attr_labels_plain attrs labels k : ~ attr_key k -> attr_labels attrs labels !! k = labels !! k.
Proof.
  intros Hk. destruct attrs as [m|]; [|done]. apply attr_fold_out. intros k' E. destruct Hk. by exists k'.
Qed.

Lemma copy_into_empty src : copy_into src ∅ = default ∅ src.
Proof. destruct src; cbn; [apply (right_id_L ∅ (∪))|done]. Qed.

Lemma prefix_split p s : String.prefix p s = true -> exists t, s = p +:+ t.
Proof.
  revert s. induction p as [|c p IH]; intros s; [by exists s|]. destruct s as [|c' s]; [done|].
  cbn. destruct (ascii_dec c c') as [->|]; [|done]. intros [t ->]%IH. by exists t.
Qed.
Lemma prefix_app_self p t : String.prefix p (p +:+ t) = true.
Proof. induction p as [|c p IH]; [by destruct t|]. rewrite sapp_cons. cbn. by destruct (ascii_dec c c). Qed.

(** No label looks like an attribute. *)
Definition plain_labels (e : Event) : Prop := forall k, attr_key k -> default ∅ (Labels e) !! k = None.

Lemma flashduty_labels_inj e1 e2 : plain_labels e1 -> plain_labels e2 ->
  fp_Labels (flashduty_toPayload e1) = fp_Labels (flashduty_toPayload e2) ->
  default ∅ (Labels e1) = default ∅ (Labels e2) /\ default ∅ (Attrs e1) = default ∅ (Attrs e2).
Proof.
  cbn. rewrite !copy_into_empty. intros H1 H2 H. split; apply map_eq; intros k.
  - assert (attr_key k \/ ~ attr_key k) as [Hk|Hk].
    { destruct (decide (String.prefix flashdutyAttrPrefix k = true)) as [Hp|Hp].
      - left. by apply prefix_split.
      - right. intros [t ->]. apply Hp, prefix_app_self. }
    + by rewrite H1, H2.
    + by rewrite <- (attr_labels_plain (Attrs e1)), H, attr_labels_plain.
  - pose proof (attr_labels_attr (Attrs e1) (default ∅ (Labels e1)) k) as E1. rewrite H, attr_labels_attr, H1, H2 in E1 by by exists k.
    by destruct (default ∅ (Attrs e1) !! k), (default ∅ (Attrs e2) !! k).
Qed.

(** *** Bodies *)

Lemma utf8_ascii s : ValidString s = true -> utf8 s.
Proof. apply ValidString_utf8. Qed.
Ltac utf8_const := apply utf8_ascii; vm_compute; reflexivity.

Lemma utf8_map_insert m k v : utf8 k -> utf8 v -> utf8_map m -> utf8_map (<[k:=v]> m).
Proof. intros. by apply map_Forall_insert_2. Qed.

Lemma attr_labels_utf8 attrs labels : utf8_map (default ∅ attrs) -> utf8_map labels -> utf8_map (attr_labels attrs labels).
Proof.
  intros Ha Hl. destruct attrs as [m|]; [|done]. cbn in *.
  assert (Forall (fun '(k, v) => utf8 k /\ utf8 v) (map_to_list m)) as Hm.
  { apply Forall_forall. intros [k v] Hin%elem_of_map_to_list. by apply (Ha k v). }
  induction Hm as [|[k v] l [Hk Hv] Hm IH]; [done|]. cbn [foldr].
  apply utf8_map_insert; [apply utf8_app; [utf8_const|done]|done..].
Qed.

Lemma flashduty_body_ok e : utf8_event e -> json_ok 2 (flashduty_value (flashduty_toPayload e)).
Proof.
  intros [Hs Hk Hd Hf Hl Ha]. unfold flashduty_value, flashduty_toPayload; cbn [fp_EventTime fp_EventStatus fp_AlertKey fp_Labels fp_TitleRule fp_Description].
  constructor. repeat apply Forall_cons_2; try apply Forall_nil_2; cbn [fst snd]; (split; [utf8_const|]).
  - constructor.
  - by constructor.
  - by constructor.
  - apply map_value_ok. rewrite copy_into_empty. by apply attr_labels_utf8.
  - constructor. case_decide; utf8_const.
  - constructor. case_decide; [|done]. apply utf8_app; [utf8_const|done].
Qed.

Lemma event_body_ok e : utf8_event e -> json_ok 2 (event_value e).
Proof.
  intros [Hs Hk Hd Hf Hl Ha]. unfold event_value.
  assert (forall m, utf8_map (default ∅ m) -> json_ok 1 (gomap_value m)) as Hm.
  { intros [m|] H; [by apply map_value_ok|constructor]. }
  constructor. apply Forall_app; split; [|apply Forall_app; split; [|apply Forall_app; split]].
  - repeat apply Forall_cons_2; try apply Forall_nil_2; cbn [fst snd]; (split; [utf8_const|]); try by constructor. by apply Hm.
  - destruct (gomap_len _ =? 0); [done|]. constructor; [|done]. split; [utf8_const|by apply Hm].
  - constructor; [|done]. split; [utf8_const|by constructor].
  - case_decide; [done|]. constructor; [|done]. split; [utf8_const|by constructor].
Qed.

(** FlashDuty and a web API read the body back as the value that was written. *)
Lemma body_reads_back (b : backend) (event : Event) : (forall cfg, b <> PagerDuty cfg) -> utf8_event event ->
  json_Unmarshal (json_Marshal (request_body b event)) = Some (request_body b event).
Proof.
  intros Hb He. apply Marshal_Unmarshal, (json_ok_mono 2); [|by apply Nat.leb_le].
  destruct b; [constructor|by apply flashduty_body_ok|by destruct (Hb cfg)|by apply event_body_ok].
Qed.

(** What FlashDuty receives determines the alert: two events whose bodies are
    equal agree on time, status, alert key, labels and attributes, provided no
    label is named like an attribute. *)
Theorem flashduty_body_determines_event (f1 f2 : FlashdutyNotifier) (url1 url2 : gmap string string -> list (string * string)) (e1 e2 : Event) :
  utf8_event e1 -> utf8_event e2 -> plain_labels e1 -> plain_labels e2 ->
  req_Body (request_of url1 (Flashduty f1) e1) = req_Body (request_of url2 (Flashduty f2) e2) ->
  EventTime e1 = EventTime e2 /\ EventStatus e1 = EventStatus e2 /\ AlertKey e1 = AlertKey e2
  /\ default ∅ (Labels e1) = default ∅ (Labels e2) /\ default ∅ (Attrs e1) = default ∅ (Attrs e2).
Proof.
  intros U1 U2 P1 P2 E. cbn [request_of req_Body] in E.
  assert (request_body (Flashduty f1) e1 = request_body (Flashduty f2) e2) as [= Et Es Ek El _ _].
  { apply (inj Some). rewrite <- (body_reads_back (Flashduty f1)), <- (body_reads_back (Flashduty f2)) by done. by rewrite E. }
  assert (fp_Labels (flashduty_toPayload e1) = fp_Labels (flashduty_toPayload e2)) as HL
    by (apply map_value_inj; unfold map_value; f_equal; exact El).
  split; [by apply (inj pretty)|]. split; [done|]. split; [done|]. by apply flashduty_labels_inj.
Qed.

(** PagerDuty's summary has at most 1024 bytes, its source is never empty, an
    alert is resolved exactly by an [Ok] event, and in the details attributes win
    over labels of the same name. *)
Theorem pagerduty_payload_fields (cfg : PagerDutyConfig) (e : Event) (k : string) :
  let envelope := pagerduty_toPayload cfg e in
  let p := pe_Payload envelope in
  slen (pp_Summary p) <= 1024 /\ pp_Source p <> ""
  /\ (EventAction envelope = "resolve" <-> EventStatus e = EventStatusOk)
  /\ DedupKey envelope = AlertKey e
  /\ CustomDetails p !! k = match default ∅ (Attrs e) !! k with Some v => Some v | None => default ∅ (Labels e) !! k end.
Proof.
  cbn zeta. unfold pagerduty_toPayload. cbn [pe_Payload pp_Summary pp_Source EventAction DedupKey CustomDetails]. split_and!.
  - destruct (1024 <? slen _) eqn:E; zbool; [|done]. rewrite slen_stake. lia.
  - repeat case_decide; done.
  - by case_decide.
  - done.
  - rewrite copy_into_empty. destruct (Attrs e) as [m|]; cbn; [|by rewrite lookup_empty].
    rewrite lookup_union. destruct (m !! k), (default ∅ (Labels e) !! k); done.
Qed.

(** A summary that is cut at 1024 bytes may end inside a rune. *)
Definition wide_event : Event :=
  mkEvent 0 EventStatusWarning "k" (Some {["check" := "disk"]}) None (of_runes (replicate 400 30913)) "" 0 0 0.
Example pagerduty_summary_splits_rune cfg :
  ValidString (Description wide_event) = true /\ ValidString (pp_Summary (pe_Payload (pagerduty_toPayload cfg wide_event))) = false.
Proof. split; vm_compute; reflexivity. Qed.

(** A blank comment is not sent; another is sent trimmed, to the comment API. *)
Theorem flashduty_Comment_delivery (f : FlashdutyNotifier) (alertKey comment : string) (w : net) :
  (TrimSpace comment = "" -> flashduty_Comment f alertKey comment w = (false, w))
  /\ (TrimSpace comment <> "" -> exists k,
      let '(ok, w') := flashduty_Comment f alertKey comment w in
      delivery (mkRequest "POST" (fd_commentURL f) json_header (json_Marshal (comment_value alertKey (TrimSpace comment))) (fd_Timeout (fd_cfg f)))
        flashduty_status (Z.to_nat (fd_MaxRetries (fd_cfg f) + 1)) k w w' ok).
Proof.
  unfold flashduty_Comment. split; intros H; [by rewrite decide_True|]. rewrite decide_False by done. apply retries_deliver.
Qed.

(** ** The console *)

(** A long text of whole runes keeps its first [headRunes] and its last
    [tailRunes] runes, and the omission says how many are missing. *)
Theorem truncateHeadTail_keeps_ends Language (head middle tail : list Z) :
  Forall (fun r => ValidRune r = true) (head ++ middle ++ tail) -> middle <> [] ->
  truncateHeadTail Language (of_runes (head ++ middle ++ tail)) (zlen head) (zlen tail)
    = of_runes head +:+ omission Language (zlen middle) +:+ of_runes tail.
Proof.
  intros Hv Hm. unfold truncateHeadTail. rewrite runes_of_runes by done. autorewrite with len.
  assert (0 < zlen middle) by (destruct middle; [done|rewrite zlen_cons; pose proof (zlen_nonneg middle); lia]).
  destruct (Z.leb_spec (zlen head + (zlen middle + zlen tail)) (zlen head + zlen tail)); [lia|].
  rewrite zlen_to_nat, take_app_length. f_equal. f_equal; [f_equal; lia|].
  f_equal. rewrite app_assoc. apply drop_app_length'. rewrite length_app. unfold zlen. lia.
Qed.

(** ** The headers of a web API request *)

(** The order in which the loop meets the headers is seen only when two of them
    have the same canonical name. *)
Lemma webapi_headers_order visit1 visit2 cfg :
  let m := default ∅ (Headers cfg) in
  visit1 m ≡ₚ map_to_list m -> visit2 m ≡ₚ map_to_list m ->
  NoDup (map (fun p => CanonicalMIMEHeaderKey p.1) (map_to_list m)) ->
  webapi_headers visit1 cfg = webapi_headers visit2 cfg.
Proof.
  intros m H1 H2 Hnd. unfold webapi_headers. fold m. rewrite <- H2 in H1.
  assert (NoDup (map (fun p => CanonicalMIMEHeaderKey p.1) (visit1 m))) as Hnd1 by (by rewrite H1, H2).
  revert H1 Hnd1. generalize (visit1 m), (visit2 m), json_header. clear.
  intros l k h Hp. revert h. induction Hp as [|[a b] l k Hp IH|[a b] [c d] l|l k n Hp1 IH1 Hp2 IH2]; intros h Hnd; [done| | |].
  - cbn. apply IH. by apply NoDup_cons in Hnd as [_ ?].
  - cbn. unfold header_Set. rewrite insert_insert_ne; [done|]. apply NoDup_cons in Hnd as [Hx _]. cbn in Hx. intros E. apply Hx. rewrite E. by left.
  - rewrite IH1 by done. apply IH2. by rewrite <- Hp1.
Qed.

Example derive_ex :
  deriveFlashdutyCommentPath "/event/push/alert/standard" = commentPath
  /\ deriveFlashdutyCommentPath "/proxy//event/push/alert/standard" = "/proxy/push/incident/comment-by-alert"
  /\ deriveFlashdutyCommentPath "/custom" = commentPath.
Proof. split_and!; reflexivity. Qed.

(** ** Witnesses *)
Definition ex_event : Event :=
  mkEvent 1700000000 EventStatusCritical "k1" (Some {["check" := "disk"; "from_hostip" := "10.0.0.1"]}) (Some {["current_value" := "97%"]})
    "disk is full" "" 0 0 0.
Definition ex_pagerduty : backend := PagerDuty (mkPagerDutyConfig "rk" "https://events.pagerduty.com/v2/enqueue" None (10 * Second) 3).
Definition ex_net : net := mkNet [Response 429 (Some "slow down"); ExchangeFailed; Response 202 (Some "{}")] [] 0.

Lemma backend_Forward_delivery_witness :
  let req := request_of map_to_list ex_pagerduty ex_event in
  backend_Forward false (fun _ => 0) None map_to_list ex_pagerduty ex_event ex_net
    = (true, mkNet [] [OSend req; OSleep Second; OSend req; OSleep (2 * Second); OSend req] (3 * Second))
  /\ exists k, let '(ok, w') := backend_Forward false (fun _ => 0) None map_to_list ex_pagerduty ex_event ex_net in
     delivery req (status_of ex_pagerduty) 4 k ex_net w' ok.
Proof.
  split; [vm_compute; reflexivity|].
  exact (proj1 (backend_Forward_delivery false (fun _ => 0) None map_to_list ex_pagerduty ex_event ex_net ltac:(discriminate))).
Defined.

Lemma ex_event_utf8 : utf8_event ex_event.
Proof.
  constructor; try (apply utf8_ascii; vm_compute; reflexivity); cbn;
    repeat (apply map_Forall_insert_2 || apply map_Forall_empty || apply map_Forall_singleton);
    try (split; apply utf8_ascii; vm_compute; reflexivity).
Qed.
Lemma ex_event_plain : plain_labels ex_event.
Proof. intros k [t ->]. reflexivity. Qed.

Lemma flashduty_body_determines_event_witness :
  let f := mkFlashdutyNotifier (mkFlashdutyConfig "ik" "" 0 1) "u" "c" in
  Labels ex_event <> None /\ EventTime ex_event = EventTime ex_event.
Proof.
  intros f. split; [discriminate|].
  exact (proj1 (flashduty_body_determines_event f f map_to_list map_to_list ex_event ex_event
    ex_event_utf8 ex_event_utf8 ex_event_plain ex_event_plain eq_refl)).
Defined.

Lemma truncateHeadTail_keeps_ends_witness :
  truncateHeadTail (Some "en") (of_runes ([20013; 25991] ++ [97; 98] ++ [30913])) 2 1
    = of_runes [20013; 25991] +:+ omission (Some "en") 2 +:+ of_runes [30913].
Proof.
  apply (truncateHeadTail_keeps_ends (Some "en") [20013; 25991] [97; 98] [30913]); [repeat constructor|discriminate].
Defined.
