(* ===== verification/Config.v ===== *)
(** * Configuration (digcore/config/config.go and inline.go)

    The alerting and diagnosis settings of an instance, the AI configuration
    with its defaults and its validation.  [Duration] values are nanoseconds.
    The environment lookups and the rest of the loading are in ConfigLoad. *)
From S2P Require Import Prelude Types.
#[local] Open Scope Z_scope.
#[local] Open Scope go_scope.

(** ** Per-instance settings (inline.go) *)
Record Alerting := mkAlerting {
  Disabled : bool;
  ForDuration : Z;
  RepeatInterval : Z;
  RepeatNumber : Z;
  DisableRecoveryNotification : bool
}.

Record DiagnoseConfig := mkDiagnoseConfig {
  diag_Enabled : bool;
  MinSeverity : string;
  diag_Timeout : Z;
  diag_Cooldown : Z
}.

(** ** The AI configuration (config.go) *)

(** A decoded TOML value: only strings are looked into. *)
Inductive anyval := AStr (s : string) | AOther.

Record ModelConfig := mkModelConfig {
  Provider : string;
  model_BaseURL : string;
  APIKey : string;
  Model : string;
  MaxTokens : Z;
  MaxCompletionTokens : Z;
  ContextWindow : Z;
  InputPrice : spec_float;
  OutputPrice : spec_float;
  ExtraBody : gomap anyval
}.

(** The zero value [ModelConfig{}]. *)
Definition zero_ModelConfig : ModelConfig :=
  mkModelConfig "" "" "" "" 0 0 0 f64_zero f64_zero None.

Record GatewayConfig := mkGatewayConfig {
  gw_Enabled : bool;
  gw_BaseURL : string;
  AgentToken : string;
  gw_RequestTimeout : Z;
  gw_MaxRetries : Z;
  FallbackToDirect : bool
}.

Record AIConfig := mkAIConfig {
  ai_Enabled : bool;
  ModelPriority : list string;
  Models : gmap string ModelConfig;
  Gateway : GatewayConfig;
  MaxRounds : Z;
  RequestTimeout : Z;
  MaxRetries : Z;
  RetryBackoff : Z;
  MaxConcurrentDiagnoses : Z;
  QueueFullPolicy : string;
  DailyTokenLimit : Z;
  ToolTimeout : Z;
  AggregateWindow : Z;
  DiagnoseRetention : Z;
  DiagnoseMaxCount : Z;
  Language : string
}.

Definition ExtraStr (m : ModelConfig) (key : string) : string :=
  match ExtraBody m with
  | None => ""
  | Some b => match b !! key with Some (AStr s) => s | _ => "" end
  end.

(** [len(c.ModelPriority) == 0 || len(c.Models) == 0]. *)
Definition no_models (c : AIConfig) : bool :=
  bool_decide (ModelPriority c = []) || bool_decide (Models c = ∅).

Definition PrimaryModelName (c : AIConfig) : string :=
  if no_models c then "" else default "" (head (ModelPriority c)).

Definition PrimaryModel (c : AIConfig) : ModelConfig :=
  if no_models c then zero_ModelConfig
  else default zero_ModelConfig (Models c !! default "" (head (ModelPriority c))).

Definition ContextWindowLimit (c : AIConfig) : Z :=
  if no_models c then 0
  else
    let cw := ContextWindow (PrimaryModel c) in
    let cw := if cw <=? 0 then 128000 else cw in
    go_div (cw ⊠ 80) 100.

(** The model loop of [applyDefaults]. *)
Definition model_defaults (m : ModelConfig) : ModelConfig :=
  mkModelConfig (Provider m) (model_BaseURL m) (APIKey m) (Model m)
    (if (MaxTokens m <=? 0) && (MaxCompletionTokens m <=? 0) then 4000 else MaxTokens m)
    (MaxCompletionTokens m)
    (if ContextWindow m <=? 0 then 128000 else ContextWindow m)
    (InputPrice m) (OutputPrice m) (ExtraBody m).

Definition gateway_defaults (g : GatewayConfig) : GatewayConfig :=
  mkGatewayConfig (gw_Enabled g) (gw_BaseURL g) (AgentToken g)
    (if gw_RequestTimeout g =? 0 then 30 * Second else gw_RequestTimeout g)
    (if gw_Enabled g && (gw_MaxRetries g =? 0) then 1 else gw_MaxRetries g)
    (FallbackToDirect g).

Definition applyDefaults (c : AIConfig) : AIConfig :=
  mkAIConfig (ai_Enabled c) (ModelPriority c)
    (model_defaults <$> Models c)
    (gateway_defaults (Gateway c))
    (if MaxRounds c <=? 0 then 15 else MaxRounds c)
    (if RequestTimeout c =? 0 then 60 * Second else RequestTimeout c)
    (if (MaxRetries c =? 0) && ai_Enabled c then 2 else MaxRetries c)
    (if RetryBackoff c =? 0 then 2 * Second else RetryBackoff c)
    (if MaxConcurrentDiagnoses c <=? 0 then 3 else MaxConcurrentDiagnoses c)
    (if decide (QueueFullPolicy c = "") then "drop" else QueueFullPolicy c)
    (DailyTokenLimit c)
    (if ToolTimeout c =? 0 then 10 * Second else ToolTimeout c)
    (if AggregateWindow c =? 0 then 2 * Second else AggregateWindow c)
    (if DiagnoseRetention c =? 0 then 7 * 24 * 60 * Minute else DiagnoseRetention c)
    (if DiagnoseMaxCount c <=? 0 then 1000 else DiagnoseMaxCount c)
    (if decide (Language c = "") then "zh" else Language c).

(** The errors of [Validate], one constructor per message. *)
Inductive config_error :=
| GatewayBaseURLRequired
| GatewayMaxRetriesRange (n : Z)
| ModelPriorityRequired
| NoModelConfigured
| UnknownModel (name : string)
| BedrockModelRequired (name : string)
| BedrockRegionRequired (name : string)
| BaseURLRequired (name : string)
| APIKeyRequired (name : string)
| BadQueueFullPolicy (policy : string).

Definition validate_model (name : string) (m : ModelConfig) : option config_error :=
  if decide (Provider m = "bedrock") then
    if decide (Model m = "") then Some (BedrockModelRequired name)
    else if decide (ExtraStr m "aws_region" = "") then Some (BedrockRegionRequired name)
    else None
  else if decide (model_BaseURL m = "") then Some (BaseURLRequired name)
  else if decide (APIKey m = "") then Some (APIKeyRequired name)
  else None.

Fixpoint validate_priority (models : gmap string ModelConfig) (names : list string)
  : option config_error :=
  match names with
  | [] => None
  | name :: names' =>
    match models !! name with
    | None => Some (UnknownModel name)
    | Some m =>
      match validate_model name m with
      | Some e => Some e
      | None => validate_priority models names'
      end
    end
  end.

Definition validate_gateway (g : GatewayConfig) : option config_error :=
  if gw_Enabled g then
    if decide (gw_BaseURL g = "") then Some GatewayBaseURLRequired
    else if (gw_MaxRetries g <? 0) || (2 <? gw_MaxRetries g)
    then Some (GatewayMaxRetriesRange (gw_MaxRetries g))
    else None
  else None.

Definition validate_models (c : AIConfig) : option config_error :=
  if bool_decide (ModelPriority c = []) then Some ModelPriorityRequired
  else if bool_decide (Models c = ∅) then Some NoModelConfigured
  else validate_priority (Models c) (ModelPriority c).

(** [None] is the nil error. *)
Definition Validate (c : AIConfig) : option config_error :=
  if negb (ai_Enabled c) then None
  else
    let hasLocalModels := negb (bool_decide (Models c = ∅)) in
    let requireLocalModels :=
      negb (gw_Enabled (Gateway c)) || FallbackToDirect (Gateway c) || hasLocalModels in
    match validate_gateway (Gateway c) with
    | Some e => Some e
    | None =>
      match (if requireLocalModels then validate_models c else None) with
      | Some e => Some e
      | None =>
        if decide (QueueFullPolicy c <> "drop" /\ QueueFullPolicy c <> "wait")
        then Some (BadQueueFullPolicy (QueueFullPolicy c))
        else None
      end
    end.

(** ** Well-formed configurations *)

(** What the engine relies on at start-up. *)
Record ai_wf (c : AIConfig) : Prop := {
  wf_rounds : 0 < MaxRounds c;
  wf_concurrent : 0 < MaxConcurrentDiagnoses c;
  wf_tool : ToolTimeout c <> 0;
  wf_window : AggregateWindow c <> 0;
  wf_request : RequestTimeout c <> 0;
  wf_backoff : RetryBackoff c <> 0;
  wf_count : 0 < DiagnoseMaxCount c;
  wf_lang : Language c <> "";
  wf_retries : ai_Enabled c = true -> MaxRetries c <> 0;
  wf_models : map_Forall (fun _ m => 0 < ContextWindow m /\
                (0 < MaxTokens m \/ 0 < MaxCompletionTokens m)) (Models c)
}.

Lemma model_defaults_idem m : model_defaults (model_defaults m) = model_defaults m.
Proof.
  destruct m as [p b a mo t ct cw ip op eb]. unfold model_defaults; cbn.
  f_equal; repeat case_match; zbool; try done; try lia.
Qed.

Lemma gateway_defaults_idem g : gateway_defaults (gateway_defaults g) = gateway_defaults g.
Proof.
  destruct g as [e b t rt mr f]. unfold gateway_defaults, Second; cbn.
  f_equal; destruct e; cbn; repeat case_match; zbool; try done; try lia.
Qed.

Lemma validate_priority_spec models names :
  validate_priority models names = None <->
  Forall (fun n => exists m, models !! n = Some m /\ validate_model n m = None) names.
Proof.
  induction names as [|n names IH]; cbn; [split; [constructor|done]|].
  rewrite Forall_cons, <- IH. clear IH. split.
  - destruct (models !! n) as [m|] eqn:E; [|done].
    destruct (validate_model n m) eqn:Ev; [done|]. eauto.
  - by intros [(m & -> & ->) ?].
Qed.

Lemma validate_model_sound n m :
  validate_model n m = None ->
  (Provider m = "bedrock" -> Model m <> "" /\ ExtraStr m "aws_region" <> "") /\
  (Provider m <> "bedrock" -> model_BaseURL m <> "" /\ APIKey m <> "").
Proof. unfold validate_model. repeat case_decide; naive_solver. Qed.

Lemma validate_gateway_sound g :
  validate_gateway g = None -> gw_Enabled g = true ->
  gw_BaseURL g <> "" /\ 0 <= gw_MaxRetries g <= 2.
Proof.
  unfold validate_gateway. intros H He. rewrite He in H. case_decide; [done|].
  destruct (_ || _) eqn:E; [done|]. zbool. split; [done|lia].
Qed.

Lemma validate_models_sound c :
  validate_models c = None ->
  ModelPriority c <> [] /\
  Forall (fun n => exists m, Models c !! n = Some m /\
    (Provider m = "bedrock" -> Model m <> "" /\ ExtraStr m "aws_region" <> "") /\
    (Provider m <> "bedrock" -> model_BaseURL m <> "" /\ APIKey m <> "")) (ModelPriority c).
Proof.
  unfold validate_models. repeat case_bool_decide; try done.
  intros Hp%validate_priority_spec. split; [done|].
  eapply Forall_impl; [exact Hp|]. intros n (m & ? & ?%validate_model_sound). eauto.
Qed.

Lemma applyDefaults_ai_wf c : ai_wf (applyDefaults c).
Proof.
  constructor; unfold applyDefaults, Second, Minute; cbn;
    try solve [repeat case_match; zbool; try lia; try done].
  - intros He. rewrite He. destruct (MaxRetries c =? 0) eqn:E; cbn; zbool; lia.
  - intros n m Hm. apply lookup_fmap_Some in Hm as (m0 & <- & _).
    unfold model_defaults; cbn.
    destruct (MaxTokens m0 <=? 0) eqn:E1, (MaxCompletionTokens m0 <=? 0) eqn:E2,
      (ContextWindow m0 <=? 0) eqn:E3; cbn; zbool; lia.
Qed.

(** ** Properties *)

(** [applyDefaults] makes any configuration usable by the engine (positive
    round, concurrency and context limits, non-zero timeouts) and is
    idempotent. *)
Theorem applyDefaults_wf (c : AIConfig) :
  ai_wf (applyDefaults c) /\ applyDefaults (applyDefaults c) = applyDefaults c.
Proof.
  split.
  - apply applyDefaults_ai_wf.
  - unfold applyDefaults at 1 3. unfold Second, Minute. destruct c; cbn. f_equal;
      try solve [repeat case_match; zbool; try lia; try done].
    + rewrite <- map_fmap_compose. apply map_fmap_ext. intros. apply model_defaults_idem.
    + apply gateway_defaults_idem.
    + destruct (MaxRetries0 =? 0) eqn:E, ai_Enabled0; cbn; rewrite ?E; done.
Qed.

(** A configuration that [Validate] accepts names only models that exist and
    that carry what their provider needs, has a gateway address and a bounded
    gateway retry count when the gateway is on, and one of the two queue
    policies. *)
Theorem Validate_sound (c : AIConfig) :
  ai_Enabled c = true -> Validate c = None ->
  (gw_Enabled (Gateway c) = true ->
     gw_BaseURL (Gateway c) <> "" /\ 0 <= gw_MaxRetries (Gateway c) <= 2)
  /\ (gw_Enabled (Gateway c) = false \/ FallbackToDirect (Gateway c) = true \/ Models c <> ∅ ->
     ModelPriority c <> [] /\
     Forall (fun n => exists m, Models c !! n = Some m /\
       (Provider m = "bedrock" -> Model m <> "" /\ ExtraStr m "aws_region" <> "") /\
       (Provider m <> "bedrock" -> model_BaseURL m <> "" /\ APIKey m <> "")) (ModelPriority c))
  /\ (QueueFullPolicy c = "drop" \/ QueueFullPolicy c = "wait").
Proof.
  intros Hen. unfold Validate. rewrite Hen. cbn [negb].
  destruct (validate_gateway (Gateway c)) as [|] eqn:Hg; [done|].
  destruct (if _ : bool then validate_models c else None) as [|] eqn:Hm; [done|].
  case_decide as Hq; [done|]. intros _. split; [by apply validate_gateway_sound|]. split.
  - intros Hreq. apply validate_models_sound.
    destruct (negb (gw_Enabled (Gateway c)) || FallbackToDirect (Gateway c)
      || negb (bool_decide (Models c = ∅))) eqn:E; [done|]. zbool.
    destruct Hreq as [?|[?|?]]; congruence.
  - destruct (decide (QueueFullPolicy c = "drop")); [by left|].
    destruct (decide (QueueFullPolicy c = "wait")); [by right|]. tauto.
Qed.

(** ** Witness: one model, no gateway *)

Definition ex_ai_config : AIConfig :=
  mkAIConfig true ["m"] {["m" := mkModelConfig "openai" "https://api" "key" "gpt" 0 0 0 f64_zero f64_zero None]}
    (mkGatewayConfig false "" "" 0 0 false) 0 0 0 0 0 "drop" 0 0 0 0 0 "".

Lemma Validate_sound_witness :
  Validate ex_ai_config = None /\ ModelPriority ex_ai_config <> [].
Proof.
  split; [reflexivity|].
  apply (proj1 (proj2 (Validate_sound ex_ai_config eq_refl eq_refl))). left. reflexivity.
Defined.
