(* ===== verification/ConfigLoad.v ===== *)
(** * Resolving the configuration (digcore/config/config.go, server_config.go, mcp_config.go)

    What happens to a decoded configuration before the agent starts: defaults,
    environment references, the identity of the host with its cache, the
    addresses derived from the server's.  Reading the files is a parameter. *)
From S2P Require Import Prelude GoStr GoLib GoConv GoFmt GoUrl Types Config Backends.
#[local] Open Scope Z_scope.
#[local] Open Scope go_scope.

(** ** The host *)
Record iface_addr := mkIfaceAddr { is_IPNet : bool; IsLoopback : bool; is_IPv4 : bool; addr_IP : string }.

(** The operating system and the library that finds the default gateway. *)
Class HostProbe (W : Type) := {
  os_Hostname : W -> string * W;
  DiscoverGateway : W -> res string string * W;
  dial_udp : string -> W -> res string string * W;
  InterfaceAddrs : W -> option (list iface_addr) * W;
  time_Now : W -> Z * W
}.

(** ** Server and MCP settings *)
Record ServerConfig := mkServerConfig {
  srv_Enabled : bool; Address : string; srv_AgentToken : string; CAFile : string; TLSSkipVerify : bool; AlertBufferSize : Z
}.
Definition GetAlertBufferSize (c : ServerConfig) : Z := if AlertBufferSize c <=? 0 then 1000 else AlertBufferSize c.

Record MCPServerConfig := mkMCPServerConfig {
  mcp_Name : string; Command : string; Args : list string; Env : gomap string; Identity : string; ToolsAllow : list string
}.
Record MCPConfig := mkMCPConfig { mcp_Enabled : bool; DefaultIdentity : string; Servers : list MCPServerConfig }.

Definition IsToolAllowed (s : MCPServerConfig) (toolName : string) : bool :=
  match ToolsAllow s with [] => true | l => existsb (fun allowed => bool_decide (allowed = toolName)) l end.

Section load.
Context {W : Type} `{!HostProbe W}.
Variable is_print : Z -> bool.
Variable Getenv : string -> string.
Implicit Types (builtins labels : gmap string string) (w : W).

(** *** Expansion *)
Definition ExpandWithBuiltins (raw : string) builtins : string :=
  (Expand (fun key (u : unit) => (match builtins !! key with Some v => v | None => Getenv key end, u)) raw tt).1.

(** A value of the form [${NAME}]. *)
Definition resolveEnvRef (val : string) : string :=
  if HasPrefix val "${" && HasSuffix val "}" then Getenv (stake (String.length val - 3) (sdrop 2 val)) else val.

(** *** API keys *)
Definition extra_string (v : option anyval) : string := match v with Some (AStr s) => s | _ => "" end.
Definition setExtraDefault (key envVar : string) (extra : gmap string anyval) : gmap string anyval :=
  if decide (extra_string (extra !! key) <> "") then extra
  else if decide (Getenv envVar <> "") then <[key := AStr (Getenv envVar)]> extra else extra.

Definition resolve_model (m : ModelConfig) : ModelConfig :=
  let resolve_value v := match v with AStr s => AStr (resolveEnvRef s) | _ => v end in
  let extra : gomap anyval := match ExtraBody m with Some e => Some (resolve_value <$> e) | None => None end in
  let extra :=
    if decide (Provider m = "bedrock") then
      Some (setExtraDefault "aws_session_token" "AWS_SESSION_TOKEN"
             (setExtraDefault "aws_secret_access_key" "AWS_SECRET_ACCESS_KEY"
               (setExtraDefault "aws_access_key_id" "AWS_ACCESS_KEY_ID" (default ∅ extra))))
    else extra in
  mkModelConfig (Provider m) (model_BaseURL m) (resolveEnvRef (APIKey m)) (Model m) (MaxTokens m) (MaxCompletionTokens m)
    (ContextWindow m) (InputPrice m) (OutputPrice m) extra.

Definition with_Gateway (g : GatewayConfig) (c : AIConfig) : AIConfig :=
  mkAIConfig (ai_Enabled c) (ModelPriority c) (Models c) g (MaxRounds c) (RequestTimeout c) (MaxRetries c) (RetryBackoff c)
    (MaxConcurrentDiagnoses c) (QueueFullPolicy c) (DailyTokenLimit c) (ToolTimeout c) (AggregateWindow c) (DiagnoseRetention c)
    (DiagnoseMaxCount c) (Language c).
Definition with_Models (m : gmap string ModelConfig) (c : AIConfig) : AIConfig :=
  mkAIConfig (ai_Enabled c) (ModelPriority c) m (Gateway c) (MaxRounds c) (RequestTimeout c) (MaxRetries c) (RetryBackoff c)
    (MaxConcurrentDiagnoses c) (QueueFullPolicy c) (DailyTokenLimit c) (ToolTimeout c) (AggregateWindow c) (DiagnoseRetention c)
    (DiagnoseMaxCount c) (Language c).
Definition gateway_at (baseURL token : string) (g : GatewayConfig) : GatewayConfig :=
  mkGatewayConfig (gw_Enabled g) baseURL token (gw_RequestTimeout g) (gw_MaxRetries g) (FallbackToDirect g).

(** [TrimRight] of an empty address is empty: the guard of the source changes nothing. *)
Definition resolveAPIKeys (c : AIConfig) : AIConfig :=
  let g := Gateway c in
  let c := with_Gateway (gateway_at (if decide (gw_BaseURL g <> "") then TrimRight1 slash (gw_BaseURL g) else gw_BaseURL g)
                           (resolveEnvRef (AgentToken g)) g) c in
  with_Models (resolve_model <$> Models c) c.

(** *** Notification settings *)
Record NotifyConfig := mkNotifyConfig {
  nc_Console : option bool; nc_Flashduty : option FlashdutyConfig; nc_PagerDuty : option PagerDutyConfig; nc_WebAPI : option WebAPIConfig
}.
Definition severity_defaults : gmap string string := {["Critical" := "critical"; "Warning" := "warning"; "Info" := "info"]}.
Definition flashduty_defaults (c : FlashdutyConfig) : FlashdutyConfig :=
  mkFlashdutyConfig (IntegrationKey c)
    (if decide (fd_BaseUrl c = "") then "https://api.flashcat.cloud/event/push/alert/standard" else fd_BaseUrl c)
    (if fd_Timeout c =? 0 then 10 * Second else fd_Timeout c) (if fd_MaxRetries c <=? 0 then 1 else fd_MaxRetries c).
Definition pagerduty_defaults (c : PagerDutyConfig) : PagerDutyConfig :=
  mkPagerDutyConfig (RoutingKey c)
    (if decide (pd_BaseUrl c = "") then "https://events.pagerduty.com/v2/enqueue" else pd_BaseUrl c)
    (Some (default severity_defaults (SeverityMap c)))
    (if pd_Timeout c =? 0 then 10 * Second else pd_Timeout c) (if pd_MaxRetries c <=? 0 then 1 else pd_MaxRetries c).
Definition webapi_defaults (c : WebAPIConfig) : WebAPIConfig :=
  let method := ToUpper (wa_Method c) in
  mkWebAPIConfig (wa_URL c) (if decide (method = "PUT") then method else "POST")
    (match Headers c with Some m => Some ((fun v => (Expand (fun key (u : unit) => (Getenv key, u)) v tt).1) <$> m) | None => None end)
    (if wa_Timeout c =? 0 then 10 * Second else wa_Timeout c) (if wa_MaxRetries c <=? 0 then 1 else wa_MaxRetries c).
Definition notify_defaults (c : NotifyConfig) : NotifyConfig :=
  mkNotifyConfig (nc_Console c) (flashduty_defaults <$> nc_Flashduty c) (pagerduty_defaults <$> nc_PagerDuty c) (webapi_defaults <$> nc_WebAPI c).

(** *** Addresses derived from the server's *)
Definition server_resolve (c : ServerConfig) : ServerConfig :=
  mkServerConfig (srv_Enabled c) (TrimRight1 slash (TrimSpace (resolveEnvRef (Address c)))) (resolveEnvRef (srv_AgentToken c))
    (CAFile c) (TLSSkipVerify c) (AlertBufferSize c).

(** [u.Path = path; u.RawPath = ""; u.RawQuery = ""; u.Fragment = ""]. *)
Definition at_path (path : string) (u : URL) : URL := with_Fragment "" (with_RawQuery "" (with_Path path u)).

Definition server_scheme (scheme : string) : option string :=
  if decide (scheme = "http" \/ scheme = "https") then Some scheme
  else if decide (scheme = "ws") then Some "http"
  else if decide (scheme = "wss") then Some "https" else None.

Definition deriveServerBaseURL (address : string) : res string string :=
  let raw := TrimSpace address in
  if decide (raw = "") then Good ""
  else
    let raw := if Contains raw "://" then raw else "http://" +:+ raw in
    match Parse is_print raw with
    | Bad err => Bad ("parse server.address: " +:+ err)
    | Good parsed =>
      if decide (Scheme parsed = "" \/ Host parsed = "") then Bad "server.address must be a host[:port] or absolute http(s) address"
      else
        match server_scheme (Scheme parsed) with
        | None => Bad ("unsupported server.address scheme " +:+ Quote is_print (Scheme parsed))
        | Some scheme =>
          if decide (Path parsed <> "" /\ Path parsed <> "/")
          then Bad ("server.address must not include a path (got " +:+ Quote is_print (Path parsed) +:+ ")")
          else Good (TrimRight1 slash (URL_String is_print (at_path "" (with_Scheme scheme parsed))))
        end
    end.
Definition HTTPBaseURL (c : ServerConfig) : res string string := deriveServerBaseURL (Address c).

Definition WebSocketURL (c : ServerConfig) : res string string :=
  match deriveServerBaseURL (Address c) with
  | Bad err => Bad err
  | Good baseURL =>
    match Parse is_print baseURL with
    | Bad err => Bad ("parse derived server base url: " +:+ err)
    | Good parsed =>
      match (if decide (Scheme parsed = "http") then Some "ws" else if decide (Scheme parsed = "https") then Some "wss" else None) with
      | None => Bad ("unsupported derived server base url scheme " +:+ Quote is_print (Scheme parsed))
      | Some scheme => Good (URL_String is_print (at_path "/api/v1/agent/ws" (with_Scheme scheme parsed)))
      end
    end
  end.
Definition GatewayBaseURL (c : ServerConfig) : res string string :=
  match deriveServerBaseURL (Address c) with
  | Bad err => Bad err
  | Good baseURL =>
    match Parse is_print baseURL with
    | Bad err => Bad ("parse derived server base url: " +:+ err)
    | Good parsed => Good (TrimRight1 slash (URL_String is_print (at_path "/api/v1/agent/llm" parsed)))
    end
  end.

(** The gateway of the AI settings, next to the server's. *)
Definition resolveGatewayConfig (server : ServerConfig) (ai : AIConfig) : res string AIConfig :=
  let g := Gateway ai in
  if negb (gw_Enabled g) then Good ai
  else
    let token := if decide (AgentToken g = "") then srv_AgentToken server else AgentToken g in
    if decide (gw_BaseURL g <> "") then Good (with_Gateway (gateway_at (TrimRight1 slash (gw_BaseURL g)) token g) ai)
    else if decide (Address server = "") then Good (with_Gateway (gateway_at (gw_BaseURL g) token g) ai)
    else
      match GatewayBaseURL server with
      | Bad err => Bad ("resolve [ai.gateway] from [server]: " +:+ err)
      | Good derived => Good (with_Gateway (gateway_at derived token g) ai)
      end.

(** The addresses of FlashDuty. *)
Definition buildFlashdutyRequestURL (baseURL integrationKey : string) : string :=
  match Parse is_print baseURL with
  | Bad _ => baseURL +:+ "?integration_key=" +:+ integrationKey
  | Good u => URL_String is_print (with_RawQuery (Encode (Values_Set "integration_key" integrationKey (ParseQuery is_print (RawQuery u)))) u)
  end.
Definition buildFlashdutyCommentURL (baseURL integrationKey : string) : string :=
  match Parse is_print baseURL with
  | Bad _ => "/push/incident/comment-by-alert?integration_key=" +:+ integrationKey
  | Good u =>
    URL_String is_print
      (with_RawQuery (Encode (Values_Set "integration_key" integrationKey (ParseQuery is_print (RawQuery u))))
        (with_Path (deriveFlashdutyCommentPath (Path u)) u))
  end.
Definition NewFlashdutyNotifier (cfg : FlashdutyConfig) : FlashdutyNotifier :=
  mkFlashdutyNotifier cfg (buildFlashdutyRequestURL (fd_BaseUrl cfg) (IntegrationKey cfg)) (buildFlashdutyCommentURL (fd_BaseUrl cfg) (IntegrationKey cfg)).

(** *** The identity of the host *)
Definition DetectHostname w : string * W := os_Hostname w.

Definition GetOutboundIP w : res string string * W :=
  let '(gw, w) := DiscoverGateway w in
  match gw with
  | Bad err => (Bad ("failed to detect gateway: " +:+ err), w)
  | Good gatewayip =>
    if decide (gatewayip = "") then (Bad "failed to detect gateway: empty", w)
    else
      let '(conn, w) := dial_udp (gatewayip +:+ ":80") w in
      (match conn with Bad err => Bad ("failed to get outbound ip: " +:+ err) | Good ip => Good ip end, w)
  end.

Definition usable_addr (a : iface_addr) : bool := is_IPNet a && negb (IsLoopback a) && is_IPv4 a.
Definition detectIPFallback w : string * W :=
  let '(addrs, w) := InterfaceAddrs w in
  (match addrs with
   | None => ""
   | Some l => match filter (fun a => usable_addr a = true) l with a :: _ => addr_IP a | [] => "" end
   end, w).
Definition DetectIP w : string * W :=
  let '(ip, w) := GetOutboundIP w in
  match ip with Bad _ => detectIPFallback w | Good s => (s, w) end.

Definition HostBuiltinsWithoutIP w : gmap string string * W :=
  let '(hostname, w) := os_Hostname w in
  let short := match cut_at "."%char hostname with Some (s, _) => if decide (s = "") then hostname else s | None => hostname end in
  ({["HOSTNAME" := hostname; "SHORT_HOSTNAME" := short]}, w).
Definition HostBuiltins w : gmap string string * W :=
  let '(b, w) := HostBuiltinsWithoutIP w in
  let '(ip, w) := DetectIP w in (<["IP" := ip]> b, w).

Definition autoIdentity builtins : string :=
  let h := default "" (builtins !! "HOSTNAME") in
  let ip := default "" (builtins !! "IP") in
  Join ((if decide (h <> "") then ["hostname=" +:+ h] else []) ++ (if decide (ip <> "") then ["ip=" +:+ ip] else [])) ", ".
Definition ResolvedIdentity (s : MCPServerConfig) (defaultIdentity : string) builtins : string :=
  let raw := if decide (Identity s = "") then defaultIdentity else Identity s in
  if decide (raw = "") then autoIdentity builtins else ExpandWithBuiltins raw builtins.

Definition needsAutoDetect (raw varName : string) : bool :=
  if negb (Contains raw "$") then false
  else if negb (Contains raw ("${" +:+ varName +:+ "}")) && negb (Contains raw ("$" +:+ varName)) then false
  else bool_decide (Getenv varName = "").

(** What a variable stands for; [detected] is found at most once. *)
Definition identity_var (name : string) (detect : W -> string * W) builtins (key : string) (dw : string * W) : string * (string * W) :=
  let '(detected, w) := dw in
  if decide (key = name) then
    if decide (Getenv key <> "") then (Getenv key, dw)
    else if decide (default "" (builtins !! key) <> "") then (default "" (builtins !! key), dw)
    else
      let '(detected, w) := if decide (detected = "") then detect w else (detected, w) in
      (detected, (detected, w))
  else (match builtins !! key with Some v => v | None => Getenv key end, dw).
Definition resolve_identity (name : string) (detect : W -> string * W) (raw : string) builtins w : string * W :=
  if bool_decide (raw = "") || negb (Contains raw "$") then (raw, w)
  else let '(s, (_, w)) := Expand (identity_var name detect builtins) raw ("", w) in (s, w).
Definition resolveConfiguredHostname : string -> gmap string string -> W -> string * W := resolve_identity "HOSTNAME" DetectHostname.
Definition resolveConfiguredHostIP : string -> gmap string string -> W -> string * W := resolve_identity "IP" DetectIP.

Definition identCacheTTL : Z := Minute.
(** An identity: whether it is detected, the last one, and when it was found
    ([None] is the zero time). *)
Record ident_cache := mkIdent { AutoDetect : bool; Cached : string; CachedAt : option Z }.
Definition no_ident : ident_cache := mkIdent false "" None.
Record idents := mkIdents { host_ident : ident_cache; ip_ident : ident_cache }.

Definition expandLabels labels builtins : gmap string string :=
  (fun v => if Contains v "$" then ExpandWithBuiltins v builtins else v) <$> labels.

(** One of the two identity labels: its value, the builtin it defines, its cache. *)
Definition resolve_label (label name : string) (detect : W -> string * W) labels builtins (c : ident_cache) w
  : gmap string string * gmap string string * ident_cache * W :=
  match labels !! label with
  | None => (labels, builtins, c, w)
  | Some raw =>
    let '(resolved, w) := resolve_identity name detect raw builtins w in
    let '(labels, builtins) :=
      if decide (resolved <> "") then (<[label := resolved]> labels, <[name := resolved]> builtins) else (labels, builtins) in
    let auto := needsAutoDetect raw name in
    if auto then let '(t, w) := time_Now w in (labels, builtins, mkIdent true resolved (Some t), w)
    else (labels, builtins, mkIdent false (Cached c) (CachedAt c), w)
  end.
Definition resolveGlobalLabels labels builtins (ids : idents) w : gmap string string * idents * W :=
  let '(labels, builtins, host, w) := resolve_label "from_hostname" "HOSTNAME" DetectHostname labels builtins (host_ident ids) w in
  let '(labels, builtins, ip, w) := resolve_label "from_hostip" "IP" DetectIP labels builtins (ip_ident ids) w in
  (expandLabels labels builtins, mkIdents host ip, w).

(** The cached identity, detected anew after a minute. *)
Definition cached_identity (detect : W -> string * W) (c : ident_cache) w : string * ident_cache * W :=
  let '(now, w) := time_Now w in
  let fresh := match CachedAt c with Some t => (now - t <? identCacheTTL) && negb (bool_decide (Cached c = "")) | None => false end in
  if fresh then (Cached c, c, w)
  else
    let '(v, w) := detect w in
    let '(now, w) := time_Now w in (v, mkIdent (AutoDetect c) v (Some now), w).
Definition label_identity (label : string) (detect : W -> string * W) (Labels : option (gmap string string)) (c : ident_cache) w
  : string * ident_cache * W :=
  let configured := match Labels with Some l => TrimSpace (default "" (l !! label)) | None => "" end in
  if negb (AutoDetect c) && negb (bool_decide (configured = "")) then (configured, c, w)
  else cached_identity detect c w.
(** [Labels] are those of the configuration, if there is one. *)
Definition AgentIP (Labels : option (gmap string string)) (ids : idents) w : string * idents * W :=
  let '(s, c, w) := label_identity "from_hostip" DetectIP Labels (ip_ident ids) w in (s, mkIdents (host_ident ids) c, w).
Definition AgentHostname (Labels : option (gmap string string)) (ids : idents) w : string * idents * W :=
  let '(s, c, w) := label_identity "from_hostname" DetectHostname Labels (host_ident ids) w in (s, mkIdents c (ip_ident ids), w).
Definition AgentLabels (Labels : option (gmap string string)) (ids : idents) w : gomap string * idents * W :=
  match Labels with
  | None => (None, ids, w)
  | Some l =>
    let '(ip, ids, w) := AgentIP Labels ids w in
    let '(host, ids, w) := AgentHostname Labels ids w in
    (Some (<["from_hostname" := host]> (<["from_hostip" := ip]> l)), ids, w)
  end.

Definition requiredGlobalLabels : list string := ["from_hostname"; "from_hostip"].
Definition validateRequiredLabels labels : option string :=
  match filter (fun key => default "" (labels !! key) = "") requiredGlobalLabels with
  | key :: _ => Some ("[global.labels] required label " +:+ Quote is_print key +:+ " is missing or empty; please set it in config.toml")
  | [] => None
  end.

(** *** The whole configuration *)
Record LogConfig := mkLogConfig { Level : string; Format : string; Output : string; Fields : gomap anyval }.
Record ConfigType := mkConfigType {
  ConfigDir : string; StateDir : string; Plugins : string; Loglevel : string;
  Interval : Z; GlobalLabels : gomap string; cfg_Log : LogConfig; cfg_Notify : NotifyConfig; cfg_AI : AIConfig; cfg_MCP : MCPConfig;
  cfg_Server : ServerConfig
}.

Definition log_defaults (loglevel : string) (l : LogConfig) : LogConfig :=
  let level := if decide (loglevel <> "") then loglevel else Level l in
  mkLogConfig (if decide (level = "") then "info" else level) (if decide (Format l = "") then "json" else Format l)
    (if decide (Output l = "") then "stdout" else Output l) (Some (default ∅ (Fields l))).

(** [filepath.Dir]. *)
Definition Dir (path : string) : string := match cut_last slash path with Some (d, _) => Clean (d +:+ "/") | None => "." end.

Definition initial_config (configDir plugins loglevel : string) : ConfigType :=
  mkConfigType configDir (JoinPath [Dir configDir; "state.d"]) plugins loglevel 0 None (mkLogConfig "" "" "" None)
    (mkNotifyConfig None None None None)
    (mkAIConfig false [] ∅ (mkGatewayConfig false "" "" 0 0 false) 0 0 0 0 0 "" 0 0 0 0 0 "") (mkMCPConfig false "" [])
    (mkServerConfig false "" "" "" false 0).

(** [decode] is [cfg.LoadConfigByDir]: what the files of the directory make of a
    configuration.  The result is the error or the value of [Config]. *)
Definition InitConfig (exists_file : string -> bool) (decode : string -> ConfigType -> res string ConfigType)
    (configDir : string) (interval : Z) (plugins loglevel : string) (ids : idents) w : res string ConfigType * idents * W :=
  let configFile := JoinPath [configDir; "config.toml"] in
  if negb (exists_file configFile) then (Bad ("configuration file(" +:+ configFile +:+ ") not found"), ids, w)
  else
    match decode configDir (initial_config configDir plugins loglevel) with
    | Bad err => (Bad ("failed to load configs of directory: " +:+ configDir +:+ " error:" +:+ err), ids, w)
    | Good c =>
      let every := if 0 <? interval then Second ⊠ interval else Interval c in
      let every := if every =? 0 then 30 * Second else every in
      let ai := resolveAPIKeys (applyDefaults (cfg_AI c)) in
      let '(builtins, w) := HostBuiltinsWithoutIP w in
      let '(labels, ids, w) := resolveGlobalLabels (default ∅ (GlobalLabels c)) builtins ids w in
      let server := server_resolve (cfg_Server c) in
      if srv_Enabled server && bool_decide (Address server = "") then (Bad "[server] address is required when enabled=true", ids, w)
      else
        match resolveGatewayConfig server ai with
        | Bad err => (Bad err, ids, w)
        | Good ai =>
          match (if srv_Enabled server then validateRequiredLabels labels else None) with
          | Some err => (Bad err, ids, w)
          | None =>
            (Good (mkConfigType (ConfigDir c) (StateDir c) (Plugins c) (Loglevel c) every (Some labels) (log_defaults (Loglevel c) (cfg_Log c))
                     (notify_defaults (cfg_Notify c)) ai (cfg_MCP c) server), ids, w)
          end
        end
    end.
End load.
