(* ===== verification/ConfigLoadProps.v ===== *)
(** * Properties of the resolved configuration *)
From S2P Require Import Prelude GoStr GoLib GoConv GoFmt GoUrl Types Config Backends ConfigLoad.
#[local] Open Scope Z_scope.
#[local] Open Scope go_scope.

(** ** A configuration the agent can start with *)

(** Every HTTP notifier has an address of its service, a timeout and a retry. *)
Record notify_wf (c : NotifyConfig) : Prop := {
  nw_flashduty : forall f, nc_Flashduty c = Some f -> fd_BaseUrl f <> "" /\ fd_Timeout f <> 0 /\ 0 < fd_MaxRetries f;
  nw_pagerduty : forall p, nc_PagerDuty c = Some p ->
    pd_BaseUrl p <> "" /\ pd_Timeout p <> 0 /\ 0 < pd_MaxRetries p /\ SeverityMap p <> None;
  nw_webapi : forall a, nc_WebAPI c = Some a -> (wa_Method a = "PUT" \/ wa_Method a = "POST") /\ wa_Timeout a <> 0 /\ 0 < wa_MaxRetries a
}.

Record config_wf (c : ConfigType) : Prop := {
  cw_interval : Interval c <> 0;
  cw_log : Level (cfg_Log c) <> "" /\ Format (cfg_Log c) <> "" /\ Output (cfg_Log c) <> "" /\ Fields (cfg_Log c) <> None;
  cw_notify : notify_wf (cfg_Notify c);
  cw_ai : ai_wf (cfg_AI c);
  cw_labels : GlobalLabels c <> None;
  cw_server : srv_Enabled (cfg_Server c) = true ->
    Address (cfg_Server c) <> "" /\ Forall (fun k => gomap_get (GlobalLabels c) k <> "") requiredGlobalLabels
}.

Lemma notify_defaults_wf Getenv c : notify_wf (notify_defaults Getenv c).
Proof.
  constructor; intros x; cbn; intros (y & _ & ->)%fmap_Some; cbn; unfold Second; split_and!;
    repeat case_match; zbool; try done; try lia; try (by left); by right.
Qed.

Section wf.
Variable Getenv : string -> string.

Lemma resolveAPIKeys_wf c : ai_wf c -> ai_wf (resolveAPIKeys Getenv c).
Proof.
  intros []. constructor; try done. cbn. intros n m Hm. apply lookup_fmap_Some in Hm as (m0 & <- & Hm). cbn. by apply (wf_models n).
Qed.

Lemma with_Gateway_wf g c : ai_wf c -> ai_wf (with_Gateway g c).
Proof. intros []. by constructor. Qed.

Lemma resolveGatewayConfig_wf is_print server ai ai' : resolveGatewayConfig is_print server ai = Good ai' -> ai_wf ai -> ai_wf ai'.
Proof.
  unfold resolveGatewayConfig. intros H Hwf. destruct (negb _); [by simplify_eq|].
  destruct (decide (gw_BaseURL (Gateway ai) <> "")); [simplify_eq; by apply with_Gateway_wf|].
  destruct (decide (Address server = "")); [simplify_eq; by apply with_Gateway_wf|].
  destruct (GatewayBaseURL _ _); [|done]. simplify_eq. by apply with_Gateway_wf.
Qed.

Lemma validateRequiredLabels_None is_print l : validateRequiredLabels is_print l = None ->
  Forall (fun k => default "" (l !! k) <> "") requiredGlobalLabels.
Proof.
  unfold validateRequiredLabels. destruct (filter _ _) as [|k ks] eqn:E; [|done]. intros _. apply Forall_forall. intros k Hk Hempty.
  enough (k ∈ @nil string) by (by apply not_elem_of_nil in H). rewrite <- E. by apply list_elem_of_filter.
Qed.

Lemma every_nonzero (a : Z) : (if a =? 0 then 30 * Second else a) <> 0.
Proof. unfold Second. destruct (a =? 0) eqn:E; zbool; lia. Qed.
End wf.

(** *** What is resolved from the environment and the server *)
Section resolved.
Variable is_print : Z -> bool.
Variable Getenv : string -> string.

(** The value of a setting: of [${NAME}] the variable, else the text. *)
Definition env_value (raw v : string) : Prop :=
  (forall n, raw = "${" +:+ n +:+ "}" -> v = Getenv n) /\ ((forall n, raw <> "${" +:+ n +:+ "}") -> v = raw).

Lemma resolveEnvRef_value raw : env_value raw (resolveEnvRef Getenv raw).
Proof.
  split.
  - intros n ->. unfold resolveEnvRef. rewrite (proj2 (HasPrefix_spec _ _)) by (by eexists).
    assert (sdrop (String.length ("${" +:+ n +:+ "}") - 1) ("${" +:+ n +:+ "}") = "}") as Hd.
    { rewrite !length_app_str, <- string_app_assoc. cbn [String.length]. replace (2 + (String.length n + 1) - 1)%nat with (String.length ("${" +:+ n)) by (rewrite length_app_str; cbn; lia).
      rewrite sdrop_app by done. by rewrite sdrop_all. }
    assert (HasSuffix ("${" +:+ n +:+ "}") "}" = true) as ->.
    { unfold HasSuffix. change (String.length "}") with 1%nat. rewrite Hd. apply andb_true_iff. split; [|by apply bool_decide_eq_true]. apply Z.leb_le.
      unfold slen. rewrite !length_app_str. cbn. lia. }
    cbn [andb]. rewrite !length_app_str. cbn [String.length]. replace (2 + (String.length n + 1) - 3)%nat with (String.length n) by lia.
    change (sdrop 2 ("${" +:+ n +:+ "}")) with (n +:+ "}"). rewrite stake_app by done. by rewrite stake_all.
  - intros Hn. unfold resolveEnvRef. destruct (HasPrefix raw "${") eqn:Hp; [|done]. destruct (HasSuffix raw "}") eqn:Hs; [|done]. cbn [andb].
    exfalso. apply HasPrefix_spec in Hp as (r & ->). unfold HasSuffix in Hs. apply andb_true_iff in Hs as [_ Hs]. apply bool_decide_eq_true in Hs.
    rewrite length_app_str in Hs. cbn [String.length] in Hs. destruct r as [|a r]; [done|].
    replace (2 + String.length (String a r) - 1)%nat with (String.length "${" + (String.length (String a r) - 1))%nat in Hs by (cbn; lia).
    rewrite <- sdrop_sdrop in Hs. change (sdrop (String.length "${") ("${" +:+ String a r)) with (String a r) in Hs.
    apply (Hn (stake (String.length (String a r) - 1) (String a r))). rewrite <- Hs. by rewrite stake_sdrop.
Qed.

Lemma TrimRight1_idem c t : TrimRight1 c (TrimRight1 c t) = TrimRight1 c t.
Proof.
  induction t as [|a t IH]; [done|]. cbn [TrimRight1]. destruct (TrimRight1 c t) as [|b u] eqn:E.
  - destruct (decide (a = c)) as [->|Ha]; [done|]. cbn [TrimRight1]. by rewrite decide_False.
  - change (TrimRight1 c (String a (String b u))) with
      (match TrimRight1 c (String b u) with "" => if decide (a = c) then "" else String a "" | t' => String a t' end).
    by rewrite IH.
Qed.

(** The gateway: its own token, else the server's; the address given, without
    slashes at its end, else the one derived from the server's. *)
Definition gateway_resolved (g0 : GatewayConfig) (server : ServerConfig) (g : GatewayConfig) : Prop :=
  let given := TrimRight1 slash (gw_BaseURL g0) in
  gw_Enabled g = gw_Enabled g0 /\
  (exists own, env_value (AgentToken g0) own /\
    AgentToken g = if gw_Enabled g0 && bool_decide (own = "") then srv_AgentToken server else own) /\
  (if gw_Enabled g0 && bool_decide (given = "") && negb (bool_decide (Address server = ""))
   then GatewayBaseURL is_print server = Good (gw_BaseURL g) else gw_BaseURL g = given).

(** What a configuration is made of that was read as [c0]. *)
Record resolved (c0 c : ConfigType) : Prop := {
  rv_keys name m0 : Models (cfg_AI c0) !! name = Some m0 ->
    exists m, Models (cfg_AI c) !! name = Some m /\ env_value (APIKey m0) (APIKey m);
  rv_token : env_value (srv_AgentToken (cfg_Server c0)) (srv_AgentToken (cfg_Server c));
  rv_gateway : gateway_resolved (Gateway (cfg_AI c0)) (cfg_Server c) (Gateway (cfg_AI c))
}.

Lemma resolveAPIKeys_gateway ai0 : let g := Gateway (resolveAPIKeys Getenv (applyDefaults ai0)) in
  gw_Enabled g = gw_Enabled (Gateway ai0) /\ gw_BaseURL g = TrimRight1 slash (gw_BaseURL (Gateway ai0)) /\
  env_value (AgentToken (Gateway ai0)) (AgentToken g).
Proof.
  split; [done|]. split; [|apply resolveEnvRef_value]. cbn. case_decide as H; [done|]. by rewrite H.
Qed.

Lemma resolveGatewayConfig_resolved server ai0 ai :
  resolveGatewayConfig is_print server (resolveAPIKeys Getenv (applyDefaults ai0)) = Good ai ->
  Models ai = Models (resolveAPIKeys Getenv (applyDefaults ai0)) /\ gateway_resolved (Gateway ai0) server (Gateway ai).
Proof.
  destruct (resolveAPIKeys_gateway ai0) as (He & Hu & Ht). set (ai1 := resolveAPIKeys Getenv (applyDefaults ai0)) in *. clearbody ai1.
  unfold resolveGatewayConfig, gateway_resolved. rewrite <- He, <- Hu. cbv zeta.
  assert (forall url token, Gateway (with_Gateway (gateway_at url token (Gateway ai1)) ai1) = gateway_at url token (Gateway ai1)) as Hg by done.
  destruct (gw_Enabled (Gateway ai1)) eqn:Een; cbn [negb andb].
  2:{ intros [= <-]. split; [done|]. split; [done|]. cbn [andb]. split; [by exists (AgentToken (Gateway ai1))|exact eq_refl]. }
  assert (forall P : string -> Prop, P (if decide (AgentToken (Gateway ai1) = "") then srv_AgentToken server else AgentToken (Gateway ai1)) ->
    P (if bool_decide (AgentToken (Gateway ai1) = "") then srv_AgentToken server else AgentToken (Gateway ai1))) as Hdec
    by (intros P; by case_decide; case_bool_decide).
  set (token := if decide _ then _ else _) in *.
  assert (forall url, Good (with_Gateway (gateway_at url token (Gateway ai1)) ai1) = Good ai :> res string AIConfig ->
    Models ai = Models ai1 /\ gw_Enabled (Gateway ai) = true /\ gw_BaseURL (Gateway ai) = url /\
    exists own, env_value (AgentToken (Gateway ai0)) own /\ AgentToken (Gateway ai) = if bool_decide (own = "") then srv_AgentToken server else own) as Hall.
  { intros url [= <-]. split_and!; [done|done|done|]. exists (AgentToken (Gateway ai1)). split; [done|]. by apply Hdec. }
  destruct (decide (gw_BaseURL (Gateway ai1) <> "")) as [Hurl|Hurl]; [|destruct (decide (Address server = "")) as [Ha|Ha]; [|destruct (GatewayBaseURL is_print server) as [derived|]; [|intros [=]]]];
    intros (Hm & Hen & Hb & Ho)%Hall; (split; [done|]); (split; [done|]); (split; [done|]); rewrite Hb.
  - rewrite bool_decide_eq_false_2 by done. cbn [andb]. rewrite Hu. apply TrimRight1_idem.
  - rewrite (bool_decide_eq_true_2 (Address server = "")), andb_false_r by done. done.
  - apply dec_stable in Hurl. rewrite bool_decide_eq_true_2, bool_decide_eq_false_2 by done. done.
Qed.
End resolved.


(** ** The addresses of a server *)
Section addresses.
Variable is_print : Z -> bool.
Variables (host port : string).
Hypothesis host_some : host <> "".
Hypothesis host_plain : all_chars plain host = true.
Hypothesis port_digits : all_chars is_digit port = true.

Definition authority : string := host +:+ String colon port.
Definition auth_char (c : ascii) : bool := plain c || bool_decide (c = colon).

Lemma authority_chars : all_chars auth_char authority = true.
Proof.
  unfold authority. rewrite all_chars_app. cbn [all_chars]. apply andb_true_iff.
  split; [|apply andb_true_iff; split; [done|]]; (eapply all_chars_impl; [|eassumption]);
    intros c Hc; unfold auth_char; [|apply digit_plain in Hc]; by rewrite Hc.
Qed.

Lemma authority_without c : auth_char c = false -> has_byte c authority = false.
Proof. apply all_chars_byte, authority_chars. Qed.

Lemma auth_char_plain c : auth_char c = true -> 32 < byte_val c < 127.
Proof. unfold auth_char. intros [?|?%bool_decide_eq_true]%orb_true_iff; [by apply plain_ascii|by subst]. Qed.

Lemma digits_plain : all_chars plain port = true.
Proof. eapply all_chars_impl; [|exact port_digits]. apply digit_plain. Qed.

Lemma unescape_authority : unescape is_print authority encodeHost = Good authority.
Proof.
  assert (forall s, all_chars auth_char s = true -> unescape is_print s encodeHost = Good s) as H; [|apply H, authority_chars].
  induction s as [|c s IH]; [done|]. cbn [all_chars]. intros [Hc Hs]%andb_true_iff. cbn [unescape].
  assert (bool_decide (c = "%"%char) = false /\ bool_decide (c = "+"%char) = false /\ shouldEscape c encodeHost = false)
    as (-> & -> & H1) by (destruct c as [[] [] [] [] [] [] [] []]; vm_compute in Hc |- *; done).
  rewrite IH by done. cbn [andb]. rewrite H1, andb_false_r. reflexivity.
Qed.
Lemma escape_authority : escape authority encodeHost = authority.
Proof.
  assert (forall s, all_chars auth_char s = true -> escape s encodeHost = s) as H; [|apply H, authority_chars].
  induction s as [|c s IH]; [done|]. cbn [all_chars]. intros [Hc Hs]%andb_true_iff. cbn [escape].
  assert (bool_decide (c = " "%char) = false /\ shouldEscape c encodeHost = false) as [-> ->]
    by (destruct c as [[] [] [] [] [] [] [] []]; vm_compute in Hc |- *; done).
  by rewrite IH.
Qed.

Lemma parseAuthority_plain : parseAuthority is_print authority = Good (None, authority).
Proof.
  unfold parseAuthority. rewrite cut_last_none by (by apply authority_without).
  unfold parseHost. rewrite HasPrefix_bracket by (by apply authority_without).
  assert (has_byte colon port = false) as Hp by (eapply all_chars_byte; [exact port_digits|done]).
  assert (cut_last colon authority = Some (host, port)) as -> by (apply cut_last_app; exact Hp). cbn [validOptionalPort].
  rewrite bool_decide_eq_true_2, port_digits by done. cbn [andb]. by rewrite unescape_authority.
Qed.

(** An address as the code writes it: a scheme, the authority, a path. *)
Definition web_url (scheme path : string) : URL := mkURL scheme "" None authority path "" false false "" "" "".

Lemma authority_some : authority <> "".
Proof. unfold authority. by destruct host. Qed.

Lemma parse_address scheme rest : scheme ∈ ["http"; "https"; "ws"; "wss"] -> rest ∈ [""; "/"] ->
  Parse is_print (scheme +:+ "://" +:+ authority +:+ rest) = Good (web_url scheme rest).
Proof.
  intros Hsch Hrest.
  assert (forall c, auth_char c = false -> c <> colon -> c <> slash_char -> has_byte c scheme = false ->
    has_byte c (scheme +:+ "://" +:+ authority +:+ rest) = false) as Hno.
  { intros c Hc H1 H2 Hs. rewrite !has_byte_app, Hs, (authority_without c Hc). cbn [orb].
    assert (has_byte c "://" = false) as -> by (cbn; rewrite !bool_decide_eq_false_2 by (intros <-; first [by apply H1|by apply H2]); done).
    repeat (apply elem_of_cons in Hrest as [->|Hrest]); [done| |by apply not_elem_of_nil in Hrest].
    cbn. by rewrite bool_decide_eq_false_2 by (intros <-; by apply H2). }
  assert (Forall (fun s => has_byte "#"%char s = false /\ has_byte "?"%char s = false /\ all_chars (fun c => negb (is_ctl c)) s = true
    /\ ToLower s = s /\ s <> "") ["http"; "https"; "ws"; "wss"]) as Hall by (repeat constructor; done).
  rewrite Forall_forall in Hall. destruct (Hall _ Hsch) as (S1 & S2 & S3 & S4 & S5).
  unfold Parse. rewrite cut_at_none by (by apply Hno).
  unfold parse_url.
  assert (all_chars (fun c => negb (is_ctl c)) (scheme +:+ "://" +:+ authority +:+ rest) = true) as ->.
  { rewrite !all_chars_app, S3. change (all_chars (fun c => negb (is_ctl c)) "://") with true. cbn [andb]. apply andb_true_iff. split.
    - eapply all_chars_impl; [|apply authority_chars]. intros c Hc%auth_char_plain. unfold is_ctl. apply negb_true_iff, orb_false_iff.
      split; [apply Z.ltb_ge|apply Z.eqb_neq]; lia.
    - repeat (apply elem_of_cons in Hrest as [->|Hrest]); [done..|by apply not_elem_of_nil in Hrest]. }
  rewrite decide_False by (intros E; clear -Hsch E;
    repeat (apply elem_of_cons in Hsch as [->|Hsch]); [discriminate E..|by apply not_elem_of_nil in Hsch]).
  assert (getScheme (scheme +:+ "://" +:+ authority +:+ rest) = Good (scheme, "//" +:+ authority +:+ rest)) as ->.
  { clear -Hsch. repeat (apply elem_of_cons in Hsch as [->|Hsch]); [reflexivity..|by apply not_elem_of_nil in Hsch]. }
  rewrite S4.
  assert (has_byte "?"%char ("//" +:+ authority +:+ rest) = false) as Hq.
  { specialize (Hno "?"%char eq_refl ltac:(done) ltac:(done) S2). rewrite has_byte_app in Hno. by apply orb_false_iff in Hno as [_ Hno]. }
  rewrite count_byte_none, andb_false_r, cut_at_none by done.
  unfold parse_rest. rewrite (bool_decide_eq_false_2 (scheme = "")) by done.
  change (HasPrefix ("//" +:+ authority +:+ rest) "/") with true.
  change (HasPrefix ("//" +:+ authority +:+ rest) "//") with (HasPrefix (authority +:+ rest) "").
  change (sdrop 2 ("//" +:+ authority +:+ rest)) with (authority +:+ rest).
  rewrite (proj2 (HasPrefix_spec (authority +:+ rest) "")) by eauto. cbn [negb andb orb].
  assert (has_byte slash_char authority = false) as Hs by (by apply authority_without).
  assert ((match split_at "/" (authority +:+ rest) with Some p => p | None => (authority +:+ rest, "") end) = (authority, rest)) as ->.
  { clear -Hrest Hs. repeat (apply elem_of_cons in Hrest as [->|Hrest]); [| |by apply not_elem_of_nil in Hrest].
    - rewrite string_app_nil_r. by rewrite split_at_slash_none.
    - by rewrite split_at_slash_app. }
  rewrite parseAuthority_plain.
  clear -Hrest. repeat (apply elem_of_cons in Hrest as [->|Hrest]); [reflexivity..|by apply not_elem_of_nil in Hrest].
Qed.

(** Printing such an address at a path of plain segments. *)
Lemma print_address scheme path : scheme <> "" -> path ∈ [""; "/api/v1/agent/ws"; "/api/v1/agent/llm"] ->
  URL_String is_print (web_url scheme path) = scheme +:+ "://" +:+ authority +:+ path.
Proof.
  intros Hs Hp. unfold URL_String, web_url.
  cbn [Scheme Opaque User Host Path RawPath OmitHost ForceQuery RawQuery Fragment RawFragment].
  rewrite !(decide_False (P := scheme = "")) by done. rewrite (decide_False (P := ("" <> ""))) by (intros H; by apply H).
  rewrite !(bool_decide_eq_false_2 (scheme = "")), !(bool_decide_eq_false_2 (authority = "")) by (done || apply authority_some).
  rewrite escape_authority. cbn [negb orb andb].
  rewrite !(bool_decide_eq_false_2 ((scheme +:+ ":") +:+ _ = "")) by (destruct scheme; discriminate). cbn [andb].
  assert (escaped is_print "" path encodePath = path /\ negb (bool_decide (path = "")) && negb (HasPrefix path "/") && true = false) as [-> ->].
  { clear -Hp. repeat (apply elem_of_cons in Hp as [->|Hp]); [split; reflexivity..|by apply not_elem_of_nil in Hp]. }
  rewrite !(bool_decide_eq_true_2 ("" = "")), (decide_True (P := ("" = ""))) by done. cbn [negb].
  rewrite !string_app_nil_r, !string_app_assoc. reflexivity.
Qed.

Lemma address_chars pre rest : pre ∈ [""; "http://"; "https://"; "ws://"; "wss://"] -> rest ∈ [""; "/"] ->
  TrimSpace (pre +:+ authority +:+ rest) = pre +:+ authority +:+ rest.
Proof.
  intros Hp Hr. apply TrimSpace_no_space. rewrite !all_chars_app. apply andb_true_iff; split; [|apply andb_true_iff; split].
  - clear -Hp. repeat (apply elem_of_cons in Hp as [->|Hp]); [reflexivity..|by apply not_elem_of_nil in Hp].
  - eapply all_chars_impl; [|apply authority_chars]. intros c Hc.
    destruct c as [[] [] [] [] [] [] [] []]; vm_compute in Hc |- *; done.
  - clear -Hr. repeat (apply elem_of_cons in Hr as [->|Hr]); [reflexivity..|by apply not_elem_of_nil in Hr].
Qed.

Lemma trim_address scheme : TrimRight1 slash (scheme +:+ "://" +:+ authority) = scheme +:+ "://" +:+ authority.
Proof.
  assert (exists t a, authority = t +:+ String a "" /\ a <> slash) as (t & a & -> & Ha).
  { assert (has_byte slash authority = false) as Hs by (by apply authority_without).
    pose proof authority_some as Hn. revert Hs Hn. generalize authority. clear. intros s.
    induction s as [|c s IH]; [done|]. cbn [has_byte]. intros [Hc Hs]%orb_false_iff _. apply bool_decide_eq_false in Hc.
    destruct s as [|c' s]; [by exists "", c|]. destruct IH as (t & a & E & Ha); [done..|]. rewrite E. by exists (String c t), a. }
  rewrite <- !string_app_assoc. by apply TrimRight1_last.
Qed.

(** The schemes an address may name, and those it stands for. *)
Definition named_schemes : list (string * string) :=
  [("", "http"); ("http://", "http"); ("https://", "https"); ("ws://", "http"); ("wss://", "https")].

Lemma derive_plain pre scheme rest : (pre, scheme) ∈ named_schemes -> rest ∈ [""; "/"] ->
  deriveServerBaseURL is_print (pre +:+ authority +:+ rest) = Good (scheme +:+ "://" +:+ authority).
Proof.
  intros Hpre Hrest. unfold deriveServerBaseURL. rewrite address_chars; [|clear -Hpre; set_solver|done].
  rewrite decide_False.
  2:{ intros E. apply (f_equal slen) in E. rewrite !slen_app in E. pose proof authority_some as Ha. destruct authority as [|c s]; [done|].
      change (slen "") with 0 in E. unfold slen in E. cbn in E. lia. }
  assert (exists named, named ∈ ["http"; "https"; "ws"; "wss"] /\ server_scheme named = Some scheme /\
    (if Contains (pre +:+ authority +:+ rest) "://" then pre +:+ authority +:+ rest else "http://" +:+ pre +:+ authority +:+ rest)
    = (named +:+ "://" +:+ authority +:+ rest)) as (named & Hn & Hsch & ->).
  { clear -Hpre Hrest host_plain port_digits.
    apply elem_of_cons in Hpre as [[= -> ->]|Hpre].
    - exists "http". split; [set_solver|]. split; [done|]. change ("" +:+ authority +:+ rest) with (authority +:+ rest).
      rewrite (Contains_count slash_char); [done|]. rewrite count_byte_app, count_byte_none by (by apply authority_without).
      repeat (apply elem_of_cons in Hrest as [->|Hrest]); [done..|by apply not_elem_of_nil in Hrest].
    - assert (forall sch, Contains ((sch +:+ "://") +:+ authority +:+ rest) "://" = true) as Hc.
      { intros sch. rewrite string_app_assoc. apply Contains_mid. }
      assert (exists sch, pre = sch +:+ "://" /\ sch ∈ ["http"; "https"; "ws"; "wss"] /\ server_scheme sch = Some scheme) as (sch & -> & Hi & Hs).
      { repeat (apply elem_of_cons in Hpre as [[= -> ->]|Hpre]); [exists "http"|exists "https"|exists "ws"|exists "wss"|by apply not_elem_of_nil in Hpre];
          (split; [reflexivity|split; [set_solver|reflexivity]]). }
      exists sch. rewrite Hc, string_app_assoc. done. }
  rewrite parse_address by done. cbn [web_url Scheme Host Path].
  rewrite decide_False by (intros [E|E]; [subst; by vm_compute in Hsch|by apply authority_some in E]).
  rewrite Hsch. rewrite decide_False by (clear -Hrest; set_solver).
  change (at_path "" (with_Scheme scheme (web_url named rest))) with (web_url scheme "").
  rewrite print_address, string_app_nil_r, trim_address; [done| |set_solver].
  intros ->. clear -Hpre. unfold named_schemes in Hpre. set_solver.
Qed.

End addresses.

(** A plain address of the server, with or without a scheme or a final slash,
    gives the agent's three addresses: plain HTTP stays plain and TLS stays TLS,
    at the same host and port, at the paths of the server's API. *)
Theorem server_addresses is_print (host port pre scheme rest : string) (c : ServerConfig) :
  host <> "" -> all_chars plain host = true -> all_chars is_digit port = true ->
  (pre, scheme) ∈ named_schemes -> rest ∈ [""; "/"] ->
  Address c = pre +:+ authority host port +:+ rest ->
  let socket := if decide (scheme = "https") then "wss" else "ws" in
  HTTPBaseURL is_print c = Good (scheme +:+ "://" +:+ authority host port)
  /\ WebSocketURL is_print c = Good (socket +:+ "://" +:+ authority host port +:+ "/api/v1/agent/ws")
  /\ GatewayBaseURL is_print c = Good (scheme +:+ "://" +:+ authority host port +:+ "/api/v1/agent/llm").
Proof.
  intros Hh Hp Hd Hpre Hrest Ha socket.
  pose proof (derive_plain is_print host port Hh Hp Hd pre scheme rest Hpre Hrest) as Hb. rewrite <- Ha in Hb.
  assert (scheme = "http" \/ scheme = "https") as Hs by (clear -Hpre; unfold named_schemes in Hpre; set_solver).
  assert (scheme ∈ ["http"; "https"; "ws"; "wss"]) as Hi by (clear -Hs; set_solver).
  pose proof (parse_address is_print host port Hp Hd scheme "" Hi ltac:(set_solver)) as Hparse. rewrite string_app_nil_r in Hparse.
  unfold HTTPBaseURL, WebSocketURL, GatewayBaseURL. rewrite Hb, Hparse. split; [done|]. cbn [web_url Scheme]. split.
  - change (at_path "/api/v1/agent/ws" (with_Scheme ?s (web_url host port ?x ""))) with (web_url host port s "/api/v1/agent/ws").
    destruct Hs as [-> | ->]; cbn [decide]; unfold socket; cbn; f_equal; apply print_address; done || set_solver.
  - change (at_path "/api/v1/agent/llm" (web_url host port scheme "")) with (web_url host port scheme "/api/v1/agent/llm").
    rewrite print_address by (done || set_solver || by destruct Hs as [-> | ->]).
    change "/api/v1/agent/llm" with ("/api/v1/agent/ll" +:+ String "m" "").
    rewrite <- !string_app_assoc. by rewrite TrimRight1_last.
Qed.

Lemma server_addresses_witness :
  let c := mkServerConfig true "wss://catpaw.example.com:8443/" "" "" false 0 in
  WebSocketURL (fun _ => true) c = Good "wss://catpaw.example.com:8443/api/v1/agent/ws"
  /\ WebSocketURL (fun _ => true) c = Good ("wss" +:+ "://" +:+ authority "catpaw.example.com" "8443" +:+ "/api/v1/agent/ws").
Proof.
  intros c. split; [vm_compute; reflexivity|].
  refine (proj1 (proj2 (server_addresses (fun _ => true) "catpaw.example.com" "8443" "wss://" "https" "/" c _ eq_refl eq_refl _ _ eq_refl)));
    [discriminate|apply (bool_decide_unpack _); exact I|apply (bool_decide_unpack _); exact I].
Defined.

(** ** The identity of the host *)

(** A machine whose names, address and clock are given; it counts the probes. *)
Record machine := mkMachine { m_hostname : string; m_ip : string; m_clock : Z; m_probes : nat }.
#[export] Instance machine_probe : HostProbe machine := {
  os_Hostname m := (m_hostname m, mkMachine (m_hostname m) (m_ip m) (m_clock m) (S (m_probes m)));
  DiscoverGateway m := (Good "gw", m);
  dial_udp _ m := (Good (m_ip m), mkMachine (m_hostname m) (m_ip m) (m_clock m) (S (m_probes m)));
  InterfaceAddrs m := (None, m);
  time_Now m := (m_clock m, m)
}.

Lemma DetectIP_machine m : DetectIP m = (m_ip m, mkMachine (m_hostname m) (m_ip m) (m_clock m) (S (m_probes m))).
Proof. reflexivity. Qed.

(** An identity that is not fixed by a label is at most a minute old, and within
    that minute nothing is probed again. *)
Theorem AgentIP_fresh (Labels : option (gmap string string)) (ids : idents) (m : machine) :
  let '(ip, ids', m') := AgentIP Labels ids m in
  (AutoDetect (ip_ident ids) = false /\ ip = TrimSpace (default "" (default ∅ Labels !! "from_hostip")) /\ ids' = ids /\ m' = m)
  \/ (exists t, Cached (ip_ident ids) = ip /\ CachedAt (ip_ident ids) = Some t /\ m_clock m - t < Minute /\ ids' = ids /\ m' = m)
  \/ (ip = m_ip m /\ Cached (ip_ident ids') = ip /\ CachedAt (ip_ident ids') = Some (m_clock m)
      /\ m_probes m' = S (m_probes m) /\ host_ident ids' = host_ident ids).
Proof.
  destruct ids as [host [auto cached at_]]. unfold AgentIP, label_identity. cbn [ip_ident host_ident AutoDetect Cached CachedAt].
  destruct (negb auto && _) eqn:E.
  { left. destruct auto; [done|]. cbn [negb andb] in E. split; [done|]. split; [|done].
    destruct Labels as [l|]; [done|]. cbn. by rewrite lookup_empty. }
  clear E. unfold cached_identity. cbn [time_Now machine_probe Cached CachedAt].
  destruct at_ as [t|]; [destruct (_ && _) eqn:Ef|]; cbn; rewrite ?DetectIP_machine; cbn; right.
  - left. exists t. apply andb_true_iff in Ef as [Ef _]. unfold identCacheTTL in Ef. zbool. done.
  - by right.
  - by right.
Qed.

(** A template around the detected address is lost when the cache expires. *)
Example identity_template_lost :
  let env := fun _ : string => "" in
  let m := mkMachine "db1" "10.0.0.7" 0 0 in
  let '(labels, ids, m) := resolveGlobalLabels env {["from_hostip" := "prod-${IP}"]} ∅ (mkIdents no_ident no_ident) m in
  let later := mkMachine (m_hostname m) (m_ip m) (2 * Minute) (m_probes m) in
  (AgentIP (Some labels) ids m).1.1 = "prod-10.0.0.7" /\ (AgentIP (Some labels) ids later).1.1 = "10.0.0.7".
Proof. vm_compute. split; reflexivity. Qed.

(** A variable whose name only starts like the built-in one counts as automatic. *)
Example needsAutoDetect_prefix :
  let env := fun k => if decide (k = "IP_ADDR") then "192.0.2.1" else "" in
  (resolveConfiguredHostIP env "$IP_ADDR" ∅ (mkMachine "db1" "10.0.0.7" 0 0)).1 = "192.0.2.1"
  /\ needsAutoDetect env "$IP_ADDR" "IP" = true.
Proof. vm_compute. split; reflexivity. Qed.

(** ** Witness of [InitConfig_wf]: files that set nothing but the server *)
Definition ex_decode (dir : string) (c : ConfigType) : res string ConfigType :=
  Good (mkConfigType (ConfigDir c) (StateDir c) (Plugins c) (Loglevel c) (Interval c)
    (Some {["from_hostname" := "${HOSTNAME}"; "from_hostip" := "${IP}"]}) (cfg_Log c) (cfg_Notify c) (cfg_AI c) (cfg_MCP c)
    (mkServerConfig true "server:9000" "${TOKEN}" "" false 0)).
Definition ex_init : res string ConfigType * idents * machine :=
  InitConfig (fun _ => true) (fun k => if decide (k = "TOKEN") then "t0k" else "") (fun _ => true) ex_decode "/etc/catpaw/conf.d" 0 "" ""
    (mkIdents no_ident no_ident) (mkMachine "db1" "10.0.0.7" 0 0).
Definition ex_config : ConfigType := match ex_init.1.1 with Good c => c | Bad _ => initial_config "" "" "" end.

