(* ===== verification/DiagTypes.v ===== *)
(** * Data of the diagnosis subsystem (digcore/diagnose/types.go)

    Tools, categories, check snapshots, requests and the record of a run.
    [X] is the state of whatever the tools touch (the host, a remote target)
    and [S] the session a remote tool is given; a tool returns a string or an
    error message. *)
From S2P Require Import Prelude Types.
#[local] Open Scope Z_scope.

Inductive ToolScope := ToolScopeLocal | ToolScopeRemote.
#[export] Instance ToolScope_eq_dec : EqDecision ToolScope.
Proof. solve_decision. Defined.

Definition ToolScope_String (s : ToolScope) : string :=
  match s with ToolScopeLocal => "local" | ToolScopeRemote => "remote" end.

Record ToolParam := mkToolParam {
  param_Name : string;
  param_Type : string;
  param_Description : string;
  param_Required : bool
}.

Section tool.
Context {X S : Type}.

(** [Execute] and [RemoteExecute] are nil-able function fields; the arguments
    map may be nil. *)
Record DiagnoseTool := mkDiagnoseTool {
  tool_Name : string;
  tool_Description : string;
  Parameters : list ToolParam;
  tool_Scope : ToolScope;
  SupportedOS : list string;
  Execute : option (X -> gomap string -> res string string * X);
  RemoteExecute : option (S -> X -> gomap string -> res string string * X)
}.

Definition SupportsOS (t : DiagnoseTool) (goos : string) : bool :=
  match SupportedOS t with
  | [] => true
  | l => bool_decide (goos ∈ l)
  end.

Record ToolCategory := mkToolCategory {
  cat_Name : string;
  cat_Plugin : string;
  cat_Description : string;
  cat_Scope : ToolScope;
  cat_Tools : list DiagnoseTool
}.
End tool.
Arguments DiagnoseTool X S : clear implicits.
Arguments ToolCategory X S : clear implicits.

Record CheckSnapshot := mkCheckSnapshot {
  snap_Check : string;
  snap_Status : string;
  snap_CurrentValue : string;
  snap_ThresholdDesc : string;
  snap_Description : string
}.

Definition ModeAlert : string := "alert".
Definition ModeInspect : string := "inspect".

(** [extractAttr] (aggregator.go). *)
Definition extractAttr (event : Event) (key fallback : string) : string :=
  match Attrs event with
  | Some attrs =>
    match attrs !! key with
    | Some v => if decide (v = "") then fallback else v
    | None => fallback
    end
  | None => fallback
  end.

(** [ExtractCheckSnapshot] (aggregator.go). *)
Definition ExtractCheckSnapshot (event : Event) : CheckSnapshot :=
  mkCheckSnapshot (gomap_get (Labels event) "check") (EventStatus event)
    (extractAttr event AttrCurrentValue "") (extractAttr event AttrThresholdDesc "")
    (Description event).

(** [DiagnoseRequest]; [InstanceRef] is the instance the request came from, and
    [OnProgress] is left to the callers. *)
Record DiagnoseRequest (I : Type) := mkDiagnoseRequest {
  req_Mode : string;
  Events : list Event;
  req_Plugin : string;
  req_Target : string;
  RuntimeOS : string;
  Checks : list CheckSnapshot;
  InstanceRef : option I;
  req_Timeout : Z;
  req_Cooldown : Z;
  Descriptions : string
}.
Arguments mkDiagnoseRequest {I}.
Arguments req_Mode {I}. Arguments Events {I}. Arguments req_Plugin {I}.
Arguments req_Target {I}. Arguments RuntimeOS {I}. Arguments Checks {I}.
Arguments InstanceRef {I}. Arguments req_Timeout {I}. Arguments req_Cooldown {I}.
Arguments Descriptions {I}.

(** [plugin + "::" + target], the key of cooldowns, windows and runs. *)
Definition target_key (plugin target : string) : string := plugin +:+ "::" +:+ target.
Definition req_key {I} (req : DiagnoseRequest I) : string :=
  target_key (req_Plugin req) (req_Target req).

Record ToolCallRecord := mkToolCallRecord {
  tcr_Name : string;
  tcr_Args : gmap string string;
  tcr_Result : string;
  tcr_DurationMs : Z
}.

Record RoundRecord := mkRoundRecord {
  rr_Round : Z;
  rr_ToolCalls : list ToolCallRecord;
  rr_AIReasoning : string
}.

Record AIRecord := mkAIRecord {
  air_Model : string;
  TotalRounds : Z;
  air_InputTokens : Z;
  air_OutputTokens : Z
}.

Record AlertRecord := mkAlertRecord {
  ar_Plugin : string;
  ar_Target : string;
  ar_Checks : list CheckSnapshot
}.

(** Times are Unix milliseconds. *)
Record DiagnoseRecord := mkDiagnoseRecord {
  ID : string;
  rec_Mode : string;
  rec_Status : string;
  rec_Error : string;
  CreatedAt : Z;
  DurationMs : Z;
  rec_Alert : AlertRecord;
  rec_AI : AIRecord;
  Rounds : list RoundRecord;
  Report : string
}.

Lemma SupportsOS_spec {X S} (t : DiagnoseTool X S) goos :
  SupportsOS t goos = true <-> SupportedOS t = [] \/ goos ∈ SupportedOS t.
Proof.
  unfold SupportsOS. destruct (SupportedOS t) as [|o l]; [naive_solver|].
  rewrite bool_decide_eq_true. split; [by right|by intros [?|?]].
Qed.
