(* ===== verification/Engine.v ===== *)
(** * The alert engine (digcore/engine/engine.go and cache.go)

    Raw events of a plugin instance are cleaned (labels, alert key), matched
    against the cache of firing alerts, forwarded to the notifiers and offered
    to the diagnosis aggregator.  Events are Go pointers: the heap is explicit,
    because an alert that is cached first and delivered afterwards is updated
    through the pointer the cache holds. *)
From S2P Require Import Prelude GoStr Types Config DiagTypes SafeQueue Notify.
#[local] Open Scope Z_scope.
#[local] Open Scope go_scope.

(** ** Interfaces and configuration *)

(** A plugin instance, as the engine sees it ([plugins.Instance]). *)
Record Instance := mkInstance {
  ins_Labels : gomap string;
  ins_Alerting : Alerting;
  ins_Diagnose : DiagnoseConfig
}.

(** [plugins.Plugin]: only its labels matter here. *)
Record Plugin := mkPlugin { pl_Labels : gomap string }.

(** Global labels and the identity values read while an event is cleaned. *)
Record Env := mkEnv {
  global_Labels : gomap string;
  AgentIP : string;
  AgentHostname : string;
  FromAgent : string
}.

(** What the engine asks of the diagnosis aggregator. *)
Class DiagnoseSink (D : Type) :=
  sink_Submit : D -> Event -> CheckSnapshot -> string -> Instance -> DiagnoseConfig -> D.

(** ** Alert keys *)

(** [k:v:] for each label, in the order of the sorted keys. *)
Fixpoint write_labels (labels : gmap string string) (keys : list string) : string :=
  match keys with
  | [] => ""
  | k :: keys' =>
    k +:+ ":" +:+ default "" (labels !! k) +:+ ":" +:+ write_labels labels keys'
  end.

(** [keys] is the order in which the map hands out its keys. *)
Definition alert_key_input (labels : gmap string string) (keys : list string) : string :=
  write_labels labels (sort_Strings keys).

Definition label_keys (labels : gmap string string) : list string := (map_to_list labels).*1.

(** The labels of a cleaned event. *)
Definition clean_labels (env : Env) (pluginName : string) (pl : Plugin) (ins : Instance)
    (labels : gomap string) : gmap string string :=
  let labels := default ∅ labels in
  let labels := <["from_plugin" := pluginName]> labels in
  let labels := copy_into (pl_Labels pl) labels in
  let labels := copy_into (ins_Labels ins) labels in
  let labels := copy_into (global_Labels env) labels in
  let labels := <["from_hostip" := AgentIP env]> labels in
  let labels := <["from_hostname" := AgentHostname env]> labels in
  <["from_agent" := FromAgent env]> labels.

Section engine.
Context {W D : Type} `{!Forwarder W} `{!DiagnoseSink D}.
(** [str.MD5] of github.com/toolkits/pkg. *)
Context (MD5 : string -> string).

(** [clean]: the flag is false when an error is returned; the event is mutated
    in both cases. *)
Definition clean (event : Event) (now : Z) (env : Env) (pluginName : string) (pl : Plugin)
    (ins : Instance) : bool * Event :=
  let event := if EventTime event =? 0 then with_EventTime now event else event in
  if negb (EventStatusValid (EventStatus event)) then (false, event)
  else
    let labels := clean_labels env pluginName pl ins (Labels event) in
    let event := with_Labels (Some labels) event in
    (true, with_AlertKey (MD5 (alert_key_input labels (label_keys labels))) event).

(** ** State *)

(** [forwarded] is a ghost log: every event handed to [notify.Forward], as it
    was at that moment, with the answer. *)
Record EngineState := mkEngineState {
  heap : gmap positive Event;
  records : gmap string positive;
  diagnosedKeys : gset string;
  world : W;
  aggregator : option D;
  forwarded : list (Event * bool)
}.

Definition set_heap (h : gmap positive Event) (st : EngineState) : EngineState :=
  mkEngineState h (records st) (diagnosedKeys st) (world st) (aggregator st) (forwarded st).
Definition set_records (r : gmap string positive) (st : EngineState) : EngineState :=
  mkEngineState (heap st) r (diagnosedKeys st) (world st) (aggregator st) (forwarded st).
Definition set_diagnosed (d : gset string) (st : EngineState) : EngineState :=
  mkEngineState (heap st) (records st) d (world st) (aggregator st) (forwarded st).
Definition set_aggregator (a : option D) (st : EngineState) : EngineState :=
  mkEngineState (heap st) (records st) (diagnosedKeys st) (world st) a (forwarded st).

Definition update (l : positive) (e : Event) (st : EngineState) : EngineState :=
  set_heap (<[l := e]> (heap st)) st.

(** [EventCache]: [Get] of a missing key is nil, [Set] uses the event's key. *)
Definition Get (st : EngineState) (key : string) : option positive := records st !! key.
Definition Set_ (l : positive) (e : Event) (st : EngineState) : EngineState :=
  set_records (<[AlertKey e := l]> (records st)) st.
Definition Del (key : string) (st : EngineState) : EngineState :=
  set_records (delete key (records st)) st.

(** [notify.Forward]. *)
Definition forward (e : Event) (st : EngineState) : bool * EngineState :=
  let '(ok, w) := forward_event (world st) e in
  (ok, mkEngineState (heap st) (records st) (diagnosedKeys st) w (aggregator st)
         (forwarded st ++ [(e, ok)])).

(** ** Handlers *)

Definition handleRecoveryEvent (ins : Instance) (l : positive) (st : EngineState) : EngineState :=
  match heap st !! l with
  | None => st
  | Some event =>
    let st := set_diagnosed (diagnosedKeys st ∖ {[AlertKey event]}) st in
    match Get st (AlertKey event) with
    | None => st
    | Some ol =>
      match heap st !! ol with
      | None => st
      | Some old =>
        let st := Del (AlertKey old) st in
        if negb (DisableRecoveryNotification (ins_Alerting ins)) && (0 <? LastSent old)
        then (forward event st).2
        else st
      end
    end
  end.

(** [int64(d / config.Duration(time.Second))]. *)
Definition in_seconds (d : Z) : Z := go_div d Second.

(** The three early returns of [handleAlertEvent] for an alert already firing. *)
Definition suppressed (a : Alerting) (event old : Event) : bool :=
  ((0 <? ForDuration a)
    && ((EventTime event ⊟ FirstFireTime old) <? in_seconds (ForDuration a)))
  || ((0 <? RepeatNumber a) && (RepeatNumber a <=? NotifyCount old))
  || ((0 <? RepeatInterval a)
    && ((EventTime event ⊟ LastSent old) <? in_seconds (RepeatInterval a))).

Definition handleAlertEvent (ins : Instance) (l : positive) (st : EngineState)
  : bool * EngineState :=
  let alerting := ins_Alerting ins in
  match heap st !! l with
  | None => (false, st)
  | Some event =>
    match Get st (AlertKey event) with
    | None =>
      let event := with_FirstFireTime (EventTime event) event in
      let st := Set_ l event (update l event st) in
      if ForDuration alerting =? 0 then
        let '(ok, st) := forward event st in
        if ok then
          let event := with_NotifyCount (NotifyCount event ⊞ 1)
                         (with_LastSent (EventTime event) event) in
          (true, update l event st)
        else (false, st)
      else (false, st)
    | Some ol =>
      match heap st !! ol with
      | None => (false, st)
      | Some old =>
        if suppressed alerting event old then (false, st)
        else
          let event := with_NotifyCount (NotifyCount old ⊞ 1)
                         (with_FirstFireTime (FirstFireTime old) event) in
          let '(ok, st) := forward event (update l event st) in
          if ok then
            let event := with_LastSent (EventTime event) event in
            (true, Set_ l event (update l event st))
          else (false, st)
      end
    end
  end.

Definition mayTriggerDiagnose (l : positive) (pluginName : string) (ins : Instance)
    (st : EngineState) : EngineState :=
  match aggregator st, heap st !! l with
  | Some agg, Some event =>
    if decide (AlertKey event ∈ diagnosedKeys st) then st
    else
      let snapshot := ExtractCheckSnapshot event in
      let agg := sink_Submit agg event snapshot pluginName ins (ins_Diagnose ins) in
      set_diagnosed ({[AlertKey event]} ∪ diagnosedKeys st) (set_aggregator (Some agg) st)
  | _, _ => st
  end.

(** One iteration of the loop of [PushRawEvents]; [None] is a nil event. *)
Definition push_event (now : Z) (env : Env) (pluginName : string) (pl : Plugin) (ins : Instance)
    (ptr : option positive) (st : EngineState) : EngineState :=
  match ptr with
  | None => st
  | Some l =>
    match heap st !! l with
    | None => st
    | Some event =>
      let '(ok, event) := clean event now env pluginName pl ins in
      let st := update l event st in
      if negb ok then st
      else if Disabled (ins_Alerting ins) then st
      else if decide (EventStatus event = EventStatusOk) then handleRecoveryEvent ins l st
      else
        let '(sent, st) := handleAlertEvent ins l st in
        if sent then mayTriggerDiagnose l pluginName ins st else st
    end
  end.

(** [env i] holds the identity values read for the [i]-th event of the batch. *)
Fixpoint push_events (now : Z) (env : nat -> Env) (pluginName : string) (pl : Plugin)
    (ins : Instance) (events : list (option positive)) (i : nat) (st : EngineState) : EngineState :=
  match events with
  | [] => st
  | ptr :: events' =>
    push_events now env pluginName pl ins events' (S i)
      (push_event now (env i) pluginName pl ins ptr st)
  end.

Definition PushRawEvents (now : Z) (env : nat -> Env) (pluginName : string) (pl : Plugin)
    (ins : Instance) (q : Queue (option positive)) (st : EngineState)
  : Queue (option positive) * EngineState :=
  if Len q =? 0 then (q, st)
  else
    let '(events, q) := PopBackAll (fun _ => true) q in
    (q, push_events now env pluginName pl ins events 0 st).
End engine.
Arguments EngineState W D : clear implicits.

(** ** Properties *)

Lemma alert_key_input_order m keys :
  keys ≡ₚ label_keys m -> alert_key_input m keys = alert_key_input m (label_keys m).
Proof. intros H. unfold alert_key_input. by rewrite (sort_Strings_unique _ _ H). Qed.

(** The alert key is a function of the label set: whatever order the map hands
    out its keys in, the same text is hashed. *)
Theorem alert_key_order_independent (labels : gmap string string) (keys1 keys2 : list string) :
  keys1 ≡ₚ label_keys labels -> keys2 ≡ₚ label_keys labels ->
  alert_key_input labels keys1 = alert_key_input labels keys2.
Proof. intros H1 H2. by rewrite (alert_key_input_order _ _ H1), (alert_key_input_order _ _ H2). Qed.

(** ** Witness *)

Definition ex_labels : gmap string string := <["check" := "cpu"]> {["target" := "host"]}.

Lemma alert_key_order_independent_witness :
  alert_key_input ex_labels ["check"; "target"] = alert_key_input ex_labels ["target"; "check"].
Proof.
  apply alert_key_order_independent;
    apply (bool_decide_unpack (_ ≡ₚ _)); vm_compute; exact I.
Defined.
