(* ===== verification/EngineProps.v ===== *)
(** * What the alert engine guarantees

    Reachable states are those obtained from an empty cache by gathering: a
    plugin produces events, they are pushed to a queue and [PushRawEvents]
    consumes it.  Plugins hand over fresh events (never delivered, never
    counted), the rule the comment of [server.SendAlertEvent] states. *)
From S2P Require Import Prelude GoStr Types Config DiagTypes SafeQueue Notify Engine.
#[local] Open Scope Z_scope.
#[local] Open Scope go_scope.

Section props.
Context {W D : Type} `{!Forwarder W} `{!DiagnoseSink D}.
Context (MD5 : string -> string).

(** ** Runs *)

Definition fresh_event (e : Event) : Prop := LastSent e = 0 /\ NotifyCount e = 0.

(** The plugin allocates its events; [None] is a nil pointer. *)
Fixpoint alloc_all (es : list (option Event)) (h : gmap positive Event)
  : list (option positive) * gmap positive Event :=
  match es with
  | [] => ([], h)
  | None :: es' => let '(ptrs, h') := alloc_all es' h in (None :: ptrs, h')
  | Some e :: es' =>
    let l := fresh (dom h) in
    let '(ptrs, h') := alloc_all es' (<[l := e]> h) in (Some l :: ptrs, h')
  end.

(** One gathering cycle of an instance. *)
Definition gather (now : Z) (env : nat -> Env) (pluginName : string) (pl : Plugin)
    (ins : Instance) (es : list (option Event)) (st : EngineState W D) : EngineState W D :=
  let '(ptrs, h) := alloc_all es (heap st) in
  (PushRawEvents MD5 now env pluginName pl ins (PushFrontN NewQueue ptrs) (set_heap h st)).2.

Definition init_state (w : W) (agg : option D) : EngineState W D :=
  mkEngineState ∅ ∅ ∅ w agg [].

Inductive reachable (w : W) (agg : option D) : EngineState W D -> Prop :=
| reach_init : reachable w agg (init_state w agg)
| reach_gather st now env pluginName pl ins es :
    reachable w agg st ->
    (forall e, Some e ∈ es -> fresh_event e) ->
    reachable w agg (gather now env pluginName pl ins es st).

(** ** The invariant *)

(** Every recovery in the log follows a delivered alert with the same key. *)
Definition recovery_justified (log : list (Event * bool)) : Prop :=
  forall i e b, log !! i = Some (e, b) -> EventStatus e = EventStatusOk ->
    exists j e', (j < i)%nat /\ log !! j = Some (e', true) /\
      AlertKey e' = AlertKey e /\ EventStatus e' <> EventStatusOk.

Definition delivered (k : string) (log : list (Event * bool)) : Prop :=
  exists e', (e', true) ∈ log /\ AlertKey e' = k /\ EventStatus e' <> EventStatusOk.

Record engine_inv (st : EngineState W D) : Prop := {
  (** cached pointers are valid alerts, filed under their own key *)
  inv_cached : forall k l, records st !! k = Some l ->
    exists e, heap st !! l = Some e /\ AlertKey e = k /\ EventStatus e <> EventStatusOk;
  (** a cached alert that was sent has a delivery in the log *)
  inv_sent : forall k l e, records st !! k = Some l -> heap st !! l = Some e ->
    LastSent e <> 0 -> delivered k (forwarded st);
  inv_recovery : recovery_justified (forwarded st)
}.

(** A pointer still in the queue. *)
Definition pending (st : EngineState W D) (l : positive) : Prop :=
  (exists e, heap st !! l = Some e /\ fresh_event e) /\
  (forall k, records st !! k <> Some l).

(** ** Lemmas *)

Lemma delivered_app k log log' : delivered k log -> delivered k (log ++ log').
Proof. intros (e & ? & ? & ?). exists e. rewrite elem_of_app. auto. Qed.

Lemma recovery_justified_alert log e b :
  recovery_justified log -> EventStatus e <> EventStatusOk -> recovery_justified (log ++ [(e, b)]).
Proof.
  intros Hj He i e' b' Hi Hs. apply lookup_app_Some in Hi as [Hi|[Hge Hi]].
  - destruct (Hj i e' b' Hi Hs) as (j & e2 & ? & Hj2 & ?).
    exists j, e2. split; [done|]. split; [by apply lookup_app_l_Some|done].
  - apply list_lookup_singleton_Some in Hi as [_ [= -> ->]]. done.
Qed.

Lemma recovery_justified_recovery log e b :
  recovery_justified log -> delivered (AlertKey e) log -> recovery_justified (log ++ [(e, b)]).
Proof.
  intros Hj (e2 & Hin & Hk & Hok) i e' b' Hi Hs. apply lookup_app_Some in Hi as [Hi|[Hge Hi]].
  - destruct (Hj i e' b' Hi Hs) as (j & e3 & ? & Hj2 & ?).
    exists j, e3. split; [done|]. split; [by apply lookup_app_l_Some|done].
  - apply list_lookup_singleton_Some in Hi as [Heq [= -> ->]].
    apply list_elem_of_lookup in Hin as [j Hin]. exists j, e2.
    pose proof (lookup_lt_Some _ _ _ Hin).
    split; [lia|]. split; [by apply lookup_app_l_Some|done].
Qed.

Lemma forward_fields e (st : EngineState W D) :
  heap (forward e st).2 = heap st /\ records (forward e st).2 = records st /\
  diagnosedKeys (forward e st).2 = diagnosedKeys st /\
  aggregator (forward e st).2 = aggregator st /\
  forwarded (forward e st).2 = forwarded st ++ [(e, (forward e st).1)].
Proof. unfold forward. destruct (forward_event (world st) e). done. Qed.

Lemma clean_key event now env name pl ins e' :
  clean MD5 event now env name pl ins = (true, e') ->
  EventStatus e' = EventStatus event /\ LastSent e' = LastSent event /\
  NotifyCount e' = NotifyCount event /\ EventStatusValid (EventStatus e') = true.
Proof.
  unfold clean. case_match eqn:E; repeat case_match; intros [= <-]; zbool; done.
Qed.

Lemma clean_fresh event now env name pl ins :
  fresh_event event -> fresh_event (clean MD5 event now env name pl ins).2.
Proof. unfold fresh_event, clean. repeat case_match; cbn; done. Qed.

(** *** The engine only touches the event at hand *)

Definition frame (l : positive) (st st' : EngineState W D) : Prop :=
  (forall l', l' <> l -> heap st' !! l' = heap st !! l') /\
  (forall k l', records st' !! k = Some l' -> l' = l \/ records st !! k = Some l') /\
  (forall l', is_Some (heap st !! l') -> is_Some (heap st' !! l')).

Lemma frame_refl l st : frame l st st.
Proof. repeat split; auto. Qed.
Lemma frame_trans l st1 st2 st3 : frame l st1 st2 -> frame l st2 st3 -> frame l st1 st3.
Proof.
  intros (Hh1 & Hr1 & Hd1) (Hh2 & Hr2 & Hd2). split; [|split].
  - intros l' Hl. by rewrite Hh2, Hh1.
  - intros k l' [?|?]%Hr2; auto.
  - auto.
Qed.
Lemma frame_same l st st' : heap st' = heap st -> records st' = records st -> frame l st st'.
Proof. intros Hh Hr. repeat split; rewrite ?Hh, ?Hr; auto. Qed.
Lemma frame_update l e st : frame l st (update l e st).
Proof.
  split; [|split]; cbn; [|auto|].
  - intros l' ?. by rewrite lookup_insert_ne.
  - intros l' ?. rewrite lookup_insert. by case_decide.
Qed.
Lemma frame_Set l e st : frame l st (Set_ l e st).
Proof.
  split; [|split]; cbn; [done| |done].
  intros k l'. rewrite lookup_insert. case_decide; intros; simplify_eq; auto.
Qed.
Lemma frame_Del l k st : frame l st (Del k st).
Proof. split; [|split]; cbn; [done| |done]. intros k' l' [_ ?]%lookup_delete_Some. auto. Qed.
Lemma frame_forward l e st : frame l st (forward e st).2.
Proof. apply frame_same; apply forward_fields. Qed.
Lemma frame_forward_eq l e st ok st' : forward e st = (ok, st') -> frame l st st'.
Proof. intros H. pose proof (frame_forward l e st) as Hf. by rewrite H in Hf. Qed.

Lemma frame_recovery ins l st : frame l st (handleRecoveryEvent ins l st).
Proof.
  unfold handleRecoveryEvent. repeat case_match; try (by apply frame_same).
  - eapply frame_trans; [|apply frame_forward]. eapply frame_trans; [|apply frame_Del]. by apply frame_same.
  - eapply frame_trans; [|apply frame_Del]. by apply frame_same.
Qed.

Lemma frame_alert ins l st : frame l st (handleAlertEvent ins l st).2.
Proof.
  unfold handleAlertEvent.
  repeat (case_match; cbn [snd]; try apply frame_refl);
    repeat match goal with
    | H : forward _ _ = (_, ?st') |- frame _ _ ?st' =>
      eapply frame_trans; [|by apply (frame_forward_eq _ _ _ _ _ H)]; clear H
    | |- frame _ _ (Set_ _ _ _) => eapply frame_trans; [|apply frame_Set]
    | |- frame _ _ (update _ _ _) => eapply frame_trans; [|apply frame_update]
    end; apply frame_refl.
Qed.

Lemma frame_diagnose l l' name ins st : frame l st (mayTriggerDiagnose l' name ins st).
Proof. unfold mayTriggerDiagnose. repeat case_match; by apply frame_same. Qed.

Lemma frame_push now env name pl ins l st :
  frame l st (push_event MD5 now env name pl ins (Some l) st).
Proof.
  unfold push_event. repeat (case_match; try apply frame_refl; try apply frame_update).
  - eapply frame_trans; [apply frame_update|apply frame_recovery].
  - eapply frame_trans; [apply frame_update|].
    eapply frame_trans; [|apply frame_diagnose].
    match goal with H : handleAlertEvent ?i ?p ?s = (_, ?st') |- _ =>
      pose proof (frame_alert i p s) as Hf; rewrite H in Hf end. done.
  - eapply frame_trans; [apply frame_update|].
    match goal with H : handleAlertEvent ?i ?p ?s = (_, ?st') |- _ =>
      pose proof (frame_alert i p s) as Hf; rewrite H in Hf end. done.
Qed.

Lemma pending_frame l l' st st' : frame l st st' -> l' <> l -> pending st l' -> pending st' l'.
Proof.
  intros (Hh & Hr & _) Hne [Hheap Hrec]. split; [by rewrite Hh|].
  intros k [?|?]%Hr; [done|]. by eapply Hrec.
Qed.

(** *** Preservation of the invariant *)

Lemma inv_update l e st :
  engine_inv st ->
  (forall k, records st !! k = Some l ->
     AlertKey e = k /\ EventStatus e <> EventStatusOk /\
     (LastSent e <> 0 -> delivered k (forwarded st))) ->
  engine_inv (update l e st).
Proof.
  intros [Hc Hs Hr] Hl. constructor; [| |done]; cbn.
  - intros k l' Hk. rewrite lookup_insert. case_decide as Hd; [subst|by apply Hc].
    exists e. split; [done|]. by destruct (Hl k Hk) as (? & ? & _).
  - intros k l' e' Hk. rewrite lookup_insert. case_decide as Hd; [subst|by apply Hs].
    intros [= <-]. by apply Hl.
Qed.

Lemma inv_Set l e st :
  engine_inv st -> heap st !! l = Some e -> EventStatus e <> EventStatusOk ->
  (LastSent e <> 0 -> delivered (AlertKey e) (forwarded st)) ->
  engine_inv (Set_ l e st).
Proof.
  intros [Hc Hs Hr] He Hok Hd. constructor; [| |done]; cbn.
  - intros k l'. rewrite lookup_insert. case_decide; [|apply Hc].
    intros [= <-]. subst. eauto.
  - intros k l' e'. rewrite lookup_insert. case_decide; [|apply Hs].
    intros [= <-]. subst. rewrite He. intros [= <-]. done.
Qed.

Lemma inv_forward e st ok st' :
  forward e st = (ok, st') -> engine_inv st ->
  (EventStatus e = EventStatusOk -> delivered (AlertKey e) (forwarded st)) ->
  engine_inv st' /\ heap st' = heap st /\ records st' = records st /\
  forwarded st' = forwarded st ++ [(e, ok)].
Proof.
  intros Hf [Hc Hs Hr] Hok. destruct (forward_fields e st) as (Eh & Er & _ & _ & El).
  rewrite Hf in *. cbn [fst snd] in *. split; [|done]. constructor; rewrite ?Eh, ?Er, ?El.
  - done.
  - intros k l e' Hk He' Hl. apply delivered_app. by eapply Hs.
  - destruct (decide (EventStatus e = EventStatusOk)).
    + apply recovery_justified_recovery; auto.
    + by apply recovery_justified_alert.
Qed.

Lemma inv_recovery_event ins l e st :
  engine_inv st -> heap st !! l = Some e -> engine_inv (handleRecoveryEvent ins l st).
Proof.
  intros Hinv He. unfold handleRecoveryEvent, Get. rewrite He. cbn [records heap set_diagnosed].
  assert (engine_inv (set_diagnosed (diagnosedKeys st ∖ {[AlertKey e]}) st)) as Hinv'.
  { by destruct Hinv; constructor. }
  destruct (records st !! AlertKey e) as [ol|] eqn:Ek; [|done].
  destruct (inv_cached st Hinv _ _ Ek) as (old & Hold & Hkey & Hok). rewrite Hold.
  assert (forall k, engine_inv (Del k (set_diagnosed (diagnosedKeys st ∖ {[AlertKey e]}) st))) as Hdel.
  { intros k. destruct Hinv as [Hc Hs Hr]. constructor; cbn; [| |done].
    - intros k' l' [_ ?]%lookup_delete_Some. by apply Hc.
    - intros k' l' e' [_ ?]%lookup_delete_Some. by apply Hs. }
  destruct (negb _ && _) eqn:Eb; [|done]. zbool.
  destruct (forward e _) as [ok st'] eqn:Ef. cbn [snd].
  apply inv_forward in Ef as (? & _); [done|done|].
  intros _. cbn. apply (inv_sent st Hinv _ _ _ Ek Hold). lia.
Qed.

Lemma delivered_last e log : EventStatus e <> EventStatusOk -> delivered (AlertKey e) (log ++ [(e, true)]).
Proof. intros. exists e. rewrite elem_of_app. split; [right; constructor|done]. Qed.

Lemma inv_alert_event ins l e st :
  engine_inv st -> heap st !! l = Some e -> fresh_event e -> EventStatus e <> EventStatusOk ->
  (forall k, records st !! k <> Some l) ->
  engine_inv (handleAlertEvent ins l st).2.
Proof.
  intros Hinv He [Hls Hnc] Hok Hl. unfold handleAlertEvent, Get. rewrite He.
  destruct (records st !! AlertKey e) as [ol|] eqn:Ek.
  - destruct (inv_cached st Hinv _ _ Ek) as (old & Hold & _). rewrite Hold.
    destruct (suppressed _ _ _); [done|].
    set (e1 := with_NotifyCount _ _).
    assert (engine_inv (update l e1 st)) as Hup.
    { apply inv_update; [done|]. intros k Hk. by apply Hl in Hk. }
    destruct (forward e1 _) as [[] st'] eqn:Ef; cbn [snd];
      apply inv_forward in Ef as (Hi & Eh & Er & El); try done.
    assert (delivered (AlertKey e1) (forwarded st')) as Hd by (rewrite El; by apply delivered_last).
    apply inv_Set; [|cbn; by rewrite lookup_insert_eq|done|done].
    apply inv_update; [done|]. intros k. rewrite Er. cbn. intros Hk. by apply Hl in Hk.
  - set (e1 := with_FirstFireTime _ _).
    assert (engine_inv (Set_ l e1 (update l e1 st))) as Hset.
    { apply inv_Set; [|cbn; by rewrite lookup_insert_eq|done|done].
      apply inv_update; [done|]. intros k Hk. by apply Hl in Hk. }
    destruct (_ =? _); [|done].
    destruct (forward e1 _) as [[] st'] eqn:Ef; cbn [snd];
      apply inv_forward in Ef as (Hi & Eh & Er & El); try done.
    assert (delivered (AlertKey e1) (forwarded st')) as Hd by (rewrite El; by apply delivered_last).
    apply inv_update; [done|]. intros k. rewrite Er. cbn. rewrite lookup_insert.
    case_decide as Hk; [subst; done|]. intros Hk'. by apply Hl in Hk'.
Qed.

Lemma inv_diagnose l name ins st : engine_inv st -> engine_inv (mayTriggerDiagnose l name ins st).
Proof. intros [Hc Hs Hr]. unfold mayTriggerDiagnose. repeat case_match; by constructor. Qed.

Lemma inv_push now env name pl ins l st :
  engine_inv st -> pending st l -> engine_inv (push_event MD5 now env name pl ins (Some l) st).
Proof.
  intros Hinv [[e [He Hf]] Hl]. unfold push_event. rewrite He.
  pose proof (clean_fresh e now env name pl ins Hf) as Hf'.
  destruct (clean _ _ _ _ _ _ _) as [ok e'] eqn:Ec. cbn [snd] in Hf'.
  assert (engine_inv (update l e' st)) as Hup.
  { apply inv_update; [done|]. intros k Hk. by apply Hl in Hk. }
  assert (heap (update l e' st) !! l = Some e') as He' by (cbn; by rewrite lookup_insert_eq).
  destruct ok; [|done]. cbn [negb]. destruct (Disabled _); [done|].
  case_decide as Hs; [by eapply inv_recovery_event|].
  pose proof (inv_alert_event ins l e' _ Hup He' Hf' Hs Hl) as Ha.
  destruct (handleAlertEvent _ _ _) as [[] st']; cbn [snd] in Ha; [by apply inv_diagnose|done].
Qed.

Lemma inv_push_events now env name pl ins ptrs i st :
  engine_inv st -> NoDup (omap id ptrs) -> (forall l, Some l ∈ ptrs -> pending st l) ->
  engine_inv (push_events MD5 now env name pl ins ptrs i st).
Proof.
  revert i st. induction ptrs as [|[l|] ptrs IH]; intros i st Hinv Hnd Hp; cbn [push_events]; [done| |].
  - cbn in Hnd. apply NoDup_cons in Hnd as [Hl Hnd].
    apply IH; [apply inv_push; [done|apply Hp; constructor]|done|].
    intros l' Hl'. eapply pending_frame; [apply frame_push| |apply Hp; by constructor].
    intros ->. apply Hl, list_elem_of_omap. by exists (Some l).
  - apply IH; [done|done|]. intros l' Hl'. apply Hp. by constructor.
Qed.

Lemma alloc_all_spec es h ptrs h' :
  alloc_all es h = (ptrs, h') ->
  (forall l e, h !! l = Some e -> h' !! l = Some e) /\
  NoDup (omap id ptrs) /\
  (forall l, Some l ∈ ptrs -> h !! l = None /\ exists e, h' !! l = Some e /\ Some e ∈ es).
Proof.
  revert h ptrs h'. induction es as [|[e|] es IH]; intros h ptrs h'; cbn [alloc_all].
  - intros [= <- <-]. split; [done|]. split; [constructor|]. intros l Hl. by apply elem_of_nil in Hl.
  - set (l := fresh (dom h)). destruct (alloc_all es _) as [ptrs1 h1] eqn:E. intros [= <- <-].
    apply IH in E as (Hsub & Hnd & Hnew).
    assert (h !! l = None) as Hl by apply not_elem_of_dom, is_fresh.
    split; [|split].
    + intros l' e' Hl'. apply Hsub. rewrite lookup_insert_ne; [done|]. intros ->. congruence.
    + cbn. apply NoDup_cons. split; [|done]. intros Hin%list_elem_of_omap.
      destruct Hin as ([l'|] & Hin & [= ->]). apply Hnew in Hin as [Hin _].
      by rewrite lookup_insert_eq in Hin.
    + intros l' [[= ->]|Hin]%elem_of_cons.
      * split; [done|]. exists e. split; [apply Hsub, lookup_insert_eq|constructor].
      * apply Hnew in Hin as [Hnone (e' & He' & Hin)]. rewrite lookup_insert_None in Hnone.
        split; [tauto|]. exists e'. split; [done|by constructor].
  - destruct (alloc_all es h) as [ptrs1 h1] eqn:E. intros [= <- <-].
    apply IH in E as (Hsub & Hnd & Hnew). split; [done|]. split; [done|].
    intros l' [?|Hin]%elem_of_cons; [done|]. destruct (Hnew l' Hin) as [? (e & ? & ?)].
    split; [done|]. exists e. split; [done|by constructor].
Qed.

Lemma inv_gather now env name pl ins es st :
  engine_inv st -> (forall e, Some e ∈ es -> fresh_event e) ->
  engine_inv (gather now env name pl ins es st).
Proof.
  intros Hinv Hes. unfold gather. destruct (alloc_all es (heap st)) as [ptrs h] eqn:E.
  apply alloc_all_spec in E as (Hsub & Hnd & Hnew).
  assert (engine_inv (set_heap h st)) as Hinv'.
  { destruct Hinv as [Hc Hs Hr]. constructor; cbn; [| |done].
    - intros k l Hk. destruct (Hc k l Hk) as (e & He & ?). eauto.
    - intros k l e Hk He. destruct (Hc k l Hk) as (e' & He' & _).
      apply (Hs k l); [done|]. pose proof (Hsub _ _ He'). congruence. }
  unfold PushRawEvents. destruct (_ =? 0); [done|].
  rewrite PopBackAll_contents, filter_all by (by apply Forall_true).
  rewrite PushFrontN_contents. cbn [snd contents NewQueue linkedlist].
  change (reverse [] ++ ptrs) with ptrs.
  apply inv_push_events; [done|done|]. intros l Hl.
  destruct (Hnew l Hl) as [Hnone (e & He & Hin)]. split; [by eauto|].
  intros k Hk. cbn in Hk. destruct (inv_cached st Hinv _ _ Hk) as (? & ? & _). congruence.
Qed.

Lemma reachable_inv w agg st : reachable w agg st -> engine_inv st.
Proof.
  induction 1; [|by apply inv_gather].
  constructor; unfold init_state; cbn [records forwarded].
  - intros k l H. by rewrite lookup_empty in H.
  - intros k l e H. by rewrite lookup_empty in H.
  - intros i e b H. by rewrite lookup_nil in H.
Qed.

(** *** Runs of one alert *)

(** The alerts of one key arriving one after the other, without a recovery in
    between; the flags tell which were delivered. *)
Fixpoint alert_run (ins : Instance) (ls : list positive) (st : EngineState W D)
  : list (positive * bool) * EngineState W D :=
  match ls with
  | [] => ([], st)
  | l :: ls' =>
    let '(sent, st1) := handleAlertEvent ins l st in
    let '(flags, st2) := alert_run ins ls' st1 in
    ((l, sent) :: flags, st2)
  end.

(** Deliveries of a run. *)
Definition deliveries (flags : list (positive * bool)) : Z := zlen (filter (fun p => p.2 = true) flags).

(** The cached alert of key [k], or the absence of one. *)
Definition cached (st : EngineState W D) (k : string) : option Event :=
  records st !! k ≫= fun l => heap st !! l.

(** Delivery count so far in this episode of [k]. *)
Definition count_so_far (st : EngineState W D) (k : string) : Z :=
  match cached st k with Some e => NotifyCount e | None => 0 end.

(** What one alert event does to its own key: whether it is delivered and what
    the cache holds afterwards. *)
Lemma alert_step ins l e st sent st' :
  heap st !! l = Some e -> (forall k, records st !! k <> Some l) ->
  (forall ol, records st !! AlertKey e = Some ol -> is_Some (heap st !! ol)) ->
  handleAlertEvent ins l st = (sent, st') ->
  match cached st (AlertKey e) with
  | None =>
    exists e', cached st' (AlertKey e) = Some e' /\
      FirstFireTime e' = EventTime e /\
      (sent = true -> ForDuration (ins_Alerting ins) = 0 /\
        LastSent e' = EventTime e /\ NotifyCount e' = NotifyCount e ⊞ 1) /\
      (sent = false -> LastSent e' = LastSent e /\ NotifyCount e' = NotifyCount e)
  | Some old =>
    (sent = true ->
       suppressed (ins_Alerting ins) e old = false /\
       exists e', cached st' (AlertKey e) = Some e' /\
         FirstFireTime e' = FirstFireTime old /\ LastSent e' = EventTime e /\
         NotifyCount e' = NotifyCount old ⊞ 1) /\
    (sent = false -> cached st' (AlertKey e) = Some old)
  end.
Proof.
  intros He Hl Hval. unfold handleAlertEvent, Get, cached. rewrite He.
  destruct (records st !! AlertKey e) as [ol|] eqn:Ek; cbn [mbind option_bind].
  - destruct (Hval ol eq_refl) as [old Hold]. rewrite Hold.
    assert (ol <> l) as Hne by (intros ->; by apply Hl in Ek).
    destruct (suppressed _ _ _) eqn:Es.
    { intros [= <- <-]. split; [done|]. intros _. by rewrite Ek. }
    set (e1 := with_NotifyCount _ _). destruct (forward e1 _) as [[] st1] eqn:Ef;
      intros [= <- <-]; destruct (forward_fields e1 (update l e1 st)) as (Eh & Er & _);
      rewrite Ef in Eh, Er; cbn [snd] in Eh, Er; cbn; rewrite ?Eh, ?Er; cbn.
    + split; [|done]. intros _. split; [done|]. rewrite lookup_insert_eq. cbn.
      rewrite lookup_insert_eq. eexists; done.
    + split; [done|]. intros _. rewrite Ek. cbn. by rewrite lookup_insert_ne.
  - set (e1 := with_FirstFireTime _ _). destruct (_ =? 0) eqn:Ez; zbool.
    + destruct (forward e1 _) as [[] st1] eqn:Ef; intros [= <- <-];
        destruct (forward_fields e1 (Set_ l e1 (update l e1 st))) as (Eh & Er & _);
        rewrite Ef in Eh, Er; cbn [snd] in Eh, Er; cbn; rewrite ?Eh, ?Er; cbn;
        rewrite lookup_insert_eq; cbn; rewrite lookup_insert_eq; eexists; done.
    + intros [= <- <-]. cbn. rewrite lookup_insert_eq. cbn. rewrite lookup_insert_eq. eexists; done.
Qed.

(** The pointers of a run: distinct, uncached, fresh alerts of key [k]. *)
Record run_ok (k : string) (ls : list positive) (st : EngineState W D) : Prop := {
  run_nodup : NoDup ls;
  run_events : forall l, l ∈ ls -> exists e, heap st !! l = Some e /\ AlertKey e = k /\ fresh_event e;
  run_uncached : forall l k', l ∈ ls -> records st !! k' <> Some l;
  run_valid : forall k' ol, records st !! k' = Some ol -> is_Some (heap st !! ol)
}.

Lemma run_ok_step k ins l ls st :
  run_ok k (l :: ls) st -> run_ok k ls (handleAlertEvent ins l st).2.
Proof.
  intros [Hnd He Hu Hv]. apply NoDup_cons in Hnd as [Hl Hnd].
  destruct (frame_alert ins l st) as (Hh & Hr & Hd).
  assert (forall l', l' ∈ ls -> l' <> l) as Hne by (intros l' ? ->; done).
  constructor; [done| | |].
  - intros l' Hl'. rewrite Hh by auto. apply He. by constructor.
  - intros l' k' Hl' [?|Hk]%Hr; [by apply (Hne l')|]. by eapply (Hu l'); [constructor|].
  - intros k' ol [->|Hk]%Hr; apply Hd; [|by eapply Hv].
    destruct (He l) as (e & -> & _); [constructor|done].
Qed.

Lemma run_step k l ls st :
  run_ok k (l :: ls) st ->
  exists e, heap st !! l = Some e /\ AlertKey e = k /\ fresh_event e /\
    (forall k', records st !! k' <> Some l) /\
    (forall ol, records st !! AlertKey e = Some ol -> is_Some (heap st !! ol)).
Proof.
  intros [Hnd He Hu Hv]. destruct (He l) as (e & Hl & Hk & Hf); [constructor|].
  exists e. repeat split; try done; try apply Hf.
  - intros k'. apply Hu. constructor.
  - intros ol. apply Hv.
Qed.

Lemma deliveries_cons l b flags :
  deliveries ((l, b) :: flags) = (if b then 1 else 0) + deliveries flags.
Proof.
  unfold deliveries. rewrite filter_cons. case_decide as H; cbn [snd] in H;
    destruct b; try congruence; by rewrite ?zlen_cons.
Qed.

Lemma run_count k ins n ls st flags st' :
  RepeatNumber (ins_Alerting ins) = n -> 0 < n -> in_i64 n ->
  run_ok k ls st -> 0 <= count_so_far st k ->
  alert_run ins ls st = (flags, st') ->
  count_so_far st' k = count_so_far st k + deliveries flags /\
  count_so_far st' k <= Z.max n (count_so_far st k).
Proof.
  intros Hn Hpos Hin. revert st flags. induction ls as [|l ls IH]; intros st flags Hok Hc.
  { intros [= <- <-]. change (deliveries []) with 0. lia. }
  cbn [alert_run]. pose proof (run_ok_step k ins l ls st Hok) as Hok1.
  destruct (run_step k l ls st Hok) as (e & He & Hk & [_ Hnc] & Hu & Hv).
  destruct (handleAlertEvent ins l st) as [sent st1] eqn:Eh. cbn [snd] in Hok1.
  destruct (alert_run ins ls st1) as [flags1 st2] eqn:Er. intros [= <- <-].
  pose proof (alert_step ins l e st sent st1 He Hu Hv Eh) as Hstep. rewrite Hk in Hstep.
  assert (count_so_far st1 k = count_so_far st k + (if sent then 1 else 0) /\
    (sent = true -> count_so_far st k < n)) as [Hc1 Hlt].
  { unfold count_so_far in *. unfold in_i64, max_i64, min_i64 in Hin.
    destruct (cached st k) as [old|] eqn:Ec.
    - destruct Hstep as [Ht Hf]. destruct sent.
      + destruct Ht as [Hs (e' & -> & _ & _ & ->)]; [done|].
        assert (NotifyCount old < n).
        { unfold suppressed in Hs. rewrite Hn, (proj2 (Z.ltb_lt 0 n)) in Hs by done. zbool.
          cbn [andb] in *. zbool. lia. }
        rewrite i64_id by (unfold in_i64, max_i64, min_i64; lia). lia.
      + rewrite Hf by done. rewrite Z.add_0_r. done.
    - destruct Hstep as (e' & -> & _ & Ht & Hf). rewrite Hnc in *.
      destruct sent; [destruct Ht as (_ & _ & ->)|destruct Hf as (_ & ->)]; try done. }
  apply IH in Er as [Hc2 Hle]; [|done|destruct sent; lia].
  rewrite deliveries_cons. destruct sent; [specialize (Hlt eq_refl)|]; lia.
Qed.

(** *** Times of the deliveries of a run *)

Definition delivery_time (h : gmap positive Event) (p : positive * bool) : option Z :=
  if p.2 then EventTime <$> h !! p.1 else None.
Definition delivery_times (h : gmap positive Event) (flags : list (positive * bool)) : list Z :=
  omap (delivery_time h) flags.

(** Plausible Unix times: far from the limits of [int64]. *)
Definition time_ok (t : Z) : Prop := 0 <= t <= 2 ^ 62.

Record times_ok (k : string) (ls : list positive) (st : EngineState W D) : Prop := {
  times_events : forall l e, l ∈ ls -> heap st !! l = Some e -> time_ok (EventTime e);
  times_cached : forall old, cached st k = Some old -> time_ok (LastSent old) /\ time_ok (FirstFireTime old)
}.

Lemma time_diff a b : time_ok a -> time_ok b -> i64 (a - b) = a - b.
Proof. unfold time_ok. auto with catpaw. Qed.

Lemma alert_run_flags ins ls st : (alert_run ins ls st).1.*1 = ls.
Proof.
  revert st. induction ls as [|l ls IH]; intros st; [done|]. cbn [alert_run].
  destruct (handleAlertEvent ins l st) as [sent st1]. specialize (IH st1).
  destruct (alert_run ins ls st1) as [flags st2]. cbn in *. by rewrite IH.
Qed.

Lemma delivery_times_frame h h' flags :
  (forall l, l ∈ flags.*1 -> h' !! l = h !! l) -> delivery_times h' flags = delivery_times h flags.
Proof.
  unfold delivery_times. induction flags as [|[l b] flags IH]; intros Hh; [done|].
  assert (delivery_time h' (l, b) = delivery_time h (l, b)) as Hd.
  { unfold delivery_time. cbn [fst snd]. rewrite Hh; [done|cbn; constructor]. }
  cbn [omap list_omap]. rewrite Hd, IH; [done|].
  intros l' Hl'. apply Hh. cbn. by constructor.
Qed.

Lemma times_ok_step k ins l ls st :
  run_ok k (l :: ls) st -> times_ok k (l :: ls) st ->
  times_ok k ls (handleAlertEvent ins l st).2.
Proof.
  intros Hok [Hte Htc]. destruct (run_step k l ls st Hok) as (e & He & Hk & [Hls Hnc] & Hu & Hv).
  destruct (frame_alert ins l st) as (Hh & _).
  destruct (handleAlertEvent ins l st) as [sent st1] eqn:Eh. cbn [snd] in *.
  pose proof (alert_step ins l e st sent st1 He Hu Hv Eh) as Hstep. rewrite Hk in Hstep.
  assert (time_ok (EventTime e)) as Hte1 by (apply (Hte l); [constructor|done]).
  assert (time_ok 0) as H0 by (unfold time_ok; lia).
  constructor.
  - intros l' e' Hl'. rewrite Hh.
    + apply Hte. by constructor.
    + intros ->. apply run_nodup in Hok. apply NoDup_cons in Hok as [? _]. done.
  - intros old'. destruct (cached st k) as [old|] eqn:Ec.
    + destruct (Htc old eq_refl). destruct Hstep as [Ht Hf]. destruct sent.
      * destruct Ht as (_ & e' & -> & Eq1 & Eq2 & _); [done|]. intros [= <-]. by rewrite Eq1, Eq2.
      * rewrite Hf by done. by intros [= <-].
    + destruct Hstep as (e' & -> & Ef & Ht & Hf). intros [= <-]. rewrite Ef.
      destruct sent; [destruct Ht as (_ & -> & _)|destruct Hf as (-> & _)]; rewrite ?Hls; done.
Qed.

Lemma not_suppressed_interval a e old :
  suppressed a e old = false -> 0 < RepeatInterval a ->
  time_ok (EventTime e) -> time_ok (LastSent old) ->
  in_seconds (RepeatInterval a) <= EventTime e - LastSent old.
Proof.
  intros Hs Hr He Ho. apply orb_false_iff in Hs as [_ Hs].
  rewrite (proj2 (Z.ltb_lt 0 (RepeatInterval a))) in Hs by done. cbn [andb] in Hs. zbool.
  by rewrite time_diff in Hs.
Qed.

Lemma not_suppressed_for a e old :
  suppressed a e old = false -> 0 < ForDuration a ->
  time_ok (EventTime e) -> time_ok (FirstFireTime old) ->
  in_seconds (ForDuration a) <= EventTime e - FirstFireTime old.
Proof.
  intros Hs Hr He Ho. apply orb_false_iff in Hs as [[Hs _]%orb_false_iff _].
  rewrite (proj2 (Z.ltb_lt 0 (ForDuration a))) in Hs by done. cbn [andb] in Hs. zbool.
  by rewrite time_diff in Hs.
Qed.

Lemma run_spacing k ins ls st flags st' :
  let d := in_seconds (RepeatInterval (ins_Alerting ins)) in
  let R := fun a b => d <= b - a in
  0 < RepeatInterval (ins_Alerting ins) ->
  run_ok k ls st -> times_ok k ls st ->
  alert_run ins ls st = (flags, st') ->
  Sorted R (delivery_times (heap st) flags) /\
  (forall old, cached st k = Some old -> HdRel R (LastSent old) (delivery_times (heap st) flags)).
Proof.
  intros d R Hpos. revert st flags. induction ls as [|l ls IH]; intros st flags Hok Ht.
  { intros [= <- <-]. split; [constructor|]. intros. constructor. }
  cbn [alert_run]. pose proof (run_ok_step k ins l ls st Hok) as Hok1.
  pose proof (times_ok_step k ins l ls st Hok Ht) as Ht1.
  destruct (frame_alert ins l st) as (Hframe & _).
  destruct (run_step k l ls st Hok) as (e & He & Hk & [Hls Hnc] & Hu & Hv).
  pose proof (times_events _ _ _ Ht l e ltac:(constructor) He) as Hte.
  apply run_nodup, NoDup_cons in Hok as [Hl _].
  destruct (handleAlertEvent ins l st) as [sent st1] eqn:Eh. cbn [snd] in *.
  pose proof (alert_run_flags ins ls st1) as Hfl.
  destruct (alert_run ins ls st1) as [flags1 st2] eqn:Er. intros [= <- <-]. cbn [fst] in Hfl.
  destruct (IH st1 flags1 Hok1 Ht1 Er) as [Hs Hhd]. clear IH.
  rewrite (delivery_times_frame (heap st) (heap st1)) in Hs, Hhd
    by (rewrite Hfl; intros l' ?; apply Hframe; by intros ->).
  pose proof (alert_step ins l e st sent st1 He Hu Hv Eh) as Hstep. rewrite Hk in Hstep.
  assert (delivery_time (heap st) (l, sent) = if sent then Some (EventTime e) else None) as Hdt.
  { unfold delivery_time. cbn [fst snd]. by rewrite He. }
  unfold delivery_times in *. cbn [omap list_omap]. rewrite Hdt. clear Hdt. destruct sent.
  - destruct (cached st k) as [old|] eqn:Ec.
    + destruct Hstep as [Hst _]. destruct Hst as (Hsup & e' & Ec1 & _ & Els & _); [done|].
      specialize (Hhd e' Ec1). rewrite Els in Hhd. split; [by constructor|].
      intros ? [= <-]. constructor. unfold R.
      apply not_suppressed_interval; try done. by apply (times_cached _ _ _ Ht).
    + destruct Hstep as (e' & Ec1 & _ & Hst & _). destruct Hst as (_ & Els & _); [done|].
      specialize (Hhd e' Ec1). rewrite Els in Hhd. split; [by constructor|done].
  - split; [done|]. destruct (cached st k) as [old|] eqn:Ec; [|done].
    destruct Hstep as [_ Hf]. intros ? [= <-]. by apply Hhd, Hf.
Qed.

Lemma run_hold k ins ls st flags st' :
  let d := in_seconds (ForDuration (ins_Alerting ins)) in
  0 < ForDuration (ins_Alerting ins) ->
  run_ok k ls st -> times_ok k ls st ->
  alert_run ins ls st = (flags, st') ->
  match cached st k with
  | Some old => Forall (fun t => d <= t - FirstFireTime old) (delivery_times (heap st) flags)
  | None => exists first, (ls = [] \/ EventTime <$> (head ls ≫= fun l => heap st !! l) = Some first) /\
      Forall (fun t => d <= t - first) (delivery_times (heap st) flags)
  end.
Proof.
  intros d Hpos. revert st flags. induction ls as [|l ls IH]; intros st flags Hok Ht.
  { intros [= <- <-]. case_match; [constructor|]. exists 0. split; [by left|constructor]. }
  cbn [alert_run]. pose proof (run_ok_step k ins l ls st Hok) as Hok1.
  pose proof (times_ok_step k ins l ls st Hok Ht) as Ht1.
  destruct (frame_alert ins l st) as (Hframe & _).
  destruct (run_step k l ls st Hok) as (e & He & Hk & [Hls Hnc] & Hu & Hv).
  pose proof (times_events _ _ _ Ht l e ltac:(constructor) He) as Hte.
  apply run_nodup, NoDup_cons in Hok as [Hl _].
  destruct (handleAlertEvent ins l st) as [sent st1] eqn:Eh. cbn [snd] in *.
  pose proof (alert_run_flags ins ls st1) as Hfl.
  destruct (alert_run ins ls st1) as [flags1 st2] eqn:Er. intros [= <- <-]. cbn [fst] in Hfl.
  pose proof (IH st1 flags1 Hok1 Ht1 Er) as Hrec. clear IH.
  rewrite (delivery_times_frame (heap st) (heap st1)) in Hrec
    by (rewrite Hfl; intros l' ?; apply Hframe; by intros ->).
  pose proof (alert_step ins l e st sent st1 He Hu Hv Eh) as Hstep. rewrite Hk in Hstep.
  assert (delivery_time (heap st) (l, sent) = if sent then Some (EventTime e) else None) as Hdt.
  { unfold delivery_time. cbn [fst snd]. by rewrite He. }
  unfold delivery_times in *. cbn [omap list_omap head mbind option_bind]. rewrite Hdt, He. clear Hdt.
  destruct (cached st k) as [old|] eqn:Ec.
  - destruct Hstep as [Hst Hf]. destruct sent.
    + destruct Hst as (Hsup & e' & Ec1 & Eff & _); [done|]. rewrite Ec1, Eff in Hrec.
      constructor; [|done]. apply not_suppressed_for; try done. by apply (times_cached _ _ _ Ht).
    + by rewrite Hf in Hrec.
  - destruct Hstep as (e' & Ec1 & Eff & Hst & _). rewrite Ec1, Eff in Hrec.
    exists (EventTime e). split; [by right|]. destruct sent; [|done].
    destruct Hst as [Hz _]; [done|]. lia.
Qed.

(** ** Properties *)

(** C1: A recovery is only ever forwarded for an alert key that was delivered
    before: in every reachable state, each recovery handed to the notifiers is
    preceded by an alert with the same key that some notifier accepted. *)
Theorem recovery_follows_delivery (w : W) (agg : option D) (st : EngineState W D) :
  reachable w agg st -> recovery_justified (forwarded st).
Proof. intros H%reachable_inv. apply H. Qed.

(** The cache of firing alerts stays well formed: in every reachable state each
    entry points to a live event whose status is an alert status and which is
    filed under its own alert key, so no event is cached twice. *)
Theorem cache_well_formed (w : W) (agg : option D) (st : EngineState W D) :
  reachable w agg st ->
  (forall k l, records st !! k = Some l ->
    exists e, heap st !! l = Some e /\ AlertKey e = k /\ EventStatus e <> EventStatusOk) /\
  (forall k1 k2 l, records st !! k1 = Some l -> records st !! k2 = Some l -> k1 = k2).
Proof.
  intros H%reachable_inv. split; [apply H|]. intros k1 k2 l H1 H2.
  destruct (inv_cached st H _ _ H1) as (e1 & He1 & <- & _).
  destruct (inv_cached st H _ _ H2) as (e2 & He2 & <- & _). congruence.
Qed.

(** C11: [repeat_number] bounds the notifications of an alert: in a run of alerts of
    one key that starts uncached and sees no recovery, at most [RepeatNumber]
    are delivered, and the cached counter is exactly that number. *)
Theorem repeat_number_bounds_deliveries (k : string) (ins : Instance) (ls : list positive)
    (st st' : EngineState W D) (flags : list (positive * bool)) :
  0 < RepeatNumber (ins_Alerting ins) -> in_i64 (RepeatNumber (ins_Alerting ins)) ->
  run_ok k ls st -> records st !! k = None ->
  alert_run ins ls st = (flags, st') ->
  deliveries flags <= RepeatNumber (ins_Alerting ins) /\ count_so_far st' k = deliveries flags.
Proof.
  intros Hpos Hin Hok Hk Hr.
  assert (count_so_far st k = 0) as H0 by (unfold count_so_far, cached; by rewrite Hk).
  eapply run_count in Hr as [H1 H2]; try done; lia.
Qed.

(** [repeat_interval] spaces notifications: in a run of alerts of one key, two
    consecutive deliveries are at least [RepeatInterval] apart, counting from
    the last delivery before the run. *)
Theorem repeat_interval_spaces_deliveries (k : string) (ins : Instance) (ls : list positive)
    (st st' : EngineState W D) (flags : list (positive * bool)) :
  0 < RepeatInterval (ins_Alerting ins) ->
  run_ok k ls st -> times_ok k ls st ->
  alert_run ins ls st = (flags, st') ->
  let R := fun a b => in_seconds (RepeatInterval (ins_Alerting ins)) <= b - a in
  Sorted R (delivery_times (heap st) flags) /\
  (forall old, cached st k = Some old -> HdRel R (LastSent old) (delivery_times (heap st) flags)).
Proof. intros. by eapply run_spacing. Qed.

(** [for_duration] holds an alert back: with a positive [ForDuration], nothing
    is delivered before the alert has been firing for that long, counting from
    the first event of the episode. *)
Theorem for_duration_holds_back (k : string) (ins : Instance) (ls : list positive)
    (st st' : EngineState W D) (flags : list (positive * bool)) :
  0 < ForDuration (ins_Alerting ins) ->
  run_ok k ls st -> times_ok k ls st ->
  alert_run ins ls st = (flags, st') ->
  let d := in_seconds (ForDuration (ins_Alerting ins)) in
  match cached st k with
  | Some old => Forall (fun t => d <= t - FirstFireTime old) (delivery_times (heap st) flags)
  | None => exists first, (ls = [] \/ EventTime <$> (head ls ≫= fun l => heap st !! l) = Some first) /\
      Forall (fun t => d <= t - first) (delivery_times (heap st) flags)
  end.
Proof. intros. by eapply run_hold. Qed.
End props.

(** ** Witnesses: one notifier that accepts everything, no hashing *)

#[local] Instance accept_all : Forwarder unit := fun w _ => (true, w).
#[local] Instance no_sink : DiagnoseSink unit := fun d _ _ _ _ _ => d.

Definition ex_alerting : Alerting := mkAlerting false (10 * Second) (60 * Second) 2 false.
Definition ex_instance (a : Alerting) : Instance :=
  mkInstance None a (mkDiagnoseConfig false "" 0 0).
Definition ex_env : nat -> Env := fun _ => mkEnv None "10.0.0.1" "host" "catpaw".
Definition ex_event (status : string) (t : Z) : Event :=
  mkEvent t status "k" (Some {["check" := "cpu"]}) None "" "" 0 0 0.

(** An alert, then its recovery. *)
Definition ex_gather (status : string) (t : Z) (st : EngineState unit unit) : EngineState unit unit :=
  gather id t ex_env "cpu" (mkPlugin None)
    (ex_instance (mkAlerting false 0 0 0 false)) [Some (ex_event status t)] st.
Definition ex_state : EngineState unit unit :=
  ex_gather EventStatusOk 160 (ex_gather EventStatusWarning 100 (init_state tt None)).

Lemma ex_reachable : reachable id tt None ex_state.
Proof.
  repeat (apply reach_gather; [|intros e He; apply list_elem_of_singleton in He as [= ->]; done]).
  apply reach_init.
Qed.

Lemma recovery_follows_delivery_witness :
  EventStatus <$> (forwarded ex_state).*1 = [EventStatusWarning; EventStatusOk] /\
  recovery_justified (forwarded ex_state).
Proof.
  split; [by vm_compute|]. apply (recovery_follows_delivery id tt None). exact ex_reachable.
Defined.

Lemma cache_well_formed_witness :
  let st := ex_gather EventStatusWarning 220 ex_state in
  size (records st) = 1%nat /\
  (forall k1 k2 l, records st !! k1 = Some l -> records st !! k2 = Some l -> k1 = k2).
Proof.
  intros st. split; [by vm_compute|].
  apply (cache_well_formed id tt None st). apply reach_gather; [exact ex_reachable|].
  intros e He; apply list_elem_of_singleton in He as [= ->]; done.
Defined.

(** Alerts of one key at the given times. *)
Definition ex_heap (ts : list Z) : gmap positive Event :=
  list_to_map (imap (fun i t => (Pos.of_succ_nat i, ex_event EventStatusWarning t)) ts).
Definition ex_run_state (ts : list Z) : EngineState unit unit :=
  mkEngineState (ex_heap ts) ∅ ∅ tt None [].
Definition ex_ptrs (ts : list Z) : list positive := Pos.of_succ_nat <$> seq 0 (length ts).
Definition ex_times : list Z := [100; 105; 111; 112; 171; 300].

Lemma ex_run_ok : run_ok "k" (ex_ptrs ex_times) (ex_run_state ex_times).
Proof.
  constructor.
  - apply (bool_decide_unpack (NoDup (ex_ptrs ex_times))). by vm_compute.
  - cbn. intros l Hl. repeat (apply elem_of_cons in Hl as [->|Hl]; [by eexists|]). by apply not_elem_of_nil in Hl.
  - done.
  - done.
Qed.
Lemma ex_times_ok : times_ok "k" (ex_ptrs ex_times) (ex_run_state ex_times).
Proof.
  constructor; [|done].
  cbn. intros l e Hl. repeat (apply elem_of_cons in Hl as [->|Hl];
    [intros He; vm_compute in He; injection He as <-; vm_compute; split; discriminate|]). by apply not_elem_of_nil in Hl.
Qed.

(** Six alerts, 10s of [for_duration], one a minute, two at most: the ones at
    111 and 171 are delivered. *)
Definition ex_run := alert_run (ex_instance ex_alerting) (ex_ptrs ex_times) (ex_run_state ex_times).

Lemma repeat_number_bounds_deliveries_witness :
  deliveries ex_run.1 = 2 /\ count_so_far ex_run.2 "k" = deliveries ex_run.1.
Proof.
  split; [by vm_compute|].
  refine (proj2 (repeat_number_bounds_deliveries "k" (ex_instance ex_alerting) (ex_ptrs ex_times)
    (ex_run_state ex_times) ex_run.2 ex_run.1 _ _ ex_run_ok _ _)); by vm_compute.
Defined.

Lemma repeat_interval_spaces_deliveries_witness :
  delivery_times (ex_heap ex_times) ex_run.1 = [111; 171] /\
  Sorted (fun a b => 60 <= b - a) (delivery_times (ex_heap ex_times) ex_run.1).
Proof.
  split; [by vm_compute|].
  refine (proj1 (repeat_interval_spaces_deliveries "k" (ex_instance ex_alerting) (ex_ptrs ex_times)
    (ex_run_state ex_times) ex_run.2 ex_run.1 _ ex_run_ok ex_times_ok _)); by vm_compute.
Defined.

Lemma for_duration_holds_back_witness :
  exists first : Z, (ex_ptrs ex_times = [] \/ Some 100 = Some first) /\
    Forall (fun t => 10 <= t - first) (delivery_times (ex_heap ex_times) ex_run.1).
Proof.
  refine (for_duration_holds_back "k" (ex_instance ex_alerting) (ex_ptrs ex_times)
    (ex_run_state ex_times) ex_run.2 ex_run.1 _ ex_run_ok ex_times_ok _); by vm_compute.
Defined.
