(* ===== verification/AlertKey.v ===== *)
(** * Cleaning and alert keys: properties of [clean]

    The alert key is the MD5 of the sorted [key:value:] pairs of the labels.
    It does not depend on map iteration order; it separates label sets without
    colons, and it confuses some label sets that contain them. *)
From S2P Require Import Prelude GoStr Types Config DiagTypes Engine.
#[local] Open Scope Z_scope.

(** The pairs that are written, and the text they give. *)
Fixpoint write_pairs (ps : list (string * string)) : string :=
  match ps with
  | [] => ""
  | (k, v) :: ps' => k +:+ ":" +:+ v +:+ ":" +:+ write_pairs ps'
  end.

Definition colon : ascii := ":"%char.
Fixpoint no_colon (s : string) : bool :=
  match s with "" => true | String c s' => negb (bool_decide (c = colon)) && no_colon s' end.

(** A label set none of whose keys and values contains a colon. *)
Definition colon_free (labels : gmap string string) : Prop :=
  map_Forall (fun k v => no_colon k = true /\ no_colon v = true) labels.

(** The label each key of a cleaned event carries, from the last writer to the
    first. *)
Definition label_after_clean (env : Env) (pluginName : string) (pl : Plugin) (ins : Instance)
    (labels : gomap string) (k : string) : option string :=
  if decide (k = "from_agent") then Some (FromAgent env)
  else if decide (k = "from_hostname") then Some (AgentHostname env)
  else if decide (k = "from_hostip") then Some (AgentIP env)
  else match global_Labels env ≫= lookup k with Some v => Some v | None =>
    match ins_Labels ins ≫= lookup k with Some v => Some v | None =>
    match pl_Labels pl ≫= lookup k with Some v => Some v | None =>
    if decide (k = "from_plugin") then Some pluginName else labels ≫= lookup k
    end end end.

Lemma write_labels_pairs m keys :
  write_labels m keys = write_pairs ((fun k => (k, default "" (m !! k))) <$> keys).
Proof. induction keys as [|k keys IH]; [done|]. cbn. by rewrite IH. Qed.

Lemma split_colon a b x y :
  no_colon a = true -> no_colon b = true ->
  a +:+ ":" +:+ x = b +:+ ":" +:+ y -> a = b /\ x = y.
Proof.
  revert b. induction a as [|c a IH]; intros [|d b] Ha Hb; rewrite ?sapp_nil, ?sapp_cons;
    cbn [no_colon] in *; rewrite ?sapp_nil.
  - intros [= H]. done.
  - intros [= <- _]. done.
  - intros [= -> _]. done.
  - apply andb_true_iff in Ha as [_ Ha], Hb as [_ Hb].
    intros [= -> H]. by destruct (IH b Ha Hb H) as [-> ->].
Qed.

Lemma write_pairs_inj ps qs :
  Forall (fun p => no_colon p.1 = true /\ no_colon p.2 = true) ps ->
  Forall (fun p => no_colon p.1 = true /\ no_colon p.2 = true) qs ->
  write_pairs ps = write_pairs qs -> ps = qs.
Proof.
  intros Hp. revert qs.
  induction Hp as [|[k v] ps [Hk Hv] Hp IH]; intros qs Hq; destruct Hq as [|[k' v'] qs [Hk' Hv'] Hq];
    cbn [write_pairs fst snd] in *.
  - done.
  - intros H. exfalso. by destruct k'.
  - intros H. exfalso. by destruct k.
  - intros [-> H]%split_colon; [|done..]. apply split_colon in H as [-> H]; [|done..].
    by rewrite (IH qs).
Qed.

Lemma label_keys_pairs m :
  (fun k => (k, default "" (m !! k))) <$> label_keys m = map_to_list m.
Proof.
  unfold label_keys. rewrite <- list_fmap_compose.
  rewrite <- (list_fmap_id (map_to_list m)) at 2. apply list_fmap_ext.
  intros i [k v] Hi%list_elem_of_lookup_2%elem_of_map_to_list. cbn. by rewrite Hi.
Qed.

Lemma sorted_pairs_perm m :
  (fun k => (k, default "" (m !! k))) <$> sort_Strings (label_keys m) ≡ₚ map_to_list m.
Proof. rewrite sort_Strings_perm. by rewrite label_keys_pairs. Qed.

(** ** Properties *)

(** Cleaning settles every label: identity labels win over the global ones,
    those over the instance's, those over the plugin's, and the event's own
    labels come last ([from_plugin] just before them). *)
Theorem clean_label_precedence (MD5 : string -> string) (event : Event) (now : Z) (env : Env)
    (name : string) (pl : Plugin) (ins : Instance) (k : string) :
  EventStatusValid (EventStatus event) = true ->
  exists labels, Labels (clean MD5 event now env name pl ins).2 = Some labels /\
    labels !! k = label_after_clean env name pl ins (Labels event) k.
Proof.
  intros Hs. unfold clean.
  destruct (EventTime event =? 0); cbn [EventStatus with_EventTime]; rewrite Hs; cbn;
    (eexists; split; [done|]); unfold clean_labels, label_after_clean;
    rewrite !lookup_insert, !copy_into_lookup, lookup_insert;
    repeat (case_decide; subst; try congruence); try done;
    by destruct (Labels event).
Qed.

(** Label sets without colons are told apart by the hashed text. *)
Theorem alert_key_injective (l1 l2 : gmap string string) :
  colon_free l1 -> colon_free l2 ->
  alert_key_input l1 (label_keys l1) = alert_key_input l2 (label_keys l2) -> l1 = l2.
Proof.
  intros H1 H2. unfold alert_key_input. rewrite !write_labels_pairs.
  assert (forall m, colon_free m -> Forall (fun p => no_colon p.1 = true /\ no_colon p.2 = true)
    ((fun k => (k, default "" (m !! k))) <$> sort_Strings (label_keys m))) as Hcf.
  { intros m Hm. rewrite sorted_pairs_perm. apply Forall_forall.
    intros [k v] Hkv%elem_of_map_to_list. by apply Hm. }
  intros Heq%write_pairs_inj; [|by apply Hcf..].
  apply map_to_list_inj. by rewrite <- !sorted_pairs_perm, Heq.
Qed.

(** Colons in label values defeat the key: two events with different labels,
    cleaned alike, get the same alert key whatever the hash function is. *)
Theorem alert_key_collision :
  exists (e1 e2 : Event) (env : Env) (pl : Plugin) (ins : Instance),
    Labels e1 <> Labels e2 /\
    forall (MD5 : string -> string) (now : Z),
      (clean MD5 e1 now env "net" pl ins).1 = true /\
      (clean MD5 e2 now env "net" pl ins).1 = true /\
      AlertKey (clean MD5 e1 now env "net" pl ins).2
        = AlertKey (clean MD5 e2 now env "net" pl ins).2.
Proof.
  set (ev := fun l => mkEvent 1 EventStatusWarning "" (Some l) None "" "" 0 0 0).
  exists (ev {["target" := "h:zone:b"]}), (ev (<["target" := "h"]> {["zone" := "b"]})),
    (mkEnv None "10.0.0.1" "host" "catpaw"), (mkPlugin None),
    (mkInstance None (mkAlerting false 0 0 0 false) (mkDiagnoseConfig false "" 0 0)).
  split.
  { apply (bool_decide_unpack (Labels (ev _) <> Labels (ev _))). vm_compute. exact I. }
  intros MD5 now.
  vm_compute. repeat split.
Qed.

(** ** Witnesses *)

Lemma clean_label_precedence_witness :
  exists labels, Labels (clean id (mkEvent 1 EventStatusWarning "" (Some ex_labels) None "" "" 0 0 0)
      5 (mkEnv (Some {["target" := "global"]}) "ip" "h" "a") "cpu" (mkPlugin (Some {["target" := "plugin"]}))
      (mkInstance None (mkAlerting false 0 0 0 false) (mkDiagnoseConfig false "" 0 0))).2 = Some labels /\
    labels !! "target" = Some "global".
Proof. apply (clean_label_precedence id). reflexivity. Defined.

Lemma alert_key_injective_witness :
  colon_free ex_labels /\ colon_free {["check" := "cpu"]} /\
  alert_key_input ex_labels (label_keys ex_labels)
    <> alert_key_input {["check" := "cpu"]} (label_keys {["check" := "cpu"]}).
Proof.
  assert (colon_free ex_labels) as H1.
  { apply (bool_decide_unpack (map_Forall _ ex_labels)). vm_compute. exact I. }
  assert (colon_free {["check" := "cpu"]}) as H2.
  { apply (bool_decide_unpack (map_Forall _ {["check" := "cpu"]})). vm_compute. exact I. }
  split; [exact H1|]. split; [exact H2|]. intros H.
  apply (alert_key_injective _ _ H1 H2) in H. apply (f_equal size) in H. vm_compute in H. discriminate.
Defined.
