(* ===== verification/DiagState.v ===== *)
(** * Token budget and cooldowns (digcore/diagnose/state.go)

    [DiagnoseState] counts the tokens used today and remembers until when each
    target is cooling down.  Every operation reads the clock it is given.  The
    file holds the indented JSON that [Save] writes and [Load] decodes. *)
From S2P Require Import Prelude GoStr Types GoConv GoJson GoJsonProps JsonDec DiagTypes.
#[local] Open Scope Z_scope.
#[local] Open Scope go_scope.

(** A reading of [time.Now()]: nanoseconds since the epoch and the local date
    in the format [2006-01-02]. *)
Record Clock := mkClock { nanos : Z; today : string }.
Definition Unix (ns : Z) : Z := ns / Second.

Record DiagnoseState := mkDiagnoseState {
  Date : string;
  InputTokens : Z;
  OutputTokens : Z;
  Cooldowns : gomap Z
}.

Definition NewDiagnoseState (c : Clock) : DiagnoseState := mkDiagnoseState (today c) 0 0 (Some ∅).

Definition set_Cooldowns (m : gomap Z) (s : DiagnoseState) : DiagnoseState :=
  mkDiagnoseState (Date s) (InputTokens s) (OutputTokens s) m.

Definition resetIfNewDay (c : Clock) (s : DiagnoseState) : DiagnoseState :=
  if decide (Date s = today c) then s else mkDiagnoseState (today c) 0 0 (Cooldowns s).

Definition AddTokens (c : Clock) (input output : Z) (s : DiagnoseState) : DiagnoseState :=
  let s := resetIfNewDay c s in
  mkDiagnoseState (Date s) (InputTokens s ⊞ input) (OutputTokens s ⊞ output) (Cooldowns s).

Definition TotalTokens (c : Clock) (s : DiagnoseState) : Z * DiagnoseState :=
  let s := resetIfNewDay c s in (InputTokens s ⊞ OutputTokens s, s).

(** A write to a nil map panics; [Load] and [NewDiagnoseState] exclude it. *)
Definition UpdateCooldown (c : Clock) (plugin target : string) (duration : Z) (s : DiagnoseState)
  : go DiagnoseState :=
  match Cooldowns s with
  | None => Panic
  | Some m => Ret (set_Cooldowns (Some (<[target_key plugin target := Unix (nanos c + duration)]> m)) s)
  end.

Definition IsCooldownActive (c : Clock) (plugin target : string) (s : DiagnoseState)
  : bool * DiagnoseState :=
  let key := target_key plugin target in
  match Cooldowns s ≫= lookup key with
  | None => (false, s)
  | Some expires =>
    if expires <=? Unix (nanos c) then (false, set_Cooldowns (delete key <$> Cooldowns s) s)
    else (true, s)
  end.

Definition IsDailyLimitReached (c : Clock) (limit : Z) (s : DiagnoseState) : bool * DiagnoseState :=
  if limit <=? 0 then (false, s)
  else let '(total, s) := TotalTokens c s in (limit <=? total, s).

Definition cleanExpiredCooldowns (c : Clock) (s : DiagnoseState) : DiagnoseState :=
  set_Cooldowns (filter (fun p => Unix (nanos c) < p.2) <$> Cooldowns s) s.

(** [FormatUsage]. *)
Definition FormatUsage (s : DiagnoseState) : string :=
  "date=" +:+ Date s +:+ " input=" +:+ itoa (InputTokens s) +:+ " output=" +:+ itoa (OutputTokens s)
  +:+ " total=" +:+ itoa (InputTokens s ⊞ OutputTokens s).

(** ** The file *)

(** The JSON of a state: the fields by their tags; a nil map is [null]. *)
Definition cooldowns_value (m : gomap Z) : jval :=
  match m with None => VNull | Some m => VObj (sorted_members 0 (fun z => VNum (itoa z)) m) end.
Definition state_value (s : DiagnoseState) : jval :=
  VObj [("date", VStr (Date s)); ("input_tokens", VNum (itoa (InputTokens s)));
        ("output_tokens", VNum (itoa (OutputTokens s))); ("cooldowns", cooldowns_value (Cooldowns s))].
(** [json.MarshalIndent] with two blanks; it has no error for these fields. *)
Definition state_text (s : DiagnoseState) : string := json_MarshalIndent "" "  " (state_value s).

(** [json.Unmarshal(data, s)]: a text that is no JSON leaves the state alone; a
    field of the wrong type is an error after which decoding goes on; members
    are added to the map that is there. *)
Definition dec_cooldowns (v : jval) (d : dec (gomap Z)) : dec (gomap Z) :=
  match v with
  | VNull => (None, d.2)
  | VObj _ => let '(m, ok) := dec_map 0 dec_int v (default ∅ d.1, d.2) in (Some m, ok)
  | _ => wrong d
  end.
Definition state_field (k : string) (v : jval) (d : dec DiagnoseState) : dec DiagnoseState :=
  if same_name k "date" then in_field Date (fun x s => mkDiagnoseState x (InputTokens s) (OutputTokens s) (Cooldowns s)) dec_string v d
  else if same_name k "input_tokens" then
    in_field InputTokens (fun x s => mkDiagnoseState (Date s) x (OutputTokens s) (Cooldowns s)) dec_int v d
  else if same_name k "output_tokens" then
    in_field OutputTokens (fun x s => mkDiagnoseState (Date s) (InputTokens s) x (Cooldowns s)) dec_int v d
  else if same_name k "cooldowns" then in_field Cooldowns set_Cooldowns dec_cooldowns v d
  else d.
Definition unmarshal (data : string) (s : DiagnoseState) : DiagnoseState * bool :=
  match json_Unmarshal data with
  | None => (s, false)
  | Some v => dec_struct state_field v (s, true)
  end.

(** [file] is [None] when the file cannot be read. *)
Definition Load (c : Clock) (file : option string) (s : DiagnoseState) : DiagnoseState :=
  match file with
  | None => s
  | Some data =>
    let '(s, ok) := unmarshal data s in
    let s := if ok then s else mkDiagnoseState (today c) 0 0 (Cooldowns s) in
    let s := match Cooldowns s with None => set_Cooldowns (Some ∅) s | Some _ => s end in
    cleanExpiredCooldowns c (resetIfNewDay c s)
  end.

(** The state file and its temporary sibling. *)
Record StateDir := mkStateDir { state_file : option string; state_tmp : option string }.

(** What the file system answers during one [Save]. *)
Record SaveIO := mkSaveIO {
  mkdir_ok : bool;
  write_ok : bool;
  partial : option string;  (** what a failed write leaves in the temporary file *)
  rename_ok : bool
}.

Definition Save (io : SaveIO) (s : DiagnoseState) (dir : StateDir) : StateDir :=
  let data := state_text s in
  if negb (mkdir_ok io) then dir
  else if negb (write_ok io) then mkStateDir (state_file dir) (partial io)
  else if negb (rename_ok io) then mkStateDir (state_file dir) None
  else mkStateDir (Some data) None.

(** ** Lemmas *)

Lemma resetIfNewDay_date c s : Date (resetIfNewDay c s) = today c.
Proof. unfold resetIfNewDay. by case_decide. Qed.

Lemma resetIfNewDay_idem c s : resetIfNewDay c (resetIfNewDay c s) = resetIfNewDay c s.
Proof. unfold resetIfNewDay at 1. by rewrite resetIfNewDay_date, decide_True. Qed.

Lemma resetIfNewDay_cooldowns c s : Cooldowns (resetIfNewDay c s) = Cooldowns s.
Proof. unfold resetIfNewDay. by case_decide. Qed.

(** The expiry recorded for a target. *)
Definition cooldown_of (s : DiagnoseState) (plugin target : string) : option Z :=
  Cooldowns s ≫= lookup (target_key plugin target).

Lemma IsCooldownActive_spec c plugin target s :
  (IsCooldownActive c plugin target s).1 = true <->
  exists expires, cooldown_of s plugin target = Some expires /\ Unix (nanos c) < expires.
Proof.
  unfold IsCooldownActive, cooldown_of. destruct (Cooldowns s ≫= _) as [x|] eqn:E.
  - case_match; zbool; cbn; split; try done.
    + intros (y & [= ->] & ?). lia.
    + eauto.
  - split; [done|]. by intros (? & ? & _).
Qed.

(** Looking a cooldown up only forgets it when it has expired. *)
Lemma IsCooldownActive_keeps c plugin target s plugin' target' expires :
  cooldown_of s plugin' target' = Some expires -> Unix (nanos c) < expires ->
  cooldown_of (IsCooldownActive c plugin target s).2 plugin' target' = Some expires.
Proof.
  intros He Hlt. unfold IsCooldownActive, cooldown_of in *.
  destruct (Cooldowns s ≫= lookup (target_key plugin target)) as [x|] eqn:E; [|done].
  case_match; zbool; [|done]. cbn. destruct (Cooldowns s) as [m|]; [|done]. cbn in *.
  rewrite lookup_delete_ne; [done|]. intros Hk. rewrite Hk in E. simplify_eq. lia.
Qed.

Lemma IsCooldownActive_shrinks c plugin target s p t x :
  cooldown_of (IsCooldownActive c plugin target s).2 p t = Some x -> cooldown_of s p t = Some x.
Proof.
  unfold IsCooldownActive, cooldown_of.
  destruct (Cooldowns s) as [m|] eqn:E; cbn; [|by rewrite E].
  destruct (m !! target_key plugin target); [|cbn; by rewrite E].
  case_match; cbn; [|by rewrite E]. by intros [_ ?]%lookup_delete_Some.
Qed.

Lemma IsCooldownActive_false c plugin target s :
  (IsCooldownActive c plugin target s).1 = false <->
  forall expires, cooldown_of s plugin target = Some expires -> expires <= Unix (nanos c).
Proof.
  rewrite <- not_true_iff_false, IsCooldownActive_spec. split.
  - intros Hn x Hx. destruct (Z.le_gt_cases x (Unix (nanos c))); [done|]. destruct Hn. eauto.
  - intros H (x & Hx & Hlt). specialize (H x Hx). lia.
Qed.

(** The tokens counted on the day of the clock. *)
Definition tokens_today (c : Clock) (s : DiagnoseState) : Z :=
  if decide (Date s = today c) then InputTokens s ⊞ OutputTokens s else 0.

(** What the two checks of a submission leave as it is: the cooldowns that run
    and the tokens of the day. *)
Definition same_budget (c : Clock) (s s' : DiagnoseState) : Prop :=
  (forall p t x, Unix (nanos c) < x -> cooldown_of s' p t = Some x <-> cooldown_of s p t = Some x) /\
  tokens_today c s' = tokens_today c s.

Lemma IsCooldownActive_same c plugin target s : same_budget c s (IsCooldownActive c plugin target s).2.
Proof.
  split.
  - intros p t x Hx. split; [apply IsCooldownActive_shrinks|]. intros H. by apply IsCooldownActive_keeps.
  - unfold IsCooldownActive. destruct (Cooldowns s ≫= _); [|done]. by case_match.
Qed.

Lemma IsDailyLimitReached_spec c limit s :
  ((IsDailyLimitReached c limit s).1 = false <-> (0 < limit -> tokens_today c s < limit)) /\
  same_budget c s (IsDailyLimitReached c limit s).2.
Proof.
  unfold IsDailyLimitReached, TotalTokens, tokens_today, same_budget, cooldown_of.
  destruct (limit <=? 0) eqn:E; zbool; [by split; [split; [lia|]|]|]. cbn [fst snd].
  rewrite resetIfNewDay_cooldowns. split.
  - unfold resetIfNewDay. destruct (decide (Date s = today c)); cbn; rewrite Z.leb_gt;
      [tauto|]. change (0 ⊞ 0) with 0. lia.
  - split; [done|]. unfold resetIfNewDay. destruct (decide (Date s = today c)); [done|]. unfold tokens_today. cbn. rewrite decide_True, decide_False by done. done.
Qed.

Lemma Unix_mono a b : a <= b -> Unix a <= Unix b.
Proof. intros. apply Z.div_le_mono; [unfold Second; lia|done]. Qed.

Lemma Save_cases (io : SaveIO) (s : DiagnoseState) (dir : StateDir) :
  (state_file (Save io s dir) = state_file dir \/ state_file (Save io s dir) = Some (state_text s)) /\
  (mkdir_ok io = true -> write_ok io = true ->
     state_tmp (Save io s dir) = None /\ (rename_ok io = true -> state_file (Save io s dir) = Some (state_text s))).
Proof.
  unfold Save. destruct (mkdir_ok io), (write_ok io), (rename_ok io); cbn -[state_text];
    (split; [first [by left | by right]|done]).
Qed.

(** A state that is written in whole: text of whole runes, numbers of 64 bits. *)
Record state_ok (s : DiagnoseState) : Prop := {
  so_date : utf8 (Date s);
  so_input : in_i64 (InputTokens s);
  so_output : in_i64 (OutputTokens s);
  so_cooldowns : map_Forall (fun k t => utf8 k /\ in_i64 t) (default ∅ (Cooldowns s))
}.

Lemma dec_int_itoa z x ok : in_i64 z -> dec_int (VNum (itoa z)) (x, ok) = (z, ok).
Proof. intros Hz. unfold dec_int. change (ParseInt (itoa z)) with (Atoi (itoa z)). by rewrite Atoi_itoa. Qed.

Lemma state_value_ok s : state_ok s -> json_ok 2 (state_value s).
Proof.
  intros [Hd _ _ Hc]. constructor. repeat constructor; try done; try (by apply ValidString_utf8); try (by vm_compute).
  cbn [fst snd]. destruct (Cooldowns s) as [m|]; [|constructor]. constructor. apply Forall_map, Forall_forall. intros k Hk.
  rewrite sort_Strings_perm in Hk. apply list_elem_of_fmap in Hk as ([k' v] & -> & Hin). apply elem_of_map_to_list in Hin.
  split; [by apply (Hc k' v)|constructor].
Qed.

(** Decoding what was written, into a state without cooldowns. *)
Lemma unmarshal_state_text s s0 : state_ok s -> Cooldowns s0 = Some ∅ -> Cooldowns s <> None ->
  unmarshal (state_text s) s0 = (s, true).
Proof.
  intros Hs H0 Hn. unfold unmarshal, state_text. rewrite MarshalIndent_Unmarshal;
    [|done|done|apply (json_ok_mono 2); [by apply state_value_ok|by apply Nat.leb_le]].
  destruct Hs as [_ Hi Ho Hc], s as [date i o [m|]]; [|done]. cbn [Date InputTokens OutputTokens Cooldowns default] in *.
  unfold state_value, dec_struct. cbn [fold_left Date InputTokens OutputTokens Cooldowns].
  unfold state_field at 4. change (same_name "date" "date") with true. cbv iota. unfold in_field at 1. cbn [dec_string fst snd].
  unfold state_field at 3. change (same_name "input_tokens" "date") with false. change (same_name "input_tokens" "input_tokens") with true.
  cbv iota. unfold in_field at 1. cbn [fst snd]. rewrite dec_int_itoa by done.
  unfold state_field at 2. change (same_name "output_tokens" "date") with false. change (same_name "output_tokens" "input_tokens") with false.
  change (same_name "output_tokens" "output_tokens") with true. cbv iota. unfold in_field at 1. cbn [fst snd]. rewrite dec_int_itoa by done.
  unfold state_field. change (same_name "cooldowns" "date") with false. change (same_name "cooldowns" "input_tokens") with false.
  change (same_name "cooldowns" "output_tokens") with false. change (same_name "cooldowns" "cooldowns") with true. cbv iota.
  unfold in_field, dec_cooldowns, cooldowns_value. cbn [Cooldowns fst snd]. rewrite H0. cbn [default from_option id].
  rewrite dec_map_back; [done|]. intros k t Ht. apply dec_int_itoa. by apply (Hc k).
Qed.

(** ** Properties *)

(** A cooldown holds exactly until it expires: after [UpdateCooldown] at time
    [c] the target is cooling down at a later time [c'] if and only if the
    duration has not elapsed (in whole seconds), and looking up any target at
    any time before does not change that. *)
Theorem cooldown_window (c c1 c' : Clock) (plugin target p1 t1 : string) (duration : Z)
    (s s' : DiagnoseState) :
  UpdateCooldown c plugin target duration s = Ret s' ->
  nanos c1 <= nanos c' ->
  (IsCooldownActive c' plugin target (IsCooldownActive c1 p1 t1 s').2).1
    = bool_decide (Unix (nanos c') < Unix (nanos c + duration)).
Proof.
  unfold UpdateCooldown. destruct (Cooldowns s) as [m|]; [|done]. intros [= <-] Hle.
  apply Unix_mono in Hle.
  set (s' := set_Cooldowns _ s).
  assert (cooldown_of s' plugin target = Some (Unix (nanos c + duration))) as Hc.
  { unfold cooldown_of. cbn. by rewrite lookup_insert_eq. }
  case_bool_decide as Hlt.
  - apply IsCooldownActive_spec. eexists. split; [|exact Hlt].
    apply IsCooldownActive_keeps; [done|lia].
  - apply not_true_iff_false. rewrite IsCooldownActive_spec. intros (x & Hx & Hlt').
    apply IsCooldownActive_shrinks in Hx. rewrite Hc in Hx. simplify_eq. lia.
Qed.

(** The daily budget: while the date and the int64 range hold, the limit is
    reached exactly when the tokens recorded today add up to it; on another day
    the count restarts from zero; a limit of zero or less never blocks. *)
Theorem daily_limit (c : Clock) (limit input output : Z) (s : DiagnoseState) :
  let before := resetIfNewDay c s in
  in_i64 (InputTokens before + input) -> in_i64 (OutputTokens before + output) ->
  in_i64 (InputTokens before + input + (OutputTokens before + output)) ->
  (IsDailyLimitReached c limit (AddTokens c input output s)).1
    = bool_decide (0 < limit) &&
      bool_decide (limit <= InputTokens before + OutputTokens before + input + output)
  /\ (Date s <> today c -> InputTokens before = 0 /\ OutputTokens before = 0).
Proof.
  intros before H1 H2 H3. split.
  - unfold IsDailyLimitReached, TotalTokens, AddTokens. fold before.
    assert (resetIfNewDay c (mkDiagnoseState (Date before) (InputTokens before ⊞ input)
      (OutputTokens before ⊞ output) (Cooldowns before))
      = mkDiagnoseState (Date before) (InputTokens before + input)
      (OutputTokens before + output) (Cooldowns before)) as ->.
    { rewrite !i64_id by done. unfold resetIfNewDay; cbn.
      unfold before. by rewrite resetIfNewDay_date, decide_True. }
    cbn. rewrite (i64_id (_ + _ + _)) by done.
    destruct (limit <=? 0) eqn:E; zbool; cbn [fst].
    + by rewrite (bool_decide_eq_false_2 (0 < limit)) by lia.
    + rewrite (bool_decide_eq_true_2 (0 < limit)) by lia. cbn [andb].
      apply eq_true_iff_eq. rewrite Z.leb_le, bool_decide_eq_true. lia.
  - intros Hd. unfold before, resetIfNewDay. by rewrite decide_False.
Qed.

(** Saving is atomic: whatever step fails, the state file afterwards is the old
    one or the complete encoding of the state, and a completed or failed rename
    leaves no temporary file. *)
Theorem Save_atomic (io : SaveIO) (s : DiagnoseState) (dir : StateDir) :
  (state_file (Save io s dir) = state_file dir \/ state_file (Save io s dir) = Some (state_text s)) /\
  (mkdir_ok io = true -> write_ok io = true ->
     state_tmp (Save io s dir) = None /\ (rename_ok io = true -> state_file (Save io s dir) = Some (state_text s))).
Proof. apply Save_cases. Qed.

(** C18: A restart on the same day loses nothing but expired cooldowns: when the
    file of a state was written without an I/O error, loading it into the state
    a new process starts with gives the counters back and exactly the cooldowns
    that still run.  The date and the keys are valid UTF-8, and the numbers fit
    in 64 bits. *)
Theorem restart_round_trip (io : SaveIO) (dir : StateDir) (start c : Clock) (s : DiagnoseState) (m : gmap string Z) :
  state_ok s -> Cooldowns s = Some m -> Date s = today c ->
  mkdir_ok io = true -> write_ok io = true -> rename_ok io = true ->
  Load c (state_file (Save io s dir)) (NewDiagnoseState start)
    = mkDiagnoseState (Date s) (InputTokens s) (OutputTokens s)
        (Some (filter (fun p => Unix (nanos c) < p.2) m)).
Proof.
  intros Hs Hc Hd Hmk Hw Hr.
  destruct (proj2 (Save_cases io s dir)) as [_ Hf]; [done..|].
  rewrite Hf by done. unfold Load. rewrite unmarshal_state_text, Hc by (done || congruence). unfold resetIfNewDay.
  rewrite decide_True by done. unfold cleanExpiredCooldowns, set_Cooldowns. by rewrite Hc.
Qed.

(** ** Witnesses *)

Definition ex_clock (s : Z) : Clock := mkClock (s * Second) "2025-03-01".

Definition ex_cooldowns : gmap string Z := <["cpu::h" := 500]> {["disk::h" := 90]}.
Definition ex_state : DiagnoseState := mkDiagnoseState "2025-03-01" 7 (2 ^ 40) (Some ex_cooldowns).

(** The cooldown of [cpu] still runs at second 100, that of [disk] is over. *)
Lemma restart_round_trip_witness :
  Load (ex_clock 100) (state_file (Save (mkSaveIO true true None true) ex_state (mkStateDir (Some "old") None)))
    (NewDiagnoseState (ex_clock 99))
  = mkDiagnoseState "2025-03-01" 7 (2 ^ 40) (Some (filter (fun p => Unix (nanos (ex_clock 100)) < p.2) ex_cooldowns)).
Proof.
  apply (restart_round_trip _ _ (ex_clock 99) (ex_clock 100) ex_state ex_cooldowns); try reflexivity.
  constructor; [apply ValidString_utf8; reflexivity|vm_compute; split; discriminate..|].
  apply map_Forall_insert_2; [|apply map_Forall_singleton];
    (split; [apply ValidString_utf8; reflexivity|vm_compute; split; discriminate]).
Defined.

(** A cooldown of a minute is over at second 160 and not before, even when
    another target is looked up in between. *)
Lemma cooldown_window_witness :
  exists s', UpdateCooldown (ex_clock 100) "cpu" "h" Minute (NewDiagnoseState (ex_clock 99)) = Ret s' /\
    (IsCooldownActive (ex_clock 159) "cpu" "h" (IsCooldownActive (ex_clock 150) "disk" "h" s').2).1
      = bool_decide (Unix (nanos (ex_clock 159)) < Unix (nanos (ex_clock 100) + Minute)) /\
    (IsCooldownActive (ex_clock 160) "cpu" "h" (IsCooldownActive (ex_clock 150) "disk" "h" s').2).1
      = bool_decide (Unix (nanos (ex_clock 160)) < Unix (nanos (ex_clock 100) + Minute)).
Proof.
  eexists. split; [reflexivity|].
  split; (eapply (cooldown_window (ex_clock 100) (ex_clock 150) (ex_clock _) "cpu" "h" "disk" "h" Minute
    (NewDiagnoseState (ex_clock 99))); [reflexivity|vm_compute; discriminate]).
Defined.
