(* ===== verification/GoSlice.v ===== *)
(** * Go slices: a window on a backing array

    A slice is the part of its backing array that starts at the slice's first
    element, with its length; the capacity is the length of that part.  Slicing
    up to the capacity is allowed and shows what the array holds there; beyond
    it panics.  [append] writes in place while there is room and moves to a
    larger array otherwise ([grow] is the spare room the runtime adds). *)
From S2P Require Import Prelude.
#[local] Open Scope Z_scope.

Section slice.
Context {A : Type}.

Record slice := mkSlice { arr : list A; len : nat }.

Definition cap (s : slice) : nat := length (arr s).
Definition vals (s : slice) : list A := take (len s) (arr s).

(** The invariant of the runtime. *)
Definition slice_wf (s : slice) : Prop := (len s <= cap s)%nat.

(** A slice that fills its array, as a composite literal makes it. *)
Definition of_list (l : list A) : slice := mkSlice l (length l).

(** [s[:n]]. *)
Definition reslice (s : slice) (n : nat) : go slice :=
  if decide (n <= cap s)%nat then Ret (mkSlice (arr s) n) else Panic.

(** [append(s, x)], with [room] the spare elements of a new array. *)
Definition append (room : list A) (s : slice) (x : A) : slice :=
  if decide (len s < cap s)%nat then mkSlice (<[len s := x]> (arr s)) (S (len s))
  else mkSlice (vals s ++ x :: room) (S (len s)).

Lemma length_vals s : slice_wf s -> length (vals s) = len s.
Proof. unfold slice_wf, cap, vals. rewrite length_take. lia. Qed.

Lemma vals_of_list l : vals (of_list l) = l.
Proof. unfold vals, of_list; cbn. by rewrite take_ge by lia. Qed.

Lemma of_list_wf l : slice_wf (of_list l).
Proof. unfold slice_wf, of_list, cap; cbn. lia. Qed.

Lemma vals_append room s x : slice_wf s -> vals (append room s x) = vals s ++ [x].
Proof.
  unfold slice_wf, append, vals, cap. intros Hwf. case_decide; cbn [arr len].
  - rewrite (take_S_r _ _ x) by (by apply list_lookup_insert_eq).
    by rewrite take_insert_ge.
  - rewrite take_app_ge by (rewrite length_take; lia). rewrite length_take.
    f_equal. replace (S (len s) - len s `min` length (arr s))%nat with 1%nat by lia. done.
Qed.

Lemma append_wf room s x : slice_wf s -> slice_wf (append room s x).
Proof.
  unfold slice_wf, append, vals, cap. intros Hwf. case_decide; cbn [arr len].
  - rewrite length_insert. lia.
  - rewrite length_app, length_take. cbn. lia.
Qed.

Lemma len_append room s x : len (append room s x) = S (len s).
Proof. unfold append. by case_decide. Qed.

(** An append never shortens the array the slice can show. *)
Lemma cap_append room s x : (cap s <= cap (append room s x))%nat \/ cap s = len s.
Proof.
  unfold append, cap, vals. case_decide; cbn [arr len]; [left; rewrite length_insert; lia|].
  destruct (decide (length (arr s) = len s)); [by right|left].
  rewrite length_app, length_take. cbn. lia.
Qed.

Lemma vals_reslice s n s' : reslice s n = Ret s' -> (n <= len s)%nat -> vals s' = take n (vals s).
Proof.
  unfold reslice, vals. case_decide; [|done]. intros [= <-] Hn; cbn [arr len].
  rewrite take_take. by rewrite Nat.min_l by lia.
Qed.

Lemma reslice_wf s n s' : reslice s n = Ret s' -> slice_wf s'.
Proof. unfold reslice, slice_wf, cap. case_decide; [|done]. by intros [= <-]. Qed.
End slice.
Arguments slice A : clear implicits.
