(* ===== verification/AiClient.v ===== *)
(** * Chat messages, token estimates and history compaction
    (digcore/diagnose/aiclient/types.go, token.go and compact.go) *)
From S2P Require Import Prelude GoStr GoSlice.
#[local] Open Scope Z_scope.

(** ** types.go *)
Record FunctionCall := mkFunctionCall { fc_Name : string; fc_Arguments : string }.
Record ToolCall := mkToolCall { tc_ID : string; tc_Type : string; tc_Function : FunctionCall }.
Record Message := mkMessage {
  Role : string;
  Content : string;
  ReasoningContent : string;
  ToolCallID : string;
  ToolCalls : list ToolCall
}.

Record Property := mkProperty { prop_Type : string; prop_Description : string }.
Record Parameters := mkParameters {
  params_Type : string;
  Properties : gmap string Property;
  Required : list string
}.
Record ToolFunction := mkToolFunction {
  tf_Name : string;
  tf_Description : string;
  tf_Parameters : option Parameters
}.
Record Tool := mkTool { tool_Type : string; tool_Function : ToolFunction }.

Record Usage := mkUsage { PromptTokens : Z; CompletionTokens : Z; UsageTotalTokens : Z }.
Record Choice := mkChoice { Index : Z; choice_Message : Message; FinishReason : string }.
Record ChatResponse := mkChatResponse { resp_ID : string; Choices : list Choice; resp_Usage : Usage }.

(** A message with a role and a content only. *)
Definition plain (role content : string) : Message := mkMessage role content "" "" [].

(** ** token.go *)
Definition EstimateTokensChinese (text : string) : Z :=
  let n := RuneCount text in
  if n =? 0 then 0 else go_div (n + 1) 2.

(** ** compact.go *)
Definition perMessageOverhead : Z := 4.

Definition tool_call_tokens (tc : ToolCall) : Z :=
  EstimateTokensChinese (fc_Name (tc_Function tc))
  + EstimateTokensChinese (fc_Arguments (tc_Function tc)) + 10.

Definition EstimateMessageTokens (m : Message) : Z :=
  fold_left (fun tokens tc => tokens + tool_call_tokens tc) (ToolCalls m)
    (EstimateTokensChinese (Content m) + EstimateTokensChinese (ReasoningContent m)
     + perMessageOverhead).

Definition EstimateMessagesTokens (messages : list Message) : Z :=
  fold_left (fun total m => total + EstimateMessageTokens m) messages 0.

Record messageGroup := mkGroup { startIdx : nat; tokens : Z }.

Definition is_tool (m : Message) : bool := bool_decide (Role m = "tool").
(** An assistant message that calls tools. *)
Definition calls_tools (m : Message) : bool :=
  bool_decide (Role m = "assistant") && negb (bool_decide (ToolCalls m = [])).

(** The inner loop: the tool messages at the head of [ms] join the group.
    [ms] is [messages[i:]]. *)
Fixpoint absorb_tools (ms : list Message) (i : nat) (t : Z) : list Message * nat * Z :=
  match ms with
  | m :: ms' =>
    if is_tool m then absorb_tools ms' (S i) (t + EstimateMessageTokens m) else (ms, i, t)
  | [] => (ms, i, t)
  end.

(** The outer loop; [fuel] bounds its rounds, one message at least per round. *)
Fixpoint group_loop (fuel : nat) (ms : list Message) (i : nat) : list messageGroup :=
  match fuel, ms with
  | S fuel', m :: ms' =>
    if calls_tools m then
      let '(rest, i', t) := absorb_tools ms' (S i) (EstimateMessageTokens m) in
      mkGroup i t :: group_loop fuel' rest i'
    else mkGroup i (EstimateMessageTokens m) :: group_loop fuel' ms' (S i)
  | _, _ => []
  end.

Definition parseMessageGroups (messages : list Message) (start : nat) : list messageGroup :=
  let i := if decide (start < 1)%nat then 1%nat else start in
  group_loop (length messages) (drop i messages) i.

(** The loop that extends the kept suffix to the left: [rgroups] are the groups
    from the last to the first, [j] the index after the next one. *)
Fixpoint keep_loop (rgroups : list messageGroup) (j : nat) (sum budget : Z) (keepFrom : nat) : nat :=
  match rgroups with
  | g :: rgroups' =>
    if budget <? sum + tokens g then keepFrom
    else keep_loop rgroups' (j - 1) (sum + tokens g) budget (j - 1)
  | [] => keepFrom
  end.

Definition stickyPrefix (messages : list Message) : nat :=
  match messages with
  | _ :: m1 :: _ =>
    if bool_decide (Role m1 = "user") && bool_decide (ToolCalls m1 = []) then 2%nat else 1%nat
  | _ => 1%nat
  end.

(** Returns the same slice, a prefix of it that shares its array, or a new
    slice that exactly fills its array. *)
Definition CompactMessages (s : slice Message) (tokenBudget : Z) : slice Message :=
  let messages := vals s in
  if (zlen messages <=? 1) || (tokenBudget <=? 0) then s
  else if EstimateMessagesTokens messages <=? tokenBudget then s
  else
    let sticky := stickyPrefix messages in
    let stickyTokens := EstimateMessagesTokens (take sticky messages) in
    if tokenBudget <? stickyTokens then mkSlice (arr s) sticky
    else
      let groups := parseMessageGroups messages sticky in
      let budget := tokenBudget - stickyTokens in
      if budget <=? 0 then mkSlice (arr s) sticky
      else
        let n := length groups in
        let keepFrom := keep_loop (reverse groups) n 0 budget n in
        if decide (keepFrom = 0)%nat then s
        else
          match groups !! keepFrom with
          | None => mkSlice (arr s) sticky
          | Some g => of_list (take sticky messages ++ drop (startIdx g) messages)
          end.

(** ** What compaction must respect

    A chat API accepts a history in which every call of a tool is answered, in
    order, before anything else is said.  [answers] runs over the history with
    the IDs of the calls that still wait for an answer. *)
Definition answer_step (pending : list string) (m : Message) : option (list string) :=
  if is_tool m then
    match pending with
    | id :: pending' => if decide (ToolCallID m = id) then Some pending' else None
    | [] => None
    end
  else
    match pending with
    | [] => Some (if calls_tools m then map tc_ID (ToolCalls m) else [])
    | _ :: _ => None
    end.

Fixpoint answers (pending : list string) (ms : list Message) : option (list string) :=
  match ms with
  | [] => Some pending
  | m :: ms' => answer_step pending m ≫= fun pending' => answers pending' ms'
  end.

Definition answered (ms : list Message) : Prop := answers [] ms = Some [].

(** ** Lemmas on token estimates *)

Lemma EstimateTokensChinese_nonneg s : 0 <= EstimateTokensChinese s.
Proof.
  unfold EstimateTokensChinese, go_div. pose proof (RuneCount_nonneg s).
  case_match; [lia|]. apply Z.quot_pos; lia.
Qed.

Lemma fold_tokens_ge tcs t0 : t0 <= fold_left (fun t tc => t + tool_call_tokens tc) tcs t0.
Proof.
  revert t0. induction tcs as [|tc tcs IH]; intros t0; cbn; [lia|].
  etransitivity; [|apply IH]. unfold tool_call_tokens.
  pose proof (EstimateTokensChinese_nonneg (fc_Name (tc_Function tc))).
  pose proof (EstimateTokensChinese_nonneg (fc_Arguments (tc_Function tc))). lia.
Qed.

Lemma EstimateMessageTokens_pos m : perMessageOverhead <= EstimateMessageTokens m.
Proof.
  unfold EstimateMessageTokens. etransitivity; [|apply fold_tokens_ge].
  pose proof (EstimateTokensChinese_nonneg (Content m)).
  pose proof (EstimateTokensChinese_nonneg (ReasoningContent m)). lia.
Qed.

Definition sum_tokens (ms : list Message) : Z := foldr (fun m t => EstimateMessageTokens m + t) 0 ms.

Lemma EstimateMessagesTokens_sum ms : EstimateMessagesTokens ms = sum_tokens ms.
Proof.
  unfold EstimateMessagesTokens. enough (forall t, fold_left (fun t m => t + EstimateMessageTokens m) ms t
    = t + sum_tokens ms) as H by apply (H 0).
  induction ms as [|m ms IH]; intros t; cbn; [lia|]. rewrite IH. unfold sum_tokens. cbn. lia.
Qed.

Lemma sum_tokens_cons m ms : sum_tokens (m :: ms) = EstimateMessageTokens m + sum_tokens ms.
Proof. reflexivity. Qed.

Lemma sum_tokens_app l k : sum_tokens (l ++ k) = sum_tokens l + sum_tokens k.
Proof. induction l as [|m l IH]; [done|]. cbn [app]. rewrite !sum_tokens_cons. lia. Qed.

(** ** Lemmas on message groups *)

Definition sum_groups (gs : list messageGroup) : Z := foldr (fun g t => tokens g + t) 0 gs.

Lemma sum_groups_cons g gs : sum_groups (g :: gs) = tokens g + sum_groups gs.
Proof. reflexivity. Qed.

Lemma sum_groups_app l k : sum_groups (l ++ k) = sum_groups l + sum_groups k.
Proof. induction l as [|g l IH]; [done|]. cbn [app]. rewrite !sum_groups_cons. lia. Qed.

(** The first message of [ms] does not answer a tool call. *)
Definition head_not_tool (ms : list Message) : Prop :=
  match ms with [] => True | m :: _ => is_tool m = false end.

(** [gs] cuts [ms], which starts at index [i], into units that stay together. *)
Inductive cuts : list messageGroup -> list Message -> nat -> Prop :=
| cuts_nil i : cuts [] [] i
| cuts_single m ms gs i :
    calls_tools m = false -> cuts gs ms (S i) ->
    cuts (mkGroup i (EstimateMessageTokens m) :: gs) (m :: ms) i
| cuts_calls m tools ms gs i :
    calls_tools m = true -> Forall (fun t => is_tool t = true) tools -> head_not_tool ms ->
    cuts gs ms (S i + length tools) ->
    cuts (mkGroup i (sum_tokens (m :: tools)) :: gs) (m :: tools ++ ms) i.

Lemma absorb_tools_spec ms i t :
  exists tools rest, ms = tools ++ rest /\ Forall (fun t => is_tool t = true) tools /\
    head_not_tool rest /\
    absorb_tools ms i t = (rest, (i + length tools)%nat, t + sum_tokens tools).
Proof.
  revert i t. induction ms as [|m ms IH]; intros i t; cbn [absorb_tools].
  - exists [], []. rewrite Nat.add_0_r, Z.add_0_r. split_and!; [done|constructor|done|done].
  - destruct (is_tool m) eqn:E.
    + destruct (IH (S i) (t + EstimateMessageTokens m)) as (tools & rest & -> & Ht & Hr & ->).
      exists (m :: tools), rest. split_and!; [done|by constructor|done|].
      rewrite sum_tokens_cons. cbn [length]. f_equal; [f_equal; lia|lia].
    + exists [], (m :: ms). rewrite Nat.add_0_r, Z.add_0_r. split_and!; [done|constructor|done|done].
Qed.

(** The fuel of [group_loop] is enough: every message lands in a group. *)
Lemma group_loop_cuts fuel ms i : (length ms <= fuel)%nat -> cuts (group_loop fuel ms i) ms i.
Proof.
  revert ms i. induction fuel as [|fuel IH]; intros ms i Hf.
  { destruct ms; [constructor|cbn in Hf; lia]. }
  destruct ms as [|m ms]; [constructor|]. cbn [group_loop length] in *.
  destruct (calls_tools m) eqn:E; [|constructor; [done|apply IH; lia]].
  destruct (absorb_tools_spec ms (S i) (EstimateMessageTokens m)) as (tools & rest & -> & Ht & Hr & ->).
  rewrite length_app in Hf. apply cuts_calls; [done..|]. apply IH. lia.
Qed.

Lemma parseMessageGroups_cuts ms start :
  (1 <= start)%nat -> cuts (parseMessageGroups ms start) (drop start ms) start.
Proof.
  intros Hs. unfold parseMessageGroups. rewrite decide_False by lia.
  apply group_loop_cuts. rewrite length_drop. lia.
Qed.

Lemma cuts_sum gs ms i : cuts gs ms i -> sum_tokens ms = sum_groups gs.
Proof.
  induction 1; rewrite ?sum_tokens_cons, ?sum_groups_cons, ?sum_tokens_app;
    cbn [tokens]; rewrite ?sum_tokens_cons; lia || done.
Qed.

(** A suffix of the groups is a suffix of the messages. *)
Lemma cuts_drop gs ms i k g :
  cuts gs ms i -> gs !! k = Some g ->
  exists ms', drop (startIdx g - i) ms = ms' /\ (i <= startIdx g)%nat /\
    cuts (drop k gs) ms' (startIdx g) /\ sum_tokens ms' = sum_groups (drop k gs).
Proof.
  intros Hc. revert k. induction Hc as [i|m ms gs i Hm Hc IH|m tools ms gs i Hm Ht Hh Hc IH]; intros [|k] Hk;
    cbn [lookup list_lookup] in Hk; simplify_eq; cbn [startIdx drop].
  - rewrite Nat.sub_diag. eexists; split_and!; [done|lia| |]; [by constructor|].
    apply (cuts_sum _ _ i). by constructor.
  - destruct (IH k Hk) as (ms' & Hd & Hle & Hc' & Hs). exists ms'. split_and!; [|lia|done|done].
    replace (startIdx g - i)%nat with (S (startIdx g - S i)) by lia. done.
  - rewrite Nat.sub_diag. eexists; split_and!; [done|lia| |]; [by constructor|].
    apply (cuts_sum _ _ i). by constructor.
  - destruct (IH k Hk) as (ms' & Hd & Hle & Hc' & Hs). exists ms'. split_and!; [|lia|done|done].
    replace (startIdx g - i)%nat with (S (length tools + (startIdx g - (S i + length tools)))) by lia.
    cbn [drop]. rewrite drop_app_add'; done.
Qed.

Lemma keep_loop_spec rgs k sum budget :
  (length rgs = k)%nat ->
  let r := keep_loop rgs k sum budget k in
  (r <= k)%nat /\ (sum <= budget -> sum + sum_groups (take (k - r) rgs) <= budget) /\
  ((0 < r)%nat -> budget < sum + sum_groups (take (S (k - r)) rgs)).
Proof.
  revert k sum. induction rgs as [|g rgs IH]; intros k sum <-; cbn [keep_loop length].
  - rewrite !firstn_nil. cbn [sum_groups foldr]. lia.
  - destruct (budget <? sum + tokens g) eqn:E; zbool.
    + rewrite Nat.sub_diag, firstn_cons, !firstn_O, sum_groups_cons. cbn [sum_groups foldr]. lia.
    + replace (S (length rgs) - 1)%nat with (length rgs) by lia.
      destruct (IH (length rgs) (sum + tokens g) eq_refl) as (Hr & Hle & Hgt).
      set (r := keep_loop _ _ _ _ _) in *. 
      replace (S (length rgs) - r)%nat with (S (length rgs - r)) by lia.
      split_and!; [lia| |]; intros H; rewrite firstn_cons, sum_groups_cons.
      * specialize (Hle E). lia.
      * specialize (Hgt H). lia.
Qed.

(** ** The shape of a compacted conversation *)

Lemma stickyPrefix_bounds ms : (1 <= stickyPrefix ms <= 2)%nat.
Proof. unfold stickyPrefix. repeat case_match; lia. Qed.

Lemma parseMessageGroups_sum ms :
  EstimateMessagesTokens ms
  = EstimateMessagesTokens (take (stickyPrefix ms) ms)
    + sum_groups (parseMessageGroups ms (stickyPrefix ms)).
Proof.
  pose proof (parseMessageGroups_cuts ms (stickyPrefix ms)
    (proj1 (stickyPrefix_bounds ms))) as Hc.
  rewrite <-(cuts_sum _ _ _ Hc), !EstimateMessagesTokens_sum, <-sum_tokens_app.
  by rewrite take_drop.
Qed.

(** Every way compaction ends: the history as it is, the sticky prefix alone,
    or the sticky prefix with the longest run of whole groups that fits. *)
Inductive compacted (ms : list Message) (budget : Z) : list Message -> Prop :=
| compact_fits : EstimateMessagesTokens ms <= budget -> compacted ms budget ms
| compact_sticky :
    (forall g, last (parseMessageGroups ms (stickyPrefix ms)) = Some g ->
      budget < EstimateMessagesTokens (take (stickyPrefix ms) ms) + tokens g) ->
    compacted ms budget (take (stickyPrefix ms) ms)
| compact_suffix k g h :
    let gs := parseMessageGroups ms (stickyPrefix ms) in
    let st := EstimateMessagesTokens (take (stickyPrefix ms) ms) in
    gs !! k = Some h -> gs !! S k = Some g ->
    st + sum_groups (drop (S k) gs) <= budget ->
    budget < st + sum_groups (drop k gs) ->
    compacted ms budget (take (stickyPrefix ms) ms ++ drop (startIdx g) ms).

Lemma sum_groups_reverse gs : sum_groups (reverse gs) = sum_groups gs.
Proof.
  induction gs as [|g gs IH]; [done|].
  rewrite reverse_cons, sum_groups_app, !sum_groups_cons, IH. cbn [sum_groups foldr]. lia.
Qed.

Lemma take_reverse_drop {A} (l : list A) k :
  (k <= length l)%nat -> take (length l - k) (reverse l) = reverse (drop k l).
Proof.
  intros Hk. rewrite <-(take_drop k l) at 2. rewrite reverse_app, take_app_le.
  - by rewrite take_ge by (rewrite length_reverse, length_drop; lia).
  - rewrite length_reverse, length_drop. lia.
Qed.

(** [keep_loop] over the reversed groups, as the caller starts it. *)
Lemma keep_loop_suffix gs budget :
  0 <= budget ->
  let r := keep_loop (reverse gs) (length gs) 0 budget (length gs) in
  (r <= length gs)%nat /\ sum_groups (drop r gs) <= budget /\
  ((0 < r)%nat -> budget < sum_groups (drop (pred r) gs)).
Proof.
  intros Hb r. destruct (keep_loop_spec (reverse gs) (length gs) 0 budget) as (Hr & Hle & Hgt);
    [apply length_reverse|]. fold r in Hr, Hle, Hgt. split_and!; [done| |].
  - specialize (Hle Hb). rewrite take_reverse_drop, sum_groups_reverse in Hle by done. lia.
  - intros Hpos. specialize (Hgt Hpos).
    replace (S (length gs - r)) with (length gs - pred r)%nat in Hgt by lia.
    rewrite take_reverse_drop, sum_groups_reverse in Hgt by lia. lia.
Qed.

Lemma cuts_tokens_pos gs ms i g : cuts gs ms i -> g ∈ gs -> 0 < tokens g.
Proof.
  assert (forall ms, 0 <= sum_tokens ms) as Hnn.
  { clear. induction ms as [|m ms IH]; [done|]. rewrite sum_tokens_cons.
    pose proof (EstimateMessageTokens_pos m). unfold perMessageOverhead in *. lia. }
  induction 1 as [|m ms gs i Hm Hc IH|m tools ms gs i Hm Ht Hh Hc IH]; [by intros ?%elem_of_nil|..];
    intros [->|Hg]%elem_of_cons; [| by apply IH | | by apply IH];
    cbn [tokens]; rewrite ?sum_tokens_cons; pose proof (EstimateMessageTokens_pos m) as Hp;
    unfold perMessageOverhead in Hp; [lia|]. specialize (Hnn tools). lia.
Qed.

Lemma compact_sticky_small ms b :
  b <= EstimateMessagesTokens (take (stickyPrefix ms) ms) ->
  compacted ms b (take (stickyPrefix ms) ms).
Proof.
  intros Hb. apply compact_sticky. intros g Hg.
  pose proof (cuts_tokens_pos _ _ _ g (parseMessageGroups_cuts ms (stickyPrefix ms)
    (proj1 (stickyPrefix_bounds ms)))) as Hp.
  specialize (Hp (last_Some_elem_of _ _ Hg)). lia.
Qed.

Lemma CompactMessages_compacted s b :
  slice_wf s -> (1 < len s)%nat -> 0 < b -> compacted (vals s) b (vals (CompactMessages s b)).
Proof.
  intros Hwf Hlen Hb. pose proof (stickyPrefix_bounds (vals s)) as Hst.
  pose proof (length_vals s Hwf) as Hl.
  assert (vals (mkSlice (arr s) (stickyPrefix (vals s))) = take (stickyPrefix (vals s)) (vals s)) as Hv.
  { unfold vals at 1 4; cbn [arr len]. rewrite take_take, Nat.min_l by lia. done. }
  unfold CompactMessages. unfold zlen. rewrite Hl.
  replace (Z.of_nat (len s) <=? 1) with false by (symmetry; apply Z.leb_gt; lia).
  replace (b <=? 0) with false by (symmetry; apply Z.leb_gt; lia). cbn [orb].
  destruct (EstimateMessagesTokens (vals s) <=? b) eqn:E1; zbool; [by apply compact_fits|].
  destruct (b <? _) eqn:E2; zbool; [rewrite Hv; apply compact_sticky_small; lia|].
  destruct (_ <=? 0) eqn:E3; zbool; [rewrite Hv; apply compact_sticky_small; lia|].
  pose proof (parseMessageGroups_sum (vals s)) as Hsum.
  set (gs := parseMessageGroups _ _) in *. set (st := EstimateMessagesTokens (take _ _)) in *.
  destruct (keep_loop_suffix gs (b - st)) as (Hr & Hle & Hgt); [lia|].
  set (r := keep_loop _ _ _ _ _) in *.
  destruct (decide (r = 0)%nat) as [H0|H0].
  { rewrite H0, drop_0 in Hle. lia. }
  specialize (Hgt ltac:(lia)). destruct (gs !! r) as [g|] eqn:Eg.
  - rewrite vals_of_list. destruct (lookup_lt_is_Some_2 gs (pred r)) as [h Hh];
      [apply lookup_lt_Some in Eg; lia|].
    apply (compact_suffix _ _ (pred r) g h); fold gs st;
      replace (S (pred r)) with r by lia; done || lia.
  - rewrite Hv. apply compact_sticky. intros g Hg. fold gs in Hg. fold st.
    apply lookup_ge_None in Eg. replace r with (length gs) in Hgt by lia.
    apply last_Some in Hg as [l' Hl']. rewrite Hl', length_app in Hgt; cbn [length] in Hgt.
    replace (pred (length l' + 1)) with (length l') in Hgt by lia.
    rewrite drop_app_length, sum_groups_cons in Hgt. cbn [sum_groups foldr] in Hgt. lia.
Qed.

(** ** Tool calls and their answers *)

Lemma answers_app p l k : answers p (l ++ k) = answers p l ≫= fun p' => answers p' k.
Proof.
  revert p. induction l as [|m l IH]; intros p; [done|]. cbn [app answers].
  destruct (answer_step p m); [apply IH|done].
Qed.

Lemma answered_app l k : answered l -> answered k -> answered (l ++ k).
Proof. unfold answered. rewrite answers_app. by intros ->. Qed.

Lemma answers_split l k p :
  answers [] (l ++ k) = Some p -> exists q, answers [] l = Some q /\ answers q k = Some p.
Proof. rewrite answers_app. intros (q & ? & ?)%bind_Some. eauto. Qed.

(** What does not start with an answer starts with nothing pending. *)
Lemma answered_head q ms : head_not_tool ms -> answers q ms = Some [] -> answered ms.
Proof.
  unfold answered. destruct ms as [|m ms]; [done|]. cbn. intros E. unfold answer_step. rewrite E.
  by destruct q.
Qed.

Lemma answers_cons_inv m ms : answered (m :: ms) ->
  is_tool m = false /\ answers (if calls_tools m then map tc_ID (ToolCalls m) else []) ms = Some [].
Proof. unfold answered. cbn. unfold answer_step. by destruct (is_tool m). Qed.

Lemma cuts_answered gs ms i k g :
  cuts gs ms i -> answered ms -> gs !! k = Some g -> answered (drop (startIdx g - i) ms).
Proof.
  intros Hc. revert k. induction Hc as [i|m ms gs i Hm Hc IH|m tools ms gs i Hm Ht Hh Hc IH];
    intros [|k] Hp Hk; cbn [lookup list_lookup] in Hk; simplify_eq; cbn [startIdx];
    rewrite ?Nat.sub_diag; try done; apply answers_cons_inv in Hp as [_ Hp]; rewrite Hm in Hp.
  - edestruct (cuts_drop gs ms (S i) k g) as (? & ? & ? & ?); [done..|].
    replace (startIdx g - i)%nat with (S (startIdx g - S i)) by lia. by apply (IH k).
  - rewrite answers_app in Hp. apply bind_Some in Hp as (q & _ & Hp).
    edestruct (cuts_drop gs ms (S i + length tools) k g) as (? & ? & ? & ?); [done..|].
    replace (startIdx g - i)%nat with (S (length tools + (startIdx g - (S i + length tools)))) by lia.
    cbn [drop]. rewrite drop_app_add'; [|done]. apply (IH k); [|done]. by eapply answered_head.
Qed.

(** A history that starts with something else than a call of tools. *)
Definition head_no_calls (ms : list Message) : Prop :=
  match ms with [] => True | m :: _ => calls_tools m = false end.

Lemma sticky_answered ms :
  head_no_calls ms -> answered ms ->
  answered (take (stickyPrefix ms) ms) /\ answered (drop (stickyPrefix ms) ms).
Proof.
  unfold stickyPrefix. destruct ms as [|m0 ms]; [done|]. cbn [head_no_calls]. intros H0.
  intros [Ht Ha]%answers_cons_inv. rewrite H0 in Ha.
  assert (answered [m0]) as H1 by (unfold answered; cbn; unfold answer_step; by rewrite Ht, H0).
  destruct ms as [|m1 ms]; [done|]. destruct (_ && _) eqn:E; [|done]. zbool.
  cbn [take drop firstn skipn]. destruct (answers_cons_inv _ _ Ha) as [Ht1 Ha1].
  assert (calls_tools m1 = false) as Hc1.
  { unfold calls_tools. replace (Role m1) with "user" by done. done. }
  rewrite Hc1 in Ha1. split; [|done]. apply (answered_app [m0] [m1]); [done|].
  unfold answered. cbn. unfold answer_step. by rewrite Ht1, Hc1.
Qed.

Lemma compacted_answered ms b r : compacted ms b r -> head_no_calls ms -> answered ms -> answered r.
Proof.
  intros Hc H0 Hp. destruct (sticky_answered ms H0 Hp) as [Hs Hd].
  destruct Hc as [?|?|k g h gs st Hh Hg _ _]; [done..|]. apply answered_app; [done|].
  pose proof (parseMessageGroups_cuts ms (stickyPrefix ms) (proj1 (stickyPrefix_bounds ms))) as Hcut.
  destruct (cuts_drop _ _ _ _ _ Hcut Hg) as (_ & _ & Hle & _).
  replace (startIdx g) with (stickyPrefix ms + (startIdx g - stickyPrefix ms))%nat by lia.
  rewrite <-drop_drop. by apply (cuts_answered _ _ _ (S k) g Hcut).
Qed.

Lemma CompactMessages_answered s b :
  slice_wf s -> head_no_calls (vals s) -> answered (vals s) -> answered (vals (CompactMessages s b)).
Proof.
  intros Hwf H0 Hp. destruct (decide ((1 < len s)%nat /\ 0 < b)) as [[Hl Hb]|Hn].
  - eapply compacted_answered; [by apply CompactMessages_compacted|done..].
  - unfold CompactMessages, zlen. rewrite length_vals by done. case_match; [done|].
    zbool. lia.
Qed.

(** Compaction keeps within the budget, or returns the system prompt and the
    kickoff message when these alone exceed it. *)
Lemma compacted_tokens ms b r :
  compacted ms b r ->
  EstimateMessagesTokens r <= b \/ r = take (stickyPrefix ms) ms.
Proof.
  intros [?|?|k g h gs st Hh Hg Hle _]; [by left|by right|left].
  pose proof (parseMessageGroups_cuts ms (stickyPrefix ms) (proj1 (stickyPrefix_bounds ms))) as Hc.
  destruct (cuts_drop _ _ _ _ _ Hc Hg) as (ms' & Hd & Hge & Hc' & Hs).
  rewrite drop_drop in Hd. replace (stickyPrefix ms + (startIdx g - stickyPrefix ms))%nat
    with (startIdx g) in Hd by lia.
  rewrite EstimateMessagesTokens_sum, sum_tokens_app, Hd, Hs, <-EstimateMessagesTokens_sum.
  fold gs st. lia.
Qed.

(** ** Properties *)

(** C10: A history within the budget is returned as it is.  Otherwise compaction
    returns the system prompt, the kickoff message of the user behind it, and
    the longest run of the last message groups that fits the budget. *)
Theorem CompactMessages_keeps_longest_suffix (s : slice Message) (tokenBudget : Z)
    (Hwf : slice_wf s) (Hlen : (1 < len s)%nat) (Hb : 0 < tokenBudget) :
  let r := vals (CompactMessages s tokenBudget) in
  compacted (vals s) tokenBudget r /\
  (EstimateMessagesTokens r <= tokenBudget \/ r = take (stickyPrefix (vals s)) (vals s)).
Proof.
  intros r. pose proof (CompactMessages_compacted s tokenBudget Hwf Hlen Hb) as Hc.
  split; [done|by eapply compacted_tokens].
Qed.

(** Compaction keeps the history acceptable to a chat API: when every tool call
    is answered, in order, before anything else is said, and the first message
    (the system prompt) calls no tool, the same holds of the result. *)
Theorem CompactMessages_keeps_answers (s : slice Message) (tokenBudget : Z)
    (Hwf : slice_wf s) (Hhead : head_no_calls (vals s)) (Hp : answered (vals s)) :
  answered (vals (CompactMessages s tokenBudget)).
Proof. by apply CompactMessages_answered. Qed.

(** ** Witness: a history in which a question and a call of a tool are dropped *)

Definition ex_call (id : string) : Message :=
  mkMessage "assistant" "" "" "" [mkToolCall id "function" (mkFunctionCall "disk_usage" "{}")].
Definition ex_history : slice Message :=
  of_list [plain "system" "You help."; plain "user" "first"; ex_call "1";
    mkMessage "tool" "/dev/sda1 91%" "" "1" []; plain "assistant" "Clean up /var/log.";
    plain "user" "second"].

Lemma CompactMessages_keeps_longest_suffix_witness :
  vals (CompactMessages ex_history 50)
    = take 2 (vals ex_history) ++ drop 4 (vals ex_history) /\
  EstimateMessagesTokens (vals (CompactMessages ex_history 50)) <= 50.
Proof.
  split; [vm_compute; reflexivity|].
  destruct (CompactMessages_keeps_longest_suffix ex_history 50) as [_ [H|H]];
    [apply of_list_wf|vm_compute; lia|lia|exact H|]. vm_compute in H. discriminate.
Defined.

Lemma CompactMessages_keeps_answers_witness : answered (vals (CompactMessages ex_history 50)).
Proof. apply CompactMessages_keeps_answers; [apply of_list_wf|reflexivity|reflexivity]. Defined.
