(* ===== verification/Failover.v ===== *)
(** * Retries and failover between AI models
    (digcore/diagnose/aiclient/retry.go and failover.go)

    A backend is the interface [ChatBackend]: one HTTP exchange, and the wait
    between two attempts, which the context may interrupt.  [CS] is the state
    of the world behind the clients. *)
From S2P Require Import Prelude GoStr Types Config AiClient.
#[local] Open Scope Z_scope.
#[local] Open Scope go_scope.

(** ** Errors, with [fmt.Errorf("...%w", err)] as [ErrWrap] *)
Inductive error :=
| ErrNew (text : string)
| ErrAPI (StatusCode : Z) (Body : string)
| ErrCanceled
| ErrDeadline
| ErrWrap (text : string) (err : error).

(** [errors.As(err, &apiErr)]. *)
Fixpoint as_api (err : error) : option (Z * string) :=
  match err with
  | ErrAPI code body => Some (code, body)
  | ErrWrap _ err' => as_api err'
  | _ => None
  end.
(** [errors.Is(err, context.Canceled)]. *)
Fixpoint is_canceled (err : error) : bool :=
  match err with ErrCanceled => true | ErrWrap _ err' => is_canceled err' | _ => false end.

Definition IsRetryable (err : error) : bool :=
  match as_api err with
  | Some (code, _) => bool_decide (code ∈ [429; 500; 502; 503; 504])
  | None => negb (is_canceled err)
  end.

Definition shouldFailover (err : error) : bool :=
  if is_canceled err then false
  else
    match as_api err with
    | Some (code, _) => (500 <=? code) || (code =? 429)
    | None => true
    end.

(** ** The interface of a backend *)
Class ChatBackend (M CS : Type) := {
  client_Chat : M -> list Message -> list Tool -> CS -> res error ChatResponse * CS;
  (** waits about [backoff] ([time.After] of a jittered duration); an error
      when the context ends first *)
  client_wait : Z -> CS -> option error * CS
}.

(** ** retry.go *)
Definition maxBackoff : Z := 30 * Second.

Record RetryConfig := mkRetryConfig { rc_MaxRetries : Z; rc_RetryBackoff : Z }.

(** [1<<(attempt-1)] as a [time.Duration], and the product, wrap around. *)
Definition backoff_of (cfg : RetryConfig) (attempt : Z) : Z :=
  let backoff := rc_RetryBackoff cfg ⊠ i64 (Z.shiftl 1 (attempt - 1)) in
  if maxBackoff <? backoff then maxBackoff else backoff.

Section retry.
Context {M CS : Type} `{!ChatBackend M CS}.

(** The pause before an attempt; none before the first. *)
Definition pause (cfg : RetryConfig) (attempt : Z) (cs : CS) : option error * CS :=
  if 0 <? attempt then client_wait (M := M) (backoff_of cfg attempt) cs else (None, cs).

(** [n] attempts are left.  A nil client panics when it is called; the response
    is nil when there was neither an answer nor an error. *)
Fixpoint retry_loop (n : nat) (attempt : Z) (lastErr : option error) (client : option M)
    (cfg : RetryConfig) (messages : list Message) (tools : list Tool) (cs : CS)
  : go (res error (option ChatResponse)) * CS :=
  match n with
  | O => (Ret (match lastErr with Some e => Bad e | None => Good None end), cs)
  | S n' =>
    let '(stop, cs) := pause cfg attempt cs in
    match stop with
    | Some e => (Ret (Bad e), cs)
    | None =>
      match client with
      | None => (Panic, cs)
      | Some c =>
        let '(r, cs) := client_Chat c messages tools cs in
        match r with
        | Good resp => (Ret (Good (Some resp)), cs)
        | Bad err =>
          if negb (IsRetryable err) then (Ret (Bad err), cs)
          else retry_loop n' (attempt + 1) (Some err) client cfg messages tools cs
        end
      end
    end
  end.

Definition ChatWithRetry (client : option M) (cfg : RetryConfig) (messages : list Message)
    (tools : list Tool) (cs : CS) : go (res error (option ChatResponse)) * CS :=
  retry_loop (Z.to_nat (rc_MaxRetries cfg + 1)) 0 None client cfg messages tools cs.

(** ** failover.go *)
Record FailoverClient := mkFailoverClient {
  priority : list string;
  clients : gmap string M;
  retryCfg : RetryConfig;
  pinned : string;
  gateway : bool;
  initErr : option error
}.

Variable is_print : Z -> bool.

(** The loop over the priorities; [tried] is the error of the last model. *)
Fixpoint failover_loop (names : list string) (lastErr : error) (fc : FailoverClient)
    (messages : list Message) (tools : list Tool) (cs : CS)
  : go (res error (option ChatResponse) * string) * CS :=
  match names with
  | [] =>
    (Ret (Bad (ErrWrap ("all " +:+ itoa (zlen (priority fc)) +:+ " models failed, last: ") lastErr), ""), cs)
  | name :: names' =>
    let '(out, cs) := ChatWithRetry (clients fc !! name) (retryCfg fc) messages tools cs in
    match out with
    | Panic => (Panic, cs)
    | Ret (Good resp) => (Ret (Good resp, name), cs)
    | Ret (Bad err) =>
      if negb (shouldFailover err) then (Ret (Bad err, name), cs)
      else failover_loop names' (ErrWrap ("model " +:+ name +:+ ": ") err) fc messages tools cs
    end
  end.

(** The response (or error) and the name of the model that answered. *)
Definition Chat (fc : FailoverClient) (messages : list Message) (tools : list Tool) (cs : CS)
  : go (res error (option ChatResponse) * string) * CS :=
  if decide (priority fc = []) then
    (Ret (Bad (default (ErrNew "no ai clients configured") (initErr fc)), ""), cs)
  else if negb (bool_decide (pinned fc = "")) then
    match clients fc !! pinned fc with
    | None =>
      (Ret (Bad (ErrNew ("pinned model " +:+ Quote is_print (pinned fc) +:+ " not found")), pinned fc), cs)
    | Some c =>
      let '(out, cs) := ChatWithRetry (Some c) (retryCfg fc) messages tools cs in
      (r ← out; Ret (r, pinned fc), cs)
    end
  else failover_loop (priority fc) (ErrNew "%!w(<nil>)") fc messages tools cs.

Definition set_pinned (name : string) (fc : FailoverClient) : FailoverClient :=
  mkFailoverClient (priority fc) (clients fc) (retryCfg fc) name (gateway fc) (initErr fc).

Definition PinModel (fc : FailoverClient) (name : string) : option error * FailoverClient :=
  if negb (bool_decide (name = "")) && negb (bool_decide (is_Some (clients fc !! name)))
  then (Some (ErrNew ("unknown model " +:+ Quote is_print name)), fc)
  else (None, set_pinned name fc).

Definition PinnedModel (fc : FailoverClient) : string := pinned fc.
Definition ModelNames (fc : FailoverClient) : list string := priority fc.
Definition ModelClient (fc : FailoverClient) (name : string) : option M := clients fc !! name.
Definition IsGateway (fc : FailoverClient) : bool := gateway fc.

(** ** Attempts *)
Section attempts.
Context (cfg : RetryConfig) (c : M) (messages : list Message) (tools : list Tool).

(** [k] attempts were made and all failed with an error worth a retry, the
    last one being [e]. *)
Inductive retried : nat -> CS -> option error -> CS -> Prop :=
| retried_none cs : retried 0 cs None cs
| retried_once k cs cs1 e1 cs2 cs3 e :
    retried k cs e1 cs1 ->
    pause cfg (Z.of_nat k) cs1 = (None, cs2) ->
    client_Chat c messages tools cs2 = (Bad e, cs3) -> IsRetryable e = true ->
    retried (S k) cs (Some e) cs3.

(** How a call with [n] attempts ends, after [k] failed ones. *)
Inductive retry_end (n k : nat) (last : option error) (cs : CS)
  : res error (option ChatResponse) -> CS -> Prop :=
| end_answer cs1 resp cs2 :
    (k < n)%nat -> pause cfg (Z.of_nat k) cs = (None, cs1) ->
    client_Chat c messages tools cs1 = (Good resp, cs2) ->
    retry_end n k last cs (Good (Some resp)) cs2
| end_fatal cs1 e cs2 :
    (k < n)%nat -> pause cfg (Z.of_nat k) cs = (None, cs1) ->
    client_Chat c messages tools cs1 = (Bad e, cs2) -> IsRetryable e = false ->
    retry_end n k last cs (Bad e) cs2
| end_interrupted e cs1 :
    (k < n)%nat -> pause cfg (Z.of_nat k) cs = (Some e, cs1) ->
    retry_end n k last cs (Bad e) cs1
| end_exhausted e : k = n -> last = Some e -> retry_end n k last cs (Bad e) cs.

Lemma retry_loop_spec n k last cs0 cs :
  retried k cs0 last cs -> (0 < n)%nat \/ is_Some last ->
  exists r cs' k' last' cs1,
    retry_loop n (Z.of_nat k) last (Some c) cfg messages tools cs = (Ret r, cs') /\
    retried k' cs0 last' cs1 /\ retry_end (k + n) k' last' cs1 r cs'.
Proof.
  revert k last cs. induction n as [|n IH]; intros k last cs Hr Hn; cbn [retry_loop].
  - destruct Hn as [?|[e ->]]; [lia|]. eexists _, _, k, (Some e), cs. split_and!; [done|done|].
    by apply end_exhausted; [lia|].
  - destruct (pause cfg (Z.of_nat k) cs) as [[e|] cs1] eqn:Hp.
    { eexists _, _, k, last, cs. split_and!; [done|done|]. eapply end_interrupted; [lia|done]. }
    destruct (client_Chat c messages tools cs1) as [[resp|e] cs2] eqn:Hc.
    { eexists _, _, k, last, cs. split_and!; [done|done|]. eapply end_answer; [lia|done..]. }
    destruct (IsRetryable e) eqn:He; cbn [negb]; cycle 1.
    { eexists _, _, k, last, cs. split_and!; [done|done|]. eapply end_fatal; [lia|done..]. }
    destruct (IH (S k) (Some e) cs2) as (r & cs' & k' & last' & cs3 & Hl & ? & ?);
      [by econstructor|by right|].
    replace (Z.of_nat k + 1) with (Z.of_nat (S k)) by lia. rewrite Hl.
    eexists _, _, k', last', cs3. split_and!; [done|done|]. by replace (k + S n)%nat with (S k + n)%nat by lia.
Qed.
End attempts.

(** Models that were tried, in order, and failed in a way another model may fix;
    the error reported in the end goes from [last] to the one of the last model. *)
Inductive failed_over (fc : FailoverClient) (messages : list Message) (tools : list Tool)
  : error -> list string -> CS -> error -> CS -> Prop :=
| failed_over_nil last cs : failed_over fc messages tools last [] cs last cs
| failed_over_cons last name names cs cs1 cs2 e last' :
    ChatWithRetry (clients fc !! name) (retryCfg fc) messages tools cs = (Ret (Bad e), cs1) ->
    shouldFailover e = true ->
    failed_over fc messages tools (ErrWrap ("model " +:+ name +:+ ": ") e) names cs1 last' cs2 ->
    failed_over fc messages tools last (name :: names) cs last' cs2.

(** How the walk over [names] ends. *)
Inductive walk_end (fc : FailoverClient) (messages : list Message) (tools : list Tool) (last : error)
    (names : list string) (cs : CS) : res error (option ChatResponse) * string -> CS -> Prop :=
| walk_answer tried name rest last' cs1 cs2 resp :
    names = tried ++ name :: rest -> failed_over fc messages tools last tried cs last' cs1 ->
    ChatWithRetry (clients fc !! name) (retryCfg fc) messages tools cs1 = (Ret (Good resp), cs2) ->
    walk_end fc messages tools last names cs (Good resp, name) cs2
| walk_fatal tried name rest last' cs1 cs2 e :
    names = tried ++ name :: rest -> failed_over fc messages tools last tried cs last' cs1 ->
    ChatWithRetry (clients fc !! name) (retryCfg fc) messages tools cs1 = (Ret (Bad e), cs2) ->
    shouldFailover e = false ->
    walk_end fc messages tools last names cs (Bad e, name) cs2
| walk_failed cs1 last' :
    failed_over fc messages tools last names cs last' cs1 ->
    walk_end fc messages tools last names cs
      (Bad (ErrWrap ("all " +:+ itoa (zlen (priority fc)) +:+ " models failed, last: ") last'), "") cs1.

(** Every model in the priority list has a client. *)
Definition fc_wf (fc : FailoverClient) : Prop :=
  Forall (fun name => is_Some (clients fc !! name)) (priority fc).

Lemma ChatWithRetry_returns c cfg messages tools cs :
  exists r cs', ChatWithRetry (Some c) cfg messages tools cs = (Ret r, cs').
Proof.
  unfold ChatWithRetry. destruct (Z.to_nat (rc_MaxRetries cfg + 1)) as [|n] eqn:E; [by eexists _, _|].
  destruct (retry_loop_spec cfg c messages tools (S n) 0 None cs cs) as (r & cs' & ? & ? & ? & H & _);
    [constructor|left; lia|]. change (Z.of_nat 0) with 0 in H. rewrite H. by eexists _, _.
Qed.

Lemma failover_loop_spec fc messages tools names last cs :
  Forall (fun name => is_Some (clients fc !! name)) names ->
  exists out cs', failover_loop names last fc messages tools cs = (Ret out, cs') /\
    walk_end fc messages tools last names cs out cs'.
Proof.
  intros Hc. revert last cs. induction Hc as [|name names [c Hname] Hc IH]; intros last cs; cbn [failover_loop].
  - eexists _, _. split; [done|]. apply walk_failed. constructor.
  - rewrite Hname. destruct (ChatWithRetry_returns c (retryCfg fc) messages tools cs) as (r & cs1 & Hr).
    rewrite Hr. rewrite <-Hname in Hr. destruct r as [resp|e].
    { eexists _, _. split; [done|]. by eapply (walk_answer _ _ _ _ _ _ []); [done|constructor|]. }
    destruct (shouldFailover e) eqn:Hs; cbn [negb]; cycle 1.
    { eexists _, _. split; [done|]. by eapply (walk_fatal _ _ _ _ _ _ []); [done|constructor| |]. }
    destruct (IH (ErrWrap ("model " +:+ name +:+ ": ") e) cs1) as (out & cs' & Hl & Hw).
    rewrite Hl. eexists _, _. split; [done|]. destruct Hw as [tried n2 rest last2 cs2 cs3 resp -> Hf Ha|
      tried n2 rest last2 cs2 cs3 e2 -> Hf Ha He|cs2 last2 Hf].
    + eapply (walk_answer _ _ _ _ _ _ (name :: tried)); [done| |done]. by econstructor.
    + eapply (walk_fatal _ _ _ _ _ _ (name :: tried)); [done| |done..]. by econstructor.
    + apply walk_failed. by econstructor.
Qed.

(** With a client for every model and no negative retry count, [Chat] returns,
    and a success carries a response. *)
Lemma retry_end_response cfg c messages tools n k last cs r cs' :
  retry_end cfg c messages tools n k last cs r cs' -> r <> Good None.
Proof. by destruct 1. Qed.

Lemma ChatWithRetry_response c cfg messages tools cs :
  0 <= rc_MaxRetries cfg ->
  exists r cs', ChatWithRetry (Some c) cfg messages tools cs = (Ret r, cs') /\ r <> Good None.
Proof.
  intros Hr. unfold ChatWithRetry. destruct (retry_loop_spec cfg c messages tools
    (Z.to_nat (rc_MaxRetries cfg + 1)) 0 None cs cs) as (r & cs' & k & last & cs1 & H & Hk & He);
    [constructor|left; lia|]. exists r, cs'. split; [done|]. by eapply retry_end_response.
Qed.

Lemma walk_end_response fc messages tools last names cs out cs' :
  Forall (fun name => is_Some (clients fc !! name)) names -> 0 <= rc_MaxRetries (retryCfg fc) ->
  walk_end fc messages tools last names cs out cs' -> out.1 <> Good None.
Proof.
  intros Hc Hr [tried name rest last' cs1 cs2 resp -> Hf Ha| |]; [|done..]. intros Hg. simplify_eq/=.
  rewrite Forall_app, Forall_cons in Hc. destruct Hc as (_ & [c Hc] & _). rewrite Hc in Ha.
  destruct (ChatWithRetry_response c (retryCfg fc) messages tools cs1 Hr) as (r & ? & ? & ?).
  congruence.
Qed.

Lemma Chat_total fc messages tools cs :
  fc_wf fc -> 0 <= rc_MaxRetries (retryCfg fc) ->
  exists r name cs', Chat fc messages tools cs = (Ret (r, name), cs') /\ r <> Good None.
Proof.
  intros Hwf Hr. unfold Chat. case_decide as Hp; [by eexists _, _, _|].
  case_bool_decide; cbn [negb].
  - destruct (failover_loop_spec fc messages tools (priority fc) (ErrNew "%!w(<nil>)") cs Hwf)
      as ([r name] & cs' & Hl & Hw). exists r, name, cs'. split; [done|].
    by apply (walk_end_response _ _ _ _ _ _ _ _ Hwf Hr Hw).
  - destruct (clients fc !! pinned fc) as [c|]; [|by eexists _, _, _].
    destruct (ChatWithRetry_response c (retryCfg fc) messages tools cs Hr) as (r & cs' & -> & ?).
    by exists r, (pinned fc), cs'.
Qed.

(** ** Properties *)

(** Without a pinned model, [Chat] asks the models in the order of their
    priorities: it returns the answer of the first one that answers, stops at an
    error another model would not fix, and reports failure, with the error of
    the last one, only when every model was tried. *)
Theorem Chat_follows_priority fc messages tools cs
    (Hwf : fc_wf fc) (Hpin : pinned fc = "") (Hp : priority fc <> []) :
  exists out cs', Chat fc messages tools cs = (Ret out, cs') /\
    walk_end fc messages tools (ErrNew "%!w(<nil>)") (priority fc) cs out cs'.
Proof.
  unfold Chat. rewrite decide_False by done. rewrite bool_decide_eq_true_2 by done.
  by apply failover_loop_spec.
Qed.

(** A successful [PinModel] of a named model binds every later [Chat] to that
    model alone: no other client is called, and its error is final.  A refused
    one changes nothing. *)
Theorem PinModel_binds_Chat fc name messages tools cs (Hname : name <> "") (Hp : priority fc <> []) :
  let '(err, fc') := PinModel fc name in
  match err with
  | Some _ => clients fc !! name = None /\ fc' = fc
  | None => exists c out cs', clients fc !! name = Some c /\
      ChatWithRetry (Some c) (retryCfg fc) messages tools cs = (Ret out, cs') /\
      Chat fc' messages tools cs = (Ret (out, name), cs')
  end.
Proof.
  unfold PinModel. rewrite (bool_decide_eq_false_2 (name = "")) by done. cbn [negb andb].
  case_bool_decide as Hc; cbn [negb].
  - destruct Hc as [c Hc]. destruct (ChatWithRetry_returns c (retryCfg fc) messages tools cs)
      as (r & cs' & Hr).
    exists c, r, cs'. split_and!; [done..|]. unfold Chat, set_pinned. cbn.
    rewrite decide_False, bool_decide_eq_false_2 by done. cbn [negb]. by rewrite Hc, Hr.
  - split; [|done]. by apply eq_None_not_Some.
Qed.

(** A call makes at most [MaxRetries + 1] attempts, waits before each one but
    the first, retries only errors that are worth it, and gives up with the
    error of the last attempt. *)
Theorem ChatWithRetry_attempts c cfg messages tools cs (Hr : 0 <= rc_MaxRetries cfg) :
  exists r cs' k last cs1, ChatWithRetry (Some c) cfg messages tools cs = (Ret r, cs') /\
    retried cfg c messages tools k cs last cs1 /\
    retry_end cfg c messages tools (Z.to_nat (rc_MaxRetries cfg + 1)) k last cs1 r cs'.
Proof.
  unfold ChatWithRetry. destruct (retry_loop_spec cfg c messages tools
    (Z.to_nat (rc_MaxRetries cfg + 1)) 0 None cs cs) as (r & cs' & k & last & cs1 & H & Hk & He);
    [constructor|left; lia|]. by exists r, cs', k, last, cs1.
Qed.

(** A negative number of retries makes no attempt at all and returns neither a
    response nor an error: the caller gets a nil response to read from. *)
Theorem ChatWithRetry_negative_returns_nil client cfg messages tools cs (Hr : rc_MaxRetries cfg < 0) :
  ChatWithRetry client cfg messages tools cs = (Ret (Good None), cs).
Proof. unfold ChatWithRetry. by replace (Z.to_nat (rc_MaxRetries cfg + 1)) with 0%nat by lia. Qed.
End retry.
Arguments FailoverClient M : clear implicits.

(** ** Construction: the clients are described by their configuration *)
Record ClientConfig := mkClientConfig {
  cc_BaseURL : string;
  cc_APIKey : string;
  cc_Model : string;
  cc_MaxTokens : Z;
  cc_MaxCompletionTokens : Z;
  cc_RequestTimeout : Z;
  cc_ExtraBody : gomap anyval
}.
Record BedrockClientConfig := mkBedrockClientConfig {
  Region : string;
  bc_Model : string;
  bc_MaxTokens : Z;
  bc_RequestTimeout : Z;
  AccessKeyID : string;
  SecretAccessKey : string;
  SessionToken : string
}.
Record GatewayClientConfig := mkGatewayClientConfig {
  gc_BaseURL : string;
  gc_AgentToken : string;
  gc_Scene : string;
  gc_MaxTokens : Z;
  gc_RequestTimeout : Z
}.
Inductive AnyClient :=
| OpenAIClient (cfg : ClientConfig)
| BedrockClient (cfg : BedrockClientConfig)
| ServerClient (cfg : GatewayClientConfig).

Definition newChatClient (m : ModelConfig) (timeout : Z) : AnyClient :=
  if decide (Provider m = "bedrock") then
    BedrockClient (mkBedrockClientConfig (ExtraStr m "aws_region") (Model m) (MaxTokens m) timeout
      (ExtraStr m "aws_access_key_id") (ExtraStr m "aws_secret_access_key")
      (ExtraStr m "aws_session_token"))
  else
    OpenAIClient (mkClientConfig (model_BaseURL m) (APIKey m) (Model m) (MaxTokens m)
      (MaxCompletionTokens m) timeout (ExtraBody m)).

(** The loop that makes one client per name. *)
Definition add_models (cfg : AIConfig) (names : list string) (cs : gmap string AnyClient)
  : gmap string AnyClient :=
  fold_left (fun cs name =>
    <[name := newChatClient (default zero_ModelConfig (Models cfg !! name)) (RequestTimeout cfg)]> cs)
    names cs.

(** [agentID] is the error of [config.LoadOrCreateAgentID], if any. *)
Definition newGatewayFailoverClient (cfg : AIConfig) (scene : string) (agentID : option error)
  : FailoverClient AnyClient :=
  let gatewayName := "server:" +:+ scene in
  let err := ErrWrap "load agent_id: " <$> agentID in
  let '(cs, prio) :=
    match err with
    | None =>
      ({[gatewayName := ServerClient (mkGatewayClientConfig (gw_BaseURL (Gateway cfg))
           (AgentToken (Gateway cfg)) scene 0 (gw_RequestTimeout (Gateway cfg)))]}, [gatewayName])
    | Some _ => (∅, [])
    end in
  let '(cs, prio) :=
    if FallbackToDirect (Gateway cfg)
    then (add_models cfg (ModelPriority cfg) cs, prio ++ ModelPriority cfg)
    else (cs, prio) in
  mkFailoverClient prio cs (mkRetryConfig (gw_MaxRetries (Gateway cfg)) (RetryBackoff cfg)) "" true err.

Definition NewFailoverClientForScene (cfg : AIConfig) (scene : string) (agentID : option error)
  : FailoverClient AnyClient :=
  if gw_Enabled (Gateway cfg) then newGatewayFailoverClient cfg scene agentID
  else
    mkFailoverClient (ModelPriority cfg) (add_models cfg (ModelPriority cfg) ∅)
      (mkRetryConfig (MaxRetries cfg) (RetryBackoff cfg)) "" false None.

Definition NewFailoverClient (cfg : AIConfig) (agentID : option error) : FailoverClient AnyClient :=
  NewFailoverClientForScene cfg "diagnose" agentID.

(** ** Properties of backoffs and of construction *)

(** Backoffs double from the configured one up to 30 seconds: within the first
    28 retries the product does not overflow. *)
Theorem backoff_doubles cfg attempt
    (Hb : 0 <= rc_RetryBackoff cfg <= maxBackoff) (Ha : 1 <= attempt <= 28) :
  backoff_of cfg attempt = Z.min maxBackoff (rc_RetryBackoff cfg * 2 ^ (attempt - 1)).
Proof.
  unfold backoff_of. rewrite Z.shiftl_1_l. unfold maxBackoff, Second in *.
  assert (0 < 2 ^ (attempt - 1) <= 2 ^ 27) as H2.
  { split; [apply Z.pow_pos_nonneg; lia|apply Z.pow_le_mono_r; lia]. }
  rewrite (i64_id (2 ^ (attempt - 1))) by auto with catpaw.
  rewrite i64_id; [case_match; zbool; lia|].
  unfold in_i64, min_i64, max_i64. nia.
Qed.

Lemma add_models_lookup cfg names cs name :
  name ∈ names \/ is_Some (cs !! name) -> is_Some (add_models cfg names cs !! name).
Proof.
  unfold add_models. revert cs. induction names as [|n names IH]; intros cs H; cbn.
  - destruct H as [?%elem_of_nil|?]; done.
  - apply IH. destruct H as [[->|H]%elem_of_cons|H]; [right|by left|right].
    + by rewrite lookup_insert_eq.
    + destruct (decide (n = name)) as [->|?]; [by rewrite lookup_insert_eq|by rewrite lookup_insert_ne].
Qed.

(** Every client the constructors build can serve every model in its priority
    list, behind a gateway or not. *)
Theorem NewFailoverClientForScene_wf cfg scene agentID :
  fc_wf (NewFailoverClientForScene cfg scene agentID).
Proof.
  unfold fc_wf, NewFailoverClientForScene, newGatewayFailoverClient.
  destruct (gw_Enabled (Gateway cfg)), agentID as [e|], (FallbackToDirect (Gateway cfg)); cbn;
    apply Forall_forall; intros name Hn; try (apply add_models_lookup); try set_solver.
  - apply elem_of_cons in Hn as [->|Hn]; [right; by simplify_map_eq|by left].
  - apply list_elem_of_singleton in Hn as ->. by simplify_map_eq.
Qed.
