(* ===== verification/AiWire.v ===== *)
(** * What the AI clients put on the wire (aiclient/client.go, bedrock.go)

    The body of a chat completion request, and the conversion of a history to
    and from the format of Bedrock Converse.  Sending, signing and decoding the
    bytes of a response are network I/O. *)
From S2P Require Import Prelude GoStr GoConv GoFmt GoJson AiClient Config Failover.
#[local] Open Scope Z_scope.

(** ** client.go *)

(** The values of the body. *)
Inductive payload_value :=
| PExtra (v : anyval)
| PString (s : string)
| PInt (n : Z)
| PMessages (l : list Message)
| PTools (l : list Tool).

Definition buildRequestPayload (c : ClientConfig) (messages : list Message) (tools : list Tool) : gmap string payload_value :=
  let body := PExtra <$> default ∅ (cc_ExtraBody c) in
  let body := <["messages" := PMessages messages]> (<["model" := PString (cc_Model c)]> body) in
  let body := match tools with [] => body | _ => <["tools" := PTools tools]> body end in
  if 0 <? cc_MaxCompletionTokens c then
    <["max_completion_tokens" := PInt (cc_MaxCompletionTokens c)]> (delete "max_tokens" body)
  else if 0 <? cc_MaxTokens c then
    <["max_tokens" := PInt (cc_MaxTokens c)]> (delete "max_completion_tokens" body)
  else body.

(** [truncStr]: back to the start of a rune, then cut. *)
Fixpoint rune_start_before (s : string) (n : nat) : nat :=
  match n with
  | O => O
  | S n' => match sget n s with
            | Some b => if RuneStart b then n else rune_start_before s n'
            | None => n
            end
  end.
Definition truncStr (s : string) (maxBytes : Z) : string :=
  if slen s <=? maxBytes then s else stake (rune_start_before s (Z.to_nat maxBytes)) s +:+ "...".

(** ** bedrock.go: the format *)
Record bedrockToolUse := mkToolUse { ToolUseID : string; use_Name : string; Input : string }.

(** A block has a text, a use of a tool or a result of one, which holds blocks. *)
Inductive bedrockContentBlock :=
| mkBlock (Text : string) (ToolUse : option bedrockToolUse) (ToolResult : option (string * list bedrockContentBlock)).
Definition Text (b : bedrockContentBlock) : string := let '(mkBlock t _ _) := b in t.
Definition ToolUse (b : bedrockContentBlock) : option bedrockToolUse := let '(mkBlock _ u _) := b in u.
Definition ToolResult (b : bedrockContentBlock) : option (string * list bedrockContentBlock) := let '(mkBlock _ _ r) := b in r.
Definition text_block (s : string) : bedrockContentBlock := mkBlock s None None.

Record bedrockMessage := mkBedrockMessage { bm_Role : string; bm_Content : list bedrockContentBlock }.

Record bedrockToolSpec := mkToolSpec { spec_Name : string; spec_Description : string; InputSchema : option Parameters }.
Record bedrockConverseRequest := mkConverse {
  System : list bedrockContentBlock; Messages : list bedrockMessage; InferTokens : Z; ToolConfig : option (list bedrockToolSpec)
}.
Record bedrockUsage := mkBedrockUsage { InputTokens : Z; OutputTokens : Z; BedrockTotalTokens : Z }.
(** The message is missing when [output] or its message is. *)
Record bedrockConverseResponse := mkConverseResponse {
  out_Message : option bedrockMessage; StopReason : string; out_Usage : option bedrockUsage
}.

(** The members of a block that are written ([omitempty]). *)
Definition block_members (b : bedrockContentBlock) : list string :=
  (if decide (Text b = "") then [] else ["text"]) ++
  (match ToolUse b with Some _ => ["toolUse"] | None => [] end) ++
  (match ToolResult b with Some _ => ["toolResult"] | None => [] end).

(** ** bedrock.go: the conversion *)
Definition tool_use (tc : ToolCall) : bedrockContentBlock :=
  let args := fc_Arguments (tc_Function tc) in
  mkBlock "" (Some (mkToolUse (tc_ID tc) (fc_Name (tc_Function tc)) (if json_Valid args then args else json_string args))) None.

Definition convertAssistantMessage (msg : Message) : bedrockMessage :=
  let blocks := (if decide (Content msg = "") then [] else [text_block (Content msg)]) ++ map tool_use (ToolCalls msg) in
  mkBedrockMessage "assistant" (match blocks with [] => [text_block ""] | _ => blocks end).

Definition convertToolResultMessage (msg : Message) : bedrockMessage :=
  mkBedrockMessage "user" [mkBlock "" None (Some (ToolCallID msg, [text_block (Content msg)]))].

Definition convertMessage (msg : Message) : bedrockMessage :=
  if decide (Role msg = "assistant") then convertAssistantMessage msg
  else if decide (Role msg = "tool") then convertToolResultMessage msg
  else mkBedrockMessage "user" [text_block (Content msg)].

(** The loop: [last] is the last message of [merged]. *)
Fixpoint merge_from (last : bedrockMessage) (msgs : list bedrockMessage) : list bedrockMessage :=
  match msgs with
  | [] => [last]
  | m :: msgs' =>
    if decide (bm_Role m = bm_Role last) then merge_from (mkBedrockMessage (bm_Role last) (bm_Content last ++ bm_Content m)) msgs'
    else last :: merge_from m msgs'
  end.
Definition mergeConsecutiveMessages (msgs : list bedrockMessage) : list bedrockMessage :=
  match msgs with [] => [] | m :: msgs' => merge_from m msgs' end.

Definition convertTools (tools : list Tool) : list bedrockToolSpec :=
  map (fun t => let f := tool_Function t in mkToolSpec (tf_Name f) (tf_Description f) (tf_Parameters f)) tools.

Definition is_system (m : Message) : bool := bool_decide (Role m = "system").

Definition buildConverseRequest (maxTokens : Z) (messages : list Message) (tools : list Tool) : bedrockConverseRequest :=
  mkConverse (map (fun m => text_block (Content m)) (filter (fun m => is_system m = true) messages))
    (mergeConsecutiveMessages (map convertMessage (filter (fun m => is_system m = false) messages)))
    maxTokens (match tools with [] => None | _ => Some (convertTools tools) end).

(** ** bedrock.go: the response *)
Definition block_texts (blocks : list bedrockContentBlock) : list string :=
  filter (fun t => t <> "") (map Text blocks).
Definition block_calls (blocks : list bedrockContentBlock) : list ToolCall :=
  omap (fun b => match ToolUse b with
                 | Some u => Some (mkToolCall (ToolUseID u) "function" (mkFunctionCall (use_Name u) (Input u)))
                 | None => None end) blocks.

Definition toChatResponse (resp : bedrockConverseResponse) : ChatResponse :=
  let blocks := match out_Message resp with Some m => bm_Content m | None => [] end in
  let msg := mkMessage "assistant" (Join (block_texts blocks) newline) "" "" (block_calls blocks) in
  let finishReason := if decide (StopReason resp = "tool_use") then "tool_calls"
                      else if decide (StopReason resp = "max_tokens") then "length" else "stop" in
  let usage := match out_Usage resp with
               | Some u => mkUsage (InputTokens u) (OutputTokens u)
                             (if BedrockTotalTokens u =? 0 then i64 (InputTokens u + OutputTokens u) else BedrockTotalTokens u)
               | None => mkUsage 0 0 0 end in
  mkChatResponse "" [mkChoice 0 msg finishReason] usage.

(** ** What Bedrock requires of the messages: roles alternate, and the results in a
    message of the user are those of the uses before it, in order. *)
Definition uses (m : bedrockMessage) : list string := omap (fun b => ToolUseID <$> ToolUse b) (bm_Content m).
Definition results (m : bedrockMessage) : list string := omap (fun b => fst <$> ToolResult b) (bm_Content m).

Fixpoint paired (pending : list string) (ms : list bedrockMessage) : Prop :=
  match ms with
  | [] => pending = []
  | m :: ms' =>
    if decide (bm_Role m = "assistant") then pending = [] /\ results m = [] /\ paired (uses m) ms'
    else results m = pending /\ uses m = [] /\ paired [] ms'
  end.
Fixpoint alternates (ms : list bedrockMessage) : Prop :=
  match ms with
  | m :: ms' => match ms' with m' :: _ => bm_Role m <> bm_Role m' | [] => True end /\ alternates ms'
  | [] => True
  end.

(** *** Lemmas *)
Lemma merge_from_head last msgs : exists m rest, merge_from last msgs = m :: rest /\ bm_Role m = bm_Role last.
Proof.
  revert last. induction msgs as [|m msgs IH]; intros last; cbn; [eauto|].
  case_decide; [|eauto]. destruct (IH (mkBedrockMessage (bm_Role last) (bm_Content last ++ bm_Content m))) as (m' & rest & -> & E). eauto.
Qed.

Lemma merge_from_alternates last msgs : alternates (merge_from last msgs).
Proof.
  revert last. induction msgs as [|m msgs IH]; intros last; cbn; [done|]. case_decide as H; [apply IH|].
  destruct (merge_from_head m msgs) as (m' & rest & E & Er). pose proof (IH m) as Ha. rewrite E in Ha |- *.
  split; [congruence|done].
Qed.

Lemma merge_from_content last msgs : mjoin (map bm_Content (merge_from last msgs)) = bm_Content last ++ mjoin (map bm_Content msgs).
Proof.
  revert last. induction msgs as [|m msgs IH]; intros last; cbn; [done|]. case_decide.
  - rewrite IH. cbn. by rewrite app_assoc.
  - cbn. by rewrite IH.
Qed.

Lemma uses_app role c m : uses (mkBedrockMessage role (c ++ bm_Content m)) = uses (mkBedrockMessage role c) ++ uses m.
Proof. unfold uses. cbn [bm_Content]. by rewrite omap_app. Qed.
Lemma results_app role c m : results (mkBedrockMessage role (c ++ bm_Content m)) = results (mkBedrockMessage role c) ++ results m.
Proof. unfold results. cbn [bm_Content]. by rewrite omap_app. Qed.

Lemma assistant_uses m : uses (convertAssistantMessage m) = map tc_ID (ToolCalls m) /\ results (convertAssistantMessage m) = [].
Proof.
  assert (forall l, omap (fun b => ToolUseID <$> ToolUse b) (map tool_use l) = map tc_ID l /\
                    omap (fun b => fst <$> ToolResult b) (map tool_use l) = []) as Hl.
  { induction l as [|tc l [IH1 IH2]]; [done|]. cbn. rewrite <- IH1. split; [done|exact IH2]. }
  destruct (Hl (ToolCalls m)) as [H1 H2]. unfold convertAssistantMessage, uses, results. cbn [bm_Content].
  destruct (decide (Content m = "")); cbn [app]; [|by cbn; rewrite <- H1].
  destruct (map tool_use (ToolCalls m)) eqn:E; [|done]. by destruct (ToolCalls m).
Qed.

Inductive converted (m : Message) : list string -> list string -> Prop :=
| conv_assistant : Role m = "assistant" -> convertMessage m = convertAssistantMessage m -> converted m [] (map tc_ID (ToolCalls m))
| conv_tool id q : is_tool m = true -> ToolCallID m = id -> bm_Role (convertMessage m) = "user" ->
    uses (convertMessage m) = [] -> results (convertMessage m) = [id] -> converted m (id :: q) q
| conv_user : bm_Role (convertMessage m) = "user" -> uses (convertMessage m) = [] -> results (convertMessage m) = [] ->
    converted m [] [].

(** What a message does to the calls that wait, and to what it becomes. *)
Lemma answer_converted q m q' : answer_step q m = Some q' -> converted m q q'.
Proof.
  unfold answer_step, is_tool, calls_tools. case_bool_decide as Ht.
  - destruct q as [|id q]; [done|]. case_decide as Hi; [|done]. intros [= <-].
    assert (convertMessage m = convertToolResultMessage m) as E
      by (unfold convertMessage; rewrite decide_False, decide_True by congruence; done).
    apply conv_tool; try (by rewrite E); [by unfold is_tool; apply bool_decide_eq_true|done|].
    rewrite E. cbn. by rewrite Hi.
  - destruct q; [|done]. case_bool_decide as Ha.
    + intros [= <-]. replace (if negb (bool_decide (ToolCalls m = [])) then map tc_ID (ToolCalls m) else [])
        with (map tc_ID (ToolCalls m)) by (case_bool_decide as E; [by rewrite E|done]).
      apply conv_assistant; [done|]. unfold convertMessage. by rewrite decide_True.
    + intros [= <-]. assert (convertMessage m = mkBedrockMessage "user" [text_block (Content m)]) as E
        by (unfold convertMessage; by rewrite !decide_False). by apply conv_user; rewrite E.
Qed.

Lemma merge_paired ms : forall q last p, answers q ms = Some [] ->
  (if decide (bm_Role last = "assistant") then p = [] /\ results last = [] /\ uses last = q
   else bm_Role last = "user" /\ uses last = [] /\ results last ++ q = p) ->
  paired p (merge_from last (map convertMessage ms)).
Proof.
  induction ms as [|m ms IH]; intros q last p Hans Hlast.
  - injection Hans as ->. cbn. destruct (decide (bm_Role last = "assistant")); [naive_solver|].
    rewrite app_nil_r in Hlast. naive_solver.
  - cbn [answers] in Hans. apply bind_Some in Hans as (q' & Hq & Hans). apply answer_converted in Hq.
    cbn [map merge_from].
    destruct Hq as [Hm E|id q Ht Hi Hr Hu He|Hr Hu He].
    { destruct (assistant_uses m) as [Hu He]. rewrite <- E in Hu, He.
      assert (bm_Role (convertMessage m) = "assistant") as Hr by (by rewrite E). rewrite Hr.
      destruct (decide (bm_Role last = "assistant")) as [Hl|Hl].
    + destruct Hlast as (-> & Hres & Huse). rewrite Hl, decide_True by done.
      apply (IH (map tc_ID (ToolCalls m))); [done|]. rewrite decide_True by done.
      rewrite uses_app, results_app. unfold uses, results in *. cbn [bm_Content] in *. by rewrite Huse, Hres, Hu, He.
    + destruct Hlast as (Hrole & Huse & Hres). rewrite decide_False by congruence. cbn [paired].
      rewrite decide_False by done. rewrite app_nil_r in Hres. split; [done|]. split; [done|].
      apply (IH (map tc_ID (ToolCalls m))); [done|]. by rewrite decide_True. }
    all: rewrite Hr; destruct (decide (bm_Role last = "assistant")) as [Hl|Hl].
    + destruct Hlast as (-> & Hres & Huse). rewrite Hl, decide_False by done. cbn [paired]. rewrite decide_True by done.
      split; [done|]. split; [done|]. rewrite Huse. apply (IH q); [done|]. rewrite decide_False by (by rewrite Hr).
      by rewrite He.
    + destruct Hlast as (Hrole & Huse & Hres). rewrite Hrole, decide_True by done. apply (IH q); [done|].
      rewrite decide_False by done. rewrite uses_app, results_app. unfold uses, results in *. cbn [bm_Content] in *.
      rewrite Huse, Hu, He, <- app_assoc. done.
    + destruct Hlast as (-> & Hres & Huse). rewrite Hl, decide_False by done. cbn [paired]. rewrite decide_True by done.
      split; [done|]. split; [done|]. rewrite Huse. apply (IH []); [done|]. rewrite decide_False by (by rewrite Hr).
      by rewrite He.
    + destruct Hlast as (Hrole & Huse & Hres). rewrite Hrole, decide_True by done. apply (IH []); [done|].
      rewrite decide_False by done. rewrite uses_app, results_app. unfold uses, results in *. cbn [bm_Content] in *.
      rewrite Huse, Hu, He. split; [done|]. split; [done|]. by rewrite app_nil_r.
Qed.

Lemma answers_no_system ms : forall q, answers q ms = Some [] -> answers q (filter (fun m => is_system m = false) ms) = Some [].
Proof.
  induction ms as [|m ms IH]; intros q H; [done|]. cbn [answers] in H. apply bind_Some in H as (q' & Hq & H).
  destruct (is_system m) eqn:E.
  - rewrite filter_cons_False by (by rewrite E). apply IH. unfold is_system in E. zbool.
    unfold answer_step, is_tool, calls_tools in Hq. rewrite !bool_decide_eq_false_2 in Hq by congruence.
    destruct q; [|done]. cbn in Hq. by injection Hq as <-.
  - rewrite filter_cons_True by done. cbn [answers]. rewrite Hq. by apply IH.
Qed.

(** ** Properties *)

(** C22: Bedrock gets messages whose roles alternate, whose tool results follow the uses they
    answer, and which hold every block of the history in order. *)
Theorem converse_request_well_formed maxTokens ms tools (H : answered ms) :
  let r := Messages (buildConverseRequest maxTokens ms tools) in
  alternates r /\ paired [] r /\
  mjoin (map bm_Content r) = mjoin (map (fun m => bm_Content (convertMessage m)) (filter (fun m => is_system m = false) ms)).
Proof.
  apply answers_no_system in H. cbn. set (l := filter (fun m => is_system m = false) ms) in *.
  replace (map (fun m => bm_Content (convertMessage m)) l) with (map bm_Content (map convertMessage l)) by (by rewrite map_map).
  destruct l as [|m l]; [done|]. cbn [map mergeConsecutiveMessages]. split; [apply merge_from_alternates|]. split.
  - cbn [answers] in H. apply bind_Some in H as (q & Hq & H). apply answer_converted in Hq.
    apply (merge_paired l q); [done|]. inversion Hq as [Hm E Hq1 Hq2| |Hr Hu He]; subst.
    + destruct (assistant_uses m) as [Hu He]. rewrite E, decide_True by done. by rewrite He.
    + rewrite decide_False by (by rewrite Hr). by rewrite He.
  - apply merge_from_content.
Qed.

(** C23: An answer of Bedrock that holds an assistant message is that message again: text and
    calls, with their arguments unless they are no JSON. *)
Theorem converse_round_trip msg stop usage
    (Hrole : Role msg = "assistant") (Hr : ReasoningContent msg = "") (Ht : ToolCallID msg = "")
    (Hcalls : Forall (fun tc => tc_Type tc = "function" /\ json_Valid (fc_Arguments (tc_Function tc)) = true) (ToolCalls msg)) :
  map choice_Message (Choices (toChatResponse (mkConverseResponse (Some (convertMessage msg)) stop usage))) = [msg].
Proof.
  assert (forall l, Forall (fun tc => tc_Type tc = "function" /\ json_Valid (fc_Arguments (tc_Function tc)) = true) l ->
    block_calls (map tool_use l) = l /\ block_texts (map tool_use l) = []) as Hl.
  { induction 1 as [|[id ty [name args]] l [Hty Hv] _ [IH1 IH2]]; [done|]. cbn in Hty, Hv. subst.
    unfold block_calls, block_texts, tool_use in *. cbn. rewrite Hv, IH1. split; [done|exact IH2]. }
  destruct (Hl _ Hcalls) as [H1 H2]. destruct msg as [role content reasoning id calls].
  cbn [Role ReasoningContent ToolCallID ToolCalls] in *. subst.
  unfold convertMessage. cbn [Role]. rewrite decide_True by done. unfold convertAssistantMessage.
  cbn [toChatResponse out_Message Choices map choice_Message bm_Content Content ToolCalls].
  assert (forall bs, block_calls (match bs with [] => [text_block ""] | _ => bs end) = block_calls bs /\
                     block_texts (match bs with [] => [text_block ""] | _ => bs end) = block_texts bs) as Hd by by intros [].
  destruct (Hd ((if decide (content = "") then [] else [text_block content]) ++ map tool_use calls)) as [-> ->].
  destruct (decide (content = "")) as [->|Hc]; cbn [app]; [by rewrite H1, H2|].
  assert (block_calls (text_block content :: map tool_use calls) = block_calls (map tool_use calls)) as -> by done.
  unfold block_texts in *. cbn [map Text text_block]. rewrite filter_cons_True by done. by rewrite H1, H2.
Qed.

(** The fields the program sets are its own, whatever the extra body holds. *)
Theorem payload_standard_fields c messages tools :
  let body := buildRequestPayload c messages tools in
  body !! "model" = Some (PString (cc_Model c)) /\ body !! "messages" = Some (PMessages messages) /\
  (tools <> [] -> body !! "tools" = Some (PTools tools)) /\
  (0 < cc_MaxCompletionTokens c \/ 0 < cc_MaxTokens c ->
   exists n, 0 < n /\ ((body !! "max_completion_tokens" = Some (PInt n) /\ body !! "max_tokens" = None)
                      \/ (body !! "max_tokens" = Some (PInt n) /\ body !! "max_completion_tokens" = None))).
Proof.
  cbn. unfold buildRequestPayload.
  destruct (0 <? cc_MaxCompletionTokens c) eqn:E1; [|destruct (0 <? cc_MaxTokens c) eqn:E2]; zbool.
  all: split; [by destruct tools; simplify_map_eq|]; split; [by destruct tools; simplify_map_eq|].
  all: split; [intros ?; by destruct tools; simplify_map_eq|]; intros ?.
  - exists (cc_MaxCompletionTokens c). split; [done|]. left. destruct tools; by simplify_map_eq.
  - exists (cc_MaxTokens c). split; [done|]. right. destruct tools; by simplify_map_eq.
  - lia.
Qed.

(** ** Concrete inputs *)
Definition ex_call : ToolCall := mkToolCall "c1" "function" (mkFunctionCall "df" "{}").
Definition ex_history : list Message :=
  [plain "system" "be brief"; plain "user" "disk?"; mkMessage "assistant" "looking" "" "" [ex_call];
   mkMessage "tool" "90%" "" "c1" []; plain "user" "go on"].

Lemma converse_request_well_formed_witness :
  alternates (Messages (buildConverseRequest 100 ex_history [])) /\
  map bm_Role (Messages (buildConverseRequest 100 ex_history [])) = ["user"; "assistant"; "user"].
Proof.
  split; [|vm_compute; reflexivity]. apply (converse_request_well_formed 100 ex_history []). vm_compute. reflexivity.
Defined.

Lemma converse_round_trip_witness :
  map choice_Message (Choices (toChatResponse (mkConverseResponse
    (Some (convertMessage (mkMessage "assistant" "looking" "" "" [ex_call]))) "tool_use" None)))
  = [mkMessage "assistant" "looking" "" "" [ex_call]].
Proof.
  apply converse_round_trip; try reflexivity. constructor; [|constructor]. split; vm_compute; reflexivity.
Defined.

(** A block whose text is empty has no member at all: an assistant message without
    text and calls, or a tool without output, is sent as an empty object. *)
Theorem empty_text_has_no_member :
  map block_members (bm_Content (convertMessage (plain "assistant" ""))) = [[]] /\
  exists content, results (convertMessage (mkMessage "tool" "" "" "c1" [])) = ["c1"] /\
    map ToolResult (bm_Content (convertMessage (mkMessage "tool" "" "" "c1" []))) = [Some ("c1", content)] /\
    map block_members content = [[]].
Proof. split; [done|]. by exists [text_block ""]. Qed.
