(* ===== verification/Report.v ===== *)
(** * Reports sent to the alert platform (digcore/diagnose/report.go) and
    tool outputs sent to the AI: both are cut to a size without breaking a
    character *)
From S2P Require Import Prelude GoStr GoLib DiagTypes.
#[local] Open Scope Z_scope.

Definition maxDescriptionBytes : Z := 2048.
Definition maxCommentChars : Z := 1024.

(** ** Truncation *)

(** The loop of [TruncateUTF8]: back to the start of a rune, or to 0. *)
Fixpoint back_to_start (s : string) (n : nat) : nat :=
  match n with
  | O => O
  | S n' => if RuneStart (default 0 (sget n s)) then n else back_to_start s n'
  end.

Definition TruncateUTF8 (s : string) (maxBytes : Z) : string :=
  if slen s <=? maxBytes then s
  else if maxBytes <=? 0 then ""
  else stake (back_to_start s (Z.to_nat maxBytes)) s.

Definition TruncateRunes (s : string) (maxRunes : Z) : string :=
  if maxRunes <=? 0 then ""
  else if zlen (runes s) <=? maxRunes then s
  else of_runes (take (Z.to_nat maxRunes) (runes s)).

(** ** Formatting; times of records are in milliseconds *)
Section report.
(** The offset of the local time zone, and [config.Config.StateDir]. *)
Variable zone : Z -> Z.
Variable StateDir : string.

(** [DiagnoseRecord.FilePath] (record.go). *)
Definition FilePath (record : DiagnoseRecord) : string :=
  JoinPath [StateDir; "diagnoses"; ID record +:+ ".json"].

Definition formatHeader (record : DiagnoseRecord) (language : string) : string :=
  (if decide (language = "zh") then
    "[*] AI 诊断报告 [" +:+ rec_Status record +:+ "]" +:+ newline
    +:+ "插件: " +:+ ar_Plugin (rec_Alert record) +:+ " | 目标: " +:+ ar_Target (rec_Alert record) +:+ newline
    +:+ "诊断时间: " +:+ FormatDateTime zone (CreatedAt record / 1000)
    +:+ " | 耗时: " +:+ itoa (DurationMs record) +:+ "ms | AI轮次: "
    +:+ itoa (TotalRounds (rec_AI record)) +:+ newline
  else
    "[*] AI Diagnosis Report [" +:+ rec_Status record +:+ "]" +:+ newline
    +:+ "Plugin: " +:+ ar_Plugin (rec_Alert record) +:+ " | Target: " +:+ ar_Target (rec_Alert record) +:+ newline
    +:+ "Time: " +:+ FormatDateTime zone (CreatedAt record / 1000)
    +:+ " | Duration: " +:+ itoa (DurationMs record) +:+ "ms | Rounds: "
    +:+ itoa (TotalRounds (rec_AI record)) +:+ newline)
  +:+ "---" +:+ newline.

Definition formatFooter (record : DiagnoseRecord) (language : string) : string :=
  if decide (language = "zh") then
    newline +:+ "---" +:+ newline +:+ "查看命令: catpaw diagnose show " +:+ ID record +:+ newline
    +:+ "完整记录: " +:+ FilePath record +:+ newline
  else
    newline +:+ "---" +:+ newline +:+ "View command: catpaw diagnose show " +:+ ID record +:+ newline
    +:+ "Full record: " +:+ FilePath record +:+ newline.

Definition formatCommentFooter (record : DiagnoseRecord) (language : string) : string :=
  newline +:+ newline +:+
  (if decide (language = "zh") then "详情: catpaw diagnose show " +:+ ID record
   else "Details: catpaw diagnose show " +:+ ID record).

Definition formatCommentTruncSuffix (language : string) : string :=
  newline +:+ (if decide (language = "zh") then "...[已截断]" else "...[truncated]").

Definition formatEmptyComment (language : string) : string :=
  if decide (language = "zh") then "AI 诊断已完成，但未生成可显示的报告。"
  else "AI diagnosis completed, but no displayable report was generated.".

Definition truncSuffixText (language : string) : string :=
  newline +:+ (if decide (language = "zh") then "...[诊断报告已截断，完整内容请查看本地记录]"
               else "...[Report truncated, see local record for full content]").

Definition FormatReportDescription (record : DiagnoseRecord) (report language : string) : string :=
  let header := formatHeader record language in
  let footer := formatFooter record language in
  let overhead := slen header + slen footer in
  if maxDescriptionBytes <=? overhead then TruncateUTF8 header maxDescriptionBytes
  else
    let truncSuffix := truncSuffixText language in
    let budget := maxDescriptionBytes - overhead in
    let body :=
      if budget <? slen report then
        if slen truncSuffix <? budget
        then TruncateUTF8 report (budget - slen truncSuffix) +:+ truncSuffix
        else TruncateUTF8 report budget
      else report in
    header +:+ body +:+ footer.

Definition FormatReportComment (record : DiagnoseRecord) (report language : string) : string :=
  let body := TrimSpace report in
  let body := if decide (body = "") then formatEmptyComment language else body in
  let footer := formatCommentFooter record language in
  let truncSuffix := formatCommentTruncSuffix language in
  let footerRunes := RuneCount footer in
  if maxCommentChars <=? footerRunes then TruncateRunes footer maxCommentChars
  else
    let budget := maxCommentChars - footerRunes in
    let body :=
      if budget <? RuneCount body then
        if RuneCount truncSuffix <? budget
        then TruncateRunes body (budget - RuneCount truncSuffix) +:+ truncSuffix
        else TruncateRunes body budget
      else body in
    body +:+ footer.
End report.

(** ** Tool outputs (executor.go) *)
Definition maxToolOutputBytes : Z := 32 * 1024.
Definition maxRecordResultBytes : Z := 64 * 1024.

Definition TruncateOutput (s : string) : string :=
  if slen s <=? maxToolOutputBytes then s
  else TruncateUTF8 s maxToolOutputBytes +:+ newline +:+ "...[output truncated]".

Definition TruncateForRecord (s : string) : string :=
  if slen s <=? maxRecordResultBytes then s
  else TruncateUTF8 s maxRecordResultBytes +:+ newline +:+ "...[record truncated]".

(** ** Lemmas *)

Lemma back_to_start_le s n : (back_to_start s n <= n)%nat.
Proof. induction n as [|n IH]; cbn [back_to_start]; [lia|]. case_match; lia. Qed.

Lemma slen_TruncateUTF8 s n : 0 <= n -> slen (TruncateUTF8 s n) <= n.
Proof.
  intros Hn. unfold TruncateUTF8. repeat case_match; zbool; [done|done|].
  rewrite slen_stake. pose proof (back_to_start_le s (Z.to_nat n)). lia.
Qed.

Lemma RuneCount_TruncateRunes s n : 0 <= n -> RuneCount (TruncateRunes s n) <= n.
Proof.
  intros Hn. unfold TruncateRunes. repeat case_match; zbool; [done|done|].
  unfold RuneCount. rewrite runes_of_runes; [|by apply Forall_take, runes_valid].
  unfold zlen. rewrite length_take. lia.
Qed.

#[export] Hint Resolve slen_TruncateUTF8 RuneCount_TruncateRunes : catpaw.

(** Runes that UTF-8 can carry. *)
Definition valid_runes (rs : list Z) : Prop := Forall (fun r => ValidRune r = true) rs.

Lemma RuneStart_is_cont b : 0 <= b <= 255 -> RuneStart b = negb (is_cont b).
Proof.
  intros Hb. assert (Forall (fun i => RuneStart (Z.of_nat i) = negb (is_cont (Z.of_nat i))) (seq 0 256)) as H.
  { apply (bool_decide_unpack _). vm_compute. exact I. }
  rewrite Forall_forall in H. specialize (H (Z.to_nat b)). rewrite Z2Nat.id in H by lia.
  apply H, elem_of_seq. lia.
Qed.

(** An encoding starts with a byte that starts a rune, and only that one. *)
Lemma encode_rune_cons r :
  ValidRune r = true ->
  exists b l, encode_bytes r = b :: l /\ RuneStart b = true /\ 0 <= b <= 255 /\
    Forall (fun c => RuneStart c = false /\ 0 <= c <= 255) l.
Proof.
  intros Hv. pose proof (encode_valid_range r Hv) as Hrange.
  unfold encode_bytes. rewrite Hv. apply ValidRune_spec in Hv. revert Hrange.
  assert (forall b, 0 <= b <= 255 -> is_cont b = false -> RuneStart b = true) as Hs
    by (intros b ? E; by rewrite RuneStart_is_cont, E).
  assert (forall x, 0 <= 128 + x mod 64 <= 255 ->
    RuneStart (128 + x mod 64) = false /\ 0 <= 128 + x mod 64 <= 255) as Hc
    by (intros x ?; by rewrite RuneStart_is_cont, cont_mod).
  unfold encode_valid.
  repeat case_match; zbool; intros Hr; rewrite ?Forall_cons in Hr; destruct_and?;
    eexists _, _; (split; [done|]); (split; [apply Hs; [done|];
      apply in_range_false; Z.div_mod_to_equations; lia|]); (split; [done|]);
    repeat constructor; by apply Hc.
Qed.

Lemma sget_app_l i s t : (i < String.length s)%nat -> sget i (s +:+ t) = sget i s.
Proof.
  revert i. induction s as [|c s IH]; intros i Hi; cbn [String.length] in Hi; [lia|].
  rewrite sapp_cons. destruct i; [done|]. apply IH. lia.
Qed.

Lemma sget_app_r i s t : sget (String.length s + i) (s +:+ t) = sget i t.
Proof. induction s as [|c s IH]; [done|]. apply IH. Qed.

Lemma sget_of_bytes l i b :
  Forall (fun b => 0 <= b <= 255) l -> l !! i = Some b -> sget i (of_bytes l) = Some b.
Proof.
  intros Hl. revert i. induction Hl as [|x l Hx Hl IH]; intros [|i] Hi; simplify_eq/=; [|by apply IH].
  by rewrite byte_val_byte.
Qed.

Lemma slen_encode_rune_pos r : ValidRune r = true -> (0 < String.length (encode_rune r))%nat.
Proof.
  intros (b & l & He & _)%encode_rune_cons. unfold encode_rune. rewrite He. cbn. lia.
Qed.

(** Inside the first rune the loop runs down to 0. *)
Lemma back_to_start_inside r t n :
  ValidRune r = true -> (n < String.length (encode_rune r))%nat ->
  back_to_start (encode_rune r +:+ t) n = O.
Proof.
  intros (b & l & He & _ & Hb & Hl)%encode_rune_cons. unfold encode_rune.
  rewrite He, length_of_bytes. induction n as [|n IH]; intros Hn; [done|]. cbn [back_to_start].
  destruct (lookup_lt_is_Some_2 l n) as [c Hc]; [cbn in Hn; lia|].
  pose proof (proj1 (Forall_forall _ _) Hl c (list_elem_of_lookup_2 _ _ _ Hc)) as [Hs ?].
  rewrite sget_app_l by (rewrite length_of_bytes; lia).
  rewrite (sget_of_bytes _ _ c); [|constructor; [done|]; by eapply Forall_impl; [exact Hl|cbn; intros ? [? ?]]|done].
  change (default 0 (Some c)) with c. rewrite Hs. apply IH. lia.
Qed.

Lemma starts_of_runes rs b : valid_runes rs -> sget 0 (of_runes rs) = Some b -> RuneStart b = true.
Proof.
  intros Hv. destruct Hv as [|r rs Hr Hv]; [done|]. cbn [of_runes].
  apply encode_rune_cons in Hr as (c & l & He & Hs & Hc & _). unfold encode_rune. rewrite He.
  cbn [of_bytes]. rewrite sapp_cons. cbn [sget]. rewrite byte_val_byte by done. by intros [= <-].
Qed.

(** Behind a whole rune the loop does what it does on the rest. *)
Lemma back_to_start_behind a rs m :
  valid_runes rs -> (0 < String.length a)%nat -> (m < String.length (of_runes rs))%nat ->
  back_to_start (a +:+ of_runes rs) (String.length a + m)
  = (String.length a + back_to_start (of_runes rs) m)%nat.
Proof.
  intros Hv Ha. induction m as [|m IH]; intros Hm.
  - destruct (String.length a) as [|w] eqn:Hw; [lia|]. cbn [back_to_start]. rewrite Nat.add_0_r.
    cbn [back_to_start]. replace (S w) with (String.length a + 0)%nat at 1 by lia.
    rewrite sget_app_r. destruct (sget 0 (of_runes rs)) as [b|] eqn:E.
    + change (default 0 (Some b)) with b. by rewrite (starts_of_runes rs b).
    + destruct (of_runes rs); cbn in *; [lia|done].
  - rewrite Nat.add_succ_r. cbn [back_to_start]. rewrite <-Nat.add_succ_r, sget_app_r.
    case_match; [done|]. apply IH. lia.
Qed.

(** How many leading runes fit in [n] bytes. *)
Fixpoint fit (rs : list Z) (n : nat) : nat :=
  match rs with
  | [] => O
  | r :: rs' =>
    let w := String.length (encode_rune r) in
    if decide (w <= n)%nat then S (fit rs' (n - w)) else O
  end.

Lemma fit_le rs n : (fit rs n <= length rs)%nat.
Proof. revert n. induction rs as [|r rs IH]; intros n; cbn; [lia|]. case_decide; [|lia]. specialize (IH (n - String.length (encode_rune r))%nat). lia. Qed.

Lemma length_sapp a b : String.length (a +:+ b) = (String.length a + String.length b)%nat.
Proof. induction a as [|c a IH]; [done|]. rewrite sapp_cons. cbn. by rewrite IH. Qed.

Lemma stake_app_ge a b n : stake (String.length a + n) (a +:+ b) = a +:+ stake n b.
Proof. induction a as [|c a IH]; [done|]. rewrite !sapp_cons. cbn. by rewrite IH. Qed.

Lemma stake_fit rs n :
  valid_runes rs -> (n < String.length (of_runes rs))%nat ->
  stake (back_to_start (of_runes rs) n) (of_runes rs) = of_runes (take (fit rs n) rs).
Proof.
  intros Hv. revert n. induction Hv as [|r rs Hr Hv IH]; intros n Hn; [cbn in Hn; lia|].
  cbn [of_runes fit] in *. case_decide as Hw; cycle 1.
  { by rewrite back_to_start_inside by (done || lia). }
  set (w := String.length (encode_rune r)) in *. rewrite length_sapp in Hn. fold w in Hn.
  replace n with (w + (n - w))%nat at 1 by lia. unfold w at 1.
  rewrite back_to_start_behind by (done || (by apply slen_encode_rune_pos) || (fold w; lia)).
  rewrite stake_app_ge. cbn [take firstn of_runes]. f_equal. apply IH. lia.
Qed.

Lemma fit_spec rs n j :
  (j <= length rs)%nat ->
  (String.length (of_runes (take j rs)) <= n)%nat <-> (j <= fit rs n)%nat.
Proof.
  revert n j. induction rs as [|r rs IH]; intros n [|j] Hj; cbn [length] in Hj; try lia;
    cbn [take firstn of_runes fit String.length]; [lia|lia|].
  rewrite length_sapp. case_decide as Hw; [|lia]. rewrite <-Nat.succ_le_mono, <-IH by lia.
  fold (take j rs). lia.
Qed.

(** ** Properties *)

(** A description sent to the alert platform never exceeds its 2048 bytes and a
    comment never exceeds its 1024 characters, whatever the report, the
    record and the language. *)
Theorem reports_fit zone StateDir record report language :
  slen (FormatReportDescription zone StateDir record report language) <= maxDescriptionBytes /\
  RuneCount (FormatReportComment record report language) <= maxCommentChars.
Proof.
  split.
  - unfold FormatReportDescription.
    case_match; zbool; [by apply slen_TruncateUTF8|]. rewrite !slen_app.
    repeat case_match; zbool; rewrite ?slen_app;
      repeat match goal with |- context [slen (TruncateUTF8 ?s ?n)] =>
        pose proof (slen_TruncateUTF8 s n ltac:(lia)); generalize dependent (slen (TruncateUTF8 s n)); intros
      end; len_lia.
  - unfold FormatReportComment. case_match; zbool; [by apply RuneCount_TruncateRunes|].
    rewrite RuneCount_app by done. repeat case_match; zbool; rewrite ?RuneCount_app by done;
      repeat match goal with |- context [RuneCount (TruncateRunes ?s ?n)] =>
        pose proof (RuneCount_TruncateRunes s n ltac:(lia));
        generalize dependent (RuneCount (TruncateRunes s n)); intros
      end; lia.
Qed.

(** Truncation to [maxBytes] bytes keeps whole characters and as many of them
    as fit. *)
Theorem TruncateUTF8_keeps_whole_runes rs maxBytes (Hv : valid_runes rs) (Hn : 0 <= maxBytes) :
  exists k, (k <= length rs)%nat /\ TruncateUTF8 (of_runes rs) maxBytes = of_runes (take k rs) /\
    forall j, (j <= length rs)%nat -> slen (of_runes (take j rs)) <= maxBytes <-> (j <= k)%nat.
Proof.
  exists (fit rs (Z.to_nat maxBytes)). split; [apply fit_le|]. split; cycle 1.
  { intros j Hj. rewrite <-fit_spec by done. unfold slen. lia. }
  unfold TruncateUTF8. case_match; zbool; [|case_match; zbool].
  - rewrite take_ge; [done|]. apply fit_spec; [done|].
    rewrite take_ge by done. unfold slen in *. lia.
  - assert (Z.to_nat maxBytes = 0%nat) as -> by lia.
    destruct Hv as [|r rs Hr Hv]; [done|]. cbn [fit]. rewrite decide_False; [done|].
    pose proof (slen_encode_rune_pos r Hr). lia.
  - apply stake_fit; [done|]. unfold slen in *. lia.
Qed.

(** ** Witness: a cut inside a three-byte character moves to its start *)

Lemma TruncateUTF8_keeps_whole_runes_witness :
  let rs := [30913; 30424; 97] in
  valid_runes rs /\ TruncateUTF8 (of_runes rs) 5 = of_runes [30913] /\
  exists k, (k <= 3)%nat /\ TruncateUTF8 (of_runes rs) 5 = of_runes (take k rs) /\
    forall j, (j <= 3)%nat -> slen (of_runes (take j rs)) <= 5 <-> (j <= k)%nat.
Proof.
  intros rs. assert (valid_runes rs) as Hv by (repeat constructor).
  split; [exact Hv|]. split; [vm_compute; reflexivity|].
  apply (TruncateUTF8_keeps_whole_runes rs 5 Hv). lia.
Defined.
