(* ===== verification/Record.v ===== *)
(** * Diagnosis records on disk (digcore/diagnose/record.go and cleanup.go) *)
From S2P Require Import Prelude GoStr GoLib Types DiagTypes DiagState.
#[local] Open Scope Z_scope.

(** ** record.go *)

Definition keeps_byte (b : Z) : bool :=
  in_range 97 122 b || in_range 65 90 b || in_range 48 57 b || (b =? 45) || (b =? 95).

Fixpoint sanitizeTarget (target : string) : string :=
  match target with
  | "" => ""
  | String c t => String (if keeps_byte (byte_val c) then c else "_"%char) (sanitizeTarget t)
  end.

(** [b] are the two random bytes. *)
Definition randHex4 (b : Z * Z) : string := hex 2 b.1 +:+ hex 2 b.2.

(** The clock is read twice: once for the ID, once for [CreatedAt]. *)
Definition NewDiagnoseRecord {I} (req : DiagnoseRequest I) (idMillis createdMillis : Z) (b : Z * Z)
    : DiagnoseRecord :=
  let mode := if decide (req_Mode req = "") then ModeAlert else req_Mode req in
  mkDiagnoseRecord
    (mode +:+ "_" +:+ req_Plugin req +:+ "_" +:+ sanitizeTarget (req_Target req) +:+ "_"
     +:+ itoa idMillis +:+ "_" +:+ randHex4 b)
    mode "running" "" createdMillis 0
    (mkAlertRecord (req_Plugin req) (req_Target req) (Checks req))
    (mkAIRecord "" 0 0 0) [] "".

Section save.
(** [json.MarshalIndent], and the error texts of the file system. *)
Context (marshal : DiagnoseRecord -> option string).
Variable StateDir : string.

Definition record_dir : string := JoinPath [StateDir; "diagnoses"].
Definition record_path (r : DiagnoseRecord) : string := JoinPath [record_dir; ID r +:+ ".json"].

(** [files] are the files by path; the result is false when an error is returned. *)
Definition SaveRecord (io : SaveIO) (r : DiagnoseRecord) (files : gmap string string)
    : bool * gmap string string :=
  if negb (mkdir_ok io) then (false, files)
  else
    match marshal r with
    | None => (false, files)
    | Some data =>
      let target := record_path r in
      let tmp := target +:+ ".tmp" in
      if negb (write_ok io) then
        (false, match partial io with Some p => <[tmp := p]> files | None => files end)
      else if negb (rename_ok io) then (false, delete tmp files)
      else (true, <[target := data]> (delete tmp files))
    end.
End save.

(** ** cleanup.go *)

Record dirEntry := mkDirEntry {
  entry_name : string;
  entry_isDir : bool;
  entry_modTime : option Z  (** [None]: [Info] fails; nanoseconds *)
}.
Record fileEntry := mkFileEntry { file_name : string; modTime : Z }.

Definition record_files (entries : list dirEntry) : list fileEntry :=
  omap (fun e =>
    if entry_isDir e || negb (HasSuffix (entry_name e) ".json") then None
    else mkFileEntry (entry_name e) <$> entry_modTime e) entries.

Definition newer (f g : fileEntry) : Prop := modTime g <= modTime f.
#[export] Instance newer_dec f g : Decision (newer f g).
Proof. unfold newer. apply _. Defined.

(** [Time.Sub] saturates. *)
Definition time_sub (a b : Z) : Z := Z.max min_i64 (Z.min max_i64 (a - b)).

Definition shouldRemove (retention maxCount now : Z) (i : Z) (f : fileEntry) : bool :=
  ((0 <? maxCount) && (maxCount <=? i))
  || ((0 <? retention) && (retention <? time_sub now (modTime f))).

(** The loop over the files, newest first: the names it removes. *)
Fixpoint removed_from (retention maxCount now : Z) (i : Z) (files : list fileEntry) : list fileEntry :=
  match files with
  | [] => []
  | f :: files' =>
    if shouldRemove retention maxCount now i f
    then f :: removed_from retention maxCount now (i + 1) files'
    else removed_from retention maxCount now (i + 1) files'
  end.
Fixpoint kept_from (retention maxCount now : Z) (i : Z) (files : list fileEntry) : list fileEntry :=
  match files with
  | [] => []
  | f :: files' =>
    if shouldRemove retention maxCount now i f
    then kept_from retention maxCount now (i + 1) files'
    else f :: kept_from retention maxCount now (i + 1) files'
  end.

(** [entries] is [None] when the directory cannot be read.  The result is the
    list of files [os.Remove] is called on, in that order. *)
Definition CleanupRecords (retention maxCount now : Z) (entries : option (list dirEntry))
    : list fileEntry :=
  match entries with
  | None => []
  | Some es => removed_from retention maxCount now 0 (merge_sort newer (record_files es))
  end.

(** The files that stay. *)
Definition remaining (retention maxCount now : Z) (es : list dirEntry) : list fileEntry :=
  kept_from retention maxCount now 0 (merge_sort newer (record_files es)).

(** ** Lemmas *)

Lemma sanitizeTarget_length t : String.length (sanitizeTarget t) = String.length t.
Proof. induction t as [|c t IH]; [done|]. cbn. by rewrite IH. Qed.

Lemma kept_removed_perm retention maxCount now i files :
  kept_from retention maxCount now i files ++ removed_from retention maxCount now i files ≡ₚ files.
Proof.
  revert i. induction files as [|f files IH]; intros i; [done|]. cbn.
  case_match; cbn; by rewrite <-?Permutation_middle, IH.
Qed.

Lemma kept_from_count retention maxCount now i files :
  0 < maxCount -> zlen (kept_from retention maxCount now i files) <= Z.max 0 (maxCount - i).
Proof.
  intros Hm. revert i. induction files as [|f files IH]; intros i; cbn [kept_from];
    [rewrite zlen_nil; lia|]. specialize (IH (i + 1)).
  unfold shouldRemove. destruct (0 <? maxCount) eqn:E; [|zbool; lia]. cbn [andb].
  destruct (maxCount <=? i) eqn:E2; cbn [orb]; zbool; [lia|].
  case_match; [lia|]. rewrite zlen_cons. lia.
Qed.

Lemma kept_from_age retention maxCount now i files f :
  f ∈ kept_from retention maxCount now i files -> 0 < retention -> time_sub now (modTime f) <= retention.
Proof.
  revert i. induction files as [|g files IH]; intros i Hf Hr; cbn [kept_from] in Hf; [set_solver|].
  destruct (shouldRemove _ _ _ _ _) eqn:E; [by eapply IH|].
  apply elem_of_cons in Hf as [->|Hf]; [|by eapply IH].
  unfold shouldRemove in E. zbool. replace (0 <? retention) with true in * by (symmetry; by apply Z.ltb_lt).
  naive_solver (zbool; lia).
Qed.

Lemma shouldRemove_mono retention maxCount now i j f g :
  i <= j -> newer f g ->
  shouldRemove retention maxCount now i f = true -> shouldRemove retention maxCount now j g = true.
Proof.
  unfold shouldRemove, newer, time_sub. rewrite !orb_true_iff, !andb_true_iff, !Z.ltb_lt, !Z.leb_le. lia.
Qed.

Lemma kept_from_nil retention maxCount now i j f files :
  i <= j -> Forall (newer f) files -> shouldRemove retention maxCount now i f = true ->
  kept_from retention maxCount now j files = [].
Proof.
  intros Hij Hn Hf. revert j Hij. induction Hn as [|g files Hg Hn IH]; intros j Hij; [done|].
  cbn [kept_from]. rewrite (shouldRemove_mono _ _ _ i j f g) by done. apply IH. lia.
Qed.

(** Newest first, a file is kept only if all newer ones are. *)
Lemma kept_from_newer retention maxCount now i files f g :
  StronglySorted newer files ->
  f ∈ kept_from retention maxCount now i files -> g ∈ removed_from retention maxCount now i files ->
  newer f g.
Proof.
  intros Hs. revert i. induction Hs as [|h files Hs IH Hh]; intros i Hf Hg;
    cbn [kept_from removed_from] in *; [set_solver|].
  destruct (shouldRemove _ _ _ i h) eqn:E.
  { rewrite (kept_from_nil _ _ _ i (i + 1) h) in Hf by (done || lia). set_solver. }
  apply elem_of_cons in Hf as [->|Hf]; [|by eapply IH].
  rewrite Forall_forall in Hh. apply Hh.
  rewrite <-(kept_removed_perm retention maxCount now (i + 1) files). set_solver.
Qed.

#[local] Instance newer_trans : Transitive newer.
Proof. intros f g h. unfold newer. lia. Qed.
#[local] Instance newer_total : Total newer.
Proof. intros f g. unfold newer. lia. Qed.

Lemma files_sorted es : StronglySorted newer (merge_sort newer (record_files es)).
Proof. apply Sorted_StronglySorted; [apply _|]. apply Sorted_merge_sort, _. Qed.

(** ** Properties *)

(** Cleaning up splits the records into those removed and those that stay: at
    most [maxCount] stay, none of them older than the retention, and nothing
    that stays is older than something removed. *)
Theorem CleanupRecords_retention retention maxCount now es :
  let removed := CleanupRecords retention maxCount now (Some es) in
  let kept := remaining retention maxCount now es in
  kept ++ removed ≡ₚ record_files es /\
  (0 < maxCount -> zlen kept <= maxCount) /\
  (0 < retention -> Forall (fun f => time_sub now (modTime f) <= retention) kept) /\
  (forall f g, f ∈ kept -> g ∈ removed -> newer f g).
Proof.
  cbn. unfold remaining. split_and!.
  - by rewrite kept_removed_perm, merge_sort_Permutation.
  - intros Hm. pose proof (kept_from_count retention maxCount now 0
      (merge_sort newer (record_files es)) Hm). lia.
  - intros Hr. apply Forall_forall. intros f Hf. by eapply kept_from_age.
  - intros f g. apply kept_from_newer, files_sorted.
Qed.

(** A record is saved whole or not at all: on success its file holds its
    encoding, on an error its file is what it was, and no other file than the
    record's temporary one is touched. *)
Theorem SaveRecord_atomic marshal StateDir io r files :
  let '(ok, files') := SaveRecord marshal StateDir io r files in
  let target := record_path StateDir r in
  (if ok then files' !! target = marshal r else files' !! target = files !! target) /\
  forall p, p <> target -> p <> target +:+ ".tmp" -> files' !! p = files !! p.
Proof.
  assert (forall t, t <> t +:+ ".tmp") as Hne.
  { intros t Ht%(f_equal slen). rewrite slen_app in Ht. change (slen ".tmp") with 4 in Ht. lia. }
  unfold SaveRecord. set (target := record_path StateDir r). specialize (Hne target).
  repeat case_match; simplify_eq; split; try done; intros; simplify_map_eq; done.
Qed.
