(* ===== verification/Registry.v ===== *)
(** * The tool registry (digcore/diagnose/registry.go)

    Maps keyed by name, a flat index of tools, and the catalogs shown to the
    AI.  A loop over a Go map visits it in an arbitrary order: the operations
    that run one take that order, the list [order], as an argument. *)
From S2P Require Import Prelude GoStr DiagTypes.
#[local] Open Scope Z_scope.

(** [for _, p := range l { fmt.Fprintf(&b, ...) }]. *)
Definition concat_map {A} (f : A -> string) (l : list A) : string :=
  foldr (fun x s => f x +:+ s) "" l.

(** [categorySupportsOS], on the description that carries the restriction. *)
Definition descSupportsOS (description goos : string) : bool :=
  let desc := ToLower description in
  if Contains desc "linux only." then bool_decide (goos = "linux")
  else if Contains desc "darwin only." || Contains desc "macos only." then bool_decide (goos = "darwin")
  else if Contains desc "windows only." then bool_decide (goos = "windows")
  else true.

Definition formatParamsCompact (params : list ToolParam) : string :=
  Join (map (fun p => if param_Required p then param_Name p +:+ "*" else param_Name p) params) ", ".

Section registry.
Context {X S A I : Type}.
Variable is_print : Z -> bool.
Implicit Types (tool : DiagnoseTool X S) (cat : ToolCategory X S).

Definition AccessorFactory : Type := X -> option I -> string -> res string A * X.
Definition PreCollector : Type := X -> option A -> string * X.

Record ToolRegistry := mkRegistry {
  categories : gmap string (ToolCategory X S);
  toolIndex : gmap string (DiagnoseTool X S);
  accessorFactory : gmap string AccessorFactory;
  preCollectors : gmap string PreCollector;
  diagnoseHints : gmap string string;
  baselinePlugins : list string
}.
Implicit Types r : ToolRegistry.

Definition NewToolRegistry : ToolRegistry := mkRegistry ∅ ∅ ∅ ∅ ∅ [].

(** ** Registration *)

Definition with_categories (c : gmap string (ToolCategory X S)) r : ToolRegistry :=
  mkRegistry c (toolIndex r) (accessorFactory r) (preCollectors r) (diagnoseHints r)
    (baselinePlugins r).

Definition cat_append cat tool : ToolCategory X S :=
  mkToolCategory (cat_Name cat) (cat_Plugin cat) (cat_Description cat) (cat_Scope cat)
    (cat_Tools cat ++ [tool]).

Definition Register (category : string) tool r : ToolRegistry :=
  match toolIndex r !! tool_Name tool with
  | Some _ => r
  | None =>
    let cat := default (mkToolCategory category category "" (tool_Scope tool) [])
                 (categories r !! category) in
    mkRegistry (<[category := cat_append cat tool]> (categories r))
      (<[tool_Name tool := tool]> (toolIndex r))
      (accessorFactory r) (preCollectors r) (diagnoseHints r) (baselinePlugins r)
  end.

Definition RegisterCategory (name plugin description : string) (scope : ToolScope) r : ToolRegistry :=
  let cat := default (mkToolCategory name "" "" ToolScopeLocal []) (categories r !! name) in
  with_categories
    (<[name := mkToolCategory (cat_Name cat) plugin description scope (cat_Tools cat)]> (categories r)) r.

Definition RegisterAccessorFactory (plugin : string) (factory : AccessorFactory) r : ToolRegistry :=
  mkRegistry (categories r) (toolIndex r) (<[plugin := factory]> (accessorFactory r))
    (preCollectors r) (diagnoseHints r) (baselinePlugins r).

Definition RegisterPreCollector (plugin : string) (fn : PreCollector) r : ToolRegistry :=
  mkRegistry (categories r) (toolIndex r) (accessorFactory r)
    (<[plugin := fn]> (preCollectors r)) (diagnoseHints r) (baselinePlugins r).

Definition SetDiagnoseHints (plugin hints : string) r : ToolRegistry :=
  mkRegistry (categories r) (toolIndex r) (accessorFactory r) (preCollectors r)
    (<[plugin := hints]> (diagnoseHints r)) (baselinePlugins r).

Definition RegisterBaselinePlugin (plugin : string) r : ToolRegistry :=
  if bool_decide (plugin ∈ baselinePlugins r) then r
  else mkRegistry (categories r) (toolIndex r) (accessorFactory r) (preCollectors r)
         (diagnoseHints r) (baselinePlugins r ++ [plugin]).

(** ** Lookups *)

Definition Get r (name : string) : option (DiagnoseTool X S) := toolIndex r !! name.

Definition ByPlugin r (plugin : string) : list (DiagnoseTool X S) :=
  match categories r !! plugin with Some cat => cat_Tools cat | None => [] end.

Definition categorySupportsOS cat (goos : string) : bool := descSupportsOS (cat_Description cat) goos.

Definition tools_for_os cat (goos : string) : list (DiagnoseTool X S) :=
  filter (fun t => SupportsOS t goos = true) (cat_Tools cat).

Definition ByPluginForOS r (plugin goos : string) : list (DiagnoseTool X S) :=
  match categories r !! plugin with
  | Some cat => if categorySupportsOS cat goos then tools_for_os cat goos else []
  | None => []
  end.

Definition ToolCount r : Z := Z.of_nat (size (toolIndex r)).

(** The first category visited that holds the tool decides. *)
Definition ToolSupportedOn r (order : list (string * ToolCategory X S)) (name goos : string) : bool :=
  match toolIndex r !! name with
  | None => false
  | Some tool =>
    if negb (SupportsOS tool goos) then false
    else
      match list_find (fun kc => Exists (fun t => tool_Name t = name) (cat_Tools kc.2)) order with
      | Some (_, kc) => categorySupportsOS kc.2 goos
      | None => true
      end
  end.

Definition CreateAccessor r (x : X) (plugin : string) (instanceRef : option I) (target : string) :
    res string A * X :=
  match accessorFactory r !! plugin with
  | None => (Bad ("no accessor factory registered for plugin " +:+ Quote is_print plugin), x)
  | Some factory => factory x instanceRef target
  end.

Definition HasAccessorFactory r (plugin : string) : bool :=
  bool_decide (is_Some (accessorFactory r !! plugin)).

Definition RunPreCollector r (x : X) (plugin : string) (accessor : option A) : string * X :=
  match preCollectors r !! plugin with None => ("", x) | Some fn => fn x accessor end.

Definition GetDiagnoseHints r (plugin : string) : string := default "" (diagnoseHints r !! plugin).

Definition RunBaselinePreCollectors r (x : X) (excludePlugin : string) : gmap string string * X :=
  fold_left (fun '(result, x) p =>
    if decide (p = excludePlugin) then (result, x)
    else
      let '(data, x') := RunPreCollector r x p None in
      if decide (data = "") then (result, x') else (<[p := data]> result, x'))
    (baselinePlugins r) (∅, x).

(** ** Catalogs: [order] is the order in which the loop visits [categories r] *)
Implicit Types order : list (string * ToolCategory X S).

Definition Categories order : list string := sort_Strings (map fst order).

Definition cat_le cat1 cat2 : Prop := String.le (cat_Name cat1) (cat_Name cat2).
#[local] Instance cat_le_dec cat1 cat2 : Decision (cat_le cat1 cat2).
Proof. unfold cat_le. apply _. Defined.

(** [sort.Slice(cats, by name)]; names are distinct. *)
Definition sort_cats order : list (ToolCategory X S) := merge_sort cat_le (map snd order).

Definition CategoriesWithTools order : list (ToolCategory X S) := sort_cats order.

Definition category_line cat (count : Z) : string :=
  let desc := if decide (cat_Description cat = "") then cat_Name cat +:+ " diagnostics"
              else cat_Description cat in
  pad_right 12 (cat_Name cat) +:+ " (" +:+ itoa count +:+ " tools) - " +:+ desc +:+ newline.

Definition ListCategories r order : string :=
  concat_map (fun name =>
      match categories r !! name with
      | Some cat => category_line cat (zlen (cat_Tools cat))
      | None => ""
      end) (Categories order).

Definition ListCategoriesForOS r order (goos : string) : string :=
  concat_map (fun name =>
      match categories r !! name with
      | Some cat =>
        let count := zlen (tools_for_os cat goos) in
        if count =? 0 then "" else category_line cat count
      | None => ""
      end)
    (Categories (filter (fun kc => categorySupportsOS kc.2 goos = true) order)).

Definition tool_details tool : string :=
  tool_Name tool +:+ " - " +:+ tool_Description tool +:+ newline +:+
  concat_map (fun p =>
      "  " +:+ param_Name p +:+ " (" +:+ param_Type p +:+ "): " +:+ param_Description p
      +:+ (if param_Required p then " (required)" else "") +:+ newline) (Parameters tool).

Definition ListTools r (category : string) : string :=
  match categories r !! category with
  | None => "unknown category: " +:+ Quote is_print category
  | Some cat => concat_map tool_details (cat_Tools cat)
  end.

Definition no_tools_for_os (category goos : string) : string :=
  "no tools in category " +:+ Quote is_print category +:+ " support os=" +:+ Quote is_print goos.

Definition ListToolsForOS r (category goos : string) : string :=
  match categories r !! category with
  | None => "unknown category: " +:+ Quote is_print category
  | Some cat =>
    if negb (categorySupportsOS cat goos) then no_tools_for_os category goos
    else
      match tools_for_os cat goos with
      | [] => no_tools_for_os category goos
      | tools => concat_map tool_details tools
      end
  end.

Definition catalog_desc cat : string :=
  if decide (cat_Description cat = "") then cat_Name cat else cat_Description cat.

Definition tool_line tool : string :=
  let params := formatParamsCompact (Parameters tool) in
  if decide (params = "")
  then "  " +:+ tool_Name tool +:+ "() - " +:+ tool_Description tool +:+ newline
  else "  " +:+ tool_Name tool +:+ "(" +:+ params +:+ ") - " +:+ tool_Description tool +:+ newline.

Definition full_category cat (tools : list (DiagnoseTool X S)) : string :=
  "[" +:+ cat_Name cat +:+ "] " +:+ catalog_desc cat +:+ newline +:+ concat_map tool_line tools.

(** An MCP category is only summarised. *)
Definition smart_category cat (tools : list (DiagnoseTool X S)) : string :=
  if HasPrefix (cat_Name cat) "mcp:" then
    "[" +:+ cat_Name cat +:+ "] (" +:+ itoa (zlen tools) +:+ " tools) " +:+ catalog_desc cat
    +:+ " — 使用前先 list_tools(category=" +:+ dquote +:+ cat_Name cat +:+ dquote +:+ ")" +:+ newline
  else full_category cat tools.

Definition ListAllTools order : string :=
  concat_map (fun cat => full_category cat (cat_Tools cat)) (sort_cats order).

Definition ListToolCatalogSmart order : string :=
  concat_map (fun cat => smart_category cat (cat_Tools cat)) (sort_cats order).

Definition ListToolCatalogSmartForOS order (goos : string) : string :=
  concat_map (fun cat =>
      if negb (categorySupportsOS cat goos) then ""
      else
        match tools_for_os cat goos with [] => "" | tools => smart_category cat tools end)
    (sort_cats order).

(** ** The invariant: a category knows its name, a tool name is used once, and
    the index holds exactly the tools of the categories *)
Record registry_wf r : Prop := {
  wf_cat_name c cat : categories r !! c = Some cat -> cat_Name cat = c;
  wf_index k t : toolIndex r !! k = Some t ->
    tool_Name t = k /\ exists c cat, categories r !! c = Some cat /\ t ∈ cat_Tools cat;
  wf_tools c cat t : categories r !! c = Some cat -> t ∈ cat_Tools cat ->
    toolIndex r !! tool_Name t = Some t;
  wf_one_category c1 cat1 c2 cat2 t1 t2 :
    categories r !! c1 = Some cat1 -> categories r !! c2 = Some cat2 ->
    t1 ∈ cat_Tools cat1 -> t2 ∈ cat_Tools cat2 -> tool_Name t1 = tool_Name t2 -> c1 = c2;
  wf_nodup c cat : categories r !! c = Some cat -> NoDup (map tool_Name (cat_Tools cat));
  wf_baseline : NoDup (baselinePlugins r)
}.

(** One registration. *)
Inductive registry_step r : ToolRegistry -> Prop :=
| step_Register category tool : registry_step r (Register category tool r)
| step_RegisterCategory name plugin description scope :
    registry_step r (RegisterCategory name plugin description scope r)
| step_RegisterAccessorFactory plugin factory :
    registry_step r (RegisterAccessorFactory plugin factory r)
| step_RegisterPreCollector plugin fn : registry_step r (RegisterPreCollector plugin fn r)
| step_SetDiagnoseHints plugin hints : registry_step r (SetDiagnoseHints plugin hints r)
| step_RegisterBaselinePlugin plugin : registry_step r (RegisterBaselinePlugin plugin r).

(** The order in which a loop over [categories r] may run. *)
Definition visits r order : Prop := order ≡ₚ map_to_list (categories r).

Lemma NewToolRegistry_wf : registry_wf NewToolRegistry.
Proof. split; cbn; intros; simplify_map_eq; constructor. Qed.

(** The tools of a category after a registration: its own, and the new one at the end. *)
Lemma Register_tools category tool r c cat t :
  toolIndex r !! tool_Name tool = None ->
  categories (Register category tool r) !! c = Some cat -> t ∈ cat_Tools cat ->
  (t = tool /\ c = category) \/ (exists cat', categories r !! c = Some cat' /\ t ∈ cat_Tools cat').
Proof.
  intros Hnew. unfold Register. rewrite Hnew. cbn.
  intros [[<- <-]|[Hne Hc]]%lookup_insert_Some Ht; [|eauto].
  cbn in Ht. apply elem_of_app in Ht as [Ht|Ht%list_elem_of_singleton]; [|by left].
  destruct (categories r !! category) as [cat0|] eqn:E; cbn in Ht; [eauto|set_solver].
Qed.

Lemma Register_wf category tool r : registry_wf r -> registry_wf (Register category tool r).
Proof.
  intros Hwf. pose proof (Register_tools category tool r) as Htools. revert Htools.
  unfold Register. destruct (toolIndex r !! tool_Name tool) eqn:Hnew; [done|]. cbn.
  intros Htools. split; cbn.
  - intros c cat [[<- <-]|[_ Hc]]%lookup_insert_Some; [|by apply (wf_cat_name r Hwf)].
    destruct (categories r !! category) eqn:E; cbn; [by apply (wf_cat_name r Hwf)|done].
  - intros k t [[<- <-]|[Hne Ht]]%lookup_insert_Some.
    + split; [done|]. eexists category, _. rewrite lookup_insert_eq. split; [done|].
      cbn. set_solver.
    + destruct (wf_index r Hwf _ _ Ht) as [Hk (c & cat & Hc & Hin)]. split; [done|].
      destruct (decide (c = category)) as [->|Hcc].
      * eexists category, _. rewrite lookup_insert_eq. split; [done|]. rewrite Hc. cbn. set_solver.
      * exists c, cat. by rewrite lookup_insert_ne by done.
  - intros c cat t Hc Ht. destruct (Htools c cat t eq_refl Hc Ht) as [[-> _]|(cat' & Hc' & Ht')];
      [apply lookup_insert_eq|].
    pose proof (wf_tools r Hwf _ _ _ Hc' Ht'). rewrite lookup_insert_ne; [done|congruence].
  - intros c1 cat1 c2 cat2 t1 t2 Hc1 Hc2 Ht1 Ht2 Hn.
    destruct (Htools c1 cat1 t1 eq_refl Hc1 Ht1) as [[-> ->]|(cat1' & Hc1' & Ht1')],
      (Htools c2 cat2 t2 eq_refl Hc2 Ht2) as [[-> ->]|(cat2' & Hc2' & Ht2')]; [done|..].
    + pose proof (wf_tools r Hwf _ _ _ Hc2' Ht2'). congruence.
    + pose proof (wf_tools r Hwf _ _ _ Hc1' Ht1'). congruence.
    + by apply (wf_one_category r Hwf c1 cat1' c2 cat2' t1 t2).
  - intros c cat [[<- <-]|[_ Hc]]%lookup_insert_Some; [|by eapply (wf_nodup r Hwf)].
    cbn. rewrite map_app. apply NoDup_app. split_and!; [| |apply NoDup_singleton].
    + destruct (categories r !! category) eqn:E; cbn; [by eapply (wf_nodup r Hwf)|constructor].
    + intros n Hn ->%list_elem_of_singleton. destruct (categories r !! category) eqn:E; cbn in Hn;
        [|set_solver].
      apply list_elem_of_fmap in Hn as (t' & Hn & Ht).
      pose proof (wf_tools r Hwf _ _ _ E Ht). congruence.
  - apply (wf_baseline r Hwf).
Qed.

Lemma RegisterCategory_wf name plugin description scope r :
  registry_wf r -> registry_wf (RegisterCategory name plugin description scope r).
Proof.
  intros Hwf. unfold RegisterCategory, with_categories.
  set (cat0 := mkToolCategory _ _ _ _ _).
  assert (forall c cat t, <[name := cat0]> (categories r) !! c = Some cat -> t ∈ cat_Tools cat ->
    exists cat', categories r !! c = Some cat' /\ t ∈ cat_Tools cat') as Hin.
  { intros c cat t [[<- <-]|[_ Hc]]%lookup_insert_Some Ht; [|eauto]. unfold cat0 in Ht.
    destruct (categories r !! name) eqn:E; cbn in Ht; [eauto|set_solver]. }
  split; cbn.
  - intros c cat [[<- <-]|[_ Hc]]%lookup_insert_Some; [|by apply (wf_cat_name r Hwf)].
    unfold cat0. destruct (categories r !! name) eqn:E; cbn; [by apply (wf_cat_name r Hwf)|done].
  - intros k t Ht. destruct (wf_index r Hwf _ _ Ht) as [Hk (c & cat & Hc & Htc)]. split; [done|].
    destruct (decide (c = name)) as [->|Hne].
    + exists name, cat0. rewrite lookup_insert_eq. split; [done|]. unfold cat0. by rewrite Hc.
    + exists c, cat. by rewrite lookup_insert_ne.
  - intros c cat t Hc Ht. destruct (Hin c cat t Hc Ht) as (cat' & Hc' & Ht').
    by eapply (wf_tools r Hwf).
  - intros c1 cat1 c2 cat2 t1 t2 Hc1 Hc2 Ht1 Ht2.
    destruct (Hin _ _ _ Hc1 Ht1) as (? & ? & ?), (Hin _ _ _ Hc2 Ht2) as (? & ? & ?).
    by eapply (wf_one_category r Hwf).
  - intros c cat [[<- <-]|[_ Hc]]%lookup_insert_Some; [|by eapply (wf_nodup r Hwf)].
    unfold cat0. destruct (categories r !! name) eqn:E; cbn;
      [by eapply (wf_nodup r Hwf)|constructor].
  - apply (wf_baseline r Hwf).
Qed.

Lemma registry_step_wf r r' : registry_step r r' -> registry_wf r -> registry_wf r'.
Proof.
  intros [category tool|name plugin description scope| | | |plugin] Hwf;
    [by apply Register_wf|by apply RegisterCategory_wf|by split; apply Hwf..|].
  unfold RegisterBaselinePlugin. case_bool_decide as Hin; [done|].
  split; try apply Hwf. cbn. apply NoDup_app.
  split_and!; [apply Hwf| |apply NoDup_singleton].
  by intros p Hp ->%list_elem_of_singleton.
Qed.

(** ** Listings do not depend on the order of the map *)

Lemma visits_lookup r order c cat : visits r order -> (c, cat) ∈ order <-> categories r !! c = Some cat.
Proof. unfold visits. intros ->. apply elem_of_map_to_list. Qed.

#[local] Instance cat_le_trans : Transitive cat_le.
Proof. intros c1 c2 c3. unfold cat_le. apply transitivity. Qed.
#[local] Instance cat_le_total : Total cat_le.
Proof. intros c1 c2. apply (total String.le). Qed.

Lemma sort_cats_names r order :
  registry_wf r -> visits r order -> map cat_Name (sort_cats order) = sort_Strings (map fst order).
Proof.
  intros Hwf Hv. apply (Sorted_unique String.le).
  - assert (Sorted cat_le (sort_cats order)) as Hs by apply Sorted_merge_sort, _.
    induction Hs as [|cat cats Hs IH Hhd]; cbn; constructor; [done|].
    destruct Hhd; cbn; by constructor.
  - apply sort_Strings_sorted.
  - rewrite sort_Strings_perm. unfold sort_cats. rewrite merge_sort_Permutation.
    rewrite map_map. assert (map (fun x => cat_Name x.2) order = map fst order) as ->; [|done].
    apply map_ext_in. intros [c cat] Hin%list_elem_of_In.
    apply (visits_lookup r order c cat Hv) in Hin. by apply (wf_cat_name r Hwf).
Qed.

(** The sorted categories are the categories of the sorted names. *)
Lemma sort_cats_lookup r order :
  registry_wf r -> visits r order ->
  sort_cats order = omap (fun c => categories r !! c) (sort_Strings (map fst order)).
Proof.
  intros Hwf Hv. rewrite <-(sort_cats_names r order) by done.
  assert (forall cat, cat ∈ sort_cats order -> categories r !! cat_Name cat = Some cat) as Hl.
  { intros cat Hin. unfold sort_cats in Hin. rewrite merge_sort_Permutation in Hin.
    apply list_elem_of_fmap in Hin as ([c cat'] & -> & Hin).
    apply (visits_lookup r order c cat' Hv) in Hin. cbn. by rewrite (wf_cat_name r Hwf _ _ Hin). }
  induction (sort_cats order) as [|cat cats IH]; [done|]. cbn [map].
  cbn [omap list_omap]. rewrite Hl by set_solver. f_equal. apply IH. set_solver.
Qed.

Lemma sort_cats_unique r order1 order2 :
  registry_wf r -> visits r order1 -> visits r order2 -> sort_cats order1 = sort_cats order2.
Proof.
  intros Hwf H1 H2. rewrite !(sort_cats_lookup r) by done. f_equal.
  apply sort_Strings_unique. unfold visits in *. by rewrite H1, H2.
Qed.

Lemma Categories_unique order1 order2 : order1 ≡ₚ order2 -> Categories order1 = Categories order2.
Proof. intros H. apply sort_Strings_unique. by rewrite H. Qed.

(** ** Which tools run on a system *)

Lemma ToolSupportedOn_spec r order name goos :
  registry_wf r -> visits r order ->
  ToolSupportedOn r order name goos = true <->
  exists c cat t, categories r !! c = Some cat /\ t ∈ cat_Tools cat /\ tool_Name t = name /\
    SupportsOS t goos = true /\ categorySupportsOS cat goos = true.
Proof.
  intros Hwf Hv. unfold ToolSupportedOn. destruct (toolIndex r !! name) as [tool|] eqn:Hi; cycle 1.
  { split; [done|]. intros (c & cat & t & Hc & Ht & Hn & _).
    pose proof (wf_tools r Hwf _ _ _ Hc Ht). congruence. }
  destruct (wf_index r Hwf _ _ Hi) as [Hn (c & cat & Hc & Ht)].
  assert (forall c' cat' t', categories r !! c' = Some cat' -> t' ∈ cat_Tools cat' ->
    tool_Name t' = name -> cat' = cat /\ t' = tool) as Huniq.
  { intros c' cat' t' Hc' Ht' Hn'.
    assert (c' = c) as -> by (eapply (wf_one_category r Hwf); [done..|congruence]).
    pose proof (wf_tools r Hwf _ _ _ Hc' Ht'). split; congruence. }
  destruct (list_find _ order) as [[i [c' cat']]|] eqn:Hf; cycle 1.
  { apply list_find_None in Hf. rewrite Forall_forall in Hf.
    destruct (Hf (c, cat)); [by apply visits_lookup with r|]. apply Exists_exists. eauto. }
  apply list_find_Some in Hf as (Hl & Hex & _). cbn in Hex.
  apply Exists_exists in Hex as (t' & Ht' & Hn').
  apply list_elem_of_lookup_2, (visits_lookup r order _ _ Hv) in Hl.
  destruct (Huniq _ _ _ Hl Ht' Hn') as [-> ->]. cbn.
  destruct (SupportsOS tool goos) eqn:Hs; cbn; split; try done.
  - intros ?. exists c', cat, tool. done.
  - intros (c2 & cat2 & t2 & Hc2 & Ht2 & Hn2 & _ & Hos).
    by destruct (Huniq _ _ _ Hc2 Ht2 Hn2) as [<- _].
  - intros (c2 & cat2 & t2 & Hc2 & Ht2 & Hn2 & Hos & _).
    destruct (Huniq _ _ _ Hc2 Ht2 Hn2) as [_ ->]. congruence.
Qed.

Lemma elem_of_ByPluginForOS r plugin goos t :
  t ∈ ByPluginForOS r plugin goos <->
  exists cat, categories r !! plugin = Some cat /\ t ∈ cat_Tools cat /\
    SupportsOS t goos = true /\ categorySupportsOS cat goos = true.
Proof.
  unfold ByPluginForOS, tools_for_os. destruct (categories r !! plugin) as [cat|]; [|set_solver].
  destruct (categorySupportsOS cat goos) eqn:E.
  - rewrite list_elem_of_filter. split; [intros [? ?]; by exists cat|].
    by intros (? & [= <-] & ? & ? & ?).
  - split; [by intros ?%elem_of_nil|]. intros (? & [= <-] & ? & ? & ?). congruence.
Qed.

(** ** Properties *)

(** Registrations, in any number and order, keep the registry well formed: the
    flat index and the categories hold the same tools, and a tool name belongs
    to one category and to one tool. *)
Theorem registrations_keep_registry_wf r (Hr : rtc registry_step NewToolRegistry r) : registry_wf r.
Proof.
  revert r Hr. apply rtc_ind_r; [apply NewToolRegistry_wf|].
  intros r1 r2 _ Hstep Hwf. by eapply registry_step_wf.
Qed.

(** A registered tool name keeps the tool that came first, which every
    lookup by name then returns. *)
Theorem Register_first_wins r category tool name :
  Get (Register category tool r) name =
    match Get r name with
    | Some t => Some t
    | None => if decide (name = tool_Name tool) then Some tool else None
    end.
Proof.
  unfold Get, Register. destruct (toolIndex r !! tool_Name tool) eqn:E; cbn.
  - destruct (toolIndex r !! name) eqn:E'; [done|]. case_decide; congruence.
  - destruct (decide (name = tool_Name tool)) as [->|Hne].
    + by rewrite lookup_insert_eq, E.
    + rewrite lookup_insert_ne by done. by case_match.
Qed.

(** What the AI is told does not depend on the order in which Go visits the
    category map: every listing and the check of a tool's system give the same
    result for any two orders. *)
Theorem listings_ignore_map_order r order1 order2 goos name
    (Hwf : registry_wf r) (H1 : visits r order1) (H2 : visits r order2) :
  ListCategories r order1 = ListCategories r order2 /\
  ListCategoriesForOS r order1 goos = ListCategoriesForOS r order2 goos /\
  CategoriesWithTools order1 = CategoriesWithTools order2 /\
  ListAllTools order1 = ListAllTools order2 /\
  ListToolCatalogSmart order1 = ListToolCatalogSmart order2 /\
  ListToolCatalogSmartForOS order1 goos = ListToolCatalogSmartForOS order2 goos /\
  ToolSupportedOn r order1 name goos = ToolSupportedOn r order2 name goos.
Proof.
  pose proof (sort_cats_unique r order1 order2 Hwf H1 H2) as Hs.
  assert (order1 ≡ₚ order2) as Hp by (unfold visits in *; by rewrite H1, H2).
  unfold ListCategories, ListCategoriesForOS, CategoriesWithTools, ListAllTools,
    ListToolCatalogSmart, ListToolCatalogSmartForOS.
  rewrite Hs, (Categories_unique _ _ Hp).
  split_and!; try done.
  { by erewrite Categories_unique; [|by rewrite Hp]. } apply eq_true_iff_eq. by rewrite !ToolSupportedOn_spec.
Qed.

(** The check at execution agrees with what is offered: a tool name passes
    [ToolSupportedOn] exactly when some category offers it on that system, and
    the lookup by name then returns the offered tool. *)
Theorem offered_tools_are_executable r order name goos
    (Hwf : registry_wf r) (Hv : visits r order) :
  (ToolSupportedOn r order name goos = true <->
   exists plugin t, t ∈ ByPluginForOS r plugin goos /\ tool_Name t = name) /\
  (forall plugin t, t ∈ ByPluginForOS r plugin goos -> Get r (tool_Name t) = Some t).
Proof.
  split.
  - rewrite ToolSupportedOn_spec by done. setoid_rewrite elem_of_ByPluginForOS. split.
    + intros (c & cat & t & ? & ? & ? & ? & ?). by exists c, t; eauto 6.
    + intros (c & t & (cat & ? & ? & ? & ?) & ?). by exists c, cat, t.
  - intros plugin t (cat & Hc & Ht & _)%elem_of_ByPluginForOS. by eapply (wf_tools r Hwf).
Qed.
End registry.
Arguments ToolRegistry X S A I : clear implicits.

(** ** Witnesses: two tools in two categories, one of them for Linux only *)

Definition ex_tool (name : string) : DiagnoseTool nat unit :=
  mkDiagnoseTool name "An example." [] ToolScopeLocal [] (Some (fun x _ => (Good "ok", S x))) None.
Definition ex_registry : ToolRegistry nat unit unit unit :=
  Register "disk" (ex_tool "disk_usage")
    (RegisterCategory "cpu" "cpu" "CPU tools. Linux only." ToolScopeLocal
      (Register "cpu" (ex_tool "cpu_load") NewToolRegistry)).

Lemma ex_registry_steps : rtc registry_step NewToolRegistry ex_registry.
Proof.
  do 3 (eapply rtc_r; [|constructor]). apply rtc_refl.
Qed.

Lemma ex_registry_wf : registry_wf ex_registry.
Proof. eapply rtc_ind_r; [apply NewToolRegistry_wf| |exact ex_registry_steps].
  intros r1 r2 _ Hstep Hwf. by eapply registry_step_wf.
Qed.

Lemma registrations_keep_registry_wf_witness : registry_wf ex_registry.
Proof. apply registrations_keep_registry_wf. exact ex_registry_steps. Defined.

Definition ex_visit : list (string * ToolCategory nat unit) := map_to_list (categories ex_registry).

Lemma listings_ignore_map_order_witness :
  reverse ex_visit <> ex_visit /\
  ListAllTools (reverse ex_visit) = ListAllTools ex_visit.
Proof.
  split.
  - intros H%(f_equal (map fst)). vm_compute in H. discriminate.
  - apply (listings_ignore_map_order ex_registry (reverse ex_visit) ex_visit "linux" "disk_usage");
      [exact ex_registry_wf|apply reverse_Permutation|exact (Permutation_refl _)].
Defined.

(** On Windows the Linux tool is neither offered nor executed. *)
Lemma offered_tools_are_executable_witness :
  ToolSupportedOn ex_registry ex_visit "cpu_load" "linux" = true /\
  ~ (exists plugin t, t ∈ ByPluginForOS ex_registry plugin "windows" /\ tool_Name t = "cpu_load").
Proof.
  split; [vm_compute; reflexivity|]. intros H.
  apply (offered_tools_are_executable ex_registry ex_visit "cpu_load" "windows" ex_registry_wf)
    in H; [|exact (Permutation_refl _)]. vm_compute in H. discriminate.
Defined.
