(* ===== verification/Mcp.v ===== *)
(** * MCP servers (digcore/mcp/types.go, client.go, manager.go, test.go)

    A client speaks JSON-RPC with a child process, one line per message.  A
    call that is cancelled leaves its reader goroutine behind: such a reader
    goes on taking lines.  The world [W] is the processes; the state of the
    clients sits next to it, because the registered tools share it. *)
From S2P Require Import Prelude GoStr GoConv GoFmt GoJson JsonDec Types Config Backends ConfigLoad DiagTypes Registry.
#[local] Open Scope Z_scope.
#[local] Open Scope go_scope.

(** ** types.go *)
Record jsonrpcRequest := mkRpcRequest { rq_ID : Z; Method : string; rq_Params : option jval }.
Record jsonrpcError := mkRpcError { err_Code : Z; err_Message : string }.
Record jsonrpcResponse := mkRpcResponse { rs_JSONRPC : string; rs_ID : Z; rs_Result : option jval; rs_Error : option jsonrpcError }.

(** A request as [Marshal] writes it: no id on a notification. *)
Definition request_value (r : jsonrpcRequest) : jval :=
  VObj ([("jsonrpc", VStr "2.0")] ++ (if rq_ID r =? 0 then [] else [("id", VNum (itoa (rq_ID r)))])
        ++ [("method", VStr (Method r))] ++ (match rq_Params r with Some v => [("params", v)] | None => [] end)).

Definition dec_error : jval -> dec jsonrpcError -> dec jsonrpcError := dec_struct (fun k v d =>
  if same_name k "code" then let '(n, ok) := dec_int v (err_Code d.1, d.2) in (mkRpcError n (err_Message d.1), ok)
  else if same_name k "message" then let '(s, ok) := dec_string v (err_Message d.1, d.2) in (mkRpcError (err_Code d.1) s, ok)
  else d).
Definition dec_response : jval -> dec jsonrpcResponse -> dec jsonrpcResponse := dec_struct (fun k v '(r, ok) =>
  if same_name k "jsonrpc" then let '(s, ok) := dec_string v (rs_JSONRPC r, ok) in (mkRpcResponse s (rs_ID r) (rs_Result r) (rs_Error r), ok)
  else if same_name k "id" then let '(n, ok) := dec_int v (rs_ID r, ok) in (mkRpcResponse (rs_JSONRPC r) n (rs_Result r) (rs_Error r), ok)
  else if same_name k "result" then let '(x, ok) := dec_raw v (rs_Result r, ok) in (mkRpcResponse (rs_JSONRPC r) (rs_ID r) x (rs_Error r), ok)
  else if same_name k "error" then
    match v with
    | VNull => (mkRpcResponse (rs_JSONRPC r) (rs_ID r) (rs_Result r) None, ok)
    | _ => let '(e, ok) := dec_error v (default (mkRpcError 0 "") (rs_Error r), ok) in
           (mkRpcResponse (rs_JSONRPC r) (rs_ID r) (rs_Result r) (Some e), ok)
    end
  else (r, ok)).
Definition zero_response : jsonrpcResponse := mkRpcResponse "" 0 None None.

Definition protocolVersion : string := "2024-11-05".
Record implementationID := mkImplementationID { impl_Name : string; impl_Version : string }.
Definition impl_value (i : implementationID) : jval :=
  VObj ([("name", VStr (impl_Name i))] ++ (if decide (impl_Version i = "") then [] else [("version", VStr (impl_Version i))])).
Definition initialize_params : jval :=
  VObj [("protocolVersion", VStr protocolVersion); ("capabilities", VObj []); ("clientInfo", impl_value (mkImplementationID "catpaw" "1.0"))].

Record initializeResult := mkInitializeResult { res_ProtocolVersion : string; ServerInfo : implementationID }.
Definition dec_impl : jval -> dec implementationID -> dec implementationID := dec_struct (fun k v '(i, ok) =>
  if same_name k "name" then let '(s, ok) := dec_string v (impl_Name i, ok) in (mkImplementationID s (impl_Version i), ok)
  else if same_name k "version" then let '(s, ok) := dec_string v (impl_Version i, ok) in (mkImplementationID (impl_Name i) s, ok)
  else (i, ok)).
Definition dec_initialize : jval -> dec initializeResult -> dec initializeResult := dec_struct (fun k v '(r, ok) =>
  if same_name k "protocolVersion" then let '(s, ok) := dec_string v (res_ProtocolVersion r, ok) in (mkInitializeResult s (ServerInfo r), ok)
  else if same_name k "serverInfo" then let '(i, ok) := dec_impl v (ServerInfo r, ok) in (mkInitializeResult (res_ProtocolVersion r) i, ok)
  else (r, ok)).

Record Tool := mkMcpTool { mt_Name : string; mt_Description : string; mt_InputSchema : option jval }.
Definition dec_tool : jval -> dec Tool -> dec Tool := dec_struct (fun k v '(t, ok) =>
  if same_name k "name" then let '(s, ok) := dec_string v (mt_Name t, ok) in (mkMcpTool s (mt_Description t) (mt_InputSchema t), ok)
  else if same_name k "description" then let '(s, ok) := dec_string v (mt_Description t, ok) in (mkMcpTool (mt_Name t) s (mt_InputSchema t), ok)
  else if same_name k "inputSchema" then let '(x, ok) := dec_raw v (mt_InputSchema t, ok) in (mkMcpTool (mt_Name t) (mt_Description t) x, ok)
  else (t, ok)).
Definition dec_tools : jval -> dec (list Tool) -> dec (list Tool) := dec_struct (fun k v d =>
  if same_name k "tools" then dec_slice (mkMcpTool "" "" None) dec_tool v d else d).

Definition call_params (name : string) (arguments : gomap string) : jval :=
  VObj ([("name", VStr name)]
        ++ (if gomap_len arguments =? 0 then [] else [("arguments", gomap_value arguments)])).

Record ToolContent := mkToolContent { tc_Type : string; tc_Text : string }.
Record toolCallResult := mkToolCallResult { tr_Content : list ToolContent; IsError : bool }.
Definition dec_content : jval -> dec ToolContent -> dec ToolContent := dec_struct (fun k v '(c, ok) =>
  if same_name k "type" then let '(s, ok) := dec_string v (tc_Type c, ok) in (mkToolContent s (tc_Text c), ok)
  else if same_name k "text" then let '(s, ok) := dec_string v (tc_Text c, ok) in (mkToolContent (tc_Type c) s, ok)
  else (c, ok)).
Definition dec_call_result : jval -> dec toolCallResult -> dec toolCallResult := dec_struct (fun k v '(r, ok) =>
  if same_name k "content" then let '(l, ok) := dec_slice (mkToolContent "" "") dec_content v (tr_Content r, ok) in (mkToolCallResult l (IsError r), ok)
  else if same_name k "isError" then let '(b, ok) := dec_bool v (IsError r, ok) in (mkToolCallResult (tr_Content r) b, ok)
  else (r, ok)).

(** The schema of a tool's input: type and description of each property, and
    which are required. *)
Record schema := mkSchema { Properties : gmap string (string * string); RequiredNames : list string }.
Definition dec_property : jval -> dec (string * string) -> dec (string * string) := dec_struct (fun k v '((t, s), ok) =>
  if same_name k "type" then let '(t, ok) := dec_string v (t, ok) in ((t, s), ok)
  else if same_name k "description" then let '(s, ok) := dec_string v (s, ok) in ((t, s), ok)
  else ((t, s), ok)).
Definition dec_schema : jval -> dec schema -> dec schema := dec_struct (fun k v '(sc, ok) =>
  if same_name k "properties" then let '(m, ok) := dec_map ("", "") dec_property v (Properties sc, ok) in (mkSchema m (RequiredNames sc), ok)
  else if same_name k "required" then let '(l, ok) := dec_slice "" dec_string v (RequiredNames sc, ok) in (mkSchema (Properties sc) l, ok)
  else (sc, ok)).

(** [visit] is the order in which the loop meets the properties. *)
Definition ExtractParams (visit : gmap string (string * string) -> list (string * (string * string))) (t : Tool) : list ToolParam :=
  match mt_InputSchema t with
  | None => []
  | Some v =>
    let '(sc, ok) := dec_schema v (mkSchema ∅ [], true) in
    if ok then map (fun '(name, (ty, desc)) => mkToolParam name ty desc (bool_decide (name ∈ RequiredNames sc))) (visit (Properties sc))
    else []
  end.

(** ** client.go: the text of messages *)
Fixpoint trimLine (b : string) : string :=
  match b with
  | "" => ""
  | String c b' =>
    match trimLine b' with
    | "" => if bool_decide (byte_val c ∈ [10; 13]) then "" else String c ""
    | t => String c t
    end
  end.

Definition extractTexts (contents : list ToolContent) : string :=
  Join (map tc_Text (filter (fun c => tc_Type c = "text" /\ tc_Text c <> "") contents)) newline.

Definition truncRaw (b : string) : string :=
  let rs := runes b in if zlen rs <=? 200 then b else of_runes (take 200 rs) +:+ "...".

(** Lines a reader passes over: empty, not an object, without an id. *)
Definition has_id (v : jval) : bool :=
  match v with
  | VObj l => fold_left (fun has '(k, v) => if same_name k "id" then match v with VNull => false | _ => true end else has) l false
  | _ => false
  end.
Definition passed_over (line : string) : bool :=
  match trimLine line with
  | "" => true
  | String c rest =>
    if negb (bool_decide (c = "{"%char)) then true
    else match json_Unmarshal (String c rest) with Some v => negb (has_id v) | None => false end
  end.

(** ** client.go: the client *)
Record Client := mkClient {
  cl_Name : string; proc : nat; nextID : Z; closed : bool;
  (** lines of the pipe not taken yet, and readers of cancelled calls *)
  pipe : list string; orphans : nat
}.

Inductive rpc_error :=
| ClientClosed
| WriteFailed (err : string)
| CallCancelled (err : string)
| ReadFailed (err : string)
| BadResponse (raw : string)
| IDMismatch (got want : Z)
| RemoteError (code : Z) (message : string)
| BadResult (result : jval).

(** What happens on the pipe while a call waits: the lines that arrive, which
    lines with an answer an older reader takes, the context's error when its end
    is noticed first, and the error of reading on after the lines.  A line is
    taken whole by one reader. *)
Record arrival := mkArrival { new_lines : list string; takers : list bool; cancelled : option string; read_error : string }.

Inductive spawn_error := StdinPipe (err : string) | StdoutPipe (err : string) | StartFailed (not_found : bool) (err : string).

Class McpProcess (W : Type) := {
  start_process : string -> list string -> list string -> W -> res spawn_error nat * W;
  write_line : nat -> string -> W -> option string * W;
  arrivals : nat -> W -> arrival * W;
  wait_process : nat -> W -> option string * W;
  stderr_text : nat -> W -> string
}.

(** The readers on the pipe: an answer goes to an older reader when the
    schedule says so and there is one, else to the call. *)
Fixpoint take_answer (orphans : nat) (takers : list bool) (pipe : list string) : option string * nat * list string :=
  match pipe with
  | [] => (None, orphans, [])
  | line :: pipe' =>
    if passed_over line then take_answer orphans takers pipe'
    else
      match orphans, takers with
      | S n, true :: takers' => take_answer n takers' pipe'
      | _, _ => (Some (trimLine line), orphans, pipe')
      end
  end.

(** What an answer says to the call with this id. *)
Definition read_answer {T} (zero : T) (decode : jval -> dec T -> dec T) (expectedID : Z) (line : string) : res rpc_error T :=
  match json_Unmarshal line with
  | None => Bad (BadResponse line)
  | Some v =>
    let '(resp, ok) := dec_response v (zero_response, true) in
    if negb ok then Bad (BadResponse line)
    else if negb (rs_ID resp =? expectedID) then Bad (IDMismatch (rs_ID resp) expectedID)
    else
      match rs_Error resp, rs_Result resp with
      | Some e, _ => Bad (RemoteError (err_Code e) (err_Message e))
      | None, None => Good zero
      | None, Some r => let '(t, ok) := decode r (zero, true) in if ok then Good t else Bad (BadResult r)
      end
  end.

(** The error text of [Unmarshal], [json_error], is not modelled further. *)
Definition rpc_error_text (json_error : string -> string) (e : rpc_error) : string :=
  match e with
  | ClientClosed => "client closed"
  | WriteFailed err | CallCancelled err => err
  | ReadFailed err => "read response: " +:+ err
  | BadResponse raw => "unmarshal response: " +:+ json_error raw +:+ " (raw: " +:+ truncRaw raw +:+ ")"
  | IDMismatch got want => "response id mismatch: got " +:+ itoa got +:+ ", want " +:+ itoa want
  | RemoteError _ message => message
  | BadResult r => json_error (json_Marshal r)
  end.

Section client.
Context {W : Type} `{!McpProcess W}.
Variables (is_print : Z -> bool) (json_error : string -> string) (Environ : list string).
Variable visit_env : gmap string string -> list (string * string).

(** The clients by number, and the processes. *)
Definition mcp_state : Type := list Client * W.
Implicit Types x : mcp_state.

Definition set_client (h : nat) (c : Client) x : mcp_state := (<[h := c]> x.1, x.2).
Definition with_id (n : Z) (c : Client) : Client := mkClient (cl_Name c) (proc c) n (closed c) (pipe c) (orphans c).
Definition with_pipe (p : list string) (n : nat) (c : Client) : Client := mkClient (cl_Name c) (proc c) (nextID c) (closed c) p n.
Definition with_closed (c : Client) : Client := mkClient (cl_Name c) (proc c) (nextID c) true (pipe c) (orphans c).

Definition buildEnv (extra : gomap string) : list string :=
  Environ ++ map (fun '(k, v) => k +:+ "=" +:+ v) (visit_env (default ∅ extra)).

(** The number of the new client. *)
Definition NewClient (name command : string) (args : list string) (env : gomap string) x : res string nat * mcp_state :=
  let '(r, w) := start_process command args (buildEnv env) x.2 in
  match r with
  | Bad (StdinPipe err) => (Bad ("mcp " +:+ name +:+ ": stdin pipe: " +:+ err), (x.1, w))
  | Bad (StdoutPipe err) => (Bad ("mcp " +:+ name +:+ ": stdout pipe: " +:+ err), (x.1, w))
  | Bad (StartFailed not_found err) =>
    (Bad ("mcp " +:+ name +:+ ": start " +:+ Quote is_print command +:+ ": " +:+ err
          +:+ (if not_found then " (hint: use absolute path, e.g. run `which " +:+ command +:+ "`)" else "")), (x.1, w))
  | Good p => (Good (length x.1), (x.1 ++ [mkClient name p 0 false [] 0], w))
  end.

Definition send (p : nat) (req : jsonrpcRequest) (w : W) : option rpc_error * W :=
  let '(err, w) := write_line p (json_Marshal (request_value req) +:+ newline) w in (WriteFailed <$> err, w).

Definition recv {T} (zero : T) (decode : jval -> dec T -> dec T) (h : nat) (c : Client) (expectedID : Z) x : res rpc_error T * mcp_state :=
  let '(a, w) := arrivals (proc c) x.2 in
  let '(line, n, rest) := take_answer (orphans c) (takers a) (pipe c ++ new_lines a) in
  match line, cancelled a with
  | Some line, None => (read_answer zero decode expectedID line, set_client h (with_pipe rest n c) (x.1, w))
  | Some _, Some err => (Bad (CallCancelled err), set_client h (with_pipe rest n c) (x.1, w))
  | None, Some err => (Bad (CallCancelled err), set_client h (with_pipe rest (S n) c) (x.1, w))
  | None, None => (Bad (ReadFailed (read_error a)), set_client h (with_pipe rest O c) (x.1, w))
  end.

Definition call {T} (zero : T) (decode : jval -> dec T -> dec T) (h : nat) (method : string) (params : option jval) x
  : res rpc_error T * mcp_state :=
  match x.1 !! h with
  | None => (Bad ClientClosed, x)
  | Some c =>
    if closed c then (Bad ClientClosed, x)
    else
      let id := i64 (nextID c + 1) in
      let c := with_id id c in
      let '(err, w) := send (proc c) (mkRpcRequest id method params) x.2 in
      match err with
      | Some err => (Bad err, set_client h c (x.1, w))
      | None => recv zero decode h c id (set_client h c (x.1, w))
      end
  end.

Definition notify (h : nat) (method : string) (params : option jval) x : option rpc_error * mcp_state :=
  match x.1 !! h with
  | None => (Some ClientClosed, x)
  | Some c =>
    if closed c then (Some ClientClosed, x)
    else let '(err, w) := send (proc c) (mkRpcRequest 0 method params) x.2 in (err, (x.1, w))
  end.

Definition client_name (h : nat) x : string := match x.1 !! h with Some c => cl_Name c | None => "" end.

Definition Initialize (h : nat) x : option string * mcp_state :=
  let '(r, x) := call (mkInitializeResult "" (mkImplementationID "" "")) dec_initialize h "initialize" (Some initialize_params) x in
  match r with
  | Bad e => (Some ("mcp " +:+ client_name h x +:+ ": initialize: " +:+ rpc_error_text json_error e), x)
  | Good _ => let '(err, x) := notify h "notifications/initialized" None x in (rpc_error_text json_error <$> err, x)
  end.

Definition ListTools (h : nat) x : res string (list Tool) * mcp_state :=
  let '(r, x) := call [] dec_tools h "tools/list" None x in
  (match r with
   | Bad e => Bad ("mcp " +:+ client_name h x +:+ ": tools/list: " +:+ rpc_error_text json_error e)
   | Good tools => Good tools
   end, x).

Definition CallTool (h : nat) (toolName : string) (args : gomap string) x : res string string * mcp_state :=
  let '(r, x) := call (mkToolCallResult [] false) dec_call_result h "tools/call" (Some (call_params toolName args)) x in
  (match r with
   | Bad e => Bad ("mcp " +:+ client_name h x +:+ ": tools/call " +:+ toolName +:+ ": " +:+ rpc_error_text json_error e)
   | Good result =>
     let texts := extractTexts (tr_Content result) in
     if IsError result then
       if decide (texts <> "") then Bad ("mcp tool " +:+ toolName +:+ " error: " +:+ texts)
       else Bad ("mcp tool " +:+ toolName +:+ " returned an error")
     else Good texts
   end, x).

(** Closing twice does nothing the second time. *)
Definition client_Close (h : nat) x : option string * mcp_state :=
  match x.1 !! h with
  | None => (None, x)
  | Some c =>
    if closed c then (None, x)
    else let '(err, w) := wait_process (proc c) x.2 in (err, set_client h (with_closed c) (x.1, w))
  end.
End client.

(** ** manager.go *)
Definition categoryPrefix : string := "mcp:".

Definition convertParams (mcpParams : list ToolParam) : list ToolParam :=
  map (fun p => mkToolParam (param_Name p) (param_Type p) (param_Description p) (param_Required p)) mcpParams.

Section manager.
Context {W S A I : Type} `{!McpProcess W, !HostProbe W}.
Variables (is_print : Z -> bool) (Getenv : string -> string) (json_error : string -> string) (Environ : list string).
Variable visit_env : gmap string string -> list (string * string).
Variable visit_props : gmap string (string * string) -> list (string * (string * string)).
Let X : Type := list Client * W.
Implicit Types (x : X) (r : ToolRegistry X S A I).

Record Manager := mkManager { clients : gmap string nat; configs : gmap string MCPServerConfig; builtins : gmap string string }.
Definition NewManager : Manager := mkManager ∅ ∅ ∅.

(** The registry's form of a tool; its arguments go to the server as they are. *)
Definition convert_tool (srv : MCPServerConfig) (client : nat) (t : Tool) : DiagnoseTool X S :=
  mkDiagnoseTool (mcp_Name srv +:+ "_" +:+ mt_Name t) (mt_Description t) (convertParams (ExtractParams visit_props t))
    ToolScopeLocal [] (Some (fun x args => CallTool json_error client (mt_Name t) args x)) None.

Definition registerTools (srv : MCPServerConfig) (tools : list Tool) (client : nat) (identity : string) r : Z * ToolRegistry X S A I :=
  let catName := categoryPrefix +:+ mcp_Name srv in
  let toRegister := map (convert_tool srv client) (filter (fun t => IsToolAllowed srv (mt_Name t) = true) tools) in
  match toRegister with
  | [] => (0, r)
  | _ =>
    let desc := "External data via MCP server " +:+ Quote is_print (mcp_Name srv)
                +:+ (if decide (identity <> "") then " (this host: " +:+ identity +:+ ")" else "") in
    let r := RegisterCategory catName catName desc ToolScopeLocal r in
    (zlen toRegister, fold_left (fun r dt => Register catName dt r) toRegister r)
  end.

(** The error, or none; a server that fails leaves manager and registry alone. *)
Definition startServer (srv : MCPServerConfig) (defaultIdentity : string) (m : Manager) r x
  : option string * Manager * ToolRegistry X S A I * X :=
  let '(c, x) := NewClient is_print Environ visit_env (mcp_Name srv) (Command srv) (Args srv) (Env srv) x in
  match c with
  | Bad err => (Some err, m, r, x)
  | Good client =>
    let '(err, x) := Initialize json_error client x in
    match err with
    | Some err => let '(_, x) := client_Close client x in (Some ("initialize: " +:+ err), m, r, x)
    | None =>
      let '(tools, x) := ListTools json_error client x in
      match tools with
      | Bad err => let '(_, x) := client_Close client x in (Some ("tools/list: " +:+ err), m, r, x)
      | Good tools =>
        let m := mkManager (<[mcp_Name srv := client]> (clients m)) (<[mcp_Name srv := srv]> (configs m)) (builtins m) in
        let identity := ResolvedIdentity Getenv srv defaultIdentity (builtins m) in
        (None, m, (registerTools srv tools client identity r).2, x)
      end
    end
  end.

Fixpoint start_servers (srvs : list MCPServerConfig) (defaultIdentity : string) (m : Manager) r x : Manager * ToolRegistry X S A I * X :=
  match srvs with
  | [] => (m, r, x)
  | srv :: srvs' =>
    if decide (mcp_Name srv = "" \/ Command srv = "") then start_servers srvs' defaultIdentity m r x
    else let '(_, m, r, x) := startServer srv defaultIdentity m r x in start_servers srvs' defaultIdentity m r x
  end.
Definition StartAll (cfg : MCPConfig) (m : Manager) r x : Manager * ToolRegistry X S A I * X :=
  let '(b, w) := HostBuiltins x.2 in
  start_servers (Servers cfg) (DefaultIdentity cfg) (mkManager (clients m) (configs m) b) r (x.1, w).

(** [order] is the order in which the loop meets the clients. *)
Definition manager_Close (order : list (string * nat)) (m : Manager) x : Manager * X :=
  (mkManager ∅ (configs m) (builtins m), fold_left (fun x '(_, c) => (client_Close c x).2) order x).

Definition ServerNames (m : Manager) : list string := sort_Strings (map_to_list (clients m)).*1.
Definition ServerCount (m : Manager) : Z := Z.of_nat (size (clients m)).
Definition IdentitySummary (defaultIdentity : string) (m : Manager) : string :=
  foldr (fun n t =>
    match configs m !! n with
    | None => t
    | Some cfg =>
      let id := ResolvedIdentity Getenv cfg defaultIdentity (builtins m) in
      (if decide (id <> "") then "- " +:+ n +:+ ": " +:+ id +:+ newline else "") +:+ t
    end) "" (sort_Strings (map_to_list (configs m)).*1).

(** ** test.go *)
Record TestResult := mkTestResult {
  t_Name : string; t_Status : string; t_Identity : string; t_Tools : list string; t_Allowed : list string; t_Message : string; Elapsed : Z
}.

Definition appendStderr (client : nat) (message : string) x : string :=
  let stderr := match x.1 !! client with Some c => TrimSpace (stderr_text (proc c) x.2) | None => "" end in
  if decide (stderr <> "") then message +:+ newline +:+ "stderr:" +:+ newline +:+ stderr else message.

(** The clock of the world, without the clients. *)
Definition clock_now x : Z * X := let '(t, w) := time_Now x.2 in (t, (x.1, w)).

Definition failed (srv : MCPServerConfig) (identity : string) (start : Z) (message : string) x : TestResult * X :=
  let '(t, x) := clock_now x in (mkTestResult (mcp_Name srv) "FAIL" identity [] [] message (t - start), x).
(** The deferred [client.Close()]. *)
Definition then_close (client : nat) (rx : TestResult * X) : TestResult * X := (rx.1, (client_Close client rx.2).2).

Definition testOneServer (srv : MCPServerConfig) (defaultIdentity : string) (b : gmap string string) x : TestResult * X :=
  let '(start, x) := clock_now x in
  let identity := ResolvedIdentity Getenv srv defaultIdentity b in
  if decide (mcp_Name srv = "") then failed srv identity start "server name is empty" x
  else if decide (Command srv = "") then failed srv identity start "command is empty" x
  else
    let '(c, x) := NewClient is_print Environ visit_env (mcp_Name srv) (Command srv) (Args srv) (Env srv) x in
    match c with
    | Bad err => failed srv identity start ("start failed: " +:+ err) x
    | Good client =>
      then_close client
        (let '(err, x) := Initialize json_error client x in
         match err with
         | Some err => failed srv identity start (appendStderr client ("initialize failed: " +:+ err) x) x
         | None =>
           let '(tools, x) := ListTools json_error client x in
           match tools with
           | Bad err => failed srv identity start (appendStderr client ("tools/list failed: " +:+ err) x) x
           | Good tools =>
             let '(t, x) := clock_now x in
             (mkTestResult (mcp_Name srv) "PASS" identity (map mt_Name tools)
                (filter (fun n => IsToolAllowed srv n = true) (map mt_Name tools)) "" (t - start), x)
           end
         end)
    end.

Definition config_failure (message : string) : TestResult := mkTestResult "(config)" "FAIL" "" [] [] message 0.
Fixpoint test_servers (srvs : list MCPServerConfig) (defaultIdentity : string) (b : gmap string string) x : list TestResult * X :=
  match srvs with
  | [] => ([], x)
  | srv :: srvs' =>
    let '(r, x) := testOneServer srv defaultIdentity b x in
    let '(rs, x) := test_servers srvs' defaultIdentity b x in (r :: rs, x)
  end.
Definition RunTest (cfg : MCPConfig) x : list TestResult * X :=
  if negb (mcp_Enabled cfg) then ([config_failure "[ai.mcp] enabled = false or not configured"], x)
  else if decide (Servers cfg = []) then ([config_failure "no servers configured under [[ai.mcp.servers]]"], x)
  else let '(b, w) := HostBuiltins x.2 in test_servers (Servers cfg) (DefaultIdentity cfg) b (x.1, w).
End manager.

(** [Duration.Round(time.Millisecond)] of a duration that is not negative. *)
Definition round_ms (d : Z) : Z :=
  let m := 1000000 in let r := d mod m in if r + r <? m then d - r else d + m - r.
Definition ansi (code text : string) : string := String (byte 27) ("[" +:+ code +:+ "m") +:+ text +:+ String (byte 27) "[0m".

Definition print_result (r : TestResult) : string :=
  let pass := bool_decide (t_Status r = "PASS") in
  newline +:+ ansi (if pass then "32" else "31") ("[" +:+ t_Status r +:+ "]") +:+ " " +:+ t_Name r
  +:+ (if 0 <? Elapsed r then "  (" +:+ Duration_String (round_ms (Elapsed r)) +:+ ")" else "") +:+ newline
  +:+ (if decide (t_Identity r <> "") then "  identity: " +:+ t_Identity r +:+ newline else "")
  +:+ (if pass then
         "  tools: " +:+ itoa (zlen (t_Tools r)) +:+ " discovered"
         +:+ (if zlen (t_Allowed r) <? zlen (t_Tools r) then ", " +:+ itoa (zlen (t_Allowed r)) +:+ " allowed by whitelist" else "") +:+ newline
         +:+ foldr (fun name t => "    ✓ " +:+ name +:+ newline +:+ t) "" (t_Allowed r)
       else "  error: " +:+ t_Message r +:+ newline).

Definition rule : string := Join (replicate 60 "─") "".
Definition PrintTestResults (results : list TestResult) : string :=
  let passCount := zlen (filter (fun r => t_Status r = "PASS") results) in
  let failCount := zlen results - passCount in
  "MCP Server Test Results" +:+ newline +:+ rule +:+ newline
  +:+ foldr (fun r t => print_result r +:+ t) "" results
  +:+ newline +:+ rule +:+ newline +:+ "Total: " +:+ itoa (zlen results) +:+ " server(s), "
  +:+ (if failCount =? 0 then ansi "32" (itoa passCount +:+ " passed") +:+ newline
       else ansi "32" (itoa passCount +:+ " passed") +:+ ", " +:+ ansi "31" (itoa failCount +:+ " failed") +:+ newline).
