(* ===== verification/McpProps.v ===== *)
(** * Properties of the MCP client and manager *)
From S2P Require Import Prelude GoStr GoConv GoFmt GoJson GoJsonProps JsonDec Types Config Backends BackendsProps ConfigLoad DiagTypes Registry Mcp.
#[local] Open Scope Z_scope.
#[local] Open Scope go_scope.

(** ** Processes that follow a script and keep what they are sent *)
Record procs := mkProcs { sent : list (nat * string); to_come : list arrival; write_errors : list (option string); running : list nat }.

Definition silence : arrival := mkArrival [] [] (Some "context deadline exceeded") "EOF".
#[export] Instance procs_process : McpProcess procs := {
  start_process _ _ _ w := (Good (length (running w)), mkProcs (sent w) (to_come w) (write_errors w) (running w ++ [length (running w)]));
  write_line p s w := (default None (head (write_errors w)), mkProcs (sent w ++ [(p, s)]) (to_come w) (tail (write_errors w)) (running w));
  arrivals p w := (default silence (head (to_come w)), mkProcs (sent w) (tail (to_come w)) (write_errors w) (running w));
  wait_process p w := (None, w);
  stderr_text _ _ := ""
}.

(** ** The readers *)

(** A line the reader of a call hands over is one of the lines on the pipe. *)
Lemma take_answer_in orphans takers pipe line n rest :
  take_answer orphans takers pipe = (Some line, n, rest) -> exists raw, raw ∈ pipe /\ line = trimLine raw /\ passed_over raw = false.
Proof.
  revert orphans takers. induction pipe as [|l pipe IH]; intros orphans takers; [done|]. cbn.
  destruct (passed_over l) eqn:Ep.
  - intros (raw & ? & ?)%IH. exists raw. split; [by right|done].
  - assert (forall o t, take_answer o t pipe = (Some line, n, rest) -> exists raw, raw ∈ l :: pipe /\ line = trimLine raw /\ passed_over raw = false) as Hrec.
    { intros o t (raw & ? & ?)%IH. exists raw. split; [by right|done]. }
    assert ((Some (trimLine l), orphans, pipe) = (Some line, n, rest) -> exists raw, raw ∈ l :: pipe /\ line = trimLine raw /\ passed_over raw = false) as Hhere.
    { intros [= <- _ _]. exists l. split; [by left|done]. }
    destruct orphans as [|o]; [done|]. destruct takers as [|[] ts]; [done|apply Hrec|done].
Qed.

(** Without readers of cancelled calls, the call gets the first line that is not
    passed over. *)
Lemma take_answer_first takers noise line rest :
  Forall (fun l => passed_over l = true) noise -> passed_over line = false ->
  take_answer 0 takers (noise ++ line :: rest) = (Some (trimLine line), O, rest).
Proof. intros Hn Hl. induction Hn as [|l noise Hp _ IH]; cbn; [by rewrite Hl|by rewrite Hp]. Qed.

(** Calls on one client, one after the other. *)
Fixpoint run_calls {W} `{!McpProcess W} {T} (zero : T) (decode : jval -> dec T -> dec T) (h : nat) (calls : list (string * option jval))
    (x : list Client * W) : list (res rpc_error T) * (list Client * W) :=
  match calls with
  | [] => ([], x)
  | (method, params) :: calls' =>
    let '(r, x) := call zero decode h method params x in
    let '(rs, x) := run_calls zero decode h calls' x in (r :: rs, x)
  end.

(** Any processes, with a log of the lines each of them printed. *)
#[export] Instance recorded {W} `{!McpProcess W} : McpProcess (W * list (nat * string)) := {
  start_process c args env w := let '(r, w') := start_process c args env w.1 in (r, (w', w.2));
  write_line p s w := let '(e, w') := write_line p s w.1 in (e, (w', w.2));
  arrivals p w := let '(a, w') := arrivals p w.1 in (a, (w', w.2 ++ map (pair p) (new_lines a)));
  wait_process p w := let '(e, w') := wait_process p w.1 in (e, (w', w.2));
  stderr_text p w := stderr_text p w.1
}.

(** What is left on the pipe was on it. *)
Lemma take_answer_left orphans takers pipe line n rest :
  take_answer orphans takers pipe = (line, n, rest) -> rest ⊆ pipe.
Proof.
  revert orphans takers. induction pipe as [|l pipe IH]; intros orphans takers; cbn; [by intros [= _ _ <-]|].
  intros H. assert (rest ⊆ pipe); [|set_solver]. destruct (passed_over l); [by eapply IH|].
  destruct orphans as [|o]; [by injection H as _ _ <-|]. destruct takers as [|[] ts]; [by injection H as _ _ <-|by eapply IH|by injection H as _ _ <-].
Qed.

Section calls.
Context {W : Type} `{!McpProcess W} {T : Type}.
Variables (zero : T) (decode : jval -> dec T -> dec T).
Implicit Types x : list Client * (W * list (nat * string)).

(** A line that answers the call with this id, with this result. *)
Definition answers (id : Z) (line : string) (t : T) : Prop :=
  exists v resp, json_Unmarshal line = Some v /\ dec_response v (zero_response, true) = (resp, true)
    /\ rs_ID resp = id /\ rs_Error resp = None
    /\ match rs_Result resp with None => t = zero | Some r => decode r (zero, true) = (t, true) end.

Lemma read_answer_good id line t : read_answer zero decode id line = Good t -> answers id line t.
Proof.
  unfold read_answer, answers. destruct (json_Unmarshal line) as [v|]; [|done].
  destruct (dec_response v (zero_response, true)) as [resp ok] eqn:Ed. destruct ok; cbn [negb]; [|done].
  destruct (rs_ID resp =? id) eqn:Ei; cbn [negb]; [|done]. zbool. intros H. exists v, resp. split_and!; try done.
  - by destruct (rs_Error resp).
  - destruct (rs_Error resp); [done|]. destruct (rs_Result resp) as [r|]; [|congruence].
    destruct (decode r (zero, true)) as [t' []]; congruence.
Qed.

(** The lines on the pipe of a client were printed by its process. *)
Definition pipe_printed (h : nat) x : Prop :=
  forall c l, x.1 !! h = Some c -> l ∈ pipe c -> (proc c, l) ∈ x.2.2.

(** What a call does to its client and the log: the id is used up, whatever the
    outcome, and lines are added. *)
Definition after_call (h : nat) x x' : Prop :=
  forall c, x.1 !! h = Some c -> closed c = false ->
  (exists c', x'.1 !! h = Some c' /\ nextID c' = i64 (nextID c + 1) /\ closed c' = false /\ proc c' = proc c)
  /\ x.2.2 ⊆ x'.2.2 /\ (pipe_printed h x -> pipe_printed h x').

Lemma after_call_set h x c c' (w : W) (log : list (nat * string)) : x.1 !! h = Some c -> proc c' = proc c -> nextID c' = i64 (nextID c + 1) ->
  closed c' = false -> x.2.2 ⊆ log -> (pipe_printed h x -> forall l, l ∈ pipe c' -> (proc c, l) ∈ log) ->
  after_call h x (set_client h c' (x.1, (w, log))).
Proof.
  intros Hc Hp Hn Ho Hlog Hpipe c0 Hc0 _. rewrite Hc in Hc0. injection Hc0 as <-. unfold set_client, pipe_printed in *; cbn.
  rewrite list_lookup_insert_eq by (by apply lookup_lt_Some in Hc). split_and!; [by exists c'|done|].
  intros Hx c1 l [= <-] Hl. rewrite Hp. by apply Hpipe.
Qed.

Lemma call_outcome h method params x c : x.1 !! h = Some c -> closed c = false -> pipe_printed h x ->
  let '(r, x') := call zero decode h method params x in
  after_call h x x' /\
  (forall t, r = Good t -> exists raw, (proc c, raw) ∈ x'.2.2 /\ answers (i64 (nextID c + 1)) (trimLine raw) t).
Proof.
  intros Hc Hopen Hpipe. unfold call. rewrite Hc, Hopen. pose proof (Hpipe c) as Hprinted. specialize (fun l => Hprinted l Hc).
  unfold send. destruct x as [cs [w log]]. cbn [fst snd write_line recorded] in *.
  destruct (write_line _ _ w) as [[err|] w1]; cbn [fmap option_fmap option_map];
    [split; [by eapply (after_call_set h (cs, (w, log)))|done]|].
  unfold recv. cbn [snd fst set_client arrivals recorded proc with_id pipe Mcp.orphans].
  destruct (arrivals (proc c) w1) as [a w2]. cbn [fst snd]. set (log' := log ++ map (pair (proc c)) (new_lines a)).
  assert (forall l, l ∈ pipe c ++ new_lines a -> (proc c, l) ∈ log') as Hall.
  { intros l [Hl|Hl]%elem_of_app; apply elem_of_app; [left; by apply Hprinted|right]. by apply list_elem_of_fmap_2. }
  destruct (take_answer _ _ _) as [[line n] rest] eqn:Et. pose proof (take_answer_left _ _ _ _ _ _ Et) as Hleft.
  assert (forall k, after_call h (cs, (w, log)) (set_client h (with_pipe rest k (with_id (i64 (nextID c + 1)) c)) (<[h := with_id (i64 (nextID c + 1)) c]> cs, (w2, log')))) as Hafter.
  { intros k. unfold set_client. cbn [fst snd]. rewrite list_insert_insert_eq.
    eapply (after_call_set h (cs, (w, log)) c); try done; [unfold log'; cbn; set_solver|]. cbn. intros _ l Hl. apply Hall. by apply Hleft. }
  destruct line as [line|], (cancelled a) as [err|]; (split; [apply Hafter|]); try done.
  intros t Ht. destruct (take_answer_in _ _ _ _ _ _ Et) as (raw & Hraw & -> & _). exists raw.
  split; [by apply Hall|by apply read_answer_good].
Qed.

Lemma run_calls_ids h p calls : forall x c n, x.1 !! h = Some c -> closed c = false -> nextID c = n -> proc c = p -> pipe_printed h x ->
  0 <= n -> n + zlen calls < 2 ^ 62 ->
  let '(rs, x') := run_calls zero decode h calls x in
  x.2.2 ⊆ x'.2.2 /\
  forall i t, rs !! i = Some (Good t) -> exists raw, (p, raw) ∈ x'.2.2 /\ answers (n + Z.of_nat i + 1) (trimLine raw) t.
Proof.
  induction calls as [|[method params] calls IH]; intros x c n Hc Ho Hn Hp Hpipe Hn0 Hlen; [done|].
  cbn [run_calls]. pose proof (call_outcome h method params x c Hc Ho Hpipe) as Hcall.
  destruct (call zero decode h method params x) as [r x']. destruct Hcall as [Hafter Hr].
  destruct (Hafter c Hc Ho) as ((c' & Hc' & Hn' & Ho' & Hp') & Hsub & Hpipe').
  rewrite zlen_cons in Hlen. pose proof (zlen_nonneg calls).
  assert (i64 (n + 1) = n + 1) as Hid by (apply i64_id, in_i64_small; lia).
  specialize (IH x' c' (n + 1) Hc' Ho' ltac:(congruence) ltac:(congruence) (Hpipe' Hpipe) ltac:(lia) ltac:(lia)).
  destruct (run_calls zero decode h calls x') as [rs x2]. destruct IH as [Hsub2 IH]. split; [by etrans|]. intros [|i] t Hi; cbn in Hi.
  - injection Hi as ->. destruct (Hr t eq_refl) as (raw & Hraw & Hl). exists raw. rewrite Hp in Hraw. split; [by apply Hsub2|].
    rewrite Hn, Hid in Hl. by replace (n + Z.of_nat 0 + 1) with (n + 1) by lia.
  - replace (n + Z.of_nat (S i) + 1) with ((n + 1) + Z.of_nat i + 1) by lia. by apply IH.
Qed.
End calls.

(** C20: Whatever a server prints, and however calls are cancelled: the result of the
    [i]-th call of a client is what a line says that the client's own process
    printed during the run, that carries the call's own id and no error; so an
    answer that comes late is never taken for the answer to a later call. *)
Theorem calls_take_own_answers {W} `{!McpProcess W} {T} (zero : T) decode (h : nat) (name : string) (p : nat) (calls : list (string * option jval)) (cs : list Client) (w : W) :
  cs !! h = Some (mkClient name p 0 false [] 0) -> zlen calls < 2 ^ 62 ->
  let '(results, x) := run_calls zero decode h calls (cs, (w, [])) in
  let printed := x.2.2 in
  forall i t, results !! i = Some (Good t) ->
  exists line v resp, (p, line) ∈ printed /\ json_Unmarshal (trimLine line) = Some v
    /\ dec_response v (zero_response, true) = (resp, true)
    /\ rs_ID resp = Z.of_nat i + 1 /\ rs_Error resp = None
    /\ match rs_Result resp with None => t = zero | Some r => decode r (zero, true) = (t, true) end.
Proof.
  intros Hc Hlen. assert (pipe_printed h (cs, (w, []))) as Hp.
  { intros c l Hl Hin. cbn [fst] in Hl. rewrite Hc in Hl. injection Hl as <-. by apply elem_of_nil in Hin. }
  pose proof (run_calls_ids zero decode h p calls (cs, (w, [])) _ 0 Hc eq_refl eq_refl eq_refl Hp ltac:(lia) ltac:(lia)) as H.
  destruct (run_calls _ _ _ _ _) as [rs x]. destruct H as [_ H]. intros printed i t Hi.
  destruct (H i t Hi) as (line & Hline & v & resp & Ha). exists line, v, resp. by rewrite Z.add_0_l in Ha.
Qed.

(** ** An exchange with a server that answers *)

(** Comparisons of field names are decided by computation. *)
Ltac names := repeat match goal with
  | |- context [same_name ?a ?b] => let r := eval vm_compute in (same_name a b) in change (same_name a b) with r
  end.

Definition text_content (s : string) : jval := VObj [("type", VStr "text"); ("text", VStr s)].
Definition tool_answer (id : Z) (texts : list string) : jval :=
  VObj [("jsonrpc", VStr "2.0"); ("id", VNum (itoa id)); ("result", VObj [("content", VArr (map text_content texts))])].

Lemma dec_contents texts acc :
  fold_left (fun d v => let '(x, ok) := dec_content v (mkToolContent "" "", true) in (d.1 ++ [x], d.2 && ok)) (map text_content texts) (acc, true)
  = (acc ++ map (mkToolContent "text") texts, true).
Proof.
  revert acc. induction texts as [|s texts IH]; intros acc; cbn [map fold_left]; [by rewrite app_nil_r|].
  unfold text_content at 2, dec_content at 2, dec_struct. cbn [fold_left]. names. cbn.
  rewrite IH. by rewrite <- app_assoc.
Qed.

Lemma read_tool_answer id texts : in_i64 id -> Forall utf8 texts ->
  read_answer (mkToolCallResult [] false) dec_call_result id (json_Marshal (tool_answer id texts))
    = Good (mkToolCallResult (map (mkToolContent "text") texts) false).
Proof.
  intros Hid Ht. unfold read_answer. rewrite Marshal_Unmarshal.
  2:{ apply (json_ok_mono 4); [|by apply Nat.leb_le]. unfold tool_answer.
      repeat (constructor || (split; [utf8_const|]) || utf8_const). apply Forall_map. eapply Forall_impl; [exact Ht|].
      intros s Hs. cbn. repeat (constructor || (split; [utf8_const|]) || utf8_const). done. }
  unfold tool_answer, dec_response, dec_struct. cbn [fold_left]. names. cbn [dec_string dec_int zero_response rs_JSONRPC rs_ID rs_Result rs_Error].
  change (ParseInt (itoa id)) with (Atoi (itoa id)). rewrite Atoi_itoa by done. cbn. rewrite Z.eqb_refl. cbn [negb].
  names. by rewrite dec_contents.
Qed.

Lemma tool_answer_ok id texts : Forall utf8 texts -> json_ok 4 (tool_answer id texts).
Proof.
  intros Ht. unfold tool_answer. repeat (constructor || (split; [utf8_const|]) || utf8_const). apply Forall_map. eapply Forall_impl; [exact Ht|].
  intros s Hs. cbn. repeat (constructor || (split; [utf8_const|]) || utf8_const). done.
Qed.

Lemma trimLine_brace s : trimLine (s +:+ "}") = s +:+ "}".
Proof.
  induction s as [|c s IH]; [done|]. rewrite sapp_cons. cbn [trimLine]. rewrite IH. by destruct s.
Qed.

(** An object that is written in whole is a line of its own. *)
Lemma trimLine_object l : trimLine (json_Marshal (VObj l)) = json_Marshal (VObj l).
Proof. cbn [json_Marshal]. rewrite <- !string_app_assoc. apply trimLine_brace. Qed.

Lemma tool_answer_handed_over id texts : Forall utf8 texts -> passed_over (json_Marshal (tool_answer id texts)) = false.
Proof.
  intros Ht. unfold passed_over. unfold tool_answer at 1. rewrite trimLine_object. fold (tool_answer id texts).
  assert (exists t, json_Marshal (tool_answer id texts) = String "{" t) as [t Et] by (by eexists).
  rewrite Et, bool_decide_eq_true_2 by done. cbn [negb]. rewrite <- Et, Marshal_Unmarshal.
  - unfold tool_answer, has_id. cbn [fold_left]. names. reflexivity.
  - apply (json_ok_mono 4); [by apply tool_answer_ok|by apply Nat.leb_le].
Qed.

Lemma extractTexts_texts texts : extractTexts (map (mkToolContent "text") texts) = Join (filter (fun s => s <> "") texts) newline.
Proof.
  unfold extractTexts. f_equal. induction texts as [|s texts IH]; [done|]. cbn [map].
  destruct (decide (s = "")) as [->|Hs].
  - rewrite !filter_cons_False by (cbn; tauto). apply IH.
  - rewrite !filter_cons_True by done. cbn [map]. by rewrite IH.
Qed.

Lemma call_request_ok id tool args : utf8 tool -> utf8_map (default ∅ args) ->
  json_ok 3 (request_value (mkRpcRequest id "tools/call" (Some (call_params tool args)))).
Proof.
  intros Ht Ha. unfold request_value, call_params. cbn [rq_ID Method rq_Params].
  constructor. apply Forall_app; split; [|apply Forall_app; split; [|apply Forall_app; split]].
  - constructor; [|done]. split; [utf8_const|constructor; utf8_const].
  - destruct (id =? 0); [done|]. constructor; [|done]. split; [utf8_const|constructor].
  - constructor; [|done]. split; [utf8_const|constructor; utf8_const].
  - constructor; [|done]. split; [utf8_const|]. constructor. apply Forall_app; split.
    + constructor; [|done]. split; [utf8_const|by constructor].
    + destruct (gomap_len args =? 0); [done|]. constructor; [|done]. split; [utf8_const|].
      destruct args as [m|]; [by apply map_value_ok|constructor].
Qed.

(** C21: A whole exchange: the request goes out as one line that reads back as the
    request, with the next id; what the server prints before its answer is passed
    over; the texts of the answer are returned and the lines after it stay on the
    pipe. *)
Theorem CallTool_exchange (json_error : string -> string) (name tool eof : string) (p : nat) (n : Z) (args : gomap string)
    (texts noise rest : list string) takers sent0 more run :
  0 <= n < 2 ^ 61 -> utf8 tool -> utf8_map (default ∅ args) -> Forall utf8 texts -> Forall (fun l => passed_over l = true) noise ->
  let request := request_value (mkRpcRequest (n + 1) "tools/call" (Some (call_params tool args))) in
  let arrived := noise ++ json_Marshal (tool_answer (n + 1) texts) :: rest in
  CallTool json_error 0 tool args
    ([mkClient name p n false [] 0], mkProcs sent0 (mkArrival arrived takers None eof :: more) [] run)
  = (Good (Join (filter (fun s => s <> "") texts) newline),
     ([mkClient name p (n + 1) false rest 0], mkProcs (sent0 ++ [(p, json_Marshal request +:+ newline)]) more [] run))
  /\ no_newline (json_Marshal request) /\ json_Unmarshal (json_Marshal request) = Some request.
Proof.
  intros Hn Htool Hargs Htexts Hnoise request arrived.
  pose proof (call_request_ok (n + 1) tool args Htool Hargs) as Hok.
  split; [|split; [by eapply Marshal_no_newline|apply Marshal_Unmarshal, (json_ok_mono 3); [done|by apply Nat.leb_le]]].
  unfold CallTool, call. cbn -[send recv]. unfold with_id; cbn -[send recv].
  assert (i64 (n + 1) = n + 1) as -> by (apply i64_id, in_i64_small; lia).
  unfold send; cbn -[recv json_Marshal request_value]. fold request. unfold recv. cbn -[json_Marshal request_value].
  unfold arrived. rewrite take_answer_first by (done || by apply tool_answer_handed_over).
  unfold tool_answer at 1. rewrite trimLine_object. fold (tool_answer (n + 1) texts).
  rewrite read_tool_answer by (done || apply in_i64_small; lia).
  cbn -[json_Marshal request_value extractTexts]. by rewrite extractTexts_texts.
Qed.

Lemma CallTool_exchange_witness :
  let request := request_value (mkRpcRequest (0 + 1) "tools/call" (Some (call_params "query" (Some {["q" := "up"]})))) in
  let arrived := ["starting..."] ++ json_Marshal (tool_answer (0 + 1) ["1"; ""; "2"]) :: [] in
  CallTool id 0 "query" (Some {["q" := "up"]})
    ([mkClient "prom" 7 0 false [] 0], mkProcs [] (mkArrival arrived [] None "EOF" :: []) [] [])
  = (Good (Join (filter (fun s => s <> "") ["1"; ""; "2"]) newline),
     ([mkClient "prom" 7 (0 + 1) false [] 0], mkProcs ([] ++ [(7%nat, json_Marshal request +:+ newline)]) [] [] []))
  /\ no_newline (json_Marshal request) /\ json_Unmarshal (json_Marshal request) = Some request.
Proof.
  apply (CallTool_exchange id "prom" "query" "EOF" 7 0 (Some {["q" := "up"]}) ["1"; ""; "2"] ["starting..."] [] [] [] [] []).
  - split; [reflexivity|reflexivity].
  - utf8_const.
  - apply map_Forall_singleton. split; utf8_const.
  - repeat constructor; utf8_const.
  - repeat constructor.
Defined.

(** ** Cancelled calls *)

(** A server that answers every request in order, the first one too late. *)
Definition late_answers (second_by_old_reader : list bool) : list arrival :=
  [mkArrival [] [] (Some "context deadline exceeded") "EOF";
   mkArrival [json_Marshal (tool_answer 1 ["first"]); json_Marshal (tool_answer 2 ["second"])] second_by_old_reader
     None "EOF"].
Definition two_calls (takers : list bool) : list (res rpc_error toolCallResult) :=
  (run_calls (mkToolCallResult [] false) dec_call_result 0 [("tools/call", None); ("tools/call", None)]
    ([mkClient "prom" 0 0 false [] 0], mkProcs [] (late_answers takers) [] [])).1.

(** The late answer fails the next call when its reader gets it; the answers
    are told apart only when the old reader wakes up first. *)
Example late_answer_fails_next_call :
  two_calls [] = [Bad (CallCancelled "context deadline exceeded"); Bad (IDMismatch 1 2)]
  /\ two_calls [true] = [Bad (CallCancelled "context deadline exceeded"); Good (mkToolCallResult [mkToolContent "text" "second"] false)].
Proof. split; vm_compute; reflexivity. Qed.

(** An error the server cannot attribute to a request has a null id, and is
    passed over like a notification. *)
Example null_id_passed_over :
  let line := json_Marshal (VObj [("jsonrpc", VStr "2.0"); ("id", VNull); ("error", VObj [("code", VNum (itoa (-32700))); ("message", VStr "parse error")])]) in
  passed_over line = true.
Proof. vm_compute. reflexivity. Qed.

Lemma calls_take_own_answers_witness :
  let run := run_calls (mkToolCallResult [] false) dec_call_result 0 [("tools/call", None); ("tools/call", None)]
    ([mkClient "prom" 0 0 false [] 0], (mkProcs [] (late_answers [true]) [] [], [])) in
  let second := mkToolCallResult [mkToolContent "text" "second"] false in
  run.1 = [Bad (CallCancelled "context deadline exceeded"); Good second] /\
  exists line v resp, (0%nat, line) ∈ run.2.2.2 /\ json_Unmarshal (trimLine line) = Some v
    /\ dec_response v (zero_response, true) = (resp, true) /\ rs_ID resp = 2 /\ rs_Error resp = None
    /\ match rs_Result resp with None => second = mkToolCallResult [] false
       | Some r => dec_call_result r (mkToolCallResult [] false, true) = (second, true) end.
Proof.
  intros run second.
  assert (run.1 = [Bad (CallCancelled "context deadline exceeded"); Good second]) as Hrun by (vm_compute; reflexivity).
  split; [exact Hrun|].
  pose proof (calls_take_own_answers (mkToolCallResult [] false) dec_call_result 0 "prom" 0 [("tools/call", None); ("tools/call", None)]
    [mkClient "prom" 0 0 false [] 0] (mkProcs [] (late_answers [true]) [] []) eq_refl eq_refl) as H.
  fold run in H. destruct run as [results x]. cbn [fst snd] in *. apply (H 1%nat second). by rewrite Hrun.
Defined.

(** ** What a server adds to the registry *)
Section register.
Context {X S A I : Type}.
Implicit Types (r : ToolRegistry X S A I) (dt : DiagnoseTool X S).

Lemma Register_index category dt r name :
  toolIndex (Register category dt r) !! name
    = match toolIndex r !! name with
      | Some t => Some t
      | None => if decide (name = tool_Name dt) then Some dt else None
      end.
Proof.
  unfold Register. destruct (toolIndex r !! tool_Name dt) as [t|] eqn:E; cbn.
  - destruct (toolIndex r !! name) eqn:En; [done|]. rewrite decide_False; [done|]. intros ->. congruence.
  - destruct (decide (name = tool_Name dt)) as [->|]; [by rewrite lookup_insert_eq, E|].
    rewrite lookup_insert_ne by done. by destruct (toolIndex r !! name).
Qed.

Lemma Register_all_index category dts : forall r name,
  toolIndex (fold_left (fun r dt => Register category dt r) dts r) !! name
    = match toolIndex r !! name with
      | Some t => Some t
      | None => head (filter (fun dt => tool_Name dt = name) dts)
      end.
Proof.
  induction dts as [|dt dts IH]; intros r name; cbn [fold_left]; [by destruct (toolIndex r !! name)|].
  rewrite IH, Register_index. destruct (toolIndex r !! name); [done|]. destruct (decide (name = tool_Name dt)) as [->|].
  - by rewrite filter_cons_True.
  - by rewrite filter_cons_False.
Qed.

Lemma Register_all_wf category dts r : registry_wf r -> registry_wf (fold_left (fun r dt => Register category dt r) dts r).
Proof. revert r. induction dts as [|dt dts IH]; intros r Hr; [done|]. cbn. by apply IH, Register_wf. Qed.
End register.

(** Registering a server's tools adds the allowed ones under the server's name
    and nothing else, replaces no tool, and keeps the registry well formed. *)
Theorem registerTools_adds_allowed {W S A I} `{!McpProcess W} is_print json_error visit_props (srv : MCPServerConfig) tools client identity
    (r : ToolRegistry (list Client * W) S A I) :
  registry_wf r ->
  let r' := (registerTools is_print json_error visit_props srv tools client identity r).2 in
  registry_wf r' /\ toolIndex r ⊆ toolIndex r'
  /\ (forall t, t ∈ tools -> IsToolAllowed srv (mt_Name t) = true -> is_Some (toolIndex r' !! (mcp_Name srv +:+ "_" +:+ mt_Name t)))
  /\ (forall name dt, toolIndex r' !! name = Some dt -> toolIndex r !! name = None ->
      exists t, t ∈ tools /\ IsToolAllowed srv (mt_Name t) = true /\ name = mcp_Name srv +:+ "_" +:+ mt_Name t
        /\ dt = convert_tool (S := S) json_error visit_props srv client t).
Proof.
  intros Hwf. cbn zeta. unfold registerTools.
  set (allowed := filter (fun t => IsToolAllowed srv (mt_Name t) = true) tools).
  destruct (map (convert_tool (S := S) json_error visit_props srv client) allowed) as [|dt0 dts] eqn:Eadd.
  { apply map_eq_nil in Eadd. cbn [snd]. split_and!; [done|done| |congruence].
    intros t Ht Hal. assert (t ∈ allowed) as Hin by (by apply list_elem_of_filter). rewrite Eadd in Hin. by apply not_elem_of_nil in Hin. }
  rewrite <- Eadd. cbn [snd]. set (r1 := RegisterCategory _ _ _ _ r).
  assert (toolIndex r1 = toolIndex r) as Ei by done.
  pose proof (fun name => Register_all_index (categoryPrefix +:+ mcp_Name srv) (map (convert_tool (S := S) json_error visit_props srv client) allowed) r1 name) as Hix.
  setoid_rewrite Ei in Hix. split_and!.
  - apply Register_all_wf, RegisterCategory_wf, Hwf.
  - apply map_subseteq_spec. intros name t Ht. by rewrite Hix, Ht.
  - intros t Ht Hal. rewrite Hix. destruct (toolIndex r !! _); [done|].
    assert (convert_tool (S := S) json_error visit_props srv client t ∈ filter (fun dt => tool_Name dt = mcp_Name srv +:+ "_" +:+ mt_Name t)
      (map (convert_tool (S := S) json_error visit_props srv client) allowed)) as Hin.
    { apply list_elem_of_filter. split; [done|]. apply list_elem_of_fmap. exists t. split; [done|]. by apply list_elem_of_filter. }
    destruct (filter _ (map _ allowed)); [by apply not_elem_of_nil in Hin|done].
  - intros name dt Hdt Hnone. rewrite Hix, Hnone in Hdt. apply head_Some_elem_of in Hdt.
    apply list_elem_of_filter in Hdt as [Hname Hin]. apply list_elem_of_fmap in Hin as (t & -> & Ht).
    apply list_elem_of_filter in Ht as [Hal Ht]. by exists t.
Qed.

Lemma registerTools_adds_allowed_witness :
  let srv := mkMCPServerConfig "prom" "prom-mcp" [] None "" ["query"] in
  let tools := [mkMcpTool "query" "Query." None; mkMcpTool "delete" "Delete." None] in
  let r : ToolRegistry (list Client * procs) unit unit unit := NewToolRegistry in
  let r' := (registerTools (fun _ => true) id map_to_list srv tools 0 "" r).2 in
  (toolIndex r' !! "prom_delete" = None) /\ is_Some (toolIndex r' !! "prom_query").
Proof.
  intros srv tools r r'. split; [vm_compute; reflexivity|].
  refine (proj1 (proj2 (proj2 (registerTools_adds_allowed (fun _ => true) id map_to_list srv tools 0 "" r _))) (mkMcpTool "query" "Query." None) _ eq_refl).
  - apply NewToolRegistry_wf.
  - left.
Defined.
