(* ===== verification/Prompt.v ===== *)
(** * The prompt of a diagnosis (digcore/diagnose/prompt.go)

    [renderPrompt] executes a text template; here each part of the template is
    a function of the data it is given.  A template action trims the blanks
    next to its dash, so the line breaks below are those that are printed. *)
From S2P Require Import Prelude GoStr Types DiagTypes Registry.
#[local] Open Scope Z_scope.

Record promptData := mkPromptData {
  pd_Mode : string;
  pd_Plugin : string;
  pd_Target : string;
  pd_RuntimeOS : string;
  IsSystemInspect : bool;
  pd_Checks : list CheckSnapshot;
  pd_Descriptions : string;
  pd_DirectTools : string;
  pd_ToolCatalog : string;
  IsRemoteTarget : bool;
  LocalHost : string;
  pd_Language : string;
  pd_PreCollectedContext : string;
  pd_DiagnoseHints : string;
  pd_SystemBaseline : gmap string string
}.

Record promptContext := mkPromptContext {
  PreCollectedContext : string;
  DiagnoseHints : string;
  SystemBaseline : gmap string string
}.

(** The text between two actions, line by line. *)
Definition text (l : list string) : string := Join l newline.

(** [{{range $i, $c := l}}]. *)
Definition concat_map_i {A} (f : nat -> A -> string) (l : list A) : string :=
  concat_map (fun p => f p.1 p.2) (zip (seq 0 (length l)) l).

Definition sortedMapKeys (m : gmap string string) : list string :=
  sort_Strings (map fst (map_to_list m)).

(** ** The template *)

(** What is asked: an inspection, or the alert with its checks. *)
Definition prompt_subject (d : promptData) : string :=
  "你是一位资深运维和 DBA 专家。"
  +:+ (if bool_decide (pd_Mode d = "inspect") then
     text ["";
           "";
           "用户请求对以下目标进行主动健康巡检：";
           "";
           "插件: "]
     +:+ pd_Plugin d
     +:+ text ["";
           "目标: "]
     +:+ pd_Target d
     +:+ text ["";
           "当前运行环境: "]
     +:+ pd_RuntimeOS d
     +:+ text ["";
           "";
           "这不是告警触发的诊断，而是一次主动巡检。"]
     +:+ (if IsSystemInspect d then
        text ["";
              "你的任务是对整个系统做全面健康体检，发现潜在问题，并给出按优先级排序的建议。"]
      else text ["";
                 "你的任务是围绕 "]
           +:+ pd_Plugin d
           +:+ text [" 领域做专项巡检，优先检查与该领域直接相关的指标。";
                 "除非已经发现明确线索表明问题由其他领域引起，否则不要扩展到无关领域。"])
   else text ["";
              "";
              "catpaw 监控系统检测到以下告警：";
              "";
              "插件: "]
        +:+ pd_Plugin d
        +:+ text ["";
              "目标: "]
        +:+ pd_Target d
        +:+ text ["";
              "";
              ""]
        +:+ match pd_Checks d with
        | [c] =>
          text ["### 告警详情";
                "检查项: "]
          +:+ snap_Check c
          +:+ text ["";
                "严重级别: "]
          +:+ snap_Status c
          +:+ text ["";
                "当前值: "]
          +:+ snap_CurrentValue c
          +:+ (if negb (bool_decide (snap_ThresholdDesc c = "")) then
             text ["";
                   "阈值: "]
             +:+ snap_ThresholdDesc c
           else "")
          +:+ text ["";
                "描述: "]
          +:+ snap_Description c
        | _ :: _ :: _ =>
          "### 告警详情（同一目标有 "
          +:+ itoa (zlen (pd_Checks d))
          +:+ text [" 个异常检查项，可能存在关联）";
                ""]
          +:+ concat_map_i (fun i c =>
               text ["";
                     "["]
               +:+ itoa (Z.of_nat i + 1)
               +:+ "] "
               +:+ snap_Check c
               +:+ " - "
               +:+ snap_Status c
               +:+ text ["";
                     "    当前值: "]
               +:+ snap_CurrentValue c
               +:+ (if negb (bool_decide (snap_ThresholdDesc c = "")) then
                  text ["";
                        "    阈值: "]
                  +:+ snap_ThresholdDesc c
                else "")
               +:+ text ["";
                     "    描述: "]
               +:+ snap_Description c) (pd_Checks d)
          +:+ text ["";
                "请特别关注这些异常之间是否存在共同根因。"]
        | [] =>
          (if negb (bool_decide (pd_Descriptions d = "")) then
             text ["### 告警上下文";
                   ""]
             +:+ pd_Descriptions d
           else "")
        end
        +:+ text ["";
              "";
              "你的任务是诊断这个问题的根因，并给出建议操作。"]).

(** The tools at hand. *)
Definition prompt_tools (d : promptData) : string :=
  text ["";
        "";
        "## 可用工具";
        "";
        "你可以直接调用以下 "]
  +:+ pd_Plugin d
  +:+ text [" 工具（无需通过 call_tool）：";
        ""]
  +:+ pd_DirectTools d
  +:+ text ["";
        "";
        "以下是系统中所有可用的诊断工具（按领域分类）：";
        "";
        ""]
  +:+ pd_ToolCatalog d
  +:+ text ["";
        "";
        ("调用其他领域的工具：call_tool(name=" +:+ dquote +:+ "工具名" +:+ dquote +:+ ", tool_args='{" +:+ dquote +:+ "参数名" +:+ dquote +:+ ":" +:+ dquote +:+ "值" +:+ dquote +:+ "}')");
        ("如需查看某类工具的详细参数说明：list_tools(category=" +:+ dquote +:+ "类别名" +:+ dquote +:+ ")");
        "";
        "注意：上述 "]
  +:+ pd_Plugin d
  +:+ " 工具请直接调用，不要通过 call_tool 包装。".

(** How to proceed. *)
Definition prompt_strategy (d : promptData) : string :=
  (if bool_decide (pd_Mode d = "inspect") then
     text ["";
           "";
           "## 巡检策略"]
     +:+ (if IsSystemInspect d then
        text ["";
              ("1. 这是 " +:+ dquote +:+ "inspect system" +:+ dquote +:+ "，允许做跨领域系统体检");
              "2. 先收集 CPU、内存、磁盘、网络、进程等系统核心指标";
              "3. 根据异常现象再深入到具体子领域";
              "4. **每轮尽可能并行调用多个工具**，减少交互轮次"]
      else text ["";
                 ("1. 这是 " +:+ dquote +:+ "inspect ")]
           +:+ pd_Plugin d
           +:+ dquote +:+ "，默认只做 "
           +:+ pd_Plugin d
           +:+ text [" 领域专项巡检，不要把它当成整机体检";
                 "2. 首先使用 "]
           +:+ pd_Plugin d
           +:+ text [" 的核心工具收集关键指标";
                 "3. 只有在 "]
           +:+ pd_Plugin d
           +:+ text [" 结果已经显示出明确关联时，才允许扩展到 1-2 个相关领域";
                 "4. 对 "]
           +:+ pd_Plugin d
           +:+ text [" 无直接帮助的工具不要调用";
                 "5. **优先少而准**，不要为了“全面”而调用无关工具"])
   else text ["";
              "";
              "## 诊断策略";
              "";
              "- **效率优先**：如果当前信息已足以判断根因，立即输出结论，不要为了全面性进行不必要的检查";
              "- **并行调用**：需要多个领域数据时，在同一轮中并行调用多个工具";
              "- **聚焦问题**：优先检查与告警直接相关的指标；只在初步分析无法解释问题时才扩展到其他领域";
              "- 根因可能不在 "]
        +:+ pd_Plugin d
        +:+ " 自身（如数据库慢可能源于磁盘 I/O），但请先确认直接相关指标后再决定是否扩展")
  +:+ (if IsRemoteTarget d then
     text ["";
           "- [!] 目标 "]
     +:+ pd_Target d
     +:+ text [" 是远端主机，本机基础设施工具（disk、cpu、memory 等）";
           "  反映的是 catpaw 所在主机 "]
     +:+ LocalHost d
     +:+ text [" 的状态，不是目标主机的状态";
           "  这些工具的结果仅在 catpaw 与目标部署在同一台机器时有参考价值"]
   else text ["";
              "- catpaw 与目标 "]
        +:+ pd_Target d
        +:+ text [" 在同一台机器上，本机基础设施工具可直接用于辅助诊断";
              "- 当前操作系统是 "]
        +:+ pd_RuntimeOS d
        +:+ "，只应使用该操作系统支持的工具；不要请求其他操作系统专属工具").

(** The form of the answer. *)
Definition prompt_output (d : promptData) : string :=
  text ["";
        "";
        "## 输出要求"]
  +:+ (if bool_decide (pd_Mode d = "inspect") then
     text ["";
           "";
           "请按以下格式输出健康报告：";
           "";
           "### 1. 巡检摘要";
           "一句话总结目标的整体健康状态";
           "";
           "### 2. 检查项明细";
           "逐项列出检查结果，每项使用状态标记：";
           "- [OK] 正常：指标在健康范围内";
           "- [WARN] 警告：指标偏离正常但尚未达到告警阈值，需关注";
           "- [CRIT] 异常：指标已达到危险水平，需立即处理";
           "";
           "每项附带关键数值和判断依据";
           "";
           "### 3. 风险与建议";
           "- 发现的潜在风险（尚未触发告警但趋势不好的指标）";
           "- 优化建议（按紧急程度排序）"]
   else text ["";
              "";
              "- 语言精炼，关键数值内嵌到分析要点中";
              "- 最终输出请按以下格式：";
              "  1. 诊断摘要（一句话）";
              "  2. 根因分析（要点列表，每条含关键数值）";
              "  3. 建议操作（按紧急/短期/中期分类）";
              "- 不要输出原始数据的完整内容，只引用关键数值"])
  +:+ text ["";
        "";
        "请只使用工具获取信息，不要假设或编造数据。"].

(** What was collected beforehand, hints, and the language. *)
Definition prompt_context (d : promptData) : string :=
  (if negb (bool_decide (pd_PreCollectedContext d = "")) then
     text ["";
           "";
           "## "]
     +:+ pd_Plugin d
     +:+ text [" 预采集数据";
           "";
           "以下是诊断触发时自动采集的 "]
     +:+ pd_Plugin d
     +:+ text [" 基线数据，可直接用于分析：";
           "";
           ("<pre_collected plugin=" +:+ dquote)]
     +:+ pd_Plugin d
     +:+ text [(dquote +:+ ">");
           ""]
     +:+ pd_PreCollectedContext d
     +:+ text ["";
           "</pre_collected>"]
   else "")
  +:+ (if negb (bool_decide (pd_SystemBaseline d = ∅)) then
     text ["";
           "";
           "## 系统基线";
           "";
           "以下是本机 OS 健康快照（诊断触发时自动采集），可直接用于判断是否存在系统级瓶颈，无需再调用对应 overview 工具：";
           ""]
     +:+ concat_map (fun plugin =>
          text ["";
                ("<system_baseline plugin=" +:+ dquote)]
          +:+ plugin
          +:+ text [(dquote +:+ ">");
                ""]
          +:+ default "" (pd_SystemBaseline d !! plugin)
          +:+ text ["";
                "</system_baseline>"]) (sortedMapKeys (pd_SystemBaseline d))
   else "")
  +:+ (if negb (bool_decide (pd_DiagnoseHints d = "")) then
     text ["";
           "";
           "## "]
     +:+ pd_Plugin d
     +:+ text [" 诊断路线图";
           ""]
     +:+ pd_DiagnoseHints d
   else "")
  +:+ (if negb (bool_decide (pd_Language d = "zh")) then
     text ["";
           "";
           "IMPORTANT: You MUST respond in "]
     +:+ pd_Language d
     +:+ ". All output including section headers, analysis, and recommendations must be in "
     +:+ pd_Language d
     +:+ "."
   else "").

Definition execute_template (d : promptData) : string :=
  prompt_subject d +:+ prompt_tools d +:+ prompt_strategy d +:+ prompt_output d +:+ prompt_context d.

(** ** The functions of prompt.go *)
Section prompt.
Context {X S I : Type}.

Definition renderPrompt (mode : string) (req : DiagnoseRequest I) (directTools toolCatalog localHost : string)
    (isRemote : bool) (language : string) (pctx : promptContext) : string :=
  execute_template (mkPromptData mode (req_Plugin req) (req_Target req) (RuntimeOS req)
    (bool_decide (mode = ModeInspect) && bool_decide (req_Plugin req = "system"))
    (Checks req) (Descriptions req) directTools toolCatalog isRemote localHost language
    (PreCollectedContext pctx) (DiagnoseHints pctx) (SystemBaseline pctx)).

Definition buildSystemPrompt (req : DiagnoseRequest I) (directTools toolCatalog localHost : string)
    (isRemote : bool) (language : string) (pctx : promptContext) : string :=
  renderPrompt ModeAlert req directTools toolCatalog localHost isRemote language pctx.

Definition buildInspectPrompt (req : DiagnoseRequest I) (directTools toolCatalog localHost : string)
    (isRemote : bool) (language : string) (pctx : promptContext) : string :=
  renderPrompt ModeInspect req directTools toolCatalog localHost isRemote language pctx.

Definition formatDirectTools (tools : list (DiagnoseTool X S)) : string :=
  match tools with
  | [] => "(无直接工具)"
  | _ =>
    concat_map (fun t =>
      "- " +:+ tool_Name t +:+ ": " +:+ tool_Description t +:+ newline +:+
      concat_map (fun p =>
        "  参数 " +:+ param_Name p +:+ " (" +:+ param_Type p +:+ "): " +:+ param_Description p
        +:+ (if param_Required p then " (必需)" else "") +:+ newline) (DiagTypes.Parameters t)) tools
  end.
End prompt.

Definition isRemoteTarget (target : string) : bool :=
  let t := ToLower target in
  if HasPrefix t "localhost" || HasPrefix t "127." || HasPrefix t "[::1]" || HasPrefix t "::1"
  then false
  else if bool_decide (t = "") || bool_decide (t = "/") then false
  else true.

(** ** Lemmas: text that a prompt contains *)
Definition shows (t s : string) : Prop := exists pre post, t = pre +:+ s +:+ post.

Lemma shows_refl s : shows s s.
Proof. exists "", "". by rewrite sapp_nil, string_app_nil_r. Qed.
Lemma shows_l a b s : shows a s -> shows (a +:+ b) s.
Proof. intros (x & y & ->). exists x, (y +:+ b). by rewrite !string_app_assoc. Qed.
Lemma shows_r a b s : shows b s -> shows (a +:+ b) s.
Proof. intros (x & y & ->). exists (a +:+ x), y. by rewrite !string_app_assoc. Qed.

Lemma shows_concat_map {A} (f : A -> string) l x s : x ∈ l -> shows (f x) s -> shows (concat_map f l) s.
Proof.
  intros Hx Hs. induction l as [|y l IH]; [by apply elem_of_nil in Hx|].
  unfold concat_map; cbn [foldr]. apply elem_of_cons in Hx as [<-|Hx];
    [by apply shows_l|by apply shows_r, IH].
Qed.

Lemma shows_concat_map_i {A} (f : nat -> A -> string) l x s :
  x ∈ l -> (forall i, shows (f i x) s) -> shows (concat_map_i f l) s.
Proof.
  intros [i Hi]%list_elem_of_lookup Hs. unfold concat_map_i.
  apply (shows_concat_map _ _ (i, x)); [|apply Hs].
  apply list_elem_of_lookup. exists i. apply lookup_zip_with_Some. exists i, x.
  split_and!; [done|apply lookup_seq; split; [done|by eapply lookup_lt_Some]|done].
Qed.

(** Finds the text in a concatenation. *)
Ltac find_text :=
  first
    [ apply shows_refl
    | apply shows_l; find_text
    | apply shows_r; find_text ].

(** ** Property *)

(** The prompt of an alert shows the AI every check of the request, with its
    severity, value and description; every prompt shows the direct tools, the
    catalog and the data collected beforehand. *)
Theorem renderPrompt_shows_request {I} mode (req : DiagnoseRequest I) directTools toolCatalog localHost
    isRemote language pctx :
  let p := renderPrompt mode req directTools toolCatalog localHost isRemote language pctx in
  shows p (req_Target req) /\ shows p directTools /\ shows p toolCatalog /\
  shows p (PreCollectedContext pctx) /\
  (mode <> ModeInspect -> forall c, c ∈ Checks req ->
    shows p (snap_Check c) /\ shows p (snap_Status c) /\ shows p (snap_CurrentValue c) /\
    shows p (snap_Description c)).
Proof.
  unfold renderPrompt, execute_template. set (d := mkPromptData _ _ _ _ _ _ _ _ _ _ _ _ _ _ _).
  split_and!.
  - apply shows_l. unfold prompt_subject. destruct (bool_decide _); find_text.
  - apply shows_r, shows_l. unfold prompt_tools. find_text.
  - apply shows_r, shows_l. unfold prompt_tools. find_text.
  - do 4 apply shows_r. unfold prompt_context. apply shows_l.
    destruct (decide (pd_PreCollectedContext d = "")) as [He|He].
    + cbn in He. rewrite He. exists "". eexists. by rewrite !sapp_nil.
    + rewrite bool_decide_eq_false_2 by done. find_text.
  - intros Hmode c Hc.
    enough (forall s, (In s [snap_Check c; snap_Status c; snap_CurrentValue c; snap_Description c])
      -> shows (prompt_subject d) s) as Hs.
    { split_and!; apply shows_l, Hs; cbn; auto. }
    intros s Hin. unfold prompt_subject. rewrite bool_decide_eq_false_2 by done.
    do 6 apply shows_r. apply shows_l.
    change (pd_Checks d) with (Checks req).
    destruct (Checks req) as [|c1 [|c2 cs]] eqn:Hcs; [by apply elem_of_nil in Hc|..].
    + apply list_elem_of_singleton in Hc as <-.
      destruct Hin as [<-|[<-|[<-|[<-|[]]]]]; find_text.
    + rewrite <-Hcs in *. apply shows_r, shows_r, shows_r, shows_l.
      apply (shows_concat_map_i _ _ c); [done|]. intros i.
      destruct Hin as [<-|[<-|[<-|[<-|[]]]]]; find_text.
Qed.
