(* ===== verification/Executor.v ===== *)
(** * Tool calls of a diagnosis (digcore/diagnose/executor.go and toolconv.go)

    The AI names a tool and sends its arguments as JSON text; [executeTool]
    routes the call.  Decoding JSON is the interface [JsonCodec]. *)
From Stdlib Require Import SpecFloat.
From S2P Require Import Prelude GoStr Types DiagTypes AiClient Registry.
#[local] Open Scope Z_scope.

(** What [json.Unmarshal] stores in an [any]. *)
Inductive json :=
| JNull
| JBool (b : bool)
| JNumber (f : spec_float)
| JString (s : string)
| JArray (l : list json)
| JObject (m : list (string * json)).

(** Package encoding/json, and the two formatters of floats and of values.
    The decoders return [None] on an error; the text [null] gives a nil map. *)
Class JsonCodec := {
  decode_string_map : string -> option (gomap string);
  decode_any_map : string -> option (gomap json);
  Marshal : json -> option string;
  FormatFloat : spec_float -> string;
  Sprint : json -> string
}.

(** ** Arguments *)
Section args.
Context `{!JsonCodec}.

Definition anyToString (v : json) : string :=
  match v with
  | JNull => ""
  | JNumber f => FormatFloat f
  | JArray _ | JObject _ => match Marshal v with Some b => b | None => Sprint v end
  | JBool b => if b then "true" else "false"
  | JString s => s
  end.

Definition unmarshalStringMap (raw : string) : gomap string :=
  match decode_string_map raw with
  | Some m => m
  | None =>
    match decode_any_map raw with
    | Some anyMap => Some (anyToString <$> default ∅ anyMap)
    | None => None
    end
  end.

Definition raw_args (raw : string) : gmap string string := {["_raw" := raw]}.

Definition ParseArgs (raw : string) : gmap string string :=
  if decide (raw = "") then ∅
  else match unmarshalStringMap raw with Some m => m | None => raw_args raw end.

Definition ParseToolArgs (raw : string) : gomap string :=
  if decide (raw = "") then None
  else Some (match unmarshalStringMap raw with Some m => m | None => raw_args raw end).

Definition arg (args : gmap string string) (k : string) : string := default "" (args !! k).

Definition shorten_command (cmd : string) : string :=
  if 80 <? RuneCount cmd then of_runes (take 77 (runes cmd)) +:+ "..." else cmd.

Definition FormatToolArgsDisplay (name rawArgs : string) : string :=
  let args := ParseArgs rawArgs in
  if decide (name = "call_tool") then
    let toolName := arg args "name" in
    let toolArgs := arg args "tool_args" in
    if negb (bool_decide (toolArgs = "")) && negb (bool_decide (toolArgs = "{}"))
    then toolName +:+ " " +:+ toolArgs
    else toolName
  else if decide (name = "list_tools") then arg args "category"
  else if decide (name = "exec_shell") then shorten_command (arg args "command")
  else "".
End args.

(** ** Routing *)
Section executor.
Context `{!JsonCodec} {X S A I : Type}.
Variable is_print : Z -> bool.
(** [runtime.GOOS], and the order in which loops visit the categories. *)
Variable goos : string.
Variable order : list (string * ToolCategory X S).

(** [session] is nil for a call outside a diagnosis. *)
Definition executeToolImpl (session : option S) (tool : DiagnoseTool X S) (args : gomap string)
    (x : X) : res string string * X :=
  if decide (tool_Scope tool = ToolScopeLocal) then
    match Execute tool with
    | None => (Bad ("tool " +:+ tool_Name tool +:+ " has no Execute function"), x)
    | Some f => f x args
    end
  else
    match RemoteExecute tool with
    | None => (Bad ("tool " +:+ tool_Name tool +:+ " has no RemoteExecute function"), x)
    | Some f =>
      match session with
      | None => (Bad ("no session available for remote tool " +:+ tool_Name tool), x)
      | Some s => f s x args
      end
    end.

(** The lookup, the check of the operating system and the call that the two
    last cases of [executeTool] share. *)
Definition call_named (registry : ToolRegistry X S A I) (session : option S) (toolName : string)
    (args : gomap string) (x : X) : res string string * X :=
  match Get registry toolName with
  | None => (Bad ("unknown tool: " +:+ toolName), x)
  | Some tool =>
    if negb (ToolSupportedOn registry order toolName goos)
    then (Bad ("tool " +:+ toolName +:+ " is not supported on " +:+ goos), x)
    else executeToolImpl session tool args x
  end.

Definition executeTool (registry : ToolRegistry X S A I) (session : option S)
    (name rawArgs : string) (x : X) : res string string * X :=
  let args := ParseArgs rawArgs in
  if decide (name = "list_tool_categories") then (Good (ListCategoriesForOS registry order goos), x)
  else if decide (name = "list_tools") then
    let category := arg args "category" in
    if decide (category = "") then (Bad "list_tools requires 'category' parameter", x)
    else (Good (ListToolsForOS is_print registry category goos), x)
  else if decide (name = "call_tool") then
    let toolName := arg args "name" in
    if decide (toolName = "") then (Bad "call_tool requires 'name' parameter", x)
    else call_named registry session toolName (ParseToolArgs (arg args "tool_args")) x
  else call_named registry session name (Some args) x.

(** ** toolconv.go *)

Definition diagnoseToolToAI (t : DiagnoseTool X S) : Tool :=
  mkTool "function" (mkToolFunction (tool_Name t) (tool_Description t)
    (match DiagTypes.Parameters t with
     | [] => None
     | ps => Some (AiClient.mkParameters "object"
               (fold_left (fun props p =>
                  <[param_Name p := mkProperty (param_Type p) (param_Description p)]> props) ps ∅)
               (map param_Name (filter (fun p => param_Required p = true) ps)))
     end)).

Definition metaTools : list Tool :=
  [ mkTool "function" (mkToolFunction "list_tools"
      "查看某个工具类别下所有工具的详细参数说明（仅在需要参数细节时使用）"
      (Some (AiClient.mkParameters "object"
        {["category" := mkProperty "string" "工具大类名称"]} ["category"])));
    mkTool "function" (mkToolFunction "call_tool"
      "调用一个非直接注入的诊断工具（工具名和参数见系统提示中的工具目录）"
      (Some (AiClient.mkParameters "object"
        (<["name" := mkProperty "string" "工具名称"]>
         {["tool_args" := mkProperty "string" "工具参数，JSON 字符串格式"]}) ["name"]))) ].

Definition buildToolSet (registry : ToolRegistry X S A I) (req : DiagnoseRequest I)
    : list Tool * list (DiagnoseTool X S) :=
  let directTools := ByPluginForOS registry (req_Plugin req) (RuntimeOS req) in
  (map diagnoseToolToAI directTools ++ metaTools, directTools).

(** ** Properties *)

(** The state a tool acts on changes only through a tool that some category
    offers on this operating system: an unknown name, an unsupported system, a
    missing parameter or a listing leaves it as it was. *)
Theorem executeTool_runs_only_offered_tools registry session name rawArgs x
    (Hwf : registry_wf registry) (Hv : visits registry order)
    (Hx : (executeTool registry session name rawArgs x).2 <> x) :
  exists plugin tool args,
    tool ∈ ByPluginForOS registry plugin goos /\
    (tool_Name tool = name \/ name = "call_tool" /\ tool_Name tool = arg (ParseArgs rawArgs) "name") /\
    executeTool registry session name rawArgs x = executeToolImpl session tool args x.
Proof.
  assert (forall n args, (call_named registry session n args x).2 <> x ->
    exists plugin tool, tool ∈ ByPluginForOS registry plugin goos /\ tool_Name tool = n /\
      call_named registry session n args x = executeToolImpl session tool args x) as Hcall.
  { intros n args. unfold call_named. destruct (Get registry n) as [tool|] eqn:Hg; [|done].
    destruct (ToolSupportedOn registry order n goos) eqn:Hs; [|done]. intros _. cbn.
    apply ToolSupportedOn_spec in Hs as (c & cat & t & Hc & Ht & Hn & Hos & Hcat); [|done..].
    assert (Get registry n = Some t) as Ht'
      by (rewrite <-Hn; by apply (wf_tools registry Hwf c cat)).
    exists c, tool. simplify_eq. split; [|done]. apply elem_of_ByPluginForOS. by exists cat. }
  revert Hx. unfold executeTool. repeat case_decide; intros Hx; try done.
  - destruct (Hcall _ _ Hx) as (p & t & Ht & Hn & He). eexists p, t, _.
    split_and!; [done|by right|done].
  - destruct (Hcall _ _ Hx) as (p & t & Ht & Hn & He). eexists p, t, _.
    split_and!; [done|by left|done].
Qed.

(** Every tool offered to the AI by name, called by that name, reaches the
    tool that was offered, unless its name is one of the three reserved ones. *)
Theorem offered_tool_is_called registry session req rawArgs x tool
    (Hwf : registry_wf registry) (Hv : visits registry order) (Hos : RuntimeOS req = goos)
    (Ht : tool ∈ (buildToolSet registry req).2)
    (Hname : tool_Name tool ∉ ["list_tool_categories"; "list_tools"; "call_tool"]) :
  executeTool registry session (tf_Name (tool_Function (diagnoseToolToAI tool))) rawArgs x
  = executeToolImpl session tool (Some (ParseArgs rawArgs)) x.
Proof.
  cbn in Ht. rewrite Hos in Ht. unfold executeTool. cbn [tool_Function diagnoseToolToAI tf_Name].
  rewrite !decide_False by set_solver. unfold call_named.
  apply elem_of_ByPluginForOS in Ht as (cat & Hc & Ht & Hs & Hcat).
  unfold Get. rewrite (wf_tools registry Hwf _ _ _ Hc Ht).
  assert (ToolSupportedOn registry order (tool_Name tool) goos = true) as ->; [|done].
  apply ToolSupportedOn_spec; [done..|]. by exists (req_Plugin req), cat, tool.
Qed.
End executor.

(** The display of a shell command has at most 80 characters. *)
Lemma shorten_command_RuneCount cmd : RuneCount (shorten_command cmd) <= 80.
Proof.
  unfold shorten_command. case_match; zbool; [|done].
  rewrite RuneCount_app by done. unfold RuneCount at 1. rewrite runes_of_runes
    by (apply Forall_take, runes_valid).
  change (RuneCount "...") with 3. unfold zlen. rewrite length_take. lia.
Qed.

(** ** Witness: a codec for the texts [{}] and [{name}] *)

#[local] Instance tiny_codec : JsonCodec := {|
  decode_string_map raw :=
    if decide (raw = "{}") then Some (Some ∅)
    else if decide (raw = "{name}") then Some (Some {["name" := "disk_usage"]})
    else None;
  decode_any_map _ := None;
  Marshal _ := None;
  FormatFloat _ := "0";
  Sprint _ := ""
|}.

(** A call of [cpu_load] on Linux runs it; the state it counts in moves. *)
Lemma executeTool_runs_only_offered_tools_witness :
  exists plugin tool args,
    tool ∈ ByPluginForOS ex_registry plugin "linux" /\
    (tool_Name tool = "cpu_load" \/ "cpu_load" = "call_tool" /\ tool_Name tool = arg (ParseArgs "{}") "name") /\
    executeTool (fun _ => true) "linux" ex_visit ex_registry (Some tt) "cpu_load" "{}" 0%nat
    = executeToolImpl (Some tt) tool args 0%nat.
Proof.
  apply (executeTool_runs_only_offered_tools (fun _ => true) "linux" ex_visit ex_registry);
    [exact ex_registry_wf|exact (Permutation_refl _)|vm_compute; discriminate].
Defined.
