(* ===== verification/Concrete.v ===== *)
(** * Concrete worlds, on which the properties' witnesses run

    An AI backend that plays a script of answers, and a JSON codec that knows
    two texts. *)
From S2P Require Import Prelude Types AiClient Failover Executor.
#[local] Open Scope Z_scope.

(** ** A scripted AI *)
Definition Script : Type := list (res error ChatResponse).

#[export] Instance script_backend : ChatBackend unit Script := {
  client_Chat _ _ _ w :=
    match w with r :: w' => (r, w') | [] => (Bad (ErrNew "no more answers"), []) end;
  client_wait _ w := (None, w)
}.

Definition says (content : string) : res error ChatResponse :=
  Good (mkChatResponse "r" [mkChoice 0 (plain "assistant" content) "stop"] (mkUsage 1 1 2)).
Definition calls (id name args : string) : res error ChatResponse :=
  Good (mkChatResponse "r"
    [mkChoice 0 (mkMessage "assistant" "" "" "" [mkToolCall id "function" (mkFunctionCall name args)])
       "tool_calls"] (mkUsage 1 1 2)).

(** Two models, [a] before [b], that read the same script. *)
Definition two_models (retries : Z) : FailoverClient unit :=
  mkFailoverClient ["a"; "b"] (<["a" := tt]> {["b" := tt]}) (mkRetryConfig retries Second) "" false None.

(** Tool arguments are read by the codec that knows two texts. *)
#[export] Existing Instance tiny_codec.

(** ** Witnesses on the scripted AI *)

Definition no_print : Z -> bool := fun _ => true.

(** Model [a] is overloaded once, [b] refuses the request. *)
Lemma Chat_follows_priority_witness :
  exists out cs', Chat no_print (two_models 0) [] []
      ([Bad (ErrAPI 429 "slow down"); Bad (ErrAPI 400 "bad request")] : Script) = (Ret out, cs') /\
    walk_end (two_models 0) [] [] (ErrNew "%!w(<nil>)") ["a"; "b"]
      [Bad (ErrAPI 429 "slow down"); Bad (ErrAPI 400 "bad request")] out cs'.
Proof.
  apply (Chat_follows_priority no_print (two_models 0)); [|reflexivity|discriminate].
  repeat constructor; by eexists.
Defined.

(** The first attempt fails with 503, the second is answered. *)
Lemma ChatWithRetry_attempts_witness :
  exists r cs' k last cs1,
    ChatWithRetry (Some tt) (mkRetryConfig 2 Second) [] []
      ([Bad (ErrAPI 503 "busy"); says "done"] : Script) = (Ret r, cs') /\
    retried (mkRetryConfig 2 Second) tt [] [] k [Bad (ErrAPI 503 "busy"); says "done"] last cs1 /\
    retry_end (mkRetryConfig 2 Second) tt [] [] 3 k last cs1 r cs'.
Proof. apply (ChatWithRetry_attempts tt (mkRetryConfig 2 Second)). vm_compute. discriminate. Defined.

Lemma PinModel_binds_Chat_witness :
  exists c out cs', clients (two_models 0) !! "b" = Some c /\
    ChatWithRetry (Some c) (mkRetryConfig 0 Second) [] [] ([says "hello"] : Script) = (Ret out, cs') /\
    Chat no_print (PinModel no_print (two_models 0) "b").2 [] [] ([says "hello"] : Script) = (Ret (out, "b"), cs').
Proof.
  apply (PinModel_binds_Chat no_print (two_models 0) "b" [] []); discriminate.
Defined.
