(* ===== verification/Chat.v ===== *)
(** * A chat with the AI (digcore/diagnose/streaming.go)

    A [ChatStream] keeps the history of a conversation as a Go slice.  One
    message of the user starts up to [chatMaxRounds] rounds: the AI answers, or
    calls tools whose outputs join the history.  [W] is the world outside: the
    AI backends, the host the tools look at, and the context of the call. *)
From S2P Require Import Prelude GoStr Types DiagTypes GoSlice AiClient Failover Report Registry Executor Concrete.
#[local] Open Scope Z_scope.
#[local] Open Scope go_scope.

Definition chatMaxRounds : Z := 20.
Definition maxHistoryMessages : Z := 40.

(** ** Progress events (types.go) *)
Inductive ProgressEventType := ProgressAIStart | ProgressAIDone | ProgressToolStart | ProgressToolDone.
Record ProgressEvent := mkProgress {
  pe_Type : ProgressEventType;
  pe_Round : Z;
  pe_ToolName : string;
  pe_ToolArgs : string;
  pe_Reasoning : string;
  pe_Duration : Z;
  pe_ResultLen : Z;
  pe_IsError : bool;
  pe_ToolOutput : string
}.
Definition progress_ai (t : ProgressEventType) (round : Z) (reasoning : string) (duration : Z)
  : ProgressEvent :=
  mkProgress t round "" "" reasoning duration 0 false "".

(** ** History *)

(** The first index at or after the cut whose message belongs to no sequence of
    tool calls; the argument is [messages[cut:]]. *)
Fixpoint skip_tool_calls (ms : list Message) : nat :=
  match ms with
  | [] => O
  | m :: ms' => if is_tool m || calls_tools m then S (skip_tool_calls ms') else O
  end.

Definition trimHistory (s : slice Message) : slice Message :=
  let messages := vals s in
  if zlen messages <=? maxHistoryMessages + 1 then s
  else
    let cut := (length messages - Z.to_nat maxHistoryMessages)%nat in
    let safeCut := (cut + skip_tool_calls (drop cut messages))%nat in
    let cut_at (c : nat) := of_list (take 1 messages ++ drop c messages) in
    if decide (safeCut < length messages)%nat then cut_at safeCut
    else if maxHistoryMessages * 2 <? zlen messages then cut_at cut
    else s.

(** ** The tools of a chat *)
Definition string_param (name desc : string) : string * Property := (name, mkProperty "string" desc).

Definition buildChatToolSet (allowShell : bool) : list Tool :=
  let tool name desc props required :=
    mkTool "function" (mkToolFunction name desc
      (Some (AiClient.mkParameters "object" (list_to_map props) required))) in
  [ tool "call_tool"
      "Invoke a diagnostic tool by name. All available tools are listed in the system prompt."
      [string_param "name" "Tool name"; string_param "tool_args" "Tool arguments as JSON string"]
      ["name"];
    tool "list_tool_categories"
      "List all available tool categories (plugins). Use this to explore available diagnostic areas."
      [] [];
    tool "list_tools"
      "Show detailed parameter info for tools in a category. Use only when you need parameter details not shown in the catalog."
      [string_param "category" "Tool category name"] ["category"] ]
  ++ (if allowShell then
        [ tool "exec_shell" "Execute a shell command. Use when built-in tools are insufficient."
            [string_param "command" "Shell command to execute"] ["command"] ]
      else []).

(** ** Lemmas on trimming *)

Lemma skip_tool_calls_le ms : (skip_tool_calls ms <= length ms)%nat.
Proof. induction ms as [|m ms IH]; cbn; [lia|]. case_match; lia. Qed.

(** The skip stops before a plain message. *)
Lemma skip_tool_calls_plain ms m :
  is_tool m = false -> calls_tools m = false ->
  (skip_tool_calls (ms ++ [m]) < length (ms ++ [m]))%nat.
Proof.
  intros Ht Hc. induction ms as [|x ms IH]; cbn [app skip_tool_calls length];
    [rewrite Ht, Hc; cbn; lia|]. case_match; lia.
Qed.

Lemma skip_tool_calls_head ms : head_not_tool (drop (skip_tool_calls ms) ms).
Proof.
  induction ms as [|m ms IH]; [done|]. cbn [skip_tool_calls]. destruct (is_tool m) eqn:E; [done|].
  cbn [orb]. case_match; [done|]. exact E.
Qed.

(** A history a chat may have: it starts with the system prompt and every tool
    call is answered. *)
Record history_ok (ms : list Message) : Prop := {
  ok_head : exists prompt rest, ms = plain "system" prompt :: rest;
  ok_answered : answered ms
}.

Lemma history_ok_head ms : history_ok ms -> head_no_calls ms.
Proof. by intros [(p & r & ->) _]. Qed.

Lemma history_ok_app ms ms' : history_ok ms -> answered ms' -> history_ok (ms ++ ms').
Proof. intros [(p & r & ->) Ha] Hb. split; [by eexists p, _|by apply answered_app]. Qed.

Lemma plain_user_answered input : answered [plain "user" input].
Proof. done. Qed.

Lemma history_ok_cut ms k :
  history_ok ms -> head_not_tool (drop k ms) -> history_ok (take 1 ms ++ drop k ms).
Proof.
  intros [(p & r & ->) Ha] Hh. split; [by eexists p, _|].
  apply answered_app; [done|]. unfold answered in *.
  rewrite <-(take_drop k (_ :: r)), answers_app in Ha. apply bind_Some in Ha as (q & _ & Ha).
  by eapply answered_head.
Qed.

Lemma trimHistory_wf s : slice_wf s -> slice_wf (trimHistory s).
Proof. intros Hwf. unfold trimHistory. repeat case_match; done || apply of_list_wf. Qed.

(** Trimming after a message of the user, which is the only use. *)
Lemma trimHistory_user s ms input :
  vals s = ms ++ [plain "user" input] -> history_ok ms ->
  exists ms', vals (trimHistory s) = ms' ++ [plain "user" input] /\ history_ok ms' /\
    zlen ms' <= maxHistoryMessages /\ (zlen ms <= maxHistoryMessages -> ms' = ms).
Proof.
  intros Hs Hok. unfold trimHistory. rewrite Hs, zlen_app. change (zlen [plain "user" input]) with 1.
  case_match; zbool; [exists ms; split_and!; [done|done|lia|done]|].
  set (all := ms ++ _). set (cut := (length all - _)%nat).
  assert (length all = S (length ms)) as Hl by (unfold all; rewrite length_app; cbn; lia).
  unfold maxHistoryMessages, zlen in *.
  assert (drop cut all = drop cut ms ++ [plain "user" input]) as Hd
    by (unfold all; apply drop_app_le; lia).
  pose proof (skip_tool_calls_plain (drop cut ms) (plain "user" input) eq_refl eq_refl) as Hk.
  rewrite <-Hd in Hk. set (k := skip_tool_calls (drop cut all)) in *.
  rewrite length_drop in Hk. rewrite decide_True by lia. rewrite vals_of_list.
  exists (take 1 ms ++ drop (cut + k) ms). split_and!; [| | |lia].
  - unfold all. rewrite take_app_le, drop_app_le by lia. by rewrite (assoc_L (++)).
  - apply history_ok_cut; [done|]. pose proof (skip_tool_calls_head (drop cut all)) as Hh.
    fold k in Hh. rewrite drop_drop in Hh. unfold all in Hh. rewrite drop_app_le in Hh by lia.
    by destruct (drop (cut + k) ms).
  - rewrite length_app, length_take, length_drop. lia.
Qed.

Section chat.
Context {M W S A I : Type} `{!ChatBackend M W} `{!JsonCodec}.
Variable is_print : Z -> bool.
Variable goos : string.
Variable order : list (string * ToolCategory W S).
(** [ctx.Err()], the clock in nanoseconds, and the spare room the runtime gives
    a grown slice. *)
Variable ctx_Err : W -> option error.
Variable now : W -> Z.
Variable grow : slice Message -> list Message.

(** Output, approval by the user, error. *)
Definition ShellExecutor : Type := string -> W -> (string * bool * option string) * W.

(** [log] is what the progress callback was given. *)
Record ChatStream := mkChatStream {
  fc : FailoverClient M;
  registry : ToolRegistry W S A I;
  aiTools : list Tool;
  messages : slice Message;
  shellExecutor : option ShellExecutor;
  contextWindowLimit : Z;
  log : list ProgressEvent
}.

Definition set_messages (ms : slice Message) (s : ChatStream) : ChatStream :=
  mkChatStream (fc s) (registry s) (aiTools s) ms (shellExecutor s) (contextWindowLimit s) (log s).
Definition emitProgress (e : ProgressEvent) (s : ChatStream) : ChatStream :=
  mkChatStream (fc s) (registry s) (aiTools s) (messages s) (shellExecutor s) (contextWindowLimit s)
    (log s ++ [e]).
Definition push (m : Message) (s : ChatStream) : ChatStream :=
  set_messages (append (grow (messages s)) (messages s) m) s.

Definition NewChatStream (fc : FailoverClient M) (registry : ToolRegistry W S A I)
    (SystemPrompt : string) (AllowShell : bool) (shell : option ShellExecutor) (limit : Z) : ChatStream :=
  mkChatStream fc registry (buildChatToolSet AllowShell) (of_list [plain "system" SystemPrompt])
    shell limit [].

(** ** Tools *)

(** A direct call runs the local function of the tool, whatever its scope. *)
Definition chat_executeTool (s : ChatStream) (name rawArgs : string) (w : W) : res string string * W :=
  let args := ParseArgs rawArgs in
  if decide (name = "list_tool_categories") then (Good (ListCategoriesForOS (registry s) order goos), w)
  else if decide (name = "list_tools") then
    let category := arg args "category" in
    if decide (category = "") then (Bad "list_tools requires 'category' parameter", w)
    else (Good (ListToolsForOS is_print (registry s) category goos), w)
  else if decide (name = "call_tool") then
    let toolName := arg args "name" in
    if decide (toolName = "") then (Bad "call_tool requires 'name' parameter", w)
    else
      match Get (registry s) toolName with
      | None => (Bad ("unknown tool: " +:+ toolName), w)
      | Some tool =>
        if decide (tool_Scope tool = ToolScopeRemote) then
          (Bad ("tool " +:+ tool_Name tool +:+ " requires a remote connection (not available in chat mode)"), w)
        else
          match Execute tool with
          | None => (Bad ("tool " +:+ tool_Name tool +:+ " has no Execute function"), w)
          | Some f => f w (ParseToolArgs (arg args "tool_args"))
          end
      end
  else if decide (name = "exec_shell") then
    match shellExecutor s with
    | None => (Bad "shell execution not enabled (no ShellExecutor configured)", w)
    | Some execute =>
      let command := arg args "command" in
      if decide (command = "") then (Bad "exec_shell requires 'command' parameter", w)
      else
        let '((output, approved, err), w) := execute command w in
        (if negb approved then Good "user rejected command execution"
         else match err with Some e => Bad e | None => Good output end, w)
    end
  else
    match Get (registry s) name with
    | None => (Bad ("unknown tool: " +:+ name), w)
    | Some tool =>
      match Execute tool with
      | None => (Bad ("tool " +:+ tool_Name tool +:+ " has no Execute function"), w)
      | Some f => f w (Some args)
      end
    end.

(** The body of the loop over the tool calls of a round. *)
Definition run_tool_call (roundNum : Z) (sw : ChatStream * W) (tc : ToolCall) : ChatStream * W :=
  let '(s, w) := sw in
  let name := fc_Name (tc_Function tc) in
  let argsDisplay := FormatToolArgsDisplay name (fc_Arguments (tc_Function tc)) in
  let s := emitProgress (mkProgress ProgressToolStart roundNum name argsDisplay "" 0 0 false "") s in
  let '(r, w') := chat_executeTool s name (fc_Arguments (tc_Function tc)) w in
  let isErr := match r with Bad _ => true | Good _ => false end in
  let result := TruncateOutput (match r with Bad e => "error: " +:+ e | Good out => out end) in
  let s := emitProgress (mkProgress ProgressToolDone roundNum name argsDisplay "" (now w' - now w) (slen result) isErr result) s in
  (push (mkMessage "tool" result "" (tc_ID tc) []) s, w').

(** ** The conversation *)
Definition add_usage (u v : Usage) : Usage :=
  mkUsage (PromptTokens u ⊞ PromptTokens v) (CompletionTokens u ⊞ CompletionTokens v)
    (UsageTotalTokens u ⊞ UsageTotalTokens v).

(** A final result of the loop, or the stream to go on with. *)
Inductive round_result :=
| Final (reply : string) (usage : Usage) (err : option error)
| Continue (usage : Usage).

Definition compact_step (s : ChatStream) : ChatStream :=
  if 0 <? contextWindowLimit s
  then set_messages (CompactMessages (messages s) (contextWindowLimit s)) s
  else s.

(** One round of [conversationLoop]. *)
Definition chat_round (roundNum : Z) (totalUsage : Usage) (s : ChatStream) (w : W)
  : go (round_result * ChatStream * W) :=
  match ctx_Err w with
  | Some e => Ret (Final "" totalUsage (Some e), s, w)
  | None =>
    let s := emitProgress (progress_ai ProgressAIStart roundNum "" 0) (compact_step s) in
    let '(out, w') := Chat is_print (fc s) (vals (messages s)) (aiTools s) w in
    let elapsed := now w' - now w in
    let w := w' in
    match out with
    | Panic => Panic
    | Ret (r, _) =>
      let s := emitProgress (progress_ai ProgressAIDone roundNum "" elapsed) s in
      match r with
      | Bad err => Ret (Final "" totalUsage (Some (ErrWrap "AI API call failed: " err)), s, w)
      | Good None => Panic
      | Good (Some resp) =>
        let totalUsage := add_usage totalUsage (resp_Usage resp) in
        match Choices resp with
        | [] => Ret (Final "" totalUsage (Some (ErrNew "AI returned empty response")), s, w)
        | choice :: _ =>
          let content := Content (choice_Message choice) in
          let reasoning := ReasoningContent (choice_Message choice) in
          let toolCalls := ToolCalls (choice_Message choice) in
          match toolCalls with
          | [] => Ret (Final content totalUsage None, push (plain "assistant" content) s, w)
          | _ :: _ =>
            let text := if decide (reasoning = "") then content else reasoning in
            let s := if decide (text = "") then s
                     else emitProgress (progress_ai ProgressAIDone roundNum text 0) s in
            let s := push (mkMessage "assistant" content reasoning "" toolCalls) s in
            let '(s, w) := fold_left (run_tool_call roundNum) toolCalls (s, w) in
            Ret (Continue totalUsage, s, w)
          end
        end
      end
    end
  end.

(** [n] rounds are left. *)
Fixpoint conversation_rounds (n : nat) (roundNum : Z) (totalUsage : Usage) (s : ChatStream) (w : W)
  : go (string * Usage * option error * ChatStream * W) :=
  match n with
  | O => Ret ("[incomplete] max tool-calling rounds reached", totalUsage, None, s, w)
  | Datatypes.S n' =>
    '(r, s, w) ← chat_round roundNum totalUsage s w;
    match r with
    | Final reply usage err => Ret (reply, usage, err, s, w)
    | Continue usage => conversation_rounds n' (roundNum + 1) usage s w
    end
  end.

Definition conversationLoop (s : ChatStream) (w : W)
  : go (string * Usage * option error * ChatStream * W) :=
  conversation_rounds (Z.to_nat chatMaxRounds) 1 (mkUsage 0 0 0) s w.

Definition HandleMessage (s : ChatStream) (input : string) (w : W)
  : go (string * Usage * option error * ChatStream * W) :=
  let s := push (plain "user" input) s in
  let s := set_messages (trimHistory (messages s)) s in
  let msgCount := len (messages s) in
  '(reply, usage, err, s, w) ← conversationLoop s w;
  match err with
  | Some e =>
    ms ← reslice (messages s) (msgCount - 1);
    Ret ("", usage, Some e, set_messages ms s, w)
  | None => Ret (reply, usage, None, s, w)
  end.

Definition Messages (s : ChatStream) : list Message := vals (messages s).

Definition Reset (s : ChatStream) : ChatStream :=
  match vals (messages s) with
  | m :: _ => set_messages (of_list (if bool_decide (Role m = "system") then [m] else [])) s
  | [] => set_messages (of_list []) s
  end.

(** ** Lemmas: how the history grows *)

(** From [s] to [s']: the configuration is kept, a history that was acceptable
    still is, and without a context limit messages are only added. *)
Record extends (s s' : ChatStream) : Prop := {
  ext_limit : contextWindowLimit s' = contextWindowLimit s;
  ext_fc : fc s' = fc s;
  ext_wf : slice_wf (messages s');
  ext_ok : history_ok (vals (messages s)) -> history_ok (vals (messages s'));
  ext_prefix : contextWindowLimit s <= 0 ->
    exists more, vals (messages s') = vals (messages s) ++ more
}.

Lemma extends_refl s : slice_wf (messages s) -> extends s s.
Proof. intros. split; try done. exists []. by rewrite app_nil_r. Qed.

Lemma extends_trans s1 s2 s3 : extends s1 s2 -> extends s2 s3 -> extends s1 s3.
Proof.
  intros [L1 F1 W1 O1 P1] [L2 F2 W2 O2 P2]. split; [congruence..|done|auto|].
  intros Hl. destruct (P1 Hl) as [m1 H1]. destruct P2 as [m2 H2]; [by rewrite L1|].
  exists (m1 ++ m2). by rewrite H2, H1, (assoc_L (++)).
Qed.

(** Adding whole exchanges. *)
Lemma extends_by s s' more :
  contextWindowLimit s' = contextWindowLimit s -> fc s' = fc s -> slice_wf (messages s') ->
  vals (messages s') = vals (messages s) ++ more -> answered more -> extends s s'.
Proof. intros ? ? ? Hv Ha. split; try done; [|eauto]. rewrite Hv. intros. by apply history_ok_app. Qed.

Lemma emitProgress_extends e s : slice_wf (messages s) -> extends s (emitProgress e s).
Proof. intros. apply (extends_by _ _ []); try done. cbn. by rewrite app_nil_r. Qed.

Lemma compact_step_extends s : slice_wf (messages s) -> extends s (compact_step s).
Proof.
  intros Hwf. unfold compact_step. case_match eqn:E; zbool; [|by apply extends_refl].
  split; cbn; try done; [| |lia].
  - unfold CompactMessages. repeat case_match; try done; try apply of_list_wf;
      unfold slice_wf, GoSlice.cap in *; cbn [arr len]; pose proof (stickyPrefix_bounds (vals (messages s)));
      zbool; unfold zlen in *; rewrite length_vals in * by done; lia.
  - intros Hok. split; [|by apply CompactMessages_answered; [|apply history_ok_head|apply Hok]].
    destruct Hok as [(p & r & Hp) _].
    destruct (decide ((1 < len (messages s))%nat)) as [Hl|Hl]; cycle 1.
    { unfold CompactMessages, zlen. rewrite length_vals by done. case_match; [by eexists p, _|].
      zbool. lia. }
    pose proof (CompactMessages_compacted _ _ Hwf Hl E) as Hc. rewrite Hp in *.
    assert (exists r', take (stickyPrefix (plain "system" p :: r)) (plain "system" p :: r)
      = plain "system" p :: r') as [r' Hst].
    { pose proof (stickyPrefix_bounds (plain "system" p :: r)).
      destruct (stickyPrefix _) as [|n]; [lia|]. by eexists. }
    destruct Hc as [?|?|k g h gs st Hh Hg _ _]; [by eexists p, _|by eexists p, _|].
    rewrite Hst. by eexists p, _.
Qed.

(** The responses the tool loop adds answer the calls, in order. *)
Definition responds (tc : ToolCall) (m : Message) : Prop :=
  is_tool m = true /\ ToolCallID m = tc_ID tc.

Lemma answers_responses tcs rs : Forall2 responds tcs rs -> answers (map tc_ID tcs) rs = Some [].
Proof.
  induction 1 as [|tc m tcs rs [Ht Hid] Hrs IH]; [done|]. cbn. unfold answer_step.
  rewrite Ht, decide_True by done. exact IH.
Qed.

Lemma run_tool_call_adds n s w tc :
  slice_wf (messages s) ->
  let s' := (run_tool_call n (s, w) tc).1 in
  contextWindowLimit s' = contextWindowLimit s /\ fc s' = fc s /\ slice_wf (messages s') /\
  exists m, vals (messages s') = vals (messages s) ++ [m] /\ responds tc m.
Proof.
  intros Hwf. unfold run_tool_call. destruct (chat_executeTool _ _ _ w) as [r w1]. cbn [fst].
  unfold push; cbn. split_and!; [done|done|by apply append_wf|].
  eexists. rewrite vals_append by done. by split.
Qed.

Lemma run_tool_calls_add n tcs s w :
  slice_wf (messages s) ->
  let s' := (fold_left (run_tool_call n) tcs (s, w)).1 in
  contextWindowLimit s' = contextWindowLimit s /\ fc s' = fc s /\ slice_wf (messages s') /\
  exists rs, vals (messages s') = vals (messages s) ++ rs /\ Forall2 responds tcs rs.
Proof.
  revert s w. induction tcs as [|tc tcs IH]; intros s w Hwf; cbn [fold_left].
  { split_and!; [done..|]. exists []. rewrite app_nil_r. split; [done|constructor]. }
  pose proof (run_tool_call_adds n s w tc Hwf) as Hadd. destruct (run_tool_call n (s, w) tc) as [s1 w1].
  destruct Hadd as (Hl & Hf & Hwf1 & m & Hm & Hr). cbn [fst] in *.
  destruct (IH s1 w1 Hwf1) as (Hl' & Hf' & Hwf' & rs & Hrs & Ha). split_and!; [congruence..|done|].
  exists (m :: rs). split; [by rewrite Hrs, Hm, <-(assoc_L (++))|by constructor].
Qed.

Lemma chat_round_extends n u s w r s' w' :
  slice_wf (messages s) -> chat_round n u s w = Ret (r, s', w') -> extends s s'.
Proof.
  intros Hwf. unfold chat_round. destruct (ctx_Err w); [intros [= <- <- <-]; by apply extends_refl|].
  set (s1 := emitProgress _ (compact_step s)).
  assert (extends s s1) as H1.
  { pose proof (compact_step_extends s Hwf) as Hc. eapply extends_trans; [done|].
    apply emitProgress_extends, Hc. }
  destruct (Chat _ _ _ _ w) as [[[r1 name]|] w1]; [|done].
  set (s2 := emitProgress _ s1).
  assert (extends s s2) as H2.
  { eapply extends_trans; [done|]. apply emitProgress_extends, H1. }
  destruct r1 as [[resp|]|err]; [|done|by intros [= <- <- <-]].
  destruct (Choices resp) as [|choice cs]; [by intros [= <- <- <-]|].
  destruct (ToolCalls (choice_Message choice)) as [|tc tcs] eqn:Htc.
  { intros [= <- <- <-]. eapply extends_trans; [exact H2|].
    apply (extends_by _ _ [plain "assistant" (Content (choice_Message choice))]); try done.
    - by apply append_wf, H2.
    - by apply vals_append, H2. }
  destruct (fold_left _ _ _) as [s4 w4] eqn:Hfold. intros [= <- <- <-].
  set (s3 := push _ _) in Hfold.
  assert (contextWindowLimit s3 = contextWindowLimit s2 /\ fc s3 = fc s2 /\ slice_wf (messages s3) /\
    vals (messages s3) = vals (messages s2) ++ [mkMessage "assistant" (Content (choice_Message choice))
      (ReasoningContent (choice_Message choice)) "" (tc :: tcs)]) as (HL & HF & HW & HV).
  { unfold s3, push. destruct (decide (_ = "")); cbn; split_and!;
      try done; try (by apply append_wf, H2); by rewrite vals_append by apply H2. }
  pose proof (run_tool_calls_add n (tc :: tcs) s3 w1 HW) as (HL' & HF' & HW' & rs & HV' & Hrs).
  rewrite Hfold in HL', HF', HW', HV'. cbn [fst] in *. eapply extends_trans; [exact H2|].
  eapply extends_by; [congruence..|done| |].
  - by rewrite HV', HV, <-(assoc_L (++)).
  - exact (answers_responses (tc :: tcs) rs Hrs).
Qed.

Lemma conversation_extends k n u s w reply usage err s' w' :
  slice_wf (messages s) -> conversation_rounds k n u s w = Ret (reply, usage, err, s', w') ->
  extends s s'.
Proof.
  revert n u s w. induction k as [|k IH]; intros n u s w Hwf; cbn [conversation_rounds].
  { intros [= <- <- <- <- <-]. by apply extends_refl. }
  destruct (chat_round n u s w) as [[[r s1] w1]|] eqn:Hr; cbn; [|done].
  pose proof (chat_round_extends _ _ _ _ _ _ _ Hwf Hr) as H1.
  destruct r; [by intros [= <- <- <- <- <-]|]. intros Hc. eapply extends_trans; [exact H1|].
  eapply IH, Hc. apply H1.
Qed.

(** The stream at the start of the conversation: the message is added, the
    history trimmed. *)
Definition started (s : ChatStream) (input : string) : ChatStream :=
  let s := push (plain "user" input) s in set_messages (trimHistory (messages s)) s.

Lemma started_spec s input :
  slice_wf (messages s) -> history_ok (vals (messages s)) ->
  exists ms, vals (messages (started s input)) = ms ++ [plain "user" input] /\
    slice_wf (messages (started s input)) /\ history_ok ms /\ zlen ms <= maxHistoryMessages /\
    (zlen (vals (messages s)) <= maxHistoryMessages -> ms = vals (messages s)).
Proof.
  intros Hwf Hok. unfold started, push; cbn.
  destruct (trimHistory_user (append (grow (messages s)) (messages s) (plain "user" input))
    (vals (messages s)) input) as (ms & Hv & Hok' & Hl & Heq); [by apply vals_append|done|].
  exists ms. split_and!; [done|by apply trimHistory_wf, append_wf|done..].
Qed.

(** The requests to the AI that the progress callback saw. *)
Definition is_ai_start (e : ProgressEvent) : nat :=
  match pe_Type e with ProgressAIStart => 1 | _ => 0 end.
Definition ai_requests (l : list ProgressEvent) : nat :=
  foldr (fun e n => is_ai_start e + n)%nat 0%nat l.

Lemma ai_requests_app l k : ai_requests (l ++ k) = (ai_requests l + ai_requests k)%nat.
Proof. unfold ai_requests. rewrite foldr_app. induction l as [|e l IH]; [done|]. cbn [foldr]. lia. Qed.

Lemma log_push m s : log (push m s) = log s.
Proof. reflexivity. Qed.
Lemma log_emitProgress e s : log (emitProgress e s) = log s ++ [e].
Proof. reflexivity. Qed.

Lemma run_tool_calls_requests n tcs s w :
  ai_requests (log (fold_left (run_tool_call n) tcs (s, w)).1) = ai_requests (log s).
Proof.
  revert s w. induction tcs as [|tc tcs IH]; intros s w; [done|]. cbn [fold_left].
  destruct (run_tool_call n (s, w) tc) as [s1 w1] eqn:E. rewrite IH. revert E.
  unfold run_tool_call. destruct (chat_executeTool _ _ _ w) as [r w2]. intros [= <- <-].
  rewrite log_push, !log_emitProgress, !ai_requests_app. cbn. lia.
Qed.

Lemma chat_round_requests n u s w r s' w' :
  chat_round n u s w = Ret (r, s', w') -> (ai_requests (log s') <= 1 + ai_requests (log s))%nat.
Proof.
  assert (log (compact_step s) = log s) as Hc by (unfold compact_step; by case_match).
  unfold chat_round. destruct (ctx_Err w); [intros [= <- <- <-]; lia|].
  destruct (Chat _ _ _ _ w) as [[[[[resp|]|e] name]|] w1]; cbn; try done;
    [|intros [= <- <- <-]; rewrite ?log_push, !log_emitProgress, !ai_requests_app, Hc; cbn; lia].
  destruct (Choices resp) as [|choice cs];
    [intros [= <- <- <-]; rewrite ?log_push, !log_emitProgress, !ai_requests_app, Hc; cbn; lia|].
  destruct (ToolCalls (choice_Message choice)) as [|tc tcs];
    [intros [= <- <- <-]; rewrite ?log_push, !log_emitProgress, !ai_requests_app, Hc; cbn; lia|].
  destruct (fold_left _ _ _) as [s4 w4] eqn:Hfold. intros [= <- <- <-].
  apply (f_equal (fun p => ai_requests (log p.1))) in Hfold.
  rewrite (run_tool_calls_requests n (tc :: tcs)) in Hfold. cbn [fst] in Hfold. rewrite <-Hfold.
  case_decide; rewrite log_push, !log_emitProgress, !ai_requests_app, Hc; cbn; lia.
Qed.

Lemma conversation_requests k n u s w reply usage err s' w' :
  conversation_rounds k n u s w = Ret (reply, usage, err, s', w') ->
  (ai_requests (log s') <= ai_requests (log s) + k)%nat.
Proof.
  revert n u s w. induction k as [|k IH]; intros n u s w; cbn [conversation_rounds].
  { intros [= <- <- <- <- <-]. lia. }
  destruct (chat_round n u s w) as [[[r s1] w1]|] eqn:Hr; cbn; [|done].
  apply chat_round_requests in Hr. destruct r; [intros [= <- <- <- <- <-]; lia|].
  intros Hc%IH. lia.
Qed.

(** ** Properties *)

(** One message of the user costs at most [chatMaxRounds] requests to the AI,
    however many tools it calls. *)
Theorem HandleMessage_bounded_requests s input w reply usage err s' w'
    (Hrun : HandleMessage s input w = Ret (reply, usage, err, s', w')) :
  Z.of_nat (ai_requests (log s')) <= Z.of_nat (ai_requests (log s)) + chatMaxRounds.
Proof.
  revert Hrun. unfold HandleMessage, conversationLoop. fold (started s input).
  destruct (conversation_rounds _ _ _ _ w) as [[[[[reply1 usage1] err1] s1] w1]|] eqn:Hc;
    cbn [mbind go_bind]; [|done].
  apply conversation_requests in Hc. unfold chatMaxRounds in *.
  change (log (started s input)) with (log s) in Hc.
  destruct err1 as [e|]; [|intros [= <- <- <- <- <-]; lia].
  destruct (reslice _ _); cbn [mbind go_bind]; [|done]. intros [= <- <- <- <- <-]. cbn [log set_messages]. lia.
Qed.

(** C3: A chat whose history is acceptable to the AI keeps one: after an answer, or
    after an error when no context limit is set, the history starts with the
    system prompt and answers every tool call in order. *)
Theorem HandleMessage_keeps_history_ok s input w reply usage err s' w'
    (Hwf : slice_wf (messages s)) (Hok : history_ok (vals (messages s)))
    (Hrun : HandleMessage s input w = Ret (reply, usage, err, s', w'))
    (Herr : err = None \/ contextWindowLimit s <= 0) :
  slice_wf (messages s') /\ history_ok (vals (messages s')).
Proof.
  destruct (started_spec s input Hwf Hok) as (ms & Hv & Hwf1 & Hok1 & _).
  revert Hrun. unfold HandleMessage, conversationLoop. fold (started s input).
  destruct (conversation_rounds _ _ _ _ w) as [[[[[reply1 usage1] err1] s1] w1]|] eqn:Hc; cbn [mbind go_bind]; [|done].
  pose proof (conversation_extends _ _ _ _ _ _ _ _ _ _ Hwf1 Hc) as [Hlim _ Hwf2 Hok2 Hpre].
  destruct err1 as [e|]; cycle 1.
  { intros [= <- <- <- <- <-]. split; [done|]. apply Hok2. rewrite Hv. by apply history_ok_app. }
  destruct (reslice _ _) as [sl|] eqn:Hre; cbn [mbind go_bind]; [|done]. intros [= <- <- <- <- <-].
  destruct Herr as [[=]|Hl]. cbn. split; [by eapply reslice_wf|].
  destruct (Hpre Hl) as [more Hmore]. pose proof (length_vals _ Hwf1) as Hlen1.
  pose proof (length_vals _ Hwf2) as Hlen2. rewrite Hv in Hlen1. rewrite Hmore, Hv in Hlen2.
  rewrite !length_app in *. cbn [length] in *.
  rewrite (vals_reslice _ _ _ Hre) by lia. rewrite Hmore, Hv, <-(assoc_L (++)).
  rewrite <-Hlen1. replace (length ms + 1 - 1)%nat with (length ms) by lia. by rewrite take_app_length.
Qed.

(** C12: Without a context limit, with models that answer or fail and a number of
    retries that is not negative, handling a message of a chat of at most 40
    messages never panics, and an error takes the message back: the history is
    what it was before. *)
Theorem HandleMessage_rolls_back s input w
    (Hwf : slice_wf (messages s)) (Hok : history_ok (vals (messages s)))
    (Hlim : contextWindowLimit s <= 0) (Hfc : fc_wf (fc s)) (Hretry : 0 <= rc_MaxRetries (retryCfg (fc s)))
    (Hshort : zlen (vals (messages s)) <= maxHistoryMessages) :
  exists reply usage err s' w', HandleMessage s input w = Ret (reply, usage, err, s', w') /\
    (err <> None -> vals (messages s') = vals (messages s)).
Proof.
  destruct (started_spec s input Hwf Hok) as (ms & Hv & Hwf1 & Hok1 & _ & Hms).
  specialize (Hms Hshort). subst ms.
  assert (forall k n u s1 w1, fc s1 = fc s -> slice_wf (messages s1) ->
    exists r, conversation_rounds k n u s1 w1 = Ret r) as Htotal.
  { clear -Hfc Hretry. induction k as [|k IH]; intros n u s1 w1 Hf Hw; cbn; [by eexists|].
    assert (exists r s2 w2, chat_round n u s1 w1 = Ret (r, s2, w2)) as (r & s2 & w2 & Hr).
    { unfold chat_round. destruct (ctx_Err w1); [by eexists _, _, _|].
      destruct (Chat_total is_print (fc (emitProgress (progress_ai ProgressAIStart n "" 0) (compact_step s1)))
        (vals (messages (emitProgress (progress_ai ProgressAIStart n "" 0) (compact_step s1))))
        (aiTools (emitProgress (progress_ai ProgressAIStart n "" 0) (compact_step s1))) w1)
        as (r & name & w2 & Hc & Hr); [|
          |rewrite Hc; repeat (case_match; simplify_eq/=); by eexists _, _, _].
      all: destruct (compact_step_extends s1 Hw) as [_ HF _ _ _]; cbn; by rewrite HF, Hf. }
    rewrite Hr. cbn. pose proof (chat_round_extends _ _ _ _ _ _ _ Hw Hr) as [_ HF HW _ _].
    destruct r; [by eexists|]. apply IH; [congruence|done]. }
  unfold HandleMessage, conversationLoop. fold (started s input).
  destruct (Htotal (Z.to_nat chatMaxRounds) 1 (mkUsage 0 0 0) (started s input) w eq_refl Hwf1)
    as ([[[[reply usage] err] s1] w1] & Hc). rewrite Hc. cbn [mbind go_bind].
  pose proof (conversation_extends _ _ _ _ _ _ _ _ _ _ Hwf1 Hc) as [_ _ Hwf2 _ Hpre].
  destruct err as [e|]; [|by eexists _, _, _, _, _].
  destruct (Hpre Hlim) as [more Hmore]. pose proof (length_vals _ Hwf1) as Hlen1.
  pose proof (length_vals _ Hwf2) as Hlen2. rewrite Hv in Hlen1. rewrite Hmore, Hv in Hlen2.
  rewrite !length_app in *. cbn [length] in *.
  destruct (reslice (messages s1) _) as [sl|] eqn:Hre; cbn [mbind go_bind].
  - eexists _, _, _, _, _. split; [done|]. intros _. cbn.
    rewrite (vals_reslice _ _ _ Hre) by lia. rewrite Hmore, Hv, <-(assoc_L (++)).
    rewrite <-Hlen1. replace (length (vals (messages s)) + 1 - 1)%nat with (length (vals (messages s))) by lia.
    by rewrite take_app_length.
  - unfold reslice in Hre. case_decide as Hn; [done|].
    unfold slice_wf, GoSlice.cap in *. lia.
Qed.
End chat.

(** ** Rolling back after a compaction *)

(** A chat with a context limit of 36 tokens.  At the next message compaction
    drops the answer to [first] and the question [second] and moves the history
    to a new, shorter array. *)
Definition long_answer : string :=
  "The disk is filling up because the rotated logs under /var/log are never removed by anyone here.".
Definition limited_chat : ChatStream (M := unit) (W := Script) (S := unit) (A := unit) (I := unit) :=
  mkChatStream (two_models 0) NewToolRegistry [] 
    (of_list [plain "system" "You help."; plain "user" "first"; plain "assistant" long_answer;
      plain "user" "second"; plain "assistant" "short answer"])
    None 36 [].

Definition handle_limited (script : Script) :=
  HandleMessage (fun _ => true) "linux" [] (fun _ => None) (fun _ => 0) (fun s => vals s) limited_chat "third" script.

(** An error of the AI after a compaction makes the rollback slice the new
    history beyond its capacity: handling the message panics. *)
Theorem rollback_after_compaction_panics :
  history_ok (vals (messages limited_chat)) /\
  handle_limited [Bad (ErrAPI 400 "bad request")] = Panic.
Proof. split; [split; [by eexists _, _|done]|vm_compute; reflexivity]. Qed.

(** ** Witnesses: a chat without a context limit *)

Definition free_chat : ChatStream (M := unit) (W := Script) (S := unit) (A := unit) (I := unit) :=
  mkChatStream (two_models 0) NewToolRegistry [] (of_list [plain "system" "You help."]) None 0 [].
Definition handle_free (script : Script) :=
  HandleMessage (fun _ => true) "linux" [] (fun _ => None) (fun _ => 0) (fun s => vals s) free_chat "Is the disk full?" script.

(** The AI lists the tools, then answers. *)
Definition ex_script : Script := [calls "1" "list_tool_categories" "{}"; says "No."].

Lemma handle_free_runs : exists reply usage s' w',
  handle_free ex_script = Ret (reply, usage, None, s', w') /\ length (vals (messages s')) = 5%nat.
Proof. eexists _, _, _, _. split; vm_compute; reflexivity. Qed.

Lemma HandleMessage_bounded_requests_witness :
  exists reply usage s' w', handle_free ex_script = Ret (reply, usage, None, s', w') /\
    Z.of_nat (ai_requests (log s')) <= 0 + chatMaxRounds.
Proof.
  destruct handle_free_runs as (reply & usage & s' & w' & Hrun & _).
  exists reply, usage, s', w'. split; [exact Hrun|].
  exact (HandleMessage_bounded_requests _ _ _ _ _ _ free_chat _ _ _ _ _ _ _ Hrun).
Defined.

Lemma HandleMessage_keeps_history_ok_witness :
  exists reply usage s' w', handle_free ex_script = Ret (reply, usage, None, s', w') /\
    length (vals (messages s')) = 5%nat /\ history_ok (vals (messages s')).
Proof.
  destruct handle_free_runs as (reply & usage & s' & w' & Hrun & Hlen).
  exists reply, usage, s', w'. split; [exact Hrun|]. split; [exact Hlen|].
  refine (proj2 (HandleMessage_keeps_history_ok _ _ _ _ _ _ free_chat _ _ _ _ _ _ _ _ _ Hrun _)).
  - apply of_list_wf.
  - split; [by eexists _, _|reflexivity].
  - left. reflexivity.
Defined.

(** The AI calls a tool, then refuses: the history is the system prompt again. *)
Lemma HandleMessage_rolls_back_witness :
  exists reply usage err s' w',
    handle_free [calls "1" "list_tool_categories" "{}"; Bad (ErrAPI 400 "bad request")]
      = Ret (reply, usage, err, s', w') /\
    (err <> None -> vals (messages s') = [plain "system" "You help."]).
Proof.
  apply (HandleMessage_rolls_back (fun _ => true) "linux" [] (fun _ => None) (fun _ => 0) (fun s => vals s) free_chat
    "Is the disk full?"); [apply of_list_wf| |reflexivity|repeat constructor; by eexists|discriminate|discriminate].
  split; [by eexists _, _|reflexivity].
Defined.
