(* ===== verification/ChatHost.v ===== *)
(** * Chats on the host (chat/snapshot.go, prompt.go, shell.go, terminal_io.go, chat.go)

    What surrounds a [ChatStream] on the monitored machine: the snapshot and the
    system prompt it starts from, the commands it may run after the user agreed,
    and the loop of the terminal.  [W] is the world the tools and the AI see. *)
From S2P Require Import Prelude GoStr GoLib GoConv Types GoFmt DiagTypes GoSlice AiClient Failover Report Registry Executor Chat.
#[local] Open Scope Z_scope.
#[local] Open Scope go_scope.

Definition dq (s : string) : string := dquote +:+ s +:+ dquote.

(** ** The snapshot (snapshot.go) *)
Record baselineDef := mkBaseline { bl_name : string; bl_label : string }.
Definition baselineTools : list baselineDef :=
  [mkBaseline "cpu_usage" "CPU"; mkBaseline "cpu_load_average" "Load"; mkBaseline "mem_usage" "Memory";
   mkBaseline "swap_usage" "Swap"; mkBaseline "disk_usage" "Disk";
   mkBaseline "filefd_usage" "File Descriptors"; mkBaseline "psi_check" "PSI"].
Definition maxSnapshotBytes : Z := 8000.
Definition maxPerToolBytes : Z := 2000.

(** The output of a tool that answered in time, made presentable. *)
Definition present_output (output : string) : string :=
  if bool_decide (output = "") || negb (ValidString output) then ""
  else
    TrimSpace (if maxPerToolBytes <? slen output
               then TruncateUTF8 output maxPerToolBytes +:+ newline +:+ "...[truncated]" else output).

(** The loop that writes the sections, up to the first one that does not fit. *)
Fixpoint snapshot_sections (results : list (string * string)) (totalLen : Z) : string :=
  match results with
  | [] => ""
  | (label, output) :: results' =>
    if decide (output = "") then snapshot_sections results' totalLen
    else
      let section := "### " +:+ label +:+ newline +:+ output +:+ newline in
      if maxSnapshotBytes <? totalLen + slen section then ""
      else section +:+ snapshot_sections results' (totalLen + slen section)
  end.

Section snapshot.
Context {W S A I : Type}.
Implicit Types registry : ToolRegistry W S A I.

(** What runs for a baseline tool, if it may run here. *)
Definition baseline_execute registry (def : baselineDef) : option (W -> gomap string -> res string string * W) :=
  match Get registry (bl_name def) with
  | None => None
  | Some tool => if decide (tool_Scope tool = ToolScopeRemote) then None else Execute tool
  end.

(** [timely i]: the i-th tool neither panics nor runs out of time; otherwise its
    output is lost. *)
Definition runBaselineTool registry (timely : nat -> bool) (acc : gmap nat string * W) (i : nat)
  : gmap nat string * W :=
  match baselineTools !! i ≫= baseline_execute registry with
  | None => acc
  | Some f =>
    let '(r, w) := f acc.2 None in
    let output := match r with Good out => if timely i then present_output out else "" | Bad _ => "" end in
    (if decide (output = "") then acc.1 else <[i := output]> acc.1, w)
  end.

(** [order] is the order in which the goroutines run. *)
Definition CollectSnapshot registry (timely : nat -> bool) (order : list nat) (w : W) : string * W :=
  let '(results, w) := fold_left (runBaselineTool registry timely) order (∅, w) in
  (TrimSpace (snapshot_sections
     (map (fun p => (bl_label p.2, default "" (results !! p.1))) (zip (seq 0 (length baselineTools)) baselineTools)) 0), w).
End snapshot.

(** ** The system prompt (prompt.go) *)

Record chatPromptData := mkChatPrompt {
  cp_Hostname : string;
  cp_IP : string;
  cp_OS : string;
  cp_Arch : string;
  cp_Kernel : string;
  cp_ToolCatalog : string;
  cp_SystemSnapshot : string;
  cp_Language : string;
  cp_AllowShell : bool
}.

(** Lines, each preceded by a line break. *)
Definition lines (l : list string) : string := foldr (fun s t => newline +:+ s +:+ t) "" l.

Definition chat_template (d : chatPromptData) : string :=
  "你是 catpaw 运维助手，运行在主机 " +:+ cp_Hostname d +:+ "（" +:+ cp_IP d +:+ "）上。"
  +:+ newline +:+ "操作系统: " +:+ cp_OS d +:+ " " +:+ cp_Arch d +:+ " " +:+ cp_Kernel d
  +:+ lines [""; "用户通过 SSH 登录了这台机器，正在与你对话排查问题。"]
  +:+ (if bool_decide (cp_SystemSnapshot d = "") then ""
       else lines [""; "## 系统快照（启动时自动采集）"; ""; cp_SystemSnapshot d])
  +:+ lines [""; "## 可用诊断工具"; ""; "以下是所有已注册的诊断工具，你可以直接调用："; ""; cp_ToolCatalog d; "";
       "调用方式：call_tool(name=" +:+ dq "工具名" +:+ ", tool_args='{" +:+ dq "参数名" +:+ ":" +:+ dq "值" +:+ "}')";
       "示例：call_tool(name=" +:+ dq "disk_usage" +:+ ", tool_args='{}')"]
  +:+ (if cp_AllowShell d
       then lines ["你还可以调用 exec_shell(command=" +:+ dq "命令" +:+ ") 执行任意 shell 命令。"] else "")
  +:+ lines [""; "## 工作原则"; ""; "- 回答问题时优先使用工具获取实时数据，不要猜测或编造";
       "- **需要多个领域数据时，在同一轮中并行调用多个工具**，不要逐个调用";
       "  例如排查" +:+ dq "机器为什么慢" +:+ "时，一次性调用 cpu_usage、memory_usage、disk_usage 等";
       "- 回答简洁，关键数值内嵌到分析中";
       "- 如果用户的问题不需要工具就能回答（尤其是系统快照中已有的信息），直接回答";
       "- 如果用户的问题超出你的工具能力范围，坦诚告知"]
  +:+ (if cp_AllowShell d then lines ["- exec_shell 可以执行任意命令，适合内置工具无法满足的场景"] else "")
  +:+ newline +:+ "- 默认使用 " +:+ cp_Language d +:+ " 回复，但如果用户要求切换语言，按用户要求输出".

(** An address of [net.InterfaceAddrs]. *)
Record IfaceAddr := mkAddr { addr_isIPNet : bool; addr_IsLoopback : bool; addr_is4 : bool; addr_text : string }.

Section prompt.
(** [execCommand]: the output of a command that succeeded; the addresses of the
    interfaces. *)
Variable execCommand : string -> list string -> option string.
Variable InterfaceAddrs : option (list IfaceAddr).

Definition first_address : string :=
  match InterfaceAddrs with
  | None => "unknown"
  | Some addrs =>
    match filter (fun a => addr_isIPNet a && negb (addr_IsLoopback a) && addr_is4 a = true) addrs with
    | a :: _ => addr_text a
    | [] => "unknown"
    end
  end.

Definition getLocalIP : string :=
  let out := match execCommand "hostname" ["-I"] with Some o => Some o | None => execCommand "hostname" ["-i"] end in
  match out with
  | Some o => match Fields (TrimSpace o) with p :: _ => p | [] => first_address end
  | None => first_address
  end.

Definition getKernelVersion : string :=
  match execCommand "uname" ["-r"] with Some out => TrimSpace out | None => "unknown" end.

Definition BuildChatSystemPrompt {W S : Type} (hostname goos goarch : string)
    (order : list (string * ToolCategory W S)) (snapshot language : string) (allowShell : bool) : string :=
  chat_template (mkChatPrompt hostname getLocalIP goos goarch getKernelVersion (ListToolCatalogSmart order)
    snapshot (if decide (language = "") then "中文" else language) allowShell).
End prompt.

(** ** Shell commands (shell.go) *)
Definition maxShellOutputBytes : Z := 4 * 1024.
Definition maxShellCaptureBytes : Z := 256 * 1024.

Record cappedWriter := mkWriter { buf : string; cap : Z }.

(** The number of bytes reported as written, and the writer. *)
Definition Write (w : cappedWriter) (p : string) : Z * cappedWriter :=
  let remaining := cap w - slen (buf w) in
  if remaining <=? 0 then (slen p, w)
  else if remaining <? slen p then (slen p, mkWriter (buf w +:+ stake (Z.to_nat remaining) p) (cap w))
  else (slen p, mkWriter (buf w +:+ p) (cap w)).

Definition write_all (w : cappedWriter) (ps : list string) : cappedWriter := fold_left (fun w p => (Write w p).2) ps w.

Definition truncateShellOutput (s : string) : string :=
  if slen s <=? maxShellOutputBytes then s
  else TruncateUTF8 s maxShellOutputBytes +:+ newline +:+ "...[output truncated]".

(** What a started process does: the pieces it writes, and how it ends. *)
Record Process := mkProcess {
  p_stdout : list string;
  p_stderr : list string;
  p_err : option string;
  p_timedOut : bool
}.

(** [run] starts the command: an error text, or the process. *)
Definition ExecShell {W : Type} (ctx_Err : W -> option error) (run : string -> W -> res string Process * W)
    (command : string) (timeout : Z) (w : W) : res string string * W :=
  match ctx_Err w with
  | Some _ => (Bad "context cancelled, command not executed", w)
  | None =>
    let '(r, w) := run command w in
    (match r with
     | Bad err => Good ("[exit] " +:+ err)
     | Good p =>
       if p_timedOut p then Good ("command timed out (" +:+ Duration_String timeout +:+ "), process killed")
       else
         let output := buf (write_all (mkWriter "" maxShellCaptureBytes) (p_stdout p)) in
         let errOut := buf (write_all (mkWriter "" maxShellCaptureBytes) (p_stderr p)) in
         let output :=
           if decide (errOut = "") then output
           else (if decide (output = "") then output else output +:+ newline) +:+ "[stderr] " +:+ errOut in
         let output := match p_err p with Some err => output +:+ newline +:+ "[exit] " +:+ err | None => output end in
         Good (truncateShellOutput output)
     end, w)
  end.

(** ** Asking the user (terminal_io.go) *)

(** What [Readline] returns: a line, an interrupt with what was typed, the end of
    the input, or another error. *)
Inductive readline := Line (s : string) | Interrupted (typed : string) | EndOfInput | ReadError.

(** Whether the program ends, the command is refused, or which command runs. *)
Inductive decision := ExitProgram | Refused | RunCommand (command : string).

(** [lines] are what the user will enter; the decision, whether commands are
    approved from now on, and the lines not read yet. *)
Definition decide_shell (autoApprove : bool) (command : string) (input : list readline)
  : decision * bool * list readline :=
  if autoApprove then (RunCommand command, true, input)
  else
    match input with
    | [] | Interrupted _ :: _ | EndOfInput :: _ => (ExitProgram, false, [])
    | ReadError :: input' => (Refused, false, input')
    | Line line :: input' =>
      let answer := TrimSpace (ToLower line) in
      if bool_decide (answer ∈ ["y"; "yes"]) then (RunCommand command, false, input')
      else if bool_decide (answer ∈ ["a"; "all"]) then (RunCommand command, true, input')
      else if bool_decide (answer ∈ ["e"; "edit"]) then
        match input' with
        | [] | Interrupted _ :: _ | EndOfInput :: _ => (ExitProgram, false, [])
        | ReadError :: input'' => (Refused, false, input'')
        | Line edited :: input'' =>
          let cmd := TrimSpace edited in
          if decide (cmd = "") then (Refused, false, input'') else (RunCommand cmd, false, input'')
        end
      else (Refused, false, input')
    end.

(** ** The terminal (chat.go) *)
Section repl.
Context {M W S A I : Type} `{!ChatBackend M W} `{!JsonCodec}.
Variable is_print : Z -> bool.
Variable goos : string.
Variable order : list (string * ToolCategory W S).
Variable ctx_Err : W -> option error.
Variable now : W -> Z.
Variable grow : slice Message -> list Message.

Definition set_fc (f : FailoverClient M) (s : ChatStream (M := M) (W := W) (S := S) (A := A) (I := I)) : ChatStream :=
  mkChatStream f (registry s) (aiTools s) (messages s) (shellExecutor s) (contextWindowLimit s) (log s).

(** Whether the input was a command, and the client it leaves; what is printed
    is left out. *)
Definition handleSlashCommand (input : string) (f : FailoverClient M) : bool * FailoverClient M :=
  if decide (input = "/models") then (true, f)
  else if IsGateway f && HasPrefix input "/model" then (true, f)
  else if decide (input = "/model auto") then (true, (PinModel is_print f "").2)
  else if HasPrefix input "/model " then
    let name := TrimSpace (sdrop 7 input) in
    if decide (name = "") then (true, f) else (true, (PinModel is_print f name).2)
  else (false, f).

(** What the loop prints for a message. *)
Inductive said := Reply (text : string) (usage : Usage) | Failed (err : error).

(** The loop over the lines of the user; it panics when handling a message does. *)
Fixpoint repl_loop (s : ChatStream (M := M) (W := W) (S := S) (A := A) (I := I)) (input : list readline) (w : W)
  : go (list said * ChatStream * W) :=
  match input with
  | [] => Ret ([], s, w)
  | Interrupted typed :: input' => if decide (typed = "") then Ret ([], s, w) else repl_loop s input' w
  | EndOfInput :: _ | ReadError :: _ => Ret ([], s, w)
  | Line line :: input' =>
    let text := TrimSpace line in
    if decide (text = "") then repl_loop s input' w
    else if bool_decide (text ∈ ["exit"; "quit"]) then Ret ([], s, w)
    else
      let '(handled, f) := handleSlashCommand text (fc s) in
      if handled then repl_loop (set_fc f s) input' w
      else
        '(reply, usage, err, s, w) ← HandleMessage is_print goos order ctx_Err now grow s text w;
        '(out, s, w) ← repl_loop s input' w;
        Ret ((match err with Some e => Failed e | None => Reply reply usage end) :: out, s, w)
  end.
End repl.

(** ** Lemmas *)

Lemma slen_concat_drop l : slen (concat_bytes (drop_spaces l)) <= slen (concat_bytes l).
Proof.
  induction l as [|[r b] l IH]; [done|]. cbn [drop_spaces concat_bytes]. rewrite slen_app.
  pose proof (slen_nonneg b). case_match; [lia|]. cbn [concat_bytes]. rewrite slen_app. lia.
Qed.

Lemma slen_concat_reverse l : slen (concat_bytes (reverse l)) = slen (concat_bytes l).
Proof.
  induction l as [|[r b] l IH]; [done|].
  rewrite reverse_cons, concat_bytes_app. cbn [concat_bytes]. rewrite !slen_app, slen_empty, IH. lia.
Qed.

Lemma slen_TrimSpace s : slen (TrimSpace s) <= slen s.
Proof.
  unfold TrimSpace. rewrite slen_concat_reverse. etrans; [apply slen_concat_drop|].
  rewrite slen_concat_reverse. etrans; [apply slen_concat_drop|]. by rewrite concat_segments.
Qed.

Lemma snapshot_sections_bound results n :
  0 <= n <= maxSnapshotBytes -> n + slen (snapshot_sections results n) <= maxSnapshotBytes.
Proof.
  revert n. induction results as [|[label output] results IH]; intros n Hn; cbn [snapshot_sections].
  { rewrite slen_empty. lia. }
  case_decide; [by apply IH|]. set (section := "### " +:+ _). pose proof (slen_nonneg section).
  destruct (_ <? _) eqn:E; zbool; [rewrite slen_empty; lia|].
  rewrite slen_app. specialize (IH (n + slen section)). lia.
Qed.

Lemma write_all_prefix w ps :
  slen (buf w) <= cap w ->
  buf (write_all w ps) = stake (Z.to_nat (cap w)) (buf w +:+ foldr String.append "" ps).
Proof.
  revert w. induction ps as [|p ps IH]; intros w Hw; cbn [write_all fold_left foldr].
  { rewrite string_app_nil_r, stake_all; [done|]. unfold slen in Hw. lia. }
  fold (write_all (Write w p).2 ps). rewrite <-string_app_assoc. unfold Write.
  pose proof (slen_app (buf w) p) as Hl. unfold slen in *.
  destruct (_ <=? 0) eqn:E1; cbn [snd]; zbool.
  - rewrite IH by (unfold slen; lia).
    by rewrite !stake_app by lia.
  - destruct (_ <? _) eqn:E2; cbn [snd]; zbool.
    + set (q := stake (Z.to_nat (cap w - Z.of_nat (String.length (buf w)))) p).
      assert (String.length (buf w +:+ q) = Z.to_nat (cap w)) as Hq.
      { pose proof (slen_app (buf w) q) as Hl2. unfold q in *. rewrite slen_stake in Hl2. unfold slen in *. lia. }
      rewrite IH by (cbn; unfold slen; lia). cbn [buf cap].
      rewrite stake_app, stake_all by lia. rewrite stake_app by lia.
      unfold q. rewrite stake_app_long by lia. do 2 f_equal. lia.
    + rewrite IH; cbn [buf cap]; [done|unfold slen; lia].
Qed.

(** ** Properties *)

(** Output of a command is captured up to a cap: what is kept is the beginning
    of all that was written, and every write is reported as complete. *)
Theorem cappedWriter_keeps_prefix cap0 ps (Hc : 0 <= cap0) :
  buf (write_all (mkWriter "" cap0) ps) = stake (Z.to_nat cap0) (foldr String.append "" ps) /\
  forall w p, (Write w p).1 = slen p.
Proof.
  split.
  - rewrite write_all_prefix by (cbn; rewrite slen_empty; lia). done.
  - intros w p. unfold Write. by repeat case_match.
Qed.

(** The AI never gets more of a command's output than the limit and the remark
    that it was cut. *)
Theorem ExecShell_bounded {W} (ctx_Err : W -> option error) run command timeout w out w'
    (Hrun : ExecShell ctx_Err run command timeout w = (Good out, w')) :
  slen out <= maxShellOutputBytes + slen (newline +:+ "...[output truncated]") \/
  exists err, out = "[exit] " +:+ err \/ out = "command timed out (" +:+ Duration_String timeout +:+ "), process killed".
Proof.
  revert Hrun. unfold ExecShell. destruct (ctx_Err w); [done|].
  destruct (run command w) as [[p|err] w1]; [|intros [= <- <-]; right; by eauto].
  destruct (p_timedOut p); [intros [= <- <-]; right; exists ""; by right|].
  set (output := match p_err p with Some _ => _ | None => _ end). intros [= <- <-]. left.
  unfold truncateShellOutput. pose proof (slen_nonneg (newline +:+ "...[output truncated]")).
  destruct (slen output <=? _) eqn:E; zbool; [lia|].
  pose proof (slen_TruncateUTF8 output maxShellOutputBytes ltac:(done)). rewrite slen_app. lia.
Qed.

(** The snapshot the chat starts with stays within its limit, whatever the tools
    print and in whatever order they finish. *)
Theorem CollectSnapshot_bounded {W S A I} (registry : ToolRegistry W S A I) timely order w :
  slen (CollectSnapshot registry timely order w).1 <= maxSnapshotBytes.
Proof.
  unfold CollectSnapshot. destruct (fold_left _ _ _) as [results w'].
  etrans; [apply slen_TrimSpace|]. pose proof (snapshot_sections_bound
    (map (fun p => (bl_label p.2, default "" (results !! p.1))) (zip (seq 0 (length baselineTools)) baselineTools)) 0) as H.
  cbn [fst] in *. unfold maxSnapshotBytes in *. lia.
Qed.

(** A command the AI asks for runs only when the user agreed: by approving all,
    by approving it, or by entering another command, which runs instead. *)
Theorem decide_shell_approved auto command input c auto' rest
    (Hrun : decide_shell auto command input = (RunCommand c, auto', rest)) :
  (auto = true /\ c = command) \/
  exists line input', input = Line line :: input' /\
    let answer := TrimSpace (ToLower line) in
    (answer ∈ ["y"; "yes"] /\ c = command /\ auto' = false) \/
    (answer ∈ ["a"; "all"] /\ c = command /\ auto' = true) \/
    (answer ∈ ["e"; "edit"] /\ auto' = false /\
     exists edited, input' = Line edited :: rest /\ c = TrimSpace edited /\ c <> "").
Proof.
  revert Hrun. unfold decide_shell. destruct auto; [intros [= <- <- <-]; by left|].
  destruct input as [|[line|typed| |] input]; try done. cbv zeta.
  destruct (bool_decide_reflect (TrimSpace (ToLower line) ∈ ["y"; "yes"])) as [Hy|_].
  { intros [= <- <- <-]. right. exists line, input. split; [done|]. by left. }
  destruct (bool_decide_reflect (TrimSpace (ToLower line) ∈ ["a"; "all"])) as [Ha|_].
  { intros [= <- <- <-]. right. exists line, input. split; [done|]. right. by left. }
  destruct (bool_decide_reflect (TrimSpace (ToLower line) ∈ ["e"; "edit"])) as [He|_]; [|done].
  destruct input as [|[edited|typed| |] input]; try done. case_decide as Hne; [done|].
  intros [= <- <- <-]. right. exists line, (Line edited :: input). split; [done|]. right. right.
  split_and!; [done|done|]. by exists edited.
Qed.

Lemma cappedWriter_keeps_prefix_witness :
  buf (write_all (mkWriter "" 5) ["abc"; "def"; "g"]) = "abcde" /\ (Write (mkWriter "abcde" 5) "xyz").1 = 3.
Proof.
  destruct (cappedWriter_keeps_prefix 5 ["abc"; "def"; "g"] ltac:(lia)) as [Hb Hw].
  split; [rewrite Hb; reflexivity|rewrite Hw; reflexivity].
Defined.

(** The user edits the command, in capitals. *)
Lemma decide_shell_approved_witness :
  exists line input', [Line "E"; Line " df -h "] = Line line :: input' /\
    TrimSpace (ToLower line) ∈ ["e"; "edit"].
Proof.
  destruct (decide_shell_approved false "rm -rf /" [Line "E"; Line " df -h "] "df -h" false [] eq_refl)
    as [[[=] _]|(line & input' & Hi & [[Hy _]|[[Ha _]|[He _]]])].
  - exfalso. injection Hi as <- <-. revert Hy. rewrite !elem_of_cons, elem_of_nil. vm_compute. intros [?|[?|?]]; done.
  - exfalso. injection Hi as <- <-. revert Ha. rewrite !elem_of_cons, elem_of_nil. vm_compute. intros [?|[?|?]]; done.
  - by exists line, input'.
Defined.
