(* ===== verification/DiagEngine.v ===== *)
(** * The diagnosis engine (digcore/diagnose/engine.go)

    [Submit] admits a request, [RunDiagnose] runs it: a conversation in which
    the AI calls tools until it reports, a record on disk, a comment on the
    alerts and the bookkeeping of tokens and cooldowns.  [W] is the world
    outside; reading the clock, randomness, the context and the file system are
    functions of it. *)
From S2P Require Import Prelude GoStr GoFmt Types Config DiagTypes GoSlice AiClient Failover Report Record DiagState Registry Prompt Executor Concrete Chat.
#[local] Open Scope Z_scope.
#[local] Open Scope go_scope.

(** The first message of the user. *)
Definition diagnoseUserKickoffMessage (mode lang : string) : string :=
  let isZH := bool_decide (lang = "") || bool_decide (lang = "zh") in
  if decide (mode = ModeInspect) then
    if isZH then "请根据上述巡检任务说明开始检查（可调用工具）。"
    else "Begin the inspection as described in the system message above (you may use tools)."
  else if isZH then "请根据上述告警信息开始根因诊断（可调用工具）。"
  else "Begin root-cause diagnosis for the alert described in the system message above (you may use tools).".

Definition contextWarning : string :=
  "上下文空间即将耗尽。请基于目前收集到的信息，立即输出最终诊断报告。不要再调用任何工具。".
Definition lastRoundWarning : string :=
  "你已使用了所有可用的工具调用轮次。请基于目前收集到的信息，立即输出最终诊断报告。不要再调用任何工具。".

Definition incompleteReport (lang : string) : string :=
  if decide (lang = "zh") then "[诊断未完成] 已达到最大轮次限制，AI 未能在限定轮次内输出最终报告。"
  else "[Incomplete] Max round limit reached, AI did not produce a final report.".

(** ** Updates of a record *)
Definition with_AI (ai : AIRecord) (r : DiagnoseRecord) : DiagnoseRecord :=
  mkDiagnoseRecord (ID r) (rec_Mode r) (rec_Status r) (rec_Error r) (CreatedAt r) (DurationMs r)
    (rec_Alert r) ai (Rounds r) (Report r).
Definition add_round (rr : RoundRecord) (r : DiagnoseRecord) : DiagnoseRecord :=
  mkDiagnoseRecord (ID r) (rec_Mode r) (rec_Status r) (rec_Error r) (CreatedAt r) (DurationMs r)
    (rec_Alert r) (rec_AI r) (Rounds r ++ [rr]) (Report r).
Definition with_outcome (status err report : string) (r : DiagnoseRecord) : DiagnoseRecord :=
  mkDiagnoseRecord (ID r) (rec_Mode r) status err (CreatedAt r) (DurationMs r)
    (rec_Alert r) (rec_AI r) (Rounds r) report.
Definition with_DurationMs (d : Z) (r : DiagnoseRecord) : DiagnoseRecord :=
  mkDiagnoseRecord (ID r) (rec_Mode r) (rec_Status r) (rec_Error r) (CreatedAt r) d
    (rec_Alert r) (rec_AI r) (Rounds r) (Report r).

Definition set_Model (m : string) (a : AIRecord) : AIRecord :=
  mkAIRecord m (TotalRounds a) (air_InputTokens a) (air_OutputTokens a).
Definition set_TotalRounds (n : Z) (a : AIRecord) : AIRecord :=
  mkAIRecord (air_Model a) n (air_InputTokens a) (air_OutputTokens a).
Definition count_tokens (u : Usage) (a : AIRecord) : AIRecord :=
  mkAIRecord (air_Model a) (TotalRounds a) (air_InputTokens a ⊞ PromptTokens u)
    (air_OutputTokens a ⊞ CompletionTokens u).

(** The text of an error. *)
Fixpoint error_text (e : error) : string :=
  match e with
  | ErrNew t => t
  | ErrAPI code body => "AI API error (status " +:+ itoa code +:+ "): " +:+
      (if slen body <=? 200 then body else TruncateUTF8 body 200 +:+ "...")
  | ErrCanceled => "context canceled"
  | ErrDeadline => "context deadline exceeded"
  | ErrWrap t e' => t +:+ error_text e'
  end.

Section engine.
Context {M W A I : Type} `{!ChatBackend M W} `{!JsonCodec}.
(** What a remote tool sees of its session: the accessor and the instance. *)
Definition session_view : Type := option A * option I.
Variable is_print : Z -> bool.
Variable goos : string.
Variable hostname : string.
Variable order : list (string * ToolCategory W session_view).
Variable ctx_Err : W -> option error.
Variable now : W -> Clock.
Variable rand2 : W -> Z * Z.

Record DiagnoseSession := mkSession {
  Accessor : option A;
  sess_instanceRef : option I;
  sess_Record : DiagnoseRecord;
  StartTime : Z
}.
Definition view (s : DiagnoseSession) : session_view := (Accessor s, sess_instanceRef s).
Definition upd_Record (f : DiagnoseRecord -> DiagnoseRecord) (s : DiagnoseSession) : DiagnoseSession :=
  mkSession (Accessor s) (sess_instanceRef s) (f (sess_Record s)) (StartTime s).
Definition upd_AI (f : AIRecord -> AIRecord) : DiagnoseSession -> DiagnoseSession :=
  upd_Record (fun r => with_AI (f (rec_AI r)) r).

(** The settings fixed by [NewDiagnoseEngine]. *)
Record EngineConfig := mkEngineConfig {
  eng_registry : ToolRegistry W session_view A I;
  eng_fc : FailoverClient M;
  eng_cfg : AIConfig;
  maxRounds : Z;
  eng_contextWindowLimit : Z
}.

Definition millis (ns : Z) : Z := go_div ns 1000000.
Definition elapsed (w1 w2 : W) : Z := nanos (now w2) - nanos (now w1).

Definition initSessionAccessor (e : EngineConfig) (req : DiagnoseRequest I) (s : DiagnoseSession) (w : W)
  : option error * DiagnoseSession * W :=
  match InstanceRef req with
  | None => (None, s, w)
  | Some ins =>
    if negb (HasAccessorFactory (eng_registry e) (req_Plugin req)) then (None, s, w)
    else
      match CreateAccessor is_print (eng_registry e) w (req_Plugin req) (Some ins) (req_Target req) with
      | (Bad err, w) =>
        (Some (ErrNew ("create accessor for " +:+ req_Plugin req +:+ "::" +:+ req_Target req +:+ ": " +:+ err)),
         s, w)
      | (Good accessor, w) => (None, mkSession (Some accessor) (sess_instanceRef s) (sess_Record s) (StartTime s), w)
      end
  end.

(** ** The conversation

    [messages] is only ever appended to and compacted, so it is a list here.
    [requests] is a ghost log of the histories sent to the AI. *)
Record DiagLoop := mkLoop {
  lp_messages : list Message;
  estimatedTokens : Z;
  contextWarned : bool;
  lp_session : DiagnoseSession;
  lp_progress : list ProgressEvent;
  requests : list (list Message)
}.

Definition lp_push (m : Message) (s : DiagLoop) : DiagLoop :=
  mkLoop (lp_messages s ++ [m]) (estimatedTokens s) (contextWarned s) (lp_session s) (lp_progress s) (requests s).
Definition lp_estimate (t : Z) (s : DiagLoop) : DiagLoop :=
  mkLoop (lp_messages s) t (contextWarned s) (lp_session s) (lp_progress s) (requests s).
Definition lp_emit (ev : ProgressEvent) (s : DiagLoop) : DiagLoop :=
  mkLoop (lp_messages s) (estimatedTokens s) (contextWarned s) (lp_session s) (lp_progress s ++ [ev]) (requests s).
Definition lp_upd (f : DiagnoseSession -> DiagnoseSession) (s : DiagLoop) : DiagLoop :=
  mkLoop (lp_messages s) (estimatedTokens s) (contextWarned s) (f (lp_session s)) (lp_progress s) (requests s).

(** Appends a message and counts it. *)
Definition lp_say (m : Message) (s : DiagLoop) : DiagLoop :=
  lp_estimate (estimatedTokens s ⊞ EstimateMessageTokens m) (lp_push m s).

(** What happens before the AI is asked in a round: compaction, then one of
    the two requests to conclude. *)
Definition compact_round (e : EngineConfig) (s : DiagLoop) : DiagLoop :=
  let limit := eng_contextWindowLimit e in
  if (0 <? limit) && (limit <? estimatedTokens s) then
    let ms := vals (CompactMessages (of_list (lp_messages s)) limit) in
    mkLoop ms (EstimateMessagesTokens ms) (contextWarned s) (lp_session s) (lp_progress s) (requests s)
  else s.

Definition warn_round (e : EngineConfig) (round : Z) (s : DiagLoop) : DiagLoop :=
  let limit := eng_contextWindowLimit e in
  if (0 <? limit) && negb (contextWarned s) && (go_div (limit ⊠ 90) 100 <? estimatedTokens s) then
    mkLoop (lp_messages s ++ [plain "user" contextWarning]) (estimatedTokens s) true (lp_session s)
      (lp_progress s) (requests s)
  else if round =? maxRounds e - 1 then lp_push (plain "user" lastRoundWarning) s
  else s.

Definition prepare_round (e : EngineConfig) (round : Z) (s : DiagLoop) : DiagLoop :=
  warn_round e round (compact_round e s).

(** The body of the loop over the tool calls; the record of each is returned. *)
Definition diag_tool_call (e : EngineConfig) (round : Z) (acc : DiagLoop * list ToolCallRecord * W)
    (tc : ToolCall) : DiagLoop * list ToolCallRecord * W :=
  let '(s, recs, w) := acc in
  let name := fc_Name (tc_Function tc) in
  let rawArgs := fc_Arguments (tc_Function tc) in
  let argsDisplay := FormatToolArgsDisplay name rawArgs in
  let s := lp_emit (mkProgress ProgressToolStart (round + 1) name argsDisplay "" 0 0 false "") s in
  let '(r, w') := executeTool is_print goos order (eng_registry e) (Some (view (lp_session s))) name rawArgs w in
  let isErr := match r with Bad _ => true | Good _ => false end in
  let result := match r with Bad err => "error: " +:+ err | Good out => out end in
  let truncated := TruncateOutput result in
  let s := lp_emit (mkProgress ProgressToolDone (round + 1) name argsDisplay "" (elapsed w w') (slen result) isErr truncated) s in
  (lp_say (mkMessage "tool" truncated "" (tc_ID tc) []) s,
   recs ++ [mkToolCallRecord name (ParseArgs rawArgs) (TruncateForRecord result) (millis (elapsed w w'))], w').

(** One round: how the conversation ends, or [None] for another round.  A
    panic unwinds with what the session holds by then. *)
Definition diag_round (e : EngineConfig) (tools : list Tool) (round : Z) (s : DiagLoop) (w : W)
  : option (go (res error string)) * DiagLoop * W :=
  match ctx_Err w with
  | Some err => (Some (Ret (Bad err)), s, w)
  | None =>
    let s := lp_emit (progress_ai ProgressAIStart (round + 1) "" 0) (prepare_round e round s) in
    let '(out, w') := Chat is_print (eng_fc e) (lp_messages s) tools w in
    let aiElapsed := elapsed w w' in
    let w := w' in
    let s := mkLoop (lp_messages s) (estimatedTokens s) (contextWarned s) (lp_session s) (lp_progress s)
               (requests s ++ [lp_messages s]) in
    match out with
    | Panic => (Some Panic, s, w)
    | Ret (Bad err, _) =>
      (Some (Ret (Bad (ErrWrap ("AI API error at round " +:+ itoa (round + 1) +:+ ": ") err))),
       lp_emit (mkProgress ProgressAIDone (round + 1) "" "" "" aiElapsed 0 true "") s, w)
    | Ret (Good None, modelName) => (Some Panic, lp_upd (upd_AI (set_Model modelName)) s, w)
    | Ret (Good (Some resp), modelName) =>
      let s := lp_upd (upd_AI (set_Model modelName)) s in
      let s := if 0 <? UsageTotalTokens (resp_Usage resp)
               then lp_estimate (UsageTotalTokens (resp_Usage resp)) s else s in
      let s := lp_upd (upd_AI (count_tokens (resp_Usage resp))) s in
      let '(content, toolCalls) :=
        match Choices resp with
        | c :: _ => (Content (choice_Message c), ToolCalls (choice_Message c))
        | [] => ("", [])
        end in
      let s := lp_emit (progress_ai ProgressAIDone (round + 1) content aiElapsed) s in
      match toolCalls with
      | [] => (Some (Ret (Good content)), lp_upd (upd_AI (set_TotalRounds (round + 1))) s, w)
      | _ :: _ =>
        let s := lp_say (mkMessage "assistant" content "" "" toolCalls) s in
        let '(s, recs, w) := fold_left (diag_tool_call e round) toolCalls (s, [], w) in
        (None, lp_upd (upd_Record (add_round (mkRoundRecord (round + 1) recs content))) s, w)
      end
    end
  end.

(** [n] rounds are left. *)
Fixpoint diag_rounds (n : nat) (e : EngineConfig) (tools : list Tool) (round : Z) (s : DiagLoop) (w : W)
  : go (res error string) * DiagLoop * W :=
  match n with
  | O =>
    (Ret (Good (incompleteReport (Language (eng_cfg e)))), lp_upd (upd_AI (set_TotalRounds (maxRounds e))) s, w)
  | S n' =>
    let '(r, s, w) := diag_round e tools round s w in
    match r with
    | Some out => (out, s, w)
    | None => diag_rounds n' e tools (round + 1) s w
    end
  end.

(** The prompt and the tools of a diagnosis: everything before the first round. *)
Definition with_RuntimeOS (req : DiagnoseRequest I) : DiagnoseRequest I :=
  mkDiagnoseRequest (req_Mode req) (Events req) (req_Plugin req) (req_Target req)
    (if decide (RuntimeOS req = "") then goos else RuntimeOS req)
    (Checks req) (InstanceRef req) (req_Timeout req) (req_Cooldown req) (Descriptions req).

Definition diag_start (e : EngineConfig) (req : DiagnoseRequest I) (s : DiagnoseSession) (w : W)
  : list Tool * DiagLoop * W :=
  let registry := eng_registry e in
  let '(preCollected, w) := RunPreCollector registry w (req_Plugin req) (Accessor s) in
  let diagnoseHints := GetDiagnoseHints registry (req_Plugin req) in
  let req := with_RuntimeOS req in
  let '(aiToolDefs, directTools) := buildToolSet registry req in
  let isRemote := isRemoteTarget (req_Target req) in
  let '(systemBaseline, w) :=
    if negb isRemote then RunBaselinePreCollectors registry w (req_Plugin req) else (∅, w) in
  let directToolsStr := formatDirectTools directTools in
  let toolCatalog := ListToolCatalogSmartForOS order (RuntimeOS req) in
  let promptCtx := mkPromptContext preCollected diagnoseHints systemBaseline in
  let lang := Language (eng_cfg e) in
  let prompt :=
    if decide (req_Mode req = ModeInspect)
    then buildInspectPrompt req directToolsStr toolCatalog hostname isRemote lang promptCtx
    else buildSystemPrompt req directToolsStr toolCatalog hostname isRemote lang promptCtx in
  let messages := [plain "system" prompt; plain "user" (diagnoseUserKickoffMessage (req_Mode req) lang)] in
  (aiToolDefs,
   mkLoop messages (EstimateMessagesTokens messages) false
     (upd_AI (set_Model (PrimaryModelName (eng_cfg e))) s) [] [], w).

Definition diagnose (e : EngineConfig) (req : DiagnoseRequest I) (s : DiagnoseSession) (w : W)
  : go (res error string) * DiagLoop * W :=
  let '(err, s, w) := initSessionAccessor e req s w in
  match err with
  | Some err => (Ret (Bad (ErrWrap "create accessor: " err)), mkLoop [] 0 false s [] [], w)
  | None =>
    let '(tools, lp, w) := diag_start e req s w in
    diag_rounds (Z.to_nat (maxRounds e)) e tools 0 lp w
  end.

(** ** Lemmas: the histories sent to the AI *)

(** A history of a diagnosis: system prompt, kickoff message, and every tool
    call answered. *)
Definition diag_history (kickoff : string) (ms : list Message) : Prop :=
  answered ms /\ exists prompt rest, ms = plain "system" prompt :: plain "user" kickoff :: rest.

Definition loop_ok (kickoff : string) (s : DiagLoop) : Prop :=
  diag_history kickoff (lp_messages s) /\ Forall (diag_history kickoff) (requests s).

Lemma diag_history_app k ms more : diag_history k ms -> answered more -> diag_history k (ms ++ more).
Proof. intros (Ha & p & r & ->) Hm. split; [by apply answered_app|by eexists p, _]. Qed.

Lemma diag_history_compact k ms limit :
  0 < limit -> diag_history k ms -> diag_history k (vals (CompactMessages (of_list ms) limit)).
Proof.
  intros Hl (Ha & p & r & Hms). pose proof (of_list_wf ms) as Hwf.
  pose proof (vals_of_list ms) as Hv. split.
  - apply CompactMessages_answered; [done|by rewrite Hv, Hms|by rewrite Hv].
  - assert (compacted ms limit (vals (CompactMessages (of_list ms) limit))) as Hc.
    { rewrite <-Hv at 1. apply CompactMessages_compacted; [done| |done]. rewrite Hms. cbn. lia. }
    assert (take (stickyPrefix ms) ms = [plain "system" p; plain "user" k]) as Hst
      by (rewrite Hms; reflexivity).
    destruct Hc as [_|_|n g h gs st _ _ _ _]; rewrite ?Hst; [by eexists p, _|by eexists p, _|].
    by eexists p, _.
Qed.

Lemma compact_round_ok k e s : loop_ok k s -> loop_ok k (compact_round e s).
Proof.
  intros [Hh Hr]. unfold compact_round. case_match eqn:E; [|done]. zbool.
  split; [by apply diag_history_compact|done].
Qed.

Lemma prepare_round_ok k e round s : loop_ok k s -> loop_ok k (prepare_round e round s).
Proof.
  intros [Hh Hr]%(compact_round_ok _ e). unfold prepare_round, warn_round.
  repeat case_match; split; cbn; try done; by apply diag_history_app.
Qed.

Lemma prepare_round_requests e round s : requests (prepare_round e round s) = requests s.
Proof. unfold prepare_round, warn_round, compact_round. by repeat case_match. Qed.

(** In the last round the AI is told to report. *)
Lemma prepare_last_round e s :
  exists text, last (lp_messages (prepare_round e (maxRounds e - 1) s)) = Some (plain "user" text).
Proof.
  unfold prepare_round, warn_round. rewrite Z.eqb_refl.
  case_match; cbn; eexists; apply last_snoc.
Qed.

Lemma diag_tool_call_adds e round tc acc :
  let r := diag_tool_call e round acc tc in
  requests r.1.1 = requests acc.1.1 /\
  exists m, lp_messages r.1.1 = lp_messages acc.1.1 ++ [m] /\ responds tc m.
Proof.
  destruct acc as [[s recs] w]. unfold diag_tool_call.
  destruct (executeTool _ _ _ _ _ _ _ w) as [r w2]. split; [done|]. by eexists.
Qed.

Lemma diag_tool_calls_add e round tcs acc :
  let r := fold_left (diag_tool_call e round) tcs acc in
  requests r.1.1 = requests acc.1.1 /\
  exists rs, lp_messages r.1.1 = lp_messages acc.1.1 ++ rs /\ Forall2 responds tcs rs.
Proof.
  revert acc. induction tcs as [|tc tcs IH]; intros acc.
  { split; [done|]. exists []. rewrite app_nil_r. split; [done|constructor]. }
  cbn [fold_left]. destruct (diag_tool_call_adds e round tc acc) as (Hr1 & m & Hm1 & Hres).
  destruct (IH (diag_tool_call e round acc tc)) as (Hr & rs & Hm & Hf).
  split; [congruence|]. exists (m :: rs).
  split; [by rewrite Hm, Hm1, <-(assoc_L (++))|by constructor].
Qed.

(** A round that asks the AI sends one more history. *)
Lemma diag_round_spec k e tools round s w r s' w' :
  loop_ok k s -> diag_round e tools round s w = (r, s', w') ->
  (exists err, ctx_Err w = Some err /\ s' = s /\ r = Some (Ret (Bad err))) \/
  loop_ok k s' /\ requests s' = requests s ++ [lp_messages (prepare_round e round s)].
Proof.
  intros Hok. unfold diag_round. destruct (ctx_Err w) as [err|]; [intros [= <- <- <-]; left; by exists err|].
  pose proof (prepare_round_ok k e round s Hok) as [Hh Hr].
  pose proof (prepare_round_requests e round s) as Hreq. intros Hrun; right; revert Hrun.
  set (s1 := prepare_round e round s) in *. clearbody s1. rewrite <-Hreq.
  destruct (Chat _ _ _ _ w) as [out w1]. set (s3 := mkLoop _ _ _ _ _ _).
  assert (Forall (diag_history k) (requests s3)) as Hr3 by (cbn; by apply Forall_app_2, Forall_singleton).
  destruct out as [[[[resp|]|err] name]|]; try (intros [= <- <- <-]; done).
  destruct (match Choices resp with [] => _ | _ => _ end) as [content toolCalls].
  set (s4 := lp_emit _ (lp_upd _ _)).
  assert (lp_messages s4 = lp_messages s1 /\ requests s4 = requests s3) as [Hm4 Hq4]
    by (unfold s4; by destruct (0 <? _)).
  clearbody s4. destruct toolCalls as [|tc tcs].
  { intros [= <- <- <-]. split; [split; cbn; [by rewrite Hm4|by rewrite Hq4]|cbn; by rewrite Hq4]. }
  pose proof (diag_tool_calls_add e round (tc :: tcs)
    (lp_say (mkMessage "assistant" content "" "" (tc :: tcs)) s4, [], w1)) as (Hq & rs & Hm & Hf).
  destruct (fold_left _ _ _) as [[s5 recs] w5]. intros [= <- <- <-]. cbn in *.
  split; [|by rewrite Hq, Hq4]. split; cbn; [|by rewrite Hq, Hq4].
  rewrite Hm, Hm4, <-(assoc_L (++)). apply diag_history_app; [done|].
  exact (answers_responses (tc :: tcs) rs Hf).
Qed.

Lemma diag_rounds_spec k n e tools round s w out s' w' :
  loop_ok k s -> round + Z.of_nat n = maxRounds e ->
  diag_rounds n e tools round s w = (out, s', w') ->
  loop_ok k s' /\ exists sent, requests s' = requests s ++ sent /\ (length sent <= n)%nat /\
    (n <> 0%nat -> length sent = n -> exists h text, last sent = Some h /\ last h = Some (plain "user" text)).
Proof.
  revert round s w. induction n as [|n IH]; intros round s w Hok Hn; cbn [diag_rounds].
  { intros [= <- <- <-]. split; [done|]. exists []. by rewrite app_nil_r. }
  destruct (diag_round e tools round s w) as [[r s1] w1] eqn:Hr.
  destruct (diag_round_spec k _ _ _ _ _ _ _ _ Hok Hr) as [(err & _ & -> & ->)|[Hok1 Hq1]].
  { intros [= <- <- <-]. split; [done|]. exists []. rewrite app_nil_r.
    split_and!; [done|cbn; lia|done]. }
  destruct r as [out1|].
  { intros [= <- <- <-]. split; [done|]. eexists. split; [exact Hq1|]. cbn. split; [lia|].
    intros _ ?. replace round with (maxRounds e - 1) by lia.
    destruct (prepare_last_round e s) as [text Ht]. by eexists _, text. }
  intros Hrec. destruct (IH (round + 1) s1 w1 Hok1 ltac:(lia) Hrec) as (Hok' & sent & Hq' & Hl & Hlast).
  split; [done|]. eexists (_ :: sent). split; [by rewrite Hq', Hq1, <-(assoc_L (++))|].
  cbn [length]. split; [lia|]. intros _ Hlen.
  destruct n as [|n].
  - destruct sent; [|cbn in Hl; lia]. replace round with (maxRounds e - 1) by lia.
    destruct (prepare_last_round e s) as [text Ht]. by eexists _, text.
  - destruct Hlast as (h & text & Hh & Ht); [done|lia|]. exists h, text. split; [|done].
    destruct sent; [done|]. by rewrite last_cons, Hh.
Qed.

(** ** Lifecycle *)


(** [inFlight] maps a target to the run whose cancel function it holds; [sem]
    is the number of slots taken. *)
Record DiagnoseEngine := mkEngine {
  eng_state : DiagnoseState;
  inFlight : gmap string nat;
  sem : Z;
  stopped : bool;
  eng_files : gmap string string;
  eng_statedir : StateDir
}.

Definition upd_state (f : DiagnoseState -> DiagnoseState) (st : DiagnoseEngine) : DiagnoseEngine :=
  mkEngine (f (eng_state st)) (inFlight st) (sem st) (stopped st) (eng_files st) (eng_statedir st).
Definition set_inFlight (m : gmap string nat) (st : DiagnoseEngine) : DiagnoseEngine :=
  mkEngine (eng_state st) m (sem st) (stopped st) (eng_files st) (eng_statedir st).
Definition set_sem (n : Z) (st : DiagnoseEngine) : DiagnoseEngine :=
  mkEngine (eng_state st) (inFlight st) n (stopped st) (eng_files st) (eng_statedir st).
Definition set_files (f : gmap string string) (st : DiagnoseEngine) : DiagnoseEngine :=
  mkEngine (eng_state st) (inFlight st) (sem st) (stopped st) f (eng_statedir st).
Definition set_statedir (d : StateDir) (st : DiagnoseEngine) : DiagnoseEngine :=
  mkEngine (eng_state st) (inFlight st) (sem st) (stopped st) (eng_files st) d.
Definition set_stopped (st : DiagnoseEngine) : DiagnoseEngine :=
  mkEngine (eng_state st) (inFlight st) (sem st) true (eng_files st) (eng_statedir st).

(** The fields of [NewDiagnoseEngine] that its configuration fixes. *)
Definition NewEngineConfig (registry : ToolRegistry W session_view A I) (fc : FailoverClient M)
    (cfg : AIConfig) : EngineConfig :=
  mkEngineConfig registry fc cfg (MaxRounds cfg) (ContextWindowLimit cfg).

(** A non-blocking send on [sem], whose capacity is [max_concurrent_diagnoses]. *)
Definition TrySem (e : EngineConfig) (st : DiagnoseEngine) : bool * DiagnoseEngine :=
  if sem st <? MaxConcurrentDiagnoses (eng_cfg e) then (true, set_sem (sem st + 1) st) else (false, st).

Definition ReleaseSem (st : DiagnoseEngine) : DiagnoseEngine := set_sem (sem st - 1) st.

(** True when a goroutine is started that runs [RunDiagnose req] and then
    releases its slot. *)
Definition Submit (e : EngineConfig) (req : DiagnoseRequest I) (c : Clock) (st : DiagnoseEngine)
  : bool * DiagnoseEngine :=
  if stopped st then (false, st)
  else
    let '(active, s) := IsCooldownActive c (req_Plugin req) (req_Target req) (eng_state st) in
    let st := upd_state (fun _ => s) st in
    if active then (false, st)
    else
      let '(reached, s) := IsDailyLimitReached c (DailyTokenLimit (eng_cfg e)) (eng_state st) in
      let st := upd_state (fun _ => s) st in
      if reached then (false, st) else TrySem e st.

Definition registerInFlight (req : DiagnoseRequest I) (cancel : nat) (st : DiagnoseEngine) : DiagnoseEngine :=
  set_inFlight (<[req_key req := cancel]> (inFlight st)) st.
Definition unregisterInFlight (req : DiagnoseRequest I) (st : DiagnoseEngine) : DiagnoseEngine :=
  set_inFlight (delete (req_key req) (inFlight st)) st.

(** The runs cancelled, and the engine that admits nothing any more. *)
Definition Shutdown (st : DiagnoseEngine) : list nat * DiagnoseEngine :=
  ((map_to_list (inFlight st)).*2, set_stopped st).

Section lifecycle.
(** JSON of records; the file system; closing an accessor;
    [notify.ForwardComment]; the value a panic carried; [StateDir]. *)
Context (marshal_record : DiagnoseRecord -> option string).
Context (io : W -> SaveIO) (close : A -> W -> W) (forward_comment : string -> string -> W -> bool * W).
Context (panic_value stateDir : string).

Definition new_session (req : DiagnoseRequest I) (w : W) : DiagnoseSession :=
  let ms := millis (nanos (now w)) in
  mkSession None (InstanceRef req) (NewDiagnoseRecord req ms ms (rand2 w)) (nanos (now w)).

(** One comment per alert key; the keys commented on, in order. *)
Fixpoint comment_keys (events : list Event) (seen : gset string) : list string :=
  match events with
  | [] => []
  | ev :: events' =>
    if decide (AlertKey ev ∈ seen) then comment_keys events' seen
    else AlertKey ev :: comment_keys events' ({[AlertKey ev]} ∪ seen)
  end.

Definition forwardReport (e : EngineConfig) (req : DiagnoseRequest I) (record : DiagnoseRecord)
    (report : string) (w : W) : W :=
  let comment := FormatReportComment record report (Language (eng_cfg e)) in
  fold_left (fun w key => (forward_comment key comment w).2) (comment_keys (Events req) ∅) w.

Definition save_record (r : DiagnoseRecord) (st : DiagnoseEngine) (w : W) : DiagnoseEngine :=
  set_files (SaveRecord marshal_record stateDir (io w) r (eng_files st)).2 st.

(** What follows the conversation, when it did not panic: the record and its
    file, the comment, the accounts.  The effects before a panic stay. *)
Definition conclude (e : EngineConfig) (req : DiagnoseRequest I) (started : Z) (out : res error string)
    (r : DiagnoseRecord) (st : DiagnoseEngine) (w : W) : go unit * DiagnoseRecord * DiagnoseEngine * W :=
  let '(r, report) :=
    match out with
    | Bad err => (with_outcome "failed" (error_text err) (Report r) r, "")
    | Good report => (with_outcome "success" (rec_Error r) report r, report)
    end in
  let r := with_DurationMs (millis (nanos (now w) - started)) r in
  let st := save_record r st w in
  let w := if negb (bool_decide (report = "")) && negb (bool_decide (Events req = []))
           then forwardReport e req r report w else w in
  let st := upd_state (AddTokens (now w) (air_InputTokens (rec_AI r)) (air_OutputTokens (rec_AI r))) st in
  let cooled :=
    if decide (req_Mode req = ModeInspect) then Ret (eng_state st)
    else UpdateCooldown (now w) (req_Plugin req) (req_Target req) (req_Cooldown req) (eng_state st) in
  match cooled with
  | Panic => (Panic, r, st, w)
  | Ret s =>
    let st := upd_state (fun _ => s) st in
    (Ret tt, r, set_statedir (Save (io w) (eng_state st) (eng_statedir st)) st, w)
  end.

(** The deferred recovery from a panic: a failed record, and no result. *)
Definition recover (r : DiagnoseRecord) (st : DiagnoseEngine) (w : W) : DiagnoseEngine :=
  save_record (with_outcome "failed" ("panic: " +:+ panic_value) (Report r) r) st w.

(** What [RunDiagnose] does once the conversation has ended, or panicked; a nil
    record is returned after a panic. *)
Definition finish_run (e : EngineConfig) (req : DiagnoseRequest I) (started : Z)
    (out : go (res error string)) (session : DiagnoseSession) (st : DiagnoseEngine) (w : W)
  : option DiagnoseRecord * DiagnoseEngine * W :=
  let '(ended, r, st, w) :=
    match out with
    | Panic => (Panic, sess_Record session, st, w)
    | Ret out => conclude e req started out (sess_Record session) st w
    end in
  let st := unregisterInFlight req st in
  let w := match Accessor session with Some a => close a w | None => w end in
  match ended with
  | Panic => (None, recover r st w, w)
  | Ret _ => (Some r, st, w)
  end.

(** [cancel] names this run. *)
Definition RunDiagnose (e : EngineConfig) (req : DiagnoseRequest I) (cancel : nat)
    (st : DiagnoseEngine) (w : W) : option DiagnoseRecord * DiagnoseEngine * W :=
  let session := new_session req w in
  let st := registerInFlight req cancel st in
  let '(out, lp, w) := diagnose e req session w in
  finish_run e req (StartTime session) out (lp_session lp) st w.

(** ** The streaming variant, for remote sessions *)

(** What the progress callback streams: text and stage. *)
Definition stream_progress (ev : ProgressEvent) : list (string * string) :=
  match pe_Type ev with
  | ProgressAIStart => [("[Round " +:+ itoa (pe_Round ev) +:+ "] AI thinking...", "thinking")]
  | ProgressAIDone => if decide (pe_Reasoning ev = "") then [] else [(pe_Reasoning ev, "answer")]
  | ProgressToolStart => [("[Tool] " +:+ pe_ToolName ev +:+ " " +:+ pe_ToolArgs ev, "tool_call")]
  | ProgressToolDone =>
    [("[Tool done] " +:+ pe_ToolName ev +:+ " (" +:+ (if pe_IsError ev then "error" else "ok") +:+ ", "
      +:+ itoa (pe_ResultLen ev) +:+ "B, " +:+ Duration_String (pe_Duration ev) +:+ ")", "tool_result")]
  end.

(** What is streamed, and the report or an error.  Slots, cooldowns, accounts
    and records are left alone. *)
Definition RunDiagnoseStreaming (e : EngineConfig) (req : DiagnoseRequest I) (w : W)
  : list (string * string) * res error string * W :=
  let session := new_session req w in
  let '(out, lp, w) := diagnose e req session w in
  let w := match Accessor (lp_session lp) with Some a => close a w | None => w end in
  (mjoin (map stream_progress (lp_progress lp)),
   match out with
   | Panic => Bad (ErrNew ("panic: " +:+ panic_value))
   | Ret r => r
   end, w).

(** ** Concurrent runs

    Runs start and end at different times; [held] counts the slots that remote
    sessions took with [TrySem]. *)
Record System := mkSystem { sys_engine : DiagnoseEngine; running : list nat; held : nat }.

Inductive sys_step (e : EngineConfig) : System -> System -> Prop :=
| sys_submit req c cancel st st' rs h :
    Submit e req c st = (true, st') ->
    sys_step e (mkSystem st rs h) (mkSystem st' (cancel :: rs) h)
| sys_reject req c st st' rs h :
    Submit e req c st = (false, st') ->
    sys_step e (mkSystem st rs h) (mkSystem st' rs h)
| sys_begin req cancel st rs h :
    cancel ∈ rs -> sys_step e (mkSystem st rs h) (mkSystem (registerInFlight req cancel st) rs h)
| sys_end req started out session w w' r st st' rs1 cancel rs2 h :
    finish_run e req started out session st w = (r, st', w') ->
    sys_step e (mkSystem st (rs1 ++ cancel :: rs2) h) (mkSystem (ReleaseSem st') (rs1 ++ rs2) h)
| sys_try st st' rs h :
    TrySem e st = (true, st') -> sys_step e (mkSystem st rs h) (mkSystem st' rs (S h))
| sys_release st rs h :
    sys_step e (mkSystem st rs (S h)) (mkSystem (ReleaseSem st) rs h)
| sys_shutdown st rs h :
    sys_step e (mkSystem st rs h) (mkSystem (Shutdown st).2 rs h).

(** ** Lemmas *)

Lemma Submit_sem e req c st :
  sem (Submit e req c st).2 = sem st + (if (Submit e req c st).1 then 1 else 0) /\
  ((Submit e req c st).1 = true -> sem st < MaxConcurrentDiagnoses (eng_cfg e)) /\
  stopped (Submit e req c st).2 = stopped st.
Proof.
  unfold Submit, TrySem. destruct (stopped st) eqn:Hs; [cbn; split_and!; [lia|done|done]|].
  destruct (IsCooldownActive _ _ _ _) as [[|] s1]; [cbn; split_and!; [lia|done|done]|].
  destruct (IsDailyLimitReached _ _ _) as [[|] s2]; [cbn; split_and!; [lia|done|done]|].
  case_match; cbn in *; zbool; split_and!; try done; lia.
Qed.

Lemma finish_run_sem e req started out session st w :
  let st' := (finish_run e req started out session st w).1.2 in
  sem st' = sem st /\ stopped st' = stopped st.
Proof.
  unfold finish_run. destruct out as [out|]; [|done]. cbn [mbind go_bind]. unfold conclude.
  destruct out as [report|err]; (destruct (decide (req_Mode req = ModeInspect)); [done|]);
    cbn; unfold UpdateCooldown; destruct (Cooldowns _); done.
Qed.

Definition sys_inv (e : EngineConfig) (s : System) : Prop :=
  sem (sys_engine s) = Z.of_nat (length (running s)) + Z.of_nat (held s) /\
  sem (sys_engine s) <= MaxConcurrentDiagnoses (eng_cfg e).

Lemma sys_step_inv e s s' : sys_step e s s' -> sys_inv e s -> sys_inv e s'.
Proof.
  intros [req c cancel st st' rs h Hx|req c st st' rs h Hx|req cancel st rs h _|
    req started out session w w' r st st' rs1 cancel rs2 h Hx|st st' rs h Hx|st rs h|st rs h] [Hs Hc];
    cbn in Hs, Hc.
  - pose proof (Submit_sem e req c st) as (H1 & H2 & _). rewrite Hx in H1, H2. cbn in *.
    specialize (H2 eq_refl). split; cbn; lia.
  - pose proof (Submit_sem e req c st) as (H1 & _). rewrite Hx in H1. cbn in *. split; cbn; lia.
  - split; done.
  - pose proof (finish_run_sem e req started out session st w) as [H1 _]. rewrite Hx in H1. cbn in H1.
    rewrite length_app in Hs. cbn in Hs. split; cbn; rewrite ?length_app; lia.
  - revert Hx. unfold TrySem. case_match; [|done]. zbool. intros [= <-]. split; cbn; lia.
  - split; cbn in *; lia.
  - split; done.
Qed.

Lemma comment_keys_spec events seen :
  NoDup (comment_keys events seen) /\
  forall k, k ∈ comment_keys events seen <-> k ∉ seen /\ exists ev, ev ∈ events /\ AlertKey ev = k.
Proof.
  revert seen. induction events as [|ev events IH]; intros seen; cbn [comment_keys].
  { split; [constructor|]. intros k. split; [by intros ?%elem_of_nil|].
    by intros (_ & ? & ?%elem_of_nil & _). }
  case_decide as Hin.
  - destruct (IH seen) as [Hnd Hk]. split; [done|]. intros k. rewrite Hk.
    setoid_rewrite elem_of_cons. naive_solver.
  - destruct (IH ({[AlertKey ev]} ∪ seen)) as [Hnd Hk]. split.
    + constructor; [|done]. rewrite Hk. set_solver.
    + intros k. rewrite elem_of_cons, Hk. setoid_rewrite elem_of_cons.
      destruct (decide (k = AlertKey ev)); set_solver.
Qed.

Lemma conclude_cooldown e req started out r st w r' st' w' :
  req_Mode req <> ModeInspect -> conclude e req started out r st w = (Ret tt, r', st', w') ->
  exists ended, (ended = w \/ exists rec report, ended = forwardReport e req rec report w) /\
    cooldown_of (eng_state st') (req_Plugin req) (req_Target req)
    = Some (Unix (nanos (now ended) + req_Cooldown req)).
Proof.
  intros Hm. unfold conclude. destruct (match out with Good _ => _ | Bad _ => _ end) as [r1 report].
  rewrite decide_False by done.
  set (w1 := if _ && _ then forwardReport _ _ _ _ _ else w).
  assert (w1 = w \/ exists rec report, w1 = forwardReport e req rec report w) as Hw1
    by (unfold w1; destruct (_ && _); [by right; eexists _, _|by left]).
  unfold UpdateCooldown. destruct (Cooldowns _) as [m|]; cbn; [|done]. intros [= <- <- <-].
  exists w1. split; [done|]. unfold cooldown_of. cbn. by rewrite lookup_insert_eq.
Qed.

(** ** Properties *)

(** C2: Every history a diagnosis sends to the AI starts with the system prompt and
    the kickoff message of the user, and answers every tool call in order; a
    diagnosis sends at most [maxRounds] of them, and the one of the last round
    ends by telling the AI to conclude. *)
Theorem diagnose_requests e req session w out lp w'
    (Hn : 0 <= maxRounds e) (Hrun : diagnose e req session w = (out, lp, w')) :
  let kickoff := diagnoseUserKickoffMessage (req_Mode req) (Language (eng_cfg e)) in
  Forall (diag_history kickoff) (requests lp) /\
  zlen (requests lp) <= maxRounds e /\
  (0 < maxRounds e -> zlen (requests lp) = maxRounds e ->
   exists h text, last (requests lp) = Some h /\ last h = Some (plain "user" text)).
Proof.
  intros kickoff. revert Hrun. unfold diagnose.
  destruct (initSessionAccessor e req session w) as [[[err|] s1] w1].
  { intros [= <- <- <-]. cbn. split_and!; [constructor|done|]. intros ? Hl. unfold zlen in Hl; cbn in Hl. lia. }
  destruct (diag_start e req s1 w1) as [[tools lp0] w0] eqn:Hstart. intros Hrun.
  assert (loop_ok kickoff lp0 /\ requests lp0 = []) as [Hok Hq].
  { revert Hstart. unfold diag_start. destruct (RunPreCollector _ w1 _ _) as [pre w2].
    destruct (if negb _ then _ else _) as [base w3]. destruct (buildToolSet _ _) as [ts ds].
    intros [= <- <- <-]. split; [|done]. split; [|constructor]. split; [done|]. by eexists _, _. }
  destruct (diag_rounds_spec kickoff (Z.to_nat (maxRounds e)) e tools 0 lp0 w0 out lp w' Hok ltac:(lia) Hrun)
    as ([_ Hall] & sent & Hsent & Hlen & Hlast).
  rewrite Hq in Hsent. cbn in Hsent. rewrite Hsent in *. unfold zlen. split_and!; [done|lia|].
  intros Hpos Heq. apply Hlast; lia.
Qed.

(** C13: [Submit] starts a run exactly when the engine is not stopped, the target
    has no cooldown that ends in the future, the tokens counted today are below
    the daily limit, if there is one, and a slot is free; it then takes that
    slot, and takes none otherwise.  The cooldowns that run and the tokens of
    the day are what they were. *)
Theorem Submit_admits e req c st :
  let '(ok, st') := Submit e req c st in
  let limit := DailyTokenLimit (eng_cfg e) in
  (ok = true <->
   stopped st = false /\
   (forall expires, cooldown_of (eng_state st) (req_Plugin req) (req_Target req) = Some expires -> expires <= Unix (nanos c)) /\
   (0 < limit -> tokens_today c (eng_state st) < limit) /\
   sem st < MaxConcurrentDiagnoses (eng_cfg e)) /\
  sem st' = sem st + (if ok then 1 else 0) /\ inFlight st' = inFlight st /\ stopped st' = stopped st /\
  same_budget c (eng_state st) (eng_state st').
Proof.
  destruct (Submit e req c st) as [ok st'] eqn:E. cbv zeta. revert E. unfold Submit, TrySem.
  rewrite <- IsCooldownActive_false.
  pose proof (IsCooldownActive_same c (req_Plugin req) (req_Target req) (eng_state st)) as Hs1.
  destruct (stopped st) eqn:Hstop; [intros [= <- <-]; split_and!; [by split; [|intros (? & _)]|lia|done|done|by split]|].
  destruct (IsCooldownActive _ _ _ _) as [active s1]. cbn [fst snd upd_state eng_state] in *.
  destruct (IsDailyLimitReached_spec c (DailyTokenLimit (eng_cfg e)) s1) as [Hl Hs2]. rewrite (proj2 Hs1) in Hl. rewrite <- Hl.
  assert (same_budget c (eng_state st) (IsDailyLimitReached c (DailyTokenLimit (eng_cfg e)) s1).2) as Hs3.
  { destruct Hs1 as [H1 H2], Hs2 as [H3 H4]. split; [|congruence]. intros p t x Hx. by rewrite H3, H1. }
  destruct active; [intros [= <- <-]; split_and!; [by split; [|intros (_ & ? & _)]|cbn; lia|done|done|done]|].
  destruct (IsDailyLimitReached _ _ _) as [[|] s2];
    [intros [= <- <-]; split_and!; [by split; [|intros (_ & _ & ? & _)]|cbn; lia|done|done|done]|].
  cbn [sem upd_state]. destruct (sem st <? _) eqn:E; zbool; intros [= <- <-]; cbn; split_and!; try done; try lia;
    (split; [|intros (_ & _ & _ & ?)]; intros; split_and?; try done; lia).
Qed.

(** When a run of an alert has ended without a panic, its target is refused
    until the cooldown of the request has passed, counting from the end of the
    conversation or, when its report was posted, from the end of that. *)
Theorem RunDiagnose_starts_cooldown e req cancel st w r st' w'
    (Hmode : req_Mode req <> ModeInspect)
    (Hrun : RunDiagnose e req cancel st w = (Some r, st', w')) :
  exists out lp w1 ended,
    diagnose e req (new_session req w) w = (Ret out, lp, w1) /\
    (ended = w1 \/ exists rec report, ended = forwardReport e req rec report w1) /\
    forall req2 c,
      req_key req2 = req_key req ->
      Unix (nanos c) < Unix (nanos (now ended) + req_Cooldown req) ->
      (Submit e req2 c st').1 = false.
Proof.
  revert Hrun. unfold RunDiagnose. destruct (diagnose e req _ w) as [[out lp] w1].
  unfold finish_run. destruct out as [out|]; [|done].
  destruct (conclude _ _ _ _ _ _ w1) as [[[[[]|] r1] st1] w2] eqn:Hc; [|done]. intros [= <- <- <-].
  destruct (conclude_cooldown _ _ _ _ _ _ _ _ _ _ Hmode Hc) as (ended & Hw & He).
  exists out, lp, w1, ended. split_and!; [done..|].
  intros req2 c Hkey Hlt. unfold Submit. cbn. case_match; [done|].
  destruct (IsCooldownActive c _ _ _) as [active s] eqn:Ha.
  assert (active = true) as ->; [|done]. change active with (active, s).1. rewrite <-Ha.
  apply IsCooldownActive_spec. eexists. split; [|exact Hlt].
  unfold req_key in Hkey. unfold cooldown_of in *. by rewrite Hkey.
Qed.


(** The report is posted once per alert key of the request, on every key. *)
Theorem forwardReport_once_per_alert (events : list Event) :
  NoDup (comment_keys events ∅) /\
  forall k, k ∈ comment_keys events ∅ <-> exists ev, ev ∈ events /\ AlertKey ev = k.
Proof.
  destruct (comment_keys_spec events ∅) as [Hnd Hk]. split; [done|]. intros k. rewrite Hk. set_solver.
Qed.

(** C5: Whatever the interleaving of submissions, runs, remote sessions and
    shutdown, the slots taken are exactly those of the goroutines started and
    of the sessions that hold one, never more than configured. *)
Theorem slots_accounted e st s (Hcap : 0 <= MaxConcurrentDiagnoses (eng_cfg e)) (Hst : sem st = 0)
    (Hrun : rtc (sys_step e) (mkSystem st [] 0) s) :
  sem (sys_engine s) = Z.of_nat (length (running s)) + Z.of_nat (held s) /\
  sem (sys_engine s) <= MaxConcurrentDiagnoses (eng_cfg e).
Proof.
  assert (forall s0, sys_inv e s0 -> rtc (sys_step e) s0 s -> sys_inv e s) as Hinv.
  { intros s0 H0 Hr. induction Hr as [|s1 s2 s3 H12 _ IH]; [done|]. by apply IH, (sys_step_inv e s1). }
  apply (Hinv (mkSystem st [] 0)); [|done]. split; cbn; lia.
Qed.
End lifecycle.
End engine.

(** ** Witnesses: three slots, a frozen clock, an AI that calls a tool and reports *)

Definition ex_engine : EngineConfig (M := unit) (W := Script) (A := unit) (I := unit) :=
  NewEngineConfig NewToolRegistry (two_models 0) (applyDefaults ex_ai_config).
Definition ex_request : DiagnoseRequest unit :=
  mkDiagnoseRequest ModeAlert [mkEvent 100 EventStatusWarning "k" None None "" "" 0 0 0] "disk" "host" "linux"
    [mkCheckSnapshot "disk" EventStatusWarning "91%" "90%" "almost full"] None Minute (600 * Second) "".
Definition ex_answers : Script := [calls "1" "list_tool_categories" "{}"; says "Rotate the logs."].
Definition ex_now : Script -> Clock := fun _ => ex_clock 1000.

Definition ex_diagnose :=
  diagnose (fun _ => true) "linux" "host" [] (fun _ => None) ex_now ex_engine ex_request
    (new_session ex_now (fun _ => (1, 2)) ex_request ex_answers) ex_answers.

Lemma diagnose_requests_witness :
  length (requests ex_diagnose.1.2) = 2%nat /\
  Forall (diag_history (diagnoseUserKickoffMessage ModeAlert "zh")) (requests ex_diagnose.1.2) /\
  zlen (requests ex_diagnose.1.2) <= 15.
Proof.
  split; [vm_compute; reflexivity|].
  assert (ex_diagnose = (ex_diagnose.1.1, ex_diagnose.1.2, ex_diagnose.2)) as Hrun
    by (destruct ex_diagnose as [[? ?] ?]; reflexivity).
  destruct (diagnose_requests (fun _ => true) "linux" "host" [] (fun _ => None) ex_now ex_engine
    ex_request _ _ _ _ _ ltac:(vm_compute; discriminate) Hrun) as (Hh & Hn & _).
  split; [exact Hh|exact Hn].
Defined.

Definition ex_system0 : DiagnoseEngine := mkEngine (NewDiagnoseState (ex_clock 1000)) ∅ 0 false ∅ (mkStateDir None None).

Definition ex_run_diagnose :=
  RunDiagnose (fun _ => true) "linux" "host" [] (fun _ => None) ex_now (fun _ => (1, 2))
    (fun _ => Some "{}") (fun _ => mkSaveIO true true None true) (fun _ w => w)
    (fun _ _ w => (true, w)) "" "/state" ex_engine ex_request 7 ex_system0 ex_answers.

(** The same target is refused nine minutes later. *)
Lemma RunDiagnose_starts_cooldown_witness :
  exists r st' w', ex_run_diagnose = (Some r, st', w') /\
    (Submit ex_engine ex_request (ex_clock 1540) st').1 = false.
Proof.
  assert (exists r st' w', ex_run_diagnose = (Some r, st', w')) as (r & st' & w' & Hrun)
    by (eexists _, _, _; vm_compute; reflexivity).
  exists r, st', w'. split; [exact Hrun|].
  destruct (RunDiagnose_starts_cooldown (fun _ => true) "linux" "host" [] (fun _ => None) ex_now
    (fun _ => (1, 2)) _ _ _ _ _ _ ex_engine ex_request _ _ _ _ _ _ ltac:(discriminate) Hrun)
    as (out & lp & w1 & ended & _ & _ & Hsubmit).
  apply Hsubmit; [reflexivity|]. unfold ex_now. vm_compute. reflexivity.
Defined.

(** The target may be diagnosed again when its cooldown is over, at second 1500
    and not before, while tokens of the day are left: 3 of 4 are spent. *)
Definition ex_cooling : DiagnoseEngine :=
  upd_state (fun s => mkDiagnoseState (Date s) 1 2 (Some {[ "disk::host" := 1500 ]})) ex_system0.
Definition ex_limited (limit : Z) : EngineConfig (M := unit) (W := Script) (A := unit) (I := unit) :=
  NewEngineConfig NewToolRegistry (two_models 0) (applyDefaults
    (mkAIConfig true ["m"] (Models ex_ai_config) (Gateway ex_ai_config) 0 0 0 0 0 "drop" limit 0 0 0 0 "")).
Lemma Submit_admits_witness :
  (Submit (ex_limited 4) ex_request (ex_clock 1499) ex_cooling).1 = false /\
  (Submit (ex_limited 4) ex_request (ex_clock 1500) ex_cooling).1 = true /\
  (Submit (ex_limited 3) ex_request (ex_clock 1500) ex_cooling).1 = false.
Proof.
  pose proof (Submit_admits (ex_limited 4) ex_request (ex_clock 1499) ex_cooling) as H1.
  pose proof (Submit_admits (ex_limited 4) ex_request (ex_clock 1500) ex_cooling) as H2.
  pose proof (Submit_admits (ex_limited 3) ex_request (ex_clock 1500) ex_cooling) as H3.
  destruct (Submit _ _ (ex_clock 1499) _) as [ok1 st1], (Submit (ex_limited 4) _ _ _) as [ok2 st2], (Submit _ _ _ _) as [ok3 st3].
  cbn [fst]. split_and!.
  - apply not_true_iff_false. rewrite (proj1 H1). intros (_ & H & _). exact (H 1500 eq_refl eq_refl).
  - apply (proj1 H2). split_and!; [done| |done|done].
    intros x Hx. vm_compute in Hx. injection Hx as <-. vm_compute. discriminate.
  - apply not_true_iff_false. rewrite (proj1 H3). intros (_ & _ & H & _). specialize (H eq_refl). vm_compute in H. discriminate H.
Defined.


(** A submission is admitted and a remote session takes a slot. *)
Lemma slots_accounted_witness :
  exists s, length (running s) = 1%nat /\ held s = 1%nat /\
    sem (sys_engine s) = 1 + 1 /\ sem (sys_engine s) <= 3.
Proof.
  exists (mkSystem (set_sem 2 ex_system0) [7%nat] 1). split; [reflexivity|]. split; [reflexivity|].
  refine (slots_accounted ex_now (fun _ => None)
    (fun _ => mkSaveIO true true None true) (fun _ w => w) (fun _ _ w => (true, w)) "" "/state" ex_engine
    ex_system0 _ _ _ _); [vm_compute; discriminate|reflexivity|].
  eapply rtc_l; [by eapply (sys_submit) with (req := ex_request) (c := ex_clock 1000) (cancel := 7%nat) (st' := set_sem 1 ex_system0)|].
  eapply rtc_l; [by eapply (sys_try) with (st' := set_sem 2 ex_system0)|].
  apply rtc_refl.
Defined.
