(* ===== verification/Aggregator.v ===== *)
(** * The diagnosis aggregator (digcore/diagnose/aggregator.go)

    Alerts of one target that arrive within a window become one request.  The
    first one starts a timer; its callback takes the request out and submits
    it.  A timer that has expired may still wait for the lock when [Shutdown]
    stops the others. *)
From S2P Require Import Prelude Types Config DiagTypes Engine.
#[local] Open Scope Z_scope.

Definition shouldTrigger (cfg : DiagnoseConfig) (eventStatus : string) : bool :=
  if negb (diag_Enabled cfg) then false
  else
    let minSeverity := if decide (MinSeverity cfg = "") then EventStatusWarning else MinSeverity cfg in
    SeverityRank minSeverity <=? SeverityRank eventStatus.

Definition Request : Type := DiagnoseRequest Instance.

(** [armed] are the timers that run, [expired] those whose callback waits for
    the lock.  [accepted], [submitted] and [dropped] are ghost logs: the events
    taken in, the requests handed to the engine, the requests [Shutdown] threw
    away.  [agg_enabled] is the global [config.Config.AI.Enabled]. *)
Record Aggregator := mkAggregator {
  agg_enabled : bool;
  window : Z;
  pending : gmap string Request;
  timers : gmap string nat;
  next_timer : nat;
  armed : gmap nat string;
  expired : gmap nat string;
  accepted : list Event;
  submitted : list Request;
  dropped : list Request
}.

Definition NewDiagnoseAggregator (enabled : bool) (w : Z) : Aggregator :=
  mkAggregator enabled (if w <=? 0 then 2 * Second else w) ∅ ∅ 0 ∅ ∅ [] [] [].

Definition add_to_request (event : Event) (snapshot : CheckSnapshot) (req : Request) : Request :=
  mkDiagnoseRequest (req_Mode req) (Events req ++ [event]) (req_Plugin req) (req_Target req)
    (RuntimeOS req) (Checks req ++ [snapshot]) (InstanceRef req) (req_Timeout req)
    (req_Cooldown req) (Descriptions req).

Definition new_request (event : Event) (snapshot : CheckSnapshot) (pluginName target : string)
    (ins : Instance) (cfg : DiagnoseConfig) : Request :=
  mkDiagnoseRequest "" [event] pluginName target "" [snapshot] (Some ins)
    (if diag_Timeout cfg =? 0 then 60 * Second else diag_Timeout cfg)
    (if diag_Cooldown cfg =? 0 then 10 * Minute else diag_Cooldown cfg) "".

(** The target an event is aggregated under. *)
Definition event_target (event : Event) (pluginName : string) : string :=
  let target := gomap_get (Labels event) "target" in
  if decide (target = "") then pluginName else target.

(** The three early returns of [Submit]. *)
Definition agg_ignores (a : Aggregator) (event : Event) (cfg : DiagnoseConfig) : bool :=
  negb (agg_enabled a) || bool_decide (EventStatus event = EventStatusOk)
  || negb (shouldTrigger cfg (EventStatus event)).

Definition agg_Submit (a : Aggregator) (event : Event) (snapshot : CheckSnapshot) (pluginName : string)
    (ins : Instance) (cfg : DiagnoseConfig) : Aggregator :=
  if agg_ignores a event cfg then a
  else
    let target := event_target event pluginName in
    let key := target_key pluginName target in
    match pending a !! key with
    | Some req =>
      mkAggregator (agg_enabled a) (window a) (<[key := add_to_request event snapshot req]> (pending a))
        (timers a) (next_timer a) (armed a) (expired a) (accepted a ++ [event]) (submitted a) (dropped a)
    | None =>
      let req := new_request event snapshot pluginName target ins cfg in
      let t := next_timer a in
      mkAggregator (agg_enabled a) (window a) (<[key := req]> (pending a)) (<[key := t]> (timers a))
        (S t) (<[t := key]> (armed a)) (expired a) (accepted a ++ [event]) (submitted a) (dropped a)
    end.

#[export] Instance aggregator_sink : DiagnoseSink Aggregator := agg_Submit.

(** The window of timer [t] has passed; its callback is about to run. *)
Definition expire (t : nat) (a : Aggregator) : Aggregator :=
  match armed a !! t with
  | None => a
  | Some key =>
    mkAggregator (agg_enabled a) (window a) (pending a) (timers a) (next_timer a) (delete t (armed a))
      (<[t := key]> (expired a)) (accepted a) (submitted a) (dropped a)
  end.

(** The callback of timer [t]: the request it submits, if any. *)
Definition on_timer (t : nat) (a : Aggregator) : option Request * Aggregator :=
  match expired a !! t with
  | None => (None, a)
  | Some key =>
    let req := pending a !! key in
    (req,
     mkAggregator (agg_enabled a) (window a) (delete key (pending a)) (delete key (timers a)) (next_timer a)
       (armed a) (delete t (expired a)) (accepted a) (submitted a ++ option_list req) (dropped a))
  end.

(** [timer.Stop()] has no effect on a timer that has expired. *)
Definition agg_Shutdown (a : Aggregator) : Aggregator :=
  mkAggregator (agg_enabled a) (window a)
    (filter (fun kr => timers a !! kr.1 = None) (pending a)) ∅ (next_timer a)
    (filter (fun tk => timers a !! tk.2 <> Some tk.1) (armed a)) (expired a) (accepted a) (submitted a)
    (dropped a ++ (map_to_list (filter (fun kr => timers a !! kr.1 <> None) (pending a))).*2).

(** What callers and timers may do, in any order. *)
Inductive agg_step : Aggregator -> Aggregator -> Prop :=
| agg_step_submit a event pluginName ins cfg :
    agg_step a (agg_Submit a event (ExtractCheckSnapshot event) pluginName ins cfg)
| agg_step_expire a t : agg_step a (expire t a)
| agg_step_timer a t : agg_step a (on_timer t a).2
| agg_step_shutdown a : agg_step a (agg_Shutdown a).

(** ** The invariant *)

(** The events of the requests in a map. *)
Definition events_of (m : gmap string Request) : list Event := mjoin (map Events ((map_to_list m).*2)).

(** A request is the request of its target, and holds the snapshots of its events. *)
Definition request_ok (key : string) (req : Request) : Prop :=
  req_key req = key /\ Events req <> [] /\ Checks req = map ExtractCheckSnapshot (Events req).

Record agg_inv (a : Aggregator) : Prop := {
  (** every request waits for exactly one timer, armed or expired *)
  agg_timer key : is_Some (pending a !! key) <-> is_Some (timers a !! key);
  agg_armed key t : timers a !! key = Some t -> armed a !! t = Some key \/ expired a !! t = Some key;
  agg_fresh t : (is_Some (armed a !! t) \/ is_Some (expired a !! t)) -> (t < next_timer a)%nat;
  agg_disjoint t : is_Some (armed a !! t) -> expired a !! t = None;
  agg_requests key req : pending a !! key = Some req -> request_ok key req;
  agg_submitted : Forall (fun req => request_ok (req_key req) req) (submitted a);
  (** no event is lost or duplicated *)
  agg_events : accepted a ≡ₚ
    events_of (pending a) ++ mjoin (map Events (submitted a)) ++ mjoin (map Events (dropped a))
}.

Lemma events_of_insert m key req :
  m !! key = None -> events_of (<[key := req]> m) ≡ₚ Events req ++ events_of m.
Proof. intros Hm. unfold events_of. rewrite map_to_list_insert by done. done. Qed.

Lemma events_of_delete m key req :
  m !! key = Some req -> events_of m ≡ₚ Events req ++ events_of (delete key m).
Proof.
  intros Hm. rewrite <-(insert_delete_id m key req) at 1 by done.
  apply events_of_insert, lookup_delete_eq.
Qed.

Lemma events_of_update m key req req' more :
  m !! key = Some req -> Events req' = Events req ++ more ->
  events_of (<[key := req']> m) ≡ₚ events_of m ++ more.
Proof.
  intros Hm He. rewrite (events_of_delete m key req Hm), <-insert_delete_eq,
    events_of_insert by apply lookup_delete_eq.
  rewrite He, <-!(assoc_L (++)). f_equiv. apply (comm (++)).
Qed.

Lemma events_of_filter m (P : string * Request -> Prop) `{!forall x, Decision (P x)} :
  events_of m ≡ₚ events_of (filter P m) ++ events_of (filter (fun x => ~ P x) m).
Proof.
  induction m as [|key req m Hm IH] using map_ind; [done|].
  rewrite events_of_insert, IH by done. destruct (decide (P (key, req))).
  - rewrite (map_filter_insert_True P) by done.
    rewrite (map_filter_insert_not' (fun x => ~ P x)) by (rewrite ?Hm; by intros ? || eauto).
    rewrite events_of_insert by by apply map_lookup_filter_None_2; left. by rewrite (assoc_L (++)).
  - rewrite (map_filter_insert_True (fun x => ~ P x)) by done.
    rewrite (map_filter_insert_not' P) by (rewrite ?Hm; done).
    rewrite (events_of_insert (filter _ m)) by by apply map_lookup_filter_None_2; left.
    rewrite !(assoc_L (++)). f_equiv. apply (comm (++)).
Qed.

(** ** Every step keeps the invariant *)

Lemma NewDiagnoseAggregator_inv enabled w : agg_inv (NewDiagnoseAggregator enabled w).
Proof.
  split; cbn; try done; try by intros; simplify_map_eq.
  intros t [[? Ht]|[? Ht]]; by rewrite lookup_empty in Ht.
Qed.

Lemma agg_Submit_inv a event pluginName ins cfg :
  agg_inv a -> agg_inv (agg_Submit a event (ExtractCheckSnapshot event) pluginName ins cfg).
Proof.
  intros Hinv. unfold agg_Submit. case_match; [done|].
  set (target := event_target event pluginName). set (key := target_key pluginName target).
  destruct (pending a !! key) as [req|] eqn:Hp.
  - destruct (agg_requests a Hinv _ _ Hp) as (Hk & Hne & Hc). split; cbn.
    + intros k. rewrite <-(agg_timer a Hinv k). destruct (decide (k = key)) as [->|?]; simplify_map_eq;
        rewrite ?Hp; naive_solver.
    + apply (agg_armed a Hinv).
    + apply (agg_fresh a Hinv).
    + apply (agg_disjoint a Hinv).
    + intros k r [[<- <-]|[_ Hr]]%lookup_insert_Some; [|by apply (agg_requests a Hinv)].
      split; [done|]. cbn. rewrite map_app, Hc. split; [|done]. by destruct (Events req).
    + apply (agg_submitted a Hinv).
    + rewrite (agg_events a Hinv), (events_of_update _ _ req _ [event]) by done.
      rewrite <-!(assoc_L (++)). f_equiv. rewrite (assoc_L (++)). apply (comm (++)).
  - split; cbn.
    + intros k. destruct (decide (k = key)) as [->|?]; simplify_map_eq; [naive_solver|].
      apply (agg_timer a Hinv).
    + intros k t [[<- <-]|[Hne Ht]]%lookup_insert_Some; [left; apply lookup_insert_eq|].
      destruct (agg_armed a Hinv k t Ht) as [Ha|He]; [left|by right].
      rewrite lookup_insert_ne; [done|]. intros <-.
      pose proof (agg_fresh a Hinv (next_timer a) (or_introl (mk_is_Some _ _ Ha))). lia.
    + intros t [Ht|Ht].
      * apply lookup_insert_is_Some in Ht as [<-|[_ Ht]]; [lia|].
        pose proof (agg_fresh a Hinv t (or_introl Ht)). lia.
      * pose proof (agg_fresh a Hinv t (or_intror Ht)). lia.
    + intros t [<-|[_ Ht]]%lookup_insert_is_Some; [|by apply (agg_disjoint a Hinv)].
      apply eq_None_not_Some. intros He. pose proof (agg_fresh a Hinv _ (or_intror He)). lia.
    + intros k r [[<- <-]|[_ Hr]]%lookup_insert_Some; [|by apply (agg_requests a Hinv)]. by split.
    + apply (agg_submitted a Hinv).
    + rewrite (agg_events a Hinv), events_of_insert by done. cbn.
      by rewrite <-Permutation_cons_append.
Qed.

Lemma expire_inv a t : agg_inv a -> agg_inv (expire t a).
Proof.
  intros Hinv. unfold expire. destruct (armed a !! t) as [key|] eqn:Ha; [|done].
  split; cbn; try apply Hinv.
  - intros k t' Ht. destruct (agg_armed a Hinv k t' Ht) as [H1|H1].
    + destruct (decide (t' = t)) as [->|?]; [right|left]; simplify_map_eq; done.
    + right. rewrite lookup_insert_ne; [done|]. intros <-.
      rewrite (agg_disjoint a Hinv t) in H1 by done. done.
  - intros t' [[_ H1]%lookup_delete_is_Some|[<-|[_ H1]]%lookup_insert_is_Some];
      apply (agg_fresh a Hinv); eauto.
  - intros t' [Hne H1]%lookup_delete_is_Some. rewrite lookup_insert_ne by done.
    by apply (agg_disjoint a Hinv).
Qed.

Lemma on_timer_inv a t : agg_inv a -> agg_inv (on_timer t a).2.
Proof.
  intros Hinv. unfold on_timer. destruct (expired a !! t) as [key|] eqn:He; [|done].
  split; cbn.
  - intros k. rewrite !lookup_delete_is_Some. by rewrite (agg_timer a Hinv k).
  - intros k t' [Hne Ht]%lookup_delete_Some. destruct (agg_armed a Hinv k t' Ht) as [H1|H1]; [by left|].
    right. rewrite lookup_delete_ne; [done|]. intros <-. congruence.
  - intros t' [H1|[_ H1]%lookup_delete_is_Some]; apply (agg_fresh a Hinv); eauto.
  - intros t' H1. apply lookup_delete_None. right. by apply (agg_disjoint a Hinv).
  - intros k r [_ Hr]%lookup_delete_Some. by apply (agg_requests a Hinv).
  - apply Forall_app_2; [apply (agg_submitted a Hinv)|].
    destruct (pending a !! key) as [req|] eqn:Hp; [|constructor].
    pose proof (agg_requests a Hinv _ _ Hp) as Hr. constructor; [|done].
    destruct Hr as (Hk & ? & ?). by rewrite Hk.
  - rewrite (agg_events a Hinv), map_app, join_app.
    destruct (pending a !! key) as [req|] eqn:Hp; cbn.
    + rewrite (events_of_delete _ _ _ Hp), app_nil_r. solve_Permutation.
    + rewrite delete_id by done. by rewrite app_nil_r.
Qed.

Lemma agg_Shutdown_pending a :
  agg_inv a -> pending (agg_Shutdown a) = ∅ /\
  filter (fun kr : string * Request => timers a !! kr.1 <> None) (pending a) = pending a.
Proof.
  intros Hinv. split; cbn.
  - apply map_empty. intros k. apply map_lookup_filter_None. right. intros r Hk Ht. cbn in Ht.
    destruct (proj1 (agg_timer a Hinv k) (mk_is_Some _ _ Hk)). congruence.
  - apply map_filter_id. intros k r Hk. cbn.
    destruct (proj1 (agg_timer a Hinv k) (mk_is_Some _ _ Hk)). congruence.
Qed.

Lemma agg_Shutdown_inv a : agg_inv a -> agg_inv (agg_Shutdown a).
Proof.
  intros Hinv. destruct (agg_Shutdown_pending a Hinv) as [Hp Hf]. split; rewrite ?Hp; cbn.
  - intros k. rewrite !lookup_empty. by split; intros [? [=]].
  - done.
  - intros t [[? [H1 _]%map_lookup_filter_Some]|H1]; apply (agg_fresh a Hinv); eauto.
  - intros t [? [H1 _]%map_lookup_filter_Some]. by apply (agg_disjoint a Hinv).
  - done.
  - apply (agg_submitted a Hinv).
  - rewrite Hf, (agg_events a Hinv), map_app, join_app. fold (events_of (pending a)).
    change (events_of ∅) with (@nil Event). solve_Permutation.
Qed.

Lemma agg_step_inv a a' : agg_step a a' -> agg_inv a -> agg_inv a'.
Proof.
  intros [] Hinv; [by apply agg_Submit_inv|by apply expire_inv|by apply on_timer_inv|by apply agg_Shutdown_inv].
Qed.

(** ** Properties *)

(** C6: Whatever the interleaving of alerts, timers and shutdowns: every alert the
    aggregator takes in ends up in exactly one request, once; a request holds
    the alerts of one target with their snapshots, in step; and every waiting
    request has a timer that will take it out. *)
Theorem aggregator_conserves_events enabled w a
    (Hrun : rtc agg_step (NewDiagnoseAggregator enabled w) a) :
  (accepted a ≡ₚ events_of (pending a) ++ mjoin (map Events (submitted a))
     ++ mjoin (map Events (dropped a))) /\
  (forall key req, pending a !! key = Some req ->
     request_ok key req /\ exists t, armed a !! t = Some key \/ expired a !! t = Some key) /\
  Forall (fun req => request_ok (req_key req) req) (submitted a).
Proof.
  assert (forall a0, agg_inv a0 -> rtc agg_step a0 a -> agg_inv a) as Hi.
  { intros a0 H0 Hr. induction Hr as [|a1 a2 a3 H12 _ IH]; [done|]. by apply IH, (agg_step_inv a1). }
  pose proof (Hi _ (NewDiagnoseAggregator_inv enabled w) Hrun) as Hinv.
  split_and!; [apply (agg_events a Hinv)| |apply (agg_submitted a Hinv)].
  intros key req Hp. split; [by apply (agg_requests a Hinv)|].
  destruct (proj1 (agg_timer a Hinv key) (mk_is_Some _ _ Hp)) as [t Ht].
  exists t. by apply (agg_armed a Hinv).
Qed.

(** An alert is taken in exactly when diagnosis is on, globally and for the
    plugin, and the alert reaches the configured severity; a higher severity is
    never refused where a lower one is accepted. *)
Theorem shouldTrigger_threshold cfg s1 s2
    (Hle : SeverityRank s1 <= SeverityRank s2) (H1 : shouldTrigger cfg s1 = true) :
  shouldTrigger cfg s2 = true /\ diag_Enabled cfg = true /\
  (MinSeverity cfg = "" -> SeverityRank EventStatusWarning <= SeverityRank s2).
Proof.
  revert H1. unfold shouldTrigger. destruct (diag_Enabled cfg); [|done]. cbn [negb].
  intros H1. zbool. split_and!; [apply Z.leb_le; lia|done|].
  intros Hm. rewrite decide_True in H1 by done. lia.
Qed.

(** An alert below the configured severity is not taken in, but the alert
    engine remembers its key as diagnosed: when the same alert becomes critical
    the engine does not offer it again. *)
Theorem rejected_alert_is_never_diagnosed :
  let ins := mkInstance None (mkAlerting false 0 0 0 false) (mkDiagnoseConfig true "" 0 0) in
  let ev status := mkEvent 0 status "key" (Some {["check" := "disk"]}) None "" "" 0 0 0 in
  let st := mkEngineState {[1%positive := ev EventStatusInfo]} ∅ ∅ tt
              (Some (NewDiagnoseAggregator true 0)) [] in
  let st1 := mayTriggerDiagnose 1 "disk" ins st in
  let st2 := mayTriggerDiagnose 1 "disk" ins (update 1 (ev EventStatusCritical) st1) in
  shouldTrigger (ins_Diagnose ins) EventStatusCritical = true /\
  (accepted <$> Engine.aggregator st2) = Some [].
Proof. split; vm_compute; reflexivity. Qed.

(** ** Witnesses *)

Definition ex_alert (check status : string) : Event :=
  mkEvent 100 status check (Some (<["target" := "host"]> {["check" := check]})) None "" "" 0 0 0.
Definition ex_submit (check : string) (a : Aggregator) : Aggregator :=
  let event := ex_alert check EventStatusCritical in
  agg_Submit a event (ExtractCheckSnapshot event) "disk"
    (mkInstance None (mkAlerting false 0 0 0 false) (mkDiagnoseConfig true "" 0 0))
    (mkDiagnoseConfig true "" 0 0).

(** Two alerts of one target share a request; a third one arrives after the
    timer has fired. *)
Definition ex_aggregator : Aggregator :=
  ex_submit "iops" (on_timer 0 (expire 0 (ex_submit "inodes" (ex_submit "space"
    (NewDiagnoseAggregator true Second))))).2.

Lemma aggregator_conserves_events_witness :
  map (fun req => map AlertKey (Events req)) (submitted ex_aggregator) = [["space"; "inodes"]] /\
  accepted ex_aggregator ≡ₚ events_of (pending ex_aggregator)
    ++ mjoin (map Events (submitted ex_aggregator)) ++ mjoin (map Events (dropped ex_aggregator)).
Proof.
  split; [vm_compute; reflexivity|].
  refine (proj1 (aggregator_conserves_events true Second ex_aggregator _)).
  do 5 (eapply rtc_r; [|constructor]). apply rtc_refl.
Defined.
