(* ===== verification/RingBuf.v ===== *)
(** * The alert ring buffer (digcore/server/ringbuf.go)

    A circular buffer that overwrites its oldest element when it is full.  The
    specification is a list: [push_fifo] and [drain_fifo]; the refinement
    theorem says the indices implement it. *)
From S2P Require Import Prelude.
#[local] Open Scope Z_scope.

Section ring.
Context {A : Type}.
(** The nil pointer. *)
Variable nil : A.

(** [head] is the next write position; indices are below [cap], so they are
    natural numbers. *)
Record RingBuffer := mkRing { buf : list A; ring_cap : nat; head : nat; count : nat }.

Definition NewRingBuffer (capacity : Z) : RingBuffer :=
  let capacity := if capacity <=? 0 then 1000 else capacity in
  let n := Z.to_nat capacity in
  mkRing (replicate n nil) n 0 0.

Definition Push (event : A) (r : RingBuffer) : RingBuffer :=
  mkRing (<[head r := event]> (buf r)) (ring_cap r) ((head r + 1) mod ring_cap r)
    (if (count r <? ring_cap r)%nat then S (count r) else count r).

(** [(r.head - r.count + r.cap) % r.cap]. *)
Definition tail (r : RingBuffer) : nat := (head r + ring_cap r - count r) mod ring_cap r.

(** The loop of [Drain]: [n] elements from [idx] on are taken and set to nil. *)
Fixpoint drain_loop (n : nat) (t i : nat) (cap : nat) (b : list A) : list A * list A :=
  match n with
  | O => ([], b)
  | S n' =>
    let idx := ((t + i) mod cap)%nat in
    let x := default nil (b !! idx) in
    let '(xs, b') := drain_loop n' t (S i) cap (<[idx := nil]> b) in
    (x :: xs, b')
  end.

(** A negative [maxItems] panics when the result is allocated. *)
Definition Drain (maxItems : Z) (r : RingBuffer) : go (list A * RingBuffer) :=
  if (count r =? 0)%nat then Ret ([], r)
  else
    let n := if maxItems <? Z.of_nat (count r) then maxItems else Z.of_nat (count r) in
    if n <? 0 then Panic
    else
      let '(xs, b) := drain_loop (Z.to_nat n) (tail r) 0 (ring_cap r) (buf r) in
      Ret (xs, mkRing b (ring_cap r) (head r) (count r - Z.to_nat n)).

Definition Len (r : RingBuffer) : Z := Z.of_nat (count r).

(** ** The specification: a bounded queue *)
Definition push_fifo (cap : nat) (x : A) (q : list A) : list A :=
  (if (length q <? cap)%nat then q else drop 1 q) ++ [x].
Definition drain_fifo (n : nat) (q : list A) : list A * list A := (take n q, drop n q).

(** ** The representation *)
Record ring_wf (r : RingBuffer) : Prop := {
  wf_length : length (buf r) = ring_cap r;
  wf_head : (head r < ring_cap r)%nat;
  wf_count : (count r <= ring_cap r)%nat
}.

(** The [i]-th element, oldest first. *)
Definition position (r : RingBuffer) (i : nat) : nat := ((tail r + i) mod ring_cap r)%nat.
Definition contents (r : RingBuffer) : list A :=
  map (fun i => default nil (buf r !! position r i)) (seq 0 (count r)).

(** ** Lemmas *)

Lemma mod_wrap x cap : (0 < cap)%nat -> (x < 2 * cap)%nat ->
  (x mod cap = if decide (x < cap) then x else x - cap)%nat.
Proof.
  intros Hc Hx. case_decide; [by apply Nat.mod_small|].
  symmetry. apply (Nat.mod_unique x cap 1); lia.
Qed.

Lemma mod_mod_wrap x i cap : (0 < cap)%nat -> ((x mod cap + i) mod cap = (x + i) mod cap)%nat.
Proof. intros. by rewrite Nat.Div0.add_mod_idemp_l. Qed.

Lemma position_sum r i : ring_wf r ->
  position r i = ((head r + ring_cap r - count r + i) mod ring_cap r)%nat.
Proof. intros [? ? ?]. unfold position, tail. apply mod_mod_wrap. lia. Qed.

Lemma position_eq r i : ring_wf r -> (i < count r)%nat ->
  position r i = (if decide (head r + i < count r) then head r + ring_cap r - count r + i
                  else head r + i - count r)%nat.
Proof.
  intros Hwf Hi. rewrite position_sum by done. destruct Hwf as [? ? ?].
  rewrite mod_wrap by lia. repeat case_decide; lia.
Qed.

Lemma length_contents r : length (contents r) = count r.
Proof. unfold contents. by rewrite length_map, length_seq. Qed.

Lemma contents_lookup r i :
  contents r !! i = if decide (i < count r)%nat then Some (default nil (buf r !! position r i)) else None.
Proof.
  unfold contents. rewrite list_lookup_fmap. case_decide.
  - by rewrite lookup_seq_lt by lia.
  - by rewrite lookup_seq_ge by lia.
Qed.

Lemma Push_wf x r : ring_wf r -> ring_wf (Push x r).
Proof.
  intros [? ? ?]. split; cbn; [by rewrite length_insert| |case_match eqn:E].
  - apply Nat.mod_upper_bound. lia.
  - apply Nat.ltb_lt in E. lia.
  - lia.
Qed.

(** The writes of [Drain] behind the read position do not disturb it. *)
Lemma drain_loop_spec n r i b :
  ring_wf r -> (i + n <= count r)%nat -> length b = ring_cap r ->
  (forall j, (i <= j < count r)%nat -> b !! position r j = buf r !! position r j) ->
  let '(xs, b') := drain_loop n (tail r) i (ring_cap r) b in
  xs = map (fun j => default nil (buf r !! position r j)) (seq i n) /\ length b' = ring_cap r /\
  forall j, (i + n <= j < count r)%nat -> b' !! position r j = buf r !! position r j.
Proof.
  intros Hwf. revert i b. induction n as [|n IH]; intros i b Hi Hl Hb; cbn [drain_loop seq map].
  { split_and!; [done|done|]. intros j ?. apply Hb. lia. }
  fold (position r i).
  specialize (IH (S i) (<[position r i := nil]> b)).
  destruct (drain_loop n _ _ _ _) as [xs b']. rewrite length_insert in IH.
  destruct IH as (Hxs & Hl' & Hb'); [lia|done| |].
  { intros j Hj. rewrite list_lookup_insert_ne; [apply Hb; lia|].
    rewrite !position_eq by (done || lia). destruct Hwf. repeat case_decide; lia. }
  split_and!; [by rewrite Hb, Hxs by lia|done|]. intros j ?. apply Hb'. lia.
Qed.

Lemma head_Push x r : ring_wf r ->
  head (Push x r) = (if decide (head r + 1 < ring_cap r) then head r + 1 else 0)%nat.
Proof. intros [? ? ?]. cbn. rewrite mod_wrap by lia. case_decide; lia. Qed.

(** Where the elements of the buffer are after a [Push]: [k] elements were
    there before and stay; [d] is 1 when the oldest one goes. *)
Lemma position_Push x r i (d := if (count r <? ring_cap r)%nat then 0%nat else 1%nat) :
  ring_wf r -> (i < count (Push x r))%nat ->
  if decide (i + d < count r)%nat
  then position (Push x r) i = position r (i + d) /\ position r (i + d) <> head r
  else position (Push x r) i = head r /\ i = (count r - d)%nat.
Proof.
  intros Hwf Hi. pose proof (Push_wf x r Hwf) as Hwf'.
  rewrite (position_eq (Push x r)), head_Push by done.
  assert (count (Push x r) = count r + 1 - d)%nat as Hcount.
  { subst d. cbn [count Push]. destruct Hwf as [_ _ ?].
    destruct (count r <? ring_cap r)%nat eqn:E; [lia|]. apply Nat.ltb_ge in E. lia. }
  assert (d = 0%nat /\ (count r < ring_cap r)%nat \/ d = 1%nat /\ count r = ring_cap r) as Hcase.
  { subst d. destruct Hwf as [_ _ ?]. destruct (count r <? ring_cap r)%nat eqn:E;
      [apply Nat.ltb_lt in E; by left|]. apply Nat.ltb_ge in E. right. lia. }
  clearbody d. rewrite Hcount in *. case_decide as Hd; [rewrite position_eq by done|];
    destruct Hwf as [? ? ?]; cbn [ring_cap Push]; repeat case_decide; lia.
Qed.

Lemma contents_Push x r : ring_wf r -> contents (Push x r) = push_fifo (ring_cap r) x (contents r).
Proof.
  intros Hwf. set (d := if (count r <? ring_cap r)%nat then 0%nat else 1%nat).
  assert (push_fifo (ring_cap r) x (contents r) = drop d (contents r) ++ [x]) as ->.
  { unfold push_fifo, d. rewrite length_contents. by case_match. }
  assert (count (Push x r) = count r - d + 1)%nat as Hcount.
  { unfold d. destruct Hwf as [? ? ?]. cbn [count Push].
    destruct (count r <? ring_cap r)%nat eqn:E; [lia|]. apply Nat.ltb_ge in E. lia. }
  apply list_eq. intros i. rewrite contents_lookup. case_decide as Hi; cycle 1.
  { symmetry. apply lookup_ge_None. rewrite length_app, length_drop, length_contents. cbn. lia. }
  pose proof (position_Push x r i Hwf Hi) as Hp. fold d in Hp. case_decide as Hd.
  - destruct Hp as [-> Hne]. cbn [buf Push]. rewrite list_lookup_insert_ne by done.
    rewrite lookup_app_l by (rewrite length_drop, length_contents; lia).
    rewrite lookup_drop, contents_lookup, decide_True by lia. by rewrite (Nat.add_comm d i).
  - destruct Hp as [-> ->]. cbn [buf Push]. destruct Hwf as [? ? ?].
    rewrite list_lookup_insert_eq by lia. cbn.
    rewrite lookup_app_r by (rewrite length_drop, length_contents; lia).
    by rewrite length_drop, length_contents, Nat.sub_diag.
Qed.

Lemma Drain_spec r maxItems : ring_wf r -> 0 <= maxItems ->
  exists xs r', Drain maxItems r = Ret (xs, r') /\ ring_wf r' /\ ring_cap r' = ring_cap r /\
    (xs, contents r') = drain_fifo (Z.to_nat maxItems) (contents r).
Proof.
  intros Hwf Hmax. unfold Drain. destruct (count r =? 0)%nat eqn:E0.
  { apply Nat.eqb_eq in E0. exists [], r. split_and!; [done..|]. unfold drain_fifo.
    pose proof (length_contents r) as Hl. rewrite E0 in Hl. destruct (contents r); [|done].
    by rewrite take_nil, drop_nil. }
  set (n := if maxItems <? Z.of_nat (count r) then maxItems else Z.of_nat (count r)).
  assert (0 <= n <= Z.of_nat (count r) /\ n = Z.min maxItems (Z.of_nat (count r))) as [Hn Hmin]
    by (unfold n; case_match; zbool; lia).
  clearbody n. replace (n <? 0) with false by (symmetry; apply Z.ltb_ge; lia).
  pose proof (drain_loop_spec (Z.to_nat n) r 0 (buf r) Hwf ltac:(lia) (wf_length r Hwf) ltac:(done)) as Hd.
  destruct (drain_loop _ _ _ _ _) as [xs b]. destruct Hd as (Hxs & Hl & Hb).
  set (r' := mkRing _ _ _ _). assert (ring_wf r') as Hwf' by (destruct Hwf; split; cbn; lia).
  exists xs, r'. split_and!; [done..|]. unfold drain_fifo.
  assert (forall i, (i < count r')%nat -> position r' i = position r (Z.to_nat n + i)) as Hpos.
  { intros i Hi. rewrite !position_eq by (done || (cbn in *; lia)). cbn in *. destruct Hwf.
    repeat case_decide; lia. }
  f_equal.
  - rewrite Hxs. unfold contents. rewrite firstn_map. f_equal. rewrite take_seq. f_equal. lia.
  - apply list_eq. intros i. rewrite lookup_drop, !contents_lookup. cbn [count].
    destruct (decide (Z.to_nat maxItems + i < count r)%nat) as [Hi|Hi].
    + rewrite decide_True by (cbn; lia). rewrite Hpos by (cbn; lia). cbn [buf].
      rewrite Hb by lia. by replace (Z.to_nat n) with (Z.to_nat maxItems) by lia.
    + rewrite decide_False; [done|]. cbn. lia.
Qed.

(** ** Properties *)

(** C7: The buffer implements a bounded queue: [Push] appends and forgets the
    oldest element only when the buffer is full, [Drain] takes the oldest
    elements in order, and both keep the buffer well formed. *)
Theorem RingBuffer_refines_fifo r x maxItems (Hwf : ring_wf r) (Hmax : 0 <= maxItems) :
  (ring_wf (Push x r) /\ contents (Push x r) = push_fifo (ring_cap r) x (contents r)) /\
  exists xs r', Drain maxItems r = Ret (xs, r') /\ ring_wf r' /\ ring_cap r' = ring_cap r /\
    (xs, contents r') = drain_fifo (Z.to_nat maxItems) (contents r).
Proof. split; [split; [by apply Push_wf|by apply contents_Push]|by apply Drain_spec]. Qed.

(** A new buffer is well formed and empty, whatever capacity is asked for. *)
Theorem NewRingBuffer_empty capacity :
  ring_wf (NewRingBuffer capacity) /\ contents (NewRingBuffer capacity) = [] /\
  Z.of_nat (ring_cap (NewRingBuffer capacity)) = if capacity <=? 0 then 1000 else capacity.
Proof.
  unfold NewRingBuffer. destruct (capacity <=? 0) eqn:E; zbool;
    (split_and!; [split; cbn; rewrite ?length_replicate; lia|done|cbn; lia]).
Qed.
End ring.

(** ** Witness: a buffer of two after three pushes *)

Definition ex_ring : RingBuffer (A := nat) := Push 3%nat (Push 2%nat (Push 1%nat (NewRingBuffer 0%nat 2))).

Lemma RingBuffer_refines_fifo_witness :
  contents 0%nat ex_ring = [2; 3]%nat /\
  contents 0%nat (Push 4%nat ex_ring) = push_fifo 2 4%nat [2; 3]%nat /\
  exists xs r', Drain 0%nat 1 ex_ring = Ret (xs, r') /\ ring_wf r' /\ ring_cap r' = 2%nat /\
    (xs, contents 0%nat r') = drain_fifo 1 [2; 3]%nat.
Proof.
  assert (ring_wf ex_ring) as Hwf by (split; vm_compute; lia).
  split; [vm_compute; reflexivity|].
  destruct (RingBuffer_refines_fifo 0%nat ex_ring 4%nat 1 Hwf ltac:(lia)) as [[_ Hp] Hd].
  split; [exact Hp|exact Hd].
Defined.
