(* ===== verification/Session.v ===== *)
(** * Remote sessions (digcore/server/session.go and session_handler.go)

    The server starts, feeds and cancels sessions; each one runs in a goroutine
    of the agent and holds a slot of the limiter it shares with local
    diagnoses.  Sessions are shared objects: the table maps an ID to one, the
    goroutine keeps its own reference. *)
From S2P Require Import Prelude Types Config DiagEngine.
#[local] Open Scope Z_scope.

(** ** The interface [ConcurrencyLimiter]: slots are taken and given back *)
Class ConcurrencyLimiter (L : Type) := {
  limiter_TrySem : L -> bool * L;
  limiter_ReleaseSem : L -> L;
  taken : L -> Z;
  limiter_try l : taken (limiter_TrySem l).2 = taken l + if (limiter_TrySem l).1 then 1 else 0;
  limiter_release l : taken (limiter_ReleaseSem l) = taken l - 1
}.

(** ** Messages *)
Record sessionStartPayload := mkStartPayload {
  start_SessionID : string;
  SessionType : string;
  UserName : string;
  Params : gomap anyval
}.
Record sessionInputPayload := mkInputPayload { input_SessionID : string; input_Message : string }.
Record sessionCancelPayload := mkCancelPayload { cancel_SessionID : string; cancel_Reason : string }.

(** What the connection sends; [turn_done] is the only metadata it adds itself. *)
Inductive OutMsg :=
| OutAck (refID : string) (ok : bool) (errMsg : string)
| OutOutput (sessionID delta stage : string) (done : bool) (report : string) (turn_done : bool)
| OutError (sessionID errMsg code : string).

(** [cancel] is the context the session was given; [inputCh] is nil for a
    session that is not a chat. *)
Record remoteSession := mkRemoteSession {
  sessionID : string;
  sessionType : string;
  inputCh : option (list string)
}.
Definition inputCap : Z := 8.

Section session.
Context {L : Type} `{!ConcurrencyLimiter L}.

(** [heap] holds every session ever made, by reference; [cancelled] the
    sessions whose context was cancelled; [goroutines] those that run. *)
Record Conn := mkConn {
  heap : gmap nat remoteSession;
  sessions : gmap string nat;
  cancelled : gset nat;
  goroutines : list nat;
  next_ref : nat;
  concurrencyLimiter : option L;
  has_diagnoseRunner : bool;
  has_chatRunner : bool;
  out : list OutMsg
}.

Definition send (m : OutMsg) (c : Conn) : Conn :=
  mkConn (heap c) (sessions c) (cancelled c) (goroutines c) (next_ref c) (concurrencyLimiter c)
    (has_diagnoseRunner c) (has_chatRunner c) (out c ++ [m]).
Definition set_sessions (m : gmap string nat) (c : Conn) : Conn :=
  mkConn (heap c) m (cancelled c) (goroutines c) (next_ref c) (concurrencyLimiter c)
    (has_diagnoseRunner c) (has_chatRunner c) (out c).
Definition set_heap (h : gmap nat remoteSession) (c : Conn) : Conn :=
  mkConn h (sessions c) (cancelled c) (goroutines c) (next_ref c) (concurrencyLimiter c)
    (has_diagnoseRunner c) (has_chatRunner c) (out c).
Definition cancel_ref (i : nat) (c : Conn) : Conn :=
  mkConn (heap c) (sessions c) ({[i]} ∪ cancelled c) (goroutines c) (next_ref c) (concurrencyLimiter c)
    (has_diagnoseRunner c) (has_chatRunner c) (out c).
Definition set_goroutines (g : list nat) (c : Conn) : Conn :=
  mkConn (heap c) (sessions c) (cancelled c) g (next_ref c) (concurrencyLimiter c)
    (has_diagnoseRunner c) (has_chatRunner c) (out c).
Definition set_limiter (l : L) (c : Conn) : Conn :=
  mkConn (heap c) (sessions c) (cancelled c) (goroutines c) (next_ref c) (Some l)
    (has_diagnoseRunner c) (has_chatRunner c) (out c).
Definition alloc (s : remoteSession) (c : Conn) : nat * Conn :=
  (next_ref c,
   mkConn (<[next_ref c := s]> (heap c)) (sessions c) (cancelled c) (goroutines c) (S (next_ref c))
     (concurrencyLimiter c) (has_diagnoseRunner c) (has_chatRunner c) (out c)).

(** ** sessionManager *)
Definition add (id : string) (i : nat) (c : Conn) : bool * Conn :=
  match sessions c !! id with
  | Some _ => (false, c)
  | None => (true, set_sessions (<[id := i]> (sessions c)) c)
  end.

(** Whatever session is in the table under the ID is removed and cancelled. *)
Definition remove (id : string) (c : Conn) : Conn :=
  match sessions c !! id with
  | Some i => cancel_ref i (set_sessions (delete id (sessions c)) c)
  | None => c
  end.

Definition get (id : string) (c : Conn) : option nat := sessions c !! id.
Definition count (c : Conn) : Z := Z.of_nat (size (sessions c)).

Definition cancelAll (c : Conn) : Conn :=
  fold_left (fun c i => cancel_ref i c) ((map_to_list (sessions c)).*2) (set_sessions ∅ c).

Definition ReleaseSem (c : Conn) : Conn :=
  match concurrencyLimiter c with Some l => set_limiter (limiter_ReleaseSem l) c | None => c end.

(** ** Handlers; a payload is [None] when it cannot be decoded *)
Definition sessionStartUnavailableError (c : Conn) (sessionType : string) : string :=
  match concurrencyLimiter c with
  | None =>
    if decide (sessionType = "chat") then "chat engine not available" else "diagnose engine not available"
  | Some _ =>
    if decide (sessionType = "chat") then
      if has_chatRunner c then "" else "chat engine not available"
    else if bool_decide (sessionType = "inspect") || bool_decide (sessionType = "diagnose") then
      if has_diagnoseRunner c then "" else "diagnose engine not available"
    else ""
  end.

Definition handleSessionStart (msgID : string) (payload : option sessionStartPayload) (c : Conn) : Conn :=
  match payload with
  | None => send (OutAck msgID false "invalid payload") c
  | Some p =>
    if decide (start_SessionID p = "") then send (OutAck msgID false "missing session_id") c
    else
      let engineErr := sessionStartUnavailableError c (SessionType p) in
      if negb (bool_decide (engineErr = "")) then send (OutAck msgID false engineErr) c
      else
        match concurrencyLimiter c with
        | None => c
        | Some l =>
          let '(got, l) := limiter_TrySem l in
          let c := set_limiter l c in
          if negb got then send (OutAck msgID false "max concurrent sessions reached") c
          else
            let '(i, c) := alloc (mkRemoteSession (start_SessionID p) (SessionType p)
              (if decide (SessionType p = "chat") then Some [] else None)) c in
            let '(added, c) := add (start_SessionID p) i c in
            if negb added then
              send (OutAck msgID false "duplicate session_id") (ReleaseSem (cancel_ref i c))
            else
              let c := send (OutAck msgID true "") c in
              set_goroutines (i :: goroutines c) c
        end
  end.

Definition handleSessionInput (payload : option sessionInputPayload) (c : Conn) : Conn :=
  match payload with
  | None => c
  | Some p =>
    match get (input_SessionID p) c with
    | None => c
    | Some i =>
      match heap c !! i with
      | None => c
      | Some s =>
        match inputCh s with
        | None => c
        | Some ch =>
          if decide (input_Message p = "") then c
          else if zlen ch <? inputCap
          then set_heap (<[i := mkRemoteSession (sessionID s) (sessionType s) (Some (ch ++ [input_Message p]))]> (heap c)) c
          else c
        end
      end
    end
  end.

Definition handleSessionCancel (payload : option sessionCancelPayload) (c : Conn) : Conn :=
  match payload with
  | None => c
  | Some p => remove (cancel_SessionID p) c
  end.

(** The goroutine of session [i] receives from its channel. *)
Definition receive_input (i : nat) (c : Conn) : option string * Conn :=
  match heap c !! i with
  | Some (mkRemoteSession id t (Some (m :: ch))) => (Some m, set_heap (<[i := mkRemoteSession id t (Some ch)]> (heap c)) c)
  | _ => (None, c)
  end.

(** The goroutine of session [i] ends: the deferred [sessions.remove] of its
    ID, then [ReleaseSem]. *)
Definition end_goroutine (i : nat) (c : Conn) : Conn :=
  match heap c !! i with
  | None => c
  | Some s =>
    ReleaseSem (remove (sessionID s)
      (set_goroutines (filter (fun j => j <> i) (goroutines c)) c))
  end.

(** ** What a session sends while it runs

    [W] is the world behind the runners; [ctx_done] tells whether the context
    of the session was cancelled. *)
Section run.
Context {W H : Type}.
Variable ctx_done : W -> bool.
(** [diagnoseRunner.RunStreaming]: the deltas it streams, then a report or an error. *)
Variable RunStreaming : string -> string -> string -> gomap anyval -> W ->
  list (string * string) * res string string * W.
(** [chatRunner.NewSession], and one turn of a chat: what it streams, and a
    reply or an error; a turn may panic. *)
Variable NewSession : bool -> W -> list (string * string) * res string H * W.
Variable HandleMessage : H -> string -> W -> list (string * string) * go (res string string) * W.

Definition stream (id : string) (l : list (string * string)) : list OutMsg :=
  map (fun ds => OutOutput id ds.1 ds.2 false "" false) l.

Definition param (params : gomap anyval) (k : string) : string :=
  match params ≫= lookup k with Some (AStr s) => s | _ => "" end.

Inductive outcome := OutcomeOk | OutcomeError | OutcomeCancelled.

(** Outcome, report and messages. *)
Definition runInspectOrDiagnose (has_runner : bool) (id type : string) (params : gomap anyval) (w : W)
  : outcome * string * list OutMsg * W :=
  if negb has_runner then
    (OutcomeError, "", [OutError id "diagnose engine not available" "engine_unavailable"], w)
  else
    let plugin := param params "plugin" in
    let target := param params "target" in
    if bool_decide (type = "inspect") && bool_decide (plugin = "") then
      (OutcomeError, "", [OutError id "plugin is required for inspect" "missing_plugin"], w)
    else
      let plugin := if decide (plugin = "") then "system" else plugin in
      let target := if decide (target = "") then "localhost" else target in
      let mode := if decide (type = "diagnose") then "alert" else "inspect" in
      let '(deltas, r, w) := RunStreaming mode plugin target params w in
      match r with
      | Bad err =>
        if ctx_done w then (OutcomeCancelled, "", stream id deltas, w)
        else (OutcomeError, "", stream id deltas ++ [OutError id err "diagnose_failed"], w)
      | Good report => (OutcomeOk, report, stream id deltas, w)
      end.

(** One turn; [Some] outcome ends the chat. *)
Definition processTurn (id : string) (h : H) (msg : string) (w : W) : option outcome * list OutMsg * W :=
  let '(deltas, r, w) := HandleMessage h msg w in
  match r with
  | Panic => (None, stream id deltas ++ [OutOutput id "internal error" "error" false "" true], w)
  | Ret (Bad err) =>
    if ctx_done w then (Some OutcomeCancelled, stream id deltas, w)
    else (None, stream id deltas ++ [OutOutput id err "error" false "" true], w)
  | Ret (Good reply) => (None, stream id deltas ++ [OutOutput id reply "answer" false "" true], w)
  end.

(** The messages of the user in the order the loop receives them; when there
    are no more the context is cancelled. *)
Fixpoint chat_loop (id : string) (h : H) (inputs : list string) (w : W) : outcome * list OutMsg * W :=
  match inputs with
  | [] => (OutcomeCancelled, [], w)
  | msg :: inputs' =>
    let '(o, ms, w) := processTurn id h msg w in
    match o with
    | Some o => (o, ms, w)
    | None => let '(o, ms', w) := chat_loop id h inputs' w in (o, ms ++ ms', w)
    end
  end.

Definition runChat (has_runner : bool) (id : string) (params : gomap anyval) (inputs : list string) (w : W)
  : outcome * list OutMsg * W :=
  if negb has_runner then
    (OutcomeError, [OutError id "chat engine not available" "engine_unavailable"], w)
  else if ctx_done w then (OutcomeCancelled, [], w)
  else
    let '(deltas, r, w) := NewSession false w in
    match r with
    | Bad err =>
      if ctx_done w then (OutcomeCancelled, stream id deltas, w)
      else (OutcomeError, stream id deltas ++ [OutError id err "chat_init_failed"], w)
    | Good h =>
      let msg := param params "message" in
      let '(o, ms, w) := chat_loop id h (if decide (msg = "") then inputs else msg :: inputs) w in
      (o, stream id deltas ++ ms, w)
    end.

(** The whole session; [inputs] is only read by a chat. *)
Definition runRemoteSession (has_diag has_chat : bool) (s : remoteSession) (params : gomap anyval)
    (inputs : list string) (w : W) : outcome * list OutMsg * W :=
  let id := sessionID s in
  let finish := OutOutput id "" "" true "" false in
  if ctx_done w then (OutcomeCancelled, [finish], w)
  else if bool_decide (sessionType s = "inspect") || bool_decide (sessionType s = "diagnose") then
    let '(o, report, ms, w) := runInspectOrDiagnose has_diag id (sessionType s) params w in
    (o, ms ++ [if decide (report = "") then finish else OutOutput id "" "" true report false], w)
  else if decide (sessionType s = "chat") then
    let '(o, ms, w) := runChat has_chat id params inputs w in (o, ms ++ [finish], w)
  else
    (OutcomeError, [OutError id ("unknown session type: " +:+ sessionType s) "invalid_type"; finish], w).

Definition is_done (m : OutMsg) : bool :=
  match m with OutOutput _ _ _ d _ _ => d | _ => false end.
Definition for_session (id : string) (m : OutMsg) : bool :=
  match m with OutOutput i _ _ _ _ _ | OutError i _ _ => bool_decide (i = id) | OutAck _ _ _ => false end.

Definition not_done (id : string) (ms : list OutMsg) : Prop :=
  Forall (fun m => is_done m = false /\ for_session id m = true) ms.

Lemma stream_not_done id l : not_done id (stream id l).
Proof. apply Forall_fmap, Forall_true. intros [d s]. cbn. by rewrite bool_decide_eq_true_2. Qed.

Lemma not_done_one id m : is_done m = false -> for_session id m = true -> not_done id [m].
Proof. by constructor. Qed.

Lemma chat_loop_not_done id h inputs w : not_done id (chat_loop id h inputs w).1.2.
Proof.
  revert w. induction inputs as [|msg inputs IH]; intros w; cbn [chat_loop]; [constructor|].
  destruct (processTurn id h msg w) as [[o ms] w1] eqn:Ht.
  assert (not_done id ms) as Hms.
  { revert Ht. unfold processTurn. destruct (HandleMessage h msg w) as [[ds r] w2].
    destruct r as [[reply|err]|]; [|case_match|]; intros [= <- <- <-];
      try apply Forall_app_2; try apply stream_not_done;
      (apply not_done_one; [done|cbn; by apply bool_decide_eq_true_2]). }
  destruct o; [done|]. specialize (IH w1). destruct (chat_loop id h inputs w1) as [[o' ms'] w2].
  by apply Forall_app_2.
Qed.

(** C15: Every session tells the server it is over exactly once, and last: all it
    sends before is marked as not done, and all carries its own ID. *)
Theorem runRemoteSession_done_once has_diag has_chat s params inputs w :
  exists ms last_msg, (runRemoteSession has_diag has_chat s params inputs w).1.2 = ms ++ [last_msg] /\
    not_done (sessionID s) ms /\ is_done last_msg = true /\ for_session (sessionID s) last_msg = true.
Proof.
  assert (forall report, for_session (sessionID s) (OutOutput (sessionID s) "" "" true report false) = true)
    as Hf by (intros; cbn; by apply bool_decide_eq_true_2).
  assert (forall e c, not_done (sessionID s) [OutError (sessionID s) e c]) as He
    by (intros; apply not_done_one; [done|cbn; by apply bool_decide_eq_true_2]).
  unfold runRemoteSession. destruct (ctx_done w).
  { exists [], (OutOutput (sessionID s) "" "" true "" false). split_and!; [done|constructor|done|apply Hf]. }
  destruct (_ || _).
  { destruct (runInspectOrDiagnose _ _ _ _ w) as [[[o report] ms] w1] eqn:Hr.
    eexists ms, _. split_and!; [done| |by case_decide|case_decide; apply Hf].
    revert Hr. unfold runInspectOrDiagnose. destruct has_diag; [|intros [= <- <- <- <-]; apply He].
    cbn [negb]. destruct (_ && _); [intros [= <- <- <- <-]; apply He|].
    destruct (RunStreaming _ _ _ _ w) as [[ds [rep|err]] w2]; [|case_match]; intros [= <- <- <- <-];
      try apply Forall_app_2; try apply stream_not_done; apply He. }
  case_decide.
  { destruct (runChat _ _ _ _ w) as [[o ms] w1] eqn:Hr. eexists ms, _.
    split_and!; [done| |done|apply Hf].
    revert Hr. unfold runChat. destruct has_chat; [|intros [= <- <- <-]; apply He]. cbn [negb].
    destruct (ctx_done w); [intros [= <- <- <-]; constructor|].
    destruct (NewSession false w) as [[ds [h|err]] w2].
    - set (ins := if decide _ then _ else _). pose proof (chat_loop_not_done (sessionID s) h ins w2) as Hl.
      destruct (chat_loop _ _ _ w2) as [[o2 ms2] w3]. intros [= <- <- <-].
      apply Forall_app_2; [apply stream_not_done|done].
    - case_match; intros [= <- <- <-]; try apply Forall_app_2; try apply stream_not_done; apply He. }
  eexists [_], _. split_and!; [done|apply He|done|apply Hf].
Qed.
End run.

(** ** The table, the goroutines and the slots *)

(** What may happen on a connection, in any order.  The end of a goroutine
    covers all that it does; [conn_step_all] is a disconnect. *)
Inductive conn_step : Conn -> Conn -> Prop :=
| conn_step_start msgID payload c : conn_step c (handleSessionStart msgID payload c)
| conn_step_input payload c : conn_step c (handleSessionInput payload c)
| conn_step_cancel payload c : conn_step c (handleSessionCancel payload c)
| conn_step_receive i c : conn_step c (receive_input i c).2
| conn_step_end i c : i ∈ goroutines c -> conn_step c (end_goroutine i c)
| conn_step_all c : conn_step c (cancelAll c).

(** The slots taken through this connection. *)
Definition conn_taken (c : Conn) : Z :=
  match concurrencyLimiter c with Some l => taken l | None => 0 end.

Record conn_inv (c : Conn) : Prop := {
  inv_nodup : NoDup (goroutines c);
  inv_refs i : is_Some (heap c !! i) -> (i < next_ref c)%nat;
  inv_running i : i ∈ goroutines c -> is_Some (heap c !! i);
  inv_table id i : sessions c !! id = Some i ->
    i ∈ goroutines c /\ exists s, heap c !! i = Some s /\ sessionID s = id;
  inv_input i s ch : heap c !! i = Some s -> inputCh s = Some ch -> zlen ch <= inputCap
}.

Definition conn_init (l : option L) (diag chat : bool) : Conn :=
  mkConn ∅ ∅ ∅ [] 0 l diag chat [].

Lemma conn_init_inv l diag chat : conn_inv (conn_init l diag chat).
Proof.
  split; cbn; [constructor| | | |].
  - intros i [? Hi]. by rewrite lookup_empty in Hi.
  - by intros i ?%elem_of_nil.
  - intros id i Hi. by rewrite lookup_empty in Hi.
  - intros i s ch Hi. by rewrite lookup_empty in Hi.
Qed.

(** Fields that do not matter to the invariant. *)
Lemma conn_inv_ext c c' :
  heap c' = heap c -> sessions c' = sessions c -> goroutines c' = goroutines c ->
  next_ref c' = next_ref c -> conn_inv c -> conn_inv c'.
Proof. intros Hh Hs Hg Hn []; split; rewrite ?Hh, ?Hs, ?Hg, ?Hn; done. Qed.

Lemma remove_fields id c :
  heap (remove id c) = heap c /\ sessions (remove id c) = delete id (sessions c) /\
  goroutines (remove id c) = goroutines c /\ next_ref (remove id c) = next_ref c /\
  concurrencyLimiter (remove id c) = concurrencyLimiter c.
Proof.
  unfold remove. destruct (sessions c !! id) eqn:E; [done|]. by rewrite delete_id.
Qed.

Lemma remove_inv id c : conn_inv c -> conn_inv (remove id c).
Proof.
  destruct (remove_fields id c) as (Hh & Hs & Hg & Hn & _). intros [].
  split; rewrite ?Hh, ?Hs, ?Hg, ?Hn; try done.
  intros id' i [_ Hi]%lookup_delete_Some. eauto.
Qed.

Lemma cancel_refs_fields l c :
  let c' := fold_left (fun c i => cancel_ref i c) l c in
  heap c' = heap c /\ sessions c' = sessions c /\ goroutines c' = goroutines c /\
  next_ref c' = next_ref c /\ concurrencyLimiter c' = concurrencyLimiter c.
Proof. revert c. induction l as [|i l IH]; intros c; [done|]. cbn. destruct (IH (cancel_ref i c)) as (? & ? & ? & ? & ?). done. Qed.

Lemma cancelAll_inv c : conn_inv c -> conn_inv (cancelAll c).
Proof.
  intros []. destruct (cancel_refs_fields ((map_to_list (sessions c)).*2) (set_sessions ∅ c))
    as (Hh & Hs & Hg & Hn & _). cbn in *.
  split; unfold cancelAll; by rewrite ?Hh, ?Hs, ?Hg, ?Hn.
Qed.

(** Changing the channel of a session, within its capacity. *)
Lemma set_input_inv i s ch c :
  conn_inv c -> heap c !! i = Some s -> zlen ch <= inputCap ->
  conn_inv (set_heap (<[i := mkRemoteSession (sessionID s) (sessionType s) (Some ch)]> (heap c)) c).
Proof.
  intros [] Hi Hch. split; cbn; try done.
  - intros j [->|[_ Hj]]%lookup_insert_is_Some; eauto.
  - intros j Hj. apply lookup_insert_is_Some. destruct (decide (i = j)); [by left|right; eauto].
  - intros id j Hj. destruct (inv_table0 id j Hj) as (Hg & s' & Hs' & Hid). split; [done|].
    destruct (decide (i = j)) as [->|Hne]; [|exists s'; by rewrite lookup_insert_ne].
    eexists. rewrite lookup_insert_eq. split; [done|]. cbn. congruence.
  - intros j s' ch' [[<- <-]|[_ Hj]]%lookup_insert_Some Hc; [|eauto]. cbn in Hc. by simplify_eq.
Qed.

Lemma handleSessionInput_inv payload c : conn_inv c -> conn_inv (handleSessionInput payload c).
Proof.
  intros Hinv. unfold handleSessionInput. repeat case_match; try done. zbool. subst.
  apply set_input_inv; [done..|]. rewrite zlen_app, zlen_cons, zlen_nil. unfold inputCap in *. lia.
Qed.

Lemma receive_input_inv i c : conn_inv c -> conn_inv (receive_input i c).2.
Proof.
  intros Hinv. unfold receive_input. destruct (heap c !! i) as [[id t [[|m ch]|]]|] eqn:Hi; try done.
  apply (set_input_inv i (mkRemoteSession id t (Some (m :: ch)))); [done..|].
  pose proof (inv_input c Hinv _ _ _ Hi eq_refl) as Hl. rewrite zlen_cons in Hl. lia.
Qed.

Lemma end_goroutine_inv i c : conn_inv c -> conn_inv (end_goroutine i c).
Proof.
  intros Hinv. unfold end_goroutine. destruct (heap c !! i) as [s|] eqn:Hi; [|done].
  set (c1 := set_goroutines _ c).
  destruct (remove_fields (sessionID s) c1) as (Hh & Hs & Hg & Hn & _).
  apply (conn_inv_ext (remove (sessionID s) c1)); try (unfold ReleaseSem; by case_match).
  split; rewrite ?Hh, ?Hs, ?Hg, ?Hn; cbn; try apply Hinv.
  - apply NoDup_filter, Hinv.
  - intros j [_ Hj]%list_elem_of_filter. by apply Hinv.
  - intros id j [Hne Hj]%lookup_delete_Some. destruct (inv_table c Hinv _ _ Hj) as (Hgj & s' & Hs' & Hid).
    split; [|eauto]. apply list_elem_of_filter. split; [|done]. intros ->. congruence.
Qed.

(** A request that is refused before anything changed. *)
Ltac refused := left; eexists; split_and!; [done..|by apply conn_inv_ext].

(** How a start request ends: refused, or a new session with its goroutine. *)
Lemma handleSessionStart_cases msgID payload c :
  let c' := handleSessionStart msgID payload c in
  (exists err, out c' = out c ++ [OutAck msgID false err] /\ sessions c' = sessions c /\
    goroutines c' = goroutines c /\ conn_taken c' = conn_taken c /\
    (conn_inv c -> conn_inv c')) \/
  (exists p, payload = Some p /\ sessions c !! start_SessionID p = None /\
    out c' = out c ++ [OutAck msgID true ""] /\
    sessions c' = <[start_SessionID p := next_ref c]> (sessions c) /\
    goroutines c' = next_ref c :: goroutines c /\ conn_taken c' = conn_taken c + 1 /\
    (conn_inv c -> conn_inv c')).
Proof.
  unfold handleSessionStart. destruct payload as [p|]; [|refused].
  case_decide; [refused|].
  destruct (sessionStartUnavailableError c (SessionType p)) as [|a err] eqn:He; cycle 1.
  { rewrite bool_decide_eq_false_2 by done. refused. }
  rewrite bool_decide_eq_true_2 by done. cbn [negb].
  destruct (concurrencyLimiter c) as [l|] eqn:Hl; cycle 1.
  { exfalso. revert He. unfold sessionStartUnavailableError. rewrite Hl. by case_decide. }
  pose proof (limiter_try l) as Ht. destruct (limiter_TrySem l) as [got l1]. cbn in Ht.
  destruct got; cbn [negb]; cycle 1.
  { left. eexists. unfold conn_taken. cbn. rewrite Hl. split_and!; [done..|lia|].
    by apply conn_inv_ext. }
  cbn [alloc]. unfold add. cbn. destruct (sessions c !! start_SessionID p) as [j|] eqn:Hs; cbn.
  - left. eexists. unfold conn_taken. cbn. rewrite Hl, limiter_release. split_and!; [done..|lia|].
    intros [Hnd Hrefs Hrun Htab Hin]. split; cbn; try done.
    + intros i [<-|[_ Hi]]%lookup_insert_is_Some; [lia|]. specialize (Hrefs i Hi). lia.
    + intros i Hi. apply lookup_insert_is_Some. destruct (decide (next_ref c = i)); [by left|right; eauto].
    + intros id i Hi. destruct (Htab id i Hi) as (Hg & s' & Hs' & Hid). split; [done|]. exists s'.
      rewrite lookup_insert_ne; [done|]. intros <-. specialize (Hrefs _ (mk_is_Some _ _ Hs')). lia.
    + intros i s' ch [[<- <-]|[_ Hi]]%lookup_insert_Some Hc; [|eauto]. cbn in Hc.
      case_decide; simplify_eq. done.
  - right. exists p. unfold conn_taken. cbn. rewrite Hl. split_and!; [done..|lia|].
    intros [Hnd Hrefs Hrun Htab Hin]. split; cbn.
    + constructor; [|done]. intros Hi%Hrun%Hrefs. lia.
    + intros i [<-|[_ Hi]]%lookup_insert_is_Some; [lia|]. specialize (Hrefs i Hi). lia.
    + intros i [->|Hi]%elem_of_cons; [by rewrite lookup_insert_eq|].
      apply lookup_insert_is_Some. destruct (decide (next_ref c = i)); [by left|right; eauto].
    + intros id i [[<- <-]|[_ Hi]]%lookup_insert_Some.
      { split; [by left|]. eexists. by rewrite lookup_insert_eq. }
      destruct (Htab id i Hi) as (Hg & s' & Hs' & Hid). split; [by right|]. exists s'.
      rewrite lookup_insert_ne; [done|]. intros <-. specialize (Hrefs _ (mk_is_Some _ _ Hs')). lia.
    + intros i s' ch [[<- <-]|[_ Hi]]%lookup_insert_Some Hc; [|eauto]. cbn in Hc.
      case_decide; simplify_eq. done.
Qed.

Lemma ReleaseSem_limiter c :
  is_Some (concurrencyLimiter c) ->
  is_Some (concurrencyLimiter (ReleaseSem c)) /\ conn_taken (ReleaseSem c) = conn_taken c - 1 /\
  goroutines (ReleaseSem c) = goroutines c.
Proof.
  intros [l Hl]. unfold ReleaseSem, conn_taken. rewrite Hl. cbn. rewrite limiter_release. by eauto.
Qed.

Lemma handleSessionStart_limiter msgID payload c :
  is_Some (concurrencyLimiter c) -> is_Some (concurrencyLimiter (handleSessionStart msgID payload c)).
Proof.
  intros [l Hl]. unfold handleSessionStart, add, ReleaseSem. rewrite Hl. cbn.
  repeat (case_match; simplify_eq/=; try done).
Qed.

Lemma filter_one_out i (l : list nat) :
  NoDup l -> i ∈ l -> S (length (filter (fun j => j <> i) l)) = length l.
Proof.
  intros Hnd. induction Hnd as [|j l Hj Hnd IH]; [by intros ?%elem_of_nil|].
  intros Hi. rewrite filter_cons. destruct (decide (j <> i)) as [Hji|Hji]; cbn [length].
  - apply elem_of_cons in Hi as [?|Hi]; [congruence|]. by rewrite IH.
  - apply dec_stable in Hji as ->. rewrite filter_all; [done|]. apply Forall_forall. by intros ? ? ->.
Qed.

(** The slots taken are those of the goroutines. *)
Lemma conn_step_taken c c' :
  conn_inv c -> is_Some (concurrencyLimiter c) -> conn_step c c' ->
  conn_inv c' /\ is_Some (concurrencyLimiter c') /\
  conn_taken c' - Z.of_nat (length (goroutines c')) = conn_taken c - Z.of_nat (length (goroutines c)).
Proof.
  intros Hinv Hlim Hstep. destruct Hstep as [msgID payload c|payload c|payload c|i c|i c Hi|c].
  - pose proof (handleSessionStart_limiter msgID payload c Hlim).
    destruct (handleSessionStart_cases msgID payload c) as
      [(e & _ & _ & Hg & Ht & Hin)|(p & _ & _ & _ & _ & Hg & Ht & Hin)]; rewrite Hg, Ht;
      (split; [by apply Hin|]); cbn [length]; split; done || lia.
  - split; [by apply handleSessionInput_inv|]. unfold handleSessionInput. by repeat case_match.
  - destruct payload as [p|]; [|done]. cbn. split; [by apply remove_inv|].
    destruct (remove_fields (cancel_SessionID p) c) as (_ & _ & Hg & _ & Hl). unfold conn_taken. by rewrite Hg, Hl.
  - split; [by apply receive_input_inv|]. unfold receive_input. by repeat case_match.
  - split; [by apply end_goroutine_inv|]. destruct (inv_running c Hinv i Hi) as [s Hs].
    unfold end_goroutine. rewrite Hs. set (c1 := set_goroutines _ c).
    destruct (remove_fields (sessionID s) c1) as (_ & _ & Hg & _ & Hl1).
    destruct (ReleaseSem_limiter (remove (sessionID s) c1)) as (Hl & Ht & Hg2); [by rewrite Hl1|].
    split; [done|]. rewrite Ht, Hg2, Hg. unfold conn_taken. rewrite Hl1. cbn.
    pose proof (filter_one_out i (goroutines c) (inv_nodup c Hinv) Hi). lia.
  - split; [by apply cancelAll_inv|]. unfold cancelAll.
    destruct (cancel_refs_fields ((map_to_list (sessions c)).*2) (set_sessions ∅ c))
      as (_ & _ & Hg & _ & Hl). unfold conn_taken. by rewrite Hg, Hl.
Qed.

(** ** Properties *)

(** C4: Whatever the order of starts, inputs, cancellations, disconnects and ends
    of goroutines: the slots taken through the connection are exactly its
    running goroutines, the table only lists sessions that run, under their own
    ID, and no session buffers more than eight inputs. *)
Theorem sessions_hold_slots l diag chat c (Hrun : rtc conn_step (conn_init (Some l) diag chat) c) :
  conn_taken c = taken l + Z.of_nat (length (goroutines c)) /\
  (forall id i, sessions c !! id = Some i ->
     i ∈ goroutines c /\ exists s, heap c !! i = Some s /\ sessionID s = id) /\
  (forall i s ch, heap c !! i = Some s -> inputCh s = Some ch -> zlen ch <= inputCap).
Proof.
  enough (conn_inv c /\ is_Some (concurrencyLimiter c) /\
    conn_taken c - Z.of_nat (length (goroutines c)) = taken l) as ([] & _ & Ht)
    by (split_and!; [lia|done..]).
  revert c Hrun. apply (rtc_ind_r (fun c => conn_inv c /\ _ /\ _)).
  { split; [apply conn_init_inv|]. cbn. split; [done|lia]. }
  intros c c' _ Hstep (Hinv & Hl & Ht).
  destruct (conn_step_taken c c' Hinv Hl Hstep) as (? & ? & ?). split_and!; [done..|lia].
Qed.

(** A start request is answered exactly once; a positive answer means that the
    session is in the table, runs and holds a slot, a negative one that no
    session, goroutine or slot was added. *)
Theorem handleSessionStart_acks msgID payload c :
  let c' := handleSessionStart msgID payload c in
  exists ok err, out c' = out c ++ [OutAck msgID ok err] /\
    if ok then exists p, payload = Some p /\ sessions c !! start_SessionID p = None /\
      sessions c' = <[start_SessionID p := next_ref c]> (sessions c) /\
      goroutines c' = next_ref c :: goroutines c /\ conn_taken c' = conn_taken c + 1
    else sessions c' = sessions c /\ goroutines c' = goroutines c /\ conn_taken c' = conn_taken c.
Proof.
  destruct (handleSessionStart_cases msgID payload c) as
    [(e & Ho & Hs & Hg & Ht & _)|(p & Hp & Hn & Ho & Hs & Hg & Ht & _)].
  - by exists false, e.
  - exists true, "". split; [done|]. by exists p.
Qed.
End session.

(** ** The limiter of the agent: the semaphore of the diagnosis engine *)
#[export] Program Instance engine_limiter {M W A I : Type} (e : EngineConfig (M := M) (W := W) (A := A) (I := I))
  : ConcurrencyLimiter DiagnoseEngine := {
  limiter_TrySem := DiagEngine.TrySem e;
  limiter_ReleaseSem := DiagEngine.ReleaseSem;
  taken := sem
}.
Next Obligation. intros. unfold DiagEngine.TrySem. case_match; cbn; lia. Qed.
Next Obligation. done. Qed.

(** ** A cancelled session that ends late

    A counter of slots as limiter. *)
#[export] Program Instance counter_limiter : ConcurrencyLimiter Z := {
  limiter_TrySem n := if n <? 3 then (true, n + 1) else (false, n);
  limiter_ReleaseSem n := n - 1;
  taken n := n
}.
Next Obligation. intros l. cbn. case_match; cbn; lia. Qed.
Next Obligation. done. Qed.

Definition start_chat (id : string) : option sessionStartPayload := Some (mkStartPayload id "chat" "ops" None).

(** The server cancels session [s] and starts a session with the same ID while
    the goroutine of the first one still winds up.  Its deferred removal goes by
    ID: it takes the second session out of the table and cancels it, although
    nobody cancelled that one. *)
Theorem late_end_cancels_successor :
  let c1 := handleSessionStart "m1" (start_chat "s") (conn_init (Some 0) true true) in
  let c2 := handleSessionCancel (Some (mkCancelPayload "s" "user")) c1 in
  let c3 := handleSessionStart "m3" (start_chat "s") c2 in
  let c4 := end_goroutine 0 c3 in
  (out c3 = [OutAck "m1" true ""; OutAck "m3" true ""] /\ sessions c3 !! "s" = Some 1%nat /\
   1%nat ∉ cancelled c3) /\
  sessions c4 !! "s" = None /\ 1%nat ∈ cancelled c4 /\ 1%nat ∈ goroutines c4.
Proof.
  split_and!; try (vm_compute; reflexivity); apply (bool_decide_unpack _); vm_compute; exact I.
Qed.

(** ** Witness: two sessions start, one ends *)
Definition ex_conn : Conn :=
  end_goroutine 0 (handleSessionStart "m2" (start_chat "b")
    (handleSessionStart "m1" (start_chat "a") (conn_init (Some 0) true true))).

Lemma sessions_hold_slots_witness :
  length (goroutines ex_conn) = 1%nat /\ conn_taken ex_conn = 0 + 1 /\
  (forall id i, sessions ex_conn !! id = Some i ->
     i ∈ goroutines ex_conn /\ exists s, heap ex_conn !! i = Some s /\ sessionID s = id).
Proof.
  split; [vm_compute; reflexivity|].
  assert (rtc conn_step (conn_init (Some 0) true true) ex_conn) as Hrun.
  { do 2 (eapply rtc_l; [apply conn_step_start|]). eapply rtc_l; [|apply rtc_refl].
    apply conn_step_end. apply (bool_decide_unpack _). vm_compute. exact I. }
  destruct (sessions_hold_slots 0 true true ex_conn Hrun) as (Ht & Hs & _).
  split; [exact Ht|exact Hs].
Defined.
