(* ===== verification/Remote.v ===== *)
(** * Remote diagnoses and chats (agent/agent.go)

    The agent hands the server's session handlers two runners: one diagnoses
    with the engine and streams its progress, one builds a chat.  The progress
    of a diagnosis follows a protocol, which the streamed messages inherit. *)
From S2P Require Import Prelude GoStr GoFmt Types Config DiagTypes DiagState GoSlice AiClient Failover Registry Executor Concrete Chat ChatHost DiagEngine Session.
#[local] Open Scope Z_scope.
#[local] Open Scope go_scope.

(** ** The protocol of progress events *)

(** Round [n] is being answered by the AI, or its tools run. *)
Inductive phase :=
| Acting (n : Z)
| Thinking (n : Z)
| Running (n : Z) (tool args : string).

Definition progress_step (p : phase) (ev : ProgressEvent) : option phase :=
  match p, pe_Type ev with
  | Acting n, ProgressAIStart => if decide (pe_Round ev = n + 1) then Some (Thinking (n + 1)) else None
  | Thinking n, ProgressAIDone => if decide (pe_Round ev = n) then Some (Acting n) else None
  | Acting n, ProgressToolStart =>
    if decide (pe_Round ev = n) then Some (Running n (pe_ToolName ev) (pe_ToolArgs ev)) else None
  | Running n tool args, ProgressToolDone =>
    if decide (pe_Round ev = n /\ pe_ToolName ev = tool /\ pe_ToolArgs ev = args) then Some (Acting n) else None
  | _, _ => None
  end.

Fixpoint progress_run (p : phase) (evs : list ProgressEvent) : option phase :=
  match evs with
  | [] => Some p
  | ev :: evs' => progress_step p ev ≫= fun p => progress_run p evs'
  end.

Lemma progress_run_app p l k : progress_run p (l ++ k) = progress_run p l ≫= fun p => progress_run p k.
Proof.
  revert p. induction l as [|ev l IH]; intros p; [done|]. cbn. destruct (progress_step p ev); [|done]. apply IH.
Qed.

(** ** The adapters *)

(** [newRemoteProgressCallback]: text and stage of what is streamed of a chat. *)
Definition remote_progress (ev : ProgressEvent) : list (string * string) :=
  match pe_Type ev with
  | ProgressAIStart => [("[Round " +:+ itoa (pe_Round ev) +:+ "] thinking...", "thinking")]
  | ProgressAIDone =>
    (if 0 <? pe_Duration ev
     then [("[Round " +:+ itoa (pe_Round ev) +:+ " done] " +:+ FormatFixed 1 (Duration_Seconds (pe_Duration ev)) +:+ "s",
            "thinking")] else [])
    ++ (if decide (pe_Reasoning ev = "") then [] else [(pe_Reasoning ev, "answer")])
  | ProgressToolStart => [("[Tool] " +:+ pe_ToolName ev +:+ " " +:+ pe_ToolArgs ev, "tool_call")]
  | ProgressToolDone =>
    [("[Tool done] " +:+ pe_ToolName ev +:+ " (" +:+ (if pe_IsError ev then "error" else "ok") +:+ ", "
      +:+ itoa (pe_ResultLen ev) +:+ "B, " +:+ Duration_String (pe_Duration ev) +:+ ")", "tool_result")]
  end.

Section remote.
Context {M W A I : Type} `{!ChatBackend M W} `{!JsonCodec}.
Variable is_print : Z -> bool.
Variable goos goarch : string.
Variable hostname : string.
Variable order : list (string * ToolCategory W (session_view (A := A) (I := I))).
Variable ctx_Err : W -> option error.
Variable now : W -> Clock.
Variable rand2 : W -> Z * Z.
Variable close : A -> W -> W.
Variable panic_value : string.

Implicit Types e : EngineConfig (M := M) (W := W) (A := A) (I := I).

#[local] Abbreviation diagnose := (diagnose is_print goos hostname order ctx_Err now).
#[local] Abbreviation diag_round := (diag_round is_print goos order ctx_Err now).
#[local] Abbreviation diag_rounds := (diag_rounds is_print goos order ctx_Err now).
#[local] Abbreviation diag_tool_call := (diag_tool_call is_print goos order now).

(** [diagnoseRunnerAdapter.RunStreaming]. *)
Definition adapter_RunStreaming (e : EngineConfig (M := M) (W := W) (A := A) (I := I)) (mode plugin target : string)
    (params : gomap anyval) (w : W) : list (string * string) * res string string * W :=
  let req := mkDiagnoseRequest mode [] plugin target goos [] None 0 0 (param params "descriptions") in
  let '(deltas, r, w) :=
    RunDiagnoseStreaming is_print goos hostname order ctx_Err now rand2 close panic_value e req w in
  (deltas, match r with Good report => Good report | Bad err => Bad (error_text err) end, w).

(** [remoteShellExecutor]; what it streams itself is left out, and no remote
    session is given one. *)
Definition remoteShellExecutor (run : string -> W -> res string Process * W) (timeout : Z)
  : ShellExecutor (W := W) :=
  fun command w =>
    let '(r, w) := ExecShell ctx_Err run command timeout w in
    (match r with Good out => (out, true, None) | Bad err => ("", true, Some err) end, w).

(** [chatRunnerAdapter.NewSession]; [engine] is the global engine, [fc] the
    client made for the scene ["chat"]. *)
Definition adapter_NewSession (cfg : AIConfig) (engine : option (EngineConfig (M := M) (W := W) (A := A) (I := I)))
    (fc : FailoverClient M) (exec : string -> list string -> option string) (addrs : option (list IfaceAddr))
    (run : string -> W -> res string Process * W)
    (timely : nat -> bool) (run_order : list nat) (allowShell : bool) (w : W)
  : res string (ChatStream (M := M) (W := W) (S := session_view (A := A) (I := I)) (A := A) (I := I)) * W :=
  if negb (ai_Enabled cfg) then (Bad "AI is not enabled", w)
  else
    match engine with
    | None => (Bad "diagnose engine not initialized", w)
    | Some e =>
      let registry := eng_registry e in
      let '(snapshot, w) := CollectSnapshot registry timely run_order w in
      let systemPrompt :=
        BuildChatSystemPrompt exec addrs hostname goos goarch order snapshot (Language cfg) allowShell in
      (Good (NewChatStream fc registry systemPrompt allowShell
               (if allowShell then Some (remoteShellExecutor run (ToolTimeout cfg)) else None)
               (ContextWindowLimit cfg)), w)
    end.

(** [chatStreamHandle.HandleMessage]: what one message streams, and a reply or
    an error. *)
Definition handle_HandleMessage (grow : slice Message -> list Message)
    (s : ChatStream (M := M) (W := W) (S := session_view (A := A) (I := I)) (A := A) (I := I)) (input : string) (w : W)
  : go (list (string * string) * res string string * ChatStream * W) :=
  '(reply, _, err, s', w) ← HandleMessage is_print goos order ctx_Err (fun w => nanos (now w)) grow s input w;
  let deltas := mjoin (map remote_progress (drop (length (log s)) (log s'))) in
  Ret (deltas, match err with Some e => Bad (error_text e) | None => Good reply end, s', w).

(** ** Lemmas: the log of a diagnosis *)

Lemma diag_tool_call_progress e round tc acc :
  exists evs, lp_progress (diag_tool_call e round acc tc).1.1 = lp_progress acc.1.1 ++ evs /\
    progress_run (Acting (round + 1)) evs = Some (Acting (round + 1)).
Proof.
  destruct acc as [[s recs] w]. unfold DiagEngine.diag_tool_call.
  destruct (executeTool _ _ _ _ _ _ _ w) as [r w2]. eexists. cbn [fst lp_progress lp_say lp_push lp_emit lp_estimate].
  rewrite <-(assoc_L (++)). split; [done|]. cbn. rewrite !decide_True by done. cbn. by rewrite decide_True.
Qed.

Lemma diag_tool_calls_progress e round tcs acc :
  exists evs, lp_progress (fold_left (diag_tool_call e round) tcs acc).1.1 = lp_progress acc.1.1 ++ evs /\
    progress_run (Acting (round + 1)) evs = Some (Acting (round + 1)).
Proof.
  revert acc. induction tcs as [|tc tcs IH]; intros acc; [exists []; by rewrite app_nil_r|]. cbn [fold_left].
  destruct (diag_tool_call_progress e round tc acc) as (evs1 & H1 & R1).
  destruct (IH (diag_tool_call e round acc tc)) as (evs2 & H2 & R2).
  exists (evs1 ++ evs2). rewrite H2, H1, (assoc_L (++)). split; [done|]. rewrite progress_run_app, R1. exact R2.
Qed.

Lemma prepare_round_progress e round (s : DiagLoop (A := A) (I := I)) :
  lp_progress (prepare_round (M := M) (W := W) e round s) = lp_progress s.
Proof. unfold prepare_round, warn_round, compact_round. by repeat case_match. Qed.

(** Nothing is pending when a diagnosis ends without a panic. *)
Definition settled (out : go (res error string)) (p : phase) : Prop :=
  match out with Ret _ => exists n, p = Acting n | Panic => True end.

Lemma diag_round_progress e tools round s w r s' w' :
  diag_round e tools round s w = (r, s', w') ->
  exists evs p, lp_progress s' = lp_progress s ++ evs /\ progress_run (Acting round) evs = Some p /\
    match r with None => p = Acting (round + 1) | Some out => settled out p end.
Proof.
  unfold DiagEngine.diag_round. destruct (ctx_Err w) as [err|].
  { intros [= <- <- <-]. exists [], (Acting round). rewrite app_nil_r. split_and!; [done|done|by eexists]. }
  destruct (Chat _ _ _ _ w) as [out w1]. set (s1 := prepare_round e round s).
  assert (lp_progress s1 = lp_progress s) as Hs1 by apply prepare_round_progress. clearbody s1.
  destruct out as [[[[resp|]|err] name]|].
  - destruct (match Choices resp with [] => _ | _ => _ end) as [content toolCalls].
    set (done_ev := progress_ai ProgressAIDone _ _ _). set (start_ev := progress_ai ProgressAIStart _ _ _).
    set (s4 := lp_emit done_ev _).
    assert (lp_progress s4 = lp_progress s ++ [start_ev; done_ev]) as H4
      by (unfold s4; destruct (0 <? _); cbn; by rewrite Hs1, <-(assoc_L (++))).
    assert (progress_run (Acting round) [start_ev; done_ev] = Some (Acting (round + 1))) as R4
      by (cbn; rewrite decide_True by done; cbn; by rewrite decide_True).
    clearbody s4. destruct toolCalls as [|tc tcs].
    + intros [= <- <- <-]. exists [start_ev; done_ev], (Acting (round + 1)). split_and!; [done|done|by eexists].
    + destruct (diag_tool_calls_progress e round (tc :: tcs)
        (lp_say (mkMessage "assistant" content "" "" (tc :: tcs)) s4, [], w1)) as (evs & Hevs & Revs).
      destruct (fold_left _ _ _) as [[s5 recs] w5]. intros [= <- <- <-]. cbn [fst lp_progress] in Hevs.
      exists ([start_ev; done_ev] ++ evs), (Acting (round + 1)). cbn [lp_progress lp_upd].
      rewrite Hevs. change (lp_progress (lp_say _ s4)) with (lp_progress s4). rewrite H4, <-(assoc_L (++)).
      split_and!; [done| |done]. by rewrite progress_run_app, R4.
  - intros [= <- <- <-]. eexists [_], _. cbn [lp_progress lp_upd lp_emit]. rewrite Hs1. split_and!; [done| |done].
    cbn. by rewrite decide_True.
  - intros [= <- <- <-]. eexists [_; _], _. cbn [lp_progress lp_upd lp_emit]. rewrite Hs1, <-(assoc_L (++)).
    split_and!; [done|cbn; rewrite decide_True by done; cbn; by rewrite decide_True|by eexists].
  - intros [= <- <- <-]. eexists [_], _. cbn [lp_progress lp_upd lp_emit]. rewrite Hs1. split_and!; [done| |done].
    cbn. by rewrite decide_True.
Qed.

Lemma diag_rounds_progress n e tools round s w out s' w' :
  diag_rounds n e tools round s w = (out, s', w') ->
  exists evs p, lp_progress s' = lp_progress s ++ evs /\ progress_run (Acting round) evs = Some p /\ settled out p.
Proof.
  revert round s w. induction n as [|n IH]; intros round s w; cbn [DiagEngine.diag_rounds].
  { intros [= <- <- <-]. exists [], (Acting round). rewrite app_nil_r. split_and!; [done|done|by eexists]. }
  destruct (diag_round e tools round s w) as [[r s1] w1] eqn:Hr.
  destruct (diag_round_progress _ _ _ _ _ _ _ _ Hr) as (evs1 & p1 & H1 & R1 & P1).
  destruct r as [o|].
  { intros [= <- <- <-]. by exists evs1, p1. }
  subst p1. intros Hrec. destruct (IH (round + 1) s1 w1 Hrec) as (evs2 & p2 & H2 & R2 & P2).
  exists (evs1 ++ evs2), p2. rewrite H2, H1, <-(assoc_L (++)). split_and!; [done| |done].
  by rewrite progress_run_app, R1.
Qed.

(** ** Properties *)

(** C16: The progress a diagnosis reports follows the protocol: rounds are counted
    up from 1, each starts with the AI and ends with its answer before tools
    run, and a tool is done before the next one starts; unless the diagnosis
    panics nothing is pending at its end. *)
Theorem diagnose_progress_protocol e req session w out lp w'
    (Hrun : diagnose e req session w = (out, lp, w')) :
  exists p, progress_run (Acting 0) (lp_progress lp) = Some p /\ settled out p.
Proof.
  revert Hrun. unfold DiagEngine.diagnose.
  destruct (initSessionAccessor is_print e req session w) as [[[err|] s1] w1].
  { intros [= <- <- <-]. exists (Acting 0). split; [done|by eexists]. }
  destruct (diag_start goos hostname order e req s1 w1) as [[tools lp0] w0] eqn:Hstart. intros Hrun.
  assert (lp_progress lp0 = []) as H0.
  { revert Hstart. unfold diag_start. destruct (RunPreCollector _ w1 _ _) as [pre w2].
    destruct (if negb _ then _ else _) as [base w3]. destruct (buildToolSet _ _) as [ts ds]. by intros [= <- <- <-]. }
  destruct (diag_rounds_progress _ _ _ _ _ _ _ _ _ Hrun) as (evs & p & Hp & Hr & Hs).
  rewrite H0 in Hp. cbn in Hp. rewrite Hp. by exists p.
Qed.

(** No chat that is built for the server can run shell commands: it is given no
    executor, and the AI is not offered one. *)
Theorem remote_chat_has_no_shell cfg engine fc exec addrs run timely run_order w s w'
    (Hnew : adapter_NewSession cfg engine fc exec addrs run timely run_order false w = (Good s, w')) :
  shellExecutor s = None /\
  Forall (fun t => tf_Name (tool_Function t) <> "exec_shell") (aiTools s) /\
  forall args w1, (chat_executeTool is_print goos order s "exec_shell" args w1).2 = w1.
Proof.
  revert Hnew. unfold adapter_NewSession. destruct (ai_Enabled cfg); cbn [negb]; [|done].
  destruct engine as [e|]; [|done]. destruct (CollectSnapshot _ _ _ w) as [snap w1].
  intros [= <- <-]. split_and!; [done| |].
  - cbn. repeat constructor; done.
  - intros args w2. unfold chat_executeTool. by repeat (rewrite decide_False by done).
Qed.
End remote.

(** ** Witnesses: the scripted AI of the engine's examples *)

Lemma diagnose_progress_protocol_witness :
  length (lp_progress ex_diagnose.1.2) = 6%nat /\
  exists p, progress_run (Acting 0) (lp_progress ex_diagnose.1.2) = Some p /\ settled ex_diagnose.1.1 p.
Proof.
  split; [vm_compute; reflexivity|].
  apply (diagnose_progress_protocol (fun _ => true) "linux" "host" [] (fun _ => None) ex_now ex_engine ex_request
    (new_session ex_now (fun _ => (1, 2)) ex_request ex_answers) ex_answers _ _ ex_diagnose.2).
  unfold ex_diagnose. by destruct (diagnose _ _ _ _ _ _ _ _ _ _) as [[? ?] ?].
Defined.

(** AI is switched on and a host without tools is asked for its snapshot. *)
Definition ex_remote_cfg : AIConfig :=
  mkAIConfig true [] ∅ (Gateway ex_ai_config) 1 0 0 0 1 "drop" 0 0 0 0 0 "zh".
Definition ex_new_session (allowShell : bool) :=
  adapter_NewSession "linux" "amd64" "host" [] (fun _ => None) ex_remote_cfg (Some ex_engine) (two_models 0)
    (fun _ _ => None) None (fun _ w => (Bad "", w)) (fun _ => true) [] allowShell ex_answers.

Lemma remote_chat_has_no_shell_witness :
  exists s w', ex_new_session false = (Good s, w') /\ shellExecutor s = None /\
    Forall (fun t => tf_Name (tool_Function t) <> "exec_shell") (aiTools s).
Proof.
  eexists _, _. split; [reflexivity|].
  match goal with |- shellExecutor ?s = _ /\ _ =>
    destruct (remote_chat_has_no_shell (fun _ => true) "linux" "amd64" "host" [] (fun _ => None) ex_remote_cfg
      (Some ex_engine) (two_models 0) (fun _ _ => None) None (fun _ w => (Bad "", w)) (fun _ => true) [] ex_answers s _ eq_refl)
      as (H1 & H2 & _) end.
  split; [exact H1|exact H2].
Defined.
