(* ===== verification/Server.v ===== *)
(** * The connection to the server (digcore/server/conn.go, proto.go, notifier.go)

    Reconnection and its backoff, the dispatch of server messages, the batches
    of alert events taken from the ring buffer, and the notifier that fills it. *)
From S2P Require Import Prelude GoStr Types Config Notify RingBuf Session.
#[local] Open Scope Z_scope.
#[local] Open Scope go_scope.

Definition alertFlushBatch : Z := 100.

(** ** Errors of a connection attempt *)
Inductive connErr :=
| ErrDisconnect (retryAfterSec : Z)            (** [*disconnectError] *)
| ErrAuthFailed                                 (** [errAuthFailed] *)
| ErrConnectionLost                             (** [errConnectionLost] *)
| ErrReconnect (err : connErr) (resetBackoff : bool)
| ErrText (text : string)
| ErrWrapped (text : string) (err : connErr).   (** [fmt.Errorf("...%w")] *)

(** [errors.As] and [errors.Is] walk the chain of wrapped errors. *)
Fixpoint as_disconnect (e : connErr) : option Z :=
  match e with
  | ErrDisconnect s => Some s
  | ErrReconnect e' _ | ErrWrapped _ e' => as_disconnect e'
  | _ => None
  end.
Fixpoint is_auth (e : connErr) : bool :=
  match e with
  | ErrAuthFailed => true
  | ErrReconnect e' _ | ErrWrapped _ e' => is_auth e'
  | _ => false
  end.
Fixpoint as_reconnect (e : connErr) : option bool :=
  match e with
  | ErrReconnect _ reset => Some reset
  | ErrWrapped _ e' => as_reconnect e'
  | _ => None
  end.

(** ** Backoff *)
Definition clampBackoff (d min max : Z) : Z :=
  if d <? min then min else if max <? d then max else d.

(** The wait, and the backoff of the next attempt. *)
Definition nextReconnectState (err : option connErr) (backoff normalMin normalMax authMin authMax : Z) : Z * Z :=
  match err with
  | None => (0, backoff)
  | Some e =>
    match as_disconnect e with
    | Some sec =>
      let wait := sec ⊠ Second in
      (if wait <? normalMin then normalMin else wait, normalMin)
    | None =>
      if is_auth e then
        let backoff := if backoff <? authMin then authMin else backoff in
        (backoff, clampBackoff (backoff ⊠ 2) authMin authMax)
      else
        let backoff := match as_reconnect e with Some true => normalMin | _ => backoff end in
        (backoff, clampBackoff (backoff ⊠ 2) normalMin normalMax)
    end
  end.

Definition normalMin : Z := Second.
Definition normalMax : Z := 300 * Second.
Definition authMin : Z := 60 * Second.
Definition authMax : Z := 1800 * Second.

Definition reconnect (err : option connErr) (backoff : Z) : Z * Z :=
  nextReconnectState err backoff normalMin normalMax authMin authMax.

(** The waits of [RunForever], before jitter, for the results of its attempts. *)
Fixpoint waits (results : list (option connErr)) (backoff : Z) : list Z :=
  match results with
  | [] => []
  | err :: results' =>
    let '(wait, next) := reconnect err backoff in wait :: waits results' next
  end.
Definition RunForever (results : list (option connErr)) : list Z := waits results normalMin.

(** ** Messages *)
Record Message := mkMessage { msg_Type : string; msg_ID : string; RefID : string; Payload : string }.

(** ** One connection *)
Section conn.
Context {L : Type} `{!ConcurrencyLimiter L}.
(** [json.Unmarshal] into the payload types. *)
Context (decode_disconnect : string -> option (string * Z)).
Context (decode_start : string -> option sessionStartPayload).
Context (decode_input : string -> option sessionInputPayload).
Context (decode_cancel : string -> option sessionCancelPayload).

(** [decodePayload]. *)
Definition decodePayload {P} (decode : string -> option P) (m : Message) : option P :=
  if decide (Payload m = "") then None else decode (Payload m).

Record ServerConn := mkServerConn {
  remote : Conn (L := L);
  retryAfterSec : Z;
  conn_cancelled : bool
}.

Definition handleServerMessage (m : Message) (c : ServerConn) : ServerConn :=
  let on_remote f := mkServerConn (f (remote c)) (retryAfterSec c) (conn_cancelled c) in
  if decide (msg_Type m = "disconnect") then
    mkServerConn (remote c)
      (match decodePayload decode_disconnect m with Some (_, sec) => sec | None => retryAfterSec c end) true
  else if decide (msg_Type m = "ack") then c
  else if decide (msg_Type m = "ping") then c
  else if decide (msg_Type m = "session_start") then
    on_remote (handleSessionStart (msg_ID m) (decodePayload decode_start m))
  else if decide (msg_Type m = "session_input") then
    on_remote (handleSessionInput (decodePayload decode_input m))
  else if decide (msg_Type m = "session_cancel") then
    on_remote (handleSessionCancel (decodePayload decode_cancel m))
  else c.

(** A frame is [None] when it is not JSON; the loop ends with the frames, by a
    read error, or when a message cancelled the connection. *)
Fixpoint readLoop (frames : list (option Message)) (c : ServerConn) : ServerConn :=
  match frames with
  | [] => c
  | frame :: frames' =>
    if conn_cancelled c then c
    else
      match frame with
      | None => readLoop frames' c
      | Some m => readLoop frames' (handleServerMessage m c)
      end
  end.

(** What the outside answers during one attempt. *)
Record Attempt := mkAttempt {
  url_error : option string;
  agent_id_error : option string;
  tls_error : option string;
  dial_error : option (bool * string);  (** whether the server answered 401 *)
  register_error : option string;
  ack_result : res string (bool * string);  (** a read error, or the ack *)
  at_frames : list (option Message)
}.

(** [Run]: nil when the server is not configured, an error otherwise. *)
Definition Run (enabled : bool) (address : string) (a : Attempt) (limiter : option L) (diag chat : bool)
  : option connErr :=
  if negb enabled || bool_decide (address = "") then None
  else
    match url_error a with
    | Some e => Some (ErrText ("resolve server websocket url: " +:+ e))
    | None =>
    match agent_id_error a with
    | Some e => Some (ErrText ("load agent_id: " +:+ e))
    | None =>
    match tls_error a with
    | Some e => Some (ErrText ("tls config: " +:+ e))
    | None =>
    match dial_error a with
    | Some (true, e) => Some (ErrWrapped (": " +:+ e) ErrAuthFailed)
    | Some (false, e) => Some (ErrText ("ws dial: " +:+ e))
    | None =>
    match register_error a with
    | Some e => Some (ErrText ("register: " +:+ e))
    | None =>
    match ack_result a with
    | Bad e => Some (ErrText ("register ack: " +:+ e))
    | Good (false, e) => Some (ErrText ("register rejected: " +:+ e))
    | Good (true, _) =>
      let c := readLoop (at_frames a) (mkServerConn (conn_init limiter diag chat) 0 false) in
      let c := mkServerConn (cancelAll (remote c)) (retryAfterSec c) true in
      if 0 <? retryAfterSec c then Some (ErrDisconnect (retryAfterSec c))
      else Some (ErrReconnect ErrConnectionLost true)
    end end end end end end.
End conn.

(** ** Alert events *)
Record alertEventItem := mkItem {
  item_EventTime : Z;
  item_EventStatus : string;
  item_AlertKey : string;
  item_Labels : gomap string;
  item_Attrs : gomap string;
  item_Description : string;
  item_DescriptionFormat : string
}.

Definition item_of (e : Event) : alertEventItem :=
  mkItem (EventTime e) (EventStatus e) (AlertKey e) (Labels e) (Attrs e) (Description e) (DescriptionFormat e).

(** Events are non-nil pointers; an empty slot holds nil. *)
Definition AlertRing : Type := RingBuffer (A := option Event).

Definition SendAlertEvent (ring : option AlertRing) (event : Event) : option AlertRing :=
  match ring with
  | None => None
  | Some r => Some (Push (Some event) r)
  end.

(** [flushAlertEvents]: [delivers] tells for each batch whether the send queue
    took it or the connection was done; the result is what was sent.  [fuel]
    bounds the batches. *)
Fixpoint flushAlertEvents (fuel : nat) (delivers : nat -> bool) (i : nat) (r : AlertRing)
  : list (list alertEventItem) * go AlertRing :=
  match fuel with
  | O => ([], Ret r)
  | S fuel' =>
    match Drain None alertFlushBatch r with
    | Panic => ([], Panic)
    | Ret ([], r) => ([], Ret r)
    | Ret (events, r) =>
      let batch := omap (fmap item_of) events in
      if delivers i then
        let '(sent, r) := flushAlertEvents fuel' delivers (S i) r in (batch :: sent, r)
      else ([], Ret r)
    end
  end.

(** ** ServerNotifier *)
#[export] Instance server_notifier : Notifier (option AlertRing) := {
  Name _ := "server";
  notifier_Forward ring event := (true, SendAlertEvent ring event);
  notifier_Comment _ := None
}.

(** ** Lemmas on backoffs *)

Lemma clampBackoff_range d min max : min <= max -> min <= clampBackoff d min max <= max.
Proof. intros. unfold clampBackoff. repeat case_match; zbool; lia. Qed.

(** The backoffs that can be reached. *)
Definition backoff_ok (b : Z) : Prop := normalMin <= b <= authMax.

Lemma reconnect_ok err b : backoff_ok b -> backoff_ok (reconnect err b).2.
Proof.
  unfold backoff_ok, reconnect, nextReconnectState. intros Hb.
  destruct err as [e|]; [|done]. cbn.
  assert (forall d, normalMin <= clampBackoff d authMin authMax <= authMax) as Ha.
  { intros d. pose proof (clampBackoff_range d authMin authMax) as H.
    unfold normalMin, authMin, authMax, Second in *. lia. }
  assert (forall d, normalMin <= clampBackoff d normalMin normalMax <= authMax) as Hn.
  { intros d. pose proof (clampBackoff_range d normalMin normalMax) as H.
    unfold normalMin, normalMax, authMax, Second in *. lia. }
  destruct (as_disconnect e); cbn; [unfold normalMin, authMax, Second; lia|].
  destruct (is_auth e); cbn; [apply Ha|apply Hn].
Qed.

(** An error that is neither a request of the server, nor an authentication
    failure, nor the loss of an established connection. *)
Definition plain_failure (e : connErr) : Prop :=
  as_disconnect e = None /\ is_auth e = false /\ as_reconnect e <> Some true.

Lemma clamp_double lo hi k :
  0 < lo <= hi -> hi <= authMax ->
  let b := Z.min hi (lo * 2 ^ Z.of_nat k) in
  lo <= b /\ clampBackoff (b ⊠ 2) lo hi = Z.min hi (lo * 2 ^ Z.of_nat (S k)).
Proof.
  intros Hlo Hhi b. assert (1 <= 2 ^ Z.of_nat k) as Hp by (pose proof (Z.pow_pos_nonneg 2 (Z.of_nat k)); lia).
  assert (2 ^ Z.of_nat (S k) = 2 * 2 ^ Z.of_nat k) as -> by (rewrite <-Z.pow_succ_r; [f_equal; lia|lia]).
  assert (lo <= b <= hi) as Hb by (unfold b; nia). split; [lia|].
  rewrite i64_id by (unfold in_i64, min_i64, max_i64, authMax, Second in *; lia).
  unfold clampBackoff. unfold b in *. repeat case_match; zbool; nia.
Qed.

Lemma waits_plain errs k :
  Forall plain_failure errs ->
  waits (map Some errs) (Z.min normalMax (normalMin * 2 ^ Z.of_nat k))
  = map (fun i => Z.min normalMax (normalMin * 2 ^ Z.of_nat i)) (seq k (length errs)).
Proof.
  intros Hf. revert k. induction Hf as [|e errs (Hd & Ha & Hr) Hf IH]; intros k; [done|].
  cbn [map waits length seq]. unfold reconnect, nextReconnectState. rewrite Hd, Ha.
  destruct (clamp_double normalMin normalMax k) as [_ Hc]; [unfold normalMin, normalMax, Second; lia|
    unfold normalMax, authMax, Second; lia|].
  assert ((match as_reconnect e with Some true => normalMin
    | _ => Z.min normalMax (normalMin * 2 ^ Z.of_nat k) end) = Z.min normalMax (normalMin * 2 ^ Z.of_nat k)) as ->.
  { destruct (as_reconnect e) as [[|]|]; done. }
  rewrite Hc. f_equal. apply IH.
Qed.

Lemma waits_auth errs k :
  Forall (fun e => as_disconnect e = None /\ is_auth e = true) errs ->
  waits (map Some errs) (Z.min authMax (authMin * 2 ^ Z.of_nat k))
  = map (fun i => Z.min authMax (authMin * 2 ^ Z.of_nat i)) (seq k (length errs)).
Proof.
  intros Hf. revert k. induction Hf as [|e errs (Hd & Ha) Hf IH]; intros k; [done|].
  cbn [map waits length seq]. unfold reconnect, nextReconnectState. rewrite Hd, Ha.
  destruct (clamp_double authMin authMax k) as [Hle Hc]; [unfold authMin, authMax, Second; lia|lia|].
  rewrite (proj2 (Z.ltb_ge _ _)) by lia. rewrite Hc. f_equal. apply IH.
Qed.

(** ** Lemmas on batches *)

Lemma flush_spec fuel r :
  ring_wf r -> (RingBuf.count r < fuel)%nat ->
  exists sent r', flushAlertEvents fuel (fun _ => true) 0 r = (sent, Ret r') /\ ring_wf r' /\
    contents None r' = [] /\ mjoin sent = omap (fmap item_of) (contents None r) /\
    Forall (fun b => zlen b <= alertFlushBatch) sent.
Proof.
  generalize 0%nat. revert r. induction fuel as [|fuel IH]; intros r i Hwf Hf; [lia|]. cbn [flushAlertEvents].
  destruct (Drain_spec None r alertFlushBatch Hwf) as (xs & r1 & Hd & Hwf1 & _ & Heq);
    [unfold alertFlushBatch; lia|]. rewrite Hd. unfold drain_fifo in Heq.
  injection Heq as Hxs Hc1. change (Z.to_nat alertFlushBatch) with 100%nat in *.
  pose proof (length_contents None r) as Hl. pose proof (length_contents None r1) as Hl1.
  rewrite Hc1, length_drop, Hl in Hl1.
  destruct xs as [|x xs].
  { exists [], r1. assert (contents None r = []) as Hn.
    { destruct (contents None r); [done|]. by cbn in Hxs. }
    rewrite Hc1, Hn, drop_nil. split_and!; done || constructor. }
  destruct (IH r1 (S i) Hwf1) as (sent & r2 & Hs & Hwf2 & He & Hj & Hb).
  { destruct (RingBuf.count r); [|lia]. rewrite (nil_length_inv _ Hl) in Hxs. done. }
  rewrite Hs. exists (omap (fmap item_of) (x :: xs) :: sent), r2. split_and!; [done..| |].
  - change (omap (fmap item_of) (x :: xs) ++ mjoin sent = omap (fmap item_of) (contents None r)).
    rewrite Hj, Hc1, Hxs.
    rewrite <-omap_app, take_drop. done.
  - constructor; [|done]. assert (forall l : list (option Event), (length (omap (fmap item_of) l) <= length l)%nat) as Ho.
    { clear. induction l as [|[e|] l IH]; cbn; lia. }
    specialize (Ho (x :: xs)). rewrite Hxs, length_take in Ho. unfold zlen, alertFlushBatch.
    rewrite Hxs. lia.
Qed.

(** ** Properties *)

(** Attempts that fail one after the other wait 1, 2, 4, ... seconds, up to
    300; attempts the server rejects for the token wait 60, 120, ... seconds,
    up to 1800; a request of the server is honoured (at least one second) and,
    like the loss of an established connection, brings the wait back to one
    second. *)
Theorem reconnect_schedule errs :
  (Forall plain_failure errs ->
   RunForever (map Some errs) = map (fun i => Z.min normalMax (normalMin * 2 ^ Z.of_nat i)) (seq 0 (length errs))) /\
  (Forall (fun e => as_disconnect e = None /\ is_auth e = true) errs ->
   RunForever (map Some errs) = map (fun i => Z.min authMax (authMin * 2 ^ Z.of_nat i)) (seq 0 (length errs))) /\
  (forall sec backoff, 0 <= sec < 2 ^ 32 ->
   reconnect (Some (ErrDisconnect sec)) backoff = (Z.max normalMin (sec * Second), normalMin)) /\
  (forall backoff, (reconnect (Some (ErrReconnect ErrConnectionLost true)) backoff).1 = normalMin).
Proof.
  split_and!.
  - intros Hf. apply (waits_plain errs 0 Hf).
  - intros Hf. destruct errs as [|e errs]; [done|]. pose proof (waits_auth (e :: errs) 0 Hf) as H.
    rewrite <-H. unfold RunForever. cbn [map waits]. unfold reconnect, nextReconnectState.
    apply Forall_cons in Hf as [[Hd Ha] _]. by rewrite Hd, Ha.
  - intros sec backoff Hs. unfold reconnect, nextReconnectState. cbn [as_disconnect].
    rewrite i64_id by (unfold in_i64, min_i64, max_i64, Second; lia).
    f_equal. case_match; zbool; unfold normalMin in *; lia.
  - done.
Qed.

(** Whatever happens, an agent waits at least one second and never backs off
    beyond 1800 seconds of its own accord. *)
Theorem waits_bounded results :
  Forall (fun err => match err with Some e => as_disconnect e = None | None => False end) results ->
  Forall (fun w => normalMin <= w <= authMax) (RunForever results).
Proof.
  unfold RunForever. assert (backoff_ok normalMin) as Hb by (unfold backoff_ok, normalMin, authMax, Second; lia).
  revert Hb. generalize normalMin at 1 3. intros b Hb Hr. revert b Hb.
  induction Hr as [|err results He Hr IH]; intros b Hb; cbn [waits]; [constructor|].
  destruct (reconnect err b) as [wait next] eqn:E. pose proof (reconnect_ok err b Hb) as Hn.
  rewrite E in Hn. constructor; [|by apply IH].
  destruct err as [e|]; [|done]. unfold reconnect, nextReconnectState in E. rewrite He in E.
  destruct (is_auth e); injection E as <- _; unfold backoff_ok in Hb.
  - case_match; [unfold normalMin, authMin, authMax, Second; lia|done].
  - destruct (as_reconnect e) as [[|]|]; [unfold normalMin, authMax, Second; lia|done|done].
Qed.

(** The backoff of rejected tokens carries over to ordinary failures: after
    six rejections a failed dial waits 1800 seconds, above the 300 seconds
    announced for a normal disconnect. *)
Theorem auth_backoff_leaks :
  last (RunForever (replicate 6 (Some ErrAuthFailed) ++ [Some (ErrText "ws dial: refused")])) = Some authMax /\
  normalMax < authMax.
Proof. split; vm_compute; reflexivity. Qed.

(** When the send queue takes every batch, a flush sends all buffered events,
    in order and once, in batches of at most 100, and leaves the buffer empty;
    one more round than there are events is enough. *)
Theorem flushAlertEvents_sends_all r (Hwf : ring_wf r) :
  exists sent r', flushAlertEvents (S (RingBuf.count r)) (fun _ => true) 0 r = (sent, Ret r') /\
    contents None r' = [] /\ mjoin sent = omap (fmap item_of) (contents None r) /\
    Forall (fun b => zlen b <= alertFlushBatch) sent.
Proof.
  destruct (flush_spec (S (RingBuf.count r)) r Hwf) as (sent & r' & ? & ? & ? & ? & ?); [lia|]. by exists sent, r'.
Qed.

(** A connection that is done while a flush waits for the send queue loses the
    batch it had taken: the events are no longer in the buffer. *)
Theorem flush_loses_batch e :
  let r := Push (Some e) (NewRingBuffer None 4) in
  contents None r = [Some e] /\
  exists r', flushAlertEvents 2 (fun _ => false) 0 r = ([], Ret r') /\ contents None r' = [].
Proof. split; [done|]. by eexists. Qed.

(** ** Witness: three events *)
Definition ex_ring_event (k : string) : Event := mkEvent 100 EventStatusWarning k None None "" "" 0 0 0.
Definition ex_alert_ring : AlertRing :=
  Push (Some (ex_ring_event "c")) (Push (Some (ex_ring_event "b")) (Push (Some (ex_ring_event "a"))
    (NewRingBuffer None 2))).

(** The buffer holds two, the oldest event is gone. *)
Lemma flushAlertEvents_sends_all_witness :
  exists sent r', flushAlertEvents 3 (fun _ => true) 0 ex_alert_ring = (sent, Ret r') /\
    contents None r' = [] /\ mjoin sent = [item_of (ex_ring_event "b"); item_of (ex_ring_event "c")].
Proof.
  destruct (flushAlertEvents_sends_all ex_alert_ring) as (sent & r' & H1 & H2 & H3 & _);
    [split; vm_compute; lia|].
  exists sent, r'. split; [exact H1|]. split; [exact H2|exact H3].
Defined.
