(* ===== verification/Agent.v ===== *)
(** * The agent: plugins loaded, reloaded and run (agent/agent.go, funcs.go, runner.go)

    Every plugin has a directory [p.<name>] of TOML files below the
    configuration directory.  The agent starts a runner per plugin, a goroutine
    per instance, and on a reload compares what runs with what the directories
    hold.  [P] are plugin objects, [I] instances, [W] the world that their
    initialisation touches. *)
From S2P Require Import Prelude GoStr GoLib Types Config DiagTypes SafeQueue Notify Engine EngineProps.
#[local] Open Scope Z_scope.

(** ** Configuration directories (funcs.go) *)

(** A file: its modification time and its content, unless reading them fails. *)
Definition dirFile : Type := option Z * option string.

(** The loop over the sorted names; [None] is an error. *)
Fixpoint read_files (files : gmap string dirFile) (names : list string) (maxmt : Z) (content : string)
    (tomlCount : Z) : option (Z * string) :=
  match names with
  | [] => Some (maxmt, content)
  | f :: names' =>
    if negb (HasSuffix f ".toml") then read_files files names' maxmt content tomlCount
    else
      match files !! f with
      | Some (Some mtime, bs) =>
        let maxmt := if maxmt <? mtime then mtime else maxmt in
        let content := if 0 <? tomlCount then content +:+ newline +:+ newline else content in
        match bs with
        | Some bs => read_files files names' maxmt (content +:+ bs) (tomlCount + 1)
        | None => None
        end
      | _ => None
      end
  end.

(** [files] is [None] when the directory cannot be listed. *)
Definition readPluginDir (files : option (gmap string dirFile)) : option (Z * string) :=
  match files with
  | None => None
  | Some m => read_files m (sort_Strings (map_to_list m).*1) (-1) "" 0
  end.

Definition parseFilter (filterStr : string) : gset string :=
  list_to_set (map TrimSpace (filter (fun s => TrimSpace s <> "") (split_on ":"%char filterStr))).

Record PluginConfig := mkPluginConfig { Source : string; Digest : string; FileContent : string }.

(** [mtime == -1 || len(content) == 0]. *)
Definition nothing_configured (mtime : Z) (content : string) : bool :=
  (mtime =? -1) || bool_decide (content = "").

Definition file_config (mtime : Z) (content : string) : PluginConfig :=
  mkPluginConfig "file" (itoa mtime) content.

(** [dirs] are the directories below the configuration directory, [plugin_files]
    what the directory of a plugin holds. *)
Record ConfDir := mkConfDir {
  dirs : option (list string);
  plugin_files : string -> option (gmap string dirFile)
}.

(** The plugin a directory configures. *)
Definition plugin_of_dir (dir : string) : option string :=
  if HasPrefix dir "p." then Some (sdrop 2 dir) else None.

Fixpoint load_dirs (conf : ConfDir) (names : list string) (ret : gmap string PluginConfig)
  : option (gmap string PluginConfig) :=
  match names with
  | [] => Some ret
  | dir :: names' =>
    match plugin_of_dir dir with
    | None => load_dirs conf names' ret
    | Some name =>
      match readPluginDir (plugin_files conf name) with
      | None => None
      | Some (mtime, content) =>
        if nothing_configured mtime content then load_dirs conf names' ret
        else load_dirs conf names' (<[name := file_config mtime content]> ret)
      end
    end
  end.

Definition loadFileConfigs (conf : ConfDir) : option (gmap string PluginConfig) :=
  match dirs conf with None => None | Some l => load_dirs conf l ∅ end.

Section agent.
Context {P I W : Type}.
(** [plugins.PluginCreators]; [toml.Unmarshal] into the created object;
    [MayApplyPartials], [MayPluginInit] (which may change the object) and
    [MayGetInstances].  A failed call returns [None]. *)
Variable creator : string -> option P.
Variable unmarshal : string -> P -> option P.
Variable ApplyPartials : P -> option P.
Variable PluginInit : P -> W -> option P * W.
Variable GetInstances : P -> list I.

(** ** Runners (runner.go) *)
Record PluginRunner := mkRunner { pluginName : string; pluginObject : P; Instances : list I }.

Definition newPluginRunner (name : string) (p : P) : PluginRunner := mkRunner name p [].

(** What runners do to instances and plugins, in order: a ghost log. *)
Inductive action :=
| StartInstance (name : string) (ins : I)
| StopInstance (name : string) (ins : I)
| DropInstance (name : string) (ins : I)
| DropPlugin (name : string).

Definition start (r : PluginRunner) (w : W) : PluginRunner * list action * W :=
  let '(inited, w) := PluginInit (pluginObject r) w in
  match inited with
  | None => (r, [], w)
  | Some p =>
    let instances := GetInstances p in
    (mkRunner (pluginName r) p instances, map (StartInstance (pluginName r)) instances, w)
  end.

(** Every goroutine is told to quit and waited for before anything is dropped. *)
Definition stop (r : PluginRunner) : list action :=
  map (StopInstance (pluginName r)) (Instances r)
  ++ map (DropInstance (pluginName r)) (Instances r) ++ [DropPlugin (pluginName r)].

(** ** The agent (agent.go) *)
Record Agent := mkAgent {
  pluginFilters : gset string;
  pluginConfigs : gmap string PluginConfig;
  pluginRunners : gmap string PluginRunner;
  actions : list action
}.

Definition New (plugins : string) : Agent := mkAgent (parseFilter plugins) ∅ ∅ [].

(** The filter of [--plugins] and the steps that can fail before a runner is
    started. *)
Definition load_object (filters : gset string) (name : string) (pc : PluginConfig) : option P :=
  if negb (bool_decide (filters = ∅)) && negb (bool_decide (name ∈ filters)) then None
  else creator name ≫= fun p => unmarshal (FileContent pc) p ≫= ApplyPartials.

Definition LoadPlugin (name : string) (pc : PluginConfig) (a : Agent) (w : W) : Agent * W :=
  match load_object (pluginFilters a) name pc with
  | None => (a, w)
  | Some p =>
    let '(runner, acts, w) := start (newPluginRunner name p) w in
    (mkAgent (pluginFilters a) (<[name := pc]> (pluginConfigs a)) (<[name := runner]> (pluginRunners a))
       (actions a ++ acts), w)
  end.

Definition DelPlugin (name : string) (a : Agent) : Agent :=
  match pluginRunners a !! name with
  | None => a
  | Some runner =>
    mkAgent (pluginFilters a) (delete name (pluginConfigs a)) (delete name (pluginRunners a))
      (actions a ++ stop runner)
  end.

(** In the order in which the map hands out its keys. *)
Definition RunningPlugins (a : Agent) : list string := (map_to_list (pluginRunners a)).*1.
Definition GetPluginConfig (name : string) (a : Agent) : option PluginConfig := pluginConfigs a !! name.

(** One round of [HandleChangedPlugin]; a name without configuration panics. *)
Definition changed_plugin (conf : ConfDir) (name : string) (a : Agent) (w : W) : go (Agent * W) :=
  match GetPluginConfig name a with
  | None => Panic
  | Some pc =>
    if negb (bool_decide (Source pc = "file")) then Ret (a, w)
    else
      match readPluginDir (plugin_files conf name) with
      | None => Ret (a, w)
      | Some (mtime, content) =>
        if nothing_configured mtime content then Ret (DelPlugin name a, w)
        else if bool_decide (Digest pc = itoa mtime) then Ret (a, w)
        else Ret (LoadPlugin name (file_config mtime content) (DelPlugin name a) w)
      end
  end.

Fixpoint HandleChangedPlugin (conf : ConfDir) (names : list string) (a : Agent) (w : W) : go (Agent * W) :=
  match names with
  | [] => Ret (a, w)
  | name :: names' =>
    '(a, w) ← changed_plugin conf name a w;
    HandleChangedPlugin conf names' a w
  end.

(** One round of [HandleNewPlugin]. *)
Definition new_plugin (conf : ConfDir) (names : list string) (dir : string) (aw : Agent * W) : Agent * W :=
  let '(a, w) := aw in
  match plugin_of_dir dir with
  | None => (a, w)
  | Some name =>
    if bool_decide (name ∈ names) then (a, w)
    else
      match readPluginDir (plugin_files conf name) with
      | None => (a, w)
      | Some (mtime, content) =>
        if nothing_configured mtime content then (a, w)
        else LoadPlugin name (file_config mtime content) a w
      end
  end.

Definition HandleNewPlugin (conf : ConfDir) (names : list string) (a : Agent) (w : W) : Agent * W :=
  match dirs conf with
  | None => (a, w)
  | Some l => fold_left (fun aw dir => new_plugin conf names dir aw) l (a, w)
  end.

(** [order] is what [RunningPlugins] returned. *)
Definition Reload (conf : ConfDir) (order : list string) (a : Agent) (w : W) : go (Agent * W) :=
  '(a, w) ← HandleChangedPlugin conf order a w;
  Ret (HandleNewPlugin conf order a w).

(** The plugins of [Start]; [order] is the order of the loop over the
    configurations read. *)
Definition Start_plugins (order : list (string * PluginConfig)) (a : Agent) (w : W) : Agent * W :=
  fold_left (fun aw np => LoadPlugin np.1 np.2 aw.1 aw.2) order (a, w).

(** [Stop], as far as plugins go; [order] is the order of its loop. *)
Definition Stop (order : list string) (a : Agent) : Agent :=
  fold_left (fun a name => DelPlugin name a) order a.

(** ** What is started, runs and is stopped *)

Definition started_of (acts : list action) : list (string * I) :=
  omap (fun a => match a with StartInstance n i => Some (n, i) | _ => None end) acts.
Definition stopped_of (acts : list action) : list (string * I) :=
  omap (fun a => match a with StopInstance n i => Some (n, i) | _ => None end) acts.
Definition dropped_of (acts : list action) : list (string * I) :=
  omap (fun a => match a with DropInstance n i => Some (n, i) | _ => None end) acts.

Definition instances_of (nr : string * PluginRunner) : list (string * I) := map (pair nr.1) (Instances nr.2).
Definition running_instances (a : Agent) : list (string * I) :=
  mjoin (map instances_of (map_to_list (pluginRunners a))).

(** A runner works for the plugin its configuration describes, and no instance
    was started that does not run or was stopped and dropped. *)
Record agent_wf (a : Agent) : Prop := {
  wf_runner name r : pluginRunners a !! name = Some r ->
    exists pc p w, pluginConfigs a !! name = Some pc /\ Source pc = "file" /\
      load_object (pluginFilters a) name pc = Some p /\ r = (start (newPluginRunner name p) w).1.1;
  wf_config name : is_Some (pluginConfigs a !! name) -> is_Some (pluginRunners a !! name);
  wf_started : started_of (actions a) ≡ₚ running_instances a ++ stopped_of (actions a);
  wf_dropped : dropped_of (actions a) = stopped_of (actions a)
}.

Lemma started_app l k : started_of (l ++ k) = started_of l ++ started_of k.
Proof. apply omap_app. Qed.
Lemma stopped_app l k : stopped_of (l ++ k) = stopped_of l ++ stopped_of k.
Proof. apply omap_app. Qed.
Lemma dropped_app l k : dropped_of (l ++ k) = dropped_of l ++ dropped_of k.
Proof. apply omap_app. Qed.

Lemma actions_start name l :
  started_of (map (StartInstance name) l) = map (pair name) l /\
  stopped_of (map (StartInstance name) l) = [] /\ dropped_of (map (StartInstance name) l) = [].
Proof.
  unfold started_of, stopped_of, dropped_of.
  induction l as [|i l (IH1 & IH2 & IH3)]; [done|]. cbn. by rewrite IH1, IH2, IH3.
Qed.

Lemma actions_stop_each name l :
  started_of (map (StopInstance name) l) = [] /\
  stopped_of (map (StopInstance name) l) = map (pair name) l /\
  dropped_of (map (StopInstance name) l) = [] /\
  started_of (map (DropInstance name) l) = [] /\
  stopped_of (map (DropInstance name) l) = [] /\
  dropped_of (map (DropInstance name) l) = map (pair name) l.
Proof.
  unfold started_of, stopped_of, dropped_of.
  induction l as [|i l (IH1 & IH2 & IH3 & IH4 & IH5 & IH6)]; [done|]. cbn.
  by rewrite IH1, IH2, IH3, IH4, IH5, IH6.
Qed.

Lemma actions_stop r :
  started_of (stop r) = [] /\ stopped_of (stop r) = map (pair (pluginName r)) (Instances r) /\
  dropped_of (stop r) = map (pair (pluginName r)) (Instances r).
Proof.
  destruct (actions_stop_each (pluginName r) (Instances r)) as (H1 & H2 & H3 & H4 & H5 & H6).
  unfold stop. rewrite !started_app, !stopped_app, !dropped_app, H1, H2, H3, H4, H5, H6.
  by rewrite !app_nil_r.
Qed.

Lemma start_fields name p w :
  pluginName (start (newPluginRunner name p) w).1.1 = name /\
  (start (newPluginRunner name p) w).1.2
    = map (StartInstance name) (Instances (start (newPluginRunner name p) w).1.1).
Proof. unfold start, newPluginRunner. cbn. by destruct (PluginInit p w) as [[p'|] w']. Qed.

Lemma wf_names a name r : agent_wf a -> pluginRunners a !! name = Some r -> pluginName r = name.
Proof. intros Hwf (pc & p & w & _ & _ & _ & ->)%(wf_runner a Hwf). apply start_fields. Qed.

Lemma LoadPlugin_wf name pc a w :
  agent_wf a -> Source pc = "file" -> pluginRunners a !! name = None ->
  agent_wf (LoadPlugin name pc a w).1.
Proof.
  intros Hwf Hsrc Hname. unfold LoadPlugin. destruct (load_object _ name pc) as [p|] eqn:Hl; [|done].
  pose proof (start_fields name p w) as [Hn Ha].
  destruct (start (newPluginRunner name p) w) as [[r acts] w'] eqn:Hs. cbn in Hn, Ha. subst acts.
  destruct (actions_start name (Instances r)) as (H1 & H2 & H3). split; cbn.
  - intros k r'. destruct (decide (k = name)) as [->|Hne].
    + rewrite !lookup_insert_eq. intros [= <-]. exists pc, p, w. by rewrite Hs.
    + rewrite !lookup_insert_ne by done. apply (wf_runner a Hwf).
  - intros k. rewrite !lookup_insert_is_Some. intros [?|[? ?]]; [by left|].
    destruct (decide (name = k)); [by left|right]. split; [done|]. by apply (wf_config a Hwf).
  - rewrite started_app, stopped_app, H1, H2, app_nil_r, (wf_started a Hwf).
    unfold running_instances. cbn. rewrite map_to_list_insert by done. cbn.
    rewrite <-!(assoc_L (++)). rewrite (Permutation_app_comm _ (map _ _)). unfold instances_of at 3. cbn.
    by rewrite !(assoc_L (++)), (Permutation_app_comm (mjoin _)).
  - by rewrite dropped_app, stopped_app, H2, H3, !app_nil_r, (wf_dropped a Hwf).
Qed.

Lemma DelPlugin_wf name a : agent_wf a -> agent_wf (DelPlugin name a).
Proof.
  intros Hwf. unfold DelPlugin. destruct (pluginRunners a !! name) as [r|] eqn:Hr; [|done].
  pose proof (wf_names a name r Hwf Hr) as Hn. destruct (actions_stop r) as (H1 & H2 & H3). split; cbn.
  - intros k r' [Hne Hk]%lookup_delete_Some. rewrite lookup_delete_ne by done. by apply (wf_runner a Hwf).
  - intros k [x [Hne Hk]%lookup_delete_Some]. rewrite lookup_delete_ne by done.
    apply (wf_config a Hwf). by eexists.
  - rewrite started_app, stopped_app, H1, H2, app_nil_r, (wf_started a Hwf).
    unfold running_instances. cbn.
    rewrite <-(insert_delete_id (pluginRunners a) name r) at 1 by done.
    rewrite map_to_list_insert by apply lookup_delete_eq. cbn. unfold instances_of at 1. cbn. rewrite Hn.
    rewrite <-(assoc_L (++)). rewrite (Permutation_app_comm (map _ _)). by rewrite <-(assoc_L (++)).
  - by rewrite dropped_app, stopped_app, H2, H3, (wf_dropped a Hwf).
Qed.

(** ** What a reload does to one plugin *)

Definition loaded (a : Agent) (name : string) (pc : PluginConfig) : option PluginConfig :=
  match load_object (pluginFilters a) name pc with Some _ => Some pc | None => None end.

(** A plugin that runs: stopped when its files are gone, replaced when the
    digest changed, left alone when its files cannot be read. *)
Definition reload_running (conf : ConfDir) (a : Agent) (name : string) (pc : PluginConfig)
  : option PluginConfig :=
  match readPluginDir (plugin_files conf name) with
  | None => Some pc
  | Some (mtime, content) =>
    if nothing_configured mtime content then None
    else if bool_decide (Digest pc = itoa mtime) then Some pc
    else loaded a name (file_config mtime content)
  end.

(** A plugin that does not run: started when a directory configures it. *)
Definition reload_new (conf : ConfDir) (a : Agent) (name : string) : option PluginConfig :=
  match dirs conf with
  | None => None
  | Some l =>
    if bool_decide ("p." +:+ name ∈ l) then
      match readPluginDir (plugin_files conf name) with
      | None => None
      | Some (mtime, content) =>
        if nothing_configured mtime content then None else loaded a name (file_config mtime content)
      end
    else None
  end.

Definition reload_config (conf : ConfDir) (a : Agent) (name : string) : option PluginConfig :=
  match pluginConfigs a !! name with
  | Some pc => reload_running conf a name pc
  | None => reload_new conf a name
  end.

Lemma not_running a name : agent_wf a -> pluginConfigs a !! name = None <-> pluginRunners a !! name = None.
Proof.
  intros Hwf. split; intros H.
  - destruct (pluginRunners a !! name) as [r|] eqn:E; [|done].
    destruct (wf_runner a Hwf _ _ E) as (pc & _ & _ & Hpc & _). congruence.
  - apply eq_None_not_Some. intros Hs%(wf_config a Hwf). rewrite H in Hs. by destruct Hs.
Qed.

Lemma LoadPlugin_configs name pc a w k :
  pluginFilters (LoadPlugin name pc a w).1 = pluginFilters a /\
  pluginConfigs (LoadPlugin name pc a w).1 !! k =
    if decide (k = name) then match loaded a name pc with Some pc => Some pc | None => pluginConfigs a !! k end
    else pluginConfigs a !! k.
Proof.
  unfold LoadPlugin, loaded. destruct (load_object _ name pc); [|by case_decide].
  destruct (start _ w) as [[r acts] w']. cbn. split; [done|].
  case_decide as Hk; [subst; by rewrite lookup_insert_eq|by rewrite lookup_insert_ne].
Qed.

Lemma DelPlugin_configs name a k :
  agent_wf a -> pluginFilters (DelPlugin name a) = pluginFilters a /\
  pluginConfigs (DelPlugin name a) !! k = if decide (k = name) then None else pluginConfigs a !! k.
Proof.
  intros Hwf. unfold DelPlugin. destruct (pluginRunners a !! name) eqn:Hr; cbn.
  - split; [done|]. case_decide as Hk; [subst; by rewrite lookup_delete_eq|by rewrite lookup_delete_ne].
  - split; [done|]. case_decide; [subst|done]. by apply not_running.
Qed.

(** One round for a running plugin. *)
Lemma changed_plugin_spec conf name a w pc :
  agent_wf a -> pluginConfigs a !! name = Some pc ->
  exists a' w', changed_plugin conf name a w = Ret (a', w') /\ agent_wf a' /\
    pluginFilters a' = pluginFilters a /\
    forall k, pluginConfigs a' !! k =
      if decide (k = name) then reload_running conf a name pc else pluginConfigs a !! k.
Proof.
  intros Hwf Hpc. destruct (wf_config a Hwf name) as [r Hr]; [by eexists|].
  destruct (wf_runner a Hwf name r Hr) as (pc' & _ & _ & Hpc' & Hsrc & _). simplify_eq.
  unfold changed_plugin, GetPluginConfig, reload_running. rewrite Hpc, bool_decide_eq_true_2 by done. cbn [negb].
  assert (forall k, pluginConfigs a !! k = if decide (k = name) then Some pc else pluginConfigs a !! k) as Hid
    by (intros k; by case_decide; subst).
  destruct (readPluginDir _) as [[mtime content]|]; [|by eexists a, w].
  destruct (nothing_configured _ _).
  { exists (DelPlugin name a), w. split_and!; [done|by apply DelPlugin_wf|by apply DelPlugin_configs|].
    intros k. by apply DelPlugin_configs. }
  case_bool_decide; [by eexists a, w|].
  destruct (DelPlugin_configs name a name Hwf) as [Hf Hn]. rewrite decide_True in Hn by done.
  pose proof (DelPlugin_wf name a Hwf) as Hwf'.
  destruct (LoadPlugin name (file_config mtime content) (DelPlugin name a) w) as [a' w'] eqn:Hl.
  exists a', w'. change a' with (a', w').1. rewrite <-Hl. split_and!; [done| | |].
  - apply LoadPlugin_wf; [done|done|]. by apply not_running.
  - by destruct (LoadPlugin_configs name (file_config mtime content) (DelPlugin name a) w name) as [-> _].
  - intros k. destruct (LoadPlugin_configs name (file_config mtime content) (DelPlugin name a) w k) as [_ ->].
    destruct (DelPlugin_configs name a k Hwf) as [_ ->]. case_decide; [|done].
    unfold loaded. rewrite Hf. by destruct (load_object _ _ _).
Qed.

Lemma HandleChangedPlugin_spec conf names a w :
  agent_wf a -> NoDup names -> (forall name, name ∈ names -> is_Some (pluginConfigs a !! name)) ->
  exists a' w', HandleChangedPlugin conf names a w = Ret (a', w') /\ agent_wf a' /\
    pluginFilters a' = pluginFilters a /\
    forall k, pluginConfigs a' !! k =
      if decide (k ∈ names) then pluginConfigs a !! k ≫= reload_running conf a k else pluginConfigs a !! k.
Proof.
  intros Hwf Hnd. revert a w Hwf. induction Hnd as [|name names Hname Hnd IH]; intros a w Hwf Hin.
  { exists a, w. split_and!; [done..|]. intros k. rewrite decide_False; [done|]. apply not_elem_of_nil. }
  destruct (Hin name) as [pc Hpc]; [constructor|].
  destruct (changed_plugin_spec conf name a w pc Hwf Hpc) as (a1 & w1 & H1 & Hwf1 & Hf1 & Hc1).
  destruct (IH a1 w1 Hwf1) as (a2 & w2 & H2 & Hwf2 & Hf2 & Hc2).
  { intros k Hk. rewrite Hc1, decide_False by (intros ->; done). apply Hin. by constructor. }
  exists a2, w2. cbn [HandleChangedPlugin]. rewrite H1. cbn [mbind go_bind]. rewrite H2.
  split_and!; [done|done|congruence|]. intros k. rewrite Hc2, Hc1.
  assert (reload_running conf a1 k = reload_running conf a k) as Hrr
    by (unfold reload_running, loaded; by rewrite Hf1).
  destruct (decide (k = name)) as [->|Hne].
  - rewrite decide_False by done. rewrite decide_True by constructor. by rewrite Hpc.
  - rewrite Hrr. destruct (decide (k ∈ names)); [rewrite decide_True by (by constructor); done|].
    rewrite decide_False; [done|]. by apply not_elem_of_cons.
Qed.

Lemma plugin_of_dir_Some dir name : plugin_of_dir dir = Some name <-> dir = "p." +:+ name.
Proof.
  unfold plugin_of_dir. destruct (HasPrefix dir "p.") eqn:E.
  - apply HasPrefix_spec in E as [r ->].
    change (sdrop 2 ("p." +:+ r)) with r. change ("p." +:+ r) with (String "p" (String "." r)).
    change ("p." +:+ name) with (String "p" (String "." name)). split; congruence.
  - split; [done|]. intros ->. assert (HasPrefix ("p." +:+ name) "p." = true) as Ht
      by (apply HasPrefix_spec; by exists name). congruence.
Qed.

Lemma dir_inj name k : "p." +:+ name = "p." +:+ k <-> k = name.
Proof.
  change ("p." +:+ name) with (String "p" (String "." name)).
  change ("p." +:+ k) with (String "p" (String "." k)). split; congruence.
Qed.

Lemma new_plugins_spec conf names l a w :
  agent_wf a -> NoDup l ->
  (forall name, "p." +:+ name ∈ l -> name ∉ names -> pluginConfigs a !! name = None) ->
  let r := fold_left (fun aw dir => new_plugin conf names dir aw) l (a, w) in
  agent_wf r.1 /\ pluginFilters r.1 = pluginFilters a /\
  forall k, pluginConfigs r.1 !! k =
    if decide ("p." +:+ k ∈ l /\ k ∉ names) then
      match readPluginDir (plugin_files conf k) with
      | None => None
      | Some (mtime, content) =>
        if nothing_configured mtime content then None else loaded a k (file_config mtime content)
      end
    else pluginConfigs a !! k.
Proof.
  intros Hwf Hnd. revert a w Hwf. induction Hnd as [|dir l Hdir Hnd IH]; intros a w Hwf Hnone; cbn [fold_left].
  { split_and!; [done..|]. intros k. rewrite decide_False; [done|]. by intros [?%elem_of_nil _]. }
  assert (agent_wf (new_plugin conf names dir (a, w)).1 /\
    pluginFilters (new_plugin conf names dir (a, w)).1 = pluginFilters a /\
    forall k, pluginConfigs (new_plugin conf names dir (a, w)).1 !! k =
      if decide (dir = "p." +:+ k /\ k ∉ names) then
        match readPluginDir (plugin_files conf k) with
        | None => None
        | Some (mtime, content) =>
          if nothing_configured mtime content then None else loaded a k (file_config mtime content)
        end
      else pluginConfigs a !! k) as (Hwf1 & Hf1 & Hc1).
  { unfold new_plugin. destruct (plugin_of_dir dir) as [name|] eqn:Hp; cycle 1.
    { split_and!; [done..|]. intros k. rewrite decide_False; [done|].
      intros [Hk%plugin_of_dir_Some _]. congruence. }
    apply plugin_of_dir_Some in Hp as ->.
    pose proof (dir_inj name) as Hinj.
    case_bool_decide as Hin.
    { split_and!; [done..|]. intros k. rewrite decide_False; [done|]. rewrite Hinj. by intros [-> ?]. }
    pose proof (Hnone name ltac:(constructor) Hin) as Hno.
    destruct (readPluginDir (plugin_files conf name)) as [[mtime content]|] eqn:Hr; cycle 1.
    { split_and!; [done..|]. intros k. case_decide as Hd; [|done]. destruct Hd as [->%Hinj _]. by rewrite Hr. }
    destruct (nothing_configured mtime content) eqn:Hnc.
    { split_and!; [done..|]. intros k. case_decide as Hd; [|done]. destruct Hd as [->%Hinj _]. by rewrite Hr, Hnc. }
    split_and!; [apply LoadPlugin_wf; [done|done|by apply not_running]| |].
    - by destruct (LoadPlugin_configs name (file_config mtime content) a w name) as [-> _].
    - intros k. destruct (LoadPlugin_configs name (file_config mtime content) a w k) as [_ ->].
      case_decide as Hk.
      + subst k. rewrite decide_True by done. rewrite Hr, Hnc. unfold loaded. by destruct (load_object _ _ _).
      + rewrite decide_False; [done|]. rewrite Hinj. by intros [? _]. }
  destruct (new_plugin conf names dir (a, w)) as [a1 w1]. cbn in Hwf1, Hf1, Hc1.
  destruct (IH a1 w1 Hwf1) as (Hwf2 & Hf2 & Hc2).
  { intros name Hl Hn. rewrite Hc1, decide_False by (intros [-> _]; done). apply Hnone; [by constructor|done]. }
  split_and!; [done|congruence|]. intros k. rewrite Hc2, Hc1.
  assert (loaded a1 k = loaded a k) as -> by (unfold loaded; by rewrite Hf1).
  destruct (decide ("p." +:+ k ∈ l /\ k ∉ names)) as [[Hl Hn]|Hnot].
  - rewrite decide_True; [done|]. split; [by constructor|done].
  - destruct (decide (dir = "p." +:+ k /\ k ∉ names)) as [[-> Hn]|Hnd2].
    + rewrite decide_True; [done|]. split; [constructor|done].
    + rewrite decide_False; [done|]. rewrite elem_of_cons. naive_solver.
Qed.

(** ** Runs of the agent: started once, then reloaded any number of times *)

Inductive agent_run (plugins : string) : Agent -> Prop :=
| run_start conf pcs order w :
    loadFileConfigs conf = Some pcs -> order ≡ₚ map_to_list pcs ->
    agent_run plugins (Start_plugins order (New plugins) w).1
| run_reload conf order a w a' w' :
    agent_run plugins a -> (forall l, dirs conf = Some l -> NoDup l) ->
    order ≡ₚ RunningPlugins a -> Reload conf order a w = Ret (a', w') ->
    agent_run plugins a'.

Lemma New_wf plugins : agent_wf (New plugins).
Proof.
  split; cbn; try done.
  intros name [? H]. by rewrite lookup_empty in H.
Qed.

Lemma load_dirs_source conf names ret pcs :
  load_dirs conf names ret = Some pcs -> map_Forall (fun _ pc => Source pc = "file") ret ->
  map_Forall (fun _ pc => Source pc = "file") pcs.
Proof.
  revert ret. induction names as [|dir names IH]; intros ret; cbn; [by intros [= ->]|].
  destruct (plugin_of_dir dir) as [name|]; [|by apply IH].
  destruct (readPluginDir _) as [[mtime content]|]; [|done].
  destruct (nothing_configured _ _); [by apply IH|]. intros Hl Hr. apply (IH _ Hl).
  by apply map_Forall_insert_2.
Qed.

Lemma LoadPlugin_runners name pc a w k :
  k <> name -> pluginRunners (LoadPlugin name pc a w).1 !! k = pluginRunners a !! k.
Proof.
  intros Hk. unfold LoadPlugin. destruct (load_object _ _ _); [|done].
  destruct (start _ w) as [[r acts] w']. cbn. by rewrite lookup_insert_ne.
Qed.

Lemma Start_plugins_wf order a w :
  agent_wf a -> NoDup order.*1 -> Forall (fun np => Source np.2 = "file") order ->
  (forall name, name ∈ order.*1 -> pluginRunners a !! name = None) ->
  agent_wf (Start_plugins order a w).1.
Proof.
  unfold Start_plugins. revert a w. induction order as [|[name pc] order IH]; intros a w Hwf Hnd Hs Hn; [done|].
  cbn in *. apply NoDup_cons in Hnd as [Hname Hnd]. apply Forall_cons in Hs as [Hsrc Hs].
  rewrite (surjective_pairing (LoadPlugin name pc a w)). apply IH; [|done..|].
  - apply LoadPlugin_wf; [done..|]. apply Hn. constructor.
  - intros k Hk. rewrite LoadPlugin_runners by (intros ->; done). apply Hn. by constructor.
Qed.

Lemma RunningPlugins_spec a name : name ∈ RunningPlugins a <-> is_Some (pluginRunners a !! name).
Proof.
  unfold RunningPlugins. rewrite list_elem_of_fmap. split.
  - intros ([k r] & -> & Hk%elem_of_map_to_list). by eexists.
  - intros [r Hr]. exists (name, r). split; [done|]. by apply elem_of_map_to_list.
Qed.

Lemma Reload_spec conf order a w :
  agent_wf a -> order ≡ₚ RunningPlugins a -> (forall l, dirs conf = Some l -> NoDup l) ->
  exists a' w', Reload conf order a w = Ret (a', w') /\ agent_wf a' /\
    pluginFilters a' = pluginFilters a /\
    forall name, pluginConfigs a' !! name = reload_config conf a name.
Proof.
  intros Hwf Ho Hnd.
  assert (forall name, name ∈ order <-> is_Some (pluginConfigs a !! name)) as Hin.
  { intros name. rewrite Ho, RunningPlugins_spec, <-!not_eq_None_Some. by rewrite (not_running a name Hwf). }
  destruct (HandleChangedPlugin_spec conf order a w Hwf) as (a1 & w1 & H1 & Hwf1 & Hf1 & Hc1).
  { rewrite Ho. apply NoDup_fst_map_to_list. }
  { intros name. apply Hin. }
  unfold Reload. rewrite H1. cbn [mbind go_bind].
  assert (forall k, pluginConfigs a1 !! k = pluginConfigs a !! k ≫= reload_running conf a k) as Hc1'.
  { intros k. rewrite Hc1. destruct (decide (k ∈ order)) as [|Hk]; [done|].
    rewrite Hin in Hk. apply eq_None_not_Some in Hk. by rewrite Hk. }
  unfold HandleNewPlugin, reload_config, reload_new. destruct (dirs conf) as [l|]; cycle 1.
  { exists a1, w1. split_and!; [done..|]. intros k. rewrite Hc1'. by destruct (pluginConfigs a !! k). }
  pose proof (new_plugins_spec conf order l a1 w1 Hwf1 (Hnd l eq_refl)) as Hn. cbn zeta in Hn.
  destruct (fold_left _ l (a1, w1)) as [a2 w2]. cbn [fst] in Hn.
  destruct Hn as (Hwf2 & Hf2 & Hc2).
  { intros name _ Hk. rewrite Hc1'. rewrite Hin in Hk. apply eq_None_not_Some in Hk. by rewrite Hk. }
  exists a2, w2. split_and!; [done|done|congruence|]. intros k. rewrite Hc2, Hc1'.
  assert (loaded a1 k = loaded a k) as -> by (unfold loaded; by rewrite Hf1).
  destruct (pluginConfigs a !! k) as [pc|] eqn:Hk.
  - rewrite decide_False; [done|]. intros [_ Hno]. apply Hno, Hin. by rewrite Hk.
  - assert (k ∉ order) as Hno by (rewrite Hin, Hk; by intros [? ?]).
    destruct (bool_decide_reflect ("p." +:+ k ∈ l)).
    + by rewrite decide_True.
    + rewrite decide_False; [done|]. by intros [? _].
Qed.

Lemma agent_run_wf plugins a : agent_run plugins a -> agent_wf a.
Proof.
  induction 1 as [conf pcs order w Hl Ho|conf order a w a' w' _ IH Hnd Ho Hr].
  - assert (map_Forall (fun _ pc => Source pc = "file") pcs) as Hs.
    { unfold loadFileConfigs in Hl. destruct (dirs conf); [|done].
      apply (load_dirs_source _ _ _ _ Hl). apply map_Forall_empty. }
    apply Start_plugins_wf; [apply New_wf| | |done].
    + rewrite Ho. apply NoDup_fst_map_to_list.
    + rewrite Ho. apply Forall_forall. intros [name pc] Hin%elem_of_map_to_list. by apply (Hs name).
  - destruct (Reload_spec conf order a w IH Ho Hnd) as (a2 & w2 & Hr2 & Hwf & _).
    rewrite Hr in Hr2. by simplify_eq.
Qed.

Lemma DelPlugin_runners name a : pluginRunners (DelPlugin name a) = delete name (pluginRunners a).
Proof.
  unfold DelPlugin. destruct (pluginRunners a !! name) eqn:E; [done|]. by rewrite delete_id.
Qed.

Lemma Stop_spec order a :
  agent_wf a -> order ≡ₚ RunningPlugins a ->
  agent_wf (Stop order a) /\ pluginRunners (Stop order a) = ∅.
Proof.
  intros Hwf Ho. unfold Stop.
  assert (forall l a, agent_wf a -> agent_wf (fold_left (fun a name => DelPlugin name a) l a) /\
    forall k, pluginRunners (fold_left (fun a name => DelPlugin name a) l a) !! k
      = if decide (k ∈ l) then None else pluginRunners a !! k) as Hfold.
  { clear. induction l as [|n l IH]; intros a Hwf; cbn.
    - split; [done|]. intros k. rewrite decide_False; [done|]. apply not_elem_of_nil.
    - destruct (IH (DelPlugin n a) (DelPlugin_wf n a Hwf)) as [Hwf' Hr]. split; [done|]. intros k.
      rewrite Hr, DelPlugin_runners. destruct (decide (k ∈ l)); [by rewrite decide_True by by constructor|].
      destruct (decide (k = n)) as [->|Hne].
      + rewrite lookup_delete_eq. by rewrite decide_True by constructor.
      + rewrite lookup_delete_ne by done. rewrite decide_False; [done|]. by apply not_elem_of_cons. }
  destruct (Hfold order a Hwf) as [Hwf' Hr]. split; [done|]. apply map_empty. intros k. rewrite Hr.
  case_decide as Hk; [done|]. rewrite Ho, RunningPlugins_spec in Hk. by apply eq_None_not_Some in Hk.
Qed.

(** ** Plugins that a reload leaves alone *)

(** The files cannot be read, or the newest of them is as old as before. *)
Definition unchanged (conf : ConfDir) (name : string) (pc : PluginConfig) : Prop :=
  match readPluginDir (plugin_files conf name) with
  | None => True
  | Some (mtime, content) => nothing_configured mtime content = false /\ Digest pc = itoa mtime
  end.
(** Neither the configuration nor the runner of a plugin was touched. *)
Definition kept (a a' : Agent) (name : string) : Prop :=
  pluginConfigs a' !! name = pluginConfigs a !! name /\ pluginRunners a' !! name = pluginRunners a !! name.

Lemma kept_trans a1 a2 a3 k : kept a1 a2 k -> kept a2 a3 k -> kept a1 a3 k.
Proof. unfold kept. intuition congruence. Qed.
Lemma DelPlugin_kept name a k : k <> name -> kept a (DelPlugin name a) k.
Proof. intros Hk. unfold DelPlugin, kept. destruct (pluginRunners a !! name); [cbn; by rewrite !lookup_delete_ne|done]. Qed.
Lemma LoadPlugin_kept name pc a w k : k <> name -> kept a (LoadPlugin name pc a w).1 k.
Proof. intros Hk. split; [rewrite (proj2 (LoadPlugin_configs name pc a w k)); by case_decide|by apply LoadPlugin_runners]. Qed.

Lemma changed_plugin_kept conf name a w a' w' k pc : changed_plugin conf name a w = Ret (a', w') ->
  pluginConfigs a !! k = Some pc -> unchanged conf k pc -> kept a a' k.
Proof.
  unfold changed_plugin, GetPluginConfig, unchanged. intros H Hpc Hu. destruct (decide (k = name)) as [->|Hk].
  - rewrite Hpc in H. destruct (negb _); [by injection H as <- _|]. destruct (readPluginDir _) as [[mtime content]|]; [|by injection H as <- _].
    destruct Hu as [Hn Hd]. rewrite Hn, bool_decide_eq_true_2 in H by done. by injection H as <- _.
  - destruct (pluginConfigs a !! name); [|done]. destruct (negb _); [by injection H as <- _|].
    destruct (readPluginDir (plugin_files conf name)) as [[mtime content]|]; [|by injection H as <- _].
    destruct (nothing_configured _ _); [injection H as <- _; by apply DelPlugin_kept|]. case_bool_decide; [by injection H as <- _|].
    destruct (LoadPlugin name (file_config mtime content) (DelPlugin name a) w) as [a2 w2] eqn:El. injection H as <- <-.
    apply (kept_trans _ (DelPlugin name a)); [by apply DelPlugin_kept|]. change a2 with (a2, w2).1. rewrite <- El. by apply LoadPlugin_kept.
Qed.

Lemma Reload_kept conf order a w a' w' k pc : Reload conf order a w = Ret (a', w') -> k ∈ order ->
  pluginConfigs a !! k = Some pc -> unchanged conf k pc -> kept a a' k.
Proof.
  unfold Reload. intros H Hin Hpc Hu.
  assert (forall names a w a' w', HandleChangedPlugin conf names a w = Ret (a', w') -> pluginConfigs a !! k = Some pc -> kept a a' k) as Hch.
  { clear -Hu. intros names. induction names as [|n names IH]; intros a w a' w' H Hpc; cbn [HandleChangedPlugin] in H; [by injection H as <- _|].
    destruct (changed_plugin conf n a w) as [[a1 w1]|] eqn:E; [|done]. cbn [mbind go_bind] in H.
    pose proof (changed_plugin_kept _ _ _ _ _ _ _ _ E Hpc Hu) as Hk. apply (kept_trans _ a1); [done|]. eapply IH; [exact H|]. by rewrite (proj1 Hk). }
  destruct (HandleChangedPlugin conf order a w) as [[a1 w1]|] eqn:E; [|done]. cbn [mbind go_bind] in H. injection H as H.
  apply (kept_trans _ a1); [by eapply Hch|]. change a' with (a', w').1. rewrite <- H. unfold HandleNewPlugin.
  destruct (dirs conf) as [l|]; [|done]. clear -Hin. revert a1 w1. induction l as [|dir l IH]; intros a1 w1; [done|]. cbn [fold_left].
  destruct (new_plugin conf order dir (a1, w1)) as [a2 w2] eqn:E. apply (kept_trans _ a2); [|apply IH].
  unfold new_plugin in E. destruct (plugin_of_dir dir) as [name|]; [|by injection E as <- _].
  case_bool_decide as Hn; [by injection E as <- _|]. destruct (readPluginDir _) as [[mtime content]|]; [|by injection E as <- _].
  destruct (nothing_configured _ _); [by injection E as <- _|]. change a2 with (a2, w2).1. rewrite <- E.
  apply LoadPlugin_kept. by intros ->.
Qed.

(** ** Properties *)

(** C14: A reload follows the newest modification time of each plugin's directory,
    in whatever order the maps are visited, and never panics.  Afterwards a
    plugin whose files are gone is not configured; a plugin whose files cannot
    be read is as before; and a plugin that is configured carries the digest of
    the files as they are now: it was loaded from them, or it had that digest
    before and neither its configuration nor its runner was touched.  A plugin
    whose files can be loaded is configured if it was before or has a directory
    in the list.  (What changed without a newer modification time goes
    unnoticed.) *)
Theorem Reload_syncs conf order a w
    (Hwf : agent_wf a) (Ho : order ≡ₚ RunningPlugins a)
    (Hnd : forall l, dirs conf = Some l -> NoDup l) :
  exists a' w', Reload conf order a w = Ret (a', w') /\ agent_wf a' /\
    forall name,
      match readPluginDir (plugin_files conf name) with
      | None => pluginConfigs a' !! name = pluginConfigs a !! name /\
                (is_Some (pluginConfigs a !! name) -> kept a a' name)
      | Some (mtime, content) =>
        if nothing_configured mtime content then pluginConfigs a' !! name = None /\ pluginRunners a' !! name = None
        else
          (forall pc, pluginConfigs a' !! name = Some pc ->
             Digest pc = itoa mtime /\
             (pc = file_config mtime content \/ pluginConfigs a !! name = Some pc /\ kept a a' name)) /\
          (is_Some (load_object (pluginFilters a) name (file_config mtime content)) ->
           is_Some (pluginConfigs a !! name) \/ (exists l, dirs conf = Some l /\ "p." +:+ name ∈ l) ->
           is_Some (pluginConfigs a' !! name))
      end.
Proof.
  destruct (Reload_spec conf order a w Hwf Ho Hnd) as (a' & w' & Hr & Hwf' & _ & Hc). exists a', w'. split_and!; [done..|].
  intros name. specialize (Hc name).
  assert (forall pc, pluginConfigs a !! name = Some pc -> unchanged conf name pc -> kept a a' name) as Hkept.
  { intros pc Hpc Hu. eapply Reload_kept; try done. rewrite Ho, RunningPlugins_spec. apply (wf_config a Hwf). by eexists. }
  unfold reload_config, reload_running, reload_new, unchanged in *.
  destruct (readPluginDir (plugin_files conf name)) as [[mtime content]|] eqn:Er.
  - destruct (nothing_configured mtime content) eqn:En.
    + assert (pluginConfigs a' !! name = None) as Hn by (rewrite Hc; repeat case_match; done).
      split; [done|]. by apply not_running.
    + unfold loaded in Hc. destruct (pluginConfigs a !! name) as [old|] eqn:Eo.
      * case_bool_decide as Hd.
        -- split; [intros pc Hpc|by rewrite Hc]. rewrite Hpc in Hc. injection Hc as ->. split; [done|]. right. split; [done|by apply (Hkept old)].
        -- split; [|intros [p Hp] _; by rewrite Hc, Hp].
           intros pc Hpc. rewrite Hpc in Hc. destruct (load_object _ _ _); [|done]. injection Hc as ->. split; [done|by left].
      * split.
        -- intros pc Hpc. rewrite Hpc in Hc. destruct (dirs conf) as [l|]; [|done]. case_bool_decide; [|done].
           destruct (load_object _ _ _); [|done]. injection Hc as ->. split; [done|by left].
        -- intros [p Hp] [[? [=]]|(l & Hl & Hin)]. rewrite Hl, bool_decide_eq_true_2, Hp in Hc by done. by rewrite Hc.
  - split.
    + rewrite Hc. destruct (pluginConfigs a !! name); [done|]. by repeat case_match.
    + intros [old Ho']. by apply (Hkept old).
Qed.

(** No instance leaks: in every run of the agent the instances started are those
    that run and those that were stopped, each stopped one was dropped, and
    after [Stop] none runs. *)
Theorem instances_accounted plugins a (Hrun : agent_run plugins a) :
  started_of (actions a) ≡ₚ running_instances a ++ stopped_of (actions a) /\
  dropped_of (actions a) = stopped_of (actions a) /\
  forall order, order ≡ₚ RunningPlugins a ->
    let b := Stop order a in
    pluginRunners b = ∅ /\ started_of (actions b) ≡ₚ stopped_of (actions b) /\
    dropped_of (actions b) = stopped_of (actions b).
Proof.
  apply agent_run_wf in Hrun as Hwf. split_and!; [apply (wf_started a Hwf)|apply (wf_dropped a Hwf)|].
  intros order Ho b. destruct (Stop_spec order a Hwf Ho) as [Hb He]. fold b in Hb, He.
  split_and!; [done| |apply (wf_dropped b Hb)].
  rewrite (wf_started b Hb). unfold running_instances. by rewrite He.
Qed.
End agent.

(** ** The goroutine of an instance (runner.go) *)

(** Zero intervals fall back to the plugin's, then to the global one. *)
Definition effective_interval (instance plugin global : Z) : Z :=
  if instance =? 0 then if plugin =? 0 then global else plugin else instance.

(** One round per element: how late the timer is served and how long the
    gathering takes.  The result are the times it begins and ends; [fire] is
    when the timer fires. *)
Fixpoint gather_loop (interval fire : Z) (rounds : list (Z * Z)) : list (Z * Z) :=
  match rounds with
  | [] => []
  | (late, took) :: rounds' =>
    let start := fire + late in
    let next := interval - took in
    let next := if next <? 0 then 0 else next in
    (start, start + took) :: gather_loop interval (start + took + next) rounds'
  end.

(** [Init] of the instance may fail; the loop ends when the channel is closed,
    after as many rounds as are given. *)
Definition startInstancePlugin (init_ok : bool) (instance plugin global now : Z) (rounds : list (Z * Z))
  : list (Z * Z) :=
  if init_ok then gather_loop (effective_interval instance plugin global) now rounds else [].

(** ** One gathering (runner.go) *)

Definition panic_event (name text : string) : Event :=
  SetDescription
    (SetEventStatus
       (BuildEvent [Some (<["check" := name +:+ "::panic"]> {["target" := name]})]) EventStatusCritical)
    ("plugin panic: " +:+ text).

Section gather.
Context {W D : Type} `{!Forwarder W} `{!DiagnoseSink D}.
Context (MD5 : string -> string).

(** [events] is what [Gather] pushed, until it returned or panicked. *)
Definition gatherInstancePlugin (now : Z) (env : nat -> Env) (name : string) (pl : Plugin) (ins : Instance)
    (events : list (option Event)) (panic : option string) (st : EngineState W D) : EngineState W D :=
  let '(ptrs, h) := alloc_all events (heap st) in
  let q := PushFrontN NewQueue ptrs in
  let '(q, h) :=
    match panic with
    | Some text => let l := fresh (dom h) in (PushFront q (Some l), <[l := panic_event name text]> h)
    | None => (q, h)
    end in
  let st := set_heap h st in
  if 0 <? Len q then (PushRawEvents MD5 now env name pl ins q st).2 else st.

Lemma alloc_all_app es es' (h : gmap positive Event) :
  alloc_all (es ++ es') h =
    (let '(ptrs, h1) := alloc_all es h in let '(ptrs', h2) := alloc_all es' h1 in (ptrs ++ ptrs', h2)).
Proof.
  revert h. induction es as [|[e|] es IH]; intros h; cbn [app alloc_all].
  - by destruct (alloc_all es' h).
  - rewrite IH. destruct (alloc_all es _) as [p1 h1]. by destruct (alloc_all es' h1).
  - rewrite IH. destruct (alloc_all es _) as [p1 h1]. by destruct (alloc_all es' h1).
Qed.

(** A gathering that panics is one whose last event is the panic event. *)
Lemma gatherInstancePlugin_gather now env name pl ins events panic st :
  gatherInstancePlugin now env name pl ins events panic st
  = gather MD5 now env name pl ins (events ++ option_list (Some ∘ panic_event name <$> panic)) st.
Proof.
  unfold gatherInstancePlugin, gather. rewrite alloc_all_app.
  destruct (alloc_all events (heap st)) as [ptrs h] eqn:E.
  assert (forall q (st : EngineState W D), (if 0 <? Len q then (PushRawEvents MD5 now env name pl ins q st).2 else st)
    = (PushRawEvents MD5 now env name pl ins q st).2) as Hlen.
  { intros q s. unfold PushRawEvents. pose proof (zlen_nonneg (linkedlist q)) as Hq.
    unfold Len in *. destruct (0 <? _) eqn:E1, (_ =? 0) eqn:E2; zbool; try done. lia. }
  destruct panic as [text|]; cbn [option_list fmap option_fmap option_map compose alloc_all]; rewrite Hlen.
  - do 2 f_equal. unfold PushFrontN, PushFront, NewQueue. cbn. by rewrite !push_loop_app, reverse_app.
  - cbn. by rewrite ?app_nil_r.
Qed.

(** ** Properties *)

(** The runs of an instance never overlap, and they begin at least an interval
    apart. *)
Theorem gathers_spaced init_ok instance plugin global now rounds
    (Hr : Forall (fun r => 0 <= r.1 /\ 0 <= r.2) rounds) :
  Sorted (fun g1 g2 => g1.2 <= g2.1 /\ effective_interval instance plugin global <= g2.1 - g1.1)
    (startInstancePlugin init_ok instance plugin global now rounds).
Proof.
  unfold startInstancePlugin. destruct init_ok; [|constructor].
  generalize (effective_interval instance plugin global) as interval. intros interval. revert now.
  induction Hr as [|[late took] rounds [Hl Ht] Hr IH]; intros fire; cbn [gather_loop]; [constructor|].
  constructor; [apply IH|]. destruct Hr as [|[late' took'] rounds [Hl' _] _]; cbn [gather_loop]; constructor.
  cbn [fst snd] in *. destruct (interval - took <? 0) eqn:E; zbool; split; lia.
Qed.

(** A plugin that panics loses nothing: what it pushed before is processed, a
    critical event about the panic follows, and the alert engine stays in a
    reachable state. *)
Theorem gather_survives_panic (w : W) (agg : option D) now env name pl ins events panic st
    (Hst : reachable MD5 w agg st) (Hev : forall e, Some e ∈ events -> fresh_event e) :
  reachable MD5 w agg (gatherInstancePlugin now env name pl ins events panic st) /\
  gatherInstancePlugin now env name pl ins events panic st
  = gather MD5 now env name pl ins (events ++ option_list (Some ∘ panic_event name <$> panic)) st.
Proof.
  rewrite gatherInstancePlugin_gather. split; [|done]. apply reach_gather; [done|].
  intros e [He|He]%elem_of_app; [by apply Hev|].
  destruct panic as [text|]; [|by apply elem_of_nil in He].
  by apply list_elem_of_singleton in He as [= ->].
Qed.
End gather.

(** ** Witnesses: plugin objects are their configuration, one instance each *)

Definition ex_agent := Agent (P := string) (I := string).
Definition ex_creator : string -> option string := fun _ => Some "".
Definition ex_unmarshal : string -> string -> option string := fun c _ => Some c.
Definition ex_init : string -> unit -> option string * unit := fun p w => (Some p, w).
Definition ex_conf (l : list (string * list (string * dirFile))) : ConfDir :=
  mkConfDir (Some (map (fun nf => "p." +:+ nf.1) l)) (fun name => list_to_map <$> (list_to_map l : gmap _ _) !! name).

Definition ex_load order (a : ex_agent) := Start_plugins ex_creator ex_unmarshal Some ex_init (fun p => [p]) order a tt.
Definition ex_reload conf order a := Reload ex_creator ex_unmarshal Some ex_init (fun p => [p]) conf order a tt.

(** [cpu] and [disk] are configured, then [cpu] changes, the file of [disk] goes and [mem] comes. *)
Definition ex_conf1 : ConfDir :=
  ex_conf [("cpu", [("a.toml", (Some 5, Some "x = 1"))]); ("disk", [("b.toml", (Some 6, Some "y = 1"))])].
Definition ex_conf2 : ConfDir :=
  ex_conf [("cpu", [("a.toml", (Some 7, Some "x = 2"))]); ("disk", []); ("mem", [("c.toml", (Some 8, Some "z = 1"))])].
Definition ex_started : ex_agent :=
  (ex_load (map_to_list (default ∅ (loadFileConfigs ex_conf1))) (New "")).1.

Lemma ex_started_run : agent_run ex_creator ex_unmarshal Some ex_init (fun p => [p]) "" ex_started.
Proof. apply (run_start _ _ _ _ _ _ ex_conf1 (default ∅ (loadFileConfigs ex_conf1))); [by vm_compute|done]. Qed.

Lemma Reload_syncs_witness :
  exists a', ex_reload ex_conf2 (RunningPlugins ex_started) ex_started = Ret (a', tt) /\
    (exists pc, pluginConfigs a' !! "cpu" = Some pc /\ Digest pc = "7") /\
    is_Some (pluginConfigs ex_started !! "disk") /\ pluginConfigs a' !! "disk" = None /\ is_Some (pluginConfigs a' !! "mem").
Proof.
  destruct (Reload_syncs ex_creator ex_unmarshal Some ex_init (fun p => [p]) ex_conf2
    (RunningPlugins ex_started) ex_started tt) as (a' & [] & Hr & _ & Hc).
  - eapply agent_run_wf, ex_started_run.
  - reflexivity.
  - intros l [= <-]. apply (bool_decide_unpack (NoDup _)). by vm_compute.
  - pose proof (Hc "cpu") as H1. pose proof (Hc "disk") as H2. pose proof (Hc "mem") as H3.
    replace (readPluginDir (plugin_files ex_conf2 "cpu")) with (Some (7, "x = 2")) in H1 by (vm_compute; reflexivity).
    replace (readPluginDir (plugin_files ex_conf2 "disk")) with (Some (-1, "")) in H2 by (vm_compute; reflexivity).
    replace (readPluginDir (plugin_files ex_conf2 "mem")) with (Some (8, "z = 1")) in H3 by (vm_compute; reflexivity).
    exists a'. split_and!; [exact Hr| |vm_compute; by eexists|exact (proj1 H2)|].
    + destruct (proj2 H1) as [pc Hpc]; [by eexists|left; vm_compute; by eexists|]. exists pc. split; [exact Hpc|].
      exact (proj1 (proj1 H1 pc Hpc)).
    + apply (proj2 H3); [by eexists|right]. eexists. split; [reflexivity|]. vm_compute. right. right. left.
Defined.

Lemma instances_accounted_witness :
  length (running_instances ex_started) = 2%nat /\
  started_of (actions ex_started) ≡ₚ running_instances ex_started ++ stopped_of (actions ex_started).
Proof.
  split; [by vm_compute|].
  exact (proj1 (instances_accounted ex_creator ex_unmarshal Some ex_init (fun p => [p]) "" ex_started ex_started_run)).
Defined.

Lemma gathers_spaced_witness :
  startInstancePlugin true 0 30 15 100 [(0, 2); (1, 40); (0, 1)] = [(100, 102); (131, 171); (171, 172)] /\
  Sorted (fun g1 g2 => g1.2 <= g2.1 /\ 30 <= g2.1 - g1.1)
    (startInstancePlugin true 0 30 15 100 [(0, 2); (1, 40); (0, 1)]).
Proof.
  split; [reflexivity|]. apply (gathers_spaced true 0 30 15 100). repeat constructor; cbn; lia.
Defined.

(** ** A removed file that goes unnoticed *)

(** The digest is the newest modification time: when an older file of a plugin
    is removed, a reload keeps the plugin running with the content of both. *)
Theorem reload_misses_removed_file :
  let both := ex_conf [("cpu", [("a.toml", (Some 5, Some "x = 1")); ("b.toml", (Some 9, Some "y = 1"))])] in
  let one := ex_conf [("cpu", [("b.toml", (Some 9, Some "y = 1"))])] in
  exists a, loadFileConfigs both = Some {["cpu" := file_config 9 a]} /\
    loadFileConfigs one = Some {["cpu" := file_config 9 "y = 1"]} /\ a <> "y = 1" /\
    let started := (ex_load [("cpu", file_config 9 a)] (New "")).1 in
    exists a', ex_reload one ["cpu"] started = Ret (a', tt) /\ FileContent <$> pluginConfigs a' !! "cpu" = Some a.
Proof.
  eexists. split; [by vm_compute|]. split; [by vm_compute|]. split; [by vm_compute|].
  eexists. split; by vm_compute.
Qed.
