(* ===== verification/Logfile.v ===== *)
(** * The logfile check (plugins/logfile/logfile.go)

    The plugin follows log files: for each it remembers an offset, the inode and
    a fingerprint of the first bytes, reads what was added in bounded blocks of
    whole lines, and starts over when the file was rotated.  What a gathering
    sees of the file system is an argument. *)
From S2P Require Import Prelude GoStr GoLib Types GoFmt DiagState Report Filter.
#[local] Open Scope Z_scope.
#[local] Open Scope go_scope.

Definition pluginName : string := "logfile".
Definition fingerprintSize : Z := 256.

Record fileState := mkFileState { Offset : Z; Inode : Z; Fingerprint : string }.
#[export] Instance fileState_eq_dec : EqDecision fileState.
Proof. solve_decision. Defined.

(** ** The file system *)

(** The result of [os.Stat]. *)
Inductive stat_result :=
| StatOk (size inode : Z) (isDir : bool)
| StatNotExist (err : string)
| StatErr (err : string).

(** One path during one gathering: what [resolveTargets] sees, what
    [processFile] sees, the first bytes (at most [fingerprintSize]) unless they
    cannot be read, and the errors of [Open] and [Seek]; [v_read off n] reads at
    most [n] bytes. *)
Record FileView := mkView {
  v_listed : stat_result;
  v_stat : stat_result;
  v_head : option string;
  v_open : option string;
  v_seek : Z -> option string;
  v_read : Z -> Z -> res string string
}.

Definition stat_text (r : stat_result) : string :=
  match r with StatErr err | StatNotExist err => err | StatOk _ _ _ => "" end.
Definition is_file (r : stat_result) : bool := match r with StatOk _ _ isDir => negb isDir | _ => false end.

Definition readFingerprint (head : option string) : string :=
  match head with Some s => EncodeToString s | None => "" end.

Definition fingerprintsMatch (current stored : string) : bool :=
  if bool_decide (current = "") || bool_decide (stored = "") then bool_decide (current = stored)
  else if slen current <? slen stored then false
  else bool_decide (stake (String.length stored) current = stored).

(** ** Settings *)

Record Settings := mkSettings {
  Targets : list string;
  InitialPosition : string;
  FilterInclude : list string;
  FilterExclude : list string;
  MaxLines : Z;
  MaxReadBytes : Z;
  MaxLineLength : Z;
  MaxTargets : Z;
  ContextBefore : Z;
  ContextAfter : Z;
  Encoding : string;
  StateFile : string;
  GatherTimeout : Z;
  Severity : string
}.

(** The encodings of golang.org/x/text that the plugin knows. *)
Inductive encoding :=
  GBK | GB18030 | Big5 | ShiftJIS | EUCJP | EUCKR | ISO8859_1 | Windows1252.

Definition one_of (name : string) (names : list string) : bool := bool_decide (name ∈ names).

Definition lookupEncoding (is_print : Z -> bool) (name : string) : res string (option encoding) :=
  let n := ToLower (TrimSpace name) in
  if one_of n [""; "utf-8"; "utf8"] then Good None
  else if one_of n ["gbk"; "gb2312"] then Good (Some GBK)
  else if one_of n ["gb18030"] then Good (Some GB18030)
  else if one_of n ["big5"] then Good (Some Big5)
  else if one_of n ["shift_jis"; "shift-jis"; "sjis"] then Good (Some ShiftJIS)
  else if one_of n ["euc-jp"; "eucjp"] then Good (Some EUCJP)
  else if one_of n ["euc-kr"; "euckr"] then Good (Some EUCKR)
  else if one_of n ["latin1"; "iso-8859-1"] then Good (Some ISO8859_1)
  else if one_of n ["windows-1252"; "cp1252"] then Good (Some Windows1252)
  else Bad ("unsupported encoding: " +:+ Quote is_print name +:+
    " (supported: utf-8, gbk, gb18030, big5, shift_jis, euc-jp, euc-kr, latin1, windows-1252)").

(** FNV-1a over 32 bits. *)
Definition fnv32_step (h : Z) (c : ascii) : Z := (Z.lxor h (byte_val c) * 16777619) mod 2 ^ 32.
Fixpoint fnv32 (h : Z) (s : string) : Z :=
  match s with "" => h | String c s' => fnv32 (fnv32_step h c) s' end.
Definition nul : string := String (ascii_of_N 0) "".
Definition targets_hash (targets : list string) : Z :=
  fold_left (fun h t => fnv32 (fnv32 h t) nul) targets 2166136261.

Definition default_state_file (stateDir : string) (targets : list string) : string :=
  JoinPath [stateDir; "p.logfile"; ".logfile_state_" +:+ hex 8 (targets_hash targets) +:+ ".json"].

(** The compiled settings with the state. *)
Record Instance := mkInstance {
  cfg : Settings;
  includeFilter : Filter;
  excludeFilter : option Filter;
  enc : option encoding;
  explicitTargets : gset string;
  fileStates : gmap string fileState;
  stateDirty : bool;
  globExceeded : bool;
  gatherTimedOut : bool
}.

Definition set_fileStates (m : gmap string fileState) (dirty : bool) (ins : Instance) : Instance :=
  mkInstance (cfg ins) (includeFilter ins) (excludeFilter ins) (enc ins) (explicitTargets ins)
    m (stateDirty ins || dirty) (globExceeded ins) (gatherTimedOut ins).
Definition put_state (path : string) (st : fileState) (dirty : bool) (ins : Instance) : Instance :=
  set_fileStates (<[path := st]> (fileStates ins)) dirty ins.
Definition set_flags (exceeded timedOut : bool) (ins : Instance) : Instance :=
  mkInstance (cfg ins) (includeFilter ins) (excludeFilter ins) (enc ins) (explicitTargets ins)
    (fileStates ins) (stateDirty ins) exceeded timedOut.
Definition set_clean (ins : Instance) : Instance :=
  mkInstance (cfg ins) (includeFilter ins) (excludeFilter ins) (enc ins) (explicitTargets ins)
    (fileStates ins) false (globExceeded ins) (gatherTimedOut ins).

(** ** Init *)
Section init.
Variable is_print : Z -> bool.
Variable glob_Compile regexp_Compile : string -> res string (string -> bool).
#[local] Abbreviation Compile := (Compile is_print glob_Compile regexp_Compile).

Definition positive_or (z d : Z) : Z := if z <=? 0 then d else z.

(** [loaded] is what the state file holds, when it can be read; the filter of a
    list that is not empty is never nil. *)
Definition Init (stateDir : string) (loaded : option (gmap string fileState)) (s : Settings) : res string Instance :=
  if bool_decide (Targets s = []) then Bad "targets must not be empty"
  else
    match FilterInclude s with
    | [] => Bad "filter_include must not be empty (logfile monitoring without match rules is meaningless)"
    | _ :: _ =>
      match Compile (FilterInclude s) with
      | Bad err => Bad ("failed to compile filter_include: " +:+ err)
      | Good None => Bad ""
      | Good (Some inc) =>
        match (if bool_decide (FilterExclude s = []) then Good None else Compile (FilterExclude s)) with
        | Bad err => Bad ("failed to compile filter_exclude: " +:+ err)
        | Good exc =>
          let severity := if decide (Severity s = "") then EventStatusWarning else Severity s in
          let position := if decide (InitialPosition s = "") then "end" else InitialPosition s in
          if negb (EventStatusValid severity) then
            Bad ("match.severity " +:+ Quote is_print severity +:+ " is invalid (use Critical, Warning, Info, Ok)")
          else if negb (one_of position ["end"; "beginning"]) then
            Bad ("initial_position must be " +:+ dquote +:+ "end" +:+ dquote +:+ " or " +:+ dquote
                 +:+ "beginning" +:+ dquote +:+ " (got " +:+ Quote is_print position +:+ ")")
          else if ContextBefore s <? 0 then Bad ("context_before must be >= 0 (got " +:+ itoa (ContextBefore s) +:+ ")")
          else if ContextAfter s <? 0 then Bad ("context_after must be >= 0 (got " +:+ itoa (ContextAfter s) +:+ ")")
          else if 10 <? ContextBefore s then Bad ("context_before must be <= 10 (got " +:+ itoa (ContextBefore s) +:+ ")")
          else if 10 <? ContextAfter s then Bad ("context_after must be <= 10 (got " +:+ itoa (ContextAfter s) +:+ ")")
          else
            match lookupEncoding is_print (Encoding s) with
            | Bad err => Bad err
            | Good e =>
              let s' := mkSettings (Targets s) position (FilterInclude s) (FilterExclude s)
                (positive_or (MaxLines s) 10) (positive_or (MaxReadBytes s) MB)
                (positive_or (MaxLineLength s) 8192) (positive_or (MaxTargets s) 100)
                (ContextBefore s) (ContextAfter s) (Encoding s)
                (if decide (StateFile s = "") then default_state_file stateDir (Targets s) else StateFile s)
                (positive_or (GatherTimeout s) (10 * Second)) severity in
              Good (mkInstance s' inc exc e
                (list_to_set (filter (fun t => HasMeta t = false) (Targets s)))
                (default ∅ loaded) false false false)
            end
        end
      end
    end.
End init.

(** ** Reading a block *)

(** [bytes.LastIndexByte(raw, '\n') + 1]; 0 without one. *)
Fixpoint complete_len (raw : string) : nat :=
  match raw with
  | "" => O
  | String c raw' =>
    match complete_len raw' with
    | O => if decide (byte_val c = 10) then 1%nat else O
    | n => S n
    end
  end.

(** The whole lines of a block; a block of the full size without a line end is
    taken as it is, and a shorter one waits. *)
Definition complete_part (maxRead : Z) (raw : string) : option string :=
  match complete_len raw with
  | O => if slen raw <? maxRead then None else Some raw
  | n => Some (stake n raw)
  end.

Definition without_last_empty (l : list string) : list string :=
  match reverse l with "" :: l' => reverse l' | _ => l end.

Definition carriage_return : ascii := ascii_of_N 13.
Definition replacement_char : string := encode_rune RuneError.

Definition split_lines (text : string) : list string :=
  map (fun line => ToValidUTF8 (TrimRight1 carriage_return line) replacement_char)
    (without_last_empty (split_on (ascii_of_N 10) text)).

Definition line_matches (ins : Instance) (line : string) : bool :=
  Match (includeFilter ins) line
  && negb (match excludeFilter ins with Some f => Match f line | None => false end).

Definition matched_indices (ins : Instance) (lines : list string) : list Z :=
  map (fun p => Z.of_nat p.1)
    (filter (fun p => line_matches ins p.2 = true) (zip (seq 0 (length lines)) lines)).

Definition truncate_display (maxBytes : Z) (s : string) : string :=
  if slen s <=? maxBytes then s else stake (back_to_start s (Z.to_nat maxBytes)) s +:+ "...".

(** ** The description *)

Definition lineRange : Type := Z * Z.

Definition context_range (before after n idx : Z) : lineRange :=
  let start := idx - before in
  let end_ := idx + after in
  (if start <? 0 then 0 else start, if n <=? end_ then n - 1 else end_).

(** The loop that merges ranges which overlap or touch; [last] is the range
    being grown. *)
Fixpoint merge_ranges (last : lineRange) (ranges : list lineRange) : list lineRange :=
  match ranges with
  | [] => [last]
  | r :: ranges' =>
    if r.1 <=? last.2 + 1
    then merge_ranges (last.1, if last.2 <? r.2 then r.2 else last.2) ranges'
    else last :: merge_ranges r ranges'
  end.

Definition range_indices (r : lineRange) : list Z :=
  map (fun k => r.1 + Z.of_nat k) (seq 0 (Z.to_nat (r.2 + 1 - r.1))).

Definition line_at (lines : list string) (i : Z) : string := default "" (lines !! Z.to_nat i).

Definition show_range (lines : list string) (shown : list Z) (r : lineRange) : string :=
  foldr (fun i s => (if bool_decide (i ∈ shown) then "> " else "  ") +:+ line_at lines i +:+ newline +:+ s) ""
    (range_indices r).

Definition show_ranges (lines : list string) (shown : list Z) (merged : list lineRange) : string :=
  Join (map (show_range lines shown) merged) ("  ..." +:+ newline).

(** [None] is the panic of [ranges[0]] on an empty slice. *)
Definition buildDescription (ins : Instance) (lines : list string) (matchedIndices : list Z) : go string :=
  let s := cfg ins in
  let total := zlen matchedIndices in
  let shown := if MaxLines s <? total then take (Z.to_nat (MaxLines s)) matchedIndices else matchedIndices in
  let more := if MaxLines s <? total then "... and " +:+ itoa (total - MaxLines s) +:+ " more lines" +:+ newline else "" in
  body ← (if (0 <? ContextBefore s) || (0 <? ContextAfter s) then
            match map (context_range (ContextBefore s) (ContextAfter s) (zlen lines)) shown with
            | [] => Panic
            | r :: rs =>
              Ret ("matched " +:+ itoa total +:+ " lines (context: -" +:+ itoa (ContextBefore s) +:+ "/+"
                   +:+ itoa (ContextAfter s) +:+ "):" +:+ newline
                   +:+ show_ranges lines shown (merge_ranges r rs))
            end
          else
            Ret ("matched " +:+ itoa total +:+ " lines:" +:+ newline
                 +:+ foldr (fun i s => line_at lines i +:+ newline +:+ s) "" shown));
  Ret (TrimRight1 (ascii_of_N 10) (body +:+ more)).

(** ** One file *)

Definition check_event (target : string) : Event :=
  BuildEvent [Some (<["check" := "logfile::match"]> {["target" := target]})].
Definition ok_event (path : string) : Event := SetDescription (check_event path) "everything is ok".
Definition critical_event (target desc : string) : Event :=
  SetDescription (SetEventStatus (check_event target) EventStatusCritical) desc.

(** The state a gathering starts from, whether it has to be saved, and whether
    the file is new. *)
Definition current_state (ins : Instance) (path : string) (size inode : Z) (fp : string)
  : fileState * bool * bool :=
  match fileStates ins !! path with
  | None =>
    (mkFileState (if decide (InitialPosition (cfg ins) = "end") then size else 0) inode fp, true, true)
  | Some st =>
    let rotated :=
      if negb (inode =? Inode st) && negb (inode =? 0) && negb (Inode st =? 0) then true
      else if negb (fingerprintsMatch fp (Fingerprint st)) then true
      else size <? Offset st in
    if rotated then (mkFileState 0 inode fp, true, false)
    else if slen (Fingerprint st) <? slen fp then (mkFileState (Offset st) (Inode st) fp, true, false)
    else (st, false, false)
  end.

Section gather.
(** ** The state file *)
(** [json.MarshalIndent] and [json.Unmarshal] of the states. *)
Variable marshal : gmap string fileState -> option string.
Variable unmarshal : string -> option (gmap string fileState).

(** [None] when the file cannot be read or parsed. *)
Definition loadState (data : option string) : option (gmap string fileState) := data ≫= unmarshal.

(** The state file and its temporary file: written whole and renamed. *)
Definition saveState (io : SaveIO) (path : string) (m : gmap string fileState) (files : gmap string string)
  : gmap string string :=
  match marshal m with
  | None => files
  | Some data =>
    if negb (mkdir_ok io) then files
    else
      let tmp := path +:+ ".tmp" in
      if negb (write_ok io) then match partial io with Some p => <[tmp := p]> files | None => files end
      else if negb (rename_ok io) then delete tmp files
      else <[path := data]> (delete tmp files)
  end.

(** ** Reading the files *)

(** Decoding with an encoding of golang.org/x/text; an error only ends the
    result early. *)
Variable decode : encoding -> string -> string.

Definition block_text (ins : Instance) (raw : string) : string :=
  match enc ins with
  | None => raw
  | Some e => let decoded := decode e raw in if decide (decoded = "") then raw else decoded
  end.

(** The event about the lines of a block. *)
Definition block_event (ins : Instance) (path raw : string) : go Event :=
  let lines := split_lines (block_text ins raw) in
  let matched := matched_indices ins lines in
  let lines := map (truncate_display (MaxLineLength (cfg ins))) lines in
  match matched with
  | [] => Ret (ok_event path)
  | _ :: _ =>
    desc ← buildDescription ins lines matched;
    Ret (SetDescription
      (SetEventStatus
        (SetAttrs (check_event path)
          (Some (<["matched_count" := itoa (zlen matched)]> {["bytes_read" := HumanBytes (slen raw)]})))
        (Severity (cfg ins))) desc)
  end.

(** The bytes consumed are a ghost result. *)
Definition processFile (ins : Instance) (path : string) (v : FileView) : go (Instance * Event * string) :=
  match v_stat v with
  | StatOk size inode _ =>
    let '(st, dirty, first) := current_state ins path size inode (readFingerprint (v_head v)) in
    let ins := put_state path st dirty ins in
    if first && bool_decide (InitialPosition (cfg ins) = "end") then Ret (ins, ok_event path, "")
    else if size =? Offset st then Ret (ins, ok_event path, "")
    else
      let bytesToRead := size ⊟ Offset st in
      let bytesToRead := if MaxReadBytes (cfg ins) <? bytesToRead then MaxReadBytes (cfg ins) else bytesToRead in
      match v_open v with
      | Some err => Ret (ins, critical_event path ("failed to open " +:+ path +:+ ": " +:+ err), "")
      | None =>
        match v_seek v (Offset st) with
        | Some err =>
          Ret (ins, critical_event path ("failed to seek " +:+ path +:+ " to offset " +:+ itoa (Offset st)
                                         +:+ ": " +:+ err), "")
        | None =>
          match v_read v (Offset st) bytesToRead with
          | Bad err => Ret (ins, critical_event path ("failed to read " +:+ path +:+ ": " +:+ err), "")
          | Good rawBuf =>
            if decide (rawBuf = "") then Ret (ins, ok_event path, "")
            else
              match complete_part (MaxReadBytes (cfg ins)) rawBuf with
              | None => Ret (ins, ok_event path, "")
              | Some completeRaw =>
                let st := mkFileState (Offset st ⊞ slen completeRaw) (Inode st) (Fingerprint st) in
                let ins := put_state path st true ins in
                ev ← block_event ins path completeRaw;
                Ret (ins, ev, completeRaw)
              end
          end
        end
      end
  | r => Ret (ins, critical_event path ("failed to stat " +:+ path +:+ ": " +:+ stat_text r), "")
  end.

(** ** Targets *)

(** One gathering: paths, the files a pattern matches ([None]: a bad pattern),
    and whether the deadline has passed before the n-th file. *)
Record World := mkWorld {
  view : string -> FileView;
  glob : string -> option (list string);
  late : nat -> bool
}.

(** The loops of [resolveTargets] over the matches of a pattern and over the
    targets. *)
Fixpoint add_matches (w : World) (matches : list string) (files : list string) (seen : gset string)
  : list string * gset string :=
  match matches with
  | [] => (files, seen)
  | m :: matches' =>
    if is_file (v_listed (view w m)) && negb (bool_decide (m ∈ seen))
    then add_matches w matches' (files ++ [m]) ({[m]} ∪ seen)
    else add_matches w matches' files seen
  end.

Fixpoint resolve_loop (w : World) (targets : list string) (files : list string) (seen : gset string)
  : list string :=
  match targets with
  | [] => files
  | target :: targets' =>
    if HasMeta target then
      match glob w target with
      | None => resolve_loop w targets' files seen
      | Some matches =>
        let '(files, seen) := add_matches w matches files seen in
        resolve_loop w targets' files seen
      end
    else if bool_decide (target ∈ seen) then resolve_loop w targets' files seen
    else resolve_loop w targets'
           (if is_file (v_listed (view w target)) then files ++ [target] else files) ({[target]} ∪ seen)
  end.

Definition resolveTargets (ins : Instance) (w : World) : list string := resolve_loop w (Targets (cfg ins)) [] ∅.

(** ** A gathering *)

(** States of files that are gone, unless they were asked for by name. *)
Definition clean_stale (resolved : list string) (ins : Instance) : Instance :=
  let kept := filter (fun kv => kv.1 ∈ resolved \/ kv.1 ∈ explicitTargets ins) (fileStates ins) in
  set_fileStates kept (negb (bool_decide (kept = fileStates ins))) ins.

(** The loop over the explicit targets, in the order the map is visited. *)
Definition missing_event (ins : Instance) (w : World) (resolved : list string) (path : string) : list Event :=
  if bool_decide (path ∈ resolved) then []
  else
    match v_listed (view w path) with
    | StatOk _ _ _ => []
    | StatNotExist _ =>
      match fileStates ins !! path with
      | Some _ => [critical_event path ("file " +:+ path +:+ " disappeared (was previously monitored)")]
      | None => []
      end
    | StatErr err => [critical_event path ("file " +:+ path +:+ " inaccessible: " +:+ err)]
    end.

(** The loop over the files; the bytes consumed of each are ghost. *)
Fixpoint process_files (ins : Instance) (w : World) (files : list string) (n : nat)
  : go (Instance * list Event * list (string * string)) :=
  match files with
  | [] => Ret (ins, [], [])
  | path :: files' =>
    if late w n then
      Ret (set_flags (globExceeded ins) true ins,
           [critical_event "gather_timeout" ("gather_timeout (" +:+ Duration_String (GatherTimeout (cfg ins))
                                             +:+ ") exceeded, skipped remaining files")], [])
    else
      '(ins, ev, raw) ← processFile ins path (view w path);
      '(ins, evs, raws) ← process_files ins w files' (S n);
      Ret (ins, ev :: evs, (path, raw) :: raws)
  end.

Definition glob_event (status desc : string) : Event :=
  SetDescription (SetEventStatus (check_event "glob") status) desc.

(** [order] visits the explicit targets.  The events are those pushed, in order;
    [files] are the files of the state directory. *)
Definition Gather (io : SaveIO) (order : list string) (w : World) (ins : Instance) (files : gmap string string)
  : go (Instance * list Event * list (string * string) * gmap string string) :=
  let prevGlobExceeded := globExceeded ins in
  let prevTimedOut := gatherTimedOut ins in
  let resolvedFiles := resolveTargets ins w in
  let count := zlen resolvedFiles in
  let limit := MaxTargets (cfg ins) in
  let exceeded := limit <? count in
  let ins := set_flags exceeded false ins in
  let evs_glob :=
    if exceeded then
      [glob_event EventStatusWarning ("targets resolved to " +:+ itoa count +:+ " files, exceeding max_targets("
         +:+ itoa limit +:+ "), only monitoring the first " +:+ itoa limit)]
    else if prevGlobExceeded then
      [SetDescription (check_event "glob") ("target count back to normal (" +:+ itoa count +:+ " files)")]
    else [] in
  let resolvedFiles := if exceeded then take (Z.to_nat limit) resolvedFiles else resolvedFiles in
  let ins := clean_stale resolvedFiles ins in
  let evs_missing := mjoin (map (missing_event ins w resolvedFiles) order) in
  '(ins, evs, raws) ← process_files ins w resolvedFiles 0;
  let evs_timeout :=
    if prevTimedOut && negb (gatherTimedOut ins)
    then [SetDescription (check_event "gather_timeout") "gather completed within timeout"] else [] in
  let '(ins, files) :=
    if stateDirty ins then (set_clean ins, saveState io (StateFile (cfg ins)) (fileStates ins) files)
    else (ins, files) in
  Ret (ins, evs_glob ++ evs_missing ++ evs ++ evs_timeout, raws, files).

Definition Drop (io : SaveIO) (ins : Instance) (files : gmap string string) : gmap string string :=
  saveState io (StateFile (cfg ins)) (fileStates ins) files.
End gather.
