(* ===== verification/LogfileProps.v ===== *)
(** * What the logfile check guarantees

    Files that only grow are read exactly once, block by block, and up to their
    last whole line; rotated files are read from their start; the description
    of a match shows its context lines once, in order. *)
From S2P Require Import Prelude GoStr GoLib Types GoFmt DiagState Report Filter Logfile.
#[local] Open Scope Z_scope.
#[local] Open Scope go_scope.

(** ** Lemmas on strings *)

Lemma slen_sdrop n s : slen (sdrop n s) = Z.max 0 (slen s - Z.of_nat n).
Proof. unfold slen. rewrite length_sdrop. lia. Qed.

Lemma slen_to_nat s : Z.to_nat (slen s) = String.length s.
Proof. unfold slen. lia. Qed.

Lemma stake_stake_sdrop n m s : stake n s +:+ stake m (sdrop n s) = stake (n + m) s.
Proof.
  revert s. induction n as [|n IH]; intros [|c s]; cbn [stake sdrop Nat.add].
  - by destruct m.
  - apply sapp_nil.
  - by destruct m.
  - by rewrite sapp_cons, IH.
Qed.

Lemma slen_zero s : slen s = 0 -> s = "".
Proof. destruct s as [|c s]; [done|]. rewrite slen_cons. pose proof (slen_nonneg s). lia. Qed.

(** ** Blocks *)

Definition newline_free (s : string) : Prop := complete_len s = O.
Definition ends_line (s : string) : Prop := complete_len s = String.length s.

Lemma complete_len_le s : (complete_len s <= String.length s)%nat.
Proof. induction s as [|c s IH]; cbn; [lia|]. repeat case_match; lia. Qed.

Lemma complete_len_split s :
  ends_line (stake (complete_len s) s) /\ newline_free (sdrop (complete_len s) s).
Proof.
  unfold ends_line, newline_free. induction s as [|c s [IH1 IH2]]; [done|]. cbn [complete_len].
  destruct (complete_len s) as [|n] eqn:E.
  - destruct (decide (byte_val c = 10)) as [Hc|Hc]; cbn [stake sdrop].
    + split; [|exact E]. cbn. rewrite decide_True by done. by destruct s.
    + split; [done|]. cbn. by rewrite E, decide_False.
  - split; [|exact IH2]. change (stake (S (S n)) (String c s)) with (String c (stake (S n) s)).
    cbn [complete_len String.length]. rewrite IH1. by destruct s.
Qed.

(** A block that is taken ends a line or has the full size; one that is not
    taken holds no line end. *)
Lemma complete_part_Some maxRead raw part :
  complete_part maxRead raw = Some part ->
  part = stake (String.length part) raw /\ (raw <> "" -> part <> "") /\
  (ends_line part \/ maxRead <= slen part /\ part = raw).
Proof.
  unfold complete_part. pose proof (complete_len_split raw) as [He _]. pose proof (complete_len_le raw) as Hle.
  destruct (complete_len raw) as [|n] eqn:E.
  - case_match eqn:Hm; [done|]. intros [= <-]. zbool. split_and!; [by rewrite stake_all|done|by right].
  - intros Hp. assert (part = stake (S n) raw) as -> by congruence. clear Hp.
    pose proof (slen_stake (S n) raw) as Hs. unfold slen in Hs. split_and!.
    + replace (String.length (stake (S n) raw)) with (S n) by lia. done.
    + by destruct raw.
    + by left.
Qed.

Lemma complete_part_None maxRead raw :
  complete_part maxRead raw = None -> newline_free raw /\ slen raw < maxRead.
Proof.
  unfold complete_part, newline_free. destruct (complete_len raw); [|done]. case_match; [|done]. by zbool.
Qed.

(** ** Fingerprints *)

Definition fp_of (c : string) : string := EncodeToString (stake 256 c).

Lemma fp_of_prefix c d : exists r, fp_of (c +:+ d) = fp_of c +:+ r.
Proof.
  unfold fp_of. destruct (decide (256 <= String.length c)%nat) as [Hc|Hc].
  - exists "". by rewrite string_app_nil_r, stake_app.
  - exists (EncodeToString (stake (256 - String.length c) d)).
    by rewrite stake_app_long, (stake_all 256 c), EncodeToString_app by lia.
Qed.

Lemma fp_of_stored c r : fp_of c <> "" -> fingerprintsMatch (fp_of c +:+ r) (fp_of c) = true.
Proof.
  intros Hc. unfold fingerprintsMatch. rewrite (bool_decide_eq_false_2 (fp_of c = "")) by done.
  rewrite orb_false_r, slen_app. destruct (bool_decide _) eqn:E; zbool.
  - destruct (fp_of c); [done|]. by rewrite sapp_cons in E.
  - pose proof (slen_nonneg r). destruct (_ <? _) eqn:E1; zbool; [lia|].
    apply bool_decide_eq_true. by rewrite stake_app_long, Nat.sub_diag, string_app_nil_r by lia || apply stake_app_length.
Qed.

Lemma fp_of_empty c : fp_of c = "" -> c = "".
Proof. unfold fp_of. destruct c as [|c s]; [done|]. by cbn. Qed.

(** ** A file that only grows *)

(** What a gathering sees of a file that does not change meanwhile. *)
Definition steady (inode : Z) (content : string) : FileView :=
  mkView (StatOk (slen content) inode false) (StatOk (slen content) inode false) (Some (stake 256 content))
    None (fun off => if off <? 0 then Some "invalid argument" else None)
    (fun off n => Good (stake (Z.to_nat n) (sdrop (Z.to_nat off) content))).

(** The state left by a gathering that saw [c]. *)
Record in_step (ins : Instance) (path : string) (inode : Z) (c : string) (st : fileState) : Prop := {
  step_state : fileStates ins !! path = Some st;
  step_inode : Inode st = inode;
  step_fp : Fingerprint st = fp_of c;
  step_offset : 0 <= Offset st <= slen c
}.

(** The settings [Init] leaves. *)
Definition settings_ok (s : Settings) : Prop := 0 < MaxLines s /\ 0 < MaxReadBytes s.

Definition same_settings (ins ins' : Instance) : Prop :=
  cfg ins' = cfg ins /\ includeFilter ins' = includeFilter ins /\ excludeFilter ins' = excludeFilter ins /\
  enc ins' = enc ins /\ explicitTargets ins' = explicitTargets ins.

Lemma same_settings_trans i1 i2 i3 : same_settings i1 i2 -> same_settings i2 i3 -> same_settings i1 i3.
Proof. unfold same_settings. intros (?&?&?&?&?) (?&?&?&?&?). by repeat split; etrans. Qed.

Lemma put_state_same path st d ins : same_settings ins (put_state path st d ins).
Proof. done. Qed.

Lemma current_state_grown ins path inode c d st :
  in_step ins path inode c st ->
  exists dirty, current_state ins path (slen (c +:+ d)) inode (readFingerprint (Some (stake 256 (c +:+ d))))
    = (mkFileState (Offset st) inode (fp_of (c +:+ d)), dirty, false).
Proof.
  intros [Hst Hi Hf Ho]. unfold current_state. rewrite Hst. cbn [readFingerprint].
  change (EncodeToString (stake 256 (c +:+ d))) with (fp_of (c +:+ d)).
  rewrite Hi, Z.eqb_refl. cbn [negb andb]. rewrite Hf.
  destruct (decide (fp_of c = "")) as [He|He].
  - apply fp_of_empty in He as ->. cbn [slen String.length Z.of_nat] in Ho. rewrite sapp_nil.
    assert (Offset st = 0) as Ho0 by (unfold slen in Ho; cbn in Ho; lia).
    unfold fingerprintsMatch. change (fp_of "") with "". rewrite orb_comm. cbn [bool_decide].
    destruct (decide (fp_of d = "")) as [Hd|Hd].
    + apply fp_of_empty in Hd as ->. cbn. rewrite Ho0. eexists. f_equal. f_equal.
      destruct st as [o i f]. cbn in *. subst. done.
    + rewrite (bool_decide_eq_false_2 (fp_of d = "")) by done. cbn. rewrite Ho0. by eexists.
  - destruct (fp_of_prefix c d) as [r Hr]. rewrite Hr, fp_of_stored by done. cbn [negb].
    rewrite slen_app. pose proof (slen_nonneg d). destruct (_ <? Offset st) eqn:E; zbool; [lia|].
    rewrite slen_app. destruct (_ <? _) eqn:E2; zbool; [by eexists|].
    assert (r = "") as -> by (apply slen_zero; pose proof (slen_nonneg r); lia).
    rewrite string_app_nil_r. exists false. f_equal. f_equal. destruct st; cbn in *; congruence.
Qed.

Section follow.
Variable decode : encoding -> string -> string.

Lemma buildDescription_total ins lines matched :
  matched <> [] -> 0 < MaxLines (cfg ins) -> exists d, buildDescription ins lines matched = Ret d.
Proof.
  intros Hm Hn. unfold buildDescription.
  set (shown := if _ <? _ then take _ _ else matched).
  assert (shown <> []) as Hs.
  { unfold shown. case_match; [|done]. destruct matched; [done|]. by destruct (Z.to_nat _) eqn:E; [lia|]. }
  destruct (_ || _); [|by eexists]. destruct shown as [|i shown]; [done|]. by eexists.
Qed.

Lemma block_event_total ins path raw :
  0 < MaxLines (cfg ins) -> exists ev, block_event decode ins path raw = Ret ev.
Proof.
  intros Hn. unfold block_event. destruct (matched_indices _ _) as [|i l] eqn:E; [by eexists|].
  destruct (buildDescription_total ins (map (truncate_display (MaxLineLength (cfg ins))) (split_lines (block_text decode ins raw)))
    (i :: l)) as [d Hd]; [done|done|]. rewrite Hd. by eexists.
Qed.

(** Nothing left to read but the start of a line. *)
Definition caught_up (maxRead : Z) (c : string) (st : fileState) : Prop :=
  let rest := sdrop (Z.to_nat (Offset st)) c in newline_free rest /\ slen rest < maxRead.

(** One gathering that saw [c] and read from [start]. *)
Record block_read (ins : Instance) (path : string) (inode : Z) (c : string) (start : Z)
    (ins' : Instance) (st' : fileState) (raw : string) : Prop := {
  br_step : in_step ins' path inode c st';
  br_same : same_settings ins ins';
  br_offset : Offset st' = start + slen raw;
  br_raw : raw = stake (String.length raw) (sdrop (Z.to_nat start) c);
  br_whole : raw = "" \/ ends_line raw \/ MaxReadBytes (cfg ins) <= slen raw;
  br_idle : raw = "" -> caught_up (MaxReadBytes (cfg ins)) c st'
}.

Lemma processFile_reads ins path inode c' st1 dirty first :
  settings_ok (cfg ins) -> in_i64 (slen c') ->
  current_state ins path (slen c') inode (fp_of c') = (st1, dirty, first) ->
  first && bool_decide (InitialPosition (cfg ins) = "end") = false ->
  Inode st1 = inode -> Fingerprint st1 = fp_of c' -> 0 <= Offset st1 <= slen c' ->
  exists ins' ev raw st', processFile decode ins path (steady inode c') = Ret (ins', ev, raw) /\
    block_read ins path inode c' (Offset st1) ins' st' raw.
Proof.
  intros [Hml Hmr] Hi64 Hcur Hfirst Hi Hf Ho. unfold processFile. cbn [v_stat v_head v_open v_seek v_read steady].
  change (readFingerprint (Some (stake 256 c'))) with (fp_of c'). rewrite Hcur.
  change (cfg (put_state path st1 dirty ins)) with (cfg ins). rewrite Hfirst.
  assert (in_step (put_state path st1 dirty ins) path inode c' st1) as Hstep1
    by (split; [apply lookup_insert_eq|done..]).
  set (rest := sdrop (Z.to_nat (Offset st1)) c').
  assert (slen rest = slen c' - Offset st1) as Hrest by (unfold rest; rewrite slen_sdrop; lia).
  assert (forall ev : Event, newline_free rest /\ slen rest < MaxReadBytes (cfg ins) ->
    exists (ins' : Instance) (ev' : Event) (raw : string) st',
    Ret (put_state path st1 dirty ins, ev, "") = Ret (ins', ev', raw) /\ block_read ins path inode c' (Offset st1) ins' st' raw) as Hidle.
  { intros ev Hcu. exists (put_state path st1 dirty ins), ev, "", st1. split; [done|].
    split; [done|done|rewrite slen_empty; cbn; lia|by destruct (sdrop _ _)|by left|]. intros _. exact Hcu. }
  destruct (slen c' =? Offset st1) eqn:E; zbool.
  { apply Hidle. assert (rest = "") as -> by (apply slen_zero; lia). split; [done|rewrite slen_empty; lia]. }
  assert (Offset st1 <? 0 = false) as -> by (apply Z.ltb_ge; lia).
  assert (in_i64 (slen c' - Offset st1)) as Hd
    by (unfold in_i64, min_i64, max_i64 in *; lia).
  rewrite (i64_id _ Hd). set (n := if _ <? _ then _ else _).
  assert (0 < n <= slen rest /\ n <= MaxReadBytes (cfg ins) /\ (n = MaxReadBytes (cfg ins) \/ n = slen rest)) as Hn
    by (unfold n; destruct (_ <? _) eqn:E1; zbool; lia).
  fold rest. set (rawBuf := stake (Z.to_nat n) rest).
  assert (slen rawBuf = n) as Hraw by (unfold rawBuf; rewrite slen_stake; lia).
  rewrite decide_False by (intros Hx; rewrite Hx, slen_empty in Hraw; lia).
  destruct (complete_part _ rawBuf) as [part|] eqn:Hp.
  - apply complete_part_Some in Hp as (Hpart & Hne & Hwhole).
    specialize (Hne ltac:(intros Hx; rewrite Hx, slen_empty in Hraw; lia)).
    assert (slen part <= n) as Hpl by (rewrite Hpart, slen_stake; lia).
    pose proof (slen_nonneg part).
    set (st2 := mkFileState (Offset st1 ⊞ slen part) (Inode st1) (Fingerprint st1)).
    destruct (block_event_total (put_state path st2 true (put_state path st1 dirty ins)) path part Hml) as [ev Hev].
    rewrite Hev. cbn [mbind go_bind]. eexists _, ev, part, st2. split; [done|].
    assert (Offset st2 = Offset st1 + slen part) as Ho2
      by (cbn; apply i64_id; unfold in_i64, min_i64, max_i64 in *; lia).
    split; [split; [apply lookup_insert_eq|done|done|]|done|done| | |].
    + rewrite Ho2. lia.
    + rewrite Hpart at 1. unfold rawBuf. rewrite stake_stake. unfold rest. f_equal.
      unfold slen in *. lia.
    + right. destruct Hwhole as [He|[He _]]; [by left|by right].
    + done.
  - apply complete_part_None in Hp as [Hnf Hlt].
    assert (rawBuf = rest) as Hrr.
    { unfold rawBuf. apply stake_all. unfold slen in *. lia. }
    rewrite Hrr in *. by apply Hidle.
Qed.

Lemma processFile_grown ins path inode c d st :
  settings_ok (cfg ins) -> in_i64 (slen (c +:+ d)) -> in_step ins path inode c st ->
  exists ins' ev raw st', processFile decode ins path (steady inode (c +:+ d)) = Ret (ins', ev, raw) /\
    block_read ins path inode (c +:+ d) (Offset st) ins' st' raw.
Proof.
  intros Hok Hi64 Hstep. destruct (current_state_grown ins path inode c d st Hstep) as [dirty Hcur].
  destruct Hstep as [_ _ _ Ho].
  apply (processFile_reads ins path inode _ (mkFileState (Offset st) inode (fp_of (c +:+ d))) dirty false);
    try done. cbn. rewrite slen_app. pose proof (slen_nonneg d). lia.
Qed.

(** Gatherings of a file that grows by [ds], starting from content [c]; the
    blocks read. *)
Fixpoint follow (ins : Instance) (path : string) (inode : Z) (c : string) (ds : list string)
  : go (Instance * list string) :=
  match ds with
  | [] => Ret (ins, [])
  | d :: ds' =>
    '(ins, _, raw) ← processFile decode ins path (steady inode (c +:+ d));
    '(ins, raws) ← follow ins path inode (c +:+ d) ds';
    Ret (ins, raw :: raws)
  end.

Definition concat_all (l : list string) : string := foldr String.append "" l.

(** The blocks of a run, from the state it started in. *)
Record run_read (ins : Instance) (path : string) (inode : Z) (c : string) (start : Z)
    (ins' : Instance) (st' : fileState) (raws : list string) : Prop := {
  rr_step : in_step ins' path inode c st';
  rr_same : same_settings ins ins';
  rr_offset : Offset st' = start + slen (concat_all raws);
  rr_raws : concat_all raws = stake (String.length (concat_all raws)) (sdrop (Z.to_nat start) c);
  rr_whole : Forall (fun raw => raw = "" \/ ends_line raw \/ MaxReadBytes (cfg ins) <= slen raw) raws
}.

(** Bytes read from a prefix are bytes of the whole. *)
Lemma stake_sdrop_app n m c d :
  (m + n <= String.length c)%nat -> stake n (sdrop m (c +:+ d)) = stake n (sdrop m c).
Proof. intros H. rewrite sdrop_app by lia. rewrite stake_app; [done|]. rewrite length_sdrop. lia. Qed.

Lemma follow_grown ins path inode c st ds :
  settings_ok (cfg ins) -> in_i64 (slen (c +:+ concat_all ds)) -> in_step ins path inode c st ->
  exists ins' raws st', follow ins path inode c ds = Ret (ins', raws) /\
    run_read ins path inode (c +:+ concat_all ds) (Offset st) ins' st' raws.
Proof.
  revert ins c st. induction ds as [|d ds IH]; intros ins c st Hok Hi64 Hstep; cbn [follow concat_all foldr] in *.
  { exists ins, [], st. rewrite string_app_nil_r. split; [done|].
    split; [done|done|cbn; rewrite slen_empty; lia|by destruct (sdrop _ _)|constructor]. }
  change (foldr String.append "" ds) with (concat_all ds) in *. rewrite <-string_app_assoc in *.
  assert (in_i64 (slen (c +:+ d))) as Hi1.
  { rewrite slen_app in Hi64. pose proof (slen_nonneg (concat_all ds)). pose proof (slen_nonneg (c +:+ d)).
    unfold in_i64, min_i64, max_i64 in *. lia. }
  destruct (processFile_grown ins path inode c d st Hok Hi1 Hstep) as (ins1 & ev & raw & st1 & Hp & [H1 H2 H3 H4 H5 _]).
  rewrite Hp. cbn [mbind go_bind].
  assert (cfg ins1 = cfg ins) as Hcfg by apply H2.
  destruct (IH ins1 (c +:+ d) st1) as (ins2 & raws & st2 & Hf & [G1 G2 G3 G4 G5]); [by rewrite Hcfg|done|done|].
  rewrite Hf. cbn [mbind go_bind]. exists ins2, (raw :: raws), st2. split; [done|].
  destruct Hstep as [_ _ _ Ho]. destruct H1 as [_ _ _ Ho1].
  assert (slen (c +:+ d) = slen c + slen d) as Hcd by apply slen_app. pose proof (slen_nonneg d).
  split.
  - done.
  - by eapply same_settings_trans.
  - cbn [concat_all foldr]. rewrite slen_app. change (foldr String.append "" raws) with (concat_all raws). lia.
  - cbn [concat_all foldr]. change (foldr String.append "" raws) with (concat_all raws).
    rewrite H4 at 1. rewrite G4 at 1.
    assert (Z.to_nat (Offset st1) = Z.to_nat (Offset st) + String.length raw)%nat as ->
      by (rewrite H3; unfold slen; lia).
    rewrite <-sdrop_sdrop. rewrite <-(stake_sdrop_app (String.length raw) _ (c +:+ d) (concat_all ds))
      by (unfold slen in *; lia).
    rewrite stake_stake_sdrop. f_equal. pose proof (slen_app raw (concat_all raws)) as Hl. unfold slen in Hl. lia.
  - constructor; [done|]. by rewrite <-Hcfg.
Qed.

(** Where reading starts in a file seen for the first time. *)
Definition start_offset (ins : Instance) (c : string) : Z :=
  if decide (InitialPosition (cfg ins) = "end") then slen c else 0.

Lemma processFile_first ins path inode c :
  settings_ok (cfg ins) -> in_i64 (slen c) -> fileStates ins !! path = None ->
  exists ins' ev raw st', processFile decode ins path (steady inode c) = Ret (ins', ev, raw) /\
    in_step ins' path inode c st' /\ same_settings ins ins' /\ Offset st' = start_offset ins c + slen raw /\
    raw = stake (String.length raw) (sdrop (Z.to_nat (start_offset ins c)) c) /\
    (raw = "" \/ ends_line raw \/ MaxReadBytes (cfg ins) <= slen raw).
Proof.
  intros Hok Hi64 Hnew. pose proof (slen_nonneg c).
  assert (current_state ins path (slen c) inode (fp_of c)
    = (mkFileState (start_offset ins c) inode (fp_of c), true, true)) as Hcur
    by (unfold current_state, start_offset; by rewrite Hnew).
  unfold start_offset in *. destruct (decide (InitialPosition (cfg ins) = "end")) as [Hp|Hp].
  - set (st := mkFileState (slen c) inode (fp_of c)) in *.
    exists (put_state path st true ins), (ok_event path), "", st. split.
    { unfold processFile. cbn [v_stat v_head steady].
      change (readFingerprint (Some (stake 256 c))) with (fp_of c). rewrite Hcur.
      change (cfg (put_state path st true ins)) with (cfg ins). by rewrite bool_decide_eq_true_2. }
    split_and!; [split; [apply lookup_insert_eq|done|done|cbn; lia]|done|rewrite slen_empty; cbn; lia| |by left].
    by destruct (sdrop _ _).
  - destruct (processFile_reads ins path inode c (mkFileState 0 inode (fp_of c)) true true Hok Hi64 Hcur)
      as (ins' & ev & raw & st' & Hp' & [H1 H2 H3 H4 H5 _]); try done.
    { by rewrite bool_decide_eq_false_2. }
    exists ins', ev, raw, st'. by split_and!.
Qed.

(** ** Catching up *)

Lemma newline_free_stake n s : newline_free s -> newline_free (stake n s).
Proof.
  unfold newline_free. revert n. induction s as [|c s IH]; intros [|n]; cbn [stake complete_len]; try done.
  destruct (complete_len s); [|done]. rewrite IH by done. done.
Qed.

(** One more look at a file that does not change. *)
Lemma processFile_idle ins path inode c st :
  settings_ok (cfg ins) -> in_i64 (slen c) -> in_step ins path inode c st ->
  exists ins' ev raw st', processFile decode ins path (steady inode c) = Ret (ins', ev, raw) /\
    in_step ins' path inode c st' /\ same_settings ins ins' /\ Offset st <= Offset st' /\
    (Offset st < Offset st' \/ caught_up (MaxReadBytes (cfg ins)) c st') /\
    (caught_up (MaxReadBytes (cfg ins)) c st -> caught_up (MaxReadBytes (cfg ins)) c st').
Proof.
  intros Hok Hi64 Hstep. pose proof (string_app_nil_r c) as Hc.
  destruct (processFile_grown ins path inode c "" st) as (ins' & ev & raw & st' & Hp & [H1 H2 H3 H4 H5 H6]);
    rewrite ?Hc; try done.
  rewrite Hc in *. exists ins', ev, raw, st'. pose proof (slen_nonneg raw). split_and!; [done|done|done|lia| |].
  - destruct (decide (raw = "")) as [Hr|Hr]; [right; by apply H6|left].
    destruct (decide (slen raw = 0)) as [Hz|Hz]; [by apply slen_zero in Hz|lia].
  - intros [Hnf Hlt]. apply H6. destruct H5 as [H5|[H5|H5]]; [done| |].
    + unfold ends_line in H5. rewrite H4, newline_free_stake in H5 by done. apply slen_zero. unfold slen.
      rewrite H4. lia.
    + pose proof (slen_stake (String.length raw) (sdrop (Z.to_nat (Offset st)) c)) as Hs.
      rewrite <-H4 in Hs. lia.
Qed.

Lemma follow_idle k ins path inode c st :
  settings_ok (cfg ins) -> in_i64 (slen c) -> in_step ins path inode c st ->
  (caught_up (MaxReadBytes (cfg ins)) c st \/ slen c - Offset st < Z.of_nat k) ->
  exists ins' raws st', follow ins path inode c (replicate k "") = Ret (ins', raws) /\
    in_step ins' path inode c st' /\ caught_up (MaxReadBytes (cfg ins)) c st'.
Proof.
  revert ins st. induction k as [|k IH]; intros ins st Hok Hi64 Hstep Hk; cbn [replicate follow].
  { exists ins, [], st. split_and!; [done|done|]. destruct Hk as [Hk|Hk]; [done|]. destruct Hstep. lia. }
  destruct (processFile_idle ins path inode c st Hok Hi64 Hstep)
    as (ins1 & ev & raw & st1 & Hp & Hs1 & Hsame & Hle & Hprog & Hstay).
  rewrite string_app_nil_r, Hp. cbn [mbind go_bind].
  assert (cfg ins1 = cfg ins) as Hcfg by apply Hsame.
  destruct (IH ins1 st1) as (ins2 & raws & st2 & Hf & Hs2 & Hcu); rewrite ?Hcfg; try done.
  { destruct Hk as [Hk|Hk]; [left; by apply Hstay|]. destruct Hprog as [Hprog|Hprog]; [right; lia|by left]. }
  rewrite Hf. cbn [mbind go_bind]. exists ins2, (raw :: raws), st2. split_and!; [done|done|by rewrite <-Hcfg].
Qed.

(** ** Properties *)

(** C8: A file that only grows is read exactly once: over any sequence of gatherings
    the blocks examined are, in order, the bytes of the file from where reading
    started (its end or its beginning) to the recorded offset, none skipped or
    repeated; each block ends a line or has the full size, and nothing panics. *)
Theorem growing_file_read_once ins path inode c ds
    (Hok : settings_ok (cfg ins)) (Hnew : fileStates ins !! path = None)
    (Hsize : in_i64 (slen (c +:+ concat_all ds))) :
  exists ins' raws st', follow ins path inode "" (c :: ds) = Ret (ins', raws) /\
    run_read ins path inode (c +:+ concat_all ds) (start_offset ins c) ins' st' raws.
Proof.
  assert (in_i64 (slen c)) as Hc.
  { rewrite slen_app in Hsize. pose proof (slen_nonneg c). pose proof (slen_nonneg (concat_all ds)).
    unfold in_i64, min_i64, max_i64 in *. lia. }
  destruct (processFile_first ins path inode c Hok Hc Hnew)
    as (ins1 & ev & raw & st1 & Hp & Hs1 & Hsame & Ho1 & Hraw & Hwhole).
  cbn [follow]. rewrite sapp_nil, Hp. cbn [mbind go_bind].
  assert (cfg ins1 = cfg ins) as Hcfg by apply Hsame.
  destruct (follow_grown ins1 path inode c st1 ds) as (ins2 & raws & st2 & Hf & [G1 G2 G3 G4 G5]);
    rewrite ?Hcfg; try done.
  rewrite Hf. cbn [mbind go_bind]. exists ins2, (raw :: raws), st2. split; [done|].
  assert (0 <= start_offset ins c) as Hs0 by (unfold start_offset; case_decide; pose proof (slen_nonneg c); lia).
  destruct Hs1 as [_ _ _ Hb1]. split.
  - done.
  - by eapply same_settings_trans.
  - cbn [concat_all foldr]. change (foldr String.append "" raws) with (concat_all raws). rewrite slen_app. lia.
  - cbn [concat_all foldr]. change (foldr String.append "" raws) with (concat_all raws).
    rewrite Hraw at 1. rewrite G4 at 1.
    assert (Z.to_nat (Offset st1) = Z.to_nat (start_offset ins c) + String.length raw)%nat as ->
      by (rewrite Ho1; unfold slen; lia).
    rewrite <-sdrop_sdrop. rewrite <-(stake_sdrop_app (String.length raw) _ c (concat_all ds))
      by (unfold slen in *; lia).
    rewrite stake_stake_sdrop. f_equal. pose proof (slen_app raw (concat_all raws)) as Hl. unfold slen in Hl. lia.
  - constructor; [done|]. by rewrite <-Hcfg.
Qed.

(** C19: A file that stops growing is eventually read up to its last whole line: one
    gathering more than there are unread bytes is enough, and what is left then
    is the start of a line, shorter than a block. *)
Theorem idle_file_caught_up ins path inode c st k
    (Hok : settings_ok (cfg ins)) (Hsize : in_i64 (slen c)) (Hstep : in_step ins path inode c st)
    (Hk : slen c - Offset st < Z.of_nat k) :
  exists ins' raws st', follow ins path inode c (replicate k "") = Ret (ins', raws) /\
    in_step ins' path inode c st' /\ caught_up (MaxReadBytes (cfg ins)) c st'.
Proof. apply (follow_idle k ins path inode c st); try done. by right. Qed.

(** A file that was rotated - another inode, other first bytes, or shorter than
    what was read - is read from its first byte. *)
Theorem rotated_file_read_from_start ins path inode c st
    (Hok : settings_ok (cfg ins)) (Hsize : in_i64 (slen c)) (Hst : fileStates ins !! path = Some st)
    (Hrot : (inode <> Inode st /\ inode <> 0 /\ Inode st <> 0) \/
            fingerprintsMatch (fp_of c) (Fingerprint st) = false \/ slen c < Offset st) :
  exists ins' ev raw st', processFile decode ins path (steady inode c) = Ret (ins', ev, raw) /\
    block_read ins path inode c 0 ins' st' raw.
Proof.
  apply (processFile_reads ins path inode c (mkFileState 0 inode (fp_of c)) true false); try done;
    [|pose proof (slen_nonneg c); cbn; lia].
  unfold current_state. rewrite Hst.
  assert ((if negb (inode =? Inode st) && negb (inode =? 0) && negb (Inode st =? 0) then true
    else if negb (fingerprintsMatch (fp_of c) (Fingerprint st)) then true else slen c <? Offset st) = true) as ->; [|done].
  destruct (inode =? Inode st) eqn:E1, (inode =? 0) eqn:E2, (Inode st =? 0) eqn:E3; cbn; try done;
    destruct (fingerprintsMatch _ _) eqn:E4; cbn; try done; apply Z.ltb_lt;
    destruct Hrot as [(? & ? & ?)|[?|?]]; zbool; try done; lia.
Qed.
End follow.

(** ** A whole gathering *)

Lemma add_matches_spec w matches files seen :
  NoDup files -> files ⊆ elements seen ->
  let r := add_matches w matches files seen in
  NoDup r.1 /\ r.1 ⊆ elements r.2 /\ seen ⊆ r.2.
Proof.
  revert files seen. induction matches as [|m matches IH]; intros files seen Hnd Hs; cbn [add_matches]; [done|].
  destruct (_ && _) eqn:E; [|by apply IH]. apply andb_true_iff in E as [_ E]. apply negb_true_iff, bool_decide_eq_false in E.
  destruct (IH (files ++ [m]) ({[m]} ∪ seen)) as (H1 & H2 & H3).
  - apply NoDup_app. split_and!; [done| |apply NoDup_singleton].
    intros x Hx ->%list_elem_of_singleton. apply E, elem_of_elements, Hs, Hx.
  - intros x [Hx| ->%list_elem_of_singleton]%elem_of_app; apply elem_of_elements; [|set_solver].
    apply elem_of_union_r, elem_of_elements, Hs, Hx.
  - split_and!; [done|done|set_solver].
Qed.

Lemma resolve_loop_NoDup w targets files seen :
  NoDup files -> files ⊆ elements seen -> NoDup (resolve_loop w targets files seen).
Proof.
  revert files seen. induction targets as [|t targets IH]; intros files seen Hnd Hs; cbn [resolve_loop]; [done|].
  destruct (HasMeta t).
  - destruct (glob w t) as [matches|]; [|by apply IH].
    destruct (add_matches_spec w matches files seen Hnd Hs) as (H1 & H2 & _).
    destruct (add_matches w matches files seen) as [files' seen']. by apply IH.
  - destruct (bool_decide (t ∈ seen)) eqn:E; [by apply IH|]. apply bool_decide_eq_false in E. apply IH.
    + destruct (is_file _); [|done]. apply NoDup_app. split_and!; [done| |apply NoDup_singleton].
      intros x Hx ->%list_elem_of_singleton. apply E, elem_of_elements, Hs, Hx.
    + intros x Hx. apply elem_of_elements. destruct (is_file _).
      * apply elem_of_app in Hx as [Hx| ->%list_elem_of_singleton]; [|set_solver].
        apply elem_of_union_r, elem_of_elements, Hs, Hx.
      * apply elem_of_union_r, elem_of_elements, Hs, Hx.
Qed.

Section whole.
Variable marshal : gmap string fileState -> option string.
Variable decode : encoding -> string -> string.

(** An event about a path. *)
Definition about (path : string) (ev : Event) : Prop := Labels ev = Labels (check_event path).

Lemma processFile_total ins path v :
  0 < MaxLines (cfg ins) ->
  exists ins' ev raw, processFile decode ins path v = Ret (ins', ev, raw) /\ same_settings ins ins' /\ about path ev.
Proof.
  intros Hml. unfold processFile. destruct (v_stat v) as [size inode isDir|err|err]; [|by eexists _, _, _..].
  destruct (current_state _ _ _ _ _) as [[st dirty] first].
  destruct (_ && _); [by eexists _, _, _|]. destruct (size =? _); [by eexists _, _, _|].
  destruct (v_open v); [by eexists _, _, _|]. destruct (v_seek v _); [by eexists _, _, _|].
  destruct (v_read v _ _) as [raw|]; [|by eexists _, _, _]. case_decide; [by eexists _, _, _|].
  destruct (complete_part _ raw) as [part|]; [|by eexists _, _, _].
  set (ins1 := put_state path _ true _).
  destruct (block_event_total decode ins1 path part Hml) as [ev Hev].
  rewrite Hev. cbn [mbind go_bind]. eexists _, _, _. split_and!; [done|done|].
  revert Hev. unfold block_event. destruct (matched_indices _ _); [by intros [= <-]|].
  destruct (buildDescription _ _ _); cbn [mbind go_bind]; [|done]. by intros [= <-].
Qed.

Lemma process_files_total ins w files n :
  0 < MaxLines (cfg ins) ->
  exists ins' evs raws tail, process_files decode ins w files n = Ret (ins', evs ++ tail, raws) /\
    Forall2 (fun ev pr => about pr.1 ev) evs raws /\ raws.*1 `prefix_of` files /\
    ((forall k, late w k = false) -> raws.*1 = files /\ tail = []).
Proof.
  revert ins n. induction files as [|path files IH]; intros ins n Hml; cbn [process_files].
  { exists ins, [], [], []. by split_and!. }
  destruct (late w n) eqn:Hl.
  { eexists _, [], [], _. split_and!; [done|constructor|by apply prefix_nil|]. intros H. by rewrite H in Hl. }
  destruct (processFile_total ins path (view w path) Hml) as (ins1 & ev & raw & -> & Hs & Hev). cbn [mbind go_bind].
  assert (cfg ins1 = cfg ins) as Hcfg by apply Hs.
  destruct (IH ins1 (S n)) as (ins2 & evs & raws & tail & -> & H1 & H2 & H3); [by rewrite Hcfg|]. cbn [mbind go_bind].
  exists ins2, (ev :: evs), ((path, raw) :: raws), tail. split_and!; [done|by constructor|by apply prefix_cons|].
  intros H. destruct (H3 H) as [Hr Ht]. cbn. by rewrite Hr.
Qed.

(** The files one gathering looks at. *)
Definition monitored (ins : Instance) (w : World) : list string :=
  let files := resolveTargets ins w in
  if MaxTargets (cfg ins) <? zlen files then take (Z.to_nat (MaxTargets (cfg ins))) files else files.

(** A gathering never panics; it looks at each file of the targets once, at most
    [max_targets] of them, and unless the deadline passes it reports on each. *)
Theorem Gather_reports_every_file io order w ins files
    (Hml : 0 < MaxLines (cfg ins)) :
  exists ins' evs raws files', Gather marshal decode io order w ins files = Ret (ins', evs, raws, files') /\
    NoDup (monitored ins w) /\ raws.*1 `prefix_of` monitored ins w /\
    (0 <= MaxTargets (cfg ins) -> zlen (monitored ins w) <= MaxTargets (cfg ins)) /\
    ((forall k, late w k = false) ->
     raws.*1 = monitored ins w /\
     forall path, path ∈ monitored ins w -> exists ev, ev ∈ evs /\ about path ev).
Proof.
  assert (NoDup (resolveTargets ins w)) as Hnd by (apply resolve_loop_NoDup; [constructor|set_solver]).
  unfold Gather. change (resolveTargets (set_flags _ _ ins) w) with (resolveTargets ins w).
  fold (monitored ins w).
  set (ins1 := clean_stale _ _).
  destruct (process_files_total ins1 w (monitored ins w) 0) as (ins2 & evs & raws & tail & Hp & Hev & Hpre & Hall);
    [exact Hml|].
  rewrite Hp. cbn [mbind go_bind].
  destruct (if stateDirty ins2 then _ else _) as [ins3 files3].
  eexists _, _, raws, _. split_and!; [done| |done| |].
  - unfold monitored. case_match; [|done]. eapply sublist_NoDup; [exact Hnd|]. apply sublist_take.
  - intros H0. unfold monitored. case_match; zbool; [|done]. unfold zlen in *. rewrite length_take. lia.
  - intros Hl. destruct (Hall Hl) as [Hr ->]. split; [done|]. intros path Hpath. rewrite <-Hr in Hpath.
    apply list_elem_of_fmap in Hpath as (pr & -> & Hin).
    apply list_elem_of_lookup in Hin as [i Hi].
    destruct (Forall2_lookup_r _ _ _ _ _ Hev Hi) as (ev & Hev1 & Hab). exists ev. split; [|done].
    rewrite app_nil_r, !elem_of_app. right. right. left. by eapply list_elem_of_lookup_2.
Qed.
End whole.

(** ** The context lines of a description *)

Definition in_lines (i : Z) (r : lineRange) : Prop := r.1 <= i <= r.2.
Definition nonempty_range (r : lineRange) : Prop := r.1 <= r.2.
(** A hidden line between two ranges. *)
Definition apart (r1 r2 : lineRange) : Prop := r1.2 + 1 < r2.1.

Lemma merge_ranges_head last ranges :
  exists e rest, merge_ranges last ranges = (last.1, e) :: rest /\ last.2 <= e.
Proof.
  revert last. induction ranges as [|r ranges IH]; intros last; cbn [merge_ranges].
  { exists last.2, []. destruct last. split; [done|cbn; lia]. }
  destruct (r.1 <=? last.2 + 1); [|exists last.2; eexists; destruct last; split; [done|cbn; lia]].
  destruct (IH (last.1, if last.2 <? r.2 then r.2 else last.2)) as (e & rest & -> & He).
  exists e, rest. split; [done|]. cbn in He. destruct (last.2 <? r.2) eqn:E; zbool; lia.
Qed.

(** Merging keeps the lines covered, and leaves ranges that are apart. *)
Lemma merge_ranges_spec last ranges :
  nonempty_range last -> Forall nonempty_range ranges -> StronglySorted (fun r1 r2 => r1.1 <= r2.1) (last :: ranges) ->
  Forall nonempty_range (merge_ranges last ranges) /\ StronglySorted apart (merge_ranges last ranges) /\
  forall i, Exists (in_lines i) (merge_ranges last ranges) <-> Exists (in_lines i) (last :: ranges).
Proof.
  revert last. induction ranges as [|r ranges IH]; intros last Hl Hr Hs; cbn [merge_ranges].
  { split_and!; [by constructor|repeat constructor|done]. }
  apply Forall_cons in Hr as [Hr Hrs]. apply StronglySorted_inv in Hs as [Hs Hlast].
  apply Forall_cons in Hlast as [Hlr Hlast]. unfold nonempty_range in *. destruct (r.1 <=? last.2 + 1) eqn:E; zbool.
  - set (grown := (last.1, if last.2 <? r.2 then r.2 else last.2)).
    assert (forall i, in_lines i grown <-> in_lines i last \/ in_lines i r) as Hg
      by (intros i; unfold in_lines, grown; cbn; destruct (last.2 <? r.2) eqn:E2; zbool; lia).
    destruct (IH grown) as (H1 & H2 & H3); [unfold grown; cbn; destruct (last.2 <? r.2) eqn:E2; zbool; lia|done| |].
    { constructor; [by apply StronglySorted_inv in Hs as [? _]|done]. }
    split_and!; [done|done|]. intros i. rewrite H3, !Exists_cons, Hg. tauto.
  - destruct (IH r) as (H1 & H2 & H3); [done|done|done|]. split_and!.
    + by constructor.
    + constructor; [done|]. destruct (merge_ranges_head r ranges) as (e & rest & Hm & He).
      rewrite Hm in *. apply StronglySorted_inv in H2 as [_ H2]. apply Forall_cons in H1 as [H1 _]. cbn in H1.
      constructor; [unfold apart; cbn; lia|]. eapply Forall_impl; [exact H2|].
      intros x Hx. unfold apart in *. cbn in *. lia.
    + intros i. rewrite !Exists_cons, H3, Exists_cons. done.
Qed.

Lemma range_indices_spec r i : i ∈ range_indices r <-> in_lines i r.
Proof.
  unfold range_indices, in_lines. rewrite list_elem_of_fmap. setoid_rewrite elem_of_seq. split.
  - intros (k & -> & Hk). lia.
  - intros Hi. exists (Z.to_nat (i - r.1)). lia.
Qed.

Lemma range_indices_sorted r : StronglySorted Z.lt (range_indices r).
Proof.
  unfold range_indices. generalize (Z.to_nat (r.2 + 1 - r.1)) as n. intros n. generalize O as k.
  induction n as [|n IH]; intros k; cbn; constructor; [apply IH|].
  apply Forall_fmap, Forall_seq. intros j Hj. cbn. lia.
Qed.

Lemma StronglySorted_app_lt (l k : list Z) :
  StronglySorted Z.lt l -> StronglySorted Z.lt k -> (forall x y, x ∈ l -> y ∈ k -> x < y) ->
  StronglySorted Z.lt (l ++ k).
Proof.
  intros Hl Hk H. induction Hl as [|x l Hl IH Hx]; [done|]. cbn. constructor.
  - apply IH. intros y z Hy Hz. apply H; [by right|done].
  - apply Forall_app. split; [done|]. apply Forall_forall. intros y Hy. apply H; [by left|done].
Qed.

Lemma shown_sorted merged :
  Forall nonempty_range merged -> StronglySorted apart merged ->
  StronglySorted Z.lt (mjoin (map range_indices merged)).
Proof.
  intros Hne Hs. induction Hs as [|r merged Hs IH Hr]; [constructor|]. cbn. apply Forall_cons in Hne as [_ Hne].
  apply StronglySorted_app_lt; [apply range_indices_sorted|by apply IH|].
  intros x y Hx%range_indices_spec (l & Hy & Hl)%list_elem_of_join.
  apply list_elem_of_fmap in Hl as (r' & -> & Hr'). apply range_indices_spec in Hy.
  eapply Forall_forall in Hr; [|exact Hr']. unfold in_lines, apart in *. lia.
Qed.

Lemma context_range_lines before after n idx i :
  0 <= before -> 0 <= after -> 0 <= idx < n ->
  in_lines i (context_range before after n idx) <-> 0 <= i < n /\ idx - before <= i <= idx + after.
Proof.
  intros. unfold in_lines, context_range. cbn.
  destruct (idx - before <? 0) eqn:E1, (n <=? idx + after) eqn:E2; zbool; lia.
Qed.

(** C9: The description of a match shows exactly the lines within the context of a
    match it counts, each once and in the order of the file, and separates two
    groups exactly where lines are left out. *)
Theorem context_lines_shown before after n shown r rs
    (Hb : 0 <= before) (Ha : 0 <= after) (Hin : Forall (fun idx => 0 <= idx < n) shown)
    (Hsorted : StronglySorted Z.lt shown) (Hranges : map (context_range before after n) shown = r :: rs) :
  let merged := merge_ranges r rs in
  StronglySorted apart merged /\
  StronglySorted Z.lt (mjoin (map range_indices merged)) /\
  forall i, i ∈ mjoin (map range_indices merged) <->
    0 <= i < n /\ exists idx, idx ∈ shown /\ idx - before <= i <= idx + after.
Proof.
  intros merged.
  assert (Forall nonempty_range (r :: rs)) as Hne.
  { rewrite <-Hranges. apply Forall_fmap. eapply Forall_impl; [exact Hin|]. intros idx Hi.
    unfold nonempty_range, context_range. cbn in *.
    destruct (idx - before <? 0) eqn:E1, (n <=? idx + after) eqn:E2; zbool; lia. }
  assert (StronglySorted (fun r1 r2 => r1.1 <= r2.1) (r :: rs)) as Hs.
  { rewrite <-Hranges. clear -Hsorted. induction Hsorted as [|x l Hl IH Hx]; cbn; constructor; [done|].
    apply Forall_fmap. eapply Forall_impl; [exact Hx|]. intros y Hy. unfold context_range. cbn in *.
    destruct (x - before <? 0) eqn:E1, (y - before <? 0) eqn:E2; zbool; lia. }
  apply Forall_cons in Hne as [Hr Hrs].
  destruct (merge_ranges_spec r rs Hr Hrs Hs) as (H1 & H2 & H3).
  split_and!; [done|by apply shown_sorted|]. intros i. rewrite list_elem_of_join.
  assert ((exists l, i ∈ l /\ l ∈ map range_indices merged) <-> Exists (in_lines i) merged) as ->.
  { rewrite Exists_exists. setoid_rewrite list_elem_of_fmap. split.
    - intros (l & Hi & r' & -> & Hr'). exists r'. by rewrite <-range_indices_spec.
    - intros (r' & Hr' & Hi). exists (range_indices r'). rewrite range_indices_spec. eauto. }
  unfold merged. rewrite H3, <-Hranges, Exists_exists. setoid_rewrite list_elem_of_fmap. split.
  - intros (r' & (idx & -> & Hidx) & Hi). pose proof (proj1 (Forall_forall _ _) Hin idx Hidx).
    apply context_range_lines in Hi; [|done..]. split; [tauto|]. exists idx. tauto.
  - intros (Hn & idx & Hidx & Hi). exists (context_range before after n idx). split; [by exists idx|].
    apply context_range_lines; [done|done|by apply (Forall_forall _ _) with (x := idx) in Hin|done].
Qed.

(** ** Witnesses: blocks of at most eight bytes, lines with [err] *)

Definition ex_settings : Settings :=
  mkSettings ["/var/log/app.log"] "beginning" ["/err/"] [] 0 8 0 0 1 1 "" "" 0 "".
Definition ex_ins : Instance :=
  match Init (fun _ => true) tiny_glob tiny_regexp "/state" None ex_settings with
  | Good ins => ins
  | Bad _ => mkInstance ex_settings (filtersingle "") None None ∅ ∅ false false false
  end.
Definition ex_decode : encoding -> string -> string := fun _ s => s.
Definition ex_path : string := "/var/log/app.log".
Definition ex_text : string := "up" +:+ newline.
Definition ex_more : list string := ["err"; " 1" +:+ newline +:+ "err 2" +:+ newline; ""].

Lemma ex_ins_ok : settings_ok (cfg ex_ins).
Proof. split; vm_compute; reflexivity. Qed.

Lemma growing_file_read_once_witness :
  exists ins' raws st', follow ex_decode ex_ins ex_path 7 "" (ex_text :: ex_more) = Ret (ins', raws) /\
    raws = [ex_text; ""; "err 1" +:+ newline; "err 2" +:+ newline] /\ Offset st' = 15 /\
    run_read ex_ins ex_path 7 (ex_text +:+ concat_all ex_more) 0 ins' st' raws.
Proof.
  destruct (growing_file_read_once ex_decode ex_ins ex_path 7 ex_text ex_more ex_ins_ok)
    as (ins' & raws & st' & Hf & Hr); [reflexivity|vm_compute; by split|].
  assert (raws = [ex_text; ""; "err 1" +:+ newline; "err 2" +:+ newline]) as Hraws.
  { assert (match follow ex_decode ex_ins ex_path 7 "" (ex_text :: ex_more) with
      | Ret (_, raws) => raws | Panic => [] end = [ex_text; ""; "err 1" +:+ newline; "err 2" +:+ newline]) as H
      by (vm_compute; reflexivity).
    rewrite Hf in H. exact H. }
  exists ins', raws, st'. split; [exact Hf|]. split; [exact Hraws|]. split; [|exact Hr].
  rewrite (rr_offset _ _ _ _ _ _ _ _ Hr), Hraws. vm_compute. reflexivity.
Defined.

(** The state after nothing was read of three lines. *)
Definition ex_content : string := ex_text +:+ concat_all ex_more.
Definition ex_state : fileState := mkFileState 0 7 (fp_of ex_content).
Definition ex_behind : Instance := put_state ex_path ex_state false ex_ins.

Lemma ex_behind_step : in_step ex_behind ex_path 7 ex_content ex_state.
Proof. split; [apply lookup_insert_eq|done|done|vm_compute; split; discriminate]. Qed.

Lemma idle_file_caught_up_witness :
  exists ins' raws st', follow ex_decode ex_behind ex_path 7 ex_content (replicate 16 "") = Ret (ins', raws) /\
    in_step ins' ex_path 7 ex_content st' /\ caught_up 8 ex_content st'.
Proof.
  apply (idle_file_caught_up ex_decode ex_behind ex_path 7 ex_content ex_state 16 ex_ins_ok);
    [vm_compute; by split|apply ex_behind_step|vm_compute; reflexivity].
Defined.

(** The file was truncated to one new line. *)
Lemma rotated_file_read_from_start_witness :
  exists ins' ev raw st',
    processFile ex_decode (put_state ex_path (mkFileState 15 7 (fp_of ex_content)) false ex_ins) ex_path
      (steady 7 ("new" +:+ newline)) = Ret (ins', ev, raw) /\
    block_read (put_state ex_path (mkFileState 15 7 (fp_of ex_content)) false ex_ins) ex_path 7
      ("new" +:+ newline) 0 ins' st' raw.
Proof.
  apply (rotated_file_read_from_start ex_decode _ ex_path 7 ("new" +:+ newline) (mkFileState 15 7 (fp_of ex_content)));
    [apply ex_ins_ok|vm_compute; by split|apply lookup_insert_eq|right; left; vm_compute; reflexivity].
Defined.

(** Matches on lines 1, 3 and 8 of ten, one line of context. *)
Lemma context_lines_shown_witness :
  merge_ranges (0, 2) [(2, 4); (7, 9)] = [(0, 4); (7, 9)] /\
  StronglySorted Z.lt (mjoin (map range_indices [(0, 4); (7, 9)])).
Proof.
  split; [reflexivity|].
  exact (proj1 (proj2 (context_lines_shown 1 1 10 [1; 3; 8] (0, 2) [(2, 4); (7, 9)] ltac:(lia) ltac:(lia)
    ltac:(repeat constructor; lia) ltac:(repeat constructor; lia) eq_refl))).
Defined.

(** One target, matched by name, with three lines in it. *)
Definition ex_world : World := mkWorld (fun _ => steady 7 ex_content) (fun _ => None) (fun _ => false).

Lemma Gather_reports_every_file_witness :
  monitored ex_ins ex_world = [ex_path] /\
  exists ins' evs raws files',
    Gather (fun _ => Some "{}") ex_decode (mkSaveIO true true None true) [ex_path] ex_world ex_ins ∅
      = Ret (ins', evs, raws, files') /\
    raws.*1 = [ex_path] /\ exists ev, ev ∈ evs /\ about ex_path ev.
Proof.
  split; [vm_compute; reflexivity|].
  destruct (Gather_reports_every_file (fun _ => Some "{}") ex_decode (mkSaveIO true true None true) [ex_path]
    ex_world ex_ins ∅) as (ins' & evs & raws & files' & Hg & _ & _ & _ & Hall); [vm_compute; reflexivity|].
  destruct (Hall (fun _ => eq_refl)) as [Hr Hev]. exists ins', evs, raws, files'.
  split; [exact Hg|]. split; [rewrite Hr; vm_compute; reflexivity|]. apply Hev.
  vm_compute. constructor.
Defined.

(** ** A file that cannot be opened for a moment *)

Definition blind : FileView :=
  mkView (StatOk (slen ex_content) 7 false) (StatOk (slen ex_content) 7 false) None
    (Some "too many open files") (fun _ => None) (fun _ _ => Good "").
Definition ex_read : Instance := put_state ex_path (mkFileState 15 7 (fp_of ex_content)) false ex_ins.
Definition after (r : go (Instance * Event * string)) : Instance :=
  match r with Ret (ins, _, _) => ins | Panic => ex_ins end.
Definition bytes_of (r : go (Instance * Event * string)) : option string :=
  match r with Ret (_, _, raw) => Some raw | Panic => None end.

(** When the first bytes cannot be read once, although the file did not change,
    it counts as rotated: everything that was read before is read again. *)
Theorem unreadable_head_rereads :
  (exists st, in_step ex_read ex_path 7 ex_content st /\ Offset st = slen ex_content) /\
  bytes_of (processFile ex_decode ex_read ex_path (steady 7 ex_content)) = Some "" /\
  let ins := after (processFile ex_decode ex_read ex_path blind) in
  bytes_of (processFile ex_decode ins ex_path (steady 7 ex_content)) = Some ex_text.
Proof.
  split; [|split; vm_compute; reflexivity].
  exists (mkFileState 15 7 (fp_of ex_content)). split; [|reflexivity].
  split; [apply lookup_insert_eq|done|done|vm_compute; split; discriminate].
Qed.
