(* ===== verification/Resp.v ===== *)
(** * The Redis protocol (plugins/redis/accessor.go)

    Commands and replies of RESP, connections with their buffered reader, the
    accessor on top of them, the redaction of secrets and the parsing of INFO.

    Connections are numbered; [reader c] is what arrived on connection [c] and is
    not read yet.  Dialling (with TLS), writing and what arrives are the
    network, a class; [arrive] gives the bytes that arrive until the deadline and
    the error after them; [net_now] is the monotonic clock. *)
From S2P Require Import Prelude GoStr GoLib GoConv GoIo.
#[local] Open Scope Z_scope.

Definition maxBulkSize : Z := 1048576.
Definition crlf : string := String (ascii_of_N 13) newline.
Definition carriage_return : string := String (ascii_of_N 13) "".

(** ** Replies *)

(** What [readReplyValue] returns as [any]; integers arrive as text. *)
Inductive reply :=
| RString (s : string)
| RNil
| RArray (elems : list reply).

(** [formatArray] on one element, the [i]-th of its array. *)
Fixpoint format_elem (depth : nat) (i : Z) (v : reply) : string :=
  let head := spaces (2 * depth) +:+ itoa (i + 1) +:+ ")" in
  match v with
  | RArray arr =>
    head +:+ newline +:+
    (fix go (i : Z) (arr : list reply) : string :=
       match arr with [] => "" | v :: arr' => format_elem (S depth) i v +:+ go (i + 1) arr' end) 0 arr
  | RString s => head +:+ " " +:+ s +:+ newline
  | RNil => head +:+ " (nil)" +:+ newline
  end.

Fixpoint formatArray (depth : nat) (i : Z) (arr : list reply) : string :=
  match arr with [] => "" | v :: arr' => format_elem depth i v +:+ formatArray depth (i + 1) arr' end.

Definition formatReply (v : reply) : string :=
  match v with
  | RString s => s
  | RNil => "(nil)"
  | RArray arr => formatArray 0 0 arr
  end.

(** [%T]. *)
Definition type_name (v : reply) : string :=
  match v with RString _ => "string" | RNil => "<nil>" | RArray _ => "[]interface {}" end.

(** ** Writing *)
Definition bulk (s : string) : string := "$" +:+ itoa (slen s) +:+ crlf +:+ s +:+ crlf.
Definition writeCommand (args : list string) : string :=
  "*" +:+ itoa (zlen args) +:+ crlf +:+ foldr (fun arg t => bulk arg +:+ t) "" args.

(** ** Reading *)
Inductive read_result (A : Type) :=
| Read (a : A) (rest : string)
| ReadError (err rest : string)
| ReadPanic
| NoFuel.
Arguments Read {A} a rest.
Arguments ReadError {A} err rest.
Arguments ReadPanic {A}.
Arguments NoFuel {A}.

Definition read_bind {A B} (f : A -> string -> read_result B) (m : read_result A) : read_result B :=
  match m with
  | Read a rest => f a rest
  | ReadError err rest => ReadError err rest
  | ReadPanic => ReadPanic
  | NoFuel => NoFuel
  end.

(** The plugins for Redis and for Sentinel read replies alike; their errors name
    the [product]. *)
Section read.
Variable is_print : Z -> bool.
Variable product : string.
(** The error after the last byte that arrives. *)
Variable eof : string.

(** [%q] of a byte. *)
Definition QuoteRune (r : Z) : string :=
  "'" +:+ (if r =? 39 then "\'" else if r =? 34 then dquote else quote_rune is_print (r, encode_rune r)) +:+ "'".

Definition readLine (input : string) : read_result string :=
  match cut_at (ascii_of_N 10) input with
  | Some (line, rest) => Read (TrimSuffix line carriage_return) rest
  | None => ReadError eof ""
  end.

(** [strconv.Atoi] of a line. *)
Definition read_int (fn : string) (input : string) : read_result Z :=
  read_bind (fun line rest =>
    match Atoi line with
    | Good n => Read n rest
    | Bad err => ReadError (NumError is_print fn line err) rest
    end) (readLine input).

Definition read_bulk (size : Z) (input : string) : read_result string :=
  if maxBulkSize <? size
  then ReadError (product +:+ " bulk string size " +:+ itoa size +:+ " exceeds limit " +:+ itoa maxBulkSize) input
  else if slen input <? size + 2 then ReadError eof ""
  else Read (stake (Z.to_nat size) input) (sdrop (Z.to_nat (size + 2)) input).

(** [make([]any, count)] panics when the array exceeds the address space: an
    [any] takes 16 bytes of at most 2^48. *)
Definition makeslice_ok (count : Z) : bool := count <=? 2 ^ 44.

(** Every call takes a byte or ends; the fuel counts calls. *)
Fixpoint read_value (fuel : nat) (input : string) {struct fuel} : read_result reply :=
  match fuel with
  | O => NoFuel
  | S fuel' =>
    match input with
    | "" => ReadError eof ""
    | String prefix input' =>
      if bool_decide (prefix = "+"%char) then read_bind (fun line rest => Read (RString line) rest) (readLine input')
      else if bool_decide (prefix = "-"%char) then read_bind (fun line rest => ReadError line rest) (readLine input')
      else if bool_decide (prefix = ":"%char) then
        read_bind (fun n rest => Read (RString (itoa n)) rest) (read_int "ParseInt" input')
      else if bool_decide (prefix = "$"%char) then
        read_bind (fun size rest =>
          if size <? 0 then Read RNil rest
          else read_bind (fun s rest => Read (RString s) rest) (read_bulk size rest)) (read_int "Atoi" input')
      else if bool_decide (prefix = "*"%char) then
        read_bind (fun count rest =>
          if count <? 0 then Read RNil rest
          else if negb (makeslice_ok count) then ReadPanic
          else read_bind (fun elems rest => Read (RArray elems) rest) (read_elems fuel' count rest))
          (read_int "Atoi" input')
      else ReadError ("unsupported " +:+ product +:+ " reply prefix " +:+ QuoteRune (byte_val prefix)) input'
    end
  end
with read_elems (fuel : nat) (count : Z) (input : string) {struct fuel} : read_result (list reply) :=
  match fuel with
  | O => NoFuel
  | S fuel' =>
    if count <=? 0 then Read [] input
    else
      read_bind (fun v rest => read_bind (fun vs rest => Read (v :: vs) rest) (read_elems fuel' (count - 1) rest))
        (read_value fuel' input)
  end.

Definition read_fuel (input : string) : nat := S (S (2 * String.length input)).
Definition readReplyValue (input : string) : read_result reply := read_value (read_fuel input) input.
End read.

(** ** Secrets *)
Definition redisConfigDenyList : list string :=
  ["requirepass"; "masterauth"; "tls-key-file"; "tls-key-file-pass"; "tls-cert-file"; "tls-ca-cert-file"].
Definition redacted_value : string := "***REDACTED***".

(** Keys and values alternate. *)
Fixpoint redact_pairs (arr : list reply) : res string (list reply) :=
  match arr with
  | k :: v :: arr' =>
    match k with
    | RString key =>
      match redact_pairs arr' with
      | Good rest => Good (k :: (if bool_decide (TrimSpace key ∈ redisConfigDenyList) then RString redacted_value else v) :: rest)
      | Bad err => Bad err
      end
    | _ => Bad ("unexpected CONFIG GET key type " +:+ type_name k)
    end
  | _ => Good arr
  end.

Definition formatRedactedConfigReply (v : reply) : res string string :=
  match v with
  | RArray arr =>
    match redact_pairs arr with
    | Good redacted => Good (formatReply (RArray redacted))
    | Bad err => Bad err
    end
  | _ => Bad ("unexpected CONFIG GET reply type " +:+ type_name v)
  end.

(** The same on text, where the value follows on the next line. *)
Fixpoint filter_lines (redactNext : bool) (lines : list string) : list string :=
  match lines with
  | [] => []
  | line :: lines' =>
    if redactNext then redacted_value :: filter_lines false lines'
    else line :: filter_lines (bool_decide (TrimSpace line ∈ redisConfigDenyList)) lines'
  end.
Definition filterSensitiveConfig (raw : string) : string :=
  Join (filter_lines false (split_on (ascii_of_N 10) raw)) newline.

(** ** INFO *)
Definition info_line (fields : gmap string string) (line : string) : gmap string string :=
  let line := TrimSpace line in
  if bool_decide (line = "") || HasPrefix line "#" then fields
  else
    match cut_at colon line with
    | Some (key, value) => <[key := TrimSpace value]> fields
    | None => fields
    end.

Definition parseInfoToMap (raw : string) : gmap string string :=
  fold_left info_line (split_on (ascii_of_N 10) raw) ∅.

Section info.
Variable is_print : Z -> bool.

(** The value, whether the key is there, and the error. *)
Definition info_number (fn : string) (parse : string -> res num_error Z) (info : gmap string string) (key : string)
  : res string (option Z) :=
  match info !! key with
  | None => Good None
  | Some value =>
    match parse value with
    | Good n => Good (Some n)
    | Bad err => Bad (NumError is_print fn value err)
    end
  end.
Definition infoGetInt := info_number "Atoi" Atoi.
Definition infoGetInt64 := info_number "ParseInt" ParseInt.
Definition infoGetUint64 := info_number "ParseUint" ParseUint.
End info.

(** ** Connections *)
Record RedisAccessorConfig := mkAccessorConfig {
  rc_Target : string; rc_Username : string; rc_Password : string; rc_DB : Z;
  rc_Timeout : Z; rc_ReadTimeout : Z
}.

Class Network (W : Type) := {
  dial : nat -> RedisAccessorConfig -> W -> option string * W;
  conn_write : nat -> string -> W -> option string * W;
  arrive : nat -> W -> string * string * W;
  conn_close : nat -> W -> W;
  net_now : W -> Z
}.

(** The world, the next connection and what is not read yet on each. *)
Record net (W : Type) := mkNet { world : W; next_conn : nat; readers : gmap nat string }.
Arguments mkNet {W} world next_conn readers.
Arguments world {W} n.
Arguments next_conn {W} n.
Arguments readers {W} n.

Record RedisAccessor := mkAccessor { acc_conn : nat; acc_target : string }.

Section accessor.
Context {W : Type} `{!Network W}.
Variable is_print : Z -> bool.

Definition with_world {A} (f : W -> A * W) : io (net W) A := fun s =>
  let '(a, w) := f (world s) in (Ret a, mkNet w (next_conn s) (readers s)).

(** [SetWriteDeadline] and [Write]. *)
Definition write_command (c : nat) (args : list string) : io (net W) (res string unit) :=
  err ← with_world (conn_write c (writeCommand args));
  match err with Some e => e_err e | None => e_ok tt end.

(** [readReply] with the reader of a plugin, which gets the error at the end of
    what arrives.  The fuel always suffices ([readReplyValue_total]). *)
Definition read_reply_with (reader : string -> string -> read_result reply) (c : nat) : io (net W) (res string reply) := fun s =>
  let '(bytes, eof, w) := arrive c (world s) in
  let input := default "" (readers s !! c) +:+ bytes in
  let keep rest := mkNet w (next_conn s) (<[c := rest]> (readers s)) in
  match reader eof input with
  | Read v rest => (Ret (Good v), keep rest)
  | ReadError err rest => (Ret (Bad err), keep rest)
  | ReadPanic | NoFuel => (Panic, keep "")
  end.

Definition read_reply : nat -> io (net W) (res string reply) := read_reply_with (readReplyValue is_print "redis").

Definition rawCommand (c : nat) (args : list string) : io (net W) (res string reply) :=
  _ ←? write_command c args; read_reply c.

Definition command (c : nat) (args : list string) : io (net W) (res string string) :=
  v ←? rawCommand c args; e_ok (formatReply v).

Definition close_conn (c : nat) : io (net W) unit := with_world (fun w => (tt, conn_close c w)).

(** [client.command] that has to be answered with [want]. *)
Definition expect_reply (c : nat) (name want : string) (args : list string) : io (net W) (res string unit) :=
  reply ←? command c args;
  if decide (ToUpper reply = want) then e_ok tt
  else e_err ("unexpected " +:+ name +:+ " reply: " +:+ Quote is_print reply).

(** [client.Close()] before the error is returned. *)
Definition or_close (c : nat) (m : io (net W) (res string unit)) : io (net W) (res string unit) :=
  r ← m;
  match r with
  | Good tt => e_ok tt
  | Bad err => _ ← close_conn c; e_err err
  end.

Definition auth_args (cfg : RedisAccessorConfig) : list string :=
  ["AUTH"] ++ (if decide (rc_Username cfg = "") then [] else [rc_Username cfg]) ++ [rc_Password cfg].

Definition open_conn (cfg : RedisAccessorConfig) : io (net W) (res string nat) := fun s =>
  let c := next_conn s in
  match dial c cfg (world s) with
  | (Some err, w) => (Ret (Bad err), mkNet w (next_conn s) (readers s))
  | (None, w) => (Ret (Good c), mkNet w (S c) (<[c := ""]> (readers s)))
  end.

Definition NewRedisAccessor (cfg : RedisAccessorConfig) : io (net W) (res string RedisAccessor) :=
  c ←? open_conn cfg;
  _ ←? (if negb (bool_decide (rc_Password cfg = "")) || negb (bool_decide (rc_Username cfg = ""))
        then or_close c (expect_reply c "AUTH" "OK" (auth_args cfg)) else e_ok tt);
  _ ←? (if 0 <? rc_DB cfg
        then or_close c (expect_reply c "SELECT" "OK" ["SELECT"; itoa (rc_DB cfg)]) else e_ok tt);
  e_ok (mkAccessor c (rc_Target cfg)).

Definition acc_Close (a : RedisAccessor) : io (net W) unit := close_conn (acc_conn a).
Definition Ping (a : RedisAccessor) : io (net W) (res string unit) := expect_reply (acc_conn a) "PING" "PONG" ["PING"].
Definition Command (a : RedisAccessor) (args : list string) : io (net W) (res string string) := command (acc_conn a) args.
Definition RawCommand (a : RedisAccessor) (args : list string) : io (net W) (res string reply) := rawCommand (acc_conn a) args.
Definition InfoRaw (a : RedisAccessor) (section : string) : io (net W) (res string string) := Command a ["INFO"; section].
Definition Info (a : RedisAccessor) (section : string) : io (net W) (res string (gmap string string)) :=
  raw ←? InfoRaw a section; e_ok (parseInfoToMap raw).
Definition SlowlogGet (a : RedisAccessor) (count : Z) : io (net W) (res string string) :=
  Command a ["SLOWLOG"; "GET"; itoa (if count <=? 0 then 10 else count)].
Definition ClientList (a : RedisAccessor) : io (net W) (res string string) := Command a ["CLIENT"; "LIST"].
Definition ClusterInfo (a : RedisAccessor) : io (net W) (res string string) := Command a ["CLUSTER"; "INFO"].
Definition ClusterNodes (a : RedisAccessor) : io (net W) (res string string) := Command a ["CLUSTER"; "NODES"].
Definition ConfigGet (a : RedisAccessor) (pattern : string) : io (net W) (res string string) :=
  v ←? RawCommand a ["CONFIG"; "GET"; if decide (pattern = "") then "*" else pattern];
  io_ret (formatRedactedConfigReply v).
Definition DBSize (a : RedisAccessor) : io (net W) (res string string) := Command a ["DBSIZE"].
End accessor.
