(* ===== verification/RespProps.v ===== *)
(** * Properties of the Redis protocol

    The reader ends on every input, what is written is read back, a command
    cannot be split by its arguments, and the values of secret settings do not
    show in the text of CONFIG GET. *)
From S2P Require Import Prelude GoStr GoLib GoConv GoIo Resp.
#[local] Open Scope Z_scope.

(** ** Induction on nested replies *)
Lemma reply_nested_ind (P : reply -> Prop) :
  (forall s, P (RString s)) -> P RNil -> (forall arr, Forall P arr -> P (RArray arr)) -> forall v, P v.
Proof.
  intros Hs Hn Ha. fix IH 1. intros [s| |arr]; [apply Hs|apply Hn|apply Ha].
  induction arr as [|v arr IHarr]; constructor; [apply IH|apply IHarr].
Qed.

(** ** The reader ends *)

Section total.
Variable is_print : Z -> bool.
Variable product : string.
Variable eof : string.

(** A reader that has enough fuel, and consumes at least [k] bytes of [input]
    when it succeeds. *)
Definition settles {A} (k : nat) (input : string) (r : read_result A) : Prop :=
  match r with
  | Read _ rest => (String.length rest + k <= String.length input)%nat
  | NoFuel => False
  | _ => True
  end.

Lemma settles_bind {A B} k (f : A -> string -> read_result B) input m :
  settles k input m ->
  (forall a rest, (String.length rest + k <= String.length input)%nat -> settles k input (f a rest)) ->
  settles k input (read_bind f m).
Proof. destruct m; cbn; auto. Qed.

Lemma settles_weaken {A} k k' input input' (r : read_result A) :
  settles k input r -> (String.length input + k' <= String.length input' + k)%nat -> settles k' input' r.
Proof. destruct r; cbn; lia || done. Qed.

Lemma cut_at_length c s x y : cut_at c s = Some (x, y) -> (String.length y < String.length s)%nat.
Proof.
  revert x y. induction s as [|a s IH]; [done|]. intros x y. cbn. case_decide; [intros [= <- <-]; lia|].
  destruct (cut_at c s) as [[x' y']|]; [|done]. intros [= <- <-]. specialize (IH _ _ eq_refl). lia.
Qed.

Lemma readLine_settles input : settles 1 input (readLine eof input).
Proof.
  unfold readLine. destruct (cut_at _ input) as [[x y]|] eqn:E; [|done]. cbn. apply cut_at_length in E. lia.
Qed.

Lemma read_int_settles fn input : settles 1 input (read_int is_print eof fn input).
Proof.
  unfold read_int. apply settles_bind; [apply readLine_settles|]. intros line rest Hr. by destruct (Atoi line).
Qed.

Lemma read_bulk_settles size input : 0 <= size -> settles 0 input (read_bulk product eof size input).
Proof.
  intros Hs. unfold read_bulk. destruct (_ <? size); [done|]. destruct (_ <? _) eqn:E; [done|]. cbn.
  rewrite length_sdrop. lia.
Qed.

Lemma read_value_S fuel input :
  read_value is_print product eof (S fuel) input =
  match input with
  | "" => ReadError eof ""
  | String prefix input' =>
    if bool_decide (prefix = "+"%char) then read_bind (fun line rest => Read (RString line) rest) (readLine eof input')
    else if bool_decide (prefix = "-"%char) then read_bind (fun line rest => ReadError line rest) (readLine eof input')
    else if bool_decide (prefix = ":"%char) then
      read_bind (fun n rest => Read (RString (itoa n)) rest) (read_int is_print eof "ParseInt" input')
    else if bool_decide (prefix = "$"%char) then
      read_bind (fun size rest =>
        if size <? 0 then Read RNil rest
        else read_bind (fun s rest => Read (RString s) rest) (read_bulk product eof size rest)) (read_int is_print eof "Atoi" input')
    else if bool_decide (prefix = "*"%char) then
      read_bind (fun count rest =>
        if count <? 0 then Read RNil rest
        else if negb (makeslice_ok count) then ReadPanic
        else read_bind (fun elems rest => Read (RArray elems) rest) (read_elems is_print product eof fuel count rest))
        (read_int is_print eof "Atoi" input')
    else ReadError ("unsupported " +:+ product +:+ " reply prefix " +:+ QuoteRune is_print (byte_val prefix)) input'
  end.
Proof. done. Qed.

Lemma read_elems_S fuel count input :
  read_elems is_print product eof (S fuel) count input =
  if count <=? 0 then Read [] input
  else read_bind (fun v rest => read_bind (fun vs rest => Read (v :: vs) rest) (read_elems is_print product eof fuel (count - 1) rest))
         (read_value is_print product eof fuel input).
Proof. done. Qed.

Lemma read_settles fuel : forall input,
  ((2 * String.length input < fuel)%nat -> settles 1 input (read_value is_print product eof fuel input)) /\
  (forall count, (2 * String.length input + 1 < fuel)%nat -> settles 0 input (read_elems is_print product eof fuel count input)).
Proof.
  induction fuel as [|fuel IH]; intros input; split; try lia.
  - intros Hf. rewrite read_value_S. destruct input as [|prefix input]; [done|]. cbn [String.length] in Hf.
    assert (forall A (r : read_result A), settles 1 input r -> settles 1 (String prefix input) r) as Hw.
    { intros A r Hr. eapply settles_weaken; [exact Hr|]. cbn [String.length]. lia. }
    repeat case_bool_decide; try (apply Hw, settles_bind; [apply readLine_settles|done]); try done.
    + apply Hw, settles_bind; [apply read_int_settles|]. done.
    + apply Hw, settles_bind; [apply read_int_settles|]. intros size rest Hr. destruct (Z.ltb_spec size 0); [done|].
      apply settles_bind; [|done]. eapply settles_weaken; [apply read_bulk_settles; lia|lia].
    + apply Hw, settles_bind; [apply read_int_settles|]. intros count rest Hr. destruct (count <? 0); [done|].
      destruct (makeslice_ok count); [|done]. apply settles_bind; [|done].
      eapply settles_weaken; [apply (IH rest); lia|lia].
  - intros count Hf. rewrite read_elems_S. destruct (count <=? 0); [cbn; lia|].
    destruct (IH input) as [Hv _]. specialize (Hv ltac:(lia)).
    destruct (read_value is_print product eof fuel input) as [v rest|err rest| |]; try done. cbn in Hv |- *.
    destruct (IH rest) as [_ He]. specialize (He (count - 1) ltac:(lia)).
    destruct (read_elems is_print product eof fuel (count - 1) rest); try done. cbn in He |- *. lia.
Qed.

(** C29: Reading a reply ends for every input: it gives a reply, an error or the
    panic of a slice that is too large. *)
Theorem readReplyValue_total input : readReplyValue is_print product eof input <> NoFuel.
Proof.
  unfold readReplyValue, read_fuel. intros E. destruct (read_settles (S (S (2 * String.length input))) input) as [H _].
  specialize (H ltac:(lia)). by rewrite E in H.
Qed.

(** More fuel does not change a result. *)
Lemma read_fuel_mono fuel : forall input,
  (forall fuel', (fuel <= fuel')%nat -> read_value is_print product eof fuel input <> NoFuel ->
     read_value is_print product eof fuel' input = read_value is_print product eof fuel input) /\
  (forall fuel' count, (fuel <= fuel')%nat -> read_elems is_print product eof fuel count input <> NoFuel ->
     read_elems is_print product eof fuel' count input = read_elems is_print product eof fuel count input).
Proof.
  induction fuel as [|fuel IH]; intros input; split; try done; intros [|fuel']; try lia.
  - intros Hle Hn. rewrite read_value_S in Hn. rewrite !read_value_S. destruct input as [|prefix input]; [done|].
    repeat case_bool_decide; try done.
    destruct (read_int is_print eof "Atoi" input) as [count rest|err rest| |]; try done. cbn [read_bind] in Hn |- *.
    destruct (count <? 0), (makeslice_ok count); try done. cbn [negb] in Hn |- *.
    destruct (IH rest) as [_ He]. rewrite (He fuel'); [done|lia|]. intros E. by rewrite E in Hn.
  - intros count Hle Hn. rewrite read_elems_S in Hn. rewrite !read_elems_S. destruct (count <=? 0); [done|].
    destruct (IH input) as [Hv _]. rewrite (Hv fuel'); [|lia|intros E; by rewrite E in Hn].
    destruct (read_value is_print product eof fuel input) as [v rest|err rest| |]; try done. cbn [read_bind] in Hn |- *.
    destruct (IH rest) as [_ He]. rewrite (He fuel'); [done|lia|]. intros E. by rewrite E in Hn.
Qed.

Lemma readReplyValue_by fuel input v rest :
  read_value is_print product eof fuel input = Read v rest -> readReplyValue is_print product eof input = Read v rest.
Proof.
  intros E. pose proof (readReplyValue_total input) as Ht. unfold readReplyValue in *.
  destruct (Nat.le_ge_cases fuel (read_fuel input)) as [Hle|Hle].
  - rewrite <- E. apply read_fuel_mono; [done|]. by rewrite E.
  - rewrite <- E. symmetry. by apply read_fuel_mono.
Qed.
End total.

(** ** Round trip *)

(** How a server sends a reply. *)
Fixpoint encode (v : reply) : string :=
  match v with
  | RString s => bulk s
  | RNil => "$-1" +:+ crlf
  | RArray arr => "*" +:+ itoa (zlen arr) +:+ crlf +:+ foldr (fun v t => encode v +:+ t) "" arr
  end.

(** Strings within the limit, arrays that can be allocated. *)
Inductive sendable : reply -> Prop :=
| sendable_string s : slen s <= maxBulkSize -> sendable (RString s)
| sendable_nil : sendable RNil
| sendable_array arr : zlen arr <= 2 ^ 44 -> Forall sendable arr -> sendable (RArray arr).

Lemma writeCommand_encode args : writeCommand args = encode (RArray (map RString args)).
Proof.
  unfold writeCommand. cbn [encode]. unfold zlen. rewrite length_map. do 3 f_equal.
  induction args as [|a args IH]; [done|]. cbn [foldr map encode]. by rewrite IH.
Qed.

Section roundtrip.
Variable is_print : Z -> bool.
Variable product : string.
Variable eof : string.

Lemma sdrop_length s t : sdrop (String.length s) (s +:+ t) = t.
Proof. by induction s. Qed.
Lemma stake_length s t : stake (String.length s) (s +:+ t) = s.
Proof. induction s as [|a s IH]; [by destruct t|]. rewrite sapp_cons. cbn. by rewrite IH. Qed.

Lemma TrimSuffix_app s suf : TrimSuffix (s +:+ suf) suf = s.
Proof.
  unfold TrimSuffix, HasSuffix. rewrite length_app_str, slen_app.
  replace (String.length s + String.length suf - String.length suf)%nat with (String.length s) by lia.
  rewrite sdrop_length, bool_decide_eq_true_2 by done. pose proof (slen_nonneg s).
  rewrite (proj2 (Z.leb_le _ _)) by lia. apply stake_length.
Qed.

Lemma readLine_app line rest : has_byte (ascii_of_N 10) line = false ->
  readLine eof (line +:+ crlf +:+ rest) = Read line rest.
Proof.
  intros Hl. unfold readLine.
  replace (line +:+ crlf +:+ rest) with ((line +:+ carriage_return) +:+ String (ascii_of_N 10) rest)
    by (rewrite string_app_assoc; done).
  rewrite cut_at_app by (rewrite has_byte_app, Hl; done). by rewrite TrimSuffix_app.
Qed.

Lemma read_int_itoa fn n rest : in_i64 n -> read_int is_print eof fn (itoa n +:+ crlf +:+ rest) = Read n rest.
Proof.
  intros Hn. unfold read_int. rewrite readLine_app; [cbn; by rewrite Atoi_itoa|].
  eapply all_chars_byte; [apply itoa_chars|done].
Qed.

Lemma read_bulk_app s rest : slen s <= maxBulkSize -> read_bulk product eof (slen s) (s +:+ crlf +:+ rest) = Read s rest.
Proof.
  intros Hs. unfold read_bulk. rewrite (proj2 (Z.ltb_ge _ _)) by lia.
  rewrite !slen_app. change (slen crlf) with 2. pose proof (slen_nonneg rest).
  rewrite (proj2 (Z.ltb_ge _ _)) by lia. f_equal.
  - unfold slen. rewrite Nat2Z.id. apply stake_length.
  - replace (Z.to_nat (slen s + 2)) with (String.length (s +:+ crlf)) by (rewrite length_app_str; unfold slen; cbn; lia).
    rewrite <- string_app_assoc. apply sdrop_length.
Qed.

Lemma read_value_dollar fuel x :
  read_value is_print product eof (S fuel) ("$" +:+ x) =
  read_bind (fun size rest =>
    if size <? 0 then Read RNil rest
    else read_bind (fun s rest => Read (RString s) rest) (read_bulk product eof size rest)) (read_int is_print eof "Atoi" x).
Proof. done. Qed.

Lemma read_value_star fuel x :
  read_value is_print product eof (S fuel) ("*" +:+ x) =
  read_bind (fun count rest =>
    if count <? 0 then Read RNil rest
    else if negb (makeslice_ok count) then ReadPanic
    else read_bind (fun elems rest => Read (RArray elems) rest) (read_elems is_print product eof fuel count rest))
    (read_int is_print eof "Atoi" x).
Proof. done. Qed.

Lemma read_encode v rest : sendable v -> exists fuel, read_value is_print product eof fuel (encode v +:+ rest) = Read v rest.
Proof.
  revert rest. induction v as [s| |arr IH] using reply_nested_ind; intros rest Hv; inversion Hv as [? Hs| |? Hc Hall]; subst.
  - exists 1%nat. cbn [encode]. unfold bulk. rewrite !string_app_assoc, read_value_dollar.
    rewrite read_int_itoa by (unfold in_i64, min_i64, max_i64, maxBulkSize in *; pose proof (slen_nonneg s); lia).
    cbn [read_bind]. pose proof (slen_nonneg s). rewrite (proj2 (Z.ltb_ge _ _)) by lia.
    by rewrite read_bulk_app.
  - exists 1%nat. rewrite read_value_S. done.
  - assert (forall tl, exists fuel, read_elems is_print product eof fuel (zlen arr) (foldr (fun v t => encode v +:+ t) "" arr +:+ tl)
      = Read arr tl) as Helems.
    { clear Hc Hv. induction arr as [|v arr IHarr]; intros tl; [by exists 1%nat|].
      apply Forall_cons in IH as [IHv IHl]. apply Forall_cons in Hall as [Hv Hall]. cbn [foldr].
      rewrite string_app_assoc. destruct (IHv (foldr (fun v t => encode v +:+ t) "" arr +:+ tl) Hv) as [f1 H1].
      destruct (IHarr IHl Hall tl) as [f2 H2]. exists (S (Nat.max f1 f2)). rewrite read_elems_S.
      pose proof (zlen_nonneg arr). rewrite zlen_cons. rewrite (proj2 (Z.leb_gt _ _)) by lia.
      rewrite (proj1 (read_fuel_mono is_print product eof f1 _) (Nat.max f1 f2)) by (lia || by rewrite H1).
      rewrite H1. cbn [read_bind]. replace (1 + zlen arr - 1) with (zlen arr) by lia.
      rewrite (proj2 (read_fuel_mono is_print product eof f2 _) (Nat.max f1 f2)) by (lia || by rewrite H2).
      by rewrite H2. }
    destruct (Helems rest) as [fuel Hf]. exists (S fuel). cbn [encode]. rewrite !string_app_assoc, read_value_star.
    pose proof (zlen_nonneg arr).
    rewrite read_int_itoa by (unfold in_i64, min_i64, max_i64; lia). cbn [read_bind].
    rewrite (proj2 (Z.ltb_ge _ _)) by lia. unfold makeslice_ok. rewrite (proj2 (Z.leb_le _ _)) by lia.
    cbn [negb]. by rewrite Hf.
Qed.

(** C28: What a server sends is read as it was sent, and nothing after it is
    consumed; a command is the array of its arguments, whatever bytes they
    contain, so that an argument cannot add a command. *)
Theorem RESP_round_trip v args rest :
  sendable v -> Forall (fun a => slen a <= maxBulkSize) args -> zlen args <= 2 ^ 44 ->
  readReplyValue is_print product eof (encode v +:+ rest) = Read v rest /\
  readReplyValue is_print product eof (writeCommand args +:+ rest) = Read (RArray (map RString args)) rest.
Proof.
  intros Hv Hargs Hn. rewrite writeCommand_encode.
  split; [destruct (read_encode v rest Hv) as [f H]|destruct (read_encode (RArray (map RString args)) rest) as [f H]];
    [|constructor|]; eauto using readReplyValue_by.
  - unfold zlen in *. by rewrite length_map.
  - apply Forall_map. eapply Forall_impl; [exact Hargs|]. intros a Ha. by constructor.
Qed.
End roundtrip.

(** ** Secrets *)

(** The same keys, the same values except those of secret settings. *)
Inductive same_but_secrets : list reply -> list reply -> Prop :=
| sbs_nil : same_but_secrets [] []
| sbs_last v : same_but_secrets [v] [v]
| sbs_pair k v v' arr arr' :
    (v = v' \/ TrimSpace k ∈ redisConfigDenyList) -> same_but_secrets arr arr' ->
    same_but_secrets (RString k :: v :: arr) (RString k :: v' :: arr')
| sbs_bad_key k v arr : (forall s, k <> RString s) -> same_but_secrets (k :: v :: arr) (k :: v :: arr).

(** The text of CONFIG GET is the same for replies that differ in secrets only. *)
Theorem redaction_hides_secrets arr arr' :
  same_but_secrets arr arr' -> formatRedactedConfigReply (RArray arr) = formatRedactedConfigReply (RArray arr').
Proof.
  intros H. enough (redact_pairs arr = redact_pairs arr') as E by (cbn; by rewrite E).
  induction H as [| |k v v' arr arr' Hv H IH|k v arr Hk]; [done..| |done].
  cbn [redact_pairs]. rewrite IH. destruct (redact_pairs arr'); [|done].
  destruct Hv as [->|Hd]; [done|]. by rewrite bool_decide_eq_true_2.
Qed.

(** ** Concrete inputs *)

(** Every exchange is answered by the next text of a script. *)
#[export] Instance scripted : Network (list string) := {|
  dial _ _ w := (None, w);
  conn_write _ _ w := (None, w);
  arrive _ w := match w with [] => ("", "EOF", []) | b :: w' => (b, "EOF", w') end;
  conn_close _ w := w;
  net_now _ := 0
|}.

Definition no_print : Z -> bool := fun _ => false.
Definition ex_config : list reply := [RString "maxmemory"; RString "0"; RString "requirepass"; RString "s3cret"].

Lemma redaction_hides_secrets_witness :
  formatRedactedConfigReply (RArray ex_config) =
  formatRedactedConfigReply (RArray [RString "maxmemory"; RString "0"; RString "requirepass"; RString "other"]).
Proof.
  apply redaction_hides_secrets. apply sbs_pair; [by left|]. apply sbs_pair; [right|apply sbs_nil].
  vm_compute. left.
Defined.

Lemma RESP_round_trip_witness :
  readReplyValue no_print "redis" "EOF" (writeCommand ["GET"; "a" +:+ crlf +:+ "*1"] +:+ "rest")
  = Read (RArray [RString "GET"; RString ("a" +:+ crlf +:+ "*1")]) "rest".
Proof.
  refine (proj2 (RESP_round_trip no_print "redis" "EOF" RNil ["GET"; "a" +:+ crlf +:+ "*1"] "rest" sendable_nil _ _)).
  - repeat constructor; vm_compute; discriminate.
  - vm_compute. discriminate.
Defined.

(** An array header is not limited the way a string is: the reader panics. *)
Theorem array_header_panics :
  readReplyValue no_print "redis" "EOF" ("*17592186044417" +:+ crlf) = ReadPanic /\
  exists err, readReplyValue no_print "redis" "EOF" ("$1048577" +:+ crlf) = ReadError err "".
Proof. split; [vm_compute; reflexivity|]. eexists. vm_compute. reflexivity. Qed.
