(* ===== verification/NetLog.v ===== *)
(** * Connections that record what is done to them

    [logged] puts a log on any network.  What a computation sends is stated on
    the log: the primitives of [Resp] keep every invariant that adding the
    events they log keeps. *)
From S2P Require Import Prelude GoStr GoLib GoConv GoIo Resp.
#[local] Open Scope Z_scope.

Inductive net_event :=
| Dialled (c : nat) (cfg : RedisAccessorConfig)
| Wrote (c : nat) (bytes : string)
| Closed (c : nat).

(** The network underneath with a log, last event first. *)
#[export] Instance logged {W} `{!Network W} : Network (W * list net_event) := {|
  dial c cfg w := let '(err, w') := dial c cfg w.1 in (err, (w', Dialled c cfg :: w.2));
  conn_write c bytes w := let '(err, w') := conn_write c bytes w.1 in (err, (w', Wrote c bytes :: w.2));
  arrive c w := let '(bytes, err, w') := arrive c w.1 in (bytes, err, (w', w.2));
  conn_close c w := (conn_close c w.1, Closed c :: w.2);
  net_now w := net_now w.1
|}.

Section steps.
Context {W : Type} `{!Network W}.

Definition log_of (n : net (W * list net_event)) : list net_event := (world n).2.

(** An invariant of the log and of the number of connections, that an event
    with [P] keeps. *)
Variable P : net_event -> Prop.
Variable I : net (W * list net_event) -> Prop.
Hypothesis I_same : forall n n', log_of n' = log_of n -> next_conn n' = next_conn n -> I n -> I n'.
Hypothesis I_add : forall n n' e, log_of n' = e :: log_of n -> next_conn n' = next_conn n -> P e -> I n -> I n'.

Lemma step_write c args : P (Wrote c (writeCommand args)) -> keeps I (write_command c args).
Proof.
  intros Ha. apply keeps_bind; [|intros [e|]; apply keeps_ret]. intros n Hn. unfold with_world. cbn.
  destruct (conn_write c (writeCommand args) (world n).1) as [err w']. by eapply I_add.
Qed.

Lemma step_read reader c : keeps I (read_reply_with reader c).
Proof.
  intros n Hn. unfold read_reply_with. cbn. destruct (arrive c (world n).1) as [[bytes eof] w'].
  eapply I_same; [| |exact Hn]; by repeat destruct_match_goal.
Qed.

Lemma step_close c : P (Closed c) -> keeps I (close_conn c).
Proof. intros Hc n Hn. by eapply (I_add _ _ (Closed c)). Qed.

Lemma step_or_close c m : P (Closed c) -> keeps I m -> keeps I (or_close c m).
Proof.
  intros Hc Hm. apply keeps_bind; [done|]. intros [[]|err]; [apply keeps_ret|].
  apply keeps_bind; [by apply step_close|intros _; apply keeps_ret].
Qed.
End steps.

Section confined.
Context {W : Type} `{!Network W}.
Variable P : net_event -> Prop.
Variable log0 : list net_event.

(** Since [log0] only events that satisfy [P] were recorded. *)
Definition confined (n : net (W * list net_event)) : Prop :=
  exists new, log_of n = new ++ log0 /\ Forall P new.

Lemma confined_same n n' : log_of n' = log_of n -> confined n -> confined n'.
Proof. intros E (new & H & Hf). exists new. by rewrite E. Qed.
Lemma confined_add n n' e : log_of n' = e :: log_of n -> P e -> confined n -> confined n'.
Proof. intros E He (new & H & Hf). exists (e :: new). rewrite E, H. by split; [|constructor]. Qed.
Lemma confined_refl n : log_of n = log0 -> confined n.
Proof. intros <-. exists []. split; [done|constructor]. Qed.

Lemma keeps_open cfg : (forall c, P (Dialled c cfg)) -> keeps confined (open_conn cfg).
Proof.
  intros Ht n Hn. unfold open_conn. cbn. destruct (dial (next_conn n) cfg (world n).1) as [[err|] w'];
    (eapply (confined_add _ _ (Dialled (next_conn n) cfg)); [reflexivity|apply Ht|exact Hn]).
Qed.
End confined.
