(* ===== verification/Pushing.v ===== *)
(** * Events that a check pushes

    What the plugins share when they build events, and a logic for what a
    computation pushes: [reports R P m] says that the events [m] adds to the
    queue are, one by one, those of some keys that satisfy [P], where [R] tells
    which event belongs to a key.  A state with a queue is a [Pushing].  Then the
    child processes that plugins run: what is collected of their output, how a
    run ends (pkg/cmdx); the process itself is a class. *)
From S2P Require Import Prelude GoStr Types GoIo.
#[local] Open Scope Z_scope.

Abbreviation attrs_of l := (Some (list_to_map l : gmap string string)).

Definition critical (e : Event) (desc : string) : Event := SetDescription (SetEventStatus e EventStatusCritical) desc.

(** [event.Attrs[k] = v], and the description of the thresholds when there are any. *)
Definition set_attr (k v : string) (e : Event) : Event := with_Attrs (Some (<[k := v]> (default ∅ (Attrs e)))) e.
Definition thresholds_attr (parts : list string) (e : Event) : Event :=
  if decide (parts = []) then e else set_attr "threshold_desc" (Join parts ", ") e.

(** What [os.ReadFile] finds; the errors as they are printed. *)
Inductive file := Text (s : string) | Absent (err : string) | Unreadable (err : string).

(** ** Labels *)
Definition label (k : string) (e : Event) : string := default "" (Labels e ≫= lookup k).
Notation check_of := (label "check").
Notation target_of := (label "target").

(** An event of [target] for [check]. *)
Definition event_of (target check : string) (e : Event) : Prop := check_of e = check /\ target_of e = target.

Lemma thresholds_attr_event target check parts e : event_of target check e -> event_of target check (thresholds_attr parts e).
Proof. unfold thresholds_attr. by case_decide. Qed.
Lemma thresholds_attr_status parts e : EventStatus (thresholds_attr parts e) = EventStatus e.
Proof. unfold thresholds_attr. by case_decide. Qed.

(** [evs] are one event for each of [checks]. *)
Definition events_of (target : string) : list string -> list Event -> Prop := Forall2 (event_of target).

Lemma events_one target check e : event_of target check e -> events_of target [check] [e].
Proof. intros H. by constructor. Qed.

(** ** What a computation pushes *)
Class Pushing (S : Type) := pushed : S -> list Event.

Definition cat {K} (P Q : list K -> Prop) (l : list K) : Prop := exists l1 l2, l = l1 ++ l2 /\ P l1 /\ Q l2.

Section reports.
Context {S K : Type} `{!Pushing S}.
Variable R : K -> Event -> Prop.

(** Nothing is said of a computation that panics. *)
Definition reports {A} (P : list K -> Prop) (m : io S A) : Prop := forall s a s',
  m s = (Ret a, s') -> exists keys evs, pushed s' = pushed s ++ evs /\ Forall2 R keys evs /\ P keys.

Definition silent {A} (m : io S A) : Prop := forall s a s', m s = (Ret a, s') -> pushed s' = pushed s.

Lemma reports_ret {A} (a : A) : reports (eq []) (io_ret a).
Proof. intros s b s' [= <- <-]. exists [], []. rewrite app_nil_r. split; [done|]. by split; [constructor|]. Qed.

Lemma reports_adds (P : list K -> Prop) keys evs (f : S -> S) :
  (forall s, pushed (f s) = pushed s ++ evs) -> Forall2 R keys evs -> P keys -> reports P (io_modify f).
Proof. intros Hf He HP s b s' [= <- <-]. by exists keys, evs. Qed.

Lemma reports_silent {A B} P (m : io S A) (k : A -> io S B) :
  silent m -> (forall a, reports P (k a)) -> reports P (m ≫= k).
Proof.
  intros Hm Hk s b s' H. apply io_bind_inv in H as (a & s1 & H1 & H2).
  apply Hm in H1. apply Hk in H2 as (cs & evs & H2 & ?). rewrite H1 in H2. eauto.
Qed.

Lemma reports_bind {A B} (P Q T : list K -> Prop) (m : io S A) (k : A -> io S B) :
  reports P m -> (forall a, reports Q (k a)) -> (forall l1 l2, P l1 -> Q l2 -> T (l1 ++ l2)) -> reports T (m ≫= k).
Proof.
  intros Hm Hk HT s b s' H. apply io_bind_inv in H as (a & s1 & H1 & H2).
  apply Hm in H1 as (c1 & e1 & E1 & F1 & P1). apply Hk in H2 as (c2 & e2 & E2 & F2 & P2).
  exists (c1 ++ c2), (e1 ++ e2). rewrite E2, E1, app_assoc. split; [done|]. split; [by apply Forall2_app|auto].
Qed.

Lemma reports_cat {A B} P Q (m : io S A) (k : A -> io S B) :
  reports P m -> (forall a, reports Q (k a)) -> reports (cat P Q) (m ≫= k).
Proof. intros Hm Hk. eapply reports_bind; [done|done|]. intros l1 l2 H1 H2. by exists l1, l2. Qed.

Lemma reports_weaken {A} (P Q : list K -> Prop) (m : io S A) :
  reports P m -> (forall l, P l -> Q l) -> reports Q m.
Proof. intros Hm H s b s' E. destruct (Hm _ _ _ E) as (cs & evs & ? & ? & ?). eauto 6. Qed.

(** The exact keys of a sequence. *)
Lemma reports_seq {B} l1 l2 (m : io S unit) (k : io S B) :
  reports (eq l1) m -> reports (eq l2) k -> reports (eq (l1 ++ l2)) (_ ← m; k).
Proof. intros Hm Hk. eapply reports_bind; [done|done|]. by intros ? ? <- <-. Qed.

Lemma reports_when b l (m : io S unit) :
  (b = true -> reports (eq l) m) -> reports (eq (if b then l else [])) (when b m).
Proof. destruct b; cbn; [auto|]. intros _. apply reports_ret. Qed.

(** A loop, with the keys of each round. *)
Lemma reports_each {A B} (P : A -> list K -> Prop) (f : A -> io S B) l : (forall x, reports (P x) (f x)) ->
  reports (fun keys => exists own, keys = concat own /\ Forall2 P l own) (io_each f l).
Proof.
  intros Hf. induction l as [|x l IH].
  { eapply reports_weaken; [apply reports_ret|]. intros ? <-. exists []. by split; [|constructor]. }
  cbn [io_each]. eapply (reports_bind _ (fun keys => exists own, keys = concat own /\ Forall2 P l own)); [apply Hf| |].
  2:{ intros l1 ? H1 (own & -> & H2). exists (l1 :: own). by split; [|constructor]. }
  intros y. eapply (reports_bind _ (eq [])); [exact IH|intros ys; apply reports_ret|]. intros l1 ? H1 <-. by rewrite app_nil_r.
Qed.

Lemma silent_gets {A} (f : S -> A) : silent (io_gets f).
Proof. by intros s a s' [= <- <-]. Qed.
Lemma silent_ret {A} (a : A) : silent (io_ret a).
Proof. by intros s b s' [= <- <-]. Qed.
Lemma silent_bind {A B} (m : io S A) (k : A -> io S B) : silent m -> (forall a, silent (k a)) -> silent (m ≫= k).
Proof.
  intros Hm Hk s b s' H. apply io_bind_inv in H as (a & s1 & H1 & H2). apply Hm in H1. apply Hk in H2. congruence.
Qed.
End reports.

Create HintDb reports.
#[export] Hint Resolve silent_gets silent_ret : reports.

(** ** A part of the checks *)
Lemma submseteq_NoDup {A} (l k : list A) : l ⊆+ k -> NoDup k -> NoDup l.
Proof. intros Hs. apply submseteq_Permutation in Hs as (k' & ->). rewrite NoDup_app. tauto. Qed.

Lemma opt_submseteq {A} (b : bool) (x : A) : (if b then [x] else []) ⊆+ [x].
Proof. destruct b; [done|apply submseteq_nil_l]. Qed.

(** * Processes *)
#[local] Open Scope go_scope.

Definition maxStdoutBytes : Z := 2 ^ 20.
Definition maxStderrBytes : Z := 256 * 2 ^ 10.

(** ** [limitedBuffer] *)
Record limitedBuffer := mkBuffer { buf : string; max : Z }.
Definition Write (p : string) (w : limitedBuffer) : limitedBuffer :=
  let remaining := max w - slen (buf w) in
  if 0 <? remaining then
    mkBuffer (buf w +:+ (if remaining <? slen p then stake (Z.to_nat remaining) p else p)) (max w)
  else w.
Definition collected (limit : Z) (chunks : list string) : string :=
  buf (fold_left (fun w p => Write p w) chunks (mkBuffer "" limit)).

(** ** The process *)

(** How [cmdx.RunTimeout] ends: an [ExitError] with its code and text, another
    error, or the timeout. *)
Inductive run_end := Done | ExitError (code : Z) (err : string) | RunError (err : string) | TimedOut.
(** What it writes, in the pieces in which it arrives. *)
Record Output := mkOutput { out_chunks : list string; err_chunks : list string; ended : run_end }.

Class Process (W : Type) := run_process : string -> list string -> W -> Output * W.

(** ** The buffer keeps the first bytes *)
Lemma stake_app_split n s t : stake n (s +:+ t) = stake n s +:+ stake (n - String.length s) t.
Proof.
  revert s. induction n as [|n IH]; intros [|c s]; [done..|]. cbn [String.length]. rewrite sapp_cons. cbn [stake].
  rewrite IH. done.
Qed.

Lemma collected_spec limit chunks : 0 <= limit -> collected limit chunks = stake (Z.to_nat limit) (concat_lines chunks).
Proof.
  intros Hl. unfold collected.
  assert (forall w, slen (buf w) <= max w -> buf (fold_left (fun w p => Write p w) chunks w)
    = buf w +:+ stake (Z.to_nat (max w - slen (buf w))) (concat_lines chunks)) as H.
  2:{ rewrite H by exact Hl. cbn [buf max]. by rewrite slen_empty, Z.sub_0_r, sapp_nil. }
  induction chunks as [|p chunks IH]; intros w Hw; cbn [fold_left concat_lines foldr].
  { cbn. by destruct (Z.to_nat _); rewrite string_app_nil_r. }
  rewrite stake_app_split. fold (concat_lines chunks). pose proof (slen_nonneg p). unfold Write.
  destruct (Z.ltb_spec 0 (max w - slen (buf w))) as [Hr|Hr].
  - destruct (Z.ltb_spec (max w - slen (buf w)) (slen p)) as [Hp|Hp].
    + rewrite IH; cbn [buf max]; rewrite slen_app, slen_stake; [|lia].
      replace (Z.to_nat (max w - (slen (buf w) + _))) with O by lia.
      replace (Z.to_nat (max w - slen (buf w)) - String.length p)%nat with O by (unfold slen in *; lia).
      by rewrite string_app_assoc.
    + rewrite IH; cbn [buf max]; rewrite slen_app; [|lia]. rewrite (stake_all _ p) by (unfold slen in *; lia).
      rewrite string_app_assoc. do 2 f_equal. f_equal. unfold slen in *. lia.
  - rewrite IH by done. replace (Z.to_nat (max w - slen (buf w))) with O by lia. done.
Qed.
