(* ===== verification/Flight.v ===== *)
(** * Targets in flight (plugins/redis/gather.go, plugins/redis_sentinel/gather.go)

    The plugins that check each target in a goroutine of its own remember which
    targets are still being checked, and since when, and which of them a
    gathering that timed out left behind.  Such a target is not started again;
    it is reported as hung when it takes too long and as recovered when it is
    free again. *)
From S2P Require Import Prelude GoStr GoLib GoConv GoFmt Types.
#[local] Open Scope Z_scope.
#[local] Open Scope go_scope.

(** [inFlight] with the times in seconds, and the keys of [prevHung]. *)
Record Flight := mkFlight { running : gmap string Z; hung : gset string }.

Definition take_off (unix : Z) (target : string) (f : Flight) : Flight := mkFlight (<[target := unix]> (running f)) (hung f).
Definition land (target : string) (f : Flight) : Flight := mkFlight (delete target (running f)) (hung f).

(** The timeout of a gathering: what is still in flight counts as hung. *)
Definition mark_hung (f : Flight) : Flight := mkFlight (running f) (hung f ∪ dom (running f)).

Section start.
Variable hungEvent : string -> Z -> Event.
Variable recoveryEvent : string -> Event.

(** The loop over the targets: what is pushed, whose goroutines start. *)
Fixpoint start_targets (gatherTimeout unix : Z) (targets : list string) (f : Flight)
  : list Event * list string * Flight :=
  match targets with
  | [] => ([], [], f)
  | target :: targets' =>
    match running f !! target with
    | Some startTime =>
      let elapsed := unix ⊟ startTime in
      let '(evs, started, f) := start_targets gatherTimeout unix targets' f in
      ((if f64_to_int64 (Duration_Seconds gatherTimeout) <? elapsed then [hungEvent target elapsed] else []) ++ evs, started, f)
    | None =>
      if bool_decide (target ∈ hung f) then
        let '(evs, started, f) :=
          start_targets gatherTimeout unix targets' (mkFlight (running f) (hung f ∖ {[target]})) in
        (recoveryEvent target :: evs, target :: started, f)
      else
        let '(evs, started, f) := start_targets gatherTimeout unix targets' f in (evs, target :: started, f)
    end
  end.

(** ** Which targets start, hang and recover *)
Variable R : string -> Event -> Prop.
Hypothesis R_hung : forall x elapsed, R x (hungEvent x elapsed).
Hypothesis R_recovery : forall x, R x (recoveryEvent x).

Lemma start_targets_forgets t unix targets f evs started f' :
  start_targets t unix targets f = (evs, started, f') -> hung f' ⊆ hung f.
Proof.
  revert f evs started f'. induction targets as [|x targets IH]; intros f evs started f'; cbn [start_targets].
  { by intros [= <- <- <-]. }
  destruct (running f !! x); [|case_bool_decide];
    match goal with |- context [start_targets _ _ _ ?i] => destruct (start_targets t unix targets i) as [[e l] i'] eqn:E end;
    intros [= <- <- <-]; apply IH in E; cbn in *; set_solver.
Qed.

Lemma list_filter_iff_in {A} (P Q : A -> Prop) `{!forall x, Decision (P x)} `{!forall x, Decision (Q x)} (l : list A) :
  (forall x, x ∈ l -> P x <-> Q x) -> filter P l = filter Q l.
Proof.
  induction l as [|x l IH]; intros Heq; [done|].
  assert (filter P l = filter Q l) as IH' by (apply IH; intros y Hy; apply Heq; by right).
  assert (P x <-> Q x) as Hx by (apply Heq; left).
  destruct (decide (P x)) as [HP|HP].
  - rewrite !filter_cons_True by tauto. by rewrite IH'.
  - rewrite !filter_cons_False by tauto. done.
Qed.

(** Whether a target reports that it hangs, or that it does no longer. *)
Definition hung_event (t unix : Z) (f : Flight) (x : string) : Prop :=
  match running f !! x with
  | Some st => f64_to_int64 (Duration_Seconds t) < unix ⊟ st
  | None => x ∈ hung f
  end.
#[local] Instance hung_event_dec t unix f x : Decision (hung_event t unix f x).
Proof. unfold hung_event. destruct (running f !! x); apply _. Defined.

Lemma hung_event_other t unix f x y :
  x <> y -> hung_event t unix (mkFlight (running f) (hung f ∖ {[x]})) y <-> hung_event t unix f y.
Proof. intros Hne. unfold hung_event. cbn. destruct (running f !! y); [done|]. set_solver. Qed.

(** A gathering starts the targets that are not in flight, each once; it reports
    as hung those in flight for longer than the timeout, and once as recovered
    those that were hung and are free again. *)
Theorem start_targets_hung t unix targets f evs started f' :
  NoDup targets -> start_targets t unix targets f = (evs, started, f') ->
  started = filter (fun x => running f !! x = None) targets /\
  Forall2 R (filter (hung_event t unix f) targets) evs /\
  (forall x, x ∈ started -> x ∉ hung f') /\ running f' = running f.
Proof.
  revert f evs started f'. induction targets as [|x targets IH]; intros f evs started f' Hnd.
  { cbn [start_targets]. intros [= <- <- <-]. split_and!; [done|constructor|set_solver|done]. }
  apply NoDup_cons in Hnd as [Hx Hnd]. cbn [start_targets]. destruct (running f !! x) as [st|] eqn:Ef.
  - destruct (start_targets t unix targets f) as [[e l] i] eqn:E. intros [= <- <- <-].
    destruct (IH _ _ _ _ Hnd E) as (-> & He & Hp & Hi). rewrite filter_cons_False by by rewrite Ef.
    split_and!; [done| |done|done]. destruct (Z.ltb_spec (f64_to_int64 (Duration_Seconds t)) (unix ⊟ st)).
    + rewrite filter_cons_True by (unfold hung_event; by rewrite Ef). by constructor.
    + rewrite filter_cons_False by (unfold hung_event; rewrite Ef; lia). done.
  - case_bool_decide as Hh.
    + destruct (start_targets t unix targets (mkFlight (running f) (hung f ∖ {[x]}))) as [[e l] i] eqn:E.
      intros [= <- <- <-]. destruct (IH _ _ _ _ Hnd E) as (-> & He & Hp & Hi). rewrite filter_cons_True by done.
      split_and!; [done| | |done].
      * rewrite filter_cons_True by (unfold hung_event; by rewrite Ef). constructor; [done|].
        erewrite list_filter_iff_in; [exact He|]. intros y Hy. symmetry. apply hung_event_other. set_solver.
      * intros y [->|Hy]%elem_of_cons; [|by apply Hp].
        intros Hin. apply (start_targets_forgets _ _ _ _ _ _ _ E) in Hin. cbn in Hin. set_solver.
    + destruct (start_targets t unix targets f) as [[e l] i] eqn:E. intros [= <- <- <-].
      destruct (IH _ _ _ _ Hnd E) as (-> & He & Hp & Hi). rewrite filter_cons_True by done.
      split_and!; [done| | |done].
      * rewrite filter_cons_False by (unfold hung_event; by rewrite Ef). done.
      * intros y [->|Hy]%elem_of_cons; [|by apply Hp].
        intros Hin. by apply (start_targets_forgets _ _ _ _ _ _ _ E) in Hin.
Qed.
End start.

(** A concrete loop: a hung target, one that recovered, one that starts. *)
Lemma start_targets_hung_witness :
  exists evs f', start_targets (fun x _ => BuildEvent [Some {["target" := x]}]) (fun x => BuildEvent [Some {["target" := x]}])
      (30 * Second) 200 ["a:1"; "b:1"; "c:1"] (mkFlight {["a:1" := 100]} {["b:1"]}) = (evs, ["b:1"; "c:1"], f') /\
    length evs = 2%nat /\ "b:1" ∉ hung f'.
Proof.
  destruct (start_targets (fun x _ => BuildEvent [Some {["target" := x]}]) (fun x => BuildEvent [Some {["target" := x]}])
      (30 * Second) 200 ["a:1"; "b:1"; "c:1"] (mkFlight {["a:1" := 100]} {["b:1"]})) as [[evs started] f'] eqn:E.
  destruct (start_targets_hung (fun x _ => BuildEvent [Some {["target" := x]}]) (fun x => BuildEvent [Some {["target" := x]}])
    (fun _ _ => True) (fun _ _ => I) (fun _ => I) (30 * Second) 200 ["a:1"; "b:1"; "c:1"]
    (mkFlight {["a:1" := 100]} {["b:1"]}) evs started f') as (Hs & Hev & Hp & _); [|exact E|].
  - apply (bool_decide_unpack _). vm_compute. exact I.
  - assert (started = ["b:1"; "c:1"]) as -> by (rewrite Hs; vm_compute; reflexivity).
    exists evs, f'. split; [reflexivity|]. split; [by apply Forall2_length in Hev|]. apply Hp. left.
Defined.
