(* ===== verification/PluginConfig.v ===== *)
(** * What the settings of the plugins share

    The Redis and the Sentinel plugin repeat the same code: templates that fill
    what an instance leaves out, targets that get a default port, severities,
    TLS settings (plugins/redis/config.go, plugins/redis_sentinel/config.go).
    Their errors name the [product]. *)
From S2P Require Import Prelude GoStr GoLib GoConv Types.
#[local] Open Scope Z_scope.

Definition res_bind {A B} (r : res string A) (f : A -> res string B) : res string B :=
  match r with Good a => f a | Bad err => Bad err end.
Notation "x ←! r ; k" := (res_bind r (fun x => k)) (at level 20, r at level 100, k at level 200, right associativity) : go_scope.

#[local] Open Scope go_scope.

(** ** Templates *)
Definition or_zero (z d : Z) : Z := if z =? 0 then d else z.
Definition or_empty (s d : string) : string := if decide (s = "") then d else s.
Definition or_nil (b d : option bool) : option bool := match b with None => d | Some _ => b end.

Record ClientConfig := mkClientConfig {
  UseTLS : option bool; TLSCA : string; TLSCert : string; TLSKey : string; TLSKeyPwd : string;
  InsecureSkipVerify : option bool; ServerName : string; TLSMinVersion : string; TLSMaxVersion : string
}.

Definition mergeClientConfig (dst src : ClientConfig) : ClientConfig :=
  mkClientConfig (or_nil (UseTLS dst) (UseTLS src)) (or_empty (TLSCA dst) (TLSCA src))
    (or_empty (TLSCert dst) (TLSCert src)) (or_empty (TLSKey dst) (TLSKey src))
    (or_empty (TLSKeyPwd dst) (TLSKeyPwd src)) (or_nil (InsecureSkipVerify dst) (InsecureSkipVerify src))
    (or_empty (ServerName dst) (ServerName src)) (or_empty (TLSMinVersion dst) (TLSMinVersion src))
    (or_empty (TLSMaxVersion dst) (TLSMaxVersion src)).

Record Partial (S : Type) := mkPartial { ID : string; partial_settings : S }.
Arguments mkPartial {S} ID partial_settings.
Arguments ID {S} p.
Arguments partial_settings {S} p.

Section apply.
Variable is_print : Z -> bool.
Variable product : string.
Context {S I : Type}.
(** The fields of an instance that are not set, from a template. *)
Variable merge_into : S -> I -> I.
Variable partial_of : I -> string.

Fixpoint partials_by_id (partials : list (Partial S)) (byID : gmap string S) : res string (gmap string S) :=
  match partials with
  | [] => Good byID
  | p :: partials' =>
    if decide (ID p = "") then Bad (product +:+ " partial id must not be empty")
    else
      match byID !! ID p with
      | Some _ => Bad ("duplicate " +:+ product +:+ " partial id " +:+ Quote is_print (ID p))
      | None => partials_by_id partials' (<[ID p := partial_settings p]> byID)
      end
  end.

(** The instances after the loop, and the error that ended it. *)
Fixpoint apply_loop (byID : gmap string S) (instances : list I) : option string * list I :=
  match instances with
  | [] => (None, [])
  | ins :: instances' =>
    if decide (partial_of ins = "") then
      let '(err, l) := apply_loop byID instances' in (err, ins :: l)
    else
      match byID !! partial_of ins with
      | None => (Some (product +:+ " partial " +:+ Quote is_print (partial_of ins) +:+ " not found"), instances)
      | Some partial =>
        let '(err, l) := apply_loop byID instances' in
        (err, merge_into partial ins :: l)
      end
  end.

Definition apply_partials (partials : list (Partial S)) (instances : list I) : option string * list I :=
  match partials_by_id partials ∅ with
  | Bad err => (Some err, instances)
  | Good byID => apply_loop byID instances
  end.
End apply.

(** ** Validation *)
Section validation.
Variable is_print : Z -> bool.
Variable product : string.
Variable defaultPort : string.

Definition normalize_target (raw : string) : res string string :=
  let target := TrimSpace raw in
  if decide (target = "") then Bad (product +:+ " target must not be empty")
  else
    match SplitHostPort target with
    | Good (host, port) =>
      if decide (port = "") then Bad ("bad port, target: " +:+ raw)
      else Good (JoinHostPort (or_empty host "localhost") port)
    | Bad err =>
      if Contains err missing_port then
        (if (1 <? count_byte colon target) && negb (HasPrefix target "[")
         then Bad (product +:+ " IPv6 target must use [addr]:port format: " +:+ raw)
         else Good (JoinHostPort target defaultPort))
      else Bad ("failed to parse " +:+ product +:+ " target " +:+ Quote is_print raw +:+ ": " +:+ err)
    end.

Definition check_nonneg (name : string) (a b : Z) : res string unit :=
  if (a <? 0) || (b <? 0) then Bad (name +:+ " thresholds must be >= 0") else Good tt.

(** The severity of a check: a default, or one of the statuses. *)
Definition severity_or (default_ name severity : string) : res string string :=
  if decide (severity = "") then Good default_
  else if EventStatusValid severity then Good severity
  else Bad ("invalid " +:+ name +:+ " " +:+ Quote is_print severity).

(** A severity that alerts, with a default. *)
Definition normalize_severity (default_ s : string) : res string string :=
  let s := TrimSpace s in
  let s := if decide (s = "") then default_ else s in
  if bool_decide (s ∈ [EventStatusInfo; EventStatusWarning; EventStatusCritical]) then Good s
  else Bad ("invalid severity " +:+ Quote is_print s +:+ ", must be Info, Warning or Critical").

End validation.

(** ** Lemmas *)

Lemma res_bind_Good {A B} (r : res string A) (f : A -> res string B) b :
  res_bind r f = Good b -> exists a, r = Good a /\ f a = Good b.
Proof. destruct r; cbn; [eauto|done]. Qed.

(** Takes a successful chain of [res_bind] apart. *)
Ltac res_inv H :=
  repeat (apply res_bind_Good in H; let a := fresh "a" in let E := fresh "E" in destruct H as (a & E & H)).

Lemma severity_or_valid is_print d name sev sev' :
  EventStatusValid d = true -> severity_or is_print d name sev = Good sev' -> EventStatusValid sev' = true.
Proof. unfold severity_or. intros Hd. case_decide; [by intros [= <-]|]. destruct (EventStatusValid sev) eqn:E; [by intros [= <-]|done]. Qed.

Definition alerting (severity : string) : Prop := severity ∈ [EventStatusInfo; EventStatusWarning; EventStatusCritical].
Lemma normalize_severity_ok is_print d s sev : normalize_severity is_print d s = Good sev -> alerting sev.
Proof. unfold normalize_severity. case_bool_decide; [by intros [= <-]|done]. Qed.

Lemma or_zero_nonzero z d : d <> 0 -> or_zero z d <> 0.
Proof. unfold or_zero. destruct (Z.eqb_spec z 0); done. Qed.

Lemma check_nonneg_ok name a b u : check_nonneg name a b = Good u -> 0 <= a /\ 0 <= b.
Proof. unfold check_nonneg. destruct ((a <? 0) || (b <? 0)) eqn:E; [done|]. zbool. lia. Qed.

(** *** Targets *)
Definition dialable (target : string) : Prop :=
  exists host port, SplitHostPort target = Good (host, port) /\ host <> "" /\ port <> "".

Definition unbracketed (s : string) : Prop := has_byte lbracket s = false /\ has_byte rbracket s = false.

Lemma cut_last_spec c s x y : cut_last c s = Some (x, y) -> s = x +:+ String c y /\ has_byte c y = false.
Proof.
  revert x y. induction s as [|a s IH]; [done|]. intros x y. cbn.
  destruct (cut_last c s) as [[x' y']|] eqn:E.
  - intros [= <- <-]. destruct (IH _ _ eq_refl) as [-> H]. done.
  - case_decide as Ha; [|done]. intros [= <- <-]. subst. split; [done|]. clear IH. 
    induction s as [|b s IH]; [done|]. cbn in E |- *. destruct (cut_last c s) as [[]|]; [done|].
    case_decide; [done|]. by rewrite bool_decide_eq_false_2, IH.
Qed.

Lemma bracket_port_inv hp host0 rest host port : bracket_port hp host0 rest = Good (host, port) ->
  host = host0 /\ has_byte colon port = false /\ has_byte lbracket (host +:+ port) = false /\ has_byte rbracket port = false.
Proof.
  unfold bracket_port. intros H. destruct rest as [|c p]; [done|]. case_decide; [|done].
  destruct (has_byte colon p) eqn:E1; [done|]. destruct (has_byte lbracket _) eqn:E2; [done|].
  destruct (has_byte rbracket p) eqn:E3; [done|]. by injection H as -> ->.
Qed.

Lemma cut_at_spec c s x y : cut_at c s = Some (x, y) -> s = x +:+ String c y /\ has_byte c x = false.
Proof.
  revert x y. induction s as [|a s IH]; [done|]. intros x y. cbn. case_decide as Ha.
  - intros [= <- <-]. by subst.
  - destruct (cut_at c s) as [[x' y']|]; [|done]. intros [= <- <-]. destruct (IH _ _ eq_refl) as [-> H].
    split; [done|]. cbn. by rewrite bool_decide_eq_false_2.
Qed.

(** An address that can be split can be joined and split again. *)
Lemma SplitHostPort_clean hp host port : SplitHostPort hp = Good (host, port) ->
  has_byte lbracket host = false /\ has_byte rbracket host = false /\
  has_byte lbracket port = false /\ has_byte rbracket port = false /\ has_byte colon port = false.
Proof.
  unfold SplitHostPort. destruct (cut_last colon hp) as [[h p]|] eqn:Ec; [|done].
  destruct (HasPrefix hp "[") eqn:Ep.
  - destruct (cut_at rbracket hp) as [[h' rest]|] eqn:Er; [|done]. intros H.
    apply bracket_port_inv in H as (-> & Hc & Hl & Hr). rewrite has_byte_app, orb_false_iff in Hl.
    apply cut_at_spec in Er as [_ Hh]. destruct h' as [|a h']; [by destruct Hl|]. cbn in Hh.
    apply orb_false_iff in Hh as [_ Hh]. cbn [sdrop] in *. by destruct Hl.
  - destruct (has_byte colon h) eqn:E1; [done|]. destruct (has_byte lbracket hp) eqn:E2; [done|].
    destruct (has_byte rbracket hp) eqn:E3; [done|]. intros [= <- <-].
    apply cut_last_spec in Ec as [-> Hc]. rewrite has_byte_app in E2, E3. cbn in E2, E3.
    apply orb_false_iff in E2 as [? ?], E3 as [? ?]. done.
Qed.

Lemma join_dialable host port :
  host <> "" -> port <> "" -> has_byte lbracket host = false -> has_byte rbracket host = false ->
  has_byte lbracket port = false -> has_byte rbracket port = false -> has_byte colon port = false ->
  dialable (JoinHostPort host port).
Proof. intros. exists host, port. by rewrite SplitHostPort_Join. Qed.

Lemma count_byte_pos c s : has_byte c s = true -> 0 < count_byte c s.
Proof.
  induction s as [|a s IH]; [done|]. cbn. assert (0 <= count_byte c s) as Hn.
  { clear. induction s as [|a s IH]; cbn; [lia|case_decide; lia]. }
  case_decide as Ha; [lia|]. rewrite bool_decide_eq_false_2 by done. cbn. intros H. specialize (IH H). lia.
Qed.

Lemma cut_last_has c s : cut_last c s = None -> has_byte c s = false.
Proof.
  induction s as [|a s IH]; [done|]. cbn. destruct (cut_last c s) as [[]|]; [done|].
  case_decide; [done|]. intros _. by rewrite bool_decide_eq_false_2, IH.
Qed.

Lemma normalize_target_dialable is_print product dport raw target :
  dport <> "" -> has_byte lbracket dport = false -> has_byte rbracket dport = false -> has_byte colon dport = false ->
  unbracketed (TrimSpace raw) \/ (exists hp, SplitHostPort (TrimSpace raw) = Good hp) ->
  normalize_target is_print product dport raw = Good target -> dialable target.
Proof.
  unfold normalize_target. intros Hp1 Hp2 Hp3 Hp4 Hraw H. case_decide as H0; [done|].
  destruct (SplitHostPort (TrimSpace raw)) as [[host port]|err] eqn:Es.
  - case_decide; [done|]. injection H as <-. apply SplitHostPort_clean in Es as (? & ? & ? & ? & ?).
    unfold or_empty. case_decide; apply join_dialable; done.
  - destruct Hraw as [[Hl Hr]|[hp Hraw]]; [|done]. destruct (Contains err missing_port); [|done].
    unfold SplitHostPort in Es. rewrite (HasPrefix_bracket _ Hl), Hl, Hr in Es. rewrite (HasPrefix_bracket _ Hl) in H.
    destruct (cut_last colon (TrimSpace raw)) as [[h p]|] eqn:Ec.
    + destruct (has_byte colon h) eqn:Eh; [|done]. apply cut_last_spec in Ec as [Et Hp]. exfalso.
      revert H. rewrite Et, count_byte_app. cbn [count_byte]. rewrite decide_True by done.
      apply count_byte_pos in Eh. rewrite (proj2 (Z.ltb_lt _ _)) by (rewrite (count_byte_none _ p) by done; lia). done.
    + destruct ((1 <? _) && _); [done|]. injection H as <-. by apply join_dialable.
Qed.

