(* ===== verification/RedisConfig.v ===== *)
(** * Settings of the Redis check (plugins/redis/types.go, config.go)

    The settings an instance and a partial template share are one record;
    checks with the fields [warn_ge] and [critical_ge] share [GeCheck], whether
    they count, measure time or size. *)
From S2P Require Import Prelude GoStr GoLib GoConv GoFmt Types PluginConfig.
#[local] Open Scope Z_scope.
#[local] Open Scope go_scope.

(** ** Data *)
Definition pluginName : string := "redis".
Definition defaultRedisPort : string := "6379".
Definition clusterSlotsFull : Z := 16384.
Definition redisModeAuto : string := "auto".
Definition redisModeStandalone : string := "standalone".
Definition redisModeCluster : string := "cluster".

Record GeCheck := mkGe { WarnGe : Z; CriticalGe : Z }.
Record MinCountCheck := mkMin { WarnLt : Z; CriticalLt : Z }.
Record ExpectCheck := mkExpect { Expect : string; exp_Severity : string }.
Record PersistenceCheck := mkPersistence { pers_Enabled : option bool; pers_Severity : string }.
Record ClusterStateCheck := mkClusterState { cs_Disabled : option bool; cs_Severity : string }.

Record Settings := mkSettings {
  Concurrency : Z; Timeout : Z; ReadTimeout : Z; Username : string; Password : string; DB : Z;
  Mode : string; ClusterName : string; Client : ClientConfig;
  Connectivity : string;
  ResponseTime : GeCheck; Role : ExpectCheck; ReplLag : GeCheck; ConnectedClients : GeCheck; BlockedClients : GeCheck;
  UsedMemory : GeCheck; UsedMemoryPct : GeCheck; RejectedConn : GeCheck; MasterLink : ExpectCheck;
  ConnectedSlaves : MinCountCheck; EvictedKeys : GeCheck; ExpiredKeys : GeCheck; OpsPerSecond : GeCheck;
  Persistence : PersistenceCheck; ClusterState : ClusterStateCheck; ClusterTopology : option bool
}.

Record redisCounterSnapshot := mkSnapshot { evictedKeys : Z; expiredKeys : Z; rejectedConn : Z }.

(** [inFlight] maps a target to the time its check started. *)
Record Instance := mkInstance {
  ins_Partial : string; Targets : list string; settings : Settings;
  prevStats : gmap string redisCounterSnapshot; initialized : gset string;
  inFlight : gmap string Z; prevHung : gset string
}.

Definition set_settings (s : Settings) (ins : Instance) : Instance :=
  mkInstance (ins_Partial ins) (Targets ins) s (prevStats ins) (initialized ins) (inFlight ins) (prevHung ins).

(** ** Templates *)
Definition mergeCountCheck (dst src : GeCheck) : GeCheck :=
  mkGe (or_zero (WarnGe dst) (WarnGe src)) (or_zero (CriticalGe dst) (CriticalGe src)).
Definition mergeMinCountCheck (dst src : MinCountCheck) : MinCountCheck :=
  mkMin (or_zero (WarnLt dst) (WarnLt src)) (or_zero (CriticalLt dst) (CriticalLt src)).
Definition mergeRoleCheck (dst src : ExpectCheck) : ExpectCheck :=
  mkExpect (or_empty (Expect dst) (Expect src)) (or_empty (exp_Severity dst) (exp_Severity src)).
Definition mergePersistenceCheck (dst src : PersistenceCheck) : PersistenceCheck :=
  mkPersistence (or_nil (pers_Enabled dst) (pers_Enabled src)) (or_empty (pers_Severity dst) (pers_Severity src)).
Definition mergeClusterStateCheck (dst src : ClusterStateCheck) : ClusterStateCheck :=
  mkClusterState (or_nil (cs_Disabled dst) (cs_Disabled src)) (or_empty (cs_Severity dst) (cs_Severity src)).
Definition merge_settings (dst src : Settings) : Settings :=
  mkSettings (or_zero (Concurrency dst) (Concurrency src)) (or_zero (Timeout dst) (Timeout src))
    (or_zero (ReadTimeout dst) (ReadTimeout src)) (or_empty (Username dst) (Username src))
    (or_empty (Password dst) (Password src)) (or_zero (DB dst) (DB src)) (or_empty (Mode dst) (Mode src))
    (or_empty (ClusterName dst) (ClusterName src)) (mergeClientConfig (Client dst) (Client src))
    (or_empty (Connectivity dst) (Connectivity src)) (mergeCountCheck (ResponseTime dst) (ResponseTime src))
    (mergeRoleCheck (Role dst) (Role src)) (mergeCountCheck (ReplLag dst) (ReplLag src))
    (mergeCountCheck (ConnectedClients dst) (ConnectedClients src))
    (mergeCountCheck (BlockedClients dst) (BlockedClients src)) (mergeCountCheck (UsedMemory dst) (UsedMemory src))
    (mergeCountCheck (UsedMemoryPct dst) (UsedMemoryPct src)) (mergeCountCheck (RejectedConn dst) (RejectedConn src))
    (mergeRoleCheck (MasterLink dst) (MasterLink src)) (mergeMinCountCheck (ConnectedSlaves dst) (ConnectedSlaves src))
    (mergeCountCheck (EvictedKeys dst) (EvictedKeys src)) (mergeCountCheck (ExpiredKeys dst) (ExpiredKeys src))
    (mergeCountCheck (OpsPerSecond dst) (OpsPerSecond src)) (mergePersistenceCheck (Persistence dst) (Persistence src))
    (mergeClusterStateCheck (ClusterState dst) (ClusterState src)) (or_nil (ClusterTopology dst) (ClusterTopology src)).

(** The loops are those of [PluginConfig.apply_partials]. *)
Definition merge_into (partial : Settings) (ins : Instance) : Instance :=
  set_settings (merge_settings (settings ins) partial) ins.
Definition ApplyPartials (is_print : Z -> bool) : list (Partial Settings) -> list Instance -> option string * list Instance :=
  apply_partials is_print pluginName merge_into ins_Partial.

(** ** Validation *)
Definition normalizeTarget (is_print : Z -> bool) : string -> res string string :=
  normalize_target is_print pluginName defaultRedisPort.

Definition clusterStateEnabled (s : Settings) : bool := negb (default false (cs_Disabled (ClusterState s))).
Definition clusterTopologyEnabled (s : Settings) : bool := negb (default false (ClusterTopology s)).
Definition persistenceEnabled (s : Settings) : bool := default false (pers_Enabled (Persistence s)).

Section init.
Variable is_print : Z -> bool.
(** [ClientConfig.TLSConfig] of pkg/tls; the certificates are files. *)
Variable tls_config : ClientConfig -> option string.

Definition normalizeMasterLinkStatus (status : string) : res string string :=
  let status := ToLower (TrimSpace status) in
  if decide (status = "") then Good ""
  else if bool_decide (status ∈ ["up"; "down"]) then Good status
  else Bad ("invalid master_link_status.expect " +:+ Quote is_print status +:+ ", must be one of: up, down").

Definition normalizeRedisMode (mode : string) : res string string :=
  let mode := ToLower (TrimSpace mode) in
  if bool_decide (mode ∈ [""; redisModeAuto]) then Good redisModeAuto
  else if bool_decide (mode ∈ [redisModeStandalone; redisModeCluster]) then Good mode
  else Bad ("invalid mode " +:+ Quote is_print mode +:+ ", must be one of: auto, standalone, cluster").

Definition normalizeRole (role : string) : res string string :=
  let role := ToLower (TrimSpace role) in
  if decide (role = "") then Good ""
  else if decide (role = "master") then Good "master"
  else if bool_decide (role ∈ ["slave"; "replica"]) then Good "slave"
  else Bad ("invalid role.expect " +:+ Quote is_print role +:+ ", must be one of: master, slave, replica").

(** Both thresholds set and in the wrong order. *)
Definition misordered (c : GeCheck) : bool :=
  (0 <? WarnGe c) && (0 <? CriticalGe c) && (CriticalGe c <=? WarnGe c).

Definition misordered_error (show : Z -> string) (name : string) (c : GeCheck) : string :=
  name +:+ ".warn_ge(" +:+ show (WarnGe c) +:+ ") must be less than " +:+ name +:+ ".critical_ge("
  +:+ show (CriticalGe c) +:+ ")".

Definition check_order (show : Z -> string) (name : string) (c : GeCheck) : res string unit :=
  if misordered c then Bad (misordered_error show name c) else Good tt.

Definition validateCountCheck (name : string) (c : GeCheck) : res string unit :=
  _ ←! check_nonneg name (WarnGe c) (CriticalGe c); check_order itoa name c.

Definition validateMinCountCheck (name : string) (c : MinCountCheck) : res string unit :=
  _ ←! check_nonneg name (WarnLt c) (CriticalLt c);
  if (0 <? WarnLt c) && (0 <? CriticalLt c) && (WarnLt c <=? CriticalLt c)
  then Bad (name +:+ ".warn_lt(" +:+ itoa (WarnLt c) +:+ ") must be greater than " +:+ name +:+ ".critical_lt("
            +:+ itoa (CriticalLt c) +:+ ")")
  else Good tt.

Definition validatePercentCheck (name : string) (c : GeCheck) : res string unit :=
  _ ←! check_nonneg name (WarnGe c) (CriticalGe c);
  if (100 <? WarnGe c) || (100 <? CriticalGe c) then Bad (name +:+ " thresholds must be <= 100")
  else check_order itoa name c.

Definition expect_or (name : string) (c : ExpectCheck) (expect : string) : res string ExpectCheck :=
  if decide (expect = "") then Good (mkExpect "" (exp_Severity c))
  else sev ←! severity_or is_print EventStatusWarning name (exp_Severity c); Good (mkExpect expect sev).

Fixpoint normalize_targets (targets : list string) : res string (list string) :=
  match targets with
  | [] => Good []
  | t :: targets' => t ←! normalizeTarget is_print t; l ←! normalize_targets targets'; Good (t :: l)
  end.

(** [Init]; the instance is dropped when it fails. *)
Definition Init (ins : Instance) : res string Instance :=
  let s := settings ins in
  mode ←! normalizeRedisMode (Mode s);
  connectivity ←! severity_or is_print EventStatusCritical "connectivity.severity" (Connectivity s);
  _ ←! check_order Duration_String "response_time" (ResponseTime s);
  roleExpect ←! normalizeRole (Expect (Role s));
  role ←! expect_or "role.severity" (Role s) roleExpect;
  _ ←! check_nonneg "repl_lag" (WarnGe (ReplLag s)) (CriticalGe (ReplLag s));
  _ ←! check_order Size_String "repl_lag" (ReplLag s);
  _ ←! validateCountCheck "connected_clients" (ConnectedClients s);
  _ ←! validateCountCheck "blocked_clients" (BlockedClients s);
  _ ←! validateCountCheck "rejected_connections" (RejectedConn s);
  _ ←! validateMinCountCheck "connected_slaves" (ConnectedSlaves s);
  _ ←! validateCountCheck "evicted_keys" (EvictedKeys s);
  _ ←! validateCountCheck "expired_keys" (ExpiredKeys s);
  _ ←! validateCountCheck "instantaneous_ops_per_sec" (OpsPerSecond s);
  _ ←! check_nonneg "used_memory" (WarnGe (UsedMemory s)) (CriticalGe (UsedMemory s));
  _ ←! check_order Size_String "used_memory" (UsedMemory s);
  _ ←! validatePercentCheck "used_memory_pct" (UsedMemoryPct s);
  linkExpect ←! normalizeMasterLinkStatus (Expect (MasterLink s));
  link ←! expect_or "master_link_status.severity" (MasterLink s) linkExpect;
  persistence ←! (if persistenceEnabled s
                  then severity_or is_print EventStatusCritical "persistence.severity" (pers_Severity (Persistence s))
                  else Good (pers_Severity (Persistence s)));
  state ←! (if negb (bool_decide (mode = redisModeStandalone)) && clusterStateEnabled s
            then severity_or is_print EventStatusCritical "cluster_state.severity" (cs_Severity (ClusterState s))
            else Good (cs_Severity (ClusterState s)));
  _ ←! (if negb (bool_decide (Username s = "")) && bool_decide (Password s = "")
        then Bad "password must not be empty when username is set" else Good tt);
  _ ←! (if DB s <? 0 then Bad ("db must be >= 0 (got " +:+ itoa (DB s) +:+ ")") else Good tt);
  targets ←! normalize_targets (Targets ins);
  _ ←! (match tls_config (Client s) with
        | Some err => Bad ("failed to build redis TLS config: " +:+ err) | None => Good tt end);
  Good (mkInstance (ins_Partial ins) targets
    (mkSettings (or_zero (Concurrency s) 10) (or_zero (Timeout s) (3 * Second)) (or_zero (ReadTimeout s) (2 * Second))
       (Username s) (Password s) (DB s) mode (ClusterName s) (Client s) connectivity (ResponseTime s) role (ReplLag s)
       (ConnectedClients s) (BlockedClients s) (UsedMemory s) (UsedMemoryPct s) (RejectedConn s) link
       (ConnectedSlaves s) (EvictedKeys s) (ExpiredKeys s) (OpsPerSecond s)
       (mkPersistence (pers_Enabled (Persistence s)) persistence)
       (mkClusterState (cs_Disabled (ClusterState s)) state) (ClusterTopology s))
    (prevStats ins) (initialized ins) (inFlight ins) (prevHung ins)).
End init.

(** ** Lemmas *)

Lemma expect_or_valid is_print name c expect c' :
  expect_or is_print name c expect = Good c' ->
  Expect c' = expect /\ (expect <> "" -> EventStatusValid (exp_Severity c') = true).
Proof.
  unfold expect_or. case_decide as H; [by intros [= <-]|]. intros Hc. res_inv Hc. injection Hc as <-.
  split; [done|]. intros _. by eapply severity_or_valid in E.
Qed.

Lemma normalizeRole_values is_print role r : normalizeRole is_print role = Good r -> r ∈ [""; "master"; "slave"].
Proof. unfold normalizeRole. intros H. case_hyps; set_solver. Qed.

Lemma normalizeRedisMode_values is_print mode m :
  normalizeRedisMode is_print mode = Good m -> m ∈ [redisModeAuto; redisModeStandalone; redisModeCluster].
Proof.
  unfold normalizeRedisMode. case_bool_decide; [intros [= <-]; set_solver|].
  case_bool_decide; [intros [= <-]; set_solver|done].
Qed.

Lemma normalizeMasterLinkStatus_values is_print status r :
  normalizeMasterLinkStatus is_print status = Good r -> r ∈ [""; "up"; "down"].
Proof.
  unfold normalizeMasterLinkStatus. case_decide; [intros [= <-]; set_solver|].
  case_bool_decide; [intros [= <-]; set_solver|done].
Qed.

(** Thresholds that are not negative, in order when both are set. *)
Definition ordered (c : GeCheck) : Prop :=
  0 < WarnGe c -> 0 < CriticalGe c -> WarnGe c < CriticalGe c.
Definition count_ok (c : GeCheck) : Prop := 0 <= WarnGe c /\ 0 <= CriticalGe c /\ ordered c.
Definition min_ok (c : MinCountCheck) : Prop :=
  0 <= WarnLt c /\ 0 <= CriticalLt c /\ (0 < WarnLt c -> 0 < CriticalLt c -> CriticalLt c < WarnLt c).

Lemma check_order_ordered show name c u : check_order show name c = Good u -> ordered c.
Proof.
  unfold check_order, misordered, ordered. intros H Hw Hc. rewrite (proj2 (Z.ltb_lt _ _) Hw), (proj2 (Z.ltb_lt _ _) Hc) in H.
  cbn in H. destruct (Z.leb_spec (CriticalGe c) (WarnGe c)); [done|lia].
Qed.

Lemma validateCountCheck_ok name c u : validateCountCheck name c = Good u -> count_ok c.
Proof. intros H. res_inv H. apply check_nonneg_ok in E. apply check_order_ordered in H. unfold count_ok. tauto. Qed.

Lemma validatePercentCheck_ok name c u :
  validatePercentCheck name c = Good u -> count_ok c /\ WarnGe c <= 100 /\ CriticalGe c <= 100.
Proof.
  intros H. res_inv H. apply check_nonneg_ok in E. destruct (_ || _) eqn:E2; [done|]. apply check_order_ordered in H. zbool.
  unfold count_ok. split_and!; try tauto; lia.
Qed.

Lemma validateMinCountCheck_ok name c u : validateMinCountCheck name c = Good u -> min_ok c.
Proof.
  intros H. res_inv H. apply check_nonneg_ok in E. unfold min_ok.
  destruct (Z.ltb_spec 0 (WarnLt c)), (Z.ltb_spec 0 (CriticalLt c)), (Z.leb_spec (WarnLt c) (CriticalLt c));
    cbn in H; try done; lia.
Qed.

Lemma normalize_targets_dialable is_print targets l :
  Forall (fun raw => unbracketed (TrimSpace raw) \/ exists hp, SplitHostPort (TrimSpace raw) = Good hp) targets ->
  normalize_targets is_print targets = Good l -> length l = length targets /\ Forall dialable l.
Proof.
  revert l. induction targets as [|t targets IH]; intros l Hall H; cbn in H; [by injection H as <-|].
  apply Forall_cons in Hall as [Ht Hall]. res_inv H. injection H as <-.
  destruct (IH _ Hall E0) as [Hl Hd]. split; [cbn; by rewrite Hl|]. constructor; [|done].
  by eapply (normalize_target_dialable is_print pluginName defaultRedisPort t).
Qed.

(** ** What an accepted instance guarantees *)
Record settings_ok (s : Settings) : Prop := {
  ok_mode : Mode s ∈ [redisModeAuto; redisModeStandalone; redisModeCluster];
  ok_rest : Concurrency s <> 0 /\ Timeout s <> 0 /\ ReadTimeout s <> 0 /\ 0 <= DB s /\
    (Username s <> "" -> Password s <> "");
  ok_connectivity : EventStatusValid (Connectivity s) = true;
  ok_role : Expect (Role s) ∈ [""; "master"; "slave"] /\
    (Expect (Role s) <> "" -> EventStatusValid (exp_Severity (Role s)) = true);
  ok_link : Expect (MasterLink s) ∈ [""; "up"; "down"] /\
    (Expect (MasterLink s) <> "" -> EventStatusValid (exp_Severity (MasterLink s)) = true);
  ok_persistence : persistenceEnabled s = true -> EventStatusValid (pers_Severity (Persistence s)) = true;
  ok_state : Mode s <> redisModeStandalone -> clusterStateEnabled s = true ->
    EventStatusValid (cs_Severity (ClusterState s)) = true;
  ok_counts : Forall count_ok [ReplLag s; ConnectedClients s; BlockedClients s; RejectedConn s; EvictedKeys s;
    ExpiredKeys s; OpsPerSecond s; UsedMemory s; UsedMemoryPct s];
  ok_response : ordered (ResponseTime s);
  ok_percent : WarnGe (UsedMemoryPct s) <= 100 /\ CriticalGe (UsedMemoryPct s) <= 100;
  ok_slaves : min_ok (ConnectedSlaves s)
}.

(** An instance that is accepted has defaults for what was missing, known
    statuses wherever one is used, thresholds in order, and targets that can be
    dialled (unless brackets stand around an address without a port). *)
Theorem Init_sound is_print tls_config ins ins' :
  Init is_print tls_config ins = Good ins' ->
  settings_ok (settings ins') /\
  (Forall (fun raw => unbracketed (TrimSpace raw) \/ exists hp, SplitHostPort (TrimSpace raw) = Good hp) (Targets ins) ->
   length (Targets ins') = length (Targets ins) /\ Forall dialable (Targets ins')).
Proof.
  unfold Init. intros H. res_inv H. injection H as <-. split; [|intros; by eapply normalize_targets_dialable].
  repeat match goal with
  | E : check_nonneg _ _ _ = Good _ |- _ => apply check_nonneg_ok in E
  | E : check_order _ _ _ = Good _ |- _ => apply check_order_ordered in E
  | E : validateCountCheck _ _ = Good _ |- _ => apply validateCountCheck_ok in E
  | E : validatePercentCheck _ _ = Good _ |- _ => apply validatePercentCheck_ok in E as (? & ? & ?)
  | E : validateMinCountCheck _ _ = Good _ |- _ => apply validateMinCountCheck_ok in E
  | E : normalizeRole _ _ = Good _ |- _ => apply normalizeRole_values in E
  | E : normalizeRedisMode _ _ = Good _ |- _ => apply normalizeRedisMode_values in E
  | E : normalizeMasterLinkStatus _ _ = Good _ |- _ => apply normalizeMasterLinkStatus_values in E
  | E : expect_or _ _ _ _ = Good _ |- _ => apply expect_or_valid in E as [<- ?]
  | E : (if ?b then Bad _ else Good tt) = Good _ |- _ => destruct b eqn:?; [done|]; clear E
  end.
  constructor; cbn [settings Mode Concurrency Timeout ReadTimeout DB Username Password Connectivity Role Expect
    MasterLink Persistence ClusterState ReplLag ConnectedClients BlockedClients RejectedConn EvictedKeys ExpiredKeys
    OpsPerSecond UsedMemory UsedMemoryPct ResponseTime ConnectedSlaves pers_Severity cs_Severity]; try done.
  - split_and!; try (by apply or_zero_nonzero).
    + by apply Z.ltb_ge.
    + intros Hu Hp. match goal with H : _ && _ = false |- _ =>
        rewrite bool_decide_eq_false_2, bool_decide_eq_true_2 in H by done end. done.
  - eapply severity_or_valid; [|eassumption]. done.
  - intros Hp. change (persistenceEnabled (settings ins) = true) in Hp. rewrite Hp in *.
    eapply severity_or_valid; [|eassumption]; done.
  - intros Hm Hs. change (clusterStateEnabled (settings ins) = true) in Hs.
    rewrite Hs, bool_decide_eq_false_2 in * by done. cbn [negb andb] in *.
    eapply severity_or_valid; [|eassumption]; done.
  - unfold count_ok in *. rewrite !Forall_cons. split_and!; try tauto. by apply Forall_nil.
Qed.

(** ** A redis check with a template *)
Definition no_ge : GeCheck := mkGe 0 0.
Definition no_client : ClientConfig := mkClientConfig None "" "" "" "" None "" "" "".
Definition ex_settings : Settings :=
  mkSettings 0 0 0 "" "" 0 "Auto" "" no_client "" no_ge (mkExpect "replica" "") no_ge (mkGe 100 200) no_ge no_ge
    (mkGe 80 90) no_ge (mkExpect "" "") (mkMin 0 0) no_ge no_ge no_ge (mkPersistence None "") (mkClusterState None "") None.
Definition ex_instance : Instance := mkInstance "" ["10.0.0.1"; "db:6380"] ex_settings ∅ ∅ ∅ ∅.
Definition init_result : Instance :=
  match Init (fun _ => false) (fun _ => None) ex_instance with Good i => i | Bad _ => ex_instance end.

Lemma Init_sound_witness :
  settings_ok (settings init_result) /\ Forall dialable (Targets init_result).
Proof.
  destruct (Init_sound (fun _ => false) (fun _ => None) ex_instance init_result) as [Hs Ht].
  - vm_compute. reflexivity.
  - split; [exact Hs|]. apply Ht. repeat constructor; left; split; vm_compute; reflexivity.
Defined.

(** An IPv6 address in brackets without a port is wrapped in brackets again, and
    the result is no address. *)
Theorem bracketed_target_broken :
  normalizeTarget (fun _ => false) "[::1]" = Good "[[::1]]:6379" /\
  forall hp, SplitHostPort "[[::1]]:6379" <> Good hp.
Proof. split; [vm_compute; reflexivity|]. intros hp. vm_compute. discriminate. Qed.
