(* ===== verification/RedisChecks.v ===== *)
(** * The checks of the Redis plugin (plugins/redis/checks.go, cluster.go)

    A check takes what INFO said and gives the events it pushes, in order.
    [visit] is the order in which Go iterates over a map. *)
From S2P Require Import Prelude GoStr GoLib GoConv GoFmt GoIo Types Pushing Resp PluginConfig RedisConfig.
#[local] Open Scope Z_scope.
#[local] Open Scope go_scope.

Definition newEvent (ins : Instance) (check target : string) : Event :=
  BuildEvent [attrs_of ([("check", check); ("target", target)]
    ++ if decide (ClusterName (settings ins) = "") then [] else [("cluster_name", ClusterName (settings ins))])].

(** The [switch] on the status of a value. *)
Definition by_status (e : Event) (status crit warn ok : string) : Event :=
  if decide (status = EventStatusCritical) then critical e crit
  else if decide (status = EventStatusWarning) then SetDescription (SetEventStatus e EventStatusWarning) warn
  else SetDescription e ok.

Definition ge_desc (show : Z -> string) (c : GeCheck) : string :=
  Join ((if 0 <? WarnGe c then ["Warning ≥ " +:+ show (WarnGe c)] else [])
        ++ (if 0 <? CriticalGe c then ["Critical ≥ " +:+ show (CriticalGe c)] else [])) ", ".

(** [uint64(z)] of an [int64]. *)
Definition human (z : Z) : string := HumanBytes (u64 z).

Definition ge_status (value : Z) (c : GeCheck) : string :=
  EvaluateGeThreshold (f64_of_Z value) (f64_of_Z (WarnGe c)) (f64_of_Z (CriticalGe c)).

Section checks.
Variable is_print : Z -> bool.
Variable visit : gmap string string -> list (string * string).
Variable ins : Instance.
Variable target : string.
Notation s := (settings ins).

Definition checkResponseTime (responseTime : Z) : list Event :=
  let c := ResponseTime s in
  if (WarnGe c =? 0) && (CriticalGe c =? 0) then []
  else
    let shown := Duration_String responseTime in
    let event := SetCurrentValue (SetAttrs (newEvent ins "redis::response_time" target)
      (attrs_of [("response_time", shown); ("threshold_desc", ge_desc Duration_String c)])) shown in
    [by_status event (ge_status responseTime c)
       ("redis response time " +:+ shown +:+ " >= critical threshold " +:+ Duration_String (CriticalGe c))
       ("redis response time " +:+ shown +:+ " >= warning threshold " +:+ Duration_String (WarnGe c))
       ("redis response time " +:+ shown +:+ ", everything is ok")].

Definition checkRole (info : gmap string string) : list Event :=
  let event := newEvent ins "redis::role" target in
  match info !! "role" with
  | None => [critical event "redis info output missing role"]
  | Some role =>
    let actual := ToLower (TrimSpace role) in
    let c := Role s in
    let event := SetCurrentValue (SetAttrs event
      (attrs_of [("actual", actual); ("expect", Expect c);
                 ("threshold_desc", exp_Severity c +:+ ": role ≠ " +:+ Expect c)])) actual in
    if decide (actual = Expect c)
    then [SetDescription event ("redis role is " +:+ actual +:+ ", matches expectation")]
    else [SetDescription (SetEventStatus event (exp_Severity c))
            ("redis role is " +:+ actual +:+ ", expected " +:+ Expect c)]
  end.

(** The field, under its own name, when it is there and [ok]. *)
Definition optional_attr (info : gmap string string) (ok : string -> bool) (key : string) : list (string * string) :=
  match info !! key with Some v => if ok v then [(key, v)] else [] | None => [] end.
Definition nonempty (v : string) : bool := negb (bool_decide (v = "")).

Definition checkMasterLink (info : gmap string string) : list Event :=
  let event := newEvent ins "redis::master_link_status" target in
  let c := MasterLink s in
  match info !! "master_link_status" with
  | None => [SetDescription (SetEventStatus event (exp_Severity c)) "redis replication info missing master_link_status"]
  | Some status =>
    let actual := ToLower (TrimSpace status) in
    let event := SetCurrentValue (SetAttrs event
      (attrs_of ([("threshold_desc", exp_Severity c +:+ ": master link status does not match expected")]
         ++ optional_attr info (fun _ => true) "role" ++ [("actual", actual); ("expect", Expect c)]
         ++ optional_attr info nonempty "master_host" ++ optional_attr info nonempty "master_port"))) actual in
    if decide (actual = Expect c)
    then [SetDescription event ("redis master link status is " +:+ actual +:+ ", matches expectation")]
    else [SetDescription (SetEventStatus event (exp_Severity c))
            ("redis master link status is " +:+ actual +:+ ", expected " +:+ Expect c)]
  end.

Definition checkCount (check : string) (value : Z) (c : GeCheck) (metricName : string) : list Event :=
  let event := SetCurrentValue (SetAttrs (newEvent ins check target)
    (attrs_of [("threshold_desc", ge_desc itoa c); (TrimPrefix check "redis::", itoa value)])) (itoa value) in
  let shown := "redis " +:+ metricName +:+ " " +:+ itoa value in
  [by_status event (ge_status value c)
     (shown +:+ " >= critical threshold " +:+ itoa (CriticalGe c))
     (shown +:+ " >= warning threshold " +:+ itoa (WarnGe c))
     (shown +:+ ", everything is ok")].

(** A number of INFO, or the event that says why there is none. *)
Definition from_info (check key : string) (r : res string (option Z)) (f : Z -> list Event) : list Event :=
  match r with
  | Bad err => [critical (newEvent ins check target) ("failed to parse redis " +:+ key +:+ ": " +:+ err)]
  | Good None => [critical (newEvent ins check target) ("redis info output missing " +:+ key)]
  | Good (Some value) => f value
  end.

Definition checkCountFromInfo (check : string) (info : gmap string string) (key : string) (c : GeCheck)
    (metricName : string) : list Event :=
  from_info check key (infoGetInt is_print info key) (fun value => checkCount check value c metricName).

Definition checkMinCount (check : string) (value : Z) (c : MinCountCheck) (metricName : string) : list Event :=
  let desc := Join ((if 0 <? WarnLt c then ["Warning < " +:+ itoa (WarnLt c)] else [])
                    ++ (if 0 <? CriticalLt c then ["Critical < " +:+ itoa (CriticalLt c)] else [])) ", " in
  let event := SetCurrentValue (SetAttrs (newEvent ins check target)
    (attrs_of [("threshold_desc", desc); (TrimPrefix check "redis::", itoa value)])) (itoa value) in
  let shown := "redis " +:+ metricName +:+ " " +:+ itoa value in
  if (0 <? CriticalLt c) && (value <? CriticalLt c)
  then [critical event (shown +:+ " < critical threshold " +:+ itoa (CriticalLt c))]
  else if (0 <? WarnLt c) && (value <? WarnLt c)
  then [SetDescription (SetEventStatus event EventStatusWarning) (shown +:+ " < warning threshold " +:+ itoa (WarnLt c))]
  else [SetDescription event (shown +:+ ", everything is ok")].

Definition checkMinCountFromInfo (check : string) (info : gmap string string) (key : string) (c : MinCountCheck)
    (metricName : string) : list Event :=
  from_info check key (infoGetInt is_print info key) (fun value => checkMinCount check value c metricName).

(** ** Replication lag *)
Fixpoint replica_offset (fields : list string) : option string :=
  match fields with
  | [] => None
  | field :: fields' =>
    match cut_at "="%char (TrimSpace field) with
    | Some (name, value) => if decide (name = "offset") then Some value else replica_offset fields'
    | None => replica_offset fields'
    end
  end.

(** The lags of the replicas in the order of the fields, or the first error. *)
Fixpoint replica_lags (fields : list (string * string)) (masterOffset : Z) : res string (list Z) :=
  match fields with
  | [] => Good []
  | (key, value) :: fields' =>
    if negb (HasPrefix key "slave") then replica_lags fields' masterOffset
    else
      match replica_offset (split_on ","%char value) with
      | None => replica_lags fields' masterOffset
      | Some text =>
        match ParseInt text with
        | Bad err => Bad ("parse " +:+ key +:+ " offset: " +:+ NumError is_print "ParseInt" text err)
        | Good offset =>
          match replica_lags fields' masterOffset with
          | Good lags => Good ((if masterOffset ⊟ offset <? 0 then 0 else masterOffset ⊟ offset) :: lags)
          | Bad err => Bad err
          end
        end
      end
  end.

Definition maxReplicaLagFromMaster (info : gmap string string) (masterOffset : Z) : res string (Z * Z) :=
  match replica_lags (visit info) masterOffset with
  | Good lags => Good (fold_left Z.max lags 0, zlen lags)
  | Bad err => Bad err
  end.

(** A field that has to be there. *)
Definition need (info : gmap string string) (key : string) : res string Z :=
  match infoGetInt64 is_print info key with
  | Bad err => Bad ("parse " +:+ key +:+ ": " +:+ err)
  | Good None => Bad ("redis replication info missing " +:+ key)
  | Good (Some n) => Good n
  end.

Definition calculateReplicationLag (info : gmap string string)
  : res string (Z * string * list (string * string)) :=
  let role := ToLower (TrimSpace (default "" (info !! "role"))) in
  if bool_decide (role ∈ ["slave"; "replica"]) then
    res_bind (need info "master_repl_offset") (fun masterOffset =>
    res_bind (need info "slave_repl_offset") (fun slaveOffset =>
      let lag := if masterOffset ⊟ slaveOffset <? 0 then 0 else masterOffset ⊟ slaveOffset in
      Good (lag, "redis replication lag " +:+ human lag +:+ ", everything is ok",
        [("master_repl_offset", itoa masterOffset); ("slave_repl_offset", itoa slaveOffset)])))
  else if decide (role = "master") then
    res_bind (need info "master_repl_offset") (fun masterOffset =>
      match infoGetInt is_print info "connected_slaves" with
      | Bad err => Bad ("parse connected_slaves: " +:+ err)
      | Good slaves =>
        let connectedSlaves := default 0 slaves in
        res_bind (maxReplicaLagFromMaster info masterOffset) (fun '(maxLag, replicas) =>
          if (replicas =? 0) || (connectedSlaves =? 0) then
            Good (-1, "redis replication lag skipped: no connected replicas",
              [("master_repl_offset", itoa masterOffset); ("connected_slaves", itoa connectedSlaves)])
          else
            Good (maxLag, "redis replication lag max " +:+ human maxLag +:+ " across " +:+ itoa replicas
                    +:+ " replicas, everything is ok",
              [("master_repl_offset", itoa masterOffset); ("replica_count", itoa replicas)]))
      end)
  else Bad ("unsupported redis role " +:+ Quote is_print role +:+ " for replication lag").

Definition checkReplLag (info : gmap string string) : list Event :=
  let event := newEvent ins "redis::repl_lag" target in
  let role := ToLower (TrimSpace (default "" (info !! "role"))) in
  let c := ReplLag s in
  if decide (role = "") then [critical event "redis replication info missing role"]
  else
    match calculateReplicationLag info with
    | Bad err => [critical event ("failed to evaluate redis replication lag: " +:+ err)]
    | Good (lag, desc, attrs) =>
      if lag <? 0 then
        [SetDescription (SetAttrs event (attrs_of (attrs ++ [("role", role);
           ("threshold_desc", "Warning ≥ " +:+ Size_String (WarnGe c) +:+ ", Critical ≥ " +:+ Size_String (CriticalGe c))])))
           desc]
      else
        let event := SetCurrentValue (SetAttrs event (attrs_of (attrs ++
          [("role", role); ("repl_lag_bytes", itoa lag); ("repl_lag", human lag);
           ("threshold_desc", ge_desc Size_String c)]))) (human lag) in
        [by_status event (ge_status lag c)
           ("redis replication lag " +:+ human lag +:+ " >= critical threshold " +:+ Size_String (CriticalGe c))
           ("redis replication lag " +:+ human lag +:+ " >= warning threshold " +:+ Size_String (WarnGe c))
           desc]
    end.

(** ** Counters *)
Definition enabled (c : GeCheck) : bool := (0 <? WarnGe c) || (0 <? CriticalGe c).

(** [strconv.FormatUint] prints as [itoa] does. *)
Definition checkDeltaCount (check : string) (delta total : Z) (c : GeCheck) (metricName : string) : list Event :=
  let event := SetCurrentValue (SetAttrs (newEvent ins check target)
    (attrs_of [("delta", itoa delta); ("total", itoa total); ("threshold_desc", ge_desc itoa c)])) (itoa delta) in
  let shown := "redis " +:+ metricName +:+ " delta " +:+ itoa delta in
  [by_status event (ge_status delta c)
     (shown +:+ " >= critical threshold " +:+ itoa (CriticalGe c))
     (shown +:+ " >= warning threshold " +:+ itoa (WarnGe c))
     (shown +:+ ", everything is ok")].

(** A counter that is checked; one that is not stays 0. *)
Definition read_counter (info : gmap string string) (c : GeCheck) (check key : string) : res (list Event) Z :=
  if negb (enabled c) then Good 0
  else
    match infoGetUint64 is_print info key with
    | Bad err => Bad [critical (newEvent ins check target) ("failed to parse redis " +:+ key +:+ ": " +:+ err)]
    | Good None => Bad [critical (newEvent ins check target) ("redis info output missing " +:+ key)]
    | Good (Some value) => Good value
    end.

(** A counter that went back has been reset. *)
Definition counter_delta (now prev : Z) : Z := if prev <=? now then now - prev else 0.

Definition baseline_event (check metricName : string) (total : Z) : Event :=
  SetDescription (SetAttrs (newEvent ins check target) (attrs_of [("delta", "0"); ("total", itoa total)]))
    ("redis " +:+ metricName +:+ " baseline established (total: " +:+ itoa total +:+ ")").

(** The event of one counter: the baseline at first, the change later. *)
Definition counter_event (check metricName : string) (c : GeCheck) (prev : option Z) (now : Z) : list Event :=
  if negb (enabled c) then []
  else
    match prev with
    | None => [baseline_event check metricName now]
    | Some p => checkDeltaCount check (counter_delta now p) now c metricName
    end.

Definition set_counters (snap : redisCounterSnapshot) : Instance :=
  mkInstance (ins_Partial ins) (Targets ins) s (<[target := snap]> (prevStats ins)) ({[target]} ∪ initialized ins)
    (inFlight ins) (prevHung ins).

Definition checkCounterDeltas (info : gmap string string) : list Event * Instance :=
  match read_counter info (EvictedKeys s) "redis::evicted_keys" "evicted_keys" with
  | Bad evs => (evs, ins)
  | Good evicted =>
    match read_counter info (ExpiredKeys s) "redis::expired_keys" "expired_keys" with
    | Bad evs => (evs, ins)
    | Good expired =>
      match read_counter info (RejectedConn s) "redis::rejected_connections" "rejected_connections" with
      | Bad evs => (evs, ins)
      | Good rejected =>
        let prev := default (mkSnapshot 0 0 0) (prevStats ins !! target) in
        let known (p : Z) := if bool_decide (target ∈ initialized ins) then Some p else None in
        (counter_event "redis::evicted_keys" "evicted keys" (EvictedKeys s) (known (evictedKeys prev)) evicted
         ++ counter_event "redis::expired_keys" "expired keys" (ExpiredKeys s) (known (expiredKeys prev)) expired
         ++ counter_event "redis::rejected_connections" "rejected connections" (RejectedConn s)
              (known (rejectedConn prev)) rejected,
         set_counters (mkSnapshot evicted expired rejected))
      end
    end
  end.

(** ** Memory *)
Definition percent_of (used max : Z) : f64 := f64_div (f64_mul (f64_of_Z used) (f64_of_Z 100)) (f64_of_Z max).
Definition percent_text (p : f64) : string := FormatFixed 1 p +:+ "%".

Definition checkUsedMemory (info : gmap string string) : list Event :=
  let c := UsedMemory s in
  from_info "redis::used_memory" "used_memory" (infoGetInt64 is_print info "used_memory") (fun usedMemory =>
    let max_attrs :=
      match infoGetInt64 is_print info "maxmemory" with
      | Good (Some maxmemory) =>
        if 0 <? maxmemory then
          [("maxmemory", human maxmemory); ("maxmemory_bytes", itoa maxmemory);
           ("used_percent_of_maxmemory", percent_text (percent_of usedMemory maxmemory))]
        else []
      | _ => []
      end in
    let event := SetCurrentValue (SetAttrs (newEvent ins "redis::used_memory" target)
      (attrs_of ([("used_memory", human usedMemory); ("used_memory_bytes", itoa usedMemory);
                  ("threshold_desc", ge_desc Size_String c)] ++ max_attrs))) (human usedMemory) in
    let shown := "redis used memory " +:+ human usedMemory in
    [by_status event (ge_status usedMemory c)
       (shown +:+ " >= critical threshold " +:+ Size_String (CriticalGe c))
       (shown +:+ " >= warning threshold " +:+ Size_String (WarnGe c))
       (shown +:+ ", everything is ok")]).

Definition checkUsedMemoryPct (info : gmap string string) : list Event :=
  let c := UsedMemoryPct s in
  let check := "redis::used_memory_pct" in
  let threshold_desc :=
    "Warning ≥ " +:+ itoa (WarnGe c) +:+ "%, Critical ≥ " +:+ itoa (CriticalGe c) +:+ "%" in
  from_info check "used_memory" (infoGetInt64 is_print info "used_memory") (fun usedMemory =>
  from_info check "maxmemory" (infoGetInt64 is_print info "maxmemory") (fun maxMemory =>
    let used := [("used_memory", human usedMemory); ("used_memory_bytes", itoa usedMemory)] in
    if maxMemory <=? 0 then
      [SetDescription (SetAttrs (newEvent ins check target)
         (attrs_of (used ++ [("maxmemory_bytes", "0"); ("threshold_desc", threshold_desc)])))
         "redis maxmemory is 0 (unlimited), used memory percent check skipped"]
    else
      let percent := percent_of usedMemory maxMemory in
      let event := SetCurrentValue (SetAttrs (newEvent ins check target)
        (attrs_of (used ++ [("maxmemory", human maxMemory); ("maxmemory_bytes", itoa maxMemory);
           ("used_memory_pct", percent_text percent); ("threshold_desc", threshold_desc)]))) (percent_text percent) in
      let shown := "redis used memory " +:+ percent_text percent in
      [by_status event (EvaluateGeThreshold percent (f64_of_Z (WarnGe c)) (f64_of_Z (CriticalGe c)))
         (shown +:+ " >= critical threshold " +:+ itoa (CriticalGe c) +:+ "%")
         (shown +:+ " >= warning threshold " +:+ itoa (WarnGe c) +:+ "%")
         (shown +:+ " of maxmemory, everything is ok")])).

(** ** Persistence *)

(** A status field that says something else than ok. *)
Definition bad_status (info : gmap string string) (key : string) : option string :=
  match info !! key with
  | Some status => if nonempty status && negb (bool_decide (ToLower status = "ok")) then Some status else None
  | None => None
  end.

Definition checkPersistence (info : gmap string string) : list Event :=
  let event := newEvent ins "redis::persistence" target in
  let severity := pers_Severity (Persistence s) in
  match infoGetInt is_print info "loading" with
  | Bad err => [critical event ("failed to parse redis loading state: " +:+ err)]
  | Good None => [critical event "redis persistence info missing loading"]
  | Good (Some loading) =>
    let any := fun _ : string => true in
    let event := SetAttrs event (attrs_of ([("loading", itoa loading)]
      ++ optional_attr info any "rdb_last_bgsave_status" ++ optional_attr info any "aof_enabled"
      ++ optional_attr info any "aof_last_write_status" ++ optional_attr info any "rdb_bgsave_in_progress"
      ++ optional_attr info any "aof_rewrite_in_progress"
      ++ [("threshold_desc", severity +:+ ": persistence not healthy")])) in
    if loading =? 1 then [SetDescription (SetEventStatus event severity) "redis is loading persistence data"]
    else
      match bad_status info "rdb_last_bgsave_status" with
      | Some status =>
        [SetDescription (SetEventStatus event severity) ("redis RDB last bgsave status is " +:+ status)]
      | None =>
        match (if decide (info !! "aof_enabled" = Some "1") then bad_status info "aof_last_write_status" else None) with
        | Some status =>
          [SetDescription (SetEventStatus event severity) ("redis AOF last write status is " +:+ status)]
        | None => [SetDescription event "redis persistence status is healthy"]
        end
      end
  end.

(** ** Cluster *)
Definition checkClusterState (info : gmap string string) (infoErr : option string) : list Event :=
  let event := newEvent ins "redis::cluster_state" target in
  match infoErr with
  | Some err => [critical event ("failed to query redis cluster info: " +:+ err)]
  | None =>
    let state := ToLower (TrimSpace (default "" (info !! "cluster_state"))) in
    if decide (state = "") then [critical event "redis cluster info missing cluster_state"]
    else
      let severity := cs_Severity (ClusterState s) in
      let event := SetCurrentValue (SetAttrs event
        (attrs_of [("cluster_state", state); ("threshold_desc", severity +:+ ": cluster_state must be ok")])) state in
      if decide (state = "ok") then [SetDescription event "redis cluster state is ok"]
      else [SetDescription (SetEventStatus event severity) ("redis cluster state is " +:+ state +:+ ", expected ok")]
  end.

(** Whether the flags of a node say that it failed, or may have. *)
Definition node_flags (line : string) : option (bool * bool) :=
  let line := TrimSpace line in
  if decide (line = "") then None
  else
    match Fields line with
    | _ :: _ :: flags :: _ =>
      let flags := map TrimSpace (split_on ","%char flags) in
      Some (bool_decide ("fail" ∈ flags), bool_decide ("fail?" ∈ flags) || bool_decide ("pfail" ∈ flags))
    | _ => None
    end.

Fixpoint count_flags (lines : list string) (failNodes pfailNodes : Z) : Z * Z :=
  match lines with
  | [] => (failNodes, pfailNodes)
  | line :: lines' =>
    match node_flags line with
    | None => count_flags lines' failNodes pfailNodes
    | Some (hasFail, hasPFail) =>
      if hasFail then count_flags lines' (failNodes + 1) pfailNodes
      else if hasPFail then count_flags lines' failNodes (pfailNodes + 1)
      else count_flags lines' failNodes pfailNodes
    end
  end.
Definition summarizeClusterNodeFlags (raw : string) : Z * Z := count_flags (split_on (ascii_of_N 10) raw) 0 0.

(** A number of CLUSTER INFO. *)
Definition from_cluster_info (info : gmap string string) (key : string) (f : Z -> list Event) : list Event :=
  let event := newEvent ins "redis::cluster_topology" target in
  match infoGetInt is_print info key with
  | Bad err => [critical event ("failed to parse redis " +:+ key +:+ ": " +:+ err)]
  | Good None => [critical event ("redis cluster info missing " +:+ key)]
  | Good (Some n) => f n
  end.

Definition checkClusterTopology (info : gmap string string) (infoErr : option string)
    (nodes : res string string) : list Event :=
  let event := newEvent ins "redis::cluster_topology" target in
  match infoErr, nodes with
  | Some err, _ => [critical event ("failed to query redis cluster info: " +:+ err)]
  | None, Bad err => [critical event ("failed to query redis cluster nodes: " +:+ err)]
  | None, Good nodesRaw =>
    from_cluster_info info "cluster_slots_assigned" (fun slotsAssigned =>
    from_cluster_info info "cluster_slots_fail" (fun slotsFail =>
      let '(failNodes, pfailNodes) := summarizeClusterNodeFlags nodesRaw in
      let event := SetAttrs event (attrs_of [("fail_nodes", itoa failNodes); ("pfail_nodes", itoa pfailNodes);
        ("cluster_slots_assigned", itoa slotsAssigned); ("cluster_slots_fail", itoa slotsFail);
        ("threshold_desc", "Critical: fail nodes, slot gaps, or slots_fail > 0; Warning: pfail nodes")]) in
      let criticalIssues :=
        (if 0 <? failNodes then [itoa failNodes +:+ " fail node detected"] else [])
        ++ (if 0 <? slotsFail then ["cluster_slots_fail is " +:+ itoa slotsFail] else [])
        ++ (if negb (slotsAssigned =? clusterSlotsFull)
            then ["assigned slots " +:+ itoa slotsAssigned +:+ " != expected " +:+ itoa clusterSlotsFull] else []) in
      let warningIssues := if 0 <? pfailNodes then [itoa pfailNodes +:+ " pfail node detected"] else [] in
      let unhealthy issues := "redis cluster topology unhealthy: " +:+ Join issues "; " in
      match criticalIssues, warningIssues with
      | _ :: _, _ => [critical event (unhealthy criticalIssues)]
      | [], _ :: _ => [SetDescription (SetEventStatus event EventStatusWarning) (unhealthy warningIssues)]
      | [], [] => [SetDescription event "redis cluster topology is healthy"]
      end))
  end.
End checks.
