(* ===== verification/RedisGather.v ===== *)
(** * Gathering from Redis (plugins/redis/gather.go)

    One gathering of a target over a connection of its own: PING, the sections
    of INFO that the enabled checks need, each read once, and the cluster
    commands.  The state is the network, the queue (what was pushed, in order),
    the instance and the cache of sections. *)
From S2P Require Import Prelude GoStr GoLib GoConv GoFmt GoIo Types Flight Resp Pushing PluginConfig RedisConfig RedisChecks.
#[local] Open Scope Z_scope.
#[local] Open Scope go_scope.

Record gstate (W : Type) := mkG {
  g_net : net W; g_events : list Event; g_ins : Instance; g_cache : gmap string (gmap string string)
}.
Arguments mkG {W} g_net g_events g_ins g_cache.
Arguments g_net {W} g.
Arguments g_events {W} g.
Arguments g_ins {W} g.
Arguments g_cache {W} g.

Definition flight (ins : Instance) : Flight := mkFlight (inFlight ins) (prevHung ins).
Definition set_flight (f : Flight) (ins : Instance) : Instance :=
  mkInstance (ins_Partial ins) (Targets ins) (settings ins) (prevStats ins) (initialized ins) (running f) (hung f).

Section gather.
Context {W : Type} `{!Network W}.
Variable is_print : Z -> bool.
Variable visit : gmap string string -> list (string * string).

Definition on_net {A} (m : io (net W) A) : io (gstate W) A := fun g =>
  let '(r, n) := m (g_net g) in (r, mkG n (g_events g) (g_ins g) (g_cache g)).
Definition push (evs : list Event) : io (gstate W) unit :=
  io_modify (fun g => mkG (g_net g) (g_events g ++ evs) (g_ins g) (g_cache g)).
Definition put_ins (ins : Instance) : io (gstate W) unit :=
  io_modify (fun g => mkG (g_net g) (g_events g) ins (g_cache g)).
Definition clock : io (gstate W) Z := io_gets (fun g => net_now (world (g_net g))).

(** [newAccessor]. *)
Definition accessor_config (s : Settings) (target : string) : RedisAccessorConfig :=
  mkAccessorConfig target (Username s) (Password s) (DB s) (Timeout s) (ReadTimeout s).

(** The closure [infoSection] with its cache. *)
Definition infoSection (acc : RedisAccessor) (section : string)
  : io (gstate W) (res string (gmap string string)) := fun g =>
  match g_cache g !! section with
  | Some info => (Ret (Good info), g)
  | None =>
    (info ←? on_net (Info is_print acc section);
     _ ← io_modify (fun g => mkG (g_net g) (g_events g) (g_ins g) (<[section := info]> (g_cache g)));
     e_ok info) g
  end.

Section target.
Variable ins : Instance.
Variable target : string.
Notation s := (settings ins).

Definition failed (check what err : string) : Event :=
  critical (newEvent ins check target) ("failed to query redis " +:+ what +:+ " info: " +:+ err).

(** A check that reads one section of INFO, with its name for the error. *)
Definition with_section (acc : RedisAccessor) (section what check : string)
    (f : gmap string string -> io (gstate W) unit) : io (gstate W) unit :=
  r ← infoSection acc section;
  match r with
  | Bad err => push [failed check what err]
  | Good info => f info
  end.

Definition connectivity_event (elapsed : Z) : Event :=
  SetAttrs (newEvent ins "redis::connectivity" target)
    (attrs_of [("response_time", Duration_String elapsed);
               ("threshold_desc", Connectivity s +:+ ": redis ping failed")]).

Definition ping_failed (start : Z) (err : string) : io (gstate W) unit :=
  t ← clock;
  push [SetDescription (SetEventStatus (connectivity_event (t ⊟ start)) (Connectivity s))
          ("redis ping failed: " +:+ err)].

(** ** The cluster *)
Definition not_cluster (actualMode severity check : string) : Event :=
  SetDescription (SetAttrs (SetEventStatus (newEvent ins check target) EventStatusCritical)
    (attrs_of [("redis_mode", actualMode); ("threshold_desc", severity +:+ ": redis_mode must be cluster")]))
    ("redis mode is " +:+ actualMode +:+ ", expected cluster").

(** One event for each of the two cluster checks that is enabled. *)
Definition cluster_events (state topology : Event) : list Event :=
  (if clusterStateEnabled s then [state] else []) ++ (if clusterTopologyEnabled s then [topology] else []).

Definition error_of {A} (r : res string A) : option string := match r with Bad e => Some e | Good _ => None end.
Definition text_of (r : res string string) : string := match r with Good t => t | Bad _ => "" end.

Definition check_cluster (acc : RedisAccessor) : io (gstate W) unit :=
  r ← on_net (ClusterInfo is_print acc);
  let clusterInfo := parseInfoToMap (text_of r) in
  _ ← (if clusterStateEnabled s then push (checkClusterState ins target clusterInfo (error_of r)) else io_ret tt);
  if clusterTopologyEnabled s then
    nodes ← on_net (ClusterNodes is_print acc);
    push (checkClusterTopology is_print ins target clusterInfo (error_of r) nodes)
  else io_ret tt.

Definition gather_cluster (acc : RedisAccessor) : io (gstate W) unit :=
  if bool_decide (Mode s = redisModeStandalone) then io_ret tt
  else
    r ← infoSection acc "server";
    match r with
    | Bad err =>
      if bool_decide (Mode s = redisModeCluster)
      then push (cluster_events (failed "redis::cluster_state" "server" err) (failed "redis::cluster_topology" "server" err))
      else io_ret tt
    | Good serverInfo =>
      let actualMode := or_empty (ToLower (TrimSpace (default "" (serverInfo !! "redis_mode")))) redisModeStandalone in
      if bool_decide (Mode s = redisModeCluster) && negb (bool_decide (actualMode = redisModeCluster)) then
        push (cluster_events (not_cluster actualMode (cs_Severity (ClusterState s)) "redis::cluster_state")
                (not_cluster actualMode "Critical" "redis::cluster_topology"))
      else if bool_decide (actualMode = redisModeCluster) then check_cluster acc
      else io_ret tt
    end.

(** ** The sections of INFO.  The counters are those of the instance now; its
    settings do not change after [Init]. *)
Definition pushes (f : gmap string string -> list Event) (info : gmap string string) : io (gstate W) unit := push (f info).

Definition gather_replication (acc : RedisAccessor) : io (gstate W) unit :=
  let section := with_section acc "replication" "replication" in
  _ ← when (nonempty (Expect (Role s))) (section "redis::role" (pushes (checkRole ins target)));
  _ ← when (nonempty (Expect (MasterLink s)))
        (section "redis::master_link_status" (pushes (checkMasterLink ins target)));
  _ ← when ((0 <? WarnLt (ConnectedSlaves s)) || (0 <? CriticalLt (ConnectedSlaves s)))
        (section "redis::connected_slaves" (pushes (fun info =>
           checkMinCountFromInfo is_print ins target "redis::connected_slaves" info "connected_slaves"
             (ConnectedSlaves s) "connected slaves")));
  when (enabled (ReplLag s)) (section "redis::repl_lag" (pushes (checkReplLag is_print visit ins target))).

Definition gather_clients (acc : RedisAccessor) : io (gstate W) unit :=
  let count check key c name info := checkCountFromInfo is_print ins target check info key c name in
  when (enabled (ConnectedClients s) || enabled (BlockedClients s))
    (r ← infoSection acc "clients";
     match r with
     | Bad err =>
       _ ← when (enabled (ConnectedClients s)) (push [failed "redis::connected_clients" "client" err]);
       when (enabled (BlockedClients s)) (push [failed "redis::blocked_clients" "client" err])
     | Good info =>
       _ ← when (enabled (ConnectedClients s)) (push
             (count "redis::connected_clients" "connected_clients" (ConnectedClients s) "connected clients" info));
       when (enabled (BlockedClients s)) (push
         (count "redis::blocked_clients" "blocked_clients" (BlockedClients s) "blocked clients" info))
     end).

Definition gather_memory (acc : RedisAccessor) : io (gstate W) unit :=
  let pct := with_section acc "memory" "memory" "redis::used_memory_pct"
               (pushes (checkUsedMemoryPct is_print ins target)) in
  _ ← (if enabled (UsedMemory s)
       then with_section acc "memory" "memory" "redis::used_memory" (pushes (checkUsedMemory is_print ins target))
       else if enabled (UsedMemoryPct s) then pct else io_ret tt);
  when (enabled (UsedMemory s) && enabled (UsedMemoryPct s)) pct.

Definition gather_stats (acc : RedisAccessor) : io (gstate W) unit :=
  let fail c check err := when (enabled c) (push [failed check "stats" err]) in
  when (enabled (RejectedConn s) || enabled (EvictedKeys s) || enabled (ExpiredKeys s) || enabled (OpsPerSecond s))
    (r ← infoSection acc "stats";
     match r with
     | Bad err =>
       _ ← fail (RejectedConn s) "redis::rejected_connections" err;
       _ ← fail (EvictedKeys s) "redis::evicted_keys" err;
       _ ← fail (ExpiredKeys s) "redis::expired_keys" err;
       fail (OpsPerSecond s) "redis::instantaneous_ops_per_sec" err
     | Good info =>
       now_ins ← io_gets g_ins;
       let '(evs, ins') := checkCounterDeltas is_print (set_settings s now_ins) target info in
       _ ← put_ins ins';
       _ ← push evs;
       when (enabled (OpsPerSecond s)) (push
         (checkCountFromInfo is_print ins target "redis::instantaneous_ops_per_sec" info "instantaneous_ops_per_sec"
            (OpsPerSecond s) "instantaneous ops per second"))
     end).

Definition gather_persistence (acc : RedisAccessor) : io (gstate W) unit :=
  when (persistenceEnabled s)
    (with_section acc "persistence" "persistence" "redis::persistence" (pushes (checkPersistence is_print ins target))).

(** After a connection was made; the accessor is closed whatever happens. *)
Definition gather_connected (acc : RedisAccessor) (start : Z) : io (gstate W) unit :=
  r ← on_net (Ping is_print acc);
  match r with
  | Bad err => ping_failed start err
  | Good _ =>
    t ← clock;
    _ ← push [SetDescription (connectivity_event (t ⊟ start)) "redis ping ok"];
    _ ← push (checkResponseTime ins target (t ⊟ start));
    _ ← gather_cluster acc;
    _ ← gather_replication acc;
    _ ← gather_clients acc;
    _ ← gather_memory acc;
    _ ← gather_stats acc;
    gather_persistence acc
  end.

(** [defer acc.Close()]. *)
Definition closing (acc : RedisAccessor) (m : io (gstate W) unit) : io (gstate W) unit := fun g =>
  let '(r, g) := m g in
  let '(_, g) := on_net (acc_Close acc) g in (r, g).

Definition gatherTarget : io (gstate W) unit :=
  start ← clock;
  r ← on_net (NewRedisAccessor is_print (accessor_config s target));
  match r with
  | Bad err => ping_failed start err
  | Good acc => closing acc (gather_connected acc start)
  end.
End target.

(** ** The goroutines *)

Definition panic_event (target what : string) : Event :=
  critical (BuildEvent [attrs_of [("check", "redis::connectivity"); ("target", target)]])
    ("panic during check: " +:+ what).

(** The goroutine of a target once it has its slot, at [unix] seconds; [what]
    is the text of a panic. *)
Definition target_goroutine (what : string) (unix : Z) (target : string) (g : gstate W) : gstate W :=
  let ins := set_flight (take_off unix target (flight (g_ins g))) (g_ins g) in
  let '(r, g) := gatherTarget ins target (mkG (g_net g) (g_events g) ins ∅) in
  let g := match r with
           | Ret _ => g
           | Panic => mkG (g_net g) (g_events g ++ [panic_event target what]) (g_ins g) (g_cache g)
           end in
  mkG (g_net g) (g_events g) (set_flight (land target (flight (g_ins g))) (g_ins g)) ∅.

Definition buildHungEvent (target : string) (elapsedSec : Z) : Event :=
  critical (SetAttrs (BuildEvent [attrs_of [("check", "redis::hung"); ("target", target)]])
    (attrs_of [("elapsed_seconds", itoa elapsedSec); ("threshold_desc", "Critical: redis check hung")]))
    ("redis check hung for " +:+ itoa elapsedSec +:+ " seconds (target may be unreachable or blocked)").
Definition buildHungRecoveryEvent (target : string) : Event :=
  SetDescription (BuildEvent [attrs_of [("check", "redis::hung"); ("target", target)]])
    "redis check recovered from hung state".

(** In nanoseconds.  [None]: the division by a concurrency of 0. *)
Definition gather_timeout (ins : Instance) : option Z :=
  let s := settings ins in
  if Concurrency s =? 0 then None
  else
    let perTarget := Timeout s ⊞ ReadTimeout s ⊠ 8 in
    let batches := go_div (zlen (Targets ins) ⊞ Concurrency s ⊟ 1) (Concurrency s) in
    let t := perTarget ⊠ (batches ⊞ 1) in
    Some (if t <? 30 * Second then 30 * Second else t).

(** The loop over the targets. *)
Definition start_targets (gatherTimeout unix : Z) (targets : list string) (ins : Instance)
  : list Event * list string * Instance :=
  let '(evs, started, f) :=
    Flight.start_targets buildHungEvent buildHungRecoveryEvent gatherTimeout unix targets (flight ins) in
  (evs, started, set_flight f ins).

(** [Gather].  [schedule] says which of the started goroutines finish before the
    timeout, in order, and which still run then, each with the time it got its
    slot; the others still wait for one.  What a running goroutine pushes comes
    later. *)
Definition Gather (what : string) (unix : Z) (schedule : list string -> list (Z * string) * list (Z * string))
    (g : gstate W) : go (gstate W) :=
  match Targets (g_ins g) with
  | [] => Ret g
  | _ :: _ =>
    match gather_timeout (g_ins g) with
    | None => Panic
    | Some gatherTimeout =>
      let '(evs, started, ins) := start_targets gatherTimeout unix (Targets (g_ins g)) (g_ins g) in
      let '(finished, still) := schedule started in
      let g := mkG (g_net g) (g_events g ++ evs) ins (g_cache g) in
      let g := fold_left (fun g p => target_goroutine what p.1 p.2 g) finished g in
      let f := fold_left (fun f p => take_off p.1 p.2 f) still (flight (g_ins g)) in
      Ret (mkG (g_net g) (g_events g) (set_flight (if (length finished =? length started)%nat then f else mark_hung f) (g_ins g)) (g_cache g))
    end
  end.
End gather.
