(* ===== verification/RedisProps.v ===== *)
(** * Properties of the Redis checks

    Which events a gathering pushes, the changes of counters, the replication
    lag for every iteration order of the map, and the verdict on a cluster. *)
From S2P Require Import Prelude GoStr GoLib GoConv GoFmt GoIo Types Flight Resp Pushing PluginConfig RedisConfig RedisChecks RedisGather RespProps.
#[local] Open Scope Z_scope.
#[local] Open Scope go_scope.

(** ** Labels *)
Lemma newEvent_check ins check target : check_of (newEvent ins check target) = check.
Proof. unfold newEvent. case_decide; reflexivity. Qed.
Lemma newEvent_target ins check target : target_of (newEvent ins check target) = target.
Proof. unfold newEvent. case_decide; reflexivity. Qed.

Lemma newEvent_of ins check target : event_of target check (newEvent ins check target).
Proof. split; [apply newEvent_check|apply newEvent_target]. Qed.
Lemma by_status_labels e st c w o : Labels (by_status e st c w o) = Labels e.
Proof. unfold by_status. by repeat case_decide. Qed.
Lemma by_status_of target check e st c w o : event_of target check e -> event_of target check (by_status e st c w o).
Proof. unfold event_of, label. by rewrite by_status_labels. Qed.

Ltac one_event :=
  repeat (first [case_decide | case_bool_decide | destruct_match_goal]);
  apply events_one; first [apply by_status_of; apply newEvent_of | apply newEvent_of].

Section checks.
Variable is_print : Z -> bool.
Variable visit : gmap string string -> list (string * string).
Variable ins : Instance.
Variable target : string.
Notation s := (settings ins).
Notation evs_of := (events_of target).

Lemma from_info_of check key r f :
  (forall v, evs_of [check] (f v)) -> evs_of [check] (from_info ins target check key r f).
Proof. intros Hf. destruct r as [[v|]|err]; [apply Hf|..]; apply events_one, newEvent_of. Qed.

Lemma checkResponseTime_of t :
  evs_of (if (WarnGe (ResponseTime s) =? 0) && (CriticalGe (ResponseTime s) =? 0) then [] else ["redis::response_time"])
    (checkResponseTime ins target t).
Proof. unfold checkResponseTime. destruct (_ && _); [constructor|]. one_event. Qed.
Lemma checkRole_of info : evs_of ["redis::role"] (checkRole ins target info).
Proof. unfold checkRole. destruct (info !! "role"); one_event. Qed.
Lemma checkMasterLink_of info : evs_of ["redis::master_link_status"] (checkMasterLink ins target info).
Proof. unfold checkMasterLink. destruct (info !! "master_link_status"); one_event. Qed.
Lemma checkCount_of check info key c name :
  evs_of [check] (checkCountFromInfo is_print ins target check info key c name).
Proof. apply from_info_of. intros v. unfold checkCount. one_event. Qed.
Lemma checkMinCount_of check info key c name :
  evs_of [check] (checkMinCountFromInfo is_print ins target check info key c name).
Proof. apply from_info_of. intros v. unfold checkMinCount. one_event. Qed.
Lemma checkReplLag_of info : evs_of ["redis::repl_lag"] (checkReplLag is_print visit ins target info).
Proof.
  unfold checkReplLag. case_decide; [one_event|].
  destruct (calculateReplicationLag is_print visit info) as [[[lag desc] attrs]|err]; [|one_event].
  destruct (lag <? 0); one_event.
Qed.
Lemma checkUsedMemory_of info : evs_of ["redis::used_memory"] (checkUsedMemory is_print ins target info).
Proof. apply from_info_of. intros v. cbv zeta. apply events_one, by_status_of, newEvent_of. Qed.
Lemma checkUsedMemoryPct_of info : evs_of ["redis::used_memory_pct"] (checkUsedMemoryPct is_print ins target info).
Proof.
  apply from_info_of. intros v. apply from_info_of. intros m. cbv zeta.
  destruct (m <=? 0); apply events_one; [|apply by_status_of]; apply newEvent_of.
Qed.
Lemma checkPersistence_of info : evs_of ["redis::persistence"] (checkPersistence is_print ins target info).
Proof.
  unfold checkPersistence. destruct (infoGetInt is_print info "loading") as [[v|]|err]; [|one_event..].
  cbv zeta. destruct (v =? 1); [one_event|]. destruct (bad_status info "rdb_last_bgsave_status"); [one_event|].
  destruct (if decide _ then _ else _); one_event.
Qed.
Lemma checkClusterState_of info err : evs_of ["redis::cluster_state"] (checkClusterState ins target info err).
Proof. unfold checkClusterState. destruct err; one_event. Qed.
Lemma from_cluster_info_of info key f :
  (forall n, evs_of ["redis::cluster_topology"] (f n)) ->
  evs_of ["redis::cluster_topology"] (from_cluster_info is_print ins target info key f).
Proof.
  intros Hf. unfold from_cluster_info. destruct (infoGetInt is_print info key) as [[v|]|err]; [apply Hf|one_event..].
Qed.
Lemma checkClusterTopology_of info err nodes :
  evs_of ["redis::cluster_topology"] (checkClusterTopology is_print ins target info err nodes).
Proof.
  unfold checkClusterTopology. destruct err; [one_event|]. destruct nodes as [raw|err]; [|one_event].
  apply from_cluster_info_of. intros a. apply from_cluster_info_of. intros f.
  destruct (summarizeClusterNodeFlags raw) as [fails pfails]. cbv zeta.
  repeat destruct_match_goal; apply events_one, newEvent_of.
Qed.

(** *** Counters *)
Definition counter_checks (s : Settings) : list string :=
  (if enabled (EvictedKeys s) then ["redis::evicted_keys"] else [])
  ++ (if enabled (ExpiredKeys s) then ["redis::expired_keys"] else [])
  ++ (if enabled (RejectedConn s) then ["redis::rejected_connections"] else []).

Lemma counter_event_of check name c prev now :
  evs_of (if enabled c then [check] else []) (counter_event ins target check name c prev now).
Proof.
  unfold counter_event. destruct (enabled c); [|constructor]. cbn [negb]. destruct prev.
  - unfold checkDeltaCount. one_event.
  - apply events_one, newEvent_of.
Qed.

Lemma read_counter_of info c check key evs :
  read_counter is_print ins target info c check key = Bad evs ->
  enabled c = true /\ exists e, evs = [e] /\ event_of target check e /\ EventStatus e = EventStatusCritical.
Proof.
  unfold read_counter. destruct (enabled c); [|done]. cbn [negb].
  destruct (infoGetUint64 is_print info key) as [[v|]|err]; intros H; simplify_eq;
    (split; [done|eexists; split; [done|split; [apply newEvent_of|done]]]).
Qed.

(** All counters that are checked, or the first that cannot be read. *)
Lemma checkCounterDeltas_of info :
  evs_of (counter_checks s) (checkCounterDeltas is_print ins target info).1 \/
  exists c e, c ∈ counter_checks s /\ (checkCounterDeltas is_print ins target info).1 = [e] /\
    event_of target c e /\ EventStatus e = EventStatusCritical.
Proof.
  unfold checkCounterDeltas, counter_checks.
  destruct (read_counter is_print ins target info (EvictedKeys s) _ _) as [a|evs] eqn:E1.
  2:{ apply read_counter_of in E1 as (-> & e & -> & He). right. exists "redis::evicted_keys", e. split_and!; try apply He; set_solver. }
  destruct (read_counter is_print ins target info (ExpiredKeys s) _ _) as [b|evs] eqn:E2.
  2:{ apply read_counter_of in E2 as (-> & e & -> & He). right. exists "redis::expired_keys", e. split_and!; try apply He; set_solver. }
  destruct (read_counter is_print ins target info (RejectedConn s) _ _) as [d|evs] eqn:E3.
  2:{ apply read_counter_of in E3 as (-> & e & -> & He). right. exists "redis::rejected_connections", e. split_and!; try apply He; set_solver. }
  left. cbn [fst]. repeat apply Forall2_app; apply counter_event_of.
Qed.
End checks.

(** ** What a computation pushes *)
#[export] Instance gstate_pushing {W} : Pushing (gstate W) := g_events.

Section pushing.
Context {W : Type} `{!Network W}.
Variable target : string.
Notation reports := (reports (S := gstate W) (event_of target)).
Notation silent := (silent (S := gstate W)).

Lemma reports_push P checks evs : events_of target checks evs -> P checks -> reports P (push evs).
Proof. by apply reports_adds. Qed.

Lemma silent_on_net {A} (m : io (net W) A) : silent (on_net m).
Proof. intros g a g'. unfold on_net. destruct (m (g_net g)) as [r n]. by intros [= -> <-]. Qed.
Lemma silent_clock : silent clock.
Proof. by intros g a g' [= <- <-]. Qed.
Lemma silent_put_ins ins : silent (put_ins (W := W) ins).
Proof. by intros g a g' [= <- <-]. Qed.
Lemma silent_infoSection is_print acc section : silent (infoSection is_print acc section).
Proof.
  intros g a g'. unfold infoSection. destruct (g_cache g !! section); [by intros [= <- <-]|].
  intros H. apply io_bind_inv in H as (r & g1 & H1 & H2). apply silent_on_net in H1. rewrite <- H1.
  destruct r; [|by injection H2 as <- <-]. by injection H2 as <- <-.
Qed.
End pushing.

#[export] Hint Resolve silent_on_net silent_clock silent_put_ins silent_infoSection : reports.

(** ** One gathering *)
Section gather.
Context {W : Type} `{!Network W}.
Variable is_print : Z -> bool.
Variable visit : gmap string string -> list (string * string).
Variable ins : Instance.
Variable target : string.
Notation s := (settings ins).
Notation reports := (reports (S := gstate W) (event_of target)).

Lemma failed_of check what err : event_of target check (failed ins target check what err).
Proof. apply newEvent_of. Qed.

Lemma with_section_reports acc section what check f :
  (forall info, events_of target [check] (f info)) ->
  reports (eq [check]) (with_section is_print ins target acc section what check (pushes f)).
Proof.
  intros Hf. apply reports_silent; [auto with reports|]. intros [info|err]; cbn [pushes].
  - by eapply reports_push.
  - eapply reports_push; [apply events_one, failed_of|done].
Qed.

(** The checks an instance asks for, in the order in which they report. *)
Definition response_checks : list string :=
  if (WarnGe (ResponseTime s) =? 0) && (CriticalGe (ResponseTime s) =? 0) then [] else ["redis::response_time"].
Definition cluster_checks : list string :=
  (if clusterStateEnabled s then ["redis::cluster_state"] else [])
  ++ (if clusterTopologyEnabled s then ["redis::cluster_topology"] else []).
Definition replication_checks : list string :=
  (if nonempty (Expect (Role s)) then ["redis::role"] else [])
  ++ (if nonempty (Expect (MasterLink s)) then ["redis::master_link_status"] else [])
  ++ (if (0 <? WarnLt (ConnectedSlaves s)) || (0 <? CriticalLt (ConnectedSlaves s)) then ["redis::connected_slaves"] else [])
  ++ (if enabled (ReplLag s) then ["redis::repl_lag"] else []).
Definition client_checks : list string :=
  (if enabled (ConnectedClients s) then ["redis::connected_clients"] else [])
  ++ (if enabled (BlockedClients s) then ["redis::blocked_clients"] else []).
Definition memory_checks : list string :=
  (if enabled (UsedMemory s) then ["redis::used_memory"] else [])
  ++ (if enabled (UsedMemoryPct s) then ["redis::used_memory_pct"] else []).
Definition ops_checks : list string :=
  if enabled (OpsPerSecond s) then ["redis::instantaneous_ops_per_sec"] else [].
Definition persistence_checks : list string :=
  if persistenceEnabled s then ["redis::persistence"] else [].

Lemma gather_replication_reports acc :
  reports (eq replication_checks) (gather_replication is_print visit ins target acc).
Proof.
  unfold gather_replication, replication_checks.
  repeat apply reports_seq; apply reports_when; intros _; apply with_section_reports; intros info.
  - apply checkRole_of.
  - apply checkMasterLink_of.
  - apply checkMinCount_of.
  - apply checkReplLag_of.
Qed.

Lemma gather_clients_reports acc : reports (eq client_checks) (gather_clients is_print ins target acc).
Proof.
  unfold gather_clients, client_checks. destruct (enabled (ConnectedClients s)) eqn:E1, (enabled (BlockedClients s)) eqn:E2;
    cbn [orb when]; try apply reports_ret; (apply reports_silent; [auto with reports|]); intros [info|err];
    try apply reports_ret; repeat apply reports_seq; try apply reports_ret;
    (eapply reports_push; [first [apply checkCount_of|apply events_one, failed_of]|done]).
Qed.

Lemma gather_memory_reports acc : reports (eq memory_checks) (gather_memory is_print ins target acc).
Proof.
  assert (reports (eq ["redis::used_memory"]) (with_section is_print ins target acc "memory" "memory" "redis::used_memory"
    (pushes (checkUsedMemory is_print ins target)))) as Hu by apply with_section_reports, checkUsedMemory_of.
  assert (reports (eq ["redis::used_memory_pct"]) (with_section is_print ins target acc "memory" "memory"
    "redis::used_memory_pct" (pushes (checkUsedMemoryPct is_print ins target)))) as Hp
    by apply with_section_reports, checkUsedMemoryPct_of.
  unfold gather_memory, memory_checks. destruct (enabled (UsedMemory s)), (enabled (UsedMemoryPct s)); cbn [andb when].
  - by apply reports_seq.
  - apply reports_seq; [done|apply reports_ret].
  - apply (reports_seq (event_of target) ["redis::used_memory_pct"] []); [done|apply reports_ret].
  - apply (reports_seq (event_of target) [] []); apply reports_ret.
Qed.

(** A key with a mark: an event whose mark is set is critical. *)
Definition told (k : string * bool) (e : Event) : Prop := event_of target k.1 e /\ (k.2 = true -> EventStatus e = EventStatusCritical).
Definition unmarked (checks : list string) : list (string * bool) := map (fun c => (c, false)) checks.
Notation reports_told := (Pushing.reports (S := gstate W) told).

Lemma unmarked_told checks evs : events_of target checks evs -> Forall2 told (unmarked checks) evs.
Proof. intros H. apply Forall2_fmap_l. eapply Forall2_impl; [exact H|]. by intros c e He. Qed.
Lemma reports_unmarked {A} P (m : io (gstate W) A) : reports P m -> reports_told (fun ks => exists l, ks = unmarked l /\ P l) m.
Proof.
  intros Hm g a g' H. destruct (Hm _ _ _ H) as (l & evs & He & Hl & HP). exists (unmarked l), evs. split_and!; [done|by apply unmarked_told|by exists l].
Qed.
Lemma unmarked_fst checks : (unmarked checks).*1 = checks.
Proof. unfold unmarked. rewrite <- list_fmap_compose. by rewrite list_fmap_id. Qed.

(** Counters report once each; or only one, with a critical event, when it
    cannot be read. *)
Definition counters_ok (counters : list (string * bool)) : Prop :=
  (exists l, counters = unmarked l /\ l ≡ₚ counter_checks s) \/ exists c, counters = [(c, true)] /\ c ∈ counter_checks s.

Lemma counter_checks_NoDup : NoDup (counter_checks s).
Proof.
  unfold counter_checks. destruct (enabled (EvictedKeys s)), (enabled (ExpiredKeys s)), (enabled (RejectedConn s));
    cbn; repeat constructor; set_solver.
Qed.

Definition stats_ok (l : list (string * bool)) : Prop := exists counters, l = counters ++ unmarked ops_checks /\ counters_ok counters.

Lemma when_failed (b : bool) (check what err : string) :
  reports (eq (if b then [check] else [])) (when b (push [failed ins target check what err])).
Proof. apply reports_when. intros _. eapply reports_push; [apply events_one, failed_of|done]. Qed.

Lemma gather_stats_reports acc : reports_told stats_ok (gather_stats is_print ins target acc).
Proof.
  unfold gather_stats. destruct (_ || _) eqn:E; cbn [when].
  2:{ zbool. eapply reports_weaken; [apply reports_ret|]. intros l <-. exists []. unfold counters_ok, ops_checks, counter_checks.
      repeat match goal with H : enabled _ = false |- _ => rewrite H; clear H end. split; [done|]. left. by exists []. }
  apply reports_silent; [auto with reports|]. intros [info|err].
  - apply reports_silent; [auto with reports|]. intros now_ins.
    pose proof (checkCounterDeltas_of is_print visit (set_settings s now_ins) target info) as Hcs.
    change (counter_checks (settings (set_settings s now_ins))) with (counter_checks s) in Hcs.
    destruct (checkCounterDeltas is_print (set_settings s now_ins) target info) as [evs ins']. cbn [fst] in Hcs.
    apply reports_silent; [auto with reports|]. intros _.
    assert (reports (eq ops_checks) (when (enabled (OpsPerSecond s)) (push
         (checkCountFromInfo is_print ins target "redis::instantaneous_ops_per_sec" info "instantaneous_ops_per_sec"
            (OpsPerSecond s) "instantaneous ops per second")))) as Hops
      by (apply reports_when; intros _; eapply reports_push; [apply checkCount_of|done]).
    apply reports_unmarked in Hops. apply (reports_bind told counters_ok (fun ks => exists l, ks = unmarked l /\ ops_checks = l)); [|by intros _|].
    + intros g [] g' [= <-]. unfold pushed, gstate_pushing; cbn. destruct Hcs as [Hcs|(c & e & Hc & -> & He)].
      * exists (unmarked (counter_checks s)), evs. split_and!; [done|by apply unmarked_told|left; by eexists].
      * exists [(c, true)], [e]. split_and!; [done| |right; by exists c].
        constructor; [|constructor]. split; [apply He|intros _; apply He].
    + intros ? ? H1 (? & -> & <-). by eexists.
  - eapply reports_weaken; [apply reports_unmarked; repeat apply reports_seq; apply when_failed|].
    intros ? (l & -> & <-). rewrite !app_assoc. unfold unmarked. rewrite map_app. eexists. split; [reflexivity|].
    left. eexists. split; [reflexivity|]. unfold counter_checks. rewrite <- !app_assoc. rewrite (Permutation_app_comm (if enabled (RejectedConn s) then _ else _)).
    by rewrite <- !app_assoc.
Qed.

Lemma gather_persistence_reports acc : reports (eq persistence_checks) (gather_persistence is_print ins target acc).
Proof. apply reports_when. intros _. apply with_section_reports, checkPersistence_of. Qed.

Lemma cluster_events_of e1 e2 :
  event_of target "redis::cluster_state" e1 -> event_of target "redis::cluster_topology" e2 ->
  events_of target cluster_checks (cluster_events ins e1 e2).
Proof.
  intros H1 H2. unfold cluster_checks, cluster_events.
  destruct (clusterStateEnabled s), (clusterTopologyEnabled s); repeat (constructor; try done).
Qed.

Lemma check_cluster_reports acc : reports (eq cluster_checks) (check_cluster is_print ins target acc).
Proof.
  apply reports_silent; [auto with reports|]. intros r. unfold cluster_checks. apply reports_seq.
  - destruct (clusterStateEnabled s); [|apply reports_ret]. eapply reports_push; [apply checkClusterState_of|done].
  - destruct (clusterTopologyEnabled s); [|apply reports_ret]. apply reports_silent; [auto with reports|].
    intros nodes. eapply reports_push; [apply checkClusterTopology_of|done].
Qed.

(** The server section of INFO, as the cache or the server has it. *)
Definition server_info (acc : RedisAccessor) (g : gstate W) : go (res string (gmap string string)) :=
  (infoSection is_print acc "server" g).1.

(** The cluster checks report when the instance is checked as a cluster, and in
    mode auto when the server says that it is one. *)
Definition cluster_expected (info : go (res string (gmap string string))) : list string :=
  let is_cluster := match info with
    | Ret (Good info) => bool_decide (or_empty (ToLower (TrimSpace (default "" (info !! "redis_mode")))) redisModeStandalone = redisModeCluster)
    | _ => false end in
  if bool_decide (Mode s = redisModeStandalone) then []
  else if bool_decide (Mode s = redisModeCluster) || is_cluster then cluster_checks else [].

Lemma gather_cluster_reports acc g g' : gather_cluster is_print ins target acc g = (Ret tt, g') ->
  exists evs, g_events g' = g_events g ++ evs /\ events_of target (cluster_expected (server_info acc g)) evs.
Proof.
  unfold gather_cluster, cluster_expected, server_info. case_bool_decide as Hm.
  { intros [= <-]. exists []. rewrite app_nil_r. split; [done|constructor]. }
  intros H. apply io_bind_inv in H as (r & g1 & Hr & H). rewrite Hr. cbn [fst].
  pose proof (silent_infoSection _ _ _ _ _ _ Hr) as Hev. unfold pushed, gstate_pushing in Hev. rewrite <- Hev.
  assert (forall l (m : io (gstate W) unit), reports (eq l) m -> m g1 = (Ret tt, g') ->
    exists evs, g_events g' = g_events g1 ++ evs /\ events_of target l evs) as Hl.
  { intros l m Hm' E. destruct (Hm' _ _ _ E) as (? & evs & ? & ? & <-). by exists evs. }
  destruct r as [info|err].
  - cbv zeta in H. set (actual := or_empty _ redisModeStandalone) in *.
    destruct (bool_decide_reflect (Mode s = redisModeCluster)) as [Hc|Hc],
      (bool_decide_reflect (actual = redisModeCluster)) as [Ha|Ha]; cbn [andb negb orb] in *; revert H; apply Hl.
    + apply check_cluster_reports.
    + eapply reports_push; [apply cluster_events_of; apply newEvent_of|done].
    + apply check_cluster_reports.
    + apply reports_ret.
  - rewrite orb_false_r. case_bool_decide; revert H; apply Hl; [|apply reports_ret].
    eapply reports_push; [apply cluster_events_of; apply newEvent_of|done].
Qed.

Definition connectivity : string := "redis::connectivity".

(** The checks after those of the cluster. *)
Definition rest_ok (ks : list (string * bool)) : Prop := exists counters,
  ks = unmarked (replication_checks ++ client_checks ++ memory_checks) ++ counters ++ unmarked (ops_checks ++ persistence_checks)
  /\ counters_ok counters.

Lemma gather_rest_reports acc : reports_told rest_ok
  (_ ← gather_replication is_print visit ins target acc; _ ← gather_clients is_print ins target acc;
   _ ← gather_memory is_print ins target acc; _ ← gather_stats is_print ins target acc; gather_persistence is_print ins target acc).
Proof.
  eapply reports_weaken.
  { apply reports_cat; [apply reports_unmarked, gather_replication_reports|intros _].
    apply reports_cat; [apply reports_unmarked, gather_clients_reports|intros _].
    apply reports_cat; [apply reports_unmarked, gather_memory_reports|intros _].
    apply reports_cat; [apply gather_stats_reports|intros _; apply reports_unmarked, gather_persistence_reports]. }
  intros ? (? & ? & -> & (? & -> & <-) & ? & ? & -> & (? & -> & <-) & ? & ? & -> & (? & -> & <-) & ? & ? & -> & (counters & -> & Hc) & (? & -> & <-)).
  exists counters. unfold unmarked. rewrite !map_app, <- !app_assoc. by split.
Qed.

(** Connecting and PING: the connection, or why there is none. *)
Definition contact (g : gstate W) : go (res string RedisAccessor) * gstate W :=
  on_net (acc ←? NewRedisAccessor is_print (accessor_config s target); _ ←? Ping is_print acc; e_ok acc) g.

Lemma server_info_same acc g1 g2 : g_net g1 = g_net g2 -> g_cache g1 = g_cache g2 -> server_info acc g1 = server_info acc g2.
Proof.
  intros En Ec. unfold server_info, infoSection. rewrite Ec. destruct (g_cache g2 !! "server"); [done|].
  unfold e_bind, io_bind, on_net. rewrite En. destruct (Info is_print acc "server" (g_net g2)) as [[[info|err]|] n]; done.
Qed.

(** What one gathering reports, by what the connection came to and what the
    server said of itself. *)
Definition gather_ok (answer : go (res string RedisAccessor) * gstate W) (checks : list string) (evs : list Event) : Prop :=
  match answer with
  | (Ret (Good acc), g) =>
    exists counters,
      checks = connectivity :: response_checks ++ cluster_expected (server_info acc g) ++ replication_checks ++ client_checks
               ++ memory_checks ++ counters ++ ops_checks ++ persistence_checks /\
      (counters ≡ₚ counter_checks s \/
       exists c e, counters = [c] /\ c ∈ counter_checks s /\ e ∈ evs /\ event_of target c e /\ EventStatus e = EventStatusCritical)
  | (Ret (Bad err), _) =>
    checks = [connectivity] /\
    exists e, evs = [e] /\ EventStatus e = Connectivity s /\ Description e = "redis ping failed: " +:+ err
  | (Panic, _) => False
  end.

Lemma ping_failed_event start err g g' : ping_failed ins target start err g = (Ret tt, g') ->
  exists evs, g_events g' = g_events g ++ evs /\ events_of target [connectivity] evs /\
    exists e, evs = [e] /\ EventStatus e = Connectivity s /\ Description e = "redis ping failed: " +:+ err.
Proof.
  intros [= <-]. eexists. split; [reflexivity|]. split; [apply events_one, newEvent_of|]. by eexists.
Qed.

Lemma gather_connected_spec acc start g g' : gather_connected is_print visit ins target acc start g = (Ret tt, g') ->
  exists checks evs, g_events g' = g_events g ++ evs /\ events_of target checks evs /\
    gather_ok (on_net (_ ←? Ping is_print acc; e_ok acc) g) checks evs.
Proof.
  unfold gather_connected. intros H. apply io_bind_inv in H as (r & g1 & Hp & H).
  assert (on_net (_ ←? Ping is_print acc; e_ok acc) g = (Ret (match r with Good _ => Good acc | Bad e => Bad e end), g1)) as ->.
  { unfold on_net, e_bind, io_bind in *. destruct (Ping is_print acc (g_net g)) as [[[u|e]|] n]; cbn in Hp |- *; simplify_eq; done. }
  pose proof (silent_on_net _ _ _ _ Hp) as Hg. unfold pushed, gstate_pushing in Hg. rewrite <- Hg. destruct r as [u|err].
  2:{ apply ping_failed_event in H as (evs & He & Hl & Ho). exists [connectivity], evs. by split_and!. }
  apply io_bind_inv in H as (t & ? & [= <- <-] & H). apply io_bind_inv in H as ([] & ? & [= <-] & H).
  apply io_bind_inv in H as ([] & ? & [= <-] & H). apply io_bind_inv in H as ([] & g2 & Hc & H).
  apply gather_cluster_reports in Hc as (evs2 & He2 & Hl2). rewrite (server_info_same acc _ g1) in Hl2 by done.
  apply gather_rest_reports in H as (ks & evs3 & He3 & Hl3 & counters & -> & Hk).
  unfold pushed, gstate_pushing in He3. rewrite He3, He2. cbn [g_events]. rewrite <- !app_assoc.
  eexists (connectivity :: response_checks ++ cluster_expected (server_info acc g1) ++ (_ : list (string * bool)).*1), _.
  split; [reflexivity|]. split.
  - cbn [app]. apply Forall2_cons. split; [apply newEvent_of|]. apply Forall2_app; [apply checkResponseTime_of|]. apply Forall2_app; [exact Hl2|].
    apply (Forall2_fmap_l fst (event_of target)). eapply Forall2_impl; [exact Hl3|]. by intros k e [Hk' _].
  - exists counters.*1. split.
    { rewrite !fmap_app, !unmarked_fst. by rewrite <- !app_assoc. }
    destruct Hk as [(l & -> & Hl)|(c & -> & Hc)]; [left; by rewrite unmarked_fst|]. right.
    assert (exists e, e ∈ evs3 /\ told (c, true) e) as (e & Hin & Hev & Hcrit).
    { apply Forall2_app_inv_l in Hl3 as (a & b & _ & Hb & ->). cbn in Hb. apply Forall2_cons_inv_l in Hb as (e & b' & He & _ & ->).
      exists e. split; [set_solver|done]. }
    exists c, e. split_and!; [done|done|set_solver|done|by apply Hcrit].
Qed.

Lemma gather_ok_NoDup answer checks evs : gather_ok answer checks evs -> NoDup checks.
Proof.
  destruct answer as [[[acc|err]|] g]; cbn; [|intros [-> _]; apply NoDup_singleton|done].
  intros (counters & -> & Hk).
  eapply (submseteq_NoDup _ (connectivity :: ["redis::response_time"]
    ++ (["redis::cluster_state"] ++ ["redis::cluster_topology"])
    ++ (["redis::role"] ++ ["redis::master_link_status"] ++ ["redis::connected_slaves"] ++ ["redis::repl_lag"])
    ++ (["redis::connected_clients"] ++ ["redis::blocked_clients"])
    ++ (["redis::used_memory"] ++ ["redis::used_memory_pct"])
    ++ (["redis::evicted_keys"] ++ ["redis::expired_keys"] ++ ["redis::rejected_connections"])
    ++ ["redis::instantaneous_ops_per_sec"] ++ ["redis::persistence"])).
  - apply submseteq_skip. repeat apply submseteq_app; try apply opt_submseteq.
    + unfold response_checks. destruct (_ && _); [apply submseteq_nil_l|done].
    + unfold cluster_expected. repeat destruct_match_goal; try apply submseteq_nil_l; repeat apply submseteq_app; apply opt_submseteq.
    + assert (counter_checks s ⊆+ ["redis::evicted_keys"] ++ ["redis::expired_keys"] ++ ["redis::rejected_connections"]) as Hall
        by (repeat apply submseteq_app; apply opt_submseteq).
      destruct Hk as [->|(c & e & -> & Hc & _)]; [done|]. etrans; [|exact Hall]. by apply singleton_submseteq_l.
  - apply (bool_decide_unpack _). vm_compute. exact I.
Qed.

End gather.

(** ** Counters over many gatherings *)
Definition attr (k : string) (e : Event) : string := default "" (Attrs e ≫= lookup k).

Section counters.
Variable is_print : Z -> bool.
Variable visit : gmap string string -> list (string * string).
Variable target : string.

(** The events of [checkCounterDeltas] over successive answers. *)
Fixpoint counters_run (ins : Instance) (infos : list (gmap string string)) : list Event * Instance :=
  match infos with
  | [] => ([], ins)
  | info :: infos' =>
    let '(evs, ins) := checkCounterDeltas is_print ins target info in
    let '(evs', ins) := counters_run ins infos' in (evs ++ evs', ins)
  end.

Definition is_evicted (e : Event) : Prop := check_of e = "redis::evicted_keys".
#[local] Instance is_evicted_dec e : Decision (is_evicted e).
Proof. unfold is_evicted. apply _. Defined.

Lemma filter_other check name c prev now ins :
  check <> "redis::evicted_keys" -> filter is_evicted (counter_event ins target check name c prev now) = [].
Proof.
  intros Hne. apply filter_none. pose proof (counter_event_of ins target check name c prev now) as H.
  assert (Forall (fun c => c = check) (if enabled c then [check] else [])) as Hc by (destruct (enabled c); by repeat constructor).
  induction H as [|c' e cs evs [He _] H IH]; constructor.
  - inversion Hc; subst. unfold is_evicted. congruence.
  - inversion Hc; subst. by apply IH.
Qed.

(** The other counters can be read. *)
Definition others_readable (ins : Instance) (info : gmap string string) : Prop :=
  (exists b, read_counter is_print ins target info (ExpiredKeys (settings ins)) "redis::expired_keys" "expired_keys" = Good b) /\
  (exists d, read_counter is_print ins target info (RejectedConn (settings ins)) "redis::rejected_connections"
               "rejected_connections" = Good d).

Lemma counters_step ins info v p :
  enabled (EvictedKeys (settings ins)) = true -> target ∈ initialized ins -> prevStats ins !! target = Some p ->
  infoGetUint64 is_print info "evicted_keys" = Good (Some v) -> others_readable ins info ->
  exists evs ins', checkCounterDeltas is_print ins target info = (evs, ins') /\
    settings ins' = settings ins /\ target ∈ initialized ins' /\
    (exists p', prevStats ins' !! target = Some p' /\ evictedKeys p' = v) /\
    map (attr "delta") (filter is_evicted evs) = [itoa (counter_delta v (evictedKeys p))].
Proof.
  intros He Hi Hp Hv [[b Hb] [d Hd]]. unfold checkCounterDeltas. unfold read_counter at 1. rewrite He, Hv, Hb, Hd. cbn [negb].
  eexists _, _. split; [reflexivity|]. split; [done|]. split; [cbn; set_solver|].
  split; [eexists; split; [apply lookup_insert_eq|done]|].
  rewrite !bool_decide_eq_true_2 by done. rewrite Hp, !filter_app. rewrite (filter_other "redis::expired_keys"), (filter_other "redis::rejected_connections") by done.
  rewrite !app_nil_r. unfold counter_event. rewrite He. cbn [negb default]. unfold checkDeltaCount.
  rewrite filter_cons_True, filter_nil.
  - cbn [map]. f_equal. unfold attr, by_status. by repeat case_decide.
  - unfold is_evicted, label. rewrite by_status_labels. exact (newEvent_check ins _ target).
Qed.

Lemma last_shift (v : Z) l d : List.last (v :: l) d = List.last l v.
Proof.
  revert v d. induction l as [|x l IH]; intros v d; [done|].
  change (List.last (v :: x :: l) d) with (List.last (x :: l) d). by rewrite !IH.
Qed.

(** The changes of a counter that are reported between a reading and a later one
    add up to the difference, as long as it does not go back. *)
Theorem counter_deltas_add_up ins p infos vs :
  enabled (EvictedKeys (settings ins)) = true -> target ∈ initialized ins -> prevStats ins !! target = Some p ->
  Forall2 (fun info v => infoGetUint64 is_print info "evicted_keys" = Good (Some v) /\ others_readable ins info) infos vs ->
  StronglySorted Z.le (evictedKeys p :: vs) ->
  exists ds, map (attr "delta") (filter is_evicted (counters_run ins infos).1) = map itoa ds /\
    Forall (fun d => 0 <= d) ds /\ length ds = length infos /\
    foldr Z.add 0 ds = List.last vs (evictedKeys p) - evictedKeys p.
Proof.
  intros He Hi Hp Hall Hs. revert ins p He Hi Hp Hall Hs. revert vs.
  induction infos as [|info infos IH]; intros vs ins p He Hi Hp Hall Hs.
  { inversion Hall; subst. exists []. split_and!; [done|constructor|done|cbn; lia]. }
  apply Forall2_cons_inv_l in Hall as (v & vs' & [Hv Ho] & Hall & ->).
  destruct (counters_step ins info v p He Hi Hp Hv Ho) as (evs & ins' & E & Hset & Hi' & (p' & Hp' & Hpv) & Hd).
  apply StronglySorted_inv in Hs as [Hs Hle]. apply Forall_cons in Hle as [Hle _].
  destruct (IH vs' ins' p') as (ds & Hds & Hpos & Hlen & Hsum); [by rewrite Hset|done|done| |by rewrite Hpv|].
  { eapply Forall2_impl; [exact Hall|]. intros i' v' [H1 H2]. split; [done|].
    unfold others_readable, read_counter, newEvent in *. by rewrite Hset. }
  exists (counter_delta v (evictedKeys p) :: ds). unfold counter_delta in *. rewrite (proj2 (Z.leb_le _ _)) in * by done.
  cbn [counters_run]. rewrite E. destruct (counters_run ins' infos) as [evs' ins''].
  cbn [fst] in Hds |- *. rewrite filter_app, map_app, Hd, Hds. cbn [map foldr length app].
  split_and!; [done|constructor; [lia|done]|by rewrite Hlen|].
  rewrite Hsum, Hpv, (last_shift v vs'). lia.
Qed.
End counters.

(** ** The replication lag *)
Lemma fold_max_perm l k z : l ≡ₚ k -> fold_left Z.max l z = fold_left Z.max k z.
Proof.
  intros H. revert z. induction H; intros z; cbn; [done|auto| |by rewrite IHPermutation1].
  f_equal. lia.
Qed.

(** What one field contributes. *)
Definition field_lag (is_print : Z -> bool) (m : Z) (p : string * string) : res string (list Z) :=
  replica_lags is_print [p] m.

Lemma replica_lags_cons is_print p l m :
  replica_lags is_print (p :: l) m =
  match field_lag is_print m p with
  | Bad err => Bad err
  | Good a => match replica_lags is_print l m with Good b => Good (a ++ b) | Bad err => Bad err end
  end.
Proof.
  unfold field_lag. destruct p as [key value]. cbn [replica_lags].
  repeat (destruct_match_goal; simplify_eq/=); done.
Qed.

(** Either both fail, or they have the same lags in some order. *)
Definition same_lags (r r' : res string (list Z)) : Prop :=
  match r, r' with Good l, Good k => l ≡ₚ k | Bad _, Bad _ => True | _, _ => False end.

Lemma replica_lags_perm is_print l k m : l ≡ₚ k -> same_lags (replica_lags is_print l m) (replica_lags is_print k m).
Proof.
  induction 1 as [|p l k H IH|p q l|l k n H1 IH1 H2 IH2]; rewrite ?replica_lags_cons.
  - apply (Permutation_refl []). 
  - destruct (field_lag is_print m p); [|done].
    destruct (replica_lags is_print l m), (replica_lags is_print k m); cbn in *; try done. by rewrite IH.
  - destruct (field_lag is_print m p), (field_lag is_print m q), (replica_lags is_print l m); cbn; try done.
    apply Permutation_app_swap_app.
  - destruct (replica_lags is_print l m), (replica_lags is_print k m), (replica_lags is_print n m); cbn in *; try done.
    by rewrite IH1.
Qed.

Lemma lags_nonneg is_print l m lags lag : replica_lags is_print l m = Good lags -> lag ∈ lags -> 0 <= lag.
Proof.
  revert lags. induction l as [|[key value] l IH]; intros lags; cbn; [intros [= <-]; set_solver|].
  destruct (negb _); [apply IH|]. destruct (replica_offset _); [|apply IH]. destruct (ParseInt _) as [o|]; [|done].
  destruct (replica_lags is_print l m) as [lags'|]; [|done]. intros [= <-]. rewrite elem_of_cons.
  intros [->|H]; [|by eapply IH]. destruct (Z.ltb_spec (m ⊟ o) 0); lia.
Qed.

Lemma fold_max_spec l z :
  z <= fold_left Z.max l z /\ (forall x, x ∈ l -> x <= fold_left Z.max l z) /\
  (fold_left Z.max l z = z \/ fold_left Z.max l z ∈ l).
Proof.
  revert z. induction l as [|y l IH]; intros z; cbn; [split; [lia|split; [set_solver|by left]]|].
  destruct (IH (Z.max z y)) as (H1 & H2 & H3). split; [lia|]. split.
  - intros x [->|Hx]%elem_of_cons; [lia|auto].
  - destruct H3 as [->|H3]; [|set_solver]. destruct (Z.max_spec z y) as [[_ ->]|[_ ->]]; [right; set_solver|by left].
Qed.

(** The lag of a master is the largest lag of its replicas, whatever the order in
    which the fields are visited; it also fails for every order or for none. *)
Theorem max_lag_ignores_order is_print visit visit' info m :
  (forall i, visit i ≡ₚ map_to_list i) -> (forall i, visit' i ≡ₚ map_to_list i) ->
  match maxReplicaLagFromMaster is_print visit info m, maxReplicaLagFromMaster is_print visit' info m with
  | Good r, Good r' => r = r' /\ 0 <= r.1 /\
      exists lags, replica_lags is_print (map_to_list info) m = Good lags /\ r.2 = zlen lags /\
        (forall lag, lag ∈ lags -> 0 <= lag <= r.1) /\ (lags <> [] -> r.1 ∈ lags)
  | Bad _, Bad _ => True
  | _, _ => False
  end.
Proof.
  intros Hv Hv'. unfold maxReplicaLagFromMaster.
  pose proof (replica_lags_perm is_print (visit info) (map_to_list info) m (Hv info)) as H1.
  pose proof (replica_lags_perm is_print (visit' info) (map_to_list info) m (Hv' info)) as H2.
  destruct (replica_lags is_print (map_to_list info) m) as [lags|err] eqn:E,
    (replica_lags is_print (visit info) m), (replica_lags is_print (visit' info) m); cbn in H1, H2; try done.
  assert (forall lag, lag ∈ lags -> 0 <= lag) as Hpos by (intros lag; by apply (lags_nonneg _ _ _ _ _ E)).
  rewrite (fold_max_perm _ _ _ H1), (fold_max_perm _ _ _ H2). unfold zlen. rewrite H1, H2.
  destruct (fold_max_spec lags 0) as (Hge & Hmax & Hin). cbn [fst snd]. split; [done|]. split; [done|].
  exists lags. split_and!; try done; [by rewrite H1|auto|]. intros Hne. destruct Hin as [Hin|Hin]; [|done]. rewrite Hin in *.
  destruct lags as [|x lags]; [done|]. assert (x = 0) as -> by (apply Z.le_antisymm; [apply Hmax|apply Hpos]; set_solver).
  set_solver.
Qed.

(** ** Concrete runs *)

Definition in_order (m : gmap string string) : list (string * string) := map_to_list m.
Definition ex_redis : Instance :=
  mkInstance "" ["db:6379"]
    (mkSettings 10 (3 * Second) (2 * Second) "" "" 0 redisModeStandalone "" no_client "Critical" no_ge
       (mkExpect "master" "Warning") no_ge no_ge no_ge no_ge no_ge no_ge (mkExpect "" "") (mkMin 0 0) (mkGe 5 10) no_ge no_ge
       (mkPersistence None "") (mkClusterState None "") None) ∅ ∅ ∅ ∅.
Definition ex_replication : string := "role:slave" +:+ crlf +:+ "connected_slaves:0" +:+ crlf.
Definition ex_stats : string := "evicted_keys:7" +:+ crlf.
Definition ex_script : list string := ["+PONG" +:+ crlf; bulk ex_replication; bulk ex_stats].
Definition ex_start : gstate (list string) := mkG (mkNet ex_script 0 ∅) [] ex_redis ∅.


Definition ex_evicted (n : string) : gmap string string := {["evicted_keys" := n]}.
Definition ex_running : Instance :=
  mkInstance "" ["db:6379"] (settings ex_redis) {["db:6379" := mkSnapshot 7 0 0]} {["db:6379"]} ∅ ∅.

Lemma counter_deltas_add_up_witness :
  exists ds, map (attr "delta") (filter is_evicted
      (counters_run no_print "db:6379" ex_running [ex_evicted "9"; ex_evicted "20"]).1) = map itoa ds /\
    foldr Z.add 0 ds = 13.
Proof.
  destruct (counter_deltas_add_up no_print in_order "db:6379" ex_running (mkSnapshot 7 0 0) [ex_evicted "9"; ex_evicted "20"]
    [9; 20]) as (ds & Hds & _ & _ & Hsum).
  - vm_compute. reflexivity.
  - vm_compute. reflexivity.
  - vm_compute. reflexivity.
  - repeat constructor; try (vm_compute; reflexivity); exists 0; vm_compute; reflexivity.
  - repeat constructor; vm_compute; discriminate.
  - exists ds. split; [exact Hds|exact Hsum].
Defined.

Definition ex_info : gmap string string :=
  list_to_map [("role", "master"); ("slave0", "ip=10.0.0.2,port=6379,offset=90,lag=0"); ("slave1", "ip=10.0.0.3,offset=40")].

Lemma max_lag_ignores_order_witness :
  maxReplicaLagFromMaster no_print in_order ex_info 100 = Good (60, 2) /\
  maxReplicaLagFromMaster no_print (fun m => reverse (in_order m)) ex_info 100 = Good (60, 2).
Proof.
  pose proof (max_lag_ignores_order no_print in_order (fun m => reverse (in_order m)) ex_info 100 (fun m => reflexivity _)
    (fun m => reverse_Permutation _)) as H.
  assert (maxReplicaLagFromMaster no_print in_order ex_info 100 = Good (60, 2)) as E by (vm_compute; reflexivity).
  split; [exact E|]. rewrite E in H.
  destruct (maxReplicaLagFromMaster no_print (fun m => reverse (in_order m)) ex_info 100) as [r|err]; [|destruct H].
  destruct H as [<- _]. reflexivity.
Defined.

(** Two targets, one slot: the first hangs, the second waits for the slot when
    the gathering times out.  It is not marked as in flight, so that the next
    gathering starts it once more. *)
Theorem waiting_target_started_twice :
  let ins := mkInstance "" ["a:1"; "b:1"] (settings ex_redis) ∅ ∅ ∅ ∅ in
  let stuck := fun started : list string => ([] : list (Z * string), [(100, "a:1")]) in
  exists g', Gather no_print in_order "" 100 stuck (mkG (mkNet ([] : list string) 0 ∅) [] ins ∅) = Ret g' /\
    (start_targets (30 * Second) 100 (Targets ins) ins).1.2 = ["a:1"; "b:1"] /\
    (start_targets (30 * Second) 160 (Targets (g_ins g')) (g_ins g')).1.2 = ["b:1"].
Proof. eexists. split; [reflexivity|]. split; vm_compute; reflexivity. Qed.
