(* ===== verification/RedisPeer.v ===== *)
(** * Peers of a Redis cluster (plugins/redis/peer.go)

    The nodes of CLUSTER NODES, which of them are probed, what a probe reports,
    and the read-only commands that a diagnosis may send to a node of the
    topology. *)
From S2P Require Import Prelude GoStr GoLib GoConv GoFmt GoIo Resp Pushing PluginConfig RedisConfig RedisChecks RedisGather.
#[local] Open Scope Z_scope.
#[local] Open Scope go_scope.

Definition maxProbePeers : nat := 20.
Definition peerProbeTimeout : Z := 3 * Second.

Record clusterNodeEntry := mkNode {
  node_ID : string; Address : string; Flags : list string; node_Role : string; MasterID : string; LinkState : string;
  IsSelf : bool; IsFail : bool; IsPFail : bool; IsNoAddr : bool
}.

Record peerProbeResult := mkProbe {
  NodeID : string; pr_Address : string; pr_Role : string; Reachable : bool; Latency : Z; pr_Error : string;
  Snapshot : string
}.

(** ** The nodes *)
Definition has_flag (flags : list string) (f : string) : bool := bool_decide (f ∈ flags).

(** The last of the two roles among the flags. *)
Definition role_of (flags : list string) : string :=
  fold_left (fun role f => if bool_decide (f ∈ ["master"; "slave"]) then f else role) flags "unknown".

Definition parse_node (line : string) : option clusterNodeEntry :=
  let line := TrimSpace line in
  if decide (line = "") then None
  else
    match Fields line with
    | id :: addr :: flags :: master :: _ :: _ :: _ :: link :: _ =>
      let addr := match cut_at "@"%char addr with Some (a, _) => a | None => addr end in
      let flags := split_on ","%char flags in
      let noaddr := bool_decide (addr ∈ [":0"; ""]) in
      Some (mkNode id (if noaddr then "" else addr) flags (role_of flags) master link
              (has_flag flags "myself") (has_flag flags "fail") (has_flag flags "fail?" || has_flag flags "pfail")
              (has_flag flags "noaddr" || noaddr))
    | _ => None
    end.

Definition parseClusterNodes (raw : string) : list clusterNodeEntry :=
  omap parse_node (split_on (ascii_of_N 10) raw).

(** ** Candidates *)
Definition is_self (selfAddr : string) (n : clusterNodeEntry) : bool :=
  IsSelf n || (nonempty (Address n) && bool_decide (Address n = selfAddr)).

Fixpoint selfMasterID (nodes : list clusterNodeEntry) (selfNodeID : string) : string :=
  match nodes with
  | [] => ""
  | n :: nodes' => if decide (node_ID n = selfNodeID) then MasterID n else selfMasterID nodes' selfNodeID
  end.

Definition self_id (nodes : list clusterNodeEntry) (selfAddr : string) : string :=
  match list_find (fun n => is_self selfAddr n = true) nodes with Some (_, n) => node_ID n | None => "" end.

Inductive peer_class := Self | Unprobeable | Priority | Related | Other.
#[export] Instance peer_class_eq_dec : EqDecision peer_class.
Proof. solve_decision. Defined.

Definition classify (nodes : list clusterNodeEntry) (selfAddr : string) (n : clusterNodeEntry) : peer_class :=
  let selfNodeID := self_id nodes selfAddr in
  if is_self selfAddr n then Self
  else if IsNoAddr n then Unprobeable
  else if IsFail n || IsPFail n then Priority
  else if nonempty selfNodeID
          && (bool_decide (MasterID n = selfNodeID) || bool_decide (node_ID n = selfMasterID nodes selfNodeID))
       then Related
  else Other.

Definition of_class (nodes : list clusterNodeEntry) (selfAddr : string) (c : peer_class) : list clusterNodeEntry :=
  filter (fun n => classify nodes selfAddr n = c) nodes.

Definition id_le (a b : clusterNodeEntry) : Prop := String.le (node_ID a) (node_ID b).
#[export] Instance id_le_dec a b : Decision (id_le a b).
Proof. unfold id_le. apply _. Defined.

(** The probed nodes, and those without an address; node IDs are distinct, so
    that sorting the others by ID has one result. *)
Definition selectProbeCandidates (nodes : list clusterNodeEntry) (selfAddr : string)
  : list clusterNodeEntry * list clusterNodeEntry :=
  let part := of_class nodes selfAddr in
  (take maxProbePeers (part Priority ++ part Related ++ merge_sort id_le (part Other)), part Unprobeable).

(** ** Errors *)
Definition classifyConnError (s : string) : string :=
  let has := Contains s in
  if has "connection refused" then "connection refused"
  else if has "i/o timeout" || has "deadline exceeded" then "timeout"
  else if has "no route to host" then "no route to host"
  else if has "connection reset" then "connection reset"
  else if has "AUTH" || has "NOAUTH" || has "invalid password" || has "WRONGPASS" || has "username-password"
       then "auth failed"
  else if has "context canceled" then "context cancelled"
  else if 80 <? slen s then stake 80 s +:+ "..." else s.

Definition clampInt (v minV maxV : Z) : Z := if v <? minV then minV else if maxV <? v then maxV else v.
Definition parseIntArg (raw : string) (fallback : Z) : Z :=
  if decide (raw = "") then fallback
  else match Atoi (TrimSpace raw) with Good v => v | Bad _ => fallback end.

(** ** Texts *)
(** [%ws]: pad on the left to [w] runes. *)
Definition pad_left (w : Z) (s : string) : string := spaces (Z.to_nat (w - RuneCount s)) +:+ s.

Definition formatLatency (d : Z) : string :=
  if d <? 1000000 then "<1ms" else itoa (go_div d 1000000) +:+ "ms".

Definition shortID (id : string) : string := if 8 <? slen id then stake 8 id else id.

Definition result_line (r : peerProbeResult) : string :=
  shortID (NodeID r) +:+ "  " +:+ pad_right 21 (pr_Address r) +:+ "  " +:+ pad_right 7 (pr_Role r) +:+
  (if Reachable r then "  ✓ " +:+ pad_left 4 (formatLatency (Latency r)) +:+ "  " +:+ Snapshot r +:+ newline
   else "  ✗       " +:+ pr_Error r +:+ newline).

Definition unprobeable_line (n : clusterNodeEntry) : string :=
  let status := if IsFail n then "fail,noaddr" else if IsPFail n then "pfail,noaddr" else "noaddr" in
  shortID (node_ID n) +:+ "  " +:+ pad_right 21 "(no address)" +:+ "  " +:+ pad_right 7 (node_Role n) +:+
  "  ✗       " +:+ status +:+ " (unprobeable)" +:+ newline.


Definition formatPeerConnectivity (results : list peerProbeResult) (unprobeable : list clusterNodeEntry)
    (totalNodes probedCount : Z) : string :=
  "[PEER CONNECTIVITY]" +:+ newline +:+
  (if probedCount <? totalNodes - 1 - zlen unprobeable
   then "(probed " +:+ itoa probedCount +:+ "/" +:+ itoa (totalNodes - 1)
        +:+ " peers, priority: fail/pfail + related replicas)" +:+ newline
   else "") +:+
  concat_lines (map result_line results) +:+ concat_lines (map unprobeable_line unprobeable).

Section peer.
Context {W : Type} `{!Network W}.
Variable is_print : Z -> bool.

(** ** Probes *)
Definition net_clock : io (net W) Z := io_gets (fun n => net_now (world n)).

(** [defer acc.Close()]. *)
Definition closing_conn {A} (acc : RedisAccessor) (m : io (net W) A) : io (net W) A := fun n =>
  let '(r, n) := m n in
  let '(_, n) := acc_Close acc n in (r, n).

(** A section of INFO, or nothing when it fails. *)
Definition info_part (acc : RedisAccessor) (section : string) (f : gmap string string -> list string)
  : io (net W) (list string) :=
  r ← Info is_print acc section;
  io_ret (match r with Good info => f info | Bad _ => [] end).

(** A number that can be parsed; 0 when it is missing. *)
Definition info_int64 (info : gmap string string) (key : string) : option Z :=
  match infoGetInt64 is_print info key with Good n => Some (default 0 n) | Bad _ => None end.

Definition memory_part (info : gmap string string) : list string :=
  match info_int64 info "used_memory" with
  | Some n =>
    if 0 <? n then
      let max := match info_int64 info "maxmemory" with
                 | Some m => if 0 <? m then "/" +:+ human m else ""
                 | None => "" end in
      ["mem=" +:+ human n +:+ max]
    else []
  | None => []
  end.

Definition field_part (prefix key : string) (info : gmap string string) : list string :=
  match info !! key with Some v => [prefix +:+ v] | None => [] end.

Definition lag_part (info : gmap string string) : list string :=
  if decide (info !! "role" = Some "slave") then
    match infoGetInt64 is_print info "master_repl_offset", infoGetInt64 is_print info "slave_repl_offset" with
    | Good (Some m), Good (Some s) => ["repl_lag=" +:+ itoa (m ⊟ s)]
    | _, _ => []
    end
  else [].

Definition collectPeerSnapshot (acc : RedisAccessor) : io (net W) string :=
  mem ← info_part acc "memory" memory_part;
  clients ← info_part acc "clients" (field_part "clients=" "connected_clients");
  ops ← info_part acc "stats" (field_part "ops/s=" "instantaneous_ops_per_sec");
  lag ← info_part acc "replication" lag_part;
  let parts := mem ++ clients ++ ops ++ lag in
  io_ret (match parts with [] => "ok" | _ => Join parts ", " end).

Definition peer_config (s : Settings) (address : string) : RedisAccessorConfig :=
  mkAccessorConfig address (Username s) (Password s) 0 peerProbeTimeout peerProbeTimeout.

Definition probeSinglePeer (s : Settings) (node : clusterNodeEntry) : io (net W) peerProbeResult :=
  let result := mkProbe (node_ID node) (Address node) (node_Role node) in
  start ← net_clock;
  r ← NewRedisAccessor is_print (peer_config s (Address node));
  match r with
  | Bad err => io_ret (result false 0 (classifyConnError err) "")
  | Good acc =>
    closing_conn acc
      (r ← Ping is_print acc;
       match r with
       | Bad err => io_ret (result false 0 (classifyConnError err) "")
       | Good _ =>
         t ← net_clock;
         snapshot ← collectPeerSnapshot acc;
         io_ret (result true (t ⊟ start) "" snapshot)
       end)
  end.

(** The probes run concurrently; [order] is the order in which they get a slot,
    and [cancelled] those whose context ends before. *)
Fixpoint probe_each (s : Settings) (candidates : list clusterNodeEntry) (cancelled : nat -> bool) (order : list nat)
    (results : gmap nat peerProbeResult) : io (net W) (gmap nat peerProbeResult) :=
  match order with
  | [] => io_ret results
  | i :: order' =>
    match candidates !! i with
    | None => probe_each s candidates cancelled order' results
    | Some n =>
      r ← (if cancelled i
           then io_ret (mkProbe (node_ID n) (Address n) (node_Role n) false 0 "context cancelled" "")
           else probeSinglePeer s n);
      probe_each s candidates cancelled order' (<[i := r]> results)
    end
  end.

Definition no_result : peerProbeResult := mkProbe "" "" "" false 0 "" "".

Definition probePeers (s : Settings) (candidates : list clusterNodeEntry) (cancelled : nat -> bool) (order : list nat)
  : io (net W) (list peerProbeResult) :=
  results ← probe_each s candidates cancelled order ∅;
  io_ret (map (fun i => default no_result (results !! i)) (seq 0 (length candidates))).

(** ** Commands to a peer *)
Definition peerCommandWhitelist : list string :=
  ["info"; "slowlog"; "client_list"; "cluster_info"; "memory_doctor"; "memory_stats"; "latency"; "config_get"].

Definition safeClientThreshold : Z := 5000.

Definition summary_keys : list string :=
  ["connected_clients"; "cluster_connections"; "maxclients"; "client_recent_max_input_buffer";
   "client_recent_max_output_buffer"; "blocked_clients"; "tracking_clients"; "clients_in_timeout_table";
   "total_blocking_clients"].

Definition clientSummaryFromInfo (acc : RedisAccessor) (clientCount : Z) : io (net W) (res string string) :=
  r ← Info is_print acc "clients";
  io_ret (match r with
  | Bad err => Bad ("INFO clients: " +:+ err)
  | Good info =>
    Good ("[!] CLIENT LIST skipped: " +:+ itoa clientCount +:+ " connected clients exceeds safe threshold (5000)."
      +:+ newline +:+ "Running CLIENT LIST with this many clients would block Redis for ~"
      +:+ itoa (go_div clientCount 500) +:+ "ms." +:+ newline +:+ newline
      +:+ "Client summary from INFO clients:" +:+ newline
      +:+ concat_lines (omap (fun k => match info !! k with
                                       | Some v => Some ("  " +:+ pad_right 40 k +:+ " " +:+ v +:+ newline)
                                       | None => None end) summary_keys)
      +:+ newline +:+ "Tip: Use redis_info with section=clients for full client statistics." +:+ newline)
  end).

(** The number of clients when it is too large for CLIENT LIST. *)
Definition too_many_clients (r : res string (gmap string string)) : option Z :=
  match r with
  | Good info =>
    match info !! "connected_clients" with
    | Some text => match Atoi text with Good n => if safeClientThreshold <? n then Some n else None | Bad _ => None end
    | None => None
    end
  | Bad _ => None
  end.

(** The answer of a peer, under a heading. *)
Definition answered (heading : string) (what : string) (m : io (net W) (res string string)) : io (net W) (res string string) :=
  r ← m;
  io_ret (match r with
  | Good text => Good (heading +:+ newline +:+ text)
  | Bad err => Bad (what +:+ ": " +:+ err)
  end).

Definition safeClientList (acc : RedisAccessor) (peer : string) : io (net W) (res string string) :=
  r ← Info is_print acc "clients";
  match too_many_clients r with
  | Some count =>
    answered ("[PEER " +:+ peer +:+ "] CLIENT LIST (summary, " +:+ itoa count +:+ " clients)")
      ("peer " +:+ peer +:+ " client summary") (clientSummaryFromInfo acc count)
  | None =>
    answered ("[PEER " +:+ peer +:+ "] CLIENT LIST") ("peer " +:+ peer +:+ " CLIENT LIST") (ClientList is_print acc)
  end.

Definition validatePeerInTopology (sessionAcc : option RedisAccessor) (peer : string) : io (net W) (res string unit) :=
  match sessionAcc with
  | None => e_err "no session accessor available to validate peer topology"
  | Some acc =>
    r ← ClusterNodes is_print acc;
    io_ret (match r with
    | Bad err => Bad ("cannot validate peer: CLUSTER NODES failed: " +:+ err)
    | Good nodesRaw =>
      if bool_decide (peer ∈ map Address (parseClusterNodes nodesRaw)) then Good tt
      else Bad ("peer " +:+ peer +:+ " is not in the current cluster topology, connection denied")
    end)
  end.

(** The [switch] on the command. *)
Definition run_peer_command (acc : RedisAccessor) (peer command cmdArgs : string) : io (net W) (res string string) :=
  let ask what args := answered ("[PEER " +:+ peer +:+ "] " +:+ what) ("peer " +:+ peer +:+ " " +:+ what)
                         (Command is_print acc args) in
  if decide (command = "info") then
    let section := or_empty cmdArgs "all" in
    answered ("[PEER " +:+ peer +:+ "] INFO " +:+ section) ("peer " +:+ peer +:+ " INFO " +:+ section)
      (InfoRaw is_print acc section)
  else if decide (command = "slowlog") then
    let count := parseIntArg cmdArgs 10 in
    answered ("[PEER " +:+ peer +:+ "] SLOWLOG GET " +:+ itoa count) ("peer " +:+ peer +:+ " SLOWLOG GET")
      (SlowlogGet is_print acc count)
  else if decide (command = "client_list") then safeClientList acc peer
  else if decide (command = "cluster_info") then ask "CLUSTER INFO" ["CLUSTER"; "INFO"]
  else if decide (command = "memory_doctor") then ask "MEMORY DOCTOR" ["MEMORY"; "DOCTOR"]
  else if decide (command = "memory_stats") then ask "MEMORY STATS" ["MEMORY"; "STATS"]
  else if decide (command = "latency") then
    r ← Command is_print acc ["LATENCY"; "LATEST"];
    io_ret (match r with
    | Bad err => Bad ("peer " +:+ peer +:+ " LATENCY LATEST: " +:+ err)
    | Good text =>
      Good ("[PEER " +:+ peer +:+ "] LATENCY LATEST" +:+ newline +:+
            (if bool_decide (text ∈ [""; "(nil)"]) then "No latency events recorded." else text))
    end)
  else if decide (command = "config_get") then
    let pattern := or_empty cmdArgs "*" in
    answered ("[PEER " +:+ peer +:+ "] CONFIG GET " +:+ pattern) ("peer " +:+ peer +:+ " CONFIG GET " +:+ pattern)
      (ConfigGet is_print acc pattern)
  else e_err ("unhandled command " +:+ Quote is_print command).

(** A connection of its own for one command. *)
Definition connect_and_run (s : Settings) (peer command cmdArgs : string) : io (net W) (res string string) :=
  r ← NewRedisAccessor is_print (peer_config s peer);
  match r with
  | Bad err => e_err ("connect to peer " +:+ peer +:+ ": " +:+ classifyConnError err)
  | Good acc => closing_conn acc (run_peer_command acc peer command cmdArgs)
  end.

Definition executePeerCommand (s : Settings) (sessionAcc : option RedisAccessor) (peer command cmdArgs : string)
  : io (net W) (res string string) :=
  if negb (bool_decide (command ∈ peerCommandWhitelist)) then
    e_err ("unsupported command " +:+ Quote is_print command +:+ ", allowed: "
           +:+ Join (sort_Strings peerCommandWhitelist) ", ")
  else
    _ ←? validatePeerInTopology sessionAcc peer; connect_and_run s peer command cmdArgs.
End peer.
