(* ===== verification/RedisPeerProps.v ===== *)
(** * Properties of the peers of a Redis cluster

    Where a command to a peer connects and what it sends, on a network that
    records both; which nodes are probed. *)
From S2P Require Import Prelude GoStr GoLib GoConv GoFmt GoIo Resp RespProps NetLog Pushing PluginConfig RedisConfig RedisChecks RedisGather RedisPeer.
#[local] Open Scope Z_scope.

(** ** What may be sent *)

(** Commands that only read; AUTH comes with every connection. *)
Inductive read_only : list string -> Prop :=
| ro_auth args : read_only ("AUTH" :: args)
| ro_info s : read_only ["INFO"; s]
| ro_slowlog n : read_only ["SLOWLOG"; "GET"; n]
| ro_clients : read_only ["CLIENT"; "LIST"]
| ro_cluster s : s ∈ ["INFO"; "NODES"] -> read_only ["CLUSTER"; s]
| ro_memory s : s ∈ ["DOCTOR"; "STATS"] -> read_only ["MEMORY"; s]
| ro_latency : read_only ["LATENCY"; "LATEST"]
| ro_config p : read_only ["CONFIG"; "GET"; p]
| ro_ping : read_only ["PING"]
| ro_scan args : read_only ("SCAN" :: args)
| ro_type key : read_only ["TYPE"; key]
| ro_usage key : read_only ["MEMORY"; "USAGE"; key].
#[export] Hint Constructors read_only : keeps.

Definition harmless (peer : string) (e : net_event) : Prop :=
  match e with
  | Dialled _ cfg => rc_Target cfg = peer
  | Wrote _ bytes => exists args, bytes = writeCommand args /\ read_only args
  | Closed _ => True
  end.

Section confined.
Context {W : Type} `{!Network W}.
Variable is_print : Z -> bool.
Variable P : net_event -> Prop.
Hypothesis P_wrote : forall c args, read_only args -> P (Wrote c (writeCommand args)).
Hypothesis P_closed : forall c, P (Closed c).
Variable log0 : list net_event.

Notation confined := (confined (W := W) P log0).
Let same (n n' : net (W * list net_event)) : log_of n' = log_of n -> next_conn n' = next_conn n -> confined n -> confined n'.
Proof. intros E _. by apply confined_same. Qed.
Let add (n n' : net (W * list net_event)) e :
  log_of n' = e :: log_of n -> next_conn n' = next_conn n -> P e -> confined n -> confined n'.
Proof. intros E _. by apply confined_add. Qed.

Lemma keeps_write c args : read_only args -> keeps confined (write_command c args).
Proof. intros Ha. apply (step_write P); [exact add|by apply P_wrote]. Qed.

Lemma keeps_read_reply c : keeps confined (read_reply is_print c).
Proof. apply step_read. exact same. Qed.

Lemma keeps_rawCommand c args : read_only args -> keeps confined (rawCommand is_print c args).
Proof. intros Ha. apply keeps_e_bind; [by apply keeps_write|]. intros _. apply keeps_read_reply. Qed.

Lemma keeps_command c args : read_only args -> keeps confined (command is_print c args).
Proof. intros Ha. apply keeps_e_bind; [by apply keeps_rawCommand|]. intros v. apply keeps_ret. Qed.

Lemma keeps_close c : keeps confined (close_conn c).
Proof. apply (step_close P); [exact add|apply P_closed]. Qed.

Lemma keeps_expect c name want args : read_only args -> keeps confined (expect_reply is_print c name want args).
Proof.
  intros Ha. apply keeps_e_bind; [by apply keeps_command|]. intros r. case_decide; apply keeps_ret.
Qed.

Lemma keeps_or_close c m : keeps confined m -> keeps confined (or_close c m).
Proof. apply (step_or_close P); [exact add|apply P_closed]. Qed.

Lemma keeps_connect cfg : (forall c, P (Dialled c cfg)) -> rc_DB cfg = 0 -> keeps confined (NewRedisAccessor is_print cfg).
Proof.
  intros Ht Hdb. apply keeps_e_bind.
  - by apply keeps_open.
  - intros c. apply keeps_e_bind.
    + destruct (_ || _); [|apply keeps_ret]. apply keeps_or_close, keeps_expect. constructor.
    + intros _. rewrite Hdb. apply keeps_ret.
Qed.

Lemma keeps_closing {A} acc (m : io (net (W * list net_event)) A) : keeps confined m -> keeps confined (closing_conn acc m).
Proof.
  intros Hm n Hn. specialize (Hm n Hn). unfold closing_conn. destruct (m n) as [r n'].
  pose proof (keeps_close (acc_conn acc) n' Hm) as Hc. unfold acc_Close. by destruct (close_conn (acc_conn acc) n').
Qed.

Lemma keeps_answered heading what m : keeps confined m -> keeps confined (answered heading what m).
Proof. intros Hm. apply keeps_bind; [done|]. intros r. apply keeps_ret. Qed.

Lemma keeps_info acc section : keeps confined (Info is_print acc section).
Proof. apply keeps_e_bind; [apply keeps_command; constructor|]. intros raw. apply keeps_ret. Qed.

Lemma keeps_peer_command acc peer command cmdArgs : keeps confined (run_peer_command is_print acc peer command cmdArgs).
Proof.
  assert (forall args, read_only args -> keeps confined (Command is_print acc args)) as Hc by (intros; by apply keeps_command).
  unfold run_peer_command. repeat case_decide; try (apply keeps_answered, Hc; constructor; set_solver).
  - apply keeps_bind; [apply keeps_info|]. intros r. destruct (too_many_clients r) as [count|].
    + apply keeps_answered, keeps_bind; [apply keeps_info|]. intros i. apply keeps_ret.
    + apply keeps_answered, Hc. constructor.
  - apply keeps_bind; [apply Hc; constructor|]. intros r. apply keeps_ret.
  - apply keeps_answered, keeps_e_bind; [apply keeps_rawCommand; constructor|]. intros v. apply keeps_ret.
  - apply keeps_ret.
Qed.
End confined.

Definition no_dial (e : net_event) : Prop :=
  match e with
  | Dialled _ _ => False
  | Wrote _ bytes => exists args, bytes = writeCommand args /\ read_only args
  | Closed _ => True
  end.

Lemma no_dial_harmless peer e : no_dial e -> harmless peer e.
Proof. by destruct e. Qed.

Lemma no_dial_wrote c args : read_only args -> no_dial (Wrote c (writeCommand args)).
Proof. intros H. by exists args. Qed.
Lemma harmless_wrote peer c args : read_only args -> harmless peer (Wrote c (writeCommand args)).
Proof. intros H. by exists args. Qed.

Lemma keeps_validate {W} `{!Network W} is_print acc peer (log0 : list net_event) :
  keeps (confined (W := W) no_dial log0) (validatePeerInTopology is_print (Some acc) peer).
Proof.
  apply keeps_bind; [|intros r; apply keeps_ret]. apply keeps_command; [exact no_dial_wrote|constructor; set_solver].
Qed.

Lemma validate_inv {W} `{!Network W} is_print acc peer (n n1 : net W) :
  validatePeerInTopology is_print (Some acc) peer n = (Ret (Good tt), n1) ->
  exists raw, ClusterNodes is_print acc n = (Ret (Good raw), n1) /\ peer ∈ map Address (parseClusterNodes raw).
Proof.
  intros H. apply io_bind_inv in H as ([raw|err] & n2 & E & H); [|done].
  case_bool_decide; [|done]. injection H as <-. eauto.
Qed.

(** C27: A command to a peer only reads, connects to nothing but the peer, and to the
    peer only when the session's own node names it in the topology. *)
Theorem peer_command_confined {W} `{!Network W} is_print s acc peer command cmdArgs (n : net (W * list net_event)) :
  let n' := (executePeerCommand is_print s (Some acc) peer command cmdArgs n).2 in
  exists new, log_of n' = new ++ log_of n /\ Forall (harmless peer) new /\
    ((exists c cfg, Dialled c cfg ∈ new) ->
     exists raw n1, ClusterNodes is_print acc n = (Ret (Good raw), n1) /\ peer ∈ map Address (parseClusterNodes raw)).
Proof.
  assert (forall n' : net (W * list net_event), confined no_dial (log_of n) n' -> exists new, log_of n' = new ++ log_of n /\ Forall (harmless peer) new /\
    ((exists c cfg, Dialled c cfg ∈ new) ->
     exists raw n1, ClusterNodes is_print acc n = (Ret (Good raw), n1) /\ peer ∈ map Address (parseClusterNodes raw))) as Hquiet.
  { intros n' (new & E & Hf). exists new. split; [done|]. split; [eapply Forall_impl; [exact Hf|apply no_dial_harmless]|].
    intros (c & cfg & Hin). by apply (proj1 (Forall_forall _ _) Hf) in Hin. }
  assert (confined no_dial (log_of n) n) as Hn by (exists []; split; [done|constructor]).
  cbv zeta. unfold executePeerCommand. destruct (negb _); [by apply Hquiet|].
  pose proof (keeps_validate is_print acc peer (log_of n) n Hn) as Hk.
  unfold e_bind at 1. unfold io_bind at 1.
  destruct (validatePeerInTopology is_print (Some acc) peer n) as [[[[]|err]|] n1] eqn:E; cbn in Hk |- *; try by apply Hquiet.
  apply validate_inv in E as (raw & E & Ht).
  assert (keeps (confined (harmless peer) (log_of n)) (connect_and_run is_print s peer command cmdArgs)) as Hm.
  { apply keeps_bind; [apply keeps_connect; try done; exact (harmless_wrote peer)|]. intros [a|err]; [|apply keeps_ret].
    apply keeps_closing; [done|]. apply keeps_peer_command; [exact (harmless_wrote peer)|done]. }
  destruct (Hm n1) as (new & El & Hf).
  { destruct Hk as (new & El & Hf). exists new. split; [done|]. eapply Forall_impl; [exact Hf|apply no_dial_harmless]. }
  exists new. split; [exact El|]. split; [done|]. intros _. eauto.
Qed.
