(* ===== verification/RedisDiagnose.v ===== *)
(** * The diagnosis tools of the Redis plugin (plugins/redis/diagnose.go)

    What each tool registered for Redis asks the server and answers to the AI,
    the sampling of big keys, the accessor factory and the pre-collector.

    A tool gets its session's accessor and instance as [any]; the context of a
    tool is [ctx_err], the error it has at the n-th time it is asked. *)
From S2P Require Import Prelude GoStr GoLib Types GoConv GoFmt GoIo Resp Pushing PluginConfig RedisConfig RedisChecks RedisGather RedisPeer.
#[local] Open Scope Z_scope.
#[local] Open Scope go_scope.

(** ** Sessions *)
Inductive any_accessor := RedisAccess (a : RedisAccessor) | OtherAccess (type : string).
Inductive any_instance := RedisInstance (s : Settings) (targets : list string) | OtherInstance (type : string).
Record redis_session := mkRedisSession { ses_Accessor : option any_accessor; ses_instanceRef : option any_instance }.

Definition getAccessor (session : redis_session) : res string RedisAccessor :=
  match ses_Accessor session with
  | None => Bad "no redis accessor in session (remote connection not established)"
  | Some (RedisAccess acc) => Good acc
  | Some (OtherAccess type) => Bad ("session accessor is " +:+ type +:+ ", expected *RedisAccessor")
  end.

(** The instance reference when it is one of Redis. *)
Definition instance_of (session : redis_session) : option Settings :=
  match ses_instanceRef session with Some (RedisInstance s _) => Some s | _ => None end.

(** ** Arguments and replies *)

(** [fmt.Sscanf(v, "%d", &count)]: [None] when [count] stays as it is. *)
Fixpoint skip_space (l : list (Z * string)) : option (list (Z * string)) :=
  match l with
  | [] => Some []
  | (r, t) :: l' => if r =? 10 then None else if IsSpace r then skip_space l' else Some l
  end.
Fixpoint take_digits (s : string) : string :=
  match s with
  | "" => ""
  | String c s' => if is_digit c then String c (take_digits s') else ""
  end.
Definition scan_int (v : string) : option Z :=
  match skip_space (segments v) with
  | None => None
  | Some l =>
    let s := concat_lines (map snd l) in
    let token := match s with
                 | String c s' => if bool_decide (c ∈ ["+"; "-"]%char) then String c (take_digits s') else take_digits s
                 | "" => ""
                 end in
    match ParseInt token with Good n => Some n | Bad _ => None end
  end.

Fixpoint string_elems (arr : list reply) : res string (list string) :=
  match arr with
  | [] => Good []
  | RString s :: arr' => match string_elems arr' with Good out => Good (s :: out) | Bad err => Bad err end
  | item :: _ => Bad ("unexpected array item type " +:+ type_name item)
  end.
Definition parseStringArray (v : reply) : res string (list string) :=
  match v with
  | RArray arr => string_elems arr
  | _ => Bad ("unexpected array reply type " +:+ type_name v)
  end.

Definition parseScanReply (v : reply) : res string (string * list string) :=
  match v with
  | RArray [RString cursor; keys] =>
    match parseStringArray keys with Good keys => Good (cursor, keys) | Bad err => Bad err end
  | RArray [c; _] => Bad ("redis SCAN cursor has unexpected type " +:+ type_name c)
  | _ => Bad ("redis SCAN returned unexpected reply type " +:+ type_name v)
  end.

(** The number, or [None] for a nil reply; the callers ignore the error's text. *)
Definition parseIntegerReply (v : reply) : res unit (option Z) :=
  match v with
  | RNil => Good None
  | RString s => match ParseInt (TrimSpace s) with Good n => Good (Some n) | Bad _ => Bad tt end
  | RArray _ => Bad tt
  end.

Record bigkeyCandidate := mkBigkey { big_Key : string; big_Type : string; big_Size : Z }.

(** Larger first, then by key. *)
Definition bigger (a b : bigkeyCandidate) : Prop :=
  big_Size b < big_Size a \/ (big_Size a = big_Size b /\ String.le (big_Key a) (big_Key b)).
#[export] Instance bigger_dec a b : Decision (bigger a b).
Proof. unfold bigger. apply _. Defined.

Record scan_state := mkScan {
  cursor : string; sampled : Z; countByType : gmap string Z; candidates : list bigkeyCandidate
}.
Definition scan_start : scan_state := mkScan "0" 0 ∅ [].
Definition with_cursor (c : string) (st : scan_state) : scan_state :=
  mkScan c (sampled st) (countByType st) (candidates st).
Definition add_candidate (b : bigkeyCandidate) (st : scan_state) : scan_state :=
  mkScan (cursor st) (sampled st + 1) (<[big_Type b := default 0 (countByType st !! big_Type b) + 1]> (countByType st))
    (candidates st ++ [b]).

(** The candidates that are shown. *)
Definition top_candidates (topN : Z) (st : scan_state) : list bigkeyCandidate :=
  take (Z.to_nat topN) (merge_sort bigger (candidates st)).

Definition candidate_line (i : nat) (b : bigkeyCandidate) : string :=
  itoa (Z.of_nat i + 1) +:+ ". " +:+ big_Key b +:+ "  type=" +:+ big_Type b +:+ "  size=" +:+ human (big_Size b)
  +:+ " (" +:+ itoa (big_Size b) +:+ " bytes)" +:+ newline.

Definition bigkeys_text (topN : Z) (pattern : string) (st : scan_state) : string :=
  let typeNames := sort_Strings (map fst (map_to_list (countByType st))) in
  let shown := top_candidates topN st in
  "[BIGKEYS SUMMARY]" +:+ newline +:+ "sampled_keys: " +:+ itoa (sampled st) +:+ newline +:+
  (if decide (pattern = "") then "" else "match: " +:+ pattern +:+ newline) +:+
  match typeNames with
  | [] => "types: none" +:+ newline +:+ newline
  | _ => "types:" +:+ newline +:+
         concat_lines (map (fun t => "  " +:+ t +:+ ": " +:+ itoa (default 0 (countByType st !! t)) +:+ newline) typeNames)
         +:+ newline
  end +:+
  match shown with
  | [] => "No keys sampled with MEMORY USAGE. Keys may have expired during scan or the match pattern returned nothing." +:+ newline
  | _ => "[TOP " +:+ itoa (zlen shown) +:+ " BIGGEST KEYS]" +:+ newline +:+ concat_lines (imap candidate_line shown)
  end.

Definition scan_args (cursor pattern : string) (count : Z) : list string :=
  ["SCAN"; cursor] ++ (if decide (pattern = "") then [] else ["MATCH"; pattern]) ++ ["COUNT"; itoa count].

Section tools.
Context {W : Type} `{!Network W}.
Variable is_print : Z -> bool.
Variable ctx_err : nat -> option string.

Definition tool := redis_session -> gomap string -> io (net W) (res string string).

(** [fmt.Errorf("what: %w", err)]. *)
Definition wrapped {A} (what : string) (m : io (net W) (res string A)) : io (net W) (res string A) :=
  r ← m; io_ret (match r with Good a => Good a | Bad err => Bad (what +:+ ": " +:+ err) end).

Definition redis_info : tool := fun session args =>
  acc ←? io_ret (getAccessor session);
  let section := or_empty (gomap_get args "section") "all" in
  wrapped ("redis INFO " +:+ section) (InfoRaw is_print acc section).

Definition mode_of (serverInfo : gmap string string) : string :=
  ToLower (TrimSpace (default "" (serverInfo !! "redis_mode"))).

(** The lines of the summary that are left out when they are empty. *)
Definition summary_line (info : gmap string string) (key : string) : string :=
  let v := default "" (info !! key) in if decide (v = "") then "" else key +:+ ": " +:+ v +:+ newline.

Definition cluster_text (clusterInfo clusterNodes : string) : string :=
  let '(failNodes, pfailNodes) := summarizeClusterNodeFlags clusterNodes in
  let info := parseInfoToMap clusterInfo in
  "[CLUSTER SUMMARY]" +:+ newline +:+ "cluster_state: " +:+ default "" (info !! "cluster_state") +:+ newline +:+
  summary_line info "cluster_slots_assigned" +:+ summary_line info "cluster_slots_fail" +:+
  summary_line info "cluster_known_nodes" +:+
  "fail_nodes: " +:+ itoa failNodes +:+ newline +:+ "pfail_nodes: " +:+ itoa pfailNodes +:+ newline +:+ newline +:+
  "[CLUSTER INFO]" +:+ newline +:+ clusterInfo +:+ newline +:+ newline +:+
  "[CLUSTER NODES]" +:+ newline +:+ clusterNodes +:+ newline.

(** The connectivity of the peers, when there are any. *)
Definition peers_text (s : option Settings) (acc : RedisAccessor) (clusterNodes : string)
    (cancelled : nat -> bool) (order : list nat) : io (net W) string :=
  let nodes := parseClusterNodes clusterNodes in
  let '(probeable, unprobeable) := selectProbeCandidates nodes (acc_target acc) in
  match s with
  | Some s =>
    if (1 <? zlen nodes) && negb (bool_decide (probeable = [] /\ unprobeable = [])) then
      results ← probePeers is_print s probeable cancelled order;
      io_ret (newline +:+ formatPeerConnectivity results unprobeable (zlen nodes) (zlen probeable))
    else io_ret ""
  | None => io_ret ""
  end.

Definition redis_cluster_info (cancelled : nat -> bool) (order : list nat) : tool := fun session args =>
  acc ←? io_ret (getAccessor session);
  serverInfo ←? wrapped "redis INFO server" (Info is_print acc "server");
  if decide (mode_of serverInfo = redisModeCluster) then
    clusterInfo ←? wrapped "redis CLUSTER INFO" (ClusterInfo is_print acc);
    clusterNodes ←? wrapped "redis CLUSTER NODES" (ClusterNodes is_print acc);
    peers ← peers_text (instance_of session) acc clusterNodes cancelled order;
    e_ok (cluster_text clusterInfo clusterNodes +:+ peers)
  else e_ok ("Redis target is running in " +:+ or_empty (mode_of serverInfo) redisModeStandalone +:+ " mode, not cluster mode.").

Definition redis_slowlog : tool := fun session args =>
  acc ←? io_ret (getAccessor session);
  let v := gomap_get args "count" in
  let count := if decide (v = "") then 10 else default 10 (scan_int v) in
  wrapped "redis SLOWLOG GET" (SlowlogGet is_print acc count).

Definition redis_client_list : tool := fun session args =>
  acc ←? io_ret (getAccessor session);
  r ← Info is_print acc "clients";
  match too_many_clients r with
  | Some count => clientSummaryFromInfo is_print acc count
  | None => wrapped "redis CLIENT LIST" (ClientList is_print acc)
  end.

Definition redis_config_get : tool := fun session args =>
  acc ←? io_ret (getAccessor session);
  let pattern := gomap_get args "pattern" in
  wrapped ("redis CONFIG GET " +:+ pattern) (ConfigGet is_print acc pattern).

Definition redis_latency : tool := fun session args =>
  acc ←? io_ret (getAccessor session);
  text ←? wrapped "redis LATENCY LATEST" (Command is_print acc ["LATENCY"; "LATEST"]);
  e_ok (if bool_decide (text ∈ [""; "(nil)"])
        then "No latency events recorded. Note: latency-monitor-threshold may be 0 (disabled). Use redis_config_get with pattern 'latency-monitor-threshold' to check."
        else text).

Definition memory_section (name : string) (r : res string string) (end_ : string) : string :=
  match r with
  | Bad err => "[MEMORY " +:+ name +:+ "] error: " +:+ err +:+ end_
  | Good text => "[MEMORY " +:+ name +:+ "]" +:+ newline +:+ text +:+ end_
  end.

Definition redis_memory_analysis : tool := fun session args =>
  acc ←? io_ret (getAccessor session);
  doctor ← Command is_print acc ["MEMORY"; "DOCTOR"];
  stats ← Command is_print acc ["MEMORY"; "STATS"];
  match doctor, stats with
  | Bad e1, Bad e2 => e_err ("redis MEMORY DOCTOR: " +:+ e1 +:+ "; MEMORY STATS: " +:+ e2)
  | _, _ => e_ok (memory_section "DOCTOR" doctor (newline +:+ newline) +:+ memory_section "STATS" stats newline)
  end.

(** ** Big keys *)

(** One key: its type and size, unless something is wrong with it. *)
Definition sample_key (acc : RedisAccessor) (key : string) : io (net W) (option bigkeyCandidate) :=
  typ ← Command is_print acc ["TYPE"; key];
  match typ with
  | Bad _ => io_ret None
  | Good typ =>
    let typ := TrimSpace typ in
    if bool_decide (typ ∈ [""; "(nil)"]) then io_ret None
    else
      r ← RawCommand is_print acc ["MEMORY"; "USAGE"; key];
      io_ret (match r with
      | Bad _ => None
      | Good v => match parseIntegerReply v with
                  | Good (Some size) => if size <? 0 then None else Some (mkBigkey key typ size)
                  | _ => None end
      end)
  end.

Fixpoint sample_batch (acc : RedisAccessor) (sampleKeys : Z) (keys : list string) (st : scan_state)
  : io (net W) scan_state :=
  match keys with
  | [] => io_ret st
  | key :: keys' =>
    if sampleKeys <=? sampled st then io_ret st
    else
      b ← sample_key acc key;
      sample_batch acc sampleKeys keys' (match b with Some b => add_candidate b st | None => st end)
  end.

(** The loop; [round] counts the times the context was asked, [None] is a loop
    that goes on after the fuel. *)
Fixpoint scan_loop (fuel : nat) (acc : RedisAccessor) (sampleKeys : Z) (pattern : string) (round : nat) (st : scan_state)
  : io (net W) (option (res string scan_state)) :=
  match fuel with
  | O => io_ret None
  | S fuel' =>
    match ctx_err round with
    | Some err => io_ret (Some (Bad err))
    | None =>
      let remaining := sampleKeys - sampled st in
      if remaining <=? 0 then io_ret (Some (Good st))
      else
        r ← RawCommand is_print acc (scan_args (cursor st) pattern (clampInt remaining 1 200));
        match r with
        | Bad err => io_ret (Some (Bad ("redis SCAN: " +:+ err)))
        | Good v =>
          match parseScanReply v with
          | Bad err => io_ret (Some (Bad err))
          | Good (next, keys) =>
            st ← sample_batch acc sampleKeys keys (with_cursor next st);
            if bool_decide (next = "0") || bool_decide (keys = []) then io_ret (Some (Good st))
            else scan_loop fuel' acc sampleKeys pattern (S round) st
          end
        end
    end
  end.

Definition sample_limit (args : gomap string) : Z := clampInt (parseIntArg (gomap_get args "sample_keys") 1000) 1 5000.
Definition top_limit (args : gomap string) : Z := clampInt (parseIntArg (gomap_get args "topn") 20) 1 100.

Definition redis_bigkeys_scan (fuel : nat) (session : redis_session) (args : gomap string)
  : io (net W) (option (res string string)) :=
  match getAccessor session with
  | Bad err => io_ret (Some (Bad err))
  | Good acc =>
    let pattern := TrimSpace (gomap_get args "match") in
    r ← scan_loop fuel acc (sample_limit args) pattern 0 scan_start;
    io_ret (match r with
    | Some (Good st) => Some (Good (bigkeys_text (top_limit args) pattern st))
    | Some (Bad err) => Some (Bad err)
    | None => None
    end)
  end.

(** ** Peers, accessors, pre-collection *)
Definition redis_query_peer : tool := fun session args =>
  match instance_of session with
  | None => e_err "redis_query_peer requires instance reference for authentication"
  | Some s =>
    acc ←? wrapped "redis_query_peer requires session accessor for topology validation" (io_ret (getAccessor session));
    let peer := TrimSpace (gomap_get args "peer") in
    let command := ToLower (TrimSpace (gomap_get args "command")) in
    if decide (peer = "") then e_err "peer address is required"
    else if decide (command = "") then e_err "command is required"
    else executePeerCommand is_print s (Some acc) peer command (TrimSpace (gomap_get args "args"))
  end.

Definition accessor_factory (instanceRef : any_instance) (target : string) : io (net W) (res string RedisAccessor) :=
  match instanceRef with
  | OtherInstance type => e_err ("redis accessor factory: expected *Instance, got " +:+ type)
  | RedisInstance s targets =>
    let target := if decide (target = "") then default "" (head targets) else target in
    NewRedisAccessor is_print (accessor_config s target)
  end.

Definition pre_collector (accessor : any_accessor) : io (net W) string :=
  match accessor with
  | OtherAccess _ => io_ret ""
  | RedisAccess acc =>
    raw ← InfoRaw is_print acc "all";
    match raw with
    | Bad _ => io_ret ""
    | Good raw =>
      server ← Info is_print acc "server";
      match server with
      | Bad _ => io_ret raw
      | Good serverInfo =>
        if decide (mode_of serverInfo = redisModeCluster) then
          info ← ClusterInfo is_print acc;
          io_ret (match info with
          | Bad _ => raw
          | Good clusterInfo => raw +:+ newline +:+ newline +:+ "[CLUSTER INFO]" +:+ newline +:+ clusterInfo
          end)
        else io_ret raw
      end
    end
  end.

(** The registered tools and what they run; the scan is apart for its fuel. *)
Definition redis_tools (cancelled : nat -> bool) (order : list nat) : list (string * tool) :=
  [("redis_info", redis_info); ("redis_cluster_info", redis_cluster_info cancelled order);
   ("redis_slowlog", redis_slowlog); ("redis_client_list", redis_client_list);
   ("redis_config_get", redis_config_get); ("redis_latency", redis_latency);
   ("redis_memory_analysis", redis_memory_analysis); ("redis_query_peer", redis_query_peer)].
End tools.
