(* ===== verification/RedisDiagnoseProps.v ===== *)
(** * Properties of the diagnosis tools of the Redis plugin

    All of them only read; the sampling of big keys ends, stays within its
    limits and shows the largest of the sampled keys. *)
From S2P Require Import Prelude GoStr GoLib Types GoConv GoFmt GoIo Resp RespProps NetLog Pushing PluginConfig RedisConfig RedisChecks RedisGather RedisPeer RedisPeerProps RedisDiagnose.
#[local] Open Scope Z_scope.

(** ** The tools only read *)

Definition reads (e : net_event) : Prop :=
  match e with Wrote _ bytes => exists args, bytes = writeCommand args /\ read_only args | _ => True end.

Section reading.
Context {W : Type} `{!Network W}.
Variable is_print : Z -> bool.
Variable ctx_err : nat -> option string.
Variable log0 : list net_event.
Notation quiet := (keeps (confined (W := W) reads log0)).

Lemma reads_wrote c args : read_only args -> reads (Wrote c (writeCommand args)).
Proof. intros H. by exists args. Qed.

Lemma quiet_command acc args : read_only args -> quiet (Command is_print acc args).
Proof. apply keeps_command, reads_wrote. Qed.
Lemma quiet_raw acc args : read_only args -> quiet (RawCommand is_print acc args).
Proof. apply keeps_rawCommand, reads_wrote. Qed.
Lemma quiet_info acc section : quiet (Info is_print acc section).
Proof. apply keeps_info, reads_wrote. Qed.
Lemma quiet_connect s address : quiet (NewRedisAccessor is_print (peer_config s address)).
Proof. by apply keeps_connect; [apply reads_wrote| | |]. Qed.
Lemma quiet_closing {A} acc (m : io (net (W * list net_event)) A) : quiet m -> quiet (closing_conn acc m).
Proof. by apply keeps_closing. Qed.

Lemma quiet_wrapped {A} what (m : io (net (W * list net_event)) (res string A)) : quiet m -> quiet (wrapped what m).
Proof. intros H. apply keeps_bind; [done|]. intros r. apply keeps_ret. Qed.
Lemma quiet_part acc section f : quiet (info_part is_print acc section f).
Proof. apply keeps_bind; [apply quiet_info|]. intros r. apply keeps_ret. Qed.
Lemma quiet_config acc pattern : quiet (ConfigGet is_print acc pattern).
Proof. apply keeps_e_bind; [apply quiet_raw; constructor|]. intros v. apply keeps_ret. Qed.
Lemma quiet_summary acc count : quiet (clientSummaryFromInfo is_print acc count).
Proof. apply keeps_bind; [apply quiet_info|]. intros r. apply keeps_ret. Qed.
Lemma quiet_ping acc : quiet (Ping is_print acc).
Proof. apply keeps_expect; [apply reads_wrote|constructor]. Qed.

(** Steps through a computation whose commands all read. *)
Ltac reads_only := constructor; try first [left | right; left].
Ltac quiet :=
  repeat lazymatch goal with
  | |- keeps _ (io_ret _) => apply keeps_ret
  | |- keeps _ (e_err _) => apply keeps_ret
  | |- keeps _ (e_ok _) => apply keeps_ret
  | |- keeps _ (io_gets _) => apply keeps_gets
  | |- keeps _ (NewRedisAccessor _ _) => apply quiet_connect
  | |- keeps _ (Ping _ _) => apply quiet_ping
  | |- keeps _ (Info _ _ _) => apply quiet_info
  | |- keeps _ (InfoRaw _ _ _) => apply quiet_command; constructor
  | |- keeps _ (SlowlogGet _ _ _) => apply quiet_command; constructor
  | |- keeps _ (ClientList _ _) => apply quiet_command; constructor
  | |- keeps _ (ClusterInfo _ _) => apply quiet_command; reads_only
  | |- keeps _ (ClusterNodes _ _) => apply quiet_command; reads_only
  | |- keeps _ (ConfigGet _ _ _) => apply quiet_config
  | |- keeps _ (clientSummaryFromInfo _ _ _) => apply quiet_summary
  | |- keeps _ (info_part _ _ _ _) => apply quiet_part
  | |- keeps _ (closing_conn _ _) => apply quiet_closing
  | |- keeps _ (wrapped _ _) => apply quiet_wrapped
  | |- keeps _ (Command _ _ _) => apply quiet_command; reads_only
  | |- keeps _ (RawCommand _ _ _) => apply quiet_raw; reads_only
  | |- keeps _ (_ ≫= _) => apply keeps_bind; [|intros ?]
  | |- keeps _ (e_bind _ _) => apply keeps_e_bind; [|intros ?]
  | |- keeps _ (let '(_, _) := ?p in _) => destruct p
  | |- keeps _ (match ?x with _ => _ end) => destruct x
  end.

Lemma quiet_probe s node : quiet (probeSinglePeer is_print s node).
Proof. unfold probeSinglePeer, collectPeerSnapshot, net_clock. quiet. Qed.

Lemma quiet_probes s l cancelled order results : quiet (probe_each is_print s l cancelled order results).
Proof.
  revert results. induction order as [|i order IH]; intros results; cbn; [apply keeps_ret|].
  destruct (l !! i); [|apply IH]. apply keeps_bind; [|intros r; apply IH].
  destruct (cancelled i); [apply keeps_ret|apply quiet_probe].
Qed.

Lemma quiet_peers s acc nodes cancelled order : quiet (peers_text is_print s acc nodes cancelled order).
Proof.
  unfold peers_text. destruct (selectProbeCandidates _ _). destruct s; quiet.
  apply keeps_bind; [apply quiet_probes|]. intros r. apply keeps_ret.
Qed.

Lemma quiet_peer_command s acc peer command cmdArgs :
  quiet (executePeerCommand is_print s (Some acc) peer command cmdArgs).
Proof.
  unfold executePeerCommand, connect_and_run. quiet; [unfold validatePeerInTopology; quiet|].
  apply keeps_peer_command; [exact reads_wrote|done].
Qed.

Lemma quiet_tools cancelled order session args :
  Forall (fun t => quiet (t.2 session args)) (redis_tools is_print cancelled order).
Proof.
  unfold redis_tools. repeat constructor; cbn.
  - unfold redis_info. quiet.
  - unfold redis_cluster_info. quiet. apply quiet_peers.
  - unfold redis_slowlog. quiet.
  - unfold redis_client_list. quiet.
  - unfold redis_config_get. quiet.
  - unfold redis_latency. quiet.
  - unfold redis_memory_analysis. quiet.
  - unfold redis_query_peer. quiet. apply quiet_peer_command.
Qed.

Lemma quiet_sample acc limit keys st : quiet (sample_batch is_print acc limit keys st).
Proof.
  revert st. induction keys as [|key keys IH]; intros st; cbn; [apply keeps_ret|].
  destruct (_ <=? _); [apply keeps_ret|]. apply keeps_bind; [unfold sample_key; quiet|]. intros b. apply IH.
Qed.

Lemma quiet_scan fuel acc limit pattern round st : quiet (scan_loop is_print ctx_err fuel acc limit pattern round st).
Proof.
  revert round st. induction fuel as [|fuel IH]; intros round st; cbn; [apply keeps_ret|].
  destruct (ctx_err round); [apply keeps_ret|]. destruct (_ <=? 0); [apply keeps_ret|]. quiet; [apply quiet_sample|apply IH].
Qed.
End reading.

(** C26: Whatever a tool is asked, and whatever the server answers, every command it
    sends is one of those that only read. *)
Theorem diagnose_tools_only_read {W} `{!Network W} is_print ctx_err cancelled order fuel session args
    (n : net (W * list net_event)) :
  let only_reads (n' : net (W * list net_event)) := exists new, log_of n' = new ++ log_of n /\ Forall reads new in
  Forall (fun t => only_reads (t.2 session args n).2) (redis_tools is_print cancelled order) /\
  only_reads (redis_bigkeys_scan is_print ctx_err fuel session args n).2.
Proof.
  assert (confined reads (log_of n) n) as Hn by (exists []; split; [done|constructor]).
  split.
  - eapply Forall_impl; [apply (quiet_tools is_print (log_of n))|]. intros t Ht. by apply Ht.
  - unfold redis_bigkeys_scan. destruct (getAccessor session) as [acc|err]; [|by apply (keeps_ret (confined reads (log_of n)))].
    apply (keeps_bind (confined reads (log_of n))); [apply quiet_scan| |done]. intros r. apply keeps_ret.
Qed.

(** ** Big keys *)
Section bigkeys.
Context {W : Type} `{!Network W}.
Variable is_print : Z -> bool.
Variable ctx_err : nat -> option string.
Notation scan := (scan_loop is_print ctx_err).

Lemma scan_done_more fuel fuel' acc limit pattern round st (n : net W) :
  (scan fuel acc limit pattern round st n).1 <> Ret None -> (fuel <= fuel')%nat ->
  scan fuel' acc limit pattern round st n = scan fuel acc limit pattern round st n.
Proof.
  revert fuel' round st n. induction fuel as [|fuel IH]; intros [|fuel'] round st n Hd Hle; try done; [lia|].
  cbn in Hd |- *. destruct (ctx_err round); [done|]. destruct (_ <=? 0); [done|].
  unfold mbind, io_mbind, io_bind in Hd |- *. destruct (RawCommand _ _ _ n) as [[[v|err]|] n1]; [|done..].
  destruct (parseScanReply v) as [[next keys]|err]; [|done].
  destruct (sample_batch _ _ _ _ _ n1) as [[st'|] n2]; [|done].
  destruct (_ || _); [done|]. apply IH; [done|lia].
Qed.

(** The loop ends by the time its context does. *)
Lemma scan_ends fuel acc limit pattern round st (n : net W) j :
  (round <= j < round + fuel)%nat -> ctx_err j <> None -> (scan fuel acc limit pattern round st n).1 <> Ret None.
Proof.
  revert round st n. induction fuel as [|fuel IH]; intros round st n Hj Hc; [lia|]. cbn.
  destruct (ctx_err round) eqn:E; [done|]. destruct (_ <=? 0); [done|].
  unfold mbind, io_mbind, io_bind. destruct (RawCommand _ _ _ n) as [[[v|err]|] n1]; [|done..].
  destruct (parseScanReply v) as [[next keys]|err]; [|done].
  destruct (sample_batch _ _ _ _ _ n1) as [[st'|] n2]; [|done].
  destruct (_ || _); [done|]. apply IH; [|done].
  assert (j <> round) by (intros ->; by rewrite E in Hc). lia.
Qed.

(** What the accounts of a scan say. *)
Record scan_ok (limit : Z) (st : scan_state) : Prop := {
  ok_sampled : sampled st = zlen (candidates st);
  ok_limit : sampled st <= limit;
  ok_types t : default 0 (countByType st !! t) = zlen (filter (fun b => big_Type b = t) (candidates st));
  ok_sizes : Forall (fun b => 0 <= big_Size b) (candidates st)
}.

Lemma add_candidate_ok limit b st : scan_ok limit st -> sampled st < limit -> 0 <= big_Size b -> scan_ok limit (add_candidate b st).
Proof.
  intros [Hs Hl Ht Hz] Hlt Hb. constructor; cbn.
  - rewrite zlen_app, zlen_cons, zlen_nil. lia.
  - lia.
  - intros t. rewrite filter_app, zlen_app, <- Ht. destruct (decide (big_Type b = t)) as [<-|Hne].
    + rewrite lookup_insert_eq. cbn. by rewrite decide_True.
    + rewrite lookup_insert_ne by done. cbn. rewrite decide_False by done. unfold zlen. simpl. lia.
  - apply Forall_app. auto.
Qed.

Lemma sample_key_size acc key (n n' : net W) b : sample_key is_print acc key n = (Ret (Some b), n') -> 0 <= big_Size b.
Proof.
  intros H. unfold sample_key in H. apply io_bind_inv in H as ([typ|err] & n1 & _ & H); [|done].
  destruct (bool_decide _); [done|]. apply io_bind_inv in H as ([v|err] & n2 & _ & H); [|done].
  destruct (parseIntegerReply v) as [[size|]|]; [|done..]. cbn in H. destruct (size <? 0) eqn:E; [done|].
  injection H as <- _. cbn. zbool. lia.
Qed.

Lemma sample_batch_ok acc limit keys st (n n' : net W) st' :
  sample_batch is_print acc limit keys st n = (Ret st', n') -> scan_ok limit st -> scan_ok limit st'.
Proof.
  revert st n. induction keys as [|key keys IH]; intros st n H Hok; cbn in H; [by injection H as <- _|].
  destruct (limit <=? sampled st) eqn:E; [by injection H as <- _|]. zbool.
  apply io_bind_inv in H as ([b|] & n1 & Hb & H); (eapply IH; [exact H|]); [|done].
  apply add_candidate_ok; [done|lia|]. by eapply sample_key_size.
Qed.

Lemma scan_loop_ok fuel acc limit pattern round st (n n' : net W) st' :
  scan fuel acc limit pattern round st n = (Ret (Some (Good st')), n') -> scan_ok limit st -> scan_ok limit st'.
Proof.
  revert round st n. induction fuel as [|fuel IH]; intros round st n H Hok; cbn in H; [done|].
  destruct (ctx_err round); [done|]. destruct (_ <=? 0); [by injection H as <- _|].
  apply io_bind_inv in H as ([v|err] & n1 & _ & H); [|done].
  destruct (parseScanReply v) as [[next keys]|err]; [|done].
  apply io_bind_inv in H as (st1 & n2 & Hb & H).
  apply sample_batch_ok in Hb; [|by destruct Hok].
  destruct (_ || _); [by injection H as <- _|by eapply IH].
Qed.
End bigkeys.

#[export] Instance bigger_total : Total bigger.
Proof.
  intros a b. unfold bigger. destruct (Z.lt_trichotomy (big_Size a) (big_Size b)) as [?|[?|?]]; [right; by left| |by do 2 left].
  destruct (total String.le (big_Key a) (big_Key b)); [left|right]; right; split; congruence.
Qed.
#[export] Instance bigger_trans : Transitive bigger.
Proof.
  intros a b c [?|[? ?]] [?|[? ?]]; unfold bigger; [left; lia..|]. right. split; [congruence|by etrans].
Qed.

Lemma bigger_size a b : bigger a b -> big_Size b <= big_Size a.
Proof. intros [?|[? _]]; lia. Qed.

(** The shown candidates are a largest part of all. *)
Lemma top_candidates_largest topN st : 0 <= topN ->
  exists hidden, top_candidates topN st ++ hidden ≡ₚ candidates st /\ zlen (top_candidates topN st) = Z.min topN (zlen (candidates st)) /\
    forall a b, a ∈ top_candidates topN st -> b ∈ hidden -> big_Size b <= big_Size a.
Proof.
  intros Ht. exists (drop (Z.to_nat topN) (merge_sort bigger (candidates st))). unfold top_candidates.
  split; [rewrite take_drop; apply merge_sort_Permutation|]. split.
  - unfold zlen. rewrite length_take, (Permutation_length (merge_sort_Permutation bigger (candidates st))). lia.
  - intros a b Ha Hb. apply bigger_size.
    pose proof (StronglySorted_merge_sort bigger (candidates st)) as Hs.
    rewrite <- (take_drop (Z.to_nat topN) (merge_sort bigger (candidates st))) in Hs.
    by eapply StronglySorted_app_1_elem_of.
Qed.

Lemma clampInt_range v lo hi : lo <= hi -> lo <= clampInt v lo hi <= hi.
Proof. unfold clampInt. destruct (v <? lo) eqn:E1; [|destruct (hi <? v) eqn:E2]; zbool; lia. Qed.

(** C34: The sampling of big keys ends as soon as its context does, at the latest: from then on
    more steps change nothing. *)
Theorem bigkeys_scan_ends {W} `{!Network W} is_print ctx_err session args (n : net W) (j fuel : nat)
    (Hctx : ctx_err j <> None) (Hfuel : (j < fuel)%nat) :
  let run k := redis_bigkeys_scan is_print ctx_err k session args n in
  (run fuel).1 <> Ret None /\ run fuel = run (S j).
Proof.
  cbn. unfold redis_bigkeys_scan. destruct (getAccessor session) as [acc|err]; [|done].
  set (scan k := scan_loop is_print ctx_err k acc (sample_limit args) (TrimSpace (gomap_get args "match")) 0 scan_start).
  assert ((scan (S j) n).1 <> Ret None) as Hd by (eapply scan_ends; [|exact Hctx]; lia).
  assert (scan fuel n = scan (S j) n) as Heq by (by apply scan_done_more; [|lia]).
  unfold mbind, io_mbind, io_bind. fold (scan fuel) (scan (S j)). rewrite Heq. split; [|done].
  by destruct (scan (S j) n) as [[[[st|err]|]|] n1].
Qed.

(** What a sampling of big keys reports: at most [sample_keys] keys, counted by type, and of those
    the at most [topn] largest, none of the others being larger. *)
Theorem bigkeys_scan_reports {W} `{!Network W} is_print ctx_err fuel session args (n n' : net W) text
    (H : redis_bigkeys_scan is_print ctx_err fuel session args n = (Ret (Some (Good text)), n')) :
  exists st hidden,
    text = bigkeys_text (top_limit args) (TrimSpace (gomap_get args "match")) st /\
    sampled st = zlen (candidates st) /\ sampled st <= sample_limit args <= 5000 /\
    (forall t, default 0 (countByType st !! t) = zlen (filter (fun b => big_Type b = t) (candidates st))) /\
    let shown := top_candidates (top_limit args) st in
    shown ++ hidden ≡ₚ candidates st /\ zlen shown = Z.min (top_limit args) (sampled st) /\ top_limit args <= 100 /\
    forall a b, a ∈ shown -> b ∈ hidden -> big_Size b <= big_Size a.
Proof.
  assert (1 <= sample_limit args <= 5000) as Hs by (by apply clampInt_range).
  assert (1 <= top_limit args <= 100) as Ht by (by apply clampInt_range).
  unfold redis_bigkeys_scan in H. destruct (getAccessor session) as [acc|err]; [|done].
  apply io_bind_inv in H as ([[st|err]|] & n1 & H & [= <- <-]); [|done..].
  apply (scan_loop_ok _ _ _ _ (sample_limit args)) in H as [Hn Hl Hc _].
  - destruct (top_candidates_largest (top_limit args) st) as (hidden & Hp & Hlen & Hbig); [lia|].
    exists st, hidden. rewrite Hn. repeat split; try done; lia.
  - constructor; [done|cbn; lia|done|constructor].
Qed.

(** ** Concrete runs *)

(** An answer of SCAN. *)
Definition scan_answer (cursor : string) (keys : list string) : string :=
  "*2" +:+ crlf +:+ bulk cursor +:+ writeCommand keys.
Definition ex_session : redis_session := mkRedisSession (Some (RedisAccess (mkAccessor 0 "db:6379"))) None.
Definition ex_keys : list string :=
  [scan_answer "0" ["a"; "gone"; "b"]; "+string" +:+ crlf; ":10" +:+ crlf; "+none" +:+ crlf; "$-1" +:+ crlf;
   "+hash" +:+ crlf; ":99" +:+ crlf].
Definition ctx_of (n : nat) : nat -> option string := fun i => if (i <? n)%nat then None else Some "context canceled".
Definition ex_scan (topn : string) (script : list string) : go (option (res string string)) * net (list string) :=
  redis_bigkeys_scan no_print (ctx_of 3) 4 ex_session (Some {["topn" := topn]}) (mkNet script 0 ∅).

Lemma bigkeys_scan_ends_witness : (ex_scan "1" ex_keys).1 <> Ret None.
Proof.
  refine (proj1 (bigkeys_scan_ends no_print (ctx_of 3) ex_session (Some {["topn" := "1"]}) (mkNet ex_keys 0 ∅) 3 4 _ _)).
  - vm_compute. discriminate.
  - lia.
Defined.

Definition ex_report : string :=
  "[BIGKEYS SUMMARY]" +:+ newline +:+ "sampled_keys: 2" +:+ newline +:+ "types:" +:+ newline +:+
  "  hash: 1" +:+ newline +:+ "  string: 1" +:+ newline +:+ newline +:+
  "[TOP 1 BIGGEST KEYS]" +:+ newline +:+ "1. b  type=hash  size=99 B (99 bytes)" +:+ newline.

Lemma bigkeys_scan_reports_witness : exists st (hidden : list bigkeyCandidate),
  ex_report = bigkeys_text 1 "" st /\ sampled st <= 1000 /\ top_candidates 1 st ++ hidden ≡ₚ candidates st.
Proof.
  destruct (bigkeys_scan_reports no_print (ctx_of 3) 4 ex_session (Some {["topn" := "1"]}) (mkNet ex_keys 0 ∅)
    (ex_scan "1" ex_keys).2 ex_report) as (st & hidden & Ht & _ & Hs & _ & Hp & _).
  - vm_compute. reflexivity.
  - exists st, hidden. split; [exact Ht|]. split; [apply Hs|exact Hp].
Defined.

(** Redis answers SCAN with a cursor and no keys when the first keys it visited do
    not match; the scan ends there, and the next batch, which has a key, is not read. *)
Theorem scan_ends_at_empty_batch :
  let '(r, n) := ex_scan "1" [scan_answer "17" []; scan_answer "0" ["user:1"]; "+string" +:+ crlf; ":10" +:+ crlf] in
  world n = [scan_answer "0" ["user:1"]; "+string" +:+ crlf; ":10" +:+ crlf] /\
  r = Ret (Some (Good (bigkeys_text 1 "" (mkScan "17" 0 ∅ [])))).
Proof. by vm_compute. Qed.

(** Keys whose size cannot be read are not counted: the limit of one key does not
    keep the scan from asking for three. *)
Theorem failing_keys_are_not_counted :
  let '(r, n) := redis_bigkeys_scan no_print (ctx_of 3) 4 ex_session (Some {["sample_keys" := "1"]})
      (mkNet [scan_answer "0" ["a"; "b"; "c"]; "-ERR" +:+ crlf; "-ERR" +:+ crlf; "-ERR" +:+ crlf; "unread"] 0 ∅) in
  world n = ["unread"] /\ r = Ret (Some (Good (bigkeys_text 20 "" (mkScan "0" 0 ∅ [])))).
Proof. by vm_compute. Qed.
