(* ===== verification/SentinelConfig.v ===== *)
(** * Settings of the Sentinel check (plugins/redis_sentinel/types.go, config.go)

    The settings an instance and a template share are one record, as for the
    Redis check.  A check that is on or off by a pointer is an [option bool]:
    [None] until [Init] sets its default. *)
From S2P Require Import Prelude GoStr GoLib GoConv Types PluginConfig.
#[local] Open Scope Z_scope.
#[local] Open Scope go_scope.

(** ** Data *)
Definition pluginName : string := "redis_sentinel".
Definition defaultSentinelPort : string := "26379".
(** In seconds. *)
Definition defaultGatherMinimum : Z := 30.

Record SeverityCheck := mkSeverity { sev_Enabled : option bool; Severity : string }.
Record OverviewCheck := mkOverview { ov_Enabled : option bool; EmptySeverity : string }.
Record ThresholdCheck := mkThreshold { th_Enabled : option bool; WarnLt : Z; CriticalLt : Z }.

Record Settings := mkSettings {
  Concurrency : Z; Timeout : Z; ReadTimeout : Z; Username : string; Password : string; Client : ClientConfig;
  Connectivity : SeverityCheck; Role : SeverityCheck; MastersOverview : OverviewCheck; CKQuorum : SeverityCheck;
  MasterSDown : SeverityCheck; MasterODown : SeverityCheck; MasterAddrResolution : SeverityCheck;
  PeerCount : ThresholdCheck; KnownReplicas : ThresholdCheck; KnownSentinels : ThresholdCheck;
  FailoverInProgress : SeverityCheck; Tilt : SeverityCheck
}.

(** [Masters] are the names; [inFlight] maps a target to the time its check
    started. *)
Record Instance := mkInstance {
  ins_Partial : string; Targets : list string; Masters : list string; settings : Settings;
  inFlight : gmap string Z; prevHung : gset string
}.

Definition set_settings (s : Settings) (ins : Instance) : Instance :=
  mkInstance (ins_Partial ins) (Targets ins) (Masters ins) s (inFlight ins) (prevHung ins).

(** ** Templates *)
Definition mergeSeverityCheck (dst src : SeverityCheck) : SeverityCheck :=
  mkSeverity (or_nil (sev_Enabled dst) (sev_Enabled src)) (or_empty (Severity dst) (Severity src)).
Definition mergeOverviewCheck (dst src : OverviewCheck) : OverviewCheck :=
  mkOverview (or_nil (ov_Enabled dst) (ov_Enabled src)) (or_empty (EmptySeverity dst) (EmptySeverity src)).
Definition mergeThresholdCheck (dst src : ThresholdCheck) : ThresholdCheck :=
  mkThreshold (or_nil (th_Enabled dst) (th_Enabled src)) (or_zero (WarnLt dst) (WarnLt src))
    (or_zero (CriticalLt dst) (CriticalLt src)).

Definition merge_settings (dst src : Settings) : Settings :=
  mkSettings (or_zero (Concurrency dst) (Concurrency src)) (or_zero (Timeout dst) (Timeout src))
    (or_zero (ReadTimeout dst) (ReadTimeout src)) (or_empty (Username dst) (Username src))
    (or_empty (Password dst) (Password src)) (mergeClientConfig (Client dst) (Client src))
    (mergeSeverityCheck (Connectivity dst) (Connectivity src)) (mergeSeverityCheck (Role dst) (Role src))
    (mergeOverviewCheck (MastersOverview dst) (MastersOverview src)) (mergeSeverityCheck (CKQuorum dst) (CKQuorum src))
    (mergeSeverityCheck (MasterSDown dst) (MasterSDown src)) (mergeSeverityCheck (MasterODown dst) (MasterODown src))
    (mergeSeverityCheck (MasterAddrResolution dst) (MasterAddrResolution src))
    (mergeThresholdCheck (PeerCount dst) (PeerCount src)) (mergeThresholdCheck (KnownReplicas dst) (KnownReplicas src))
    (mergeThresholdCheck (KnownSentinels dst) (KnownSentinels src))
    (mergeSeverityCheck (FailoverInProgress dst) (FailoverInProgress src)) (mergeSeverityCheck (Tilt dst) (Tilt src)).

Definition merge_into (partial : Settings) (ins : Instance) : Instance :=
  set_settings (merge_settings (settings ins) partial) ins.
Definition ApplyPartials (is_print : Z -> bool) : list (Partial Settings) -> list Instance -> option string * list Instance :=
  apply_partials is_print pluginName merge_into ins_Partial.

(** ** Which checks are on *)
Definition severityCheckEnabled (c : SeverityCheck) (d : bool) : bool := default d (sev_Enabled c).
Definition overviewCheckEnabled (c : OverviewCheck) (d : bool) : bool := default d (ov_Enabled c).
Definition thresholdCheckEnabled (c : ThresholdCheck) (d : bool) : bool := default d (th_Enabled c).

Definition connectivityEnabled (s : Settings) : bool := severityCheckEnabled (Connectivity s) true.
Definition roleEnabled (s : Settings) : bool := severityCheckEnabled (Role s) true.
Definition mastersOverviewEnabled (s : Settings) : bool := overviewCheckEnabled (MastersOverview s) true.
Definition ckquorumEnabled (s : Settings) : bool := severityCheckEnabled (CKQuorum s) true.
Definition masterSDownEnabled (s : Settings) : bool := severityCheckEnabled (MasterSDown s) true.
Definition masterODownEnabled (s : Settings) : bool := severityCheckEnabled (MasterODown s) true.
Definition masterAddrResolutionEnabled (s : Settings) : bool := severityCheckEnabled (MasterAddrResolution s) true.
Definition peerCountEnabled (s : Settings) : bool := thresholdCheckEnabled (PeerCount s) false.
Definition knownReplicasEnabled (s : Settings) : bool := thresholdCheckEnabled (KnownReplicas s) false.
Definition knownSentinelsEnabled (s : Settings) : bool := thresholdCheckEnabled (KnownSentinels s) false.
Definition failoverInProgressEnabled (s : Settings) : bool := severityCheckEnabled (FailoverInProgress s) false.
Definition tiltEnabled (s : Settings) : bool := severityCheckEnabled (Tilt s) false.

(** ** Defaults *)
Definition applySeverityDefaults (c : SeverityCheck) (enabled : bool) (severity : string) : SeverityCheck :=
  mkSeverity (or_nil (sev_Enabled c) (Some enabled)) (or_empty (Severity c) severity).
Definition applyOverviewDefaults (c : OverviewCheck) (enabled : bool) (emptySeverity : string) : OverviewCheck :=
  mkOverview (or_nil (ov_Enabled c) (Some enabled)) (or_empty (EmptySeverity c) emptySeverity).
Definition applyThresholdDefaults (c : ThresholdCheck) (enabled : bool) : ThresholdCheck :=
  mkThreshold (or_nil (th_Enabled c) (Some enabled)) (WarnLt c) (CriticalLt c).

Definition init_settings (s : Settings) : Settings :=
  mkSettings (or_zero (Concurrency s) 10) (or_zero (Timeout s) (3 * Second)) (or_zero (ReadTimeout s) (2 * Second))
    (Username s) (Password s) (Client s)
    (applySeverityDefaults (Connectivity s) true EventStatusCritical)
    (applySeverityDefaults (Role s) true EventStatusCritical)
    (applyOverviewDefaults (MastersOverview s) true EventStatusWarning)
    (applySeverityDefaults (CKQuorum s) true EventStatusCritical)
    (applySeverityDefaults (MasterSDown s) true EventStatusWarning)
    (applySeverityDefaults (MasterODown s) true EventStatusCritical)
    (applySeverityDefaults (MasterAddrResolution s) true EventStatusCritical)
    (applyThresholdDefaults (PeerCount s) false) (applyThresholdDefaults (KnownReplicas s) false)
    (applyThresholdDefaults (KnownSentinels s) false)
    (applySeverityDefaults (FailoverInProgress s) false EventStatusWarning)
    (applySeverityDefaults (Tilt s) false EventStatusWarning).

(** ** Validation *)

(** The severities in the order in which they are validated. *)
Definition named_severities (s : Settings) : list (string * string) :=
  [("connectivity.severity", Severity (Connectivity s)); ("role.severity", Severity (Role s));
   ("ckquorum.severity", Severity (CKQuorum s)); ("master_sdown.severity", Severity (MasterSDown s));
   ("master_odown.severity", Severity (MasterODown s));
   ("master_addr_resolution.severity", Severity (MasterAddrResolution s));
   ("failover_in_progress.severity", Severity (FailoverInProgress s)); ("tilt.severity", Severity (Tilt s));
   ("masters_overview.empty_severity", EmptySeverity (MastersOverview s))].

Definition validateThresholdCheck (name : string) (c : ThresholdCheck) : res string unit :=
  if negb (thresholdCheckEnabled c false) then Good tt
  else
    _ ←! check_nonneg name (WarnLt c) (CriticalLt c);
    if (WarnLt c =? 0) && (CriticalLt c =? 0) then Bad (name +:+ " requires warn_lt or critical_lt when enabled")
    else if (0 <? WarnLt c) && (0 <? CriticalLt c) && (WarnLt c <=? CriticalLt c)
    then Bad (name +:+ ".warn_lt(" +:+ itoa (WarnLt c) +:+ ") must be greater than " +:+ name +:+ ".critical_lt("
              +:+ itoa (CriticalLt c) +:+ ")")
    else Good tt.

Section init.
Variable is_print : Z -> bool.
(** [ClientConfig.TLSConfig] of pkg/tls; the certificates are files. *)
Variable tls_config : ClientConfig -> option string.

Fixpoint validate_severities (l : list (string * string)) : res string unit :=
  match l with
  | [] => Good tt
  | (name, severity) :: l' =>
    if negb (bool_decide (severity = "")) && negb (EventStatusValid severity)
    then Bad ("invalid " +:+ name +:+ " " +:+ Quote is_print severity)
    else validate_severities l'
  end.

Definition normalizeTarget : string -> res string string := normalize_target is_print pluginName defaultSentinelPort.

(** A loop that rewrites each string and rejects what it has [seen]. *)
Fixpoint distinct (what : string) (rewrite : string -> res string string) (seen : gset string) (l : list string)
  : res string (list string) :=
  match l with
  | [] => Good []
  | raw :: l' =>
    x ←! rewrite raw;
    if bool_decide (x ∈ seen) then Bad ("duplicate redis_sentinel " +:+ what +:+ " " +:+ Quote is_print x)
    else rest ←! distinct what rewrite ({[x]} ∪ seen) l'; Good (x :: rest)
  end.

Definition master_name (raw : string) : res string string :=
  let name := TrimSpace raw in
  if decide (name = "") then Bad "redis_sentinel master name must not be empty" else Good name.

(** [Init]; the instance is dropped when it fails. *)
Definition Init (ins : Instance) : res string Instance :=
  _ ←! (if negb (bool_decide (Username (settings ins) = "")) && bool_decide (Password (settings ins) = "")
        then Bad "password must not be empty when username is set" else Good tt);
  let s := init_settings (settings ins) in
  _ ←! validate_severities (named_severities s);
  _ ←! validateThresholdCheck "peer_count" (PeerCount s);
  _ ←! validateThresholdCheck "known_replicas" (KnownReplicas s);
  _ ←! validateThresholdCheck "known_sentinels" (KnownSentinels s);
  targets ←! distinct "target" normalizeTarget ∅ (Targets ins);
  masters ←! distinct "master" master_name ∅ (Masters ins);
  _ ←! (match tls_config (Client s) with
        | Some err => Bad ("failed to build redis_sentinel TLS config: " +:+ err) | None => Good tt end);
  Good (mkInstance (ins_Partial ins) targets masters s (inFlight ins) (prevHung ins)).
End init.

(** ** What an accepted instance guarantees *)
Definition threshold_ok (c : ThresholdCheck) : Prop :=
  thresholdCheckEnabled c false = true ->
  0 <= WarnLt c /\ 0 <= CriticalLt c /\ (0 < WarnLt c \/ 0 < CriticalLt c) /\
  (0 < WarnLt c -> 0 < CriticalLt c -> CriticalLt c < WarnLt c).

Record settings_ok (s : Settings) : Prop := {
  ok_numbers : Concurrency s <> 0 /\ Timeout s <> 0 /\ ReadTimeout s <> 0;
  ok_login : Username s <> "" -> Password s <> "";
  ok_severities : Forall (fun p => EventStatusValid p.2 = true) (named_severities s);
  ok_thresholds : Forall threshold_ok [PeerCount s; KnownReplicas s; KnownSentinels s];
  (** Every check has been decided on. *)
  ok_enabled : Forall is_Some ([ov_Enabled (MastersOverview s)]
    ++ map sev_Enabled [Connectivity s; Role s; CKQuorum s; MasterSDown s; MasterODown s; MasterAddrResolution s;
         FailoverInProgress s; Tilt s]
    ++ map th_Enabled [PeerCount s; KnownReplicas s; KnownSentinels s])
}.

Lemma validateThresholdCheck_ok name c u : validateThresholdCheck name c = Good u -> threshold_ok c.
Proof.
  unfold validateThresholdCheck, threshold_ok. intros H Hen. rewrite Hen in H. cbn [negb] in H. res_inv H. apply check_nonneg_ok in E.
  destruct (Z.eqb_spec (WarnLt c) 0), (Z.eqb_spec (CriticalLt c) 0), (Z.ltb_spec 0 (WarnLt c)),
    (Z.ltb_spec 0 (CriticalLt c)), (Z.leb_spec (WarnLt c) (CriticalLt c)); cbn in H; try done; lia.
Qed.

Lemma validate_severities_ok is_print l u :
  Forall (fun p => p.2 <> "") l -> validate_severities is_print l = Good u -> Forall (fun p => EventStatusValid p.2 = true) l.
Proof.
  induction l as [|[name sev] l IH]; [by constructor|]. intros [Hs Hl]%Forall_cons. cbn [validate_severities snd] in *.
  rewrite bool_decide_eq_false_2 by done. destruct (EventStatusValid sev) eqn:E; cbn [negb andb]; [|done]. eauto.
Qed.

Lemma named_severities_set s : Forall (fun p => p.2 <> "") (named_severities (init_settings s)).
Proof. repeat constructor; cbn; unfold or_empty; by case_decide. Qed.

Lemma distinct_spec is_print what rewrite seen l l' :
  distinct is_print what rewrite seen l = Good l' ->
  Forall2 (fun raw x => rewrite raw = Good x) l l' /\ NoDup l' /\ Forall (fun x => x ∉ seen) l'.
Proof.
  revert seen l'. induction l as [|raw l IH]; intros seen l' H; cbn in H; [injection H as <-; by repeat constructor|].
  apply res_bind_Good in H as (x & Ex & H). case_bool_decide as Hx; [done|].
  apply res_bind_Good in H as (rest & Er & H). injection H as <-. apply IH in Er as (Hl & Hn & Hs).
  split; [by constructor|]. rewrite NoDup_cons, Forall_cons. split; [|split; [done|]].
  - split; [|done]. intros Hin. apply (proj1 (Forall_forall _ _) Hs) in Hin. set_solver.
  - eapply Forall_impl; [exact Hs|]. set_solver.
Qed.

Lemma init_settings_enabled s : Forall is_Some ([ov_Enabled (MastersOverview (init_settings s))]
  ++ map sev_Enabled [Connectivity (init_settings s); Role (init_settings s); CKQuorum (init_settings s);
       MasterSDown (init_settings s); MasterODown (init_settings s); MasterAddrResolution (init_settings s);
       FailoverInProgress (init_settings s); Tilt (init_settings s)]
  ++ map th_Enabled [PeerCount (init_settings s); KnownReplicas (init_settings s); KnownSentinels (init_settings s)]).
Proof.
  assert (forall b d, is_Some (or_nil b (Some d))) as Hb by (intros [b|] d; cbn; eauto).
  repeat (constructor; [apply Hb|]). constructor.
Qed.

(** An instance that is accepted has every check decided on, statuses that
    exist wherever one is reported, thresholds in order, and targets and
    masters without repetition; the targets can be dialled (unless brackets
    stand around an address without a port). *)
Theorem sentinel_Init_sound is_print tls_config ins ins' :
  Init is_print tls_config ins = Good ins' ->
  settings_ok (settings ins') /\ NoDup (Targets ins') /\ NoDup (Masters ins') /\ Forall (fun m => m <> "") (Masters ins') /\
  (Forall (fun raw => unbracketed (TrimSpace raw) \/ exists hp, SplitHostPort (TrimSpace raw) = Good hp) (Targets ins) ->
   Forall dialable (Targets ins')).
Proof.
  unfold Init. intros H. apply res_bind_Good in H as (u & Hlogin & H). res_inv H. injection H as <-.
  repeat match goal with
  | E : validateThresholdCheck _ _ = Good _ |- _ => apply validateThresholdCheck_ok in E
  | E : distinct _ _ _ _ _ = Good _ |- _ => apply distinct_spec in E as (? & ? & _)
  end.
  cbn [settings Targets Masters]. split_and!; try done.
  - constructor; try done.
    + cbn. split_and!; by apply or_zero_nonzero.
    + cbn. intros Hu Hp. rewrite bool_decide_eq_false_2, bool_decide_eq_true_2 in Hlogin by done. done.
    + eapply validate_severities_ok; [apply named_severities_set|eassumption].
    + repeat (constructor; [assumption|]). constructor.
    + apply init_settings_enabled.
  - eapply Forall2_Forall_r; [eassumption|]. apply Forall_true. intros raw x Hx. unfold master_name in Hx.
    case_decide; [done|]. by injection Hx as <-.
  - intros Hraw. eapply Forall2_Forall_r; [eassumption|]. eapply Forall_impl; [exact Hraw|].
    intros raw Hr x. by apply normalize_target_dialable.
Qed.

(** ** A concrete instance *)
Definition no_severity : SeverityCheck := mkSeverity None "".
Definition no_threshold : ThresholdCheck := mkThreshold None 0 0.
Definition ex_settings : Settings :=
  mkSettings 0 0 0 "" "" (mkClientConfig None "" "" "" "" None "" "" "") no_severity no_severity (mkOverview None "")
    no_severity no_severity no_severity no_severity (mkThreshold (Some true) 3 2) no_threshold no_threshold
    (mkSeverity (Some true) "Critical") no_severity.
Definition ex_instance : Instance := mkInstance "" ["10.0.0.1"; "db:26380"] [" mymaster "; "cache"] ex_settings ∅ ∅.
Definition init_result : Instance :=
  match Init (fun _ => false) (fun _ => None) ex_instance with Good i => i | Bad _ => ex_instance end.

Lemma sentinel_Init_sound_witness :
  settings_ok (settings init_result) /\ Masters init_result = ["mymaster"; "cache"] /\ Forall dialable (Targets init_result).
Proof.
  destruct (sentinel_Init_sound (fun _ => false) (fun _ => None) ex_instance init_result) as (Hs & _ & _ & _ & Ht).
  - vm_compute. reflexivity.
  - split; [exact Hs|]. split; [vm_compute; reflexivity|]. apply Ht.
    repeat constructor; left; split; vm_compute; reflexivity.
Defined.
