(* ===== verification/SentinelAccessor.v ===== *)
(** * Talking to a Sentinel (plugins/redis_sentinel/accessor.go)

    The accessor sends commands and reads replies as the one of the Redis plugin
    does ([Resp]); it knows no databases, and it turns the answers of the
    SENTINEL commands into maps and lists of maps.

    [sort.Slice] sorts such a list by name; maps of one name come in an order of
    their own, so that the sorting is an interface. *)
From S2P Require Import Prelude GoStr GoLib GoConv GoIo Resp.
#[local] Open Scope Z_scope.

(** ** Replies as text *)

(** [strings.TrimRight(s, "\n")]. *)
Fixpoint trim_newlines (s : string) : string :=
  match s with
  | "" => ""
  | String c s' =>
    let t := trim_newlines s' in
    if bool_decide (c = ascii_of_N 10) && bool_decide (t = "") then "" else String c t
  end.

Definition formatReply (v : reply) : string :=
  match v with
  | RString s => s
  | RNil => "(nil)"
  | RArray arr => trim_newlines (formatArray 0 0 arr)
  end.

(** [%v] of a reply. *)
Fixpoint show_reply (v : reply) : string :=
  match v with
  | RString s => s
  | RNil => "<nil>"
  | RArray arr =>
    "[" +:+ (fix go (arr : list reply) : string :=
       match arr with
       | [] => ""
       | [v] => show_reply v
       | v :: arr' => show_reply v +:+ " " +:+ go arr'
       end) arr +:+ "]"
  end.

Definition formatScalarValue (v : reply) : string :=
  match v with RString s => s | RNil => "" | RArray _ => show_reply v end.

(** ** Maps and lists of maps *)

(** [SentinelMasterInfo]: of a master, a replica or another Sentinel. *)
Abbreviation SentinelMasterInfo := (gmap string string).
Definition get (m : SentinelMasterInfo) (key : string) : string := default "" (m !! key).

(** Keys and values alternate; a later value of a key replaces an earlier one. *)
Fixpoint string_map (arr : list reply) (result : SentinelMasterInfo) : res string SentinelMasterInfo :=
  match arr with
  | k :: v :: arr' =>
    match k with
    | RString key => string_map arr' (<[key := formatScalarValue v]> result)
    | _ => Bad ("unexpected key type " +:+ type_name k)
    end
  | _ => Good result
  end.

Definition parseStringMap (v : reply) : res string SentinelMasterInfo :=
  match v with
  | RArray arr =>
    if Nat.odd (length arr) then Bad ("unexpected alternating key/value length " +:+ itoa (zlen arr))
    else string_map arr ∅
  | _ => Bad ("unexpected reply type " +:+ type_name v)
  end.

Definition name_le (a b : SentinelMasterInfo) : Prop := String.le (get a "name") (get b "name").

Class NameSort := {
  sort_by_name : list SentinelMasterInfo -> list SentinelMasterInfo;
  sort_by_name_perm l : sort_by_name l ≡ₚ l;
  sort_by_name_sorted l : Sorted name_le (sort_by_name l)
}.

Fixpoint string_maps (arr : list reply) : res string (list SentinelMasterInfo) :=
  match arr with
  | [] => Good []
  | item :: arr' =>
    match parseStringMap item with
    | Bad err => Bad err
    | Good m => match string_maps arr' with Good l => Good (m :: l) | Bad err => Bad err end
    end
  end.

Definition parseListOfStringMaps `{!NameSort} (v : reply) : res string (list SentinelMasterInfo) :=
  match v with
  | RArray arr => match string_maps arr with Good l => Good (sort_by_name l) | Bad err => Bad err end
  | _ => Bad ("unexpected reply type " +:+ type_name v)
  end.

(** ** Answers of single commands *)
Definition parse_role (v : reply) : res string string :=
  match v with
  | RArray (RString role :: _) => Good (ToLower (TrimSpace role))
  | RArray (item :: _) => Bad ("unexpected ROLE reply element type " +:+ type_name item)
  | _ => Bad ("unexpected ROLE reply type " +:+ type_name v)
  end.

Definition parse_addr (v : reply) : res string string :=
  let name := "unexpected GET-MASTER-ADDR-BY-NAME " in
  match v with
  | RArray [RString host; RString port] => Good (JoinHostPort host port)
  | RArray [RString _; port] => Bad (name +:+ "port type " +:+ type_name port)
  | RArray [host; _] => Bad (name +:+ "host type " +:+ type_name host)
  | RArray arr => Bad (name +:+ "reply length " +:+ itoa (zlen arr))
  | _ => Bad (name +:+ "reply type " +:+ type_name v)
  end.

(** ** The accessor *)
Record SentinelAccessorConfig := mkSentinelConfig {
  sc_Target : string; sc_Username : string; sc_Password : string; sc_Timeout : Z; sc_ReadTimeout : Z
}.
Record SentinelAccessor := mkSentinelAccessor { sa_conn : nat; sa_target : string }.

(** What the network sees of the configuration. *)
Definition net_config (cfg : SentinelAccessorConfig) : RedisAccessorConfig :=
  mkAccessorConfig (sc_Target cfg) (sc_Username cfg) (sc_Password cfg) 0 (sc_Timeout cfg) (sc_ReadTimeout cfg).

Section accessor.
Context {W : Type} `{!Network W} `{!NameSort}.
Variable is_print : Z -> bool.

Definition readReplyValue : string -> string -> read_result reply := Resp.readReplyValue is_print "redis_sentinel".
Definition read_reply : nat -> io (net W) (res string reply) := read_reply_with readReplyValue.
Definition rawCommand (c : nat) (args : list string) : io (net W) (res string reply) :=
  _ ←? write_command c args; read_reply c.
Definition command (c : nat) (args : list string) : io (net W) (res string string) :=
  v ←? rawCommand c args; e_ok (formatReply v).

(** A command that has to be answered with [want]. *)
Definition expect_reply (c : nat) (name want : string) (args : list string) : io (net W) (res string unit) :=
  reply ←? command c args;
  if decide (ToUpper reply = want) then e_ok tt
  else e_err ("unexpected " +:+ name +:+ " reply: " +:+ Quote is_print reply).

Definition NewSentinelAccessor (cfg : SentinelAccessorConfig) : io (net W) (res string SentinelAccessor) :=
  c ←? open_conn (net_config cfg);
  _ ←? (if negb (bool_decide (sc_Password cfg = "")) || negb (bool_decide (sc_Username cfg = ""))
        then or_close c (expect_reply c "AUTH" "OK" (auth_args (net_config cfg))) else e_ok tt);
  e_ok (mkSentinelAccessor c (sc_Target cfg)).

Definition sa_Close (a : SentinelAccessor) : io (net W) unit := close_conn (sa_conn a).
Definition Ping (a : SentinelAccessor) : io (net W) (res string unit) := expect_reply (sa_conn a) "PING" "PONG" ["PING"].

(** A command whose reply is parsed. *)
Definition query {A} (parse : reply -> res string A) (a : SentinelAccessor) (args : list string)
  : io (net W) (res string A) :=
  v ←? rawCommand (sa_conn a) args; io_ret (parse v).

Definition SentinelRole (a : SentinelAccessor) : io (net W) (res string string) := query parse_role a ["ROLE"].
Definition InfoRaw (a : SentinelAccessor) (section : string) : io (net W) (res string string) :=
  command (sa_conn a) (if decide (section = "") then ["INFO"] else ["INFO"; section]).
Definition Info (a : SentinelAccessor) (section : string) : io (net W) (res string (gmap string string)) :=
  raw ←? InfoRaw a section; e_ok (parseInfoToMap raw).
Definition SentinelMasters (a : SentinelAccessor) : io (net W) (res string (list SentinelMasterInfo)) :=
  query parseListOfStringMaps a ["SENTINEL"; "MASTERS"].
Definition SentinelMaster (a : SentinelAccessor) (name : string) : io (net W) (res string SentinelMasterInfo) :=
  query parseStringMap a ["SENTINEL"; "MASTER"; name].
Definition SentinelReplicas (a : SentinelAccessor) (name : string) : io (net W) (res string (list SentinelMasterInfo)) :=
  query parseListOfStringMaps a ["SENTINEL"; "REPLICAS"; name].
Definition SentinelSentinels (a : SentinelAccessor) (name : string) : io (net W) (res string (list SentinelMasterInfo)) :=
  query parseListOfStringMaps a ["SENTINEL"; "SENTINELS"; name].
Definition SentinelCKQuorum (a : SentinelAccessor) (name : string) : io (net W) (res string string) :=
  command (sa_conn a) ["SENTINEL"; "CKQUORUM"; name].
Definition SentinelGetMasterAddrByName (a : SentinelAccessor) (name : string) : io (net W) (res string string) :=
  query parse_addr a ["SENTINEL"; "GET-MASTER-ADDR-BY-NAME"; name].
Definition Command (a : SentinelAccessor) (args : list string) : io (net W) (res string string) :=
  command (sa_conn a) args.
End accessor.
