(* ===== verification/SentinelGather.v ===== *)
(** * Gathering from a Sentinel (plugins/redis_sentinel/gather.go)

    One gathering of a target over a connection of its own: PING, ROLE, the
    masters it monitors, then the checks of each configured master.  The state
    is the network and the queue (what was pushed, in order). *)
From S2P Require Import Prelude GoStr GoLib GoConv GoFmt GoIo Types Pushing Flight Resp PluginConfig SentinelConfig SentinelAccessor.
#[local] Open Scope Z_scope.
#[local] Open Scope go_scope.

Record sstate (W : Type) := mkS { s_net : net W; s_events : list Event }.
Arguments mkS {W} s_net s_events.
Arguments s_net {W} s.
Arguments s_events {W} s.

(** ** Events *)
Definition newEvent (check target : string) : Event :=
  BuildEvent [attrs_of [("check", check); ("target", target)]].
Definition newMasterEvent (check target masterName : string) : Event :=
  BuildEvent [attrs_of [("check", check); ("target", target); ("master_name", masterName)]].
Definition with_status (status desc : string) (e : Event) : Event := SetDescription (SetEventStatus e status) desc.

(** ** Flags of a master *)
Definition tokens (flags : string) : list string := map TrimSpace (split_on ","%char (ToLower (TrimSpace flags))).
Definition hasFlag (flags want : string) : bool := existsb (fun token => bool_decide (token = want)) (tokens flags).
Definition failoverInProgress (flags : string) : bool :=
  existsb (fun token => Contains token "failover" && negb (bool_decide (token = "no-failover"))) (tokens flags).

(** ** Discovered masters *)

(** By name and the names in order of discovery; a name that comes again
    replaces the master but is listed twice. *)
Definition discover_one (acc : gmap string SentinelMasterInfo * list string) (m : SentinelMasterInfo)
  : gmap string SentinelMasterInfo * list string :=
  let name := TrimSpace (get m "name") in
  if decide (name = "") then acc else (<[name := m]> acc.1, acc.2 ++ [name]).
Definition discover (masters : list SentinelMasterInfo) : gmap string SentinelMasterInfo * list string :=
  fold_left discover_one masters (∅, []).

(** The event of a count that has to reach its thresholds. *)
Definition checkMinCount (target check masterName : string) (value : Z) (c : ThresholdCheck) (metricName : string) : Event :=
  let parts := (if 0 <? WarnLt c then ["Warning < " +:+ itoa (WarnLt c)] else [])
               ++ (if 0 <? CriticalLt c then ["Critical < " +:+ itoa (CriticalLt c)] else []) in
  let event := SetCurrentValue (SetAttrs (newMasterEvent check target masterName)
    (attrs_of [(metricName, itoa value); ("threshold_desc", Join parts ", ")])) (itoa value) in
  let shown := "sentinel " +:+ metricName +:+ " " +:+ itoa value in
  if (0 <? CriticalLt c) && (value <? CriticalLt c)
  then critical event (shown +:+ " < critical threshold " +:+ itoa (CriticalLt c) +:+ " for master " +:+ masterName)
  else if (0 <? WarnLt c) && (value <? WarnLt c)
  then with_status EventStatusWarning
         (shown +:+ " < warning threshold " +:+ itoa (WarnLt c) +:+ " for master " +:+ masterName) event
  else SetDescription event (shown +:+ " for master " +:+ masterName +:+ ", everything is ok").

Section gather.
Context {W : Type} `{!Network W} `{!NameSort}.
Variable is_print : Z -> bool.

Definition on_net {A} (m : io (net W) A) : io (sstate W) A := fun s =>
  let '(r, n) := m (s_net s) in (r, mkS n (s_events s)).
Definition push (evs : list Event) : io (sstate W) unit := io_modify (fun s => mkS (s_net s) (s_events s ++ evs)).
Definition clock : io (sstate W) Z := io_gets (fun s => net_now (world (s_net s))).

(** [newAccessor]. *)
Definition accessor_config (s : Settings) (target : string) : SentinelAccessorConfig :=
  mkSentinelConfig target (Username s) (Password s) (Timeout s) (ReadTimeout s).

Section target.
Variable ins : Instance.
Variable target : string.
Notation s := (settings ins).

(** ** Checks of the node *)
Definition connectivity_event (elapsed : Z) : Event :=
  SetAttrs (newEvent "redis_sentinel::connectivity" target)
    (attrs_of [("response_time", Duration_String elapsed);
               ("threshold_desc", Severity (Connectivity s) +:+ ": sentinel ping failed")]).

Definition ping_failed (start : Z) (err : string) : io (sstate W) unit :=
  when (connectivityEnabled s)
    (t ← clock;
     push [with_status (Severity (Connectivity s)) ("sentinel ping failed: " +:+ err) (connectivity_event (t ⊟ start))]).

Definition role_event (role : string) : Event :=
  SetCurrentValue (SetAttrs (newEvent "redis_sentinel::role" target)
    (attrs_of [("actual", role); ("expect", "sentinel");
               ("threshold_desc", Severity (Role s) +:+ ": role != sentinel")])) role.

(** Whether the gathering goes on. *)
Definition check_role (acc : SentinelAccessor) : io (sstate W) bool :=
  if negb (roleEnabled s) then io_ret true
  else
    r ← on_net (SentinelRole is_print acc);
    match r with
    | Bad err =>
      _ ← push [critical (newEvent "redis_sentinel::role" target) ("failed to query sentinel role: " +:+ err)];
      io_ret false
    | Good role =>
      if decide (role = "sentinel") then
        _ ← push [SetDescription (role_event role) "sentinel role is sentinel, everything is ok"]; io_ret true
      else
        _ ← push [with_status (Severity (Role s)) ("sentinel role is " +:+ role +:+ ", expected sentinel") (role_event role)];
        io_ret false
    end.

Definition overview_event (discoveredNames : list string) : Event :=
  let total := itoa (zlen discoveredNames) in
  let ev := SetCurrentValue (SetAttrs (newEvent "redis_sentinel::masters_overview" target)
    (attrs_of [("masters_total", total); ("discovered_masters", Join discoveredNames ",");
               ("threshold_desc", EmptySeverity (MastersOverview s) +:+ ": zero monitored masters")])) total in
  let skipped := bool_decide (Masters ins = []) in
  let ev := if skipped then SetAttrs ev (attrs_of [("per_master_checks", "skipped_no_configured_masters")]) else ev in
  if bool_decide (discoveredNames = [])
  then with_status (EmptySeverity (MastersOverview s)) "sentinel is reachable but monitors zero masters" ev
  else if skipped
  then SetDescription ev ("sentinel monitors " +:+ total
         +:+ " masters; per-master checks are skipped because instances.masters is not configured")
  else SetDescription ev ("sentinel monitors " +:+ total +:+ " masters, everything is ok").

Definition check_tilt (acc : SentinelAccessor) : io (sstate W) unit :=
  when (tiltEnabled s)
    (r ← on_net (Info is_print acc "");
     push [match r with
       | Bad err => critical (newEvent "redis_sentinel::tilt" target) ("failed to query sentinel INFO: " +:+ err)
       | Good info =>
         let tilt := TrimSpace (default "" (info !! "sentinel_tilt")) in
         let ev := SetCurrentValue (SetAttrs (newEvent "redis_sentinel::tilt" target)
           (attrs_of [("sentinel_tilt", tilt); ("threshold_desc", Severity (Tilt s) +:+ ": sentinel_tilt == 1")])) tilt in
         if decide (tilt = "1") then with_status (Severity (Tilt s)) "sentinel is in tilt mode" ev
         else SetDescription ev "sentinel is not in tilt mode"
       end]).

(** ** Checks of a master *)
Section master.
Variable masterName : string.
Notation event check := (newMasterEvent check target masterName).

Definition check_ckquorum (acc : SentinelAccessor) : io (sstate W) unit :=
  when (ckquorumEnabled s)
    (r ← on_net (SentinelCKQuorum is_print acc masterName);
     let sev := Severity (CKQuorum s) in
     let ev := SetAttrs (event "redis_sentinel::ckquorum")
       (attrs_of [("threshold_desc", sev +:+ ": CKQUORUM must succeed")]) in
     let what := "sentinel ckquorum for master " +:+ masterName in
     push [match r with
       | Bad err => with_status sev (what +:+ " failed: " +:+ err) ev
       | Good desc => SetDescription ev (what +:+ " ok: " +:+ desc)
       end]).

(** The check of one flag, with what it means. *)
Definition flag_event (check flag what : string) (sev flags : string) : Event :=
  let ev := SetAttrs (event check)
    (attrs_of [("flags", flags); ("threshold_desc", sev +:+ ": flags contain " +:+ flag)]) in
  if hasFlag flags flag then with_status sev ("sentinel master " +:+ masterName +:+ " is " +:+ what) ev
  else SetDescription ev ("sentinel master " +:+ masterName +:+ " is not " +:+ what).

Definition check_addr (acc : SentinelAccessor) : io (sstate W) unit :=
  when (masterAddrResolutionEnabled s)
    (r ← on_net (SentinelGetMasterAddrByName is_print acc masterName);
     let sev := Severity (MasterAddrResolution s) in
     let ev := SetAttrs (event "redis_sentinel::master_addr_resolution")
       (attrs_of [("threshold_desc", sev +:+ ": master address must resolve")]) in
     let failed := "sentinel failed to resolve master " +:+ masterName +:+ " address" in
     push [match r with
       | Bad err => with_status sev (failed +:+ ": " +:+ err) ev
       | Good addr =>
         if decide (TrimSpace addr = "") then with_status sev failed ev
         else SetDescription (SetCurrentValue (SetAttrs ev (attrs_of [("resolved_master", addr)])) addr)
                ("sentinel resolved master " +:+ masterName +:+ " to " +:+ addr)
       end]).

(** The check of a count that was asked for before. *)
Definition count_event (check what : string) (r : res string (list SentinelMasterInfo)) (c : ThresholdCheck)
    (metricName : string) : Event :=
  match r with
  | Bad err => critical (event check) ("failed to query " +:+ what +:+ " for master " +:+ masterName +:+ ": " +:+ err)
  | Good l => checkMinCount target check masterName (zlen l) c metricName
  end.

(** The peers are asked for here when no count has asked for them. *)
Definition check_failover (acc : SentinelAccessor) (flags : string) (sentinelsLoaded : bool)
    (sentinels : res string (list SentinelMasterInfo)) : io (sstate W) unit :=
  when (failoverInProgressEnabled s)
    (let sev := Severity (FailoverInProgress s) in
     let ev := SetAttrs (event "redis_sentinel::failover_in_progress")
       (attrs_of [("flags", flags); ("threshold_desc", sev +:+ ": failover state present")]) in
     if failoverInProgress flags then
       sentinels ← (if sentinelsLoaded then io_ret sentinels else on_net (SentinelSentinels is_print acc masterName));
       let ev := match sentinels with
                 | Good l => SetAttrs ev (attrs_of [("known_peers", itoa (zlen l))])
                 | Bad _ => ev end in
       push [with_status sev ("sentinel reports failover in progress for master " +:+ masterName) ev]
     else push [SetDescription ev ("sentinel reports no failover in progress for master " +:+ masterName)]).

(** [checkMaster].  The replicas are asked for when their check is on, so that
    the second place that would ask for them is never reached. *)
Definition checkMaster (acc : SentinelAccessor) (master : SentinelMasterInfo) : io (sstate W) unit :=
  let flags := get master "flags" in
  _ ← check_ckquorum acc;
  _ ← when (masterSDownEnabled s) (push
        [flag_event "redis_sentinel::master_sdown" "s_down" "subjectively down" (Severity (MasterSDown s)) flags]);
  _ ← when (masterODownEnabled s) (push
        [flag_event "redis_sentinel::master_odown" "o_down" "objectively down" (Severity (MasterODown s)) flags]);
  _ ← check_addr acc;
  let sentinelsLoaded := peerCountEnabled s || knownSentinelsEnabled s in
  sentinels ← (if sentinelsLoaded then on_net (SentinelSentinels is_print acc masterName) else io_ret (Good []));
  replicas ← (if knownReplicasEnabled s then on_net (SentinelReplicas is_print acc masterName) else io_ret (Good []));
  _ ← when (peerCountEnabled s) (push
        [count_event "redis_sentinel::peer_count" "sentinel peers" sentinels (PeerCount s) "peer sentinels"]);
  _ ← when (knownSentinelsEnabled s) (push
        [count_event "redis_sentinel::known_sentinels" "known sentinels" sentinels (KnownSentinels s) "known sentinels"]);
  _ ← when (knownReplicasEnabled s) (push
        [count_event "redis_sentinel::known_replicas" "known replicas" replicas (KnownReplicas s) "known replicas"]);
  check_failover acc flags sentinelsLoaded sentinels.

Definition pushMissingMasterEvents : io (sstate W) unit :=
  let desc := "configured master " +:+ masterName +:+ " is not present in SENTINEL MASTERS" in
  _ ← when (ckquorumEnabled s) (push [with_status (Severity (CKQuorum s)) desc (event "redis_sentinel::ckquorum")]);
  _ ← when (masterSDownEnabled s) (push [critical (event "redis_sentinel::master_sdown") desc]);
  _ ← when (masterODownEnabled s) (push [critical (event "redis_sentinel::master_odown") desc]);
  when (masterAddrResolutionEnabled s) (push [critical (event "redis_sentinel::master_addr_resolution") desc]).
End master.

Definition check_masters (acc : SentinelAccessor) (discovered : gmap string SentinelMasterInfo) (names : list string)
  : io (sstate W) (list unit) :=
  io_each (fun masterName =>
    match discovered !! masterName with
    | None => pushMissingMasterEvents masterName
    | Some masterInfo => checkMaster masterName acc masterInfo
    end) names.

(** ** The gathering *)
Definition gather_masters (acc : SentinelAccessor) : io (sstate W) unit :=
  masters ← on_net (SentinelMasters is_print acc);
  match masters with
  | Bad err =>
    push [critical (newEvent "redis_sentinel::masters_overview" target) ("failed to query SENTINEL MASTERS: " +:+ err)]
  | Good masters =>
    let '(discovered, names) := discover masters in
    _ ← when (mastersOverviewEnabled s) (push [overview_event (sort_Strings names)]);
    if bool_decide (Masters ins = []) then io_ret tt
    else
      _ ← check_masters acc discovered (Masters ins);
      check_tilt acc
  end.

Definition gather_connected (acc : SentinelAccessor) (start : Z) : io (sstate W) unit :=
  r ← on_net (Ping is_print acc);
  match r with
  | Bad err => ping_failed start err
  | Good _ =>
    _ ← when (connectivityEnabled s)
          (t ← clock; push [SetDescription (connectivity_event (t ⊟ start)) "sentinel ping ok"]);
    go_on ← check_role acc;
    if go_on : bool then gather_masters acc else io_ret tt
  end.

(** [defer acc.Close()]. *)
Definition closing (acc : SentinelAccessor) (m : io (sstate W) unit) : io (sstate W) unit := fun st =>
  let '(r, st) := m st in
  let '(_, st) := on_net (sa_Close acc) st in (r, st).

Definition gatherTarget : io (sstate W) unit :=
  start ← clock;
  r ← on_net (NewSentinelAccessor is_print (accessor_config s target));
  match r with
  | Bad err => ping_failed start err
  | Good acc => closing acc (gather_connected acc start)
  end.
End target.

(** ** The goroutines *)
Definition flight (ins : Instance) : Flight := mkFlight (inFlight ins) (prevHung ins).
Definition set_flight (f : Flight) (ins : Instance) : Instance :=
  mkInstance (ins_Partial ins) (Targets ins) (Masters ins) (settings ins) (running f) (hung f).

Definition panic_event (target what : string) : Event :=
  critical (newEvent "redis_sentinel::connectivity" target) ("panic during check: " +:+ what).

(** The goroutine of a target once it has its slot, at [unix] seconds; [what]
    is the text of a panic. *)
Definition target_goroutine (what : string) (unix : Z) (target : string) (st : sstate W * Instance) : sstate W * Instance :=
  let ins := set_flight (take_off unix target (flight st.2)) st.2 in
  let '(r, s) := gatherTarget ins target st.1 in
  let s := match r with
           | Ret _ => s
           | Panic => mkS (s_net s) (s_events s ++ [panic_event target what])
           end in
  (s, set_flight (land target (flight ins)) ins).

Definition buildHungEvent (target : string) (elapsedSec : Z) : Event :=
  critical (SetAttrs (newEvent "redis_sentinel::hung" target)
    (attrs_of [("elapsed_seconds", itoa elapsedSec); ("threshold_desc", "Critical: sentinel check hung")]))
    ("sentinel check hung for " +:+ itoa elapsedSec +:+ " seconds (target may be unreachable or blocked)").
Definition buildHungRecoveryEvent (target : string) : Event :=
  SetDescription (newEvent "redis_sentinel::hung" target) "sentinel check recovered from hung state".

(** In nanoseconds.  [None]: the division by a concurrency of 0. *)
Definition gather_timeout (ins : Instance) : option Z :=
  let s := settings ins in
  if Concurrency s =? 0 then None
  else
    let perTarget := Timeout s ⊞ ReadTimeout s ⊠ 10 in
    let batches := go_div (zlen (Targets ins) ⊞ Concurrency s ⊟ 1) (Concurrency s) in
    let t := perTarget ⊠ (batches ⊞ 1) in
    let least := defaultGatherMinimum * Second in
    Some (if t <? least then least else t).

(** The loop over the targets. *)
Definition start_targets (gatherTimeout unix : Z) (targets : list string) (ins : Instance)
  : list Event * list string * Instance :=
  let '(evs, started, f) :=
    Flight.start_targets buildHungEvent buildHungRecoveryEvent gatherTimeout unix targets (flight ins) in
  (evs, started, set_flight f ins).

(** [Gather].  [schedule] says which of the started goroutines finish before the
    timeout, in order, and which still run then, each with the time it got its
    slot; the others still wait for one.  What a running goroutine pushes comes
    later. *)
Definition Gather (what : string) (unix : Z) (schedule : list string -> list (Z * string) * list (Z * string))
    (st : sstate W * Instance) : go (sstate W * Instance) :=
  match Targets st.2 with
  | [] => Ret st
  | _ :: _ =>
    match gather_timeout st.2 with
    | None => Panic
    | Some gatherTimeout =>
      let '(evs, started, ins) := start_targets gatherTimeout unix (Targets st.2) st.2 in
      let '(finished, still) := schedule started in
      let s := mkS (s_net st.1) (s_events st.1 ++ evs) in
      let '(s, ins) := fold_left (fun st p => target_goroutine what p.1 p.2 st) finished (s, ins) in
      let f := fold_left (fun f p => take_off p.1 p.2 f) still (flight ins) in
      Ret (s, set_flight (if (length finished =? length started)%nat then f else mark_hung f) ins)
    end
  end.
End gather.
