(* ===== verification/SentinelDiagnose.v ===== *)
(** * The diagnosis tools of the Sentinel plugin (plugins/redis_sentinel/diagnose.go)

    What each tool asks the Sentinel and answers to the AI, the accessor factory
    and the pre-collector.  A tool gets its session's accessor as [any]. *)
From S2P Require Import Prelude GoStr GoLib Types GoConv GoIo Pushing Resp PluginConfig SentinelConfig SentinelAccessor SentinelGather.
#[local] Open Scope Z_scope.

(** ** Sessions *)
Inductive any_accessor := SentinelAccess (a : SentinelAccessor) | OtherAccess (type : string).
Inductive any_instance := SentinelInstance (s : Settings) (targets : list string) | OtherInstance (type : string).

Definition getAccessor (accessor : option any_accessor) : res string SentinelAccessor :=
  match accessor with
  | None => Bad "no redis_sentinel accessor in session (remote connection not established)"
  | Some (SentinelAccess acc) => Good acc
  | Some (OtherAccess type) => Bad ("session accessor is " +:+ type +:+ ", expected *SentinelAccessor")
  end.

(** ** Texts *)
Definition joinHostPort (host port : string) : string :=
  let host := TrimSpace host in
  let port := TrimSpace port in
  if bool_decide (host = "") || bool_decide (port = "") then "" else host +:+ ":" +:+ port.

Definition overview_field (name v : string) : string := if decide (v = "") then "" else " " +:+ name +:+ "=" +:+ v.
Definition overview_line (master : SentinelMasterInfo) : string :=
  "- " +:+ get master "name" +:+ overview_field "addr" (joinHostPort (get master "ip") (get master "port"))
  +:+ overview_field "flags" (get master "flags") +:+ overview_field "quorum" (get master "quorum") +:+ newline.

Definition formatOverview (role : string) (masters : list SentinelMasterInfo) : string :=
  "[ROLE]" +:+ newline +:+ role +:+ newline +:+ newline +:+
  "[MASTERS SUMMARY]" +:+ newline +:+ "count: " +:+ itoa (zlen masters) +:+ newline +:+
  concat_lines (map overview_line masters).

Definition item_text (i : nat) (item : SentinelMasterInfo) : string :=
  itoa (Z.of_nat i + 1) +:+ ")" +:+ newline +:+
  concat_lines (map (fun key => "  " +:+ key +:+ ": " +:+ get item key +:+ newline) (sort_Strings (map_to_list item).*1)).

Definition formatList (title : string) (items : list SentinelMasterInfo) : string :=
  "[" +:+ title +:+ "]" +:+ newline +:+ "count: " +:+ itoa (zlen items) +:+ newline +:+ concat_lines (imap item_text items).

(** ** One master's health *)
Definition health_keys : list string :=
  ["status"; "flags"; "ip"; "port"; "num-slaves"; "num-other-sentinels"; "quorum"].

Definition master_lines (masterName : string) (r : res string SentinelMasterInfo) : string :=
  match r with
  | Bad err => "master: error: " +:+ err +:+ newline
  | Good master =>
    "name: " +:+ masterName +:+ newline +:+
    concat_lines (map (fun key => let v := TrimSpace (get master key) in
      if decide (v = "") then "" else key +:+ ": " +:+ v +:+ newline) health_keys)
  end.

Definition text_or_error (r : res string string) : string :=
  match r with Bad err => "error: " +:+ err +:+ newline | Good text => text +:+ newline end.
Definition count_or_error (what : string) (r : res string (list SentinelMasterInfo)) : string :=
  match r with
  | Bad err => what +:+ "_error: " +:+ err +:+ newline
  | Good l => what +:+ ": " +:+ itoa (zlen l) +:+ newline
  end.

Definition health_text (masterName : string) (master : res string SentinelMasterInfo) (ckquorum addr : res string string)
    (replicas sentinels : res string (list SentinelMasterInfo)) : string :=
  "[MASTER HEALTH]" +:+ newline +:+ master_lines masterName master +:+
  newline +:+ "[CKQUORUM]" +:+ newline +:+ text_or_error ckquorum +:+
  newline +:+ "[MASTER ADDR]" +:+ newline +:+ text_or_error addr +:+
  newline +:+ "[TOPOLOGY COUNTS]" +:+ newline +:+ count_or_error "replicas" replicas +:+ count_or_error "sentinels" sentinels.

Definition failed {A} (r : res string A) : bool := match r with Bad _ => true | Good _ => false end.

(** ** Tools *)
Section tools.
Context {W : Type} `{!Network W} `{!NameSort}.
Variable is_print : Z -> bool.

Definition tool := option any_accessor -> gomap string -> io (net W) (res string string).

(** [fmt.Errorf("what: %w", err)]. *)
Definition wrapped {A} (what : string) (m : io (net W) (res string A)) : io (net W) (res string A) :=
  r ← m; io_ret (match r with Good a => Good a | Bad err => Bad (what +:+ ": " +:+ err) end).

Definition sentinel_overview : tool := fun accessor args =>
  acc ←? io_ret (getAccessor accessor);
  role ←? wrapped "ROLE" (SentinelRole is_print acc);
  masters ←? wrapped "SENTINEL MASTERS" (SentinelMasters is_print acc);
  e_ok (formatOverview role masters).

(** The accessor, then the name in the arguments. *)
Definition with_master (f : SentinelAccessor -> string -> io (net W) (res string string)) : tool := fun accessor args =>
  acc ←? io_ret (getAccessor accessor);
  let masterName := TrimSpace (gomap_get args "master") in
  if decide (masterName = "") then e_err "master is required" else f acc masterName.

Definition sentinel_master_health : tool := with_master (fun acc masterName =>
  master ← SentinelMaster is_print acc masterName;
  ckquorum ← SentinelCKQuorum is_print acc masterName;
  addr ← SentinelGetMasterAddrByName is_print acc masterName;
  replicas ← SentinelReplicas is_print acc masterName;
  sentinels ← SentinelSentinels is_print acc masterName;
  if failed master && failed ckquorum && failed addr
  then e_err ("failed to query master health for " +:+ masterName)
  else e_ok (health_text masterName master ckquorum addr replicas sentinels)).

Definition sentinel_replicas : tool := with_master (fun acc masterName =>
  replicas ←? wrapped ("SENTINEL REPLICAS " +:+ masterName) (SentinelReplicas is_print acc masterName);
  e_ok (formatList "REPLICAS" replicas)).

Definition sentinel_sentinels : tool := with_master (fun acc masterName =>
  peers ←? wrapped ("SENTINEL SENTINELS " +:+ masterName) (SentinelSentinels is_print acc masterName);
  e_ok (formatList "SENTINELS" peers)).

Definition sentinel_info : tool := fun accessor args =>
  acc ←? io_ret (getAccessor accessor);
  let section := TrimSpace (gomap_get args "section") in
  wrapped (if decide (section = "") then "INFO" else "INFO " +:+ section) (InfoRaw is_print acc section).

Definition sentinel_tools : list (string * tool) :=
  [("sentinel_overview", sentinel_overview); ("sentinel_master_health", sentinel_master_health);
   ("sentinel_replicas", sentinel_replicas); ("sentinel_sentinels", sentinel_sentinels);
   ("sentinel_info", sentinel_info)].

Definition accessor_factory (instanceRef : any_instance) (target : string) : io (net W) (res string SentinelAccessor) :=
  match instanceRef with
  | OtherInstance type => e_err ("redis_sentinel accessor factory: expected *Instance, got " +:+ type)
  | SentinelInstance s targets =>
    let target := if decide (target = "") then default "" (head targets) else target in
    NewSentinelAccessor is_print (accessor_config s target)
  end.

Definition pre_collector (accessor : any_accessor) : io (net W) string :=
  match accessor with
  | OtherAccess _ => io_ret ""
  | SentinelAccess acc =>
    role ← SentinelRole is_print acc;
    match role with
    | Bad _ => io_ret ""
    | Good role =>
      masters ← SentinelMasters is_print acc;
      io_ret (match masters with
      | Bad _ => "[ROLE]" +:+ newline +:+ role +:+ newline
      | Good masters => formatOverview role masters
      end)
    end
  end.
End tools.
