(* ===== verification/SentinelProps.v ===== *)
(** * Properties of the Sentinel check

    Which events a gathering pushes, what it sends, that it leaves no
    connection open, how the answers of a Sentinel are read back, and the
    verdicts on flags and counts. *)
From S2P Require Import Prelude GoStr GoLib GoConv GoFmt GoIo GoUrl Types Filter Pushing Flight Resp RespProps NetLog PluginConfig SentinelConfig SentinelAccessor SentinelGather SentinelDiagnose.
#[local] Open Scope Z_scope.
#[local] Open Scope go_scope.

(** ** What a gathering reports *)

(** An event is about a check of the target or of one of its masters. *)
Definition key : Type := string * option string.
Definition is_event (target : string) (k : key) (e : Event) : Prop :=
  check_of e = k.1 /\ target_of e = target /\ Labels e ≫= lookup "master_name" = k.2.

#[export] Instance sstate_pushing {W} : Pushing (sstate W) := s_events.

Lemma newEvent_is check target : is_event target (check, None) (newEvent check target).
Proof. done. Qed.
Lemma newMasterEvent_is check target m : is_event target (check, Some m) (newMasterEvent check target m).
Proof. done. Qed.
Lemma checkMinCount_is target check m v c name : is_event target (check, Some m) (checkMinCount target check m v c name).
Proof. unfold checkMinCount. by repeat case_match. Qed.

Section reports.
Context {W : Type} `{!Network W} `{!NameSort}.
Variable is_print : Z -> bool.
Variable ins : Instance.
Variable target : string.
Notation s := (settings ins).
Notation reports := (reports (S := sstate W) (is_event target)).
Notation silent := (silent (S := sstate W)).

Lemma sentinel_reports_push k e : is_event target k e -> reports (eq [k]) (push [e]).
Proof. intros He. eapply (reports_adds _ _ [k] [e]); [done| |done]. by constructor. Qed.

Lemma sentinel_silent_on_net {A} (m : io (net W) A) : silent (on_net m).
Proof. intros g a g'. unfold on_net. destruct (m (s_net g)) as [r n]. by intros [= -> <-]. Qed.
Lemma sentinel_silent_clock : silent clock.
Proof. by intros g a g' [= <- <-]. Qed.
#[local] Hint Resolve sentinel_silent_on_net sentinel_silent_clock : reports.

Definition connectivity : key := ("redis_sentinel::connectivity", None).
Definition role : key := ("redis_sentinel::role", None).
Definition overview : key := ("redis_sentinel::masters_overview", None).

(** The checks that are enabled, in the order in which they report. *)
Definition opt (b : bool) (k : key) : list key := if b then [k] else [].
Definition connectivity_keys : list key := opt (connectivityEnabled s) connectivity.
Definition role_keys : list key := opt (roleEnabled s) role.
Definition overview_keys : list key := opt (mastersOverviewEnabled s) overview.
Definition tilt_keys : list key := opt (tiltEnabled s) ("redis_sentinel::tilt", None).
Definition missing_keys (m : string) : list key :=
  opt (ckquorumEnabled s) ("redis_sentinel::ckquorum", Some m)
  ++ opt (masterSDownEnabled s) ("redis_sentinel::master_sdown", Some m)
  ++ opt (masterODownEnabled s) ("redis_sentinel::master_odown", Some m)
  ++ opt (masterAddrResolutionEnabled s) ("redis_sentinel::master_addr_resolution", Some m).
Definition topology_keys (m : string) : list key :=
  opt (peerCountEnabled s) ("redis_sentinel::peer_count", Some m)
  ++ opt (knownSentinelsEnabled s) ("redis_sentinel::known_sentinels", Some m)
  ++ opt (knownReplicasEnabled s) ("redis_sentinel::known_replicas", Some m)
  ++ opt (failoverInProgressEnabled s) ("redis_sentinel::failover_in_progress", Some m).
Definition master_keys (discovered : gmap string SentinelMasterInfo) (m : string) : list key :=
  missing_keys m ++ (if bool_decide (is_Some (discovered !! m)) then topology_keys m else []).

Lemma reports_opt b k (m : io (sstate W) unit) : reports (eq [k]) m -> reports (eq (opt b k)) (when b m).
Proof. intros Hm. by apply reports_when. Qed.

Lemma sentinel_ping_failed_reports start err : reports (eq connectivity_keys) (ping_failed ins target start err).
Proof. apply reports_opt, reports_silent; [auto with reports|]. intros t. by apply sentinel_reports_push. Qed.

Lemma check_tilt_reports acc : reports (eq tilt_keys) (check_tilt is_print ins target acc).
Proof.
  apply reports_opt, reports_silent; [auto with reports|]. intros r. apply sentinel_reports_push.
  destruct r; [|done]. cbv zeta. by case_decide.
Qed.

Lemma flag_event_is check m flag what sev flags :
  is_event target (check, Some m) (flag_event target m check flag what sev flags).
Proof. unfold flag_event. by destruct (hasFlag flags flag). Qed.

Lemma missing_reports m : reports (eq (missing_keys m)) (pushMissingMasterEvents ins target m).
Proof. repeat apply reports_seq; apply reports_opt; by apply sentinel_reports_push. Qed.

Lemma count_event_is check m what r c name :
  is_event target (check, Some m) (count_event target m check what r c name).
Proof. destruct r; [apply checkMinCount_is|done]. Qed.

Lemma check_failover_reports m acc flags loaded sentinels :
  reports (eq (opt (failoverInProgressEnabled s) ("redis_sentinel::failover_in_progress", Some m)))
    (check_failover is_print ins target m acc flags loaded sentinels).
Proof.
  apply reports_opt. destruct (failoverInProgress flags); [|by apply sentinel_reports_push].
  apply reports_silent; [destruct loaded; auto with reports|]. intros l. apply sentinel_reports_push. by destruct l.
Qed.

Lemma checkMaster_reports m acc info :
  reports (eq (missing_keys m ++ topology_keys m)) (checkMaster is_print ins target m acc info).
Proof.
  unfold checkMaster, missing_keys. cbv zeta. rewrite <- !app_assoc.
  repeat apply reports_seq.
  - apply reports_opt, reports_silent; [auto with reports|]. intros r. apply sentinel_reports_push. by destruct r.
  - apply reports_opt. apply sentinel_reports_push, flag_event_is.
  - apply reports_opt. apply sentinel_reports_push, flag_event_is.
  - apply reports_opt, reports_silent; [auto with reports|]. intros r. apply sentinel_reports_push.
    destruct r; [|done]. by case_decide.
  - apply reports_silent; [destruct (_ || _); auto with reports|]. intros sentinels.
    apply reports_silent; [destruct (knownReplicasEnabled s); auto with reports|]. intros replicas.
    unfold topology_keys. repeat apply reports_seq; try apply check_failover_reports;
      apply reports_opt; apply sentinel_reports_push, count_event_is.
Qed.

Lemma check_masters_reports acc discovered names :
  reports (eq (flat_map (master_keys discovered) names)) (check_masters is_print ins target acc discovered names).
Proof.
  induction names as [|m names IH]; cbn [check_masters io_each flat_map]; [apply reports_ret|].
  eapply (reports_bind _ (eq (master_keys discovered m)) (eq (flat_map (master_keys discovered) names)));
    [|intros u|by intros ? ? <- <-].
  - unfold master_keys. destruct (discovered !! m); [apply checkMaster_reports|].
    rewrite bool_decide_eq_false_2 by by intros [? [=]]. rewrite app_nil_r. apply missing_reports.
  - eapply (reports_bind _ _ (eq [])); [exact IH| |by intros ? ? <- <-; rewrite app_nil_r]. intros us. apply reports_ret.
Qed.
(** What a gathering reports: that the target cannot be reached (or nothing,
    when that is not asked for), that it is no Sentinel, that its masters
    cannot be listed, or every check that is enabled, on the node and on each
    configured master; the checks of the topology only on masters the Sentinel
    [discovered]. *)
Definition all_keys (discovered : gmap string SentinelMasterInfo) : list key :=
  connectivity_keys ++ role_keys ++ overview_keys ++
  (if bool_decide (Masters ins = []) then [] else flat_map (master_keys discovered) (Masters ins) ++ tilt_keys).

Definition gather_ok (keys : list key) : Prop :=
  keys = connectivity_keys \/
  keys = connectivity_keys ++ role_keys \/
  keys = connectivity_keys ++ role_keys ++ [overview] \/
  exists masters, keys = all_keys (discover masters).1.

Lemma gather_masters_reports acc :
  reports (fun keys => keys = [overview] \/ exists masters,
      keys = overview_keys ++ (if bool_decide (Masters ins = []) then []
                               else flat_map (master_keys (discover masters).1) (Masters ins) ++ tilt_keys))
    (gather_masters is_print ins target acc).
Proof.
  apply reports_silent; [auto with reports|]. intros [masters|err].
  2:{ eapply reports_weaken; [by apply (sentinel_reports_push overview)|]. intros l <-. by left. }
  destruct (discover masters) as [discovered names] eqn:E.
  apply (reports_bind _ (eq overview_keys) (eq (if bool_decide (Masters ins = []) then []
      else flat_map (master_keys discovered) (Masters ins) ++ tilt_keys))).
  - apply reports_opt, sentinel_reports_push. unfold overview_event. cbv zeta. by repeat case_bool_decide.
  - intros _. case_bool_decide; [apply reports_ret|].
    eapply reports_bind; [apply check_masters_reports|intros us; apply check_tilt_reports|by intros ? ? <- <-].
  - intros ? ? <- <-. right. exists masters. by rewrite E.
Qed.

Lemma check_role_reports acc :
  reports (eq role_keys) (check_role is_print ins target acc).
Proof.
  unfold check_role, role_keys. destruct (roleEnabled s) eqn:E; cbn [negb opt]; [|apply reports_ret].
  apply reports_silent; [auto with reports|]. intros [r|err]; [case_decide|];
    (eapply reports_bind; [by apply (sentinel_reports_push role)|intros _; apply reports_ret|by intros ? ? <- <-]).
Qed.
Lemma sentinel_gather_connected_reports acc start : reports gather_ok (gather_connected is_print ins target acc start).
Proof.
  apply reports_silent; [auto with reports|]. intros [u|err].
  2:{ eapply reports_weaken; [apply sentinel_ping_failed_reports|]. intros l <-. by left. }
  eapply reports_weaken.
  { apply (reports_cat _ (eq connectivity_keys)).
    - apply reports_opt, reports_silent; [auto with reports|]. intros t. by apply sentinel_reports_push.
    - intros _. apply reports_cat; [apply check_role_reports|]. intros go_on.
      instantiate (1 := fun keys => keys = [] \/ keys = [overview] \/ exists masters,
        keys = overview_keys ++ (if bool_decide (Masters ins = []) then []
                                 else flat_map (master_keys (discover masters).1) (Masters ins) ++ tilt_keys)).
      destruct go_on; [eapply reports_weaken; [apply gather_masters_reports|by right]|].
      eapply reports_weaken; [apply reports_ret|]. intros l <-. by left. }
  intros l (? & ? & -> & <- & ? & ? & -> & <- & [->|[->|[masters ->]]]); right; [left|right; left|right; right; exists masters].
  - by rewrite app_nil_r.
  - done.
  - done.
Qed.

(** *** No key twice *)
Lemma opt_of (b : bool) (c : string) (m : option string) : opt b (c, m) ⊆+ map (fun c => (c, m)) [c].
Proof. apply (opt_submseteq b (c, m)). Qed.

Definition master_check_names : list string :=
  ["redis_sentinel::ckquorum"; "redis_sentinel::master_sdown"; "redis_sentinel::master_odown";
   "redis_sentinel::master_addr_resolution"; "redis_sentinel::peer_count"; "redis_sentinel::known_sentinels";
   "redis_sentinel::known_replicas"; "redis_sentinel::failover_in_progress"].

Lemma master_keys_sub discovered m : master_keys discovered m ⊆+ map (fun c => (c, Some m)) master_check_names.
Proof.
  unfold master_keys, missing_keys, topology_keys. rewrite <- !app_assoc.
  change master_check_names with (["redis_sentinel::ckquorum"] ++ ["redis_sentinel::master_sdown"]
    ++ ["redis_sentinel::master_odown"] ++ ["redis_sentinel::master_addr_resolution"] ++ ["redis_sentinel::peer_count"]
    ++ ["redis_sentinel::known_sentinels"] ++ ["redis_sentinel::known_replicas"] ++ ["redis_sentinel::failover_in_progress"]).
  rewrite !map_app. repeat (apply submseteq_app; [apply opt_of|]).
  case_bool_decide; [|apply submseteq_nil_l]. repeat (apply submseteq_app; [apply opt_of|]). apply opt_of.
Qed.

Lemma master_keys_NoDup discovered m : NoDup (master_keys discovered m).
Proof.
  eapply submseteq_NoDup; [apply master_keys_sub|]. apply NoDup_fmap_2; [by intros ? ? [= ->]|].
  apply (bool_decide_unpack _). vm_compute. exact I.
Qed.

Lemma master_keys_of discovered m k : k ∈ master_keys discovered m -> k.2 = Some m.
Proof.
  intros Hk. eapply elem_of_submseteq in Hk; [|apply master_keys_sub].
  by apply list_elem_of_fmap in Hk as (c & -> & _).
Qed.

Lemma flat_keys_NoDup discovered names : NoDup names -> NoDup (flat_map (master_keys discovered) names).
Proof.
  induction 1 as [|m names Hm Hn IH]; cbn [flat_map]; [constructor|]. apply NoDup_app. split; [apply master_keys_NoDup|].
  split; [|done]. intros k Hk Hin. apply master_keys_of in Hk.
  apply list_elem_of_In, in_flat_map in Hin as (m' & Hm' & Hin). apply list_elem_of_In, master_keys_of in Hin.
  apply list_elem_of_In in Hm'. congruence.
Qed.

Lemma flat_keys_some discovered names k : k ∈ flat_map (master_keys discovered) names -> is_Some k.2.
Proof.
  intros Hin. apply list_elem_of_In, in_flat_map in Hin as (m & _ & Hin).
  apply list_elem_of_In, master_keys_of in Hin. eauto.
Qed.

Lemma sentinel_gather_ok_NoDup keys : NoDup (Masters ins) -> gather_ok keys -> NoDup keys.
Proof.
  intros Hm Hok.
  assert (forall l, NoDup l -> Forall (fun k : key => is_Some k.2) l ->
    NoDup (connectivity_keys ++ role_keys ++ overview_keys ++ l ++ tilt_keys)) as Hall.
  { intros l Hl Hs. eapply (submseteq_NoDup _ (([connectivity] ++ [role] ++ [overview]) ++ l ++ [("redis_sentinel::tilt", None)])).
    - rewrite <- !app_assoc. repeat (apply submseteq_app; [first [apply opt_submseteq|done]|]). apply opt_submseteq.
    - rewrite (Permutation_app_comm l), app_assoc. apply NoDup_app. split; [|split; [|done]].
      + apply (bool_decide_unpack _). vm_compute. exact I.
      + intros k Hk Hin. apply (proj1 (Forall_forall _ _) Hs) in Hin as [m Hin]. revert Hin.
        repeat (apply elem_of_cons in Hk as [->|Hk]; [done|]). by apply elem_of_nil in Hk. }
  assert (NoDup (connectivity_keys ++ role_keys ++ [overview])) as Hnode.
  { eapply (submseteq_NoDup _ ([connectivity] ++ [role] ++ [overview])).
    - repeat (apply submseteq_app; [apply opt_submseteq|]). done.
    - apply (bool_decide_unpack _). vm_compute. exact I. }
  destruct Hok as [->|[->|[->|[masters ->]]]]; [..|].
  - by apply NoDup_app in Hnode as [? _].
  - rewrite app_assoc in Hnode. by apply NoDup_app in Hnode as [? _].
  - done.
  - unfold all_keys. case_bool_decide.
    + rewrite app_nil_r. specialize (Hall [] ltac:(constructor) ltac:(constructor)). cbn [app] in Hall.
      rewrite !app_assoc in Hall. rewrite app_assoc. by apply NoDup_app in Hall as [? _].
    + apply Hall; [by apply flat_keys_NoDup|]. apply Forall_forall. intros k. apply flat_keys_some.
Qed.

(** Every check that is enabled reports exactly once per gathering, on the
    target or on a configured master, and nothing else does; a target that
    cannot be reached, that is no Sentinel or whose masters cannot be listed
    reports that and nothing after it. *)
Theorem sentinel_gatherTarget_reports st st' :
  NoDup (Masters ins) -> gatherTarget is_print ins target st = (Ret tt, st') ->
  exists keys evs, s_events st' = s_events st ++ evs /\ Forall2 (is_event target) keys evs /\ gather_ok keys /\ NoDup keys.
Proof.
  assert (reports gather_ok (gatherTarget is_print ins target)) as Hr.
  { apply reports_silent; [auto with reports|]. intros start. apply reports_silent; [auto with reports|].
    intros [acc|err].
    - intros s1 a s2 H1. unfold closing in H1.
      destruct (gather_connected is_print ins target acc start s1) as [r s3] eqn:E.
      destruct (on_net (sa_Close acc) s3) as [u s4] eqn:E2. injection H1 as -> ->.
      apply sentinel_gather_connected_reports in E as (ks & evs & He & Hc). exists ks, evs. split; [|done].
      unfold on_net, sa_Close, close_conn, with_world in E2. injection E2 as _ <-. exact He.
    - eapply reports_weaken; [apply sentinel_ping_failed_reports|]. intros l <-. by left. }
  intros Hm H1. destruct (Hr _ _ _ H1) as (ks & evs & He & Hc & Hok). exists ks, evs. split_and!; try done.
  by apply sentinel_gather_ok_NoDup.
Qed.
End reports.

(** ** What is sent to a Sentinel *)

(** Commands that only ask; AUTH comes with every connection. *)
Inductive sentinel_query (name_ok : string -> Prop) : list string -> Prop :=
| sq_auth args : sentinel_query name_ok ("AUTH" :: args)
| sq_ping : sentinel_query name_ok ["PING"]
| sq_role : sentinel_query name_ok ["ROLE"]
| sq_info : sentinel_query name_ok ["INFO"]
| sq_section section : sentinel_query name_ok ["INFO"; section]
| sq_masters : sentinel_query name_ok ["SENTINEL"; "MASTERS"]
| sq_master what name :
    what ∈ ["MASTER"; "REPLICAS"; "SENTINELS"; "CKQUORUM"; "GET-MASTER-ADDR-BY-NAME"] -> name_ok name ->
    sentinel_query name_ok ["SENTINEL"; what; name].

(** Queries about masters with [name_ok] only; connections to [cfg] only. *)
Definition asks (name_ok : string -> Prop) (cfg_ok : RedisAccessorConfig -> Prop) (e : net_event) : Prop :=
  match e with
  | Dialled _ cfg => cfg_ok cfg
  | Wrote _ bytes => exists args, bytes = writeCommand args /\ sentinel_query name_ok args
  | Closed _ => True
  end.

Section asking.
Context {W : Type} `{!Network W} `{!NameSort}.
Variable is_print : Z -> bool.
Variable name_ok : string -> Prop.
Variable cfg_ok : RedisAccessorConfig -> Prop.
Notation P := (asks name_ok cfg_ok).
Variable I : net (W * list net_event) -> Prop.
Hypothesis I_same : forall n n', log_of n' = log_of n -> next_conn n' = next_conn n -> I n -> I n'.
Hypothesis I_add : forall n n' e, log_of n' = e :: log_of n -> next_conn n' = next_conn n -> P e -> I n -> I n'.

Lemma asks_raw c args : sentinel_query name_ok args -> keeps I (rawCommand is_print c args).
Proof.
  intros Ha. apply keeps_e_bind; [apply (step_write P); [done|by exists args]|]. intros _. by apply step_read.
Qed.
Lemma asks_command c args : sentinel_query name_ok args -> keeps I (command is_print c args).
Proof. intros Ha. apply keeps_e_bind; [by apply asks_raw|]. intros v. apply keeps_ret. Qed.
Lemma asks_query {A} (parse : reply -> res string A) acc args :
  sentinel_query name_ok args -> keeps I (query is_print parse acc args).
Proof. intros Ha. apply keeps_e_bind; [by apply asks_raw|]. intros v. apply keeps_ret. Qed.
Lemma asks_expect c name want args : sentinel_query name_ok args -> keeps I (expect_reply is_print c name want args).
Proof. intros Ha. apply keeps_e_bind; [by apply asks_command|]. intros r. case_decide; apply keeps_ret. Qed.
Lemma asks_close c : keeps I (close_conn c).
Proof. by apply (step_close P). Qed.
Lemma asks_or_close c m : keeps I m -> keeps I (or_close c m).
Proof. by apply (step_or_close P). Qed.

(** Steps through a computation whose commands all ask. *)
Ltac a_query := constructor; try (apply (bool_decide_unpack _); vm_compute; exact Logic.I); try assumption.
Ltac asking :=
  repeat lazymatch goal with
  | |- keeps _ (io_ret _) => apply keeps_ret
  | |- keeps _ (e_err _) => apply keeps_ret
  | |- keeps _ (e_ok _) => apply keeps_ret
  | |- keeps _ (Ping _ _) => apply asks_expect; a_query
  | |- keeps _ (SentinelRole _ _) => apply asks_query; a_query
  | |- keeps _ (SentinelMasters _ _) => apply asks_query; a_query
  | |- keeps _ (SentinelMaster _ _ _) => apply asks_query; a_query
  | |- keeps _ (SentinelReplicas _ _ _) => apply asks_query; a_query
  | |- keeps _ (SentinelSentinels _ _ _) => apply asks_query; a_query
  | |- keeps _ (SentinelGetMasterAddrByName _ _ _) => apply asks_query; a_query
  | |- keeps _ (SentinelCKQuorum _ _ _) => apply asks_command; a_query
  | |- keeps _ (InfoRaw _ _ _) => apply asks_command; case_decide; a_query
  | |- keeps _ (Info _ _ _) => apply keeps_e_bind; [|intros ?]
  | |- keeps _ (wrapped _ _) => apply keeps_bind; [|intros ?]
  | |- keeps _ (_ ≫= _) => apply keeps_bind; [|intros ?]
  | |- keeps _ (e_bind _ _) => apply keeps_e_bind; [|intros ?]
  | |- keeps _ (let '(_, _) := ?p in _) => destruct p
  | |- keeps _ (match ?x with _ => _ end) => destruct x
  end.

(** *** The tools *)
Lemma tools_ask accessor args : (forall name, name_ok name) -> Forall (fun t => keeps I (t.2 accessor args)) (sentinel_tools is_print).
Proof.
  intros Hall. unfold sentinel_tools. repeat constructor; cbn [snd].
  - unfold sentinel_overview. asking.
  - unfold sentinel_master_health, with_master. asking; apply Hall.
  - unfold sentinel_replicas, with_master. asking; apply Hall.
  - unfold sentinel_sentinels, with_master. asking; apply Hall.
  - unfold sentinel_info. asking.
Qed.

Lemma pre_collector_asks accessor : keeps I (pre_collector is_print accessor).
Proof. unfold pre_collector. asking. Qed.

(** *** A gathering *)
Notation J := (fun st : sstate (W * list net_event) => I (s_net st)).

Lemma asks_on_net {A} (m : io (net (W * list net_event)) A) : keeps I m -> keeps J (on_net m).
Proof. intros Hm st Hs. unfold on_net. specialize (Hm _ Hs). by destruct (m (s_net st)). Qed.
Lemma asks_push evs : keeps J (push evs).
Proof. by apply keeps_modify. Qed.
Lemma asks_clock : keeps J clock.
Proof. apply keeps_gets. Qed.
Lemma asks_when b (m : io (sstate (W * list net_event)) unit) : keeps J m -> keeps J (when b m).
Proof. destruct b; [done|]. intros _. apply keeps_ret. Qed.

Ltac gathering :=
  repeat lazymatch goal with
  | |- keeps _ (io_ret _) => apply keeps_ret
  | |- keeps _ (push _) => apply asks_push
  | |- keeps _ clock => apply asks_clock
  | |- keeps _ (when _ _) => apply asks_when
  | |- keeps _ (on_net _) => apply asks_on_net; asking
  | |- keeps _ (_ ≫= _) => apply keeps_bind; [|intros ?]
  | |- keeps _ (let '(_, _) := ?p in _) => destruct p
  | |- keeps _ (match ?x with _ => _ end) => destruct x
  end.

Lemma master_asks ins target m acc info : name_ok m -> keeps J (checkMaster is_print ins target m acc info).
Proof.
  intros Hm. unfold checkMaster, check_ckquorum, check_addr, check_failover. cbv zeta. gathering.
Qed.

Lemma connected_asks ins target acc start :
  Forall name_ok (Masters ins) -> keeps J (gather_connected is_print ins target acc start).
Proof.
  intros Hall. unfold gather_connected, ping_failed, check_role, gather_masters, check_tilt. cbv zeta. gathering.
  unfold check_masters. induction Hall as [|m names Hm Hall IH]; cbn [io_each]; [apply keeps_ret|].
  apply keeps_bind; [|intros u; apply keeps_bind; [exact IH|intros us; apply keeps_ret]].
  destruct (_ !! m); [by apply master_asks|]. unfold pushMissingMasterEvents. cbv zeta. gathering.
Qed.
End asking.

Lemma NewSentinelAccessor_run {W} `{!Network W} is_print cfg (n : net W) :
  NewSentinelAccessor is_print cfg n =
  match open_conn (net_config cfg) n with
  | (Ret (Good c), n1) =>
    match (if negb (bool_decide (sc_Password cfg = "")) || negb (bool_decide (sc_Username cfg = ""))
           then or_close c (expect_reply is_print c "AUTH" "OK" (auth_args (net_config cfg))) else e_ok tt) n1 with
    | (Ret (Good _), n2) => (Ret (Good (mkSentinelAccessor c (sc_Target cfg))), n2)
    | (Ret (Bad err), n2) => (Ret (Bad err), n2)
    | (Panic, n2) => (Panic, n2)
    end
  | (Ret (Bad err), n1) => (Ret (Bad err), n1)
  | (Panic, n1) => (Panic, n1)
  end.
Proof.
  unfold NewSentinelAccessor, e_bind, io_bind. destruct (open_conn (net_config cfg) n) as [[[c|err]|] n1]; try done.
  match goal with |- context [(if ?b then ?x else ?y) n1] => by destruct ((if b then x else y) n1) as [[[u|err]|] n2] end.
Qed.

(** *** Connections opened and closed *)
Section closing.
Context {W : Type} `{!Network W} `{!NameSort}.
Variable is_print : Z -> bool.
Variable ins : Instance.
Variable target : string.
Variable log0 : list net_event.
Notation s := (settings ins).
Notation P := (asks (fun m => m ∈ Masters ins) (fun cfg => cfg = net_config (accessor_config s target))).

(** [k] connections were opened so far. *)
Definition talks (k : nat) (n : net (W * list net_event)) : Prop := confined P log0 n /\ next_conn n = k.

Lemma talks_same k n n' : log_of n' = log_of n -> next_conn n' = next_conn n -> talks k n -> talks k n'.
Proof. intros El En [Hc Hk]. split; [by eapply confined_same|congruence]. Qed.
Lemma talks_add k n n' e : log_of n' = e :: log_of n -> next_conn n' = next_conn n -> P e -> talks k n -> talks k n'.
Proof. intros El En He [Hc Hk]. split; [by eapply confined_add|congruence]. Qed.

(** Since [log0] the connections from [k] on were closed again. *)
Definition closed_from (k : nat) (n : net (W * list net_event)) : Prop :=
  exists new, log_of n = new ++ log0 /\ Forall P new /\ forall c, (k <= c < next_conn n)%nat -> Closed c ∈ new.

Lemma close_closes c n : talks (S c) n -> closed_from c (close_conn c n).2 /\ (close_conn c n).1 = Ret tt.
Proof.
  intros [(new & El & Hf) Hk]. unfold close_conn, with_world. cbn. split; [|done]. exists (Closed c :: new).
  unfold log_of in *. cbn. rewrite El, Hk. split; [done|]. split; [by constructor|]. intros c' Hc.
  assert (c' = c) as -> by lia. left.
Qed.

Lemma nothing_opened k n : talks k n -> closed_from k n.
Proof. intros [(new & El & Hf) Hk]. exists new. split_and!; try done. lia. Qed.

Lemma closed_confined k n : closed_from k n -> confined P log0 n.
Proof. intros (new & El & Hf & _). by exists new. Qed.

(** A constructor that fails has closed its connection. *)
Lemma connect_spec n : log_of n = log0 ->
  let cfg := accessor_config s target in
  match NewSentinelAccessor is_print cfg n with
  | (Ret (Good acc), n') => sa_conn acc = next_conn n /\ talks (S (next_conn n)) n'
  | (Ret (Bad _), n') => closed_from (next_conn n) n'
  | (Panic, n') => confined P log0 n'
  end.
Proof.
  intros El. cbv zeta. set (cfg := accessor_config s target). rewrite NewSentinelAccessor_run. unfold open_conn.
  pose proof (keeps_open P log0 (net_config cfg) ltac:(done) n (confined_refl P log0 n El)) as Ho.
  unfold open_conn in Ho. revert Ho.
  destruct (dial (next_conn n) (net_config cfg) (world n)) as [[err|] w']; cbn [snd]; intros Ho.
  { by apply nothing_opened. }
  set (n1 := mkNet _ _ _) in *. assert (talks (S (next_conn n)) n1) as Hn1 by done.
  destruct (_ || _); [|done]. unfold or_close, mbind, io_mbind, io_bind.
  assert (keeps (talks (S (next_conn n))) (expect_reply is_print (next_conn n) "AUTH" "OK" (auth_args (net_config cfg)))) as Hk.
  { eapply asks_expect; [apply talks_same|apply talks_add|constructor]. }
  specialize (Hk n1 Hn1). destruct (expect_reply is_print (next_conn n) _ _ _ n1) as [[[[]|err]|] n2]; cbn [snd] in Hk.
  - done.
  - by apply close_closes in Hk as [Hc _].
  - by destruct Hk.
Qed.
End closing.

Lemma gatherTarget_run {W} `{!Network W} `{!NameSort} is_print ins target (st : sstate W) :
  gatherTarget is_print ins target st =
  let start := net_now (world (s_net st)) in
  match NewSentinelAccessor is_print (accessor_config (settings ins) target) (s_net st) with
  | (Ret (Good acc), n) => closing acc (gather_connected is_print ins target acc start) (mkS n (s_events st))
  | (Ret (Bad err), n) => ping_failed ins target start err (mkS n (s_events st))
  | (Panic, n) => (Panic, mkS n (s_events st))
  end.
Proof.
  unfold gatherTarget, clock, io_gets, on_net, mbind, io_mbind, io_bind. cbv zeta.
  by destruct (NewSentinelAccessor _ _ _) as [[[acc|err]|] n].
Qed.

(** C31: A gathering only asks: it connects to its target, with the settings of
    the instance, and sends queries about the configured masters; when it
    returns normally every connection it opened is closed.  (After a panic one
    may stay open: [auth_panic_leaks_connection].) *)
Theorem sentinel_gather_only_asks {W} `{!Network W} `{!NameSort} is_print ins target
    (st : sstate (W * list net_event)) r st' :
  gatherTarget is_print ins target st = (r, st') ->
  exists new, log_of (s_net st') = new ++ log_of (s_net st) /\
    Forall (asks (fun m => m ∈ Masters ins) (fun cfg => cfg = net_config (accessor_config (settings ins) target))) new /\
    (r = Ret tt -> forall c, (next_conn (s_net st) <= c < next_conn (s_net st'))%nat -> Closed c ∈ new).
Proof.
  rewrite gatherTarget_run. intros Hrun.
  pose proof (connect_spec is_print ins target _ (s_net st) eq_refl) as Hc. cbv zeta in Hc.
  destruct (NewSentinelAccessor is_print _ (s_net st)) as [[[acc|err]|] n].
  - destruct Hc as [Ha Ht]. unfold closing in Hrun.
    assert (keeps (fun st' => talks ins target (log_of (s_net st)) (S (next_conn (s_net st))) (s_net st'))
      (gather_connected is_print ins target acc (net_now (world (s_net st))))) as Hk.
    { eapply connected_asks; [apply talks_same|apply talks_add|]. apply Forall_forall. auto. }
    specialize (Hk (mkS n (s_events st)) Ht). cbn [s_net] in Hk.
    destruct (gather_connected is_print ins target acc _ (mkS n (s_events st))) as [r1 st1]. cbn [snd] in Hk.
    unfold on_net, sa_Close in Hrun. rewrite Ha in Hrun. apply close_closes in Hk as [(new & El & Hf & Hcl) _].
    destruct (close_conn (next_conn (s_net st)) (s_net st1)) as [r2 n2]. injection Hrun as <- <-. cbn in *. exists new. auto.
  - unfold ping_failed in Hrun. assert (s_net st' = n) as ->.
    { destruct (connectivityEnabled _); by injection Hrun as _ <-. }
    destruct Hc as (new & El & Hf & Hcl). exists new. auto.
  - injection Hrun as <- <-. destruct Hc as (new & El & Hf). exists new. split_and!; try done.
Qed.

(** ** Answers of a Sentinel are read back *)

(** How a Sentinel sends a map, and a list of maps. *)
Definition map_reply (m : SentinelMasterInfo) : reply :=
  RArray (flat_map (fun p => [RString p.1; RString p.2]) (map_to_list m)).
Definition maps_reply (ms : list SentinelMasterInfo) : reply := RArray (map map_reply ms).

(** Texts and sizes within the limits of the reader. *)
Definition short (m : SentinelMasterInfo) : Prop :=
  map_Forall (fun k v => slen k <= maxBulkSize /\ slen v <= maxBulkSize) m /\ Z.of_nat (size m) <= 2 ^ 43.

Lemma string_map_pairs l acc :
  string_map (flat_map (fun p : string * string => [RString p.1; RString p.2]) l) acc =
  Good (fold_left (fun acc p => <[p.1 := p.2]> acc) l acc).
Proof. revert acc. induction l as [|[k v] l IH]; intros acc; [done|]. cbn. apply IH. Qed.

Lemma fold_insert_map (l : list (string * string)) :
  NoDup l.*1 -> fold_left (fun acc p => <[p.1 := p.2]> acc) l (∅ : SentinelMasterInfo) = list_to_map l.
Proof.
  intros Hn. rewrite (list_to_map_proper l (reverse l)) by (done || by rewrite reverse_Permutation).
  rewrite <- (reverse_involutive l) at 1. generalize (reverse l) as k. clear. intros k.
  induction k as [|[x y] k IH]; [done|].
  rewrite reverse_cons, fold_left_app, IH. done.
Qed.

Lemma length_flat_pairs (l : list (string * string)) :
  length (flat_map (fun p => [RString p.1; RString p.2]) l) = (2 * length l)%nat.
Proof. induction l as [|p l IH]; [done|]. cbn [flat_map length app]. lia. Qed.

Lemma parseStringMap_reply m : parseStringMap (map_reply m) = Good m.
Proof.
  unfold parseStringMap, map_reply. rewrite length_flat_pairs.
  replace (Nat.odd (2 * length (map_to_list m))) with false by (symmetry; rewrite <- Nat.negb_even, Nat.even_mul; done).
  rewrite string_map_pairs, fold_insert_map by apply NoDup_fst_map_to_list. by rewrite list_to_map_to_list.
Qed.

Lemma string_maps_reply ms : string_maps (map map_reply ms) = Good ms.
Proof. induction ms as [|m ms IH]; [done|]. cbn [map string_maps]. by rewrite parseStringMap_reply, IH. Qed.

Lemma map_reply_sendable m : short m -> sendable (map_reply m).
Proof.
  intros [Hs Hn]. constructor.
  - unfold zlen. rewrite length_flat_pairs, length_map_to_list. lia.
  - apply map_Forall_to_list in Hs. induction Hs as [|[k v] l [Hk Hv] Hl IH]; cbn [flat_map]; [constructor|].
    constructor; [by constructor|]. constructor; [by constructor|exact IH].
Qed.

Lemma maps_reply_sendable ms : Forall short ms -> zlen ms <= 2 ^ 44 -> sendable (maps_reply ms).
Proof.
  intros Hs Hn. constructor; [unfold zlen in *; by rewrite length_map|]. apply Forall_map.
  eapply Forall_impl; [exact Hs|]. apply map_reply_sendable.
Qed.

(** *** Discovery *)
Definition trimmed_name (m : SentinelMasterInfo) : string := TrimSpace (get m "name").

Lemma discover_other ms acc name : name ∉ map trimmed_name ms -> (fold_left discover_one ms acc).1 !! name = acc.1 !! name.
Proof.
  revert acc. induction ms as [|m ms IH]; intros acc Hn; [done|]. cbn [fold_left map] in *.
  apply not_elem_of_cons in Hn as [Hm Hn]. rewrite IH by done. unfold discover_one. fold (trimmed_name m).
  case_decide; [done|]. cbn. by rewrite lookup_insert_ne.
Qed.

Lemma discover_lookup ms acc m :
  NoDup (map trimmed_name ms) -> m ∈ ms -> trimmed_name m <> "" -> (fold_left discover_one ms acc).1 !! trimmed_name m = Some m.
Proof.
  intros Hn Hm Hne. revert acc Hn. induction Hm as [m ms|m m' ms Hm IH]; intros acc [Hx Hn]%NoDup_cons.
  - cbn [fold_left]. rewrite discover_other by done. unfold discover_one. fold (trimmed_name m).
    rewrite decide_False by done. cbn. by rewrite lookup_insert_eq.
  - cbn [fold_left]. by apply IH.
Qed.

(** What a Sentinel answers to SENTINEL MASTERS, REPLICAS or SENTINELS is read
    as the maps it sent, sorted by name, and nothing of the answer stays
    unread; a master is then found under its name, and only under a name that
    was sent. *)
Theorem sentinel_answer_read_back {W} `{!Network W} `{!NameSort} is_print acc args ms (n : net W) w1 eof w2 :
  Forall short ms -> zlen ms <= 2 ^ 44 ->
  default "" (readers n !! sa_conn acc) = "" ->
  conn_write (sa_conn acc) (writeCommand args) (world n) = (None, w1) ->
  arrive (sa_conn acc) w1 = (encode (maps_reply ms), eof, w2) ->
  exists l n', query is_print parseListOfStringMaps acc args n = (Ret (Good l), n') /\
    l ≡ₚ ms /\ Sorted name_le l /\ readers n' !! sa_conn acc = Some "" /\
    (forall name, name ∉ map trimmed_name ms -> (discover l).1 !! name = None) /\
    (NoDup (map trimmed_name ms) -> forall m, m ∈ ms -> trimmed_name m <> "" -> (discover l).1 !! trimmed_name m = Some m).
Proof.
  intros Hs Hn Hr Hw Ha.
  destruct (read_encode is_print "redis_sentinel" eof (maps_reply ms) "" (maps_reply_sendable ms Hs Hn)) as [fuel Hf].
  apply readReplyValue_by in Hf. rewrite string_app_nil_r in Hf.
  eexists (sort_by_name ms), _. split; [|split; [apply sort_by_name_perm|split; [apply sort_by_name_sorted|split; [|split]]]].
  - unfold query, rawCommand, write_command, with_world, e_bind, mbind, io_mbind, io_bind. rewrite Hw. cbn.
    unfold read_reply, read_reply_with, readReplyValue. cbn [world readers]. rewrite Ha, Hr.
    change ("" +:+ encode (maps_reply ms)) with (encode (maps_reply ms)). rewrite Hf.
    cbn. rewrite string_maps_reply. reflexivity.
  - cbn. by rewrite lookup_insert_eq.
  - intros name Hname. unfold discover. rewrite discover_other; [done|]. by rewrite (sort_by_name_perm ms).
  - intros Hnd m Hm Hne. apply discover_lookup; [|by rewrite sort_by_name_perm|done]. by rewrite (sort_by_name_perm ms).
Qed.

(** ** Verdicts *)

(** What flags are written in. *)
Definition flag_char (c : ascii) : bool := in_range 97 122 (byte_val c) || bool_decide (c ∈ ["_"; "-"]%char).
Definition flag_text_char (c : ascii) : bool := flag_char c || bool_decide (c = ","%char).

Lemma flag_text_char_keeps c : flag_text_char c = true ->
  byte_val c < 128 /\ IsSpace (byte_val c) = false /\ encode_rune (lower_rune (byte_val c)) = String c "".
Proof. destruct c as [[] [] [] [] [] [] [] []]; (intros H; vm_compute in H; try discriminate H; vm_compute; done). Qed.

Lemma flag_text_trim s : all_chars flag_text_char s = true -> TrimSpace s = s.
Proof.
  intros Hs. apply TrimSpace_no_space. eapply all_chars_impl; [|exact Hs]. intros c Hc.
  apply flag_text_char_keeps in Hc as (Hc & Hn & _). rewrite Hn. by rewrite (proj2 (Z.ltb_lt _ _)).
Qed.

Lemma flag_text_lower s : all_chars flag_text_char s = true -> ToLower s = s.
Proof.
  unfold ToLower. induction s as [|c s IH]; [done|]. cbn [all_chars]. intros [Hc Hs]%andb_true_iff.
  apply flag_text_char_keeps in Hc as (Hc & _ & He). rewrite runes_step by done. rewrite DecodeRune_ascii by done.
  cbn [fst snd map of_runes]. change (sdrop 1 (String c s)) with (sdrop 0 s).
  replace (sdrop 0 s) with s by by destruct s. by rewrite He, IH.
Qed.

Lemma flags_text flags : Forall (fun f => all_chars flag_char f = true) flags -> all_chars flag_text_char (Join flags ",") = true.
Proof.
  assert (forall f, all_chars flag_char f = true -> all_chars flag_text_char f = true) as Hf.
  { intros f. apply all_chars_impl. intros c Hc. unfold flag_text_char. by rewrite Hc. }
  induction 1 as [|f flags H1 H2 IH]; [done|]. destruct flags as [|g flags]; [by apply Hf|].
  change (Join (f :: g :: flags) ",") with (f +:+ "," +:+ Join (g :: flags) ","). rewrite !all_chars_app, IH, (Hf f H1). done.
Qed.

Lemma flag_brace_safe f : all_chars flag_char f = true -> brace_safe f.
Proof.
  unfold brace_safe. induction f as [|c f IH]; [done|]. cbn [all_chars ContainsAny]. intros [Hc Hf]%andb_true_iff.
  rewrite IH by done. rewrite orb_false_r.
  destruct c as [[] [] [] [] [] [] [] []]; (vm_compute in Hc; try discriminate Hc; vm_compute; done).
Qed.

Lemma tokens_Join flags : flags <> [] -> Forall (fun f => all_chars flag_char f = true) flags -> tokens (Join flags ",") = flags.
Proof.
  intros Hne Hf. unfold tokens. rewrite flag_text_trim, flag_text_lower by by apply flags_text.
  rewrite split_on_Join; [|done|eapply Forall_impl; [exact Hf|apply flag_brace_safe]].
  clear Hne. induction Hf as [|f flags H1 H2 IH]; [done|]. cbn [map]. rewrite IH, flag_text_trim; [done|].
  eapply all_chars_impl; [|exact H1]. intros c Hc. unfold flag_text_char. by rewrite Hc.
Qed.

(** A master counts as down exactly when its flags, as Sentinel writes them, list
    the flag itself: [s_down] is not found in [o_down] or in [no_s_down]. *)
Theorem hasFlag_listed flags want :
  want <> "" -> Forall (fun f => all_chars flag_char f = true) flags ->
  hasFlag (Join flags ",") want = bool_decide (want ∈ flags).
Proof.
  intros Hw Hf. unfold hasFlag. destruct flags as [|f flags].
  { change (tokens (Join [] ",")) with [""]. cbn. rewrite !bool_decide_eq_false_2; [done|set_solver|done]. }
  rewrite tokens_Join by done. generalize (f :: flags). intros l. clear.
  induction l as [|x l IH]; [by rewrite bool_decide_eq_false_2 by apply not_elem_of_nil|]. cbn [existsb]. rewrite IH.
  destruct (bool_decide_reflect (x = want)) as [->|Hx]; cbn [orb].
  - rewrite bool_decide_eq_true_2; [done|left].
  - apply bool_decide_ext. set_solver.
Qed.

(** Fewer is never less severe, and each status has its range. *)
Definition severity_rank (status : string) : Z :=
  if decide (status = EventStatusCritical) then 2 else if decide (status = EventStatusWarning) then 1 else 0.

Lemma checkMinCount_status target check m v c name :
  EventStatus (checkMinCount target check m v c name) =
  if (0 <? CriticalLt c) && (v <? CriticalLt c) then EventStatusCritical
  else if (0 <? WarnLt c) && (v <? WarnLt c) then EventStatusWarning else EventStatusOk.
Proof. unfold checkMinCount. cbv zeta. by repeat destruct_match_goal. Qed.

Theorem checkMinCount_monotone target check m v v' c name :
  v <= v' ->
  severity_rank (EventStatus (checkMinCount target check m v' c name)) <=
  severity_rank (EventStatus (checkMinCount target check m v c name)).
Proof.
  intros Hv. rewrite !checkMinCount_status.
  destruct (Z.ltb_spec 0 (CriticalLt c)), (Z.ltb_spec 0 (WarnLt c)), (Z.ltb_spec v (CriticalLt c)),
    (Z.ltb_spec v' (CriticalLt c)), (Z.ltb_spec v (WarnLt c)), (Z.ltb_spec v' (WarnLt c)); cbn [andb];
    try (vm_compute; done); lia.
Qed.

(** ** Concrete runs *)

#[export] Instance name_le_dec a b : Decision (name_le a b).
Proof. unfold name_le. apply _. Defined.
#[export] Instance merge_name_sort : NameSort.
Proof.
  refine {| sort_by_name := merge_sort name_le |}.
  - intros l. apply merge_sort_Permutation.
  - intros l. apply Sorted_merge_sort. intros a b. apply (total String.le).
Defined.

(** A server that answers each exchange with the next text; when nothing more
    arrives the read times out. *)
Record script := Script { answers : list string }.
#[export] Instance timed : Network script := {|
  dial _ _ w := (None, w);
  conn_write _ _ w := (None, w);
  arrive _ w := match answers w with [] => ("", "i/o timeout", w) | b :: w' => (b, "i/o timeout", Script w') end;
  conn_close _ w := w;
  net_now _ := 0
|}.

Definition ex_masters : list SentinelMasterInfo :=
  [{["name" := "mymaster"; "flags" := "master,o_down"]}; {["name" := "cache"; "flags" := "master"]}].
Definition ex_sentinel : Instance := set_settings (init_settings ex_settings) (mkInstance "" ["db:26379"] ["cache"; "gone"] ex_settings ∅ ∅).
Definition ex_answers : list string :=
  ["+PONG" +:+ crlf; encode (RArray [RString "sentinel"; RArray []]); encode (maps_reply ex_masters);
   "+OK 3 usable Sentinels" +:+ crlf; encode (RArray [RString "10.0.0.5"; RString "6379"]); encode (maps_reply ex_masters)].
Definition ex_state : sstate script := mkS (mkNet (Script ex_answers) 0 ∅) [].
Definition shown (e : Event) : string * string * string := (check_of e, label "master_name" e, EventStatus e).

Lemma sentinel_gatherTarget_reports_witness :
  exists st' keys, gatherTarget no_print ex_sentinel "db:26379" ex_state = (Ret tt, st') /\
    Forall2 (is_event "db:26379") keys (s_events st') /\ NoDup keys /\
    map shown (s_events st') =
    [("redis_sentinel::connectivity", "", "Ok"); ("redis_sentinel::role", "", "Ok");
     ("redis_sentinel::masters_overview", "", "Ok"); ("redis_sentinel::ckquorum", "cache", "Ok");
     ("redis_sentinel::master_sdown", "cache", "Ok"); ("redis_sentinel::master_odown", "cache", "Ok");
     ("redis_sentinel::master_addr_resolution", "cache", "Ok"); ("redis_sentinel::peer_count", "cache", "Warning");
     ("redis_sentinel::failover_in_progress", "cache", "Ok"); ("redis_sentinel::ckquorum", "gone", "Critical");
     ("redis_sentinel::master_sdown", "gone", "Critical"); ("redis_sentinel::master_odown", "gone", "Critical");
     ("redis_sentinel::master_addr_resolution", "gone", "Critical")].
Proof.
  assert (let p := gatherTarget no_print ex_sentinel "db:26379" ex_state in p.1 = Ret tt /\ map shown (s_events p.2) =
    [("redis_sentinel::connectivity", "", "Ok"); ("redis_sentinel::role", "", "Ok");
     ("redis_sentinel::masters_overview", "", "Ok"); ("redis_sentinel::ckquorum", "cache", "Ok");
     ("redis_sentinel::master_sdown", "cache", "Ok"); ("redis_sentinel::master_odown", "cache", "Ok");
     ("redis_sentinel::master_addr_resolution", "cache", "Ok"); ("redis_sentinel::peer_count", "cache", "Warning");
     ("redis_sentinel::failover_in_progress", "cache", "Ok"); ("redis_sentinel::ckquorum", "gone", "Critical");
     ("redis_sentinel::master_sdown", "gone", "Critical"); ("redis_sentinel::master_odown", "gone", "Critical");
     ("redis_sentinel::master_addr_resolution", "gone", "Critical")]) as [Hr Hs] by (vm_compute; split; reflexivity).
  destruct (gatherTarget no_print ex_sentinel "db:26379" ex_state) as [r st'] eqn:E. cbn in Hr, Hs. subst r.
  destruct (sentinel_gatherTarget_reports no_print ex_sentinel "db:26379" ex_state st') as (keys & evs & He & Hk & _ & Hn);
    [apply (bool_decide_unpack _); vm_compute; exact I|exact E|].
  exists st', keys. change (s_events st' = evs) in He. rewrite He in *.
  split; [reflexivity|]. split; [exact Hk|]. split; [exact Hn|exact Hs].
Defined.

Lemma sentinel_gather_only_asks_witness :
  exists new, log_of (s_net (gatherTarget no_print ex_sentinel "db:26379" (mkS (mkNet (Script ex_answers, []) 0 ∅) [])).2) = new /\
    Closed 0 ∈ new.
Proof.
  destruct (gatherTarget no_print ex_sentinel "db:26379" (mkS (mkNet (Script ex_answers, []) 0 ∅) [])) as [r st'] eqn:E.
  destruct (sentinel_gather_only_asks no_print ex_sentinel "db:26379" (mkS (mkNet (Script ex_answers, []) 0 ∅) []) r st' E)
    as (new & El & _ & Hc).
  assert (r = Ret tt /\ next_conn (s_net st') = 1%nat) as [Hr Hn].
  { change r with (r, st').1. change (s_net st') with (s_net (r, st').2). rewrite <- E. vm_compute. split; reflexivity. }
  exists new. cbn. cbn in El. rewrite El, app_nil_r. split; [reflexivity|]. apply Hc; [exact Hr|]. rewrite Hn. cbn. lia.
Defined.

Lemma sentinel_answer_read_back_witness :
  exists l, (SentinelMasters no_print (mkSentinelAccessor 0 "db:26379") (mkNet (Script [encode (maps_reply ex_masters)]) 1 ∅)).1
    = Ret (Good l) /\ l ≡ₚ ex_masters.
Proof.
  destruct (sentinel_answer_read_back no_print (mkSentinelAccessor 0 "db:26379") ["SENTINEL"; "MASTERS"] ex_masters
    (mkNet (Script [encode (maps_reply ex_masters)]) 1 ∅) (Script [encode (maps_reply ex_masters)]) "i/o timeout" (Script []))
    as (l & n' & El & Hp & _).
  - apply (bool_decide_unpack _). vm_compute. exact I.
  - vm_compute. discriminate.
  - reflexivity.
  - reflexivity.
  - reflexivity.
  - exists l. split; [|exact Hp]. exact (f_equal fst El).
Defined.

(** ** Departures from the intention *)

(** A reply that comes after its read timed out stays on the connection and
    answers the next command: one late CKQUORUM turns the two checks after it
    critical, although the address and the peers are sent as they should be. *)
Theorem late_reply_misread :
  let late := ["+PONG" +:+ crlf; encode (RArray [RString "sentinel"; RArray []]); encode (maps_reply ex_masters);
    ""; "+OK 3 usable Sentinels" +:+ crlf +:+ encode (RArray [RString "10.0.0.5"; RString "6379"]);
    encode (maps_reply ex_masters)] in
  let ins := set_settings (settings ex_sentinel) (mkInstance "" ["db:26379"] ["cache"] ex_settings ∅ ∅) in
  let '(r, st') := gatherTarget no_print ins "db:26379" (mkS (mkNet (Script late) 0 ∅) []) in
  r = Ret tt /\
  map (fun e => (check_of e, Description e)) (filter (fun e => EventStatus e = EventStatusCritical) (s_events st')) =
  [("redis_sentinel::ckquorum", "sentinel ckquorum for master cache failed: i/o timeout");
   ("redis_sentinel::master_addr_resolution",
    "sentinel failed to resolve master cache address: unexpected GET-MASTER-ADDR-BY-NAME reply type string");
   ("redis_sentinel::peer_count", "failed to query sentinel peers for master cache: unexpected reply type string")].
Proof. vm_compute. split; reflexivity. Qed.

(** The address of a reply always contains a colon, so that it is never found to
    be empty: a master without host and port counts as resolved. *)
Theorem empty_address_resolves :
  let '(r, st') := check_addr no_print ex_sentinel "db:26379" "cache" (mkSentinelAccessor 0 "db:26379")
    (mkS (mkNet (Script [encode (RArray [RString ""; RString ""])]) 1 ∅) []) in
  r = Ret tt /\ map (fun e => (EventStatus e, Description e)) (s_events st') =
  [("Ok", "sentinel resolved master cache to :")].
Proof. vm_compute. split; reflexivity. Qed.

(** The check of tilt mode is one of the node, but an instance without masters
    never gets to it. *)
Theorem tilt_needs_masters ins : Masters ins = [] -> ~ exists discovered, ("redis_sentinel::tilt", None) ∈ all_keys ins discovered.
Proof.
  intros Hm [discovered Hin]. revert Hin. unfold all_keys. rewrite bool_decide_eq_true_2, app_nil_r by done.
  unfold connectivity_keys, role_keys, overview_keys, opt.
  destruct (connectivityEnabled _), (roleEnabled _), (mastersOverviewEnabled _); cbn [app];
    intros Hin; repeat (apply elem_of_cons in Hin as [[=]|Hin]); by apply elem_of_nil in Hin.
Qed.

Lemma tilt_needs_masters_witness :
  ~ exists discovered, ("redis_sentinel::tilt", None) ∈ all_keys (mkInstance "" ["db:26379"] [] ex_settings ∅ ∅) discovered.
Proof. apply (tilt_needs_masters (mkInstance "" ["db:26379"] [] ex_settings ∅ ∅)). reflexivity. Defined.

(** A panic while the accessor is being made leaves the connection open: it is
    closed by the caller only once it has the accessor. *)
Theorem auth_panic_leaks_connection :
  let s := settings ex_sentinel in
  let ins := mkInstance "" ["db:26379"] ["cache"] (mkSettings (Concurrency s) (Timeout s) (ReadTimeout s) "" "secret"
    (Client s) (Connectivity s) (SentinelConfig.Role s) (MastersOverview s) (CKQuorum s) (MasterSDown s) (MasterODown s)
    (MasterAddrResolution s) (PeerCount s) (KnownReplicas s) (KnownSentinels s) (FailoverInProgress s) (Tilt s)) ∅ ∅ in
  let '(r, st') := gatherTarget no_print ins "db:26379"
    (mkS (mkNet (Script ["*17592186044417" +:+ crlf], []) 0 ∅) []) in
  r = Panic /\ next_conn (s_net st') = 1%nat /\ Closed 0 ∉ log_of (s_net st').
Proof.
  vm_compute. split; [reflexivity|]. split; [reflexivity|]. intros Hin.
  repeat (apply elem_of_cons in Hin as [Hin|Hin]; [discriminate Hin|]). by apply elem_of_nil in Hin.
Qed.

(** The tools send queries only, and connect to nothing. *)
Theorem sentinel_tools_only_ask {W} `{!Network W} `{!NameSort} is_print accessor args (n : net (W * list net_event)) :
  let only_asks (n' : net (W * list net_event)) := exists new, log_of n' = new ++ log_of n /\
    Forall (asks (fun _ => True) (fun _ => False)) new in
  Forall (fun t => only_asks (t.2 accessor args n).2) (sentinel_tools is_print) /\
  (forall a, only_asks (pre_collector is_print a n).2).
Proof.
  cbv zeta. pose proof (confined_refl (asks (fun _ => True) (fun _ => False)) (log_of n) n eq_refl) as Hn.
  assert (forall n1 n2 : net (W * list net_event), log_of n2 = log_of n1 -> next_conn n2 = next_conn n1 ->
    confined (asks (fun _ => True) (fun _ => False)) (log_of n) n1 ->
    confined (asks (fun _ => True) (fun _ => False)) (log_of n) n2) as Hsame by (intros n1 n2 E _; by apply confined_same).
  assert (forall (n1 n2 : net (W * list net_event)) e, log_of n2 = e :: log_of n1 -> next_conn n2 = next_conn n1 ->
    asks (fun _ => True) (fun _ => False) e ->
    confined (asks (fun _ => True) (fun _ => False)) (log_of n) n1 ->
    confined (asks (fun _ => True) (fun _ => False)) (log_of n) n2) as Hadd by (intros n1 n2 e E _; by apply confined_add).
  split.
  - eapply Forall_impl; [exact (tools_ask is_print (fun _ => True) (fun _ => False) _ Hsame Hadd accessor args (fun _ => Logic.I))|].
    intros t Ht. by apply Ht.
  - intros a. by apply (pre_collector_asks is_print (fun _ => True) (fun _ => False) _ Hsame Hadd a).
Qed.
