(* ===== verification/DockerApi.v ===== *)
(** * The Docker Engine API (plugins/docker/api.go)

    What the daemon answers, decoded into the fields the plugin needs, and the
    requests the plugin sends.  [DockerHttp] is one GET and the clock. *)
From S2P Require Import Prelude GoStr GoLib GoConv GoFmt GoIo GoJson JsonDec Types.
#[local] Open Scope Z_scope.

(** ** Responses *)
Record containerListEntry := mkEntry { Id : string; Names : list string; Image : string; State : string; Status : string }.

Record containerHealthLog := mkHealthLog { Output : string }.
Record containerHealth := mkHealth { h_Status : string; FailingStreak : Z; Log : list containerHealthLog }.
Record containerState := mkState {
  s_Status : string; Running : bool; Paused : bool; Restarting : bool; OOMKilled : bool; ExitCode : Z;
  StartedAt : string; FinishedAt : string; Health : option containerHealth
}.
Record containerHostConfig := mkHostConfig { NanoCPUs : Z; CpuQuota : Z; CpuPeriod : Z }.
Record containerInspect := mkInspect { i_State : containerState; HostConfig : containerHostConfig; RestartCount : Z }.

(** A value of [map[string]interface{}], as [getStatUint64] tells them apart. *)
Inductive stat_value := StatFloat (f : f64) | StatNumber (literal : string) | StatOther.

Record throttlingData := mkThrottling { Periods : Z; ThrottledPeriods : Z; ThrottledTime : Z }.
Record cpuUsage := mkCpuUsage { TotalUsage : Z; PercpuUsage : list Z }.
Record cpuStats := mkCpuStats { CPUUsage : cpuUsage; SystemCPUUsage : Z; OnlineCPUs : Z; ThrottlingData : throttlingData }.
Record memoryStats := mkMemoryStats { Usage : Z; Limit : Z; Stats : gmap string stat_value }.
Record containerStats := mkStats { CPUStats : cpuStats; PreCPUStats : cpuStats; MemoryStats : memoryStats }.

Definition zero_entry : containerListEntry := mkEntry "" [] "" "" "".
Definition zero_health : containerHealth := mkHealth "" 0 [].
Definition zero_state : containerState := mkState "" false false false false 0 "" "" None.
Definition zero_inspect : containerInspect := mkInspect zero_state (mkHostConfig 0 0 0) 0.
Definition zero_cpu : cpuStats := mkCpuStats (mkCpuUsage 0 []) 0 0 (mkThrottling 0 0 0).
Definition zero_stats : containerStats := mkStats zero_cpu zero_cpu (mkMemoryStats 0 0 ∅).

(** ** Decoding *)
Definition max_u32 : Z := 2 ^ 32 - 1.
Definition dec_u64 : jval -> dec Z -> dec Z := dec_uint max_u64.

Definition dec_entry : jval -> dec containerListEntry -> dec containerListEntry := dec_struct (fun k v =>
  if same_name k "Id" then in_field Id (fun x e => mkEntry x (Names e) (Image e) (State e) (Status e)) dec_string v
  else if same_name k "Names" then
    in_field Names (fun x e => mkEntry (Id e) x (Image e) (State e) (Status e)) (dec_slice "" dec_string) v
  else if same_name k "Image" then in_field Image (fun x e => mkEntry (Id e) (Names e) x (State e) (Status e)) dec_string v
  else if same_name k "State" then in_field State (fun x e => mkEntry (Id e) (Names e) (Image e) x (Status e)) dec_string v
  else if same_name k "Status" then in_field Status (fun x e => mkEntry (Id e) (Names e) (Image e) (State e) x) dec_string v
  else id).

Definition dec_health_log : jval -> dec containerHealthLog -> dec containerHealthLog := dec_struct (fun k v =>
  if same_name k "Output" then in_field Output (fun x _ => mkHealthLog x) dec_string v else id).
Definition dec_health : jval -> dec containerHealth -> dec containerHealth := dec_struct (fun k v =>
  if same_name k "Status" then in_field h_Status (fun x h => mkHealth x (FailingStreak h) (Log h)) dec_string v
  else if same_name k "FailingStreak" then in_field FailingStreak (fun x h => mkHealth (h_Status h) x (Log h)) dec_int v
  else if same_name k "Log" then
    in_field Log (fun x h => mkHealth (h_Status h) (FailingStreak h) x) (dec_slice (mkHealthLog "") dec_health_log) v
  else id).

Definition dec_state : jval -> dec containerState -> dec containerState := dec_struct (fun k v =>
  let put s r p t o e sa fa h := mkState s r p t o e sa fa h in
  if same_name k "Status" then in_field s_Status
    (fun x s => put x (Running s) (Paused s) (Restarting s) (OOMKilled s) (ExitCode s) (StartedAt s) (FinishedAt s) (Health s)) dec_string v
  else if same_name k "Running" then in_field Running
    (fun x s => put (s_Status s) x (Paused s) (Restarting s) (OOMKilled s) (ExitCode s) (StartedAt s) (FinishedAt s) (Health s)) dec_bool v
  else if same_name k "Paused" then in_field Paused
    (fun x s => put (s_Status s) (Running s) x (Restarting s) (OOMKilled s) (ExitCode s) (StartedAt s) (FinishedAt s) (Health s)) dec_bool v
  else if same_name k "Restarting" then in_field Restarting
    (fun x s => put (s_Status s) (Running s) (Paused s) x (OOMKilled s) (ExitCode s) (StartedAt s) (FinishedAt s) (Health s)) dec_bool v
  else if same_name k "OOMKilled" then in_field OOMKilled
    (fun x s => put (s_Status s) (Running s) (Paused s) (Restarting s) x (ExitCode s) (StartedAt s) (FinishedAt s) (Health s)) dec_bool v
  else if same_name k "ExitCode" then in_field ExitCode
    (fun x s => put (s_Status s) (Running s) (Paused s) (Restarting s) (OOMKilled s) x (StartedAt s) (FinishedAt s) (Health s)) dec_int v
  else if same_name k "StartedAt" then in_field StartedAt
    (fun x s => put (s_Status s) (Running s) (Paused s) (Restarting s) (OOMKilled s) (ExitCode s) x (FinishedAt s) (Health s)) dec_string v
  else if same_name k "FinishedAt" then in_field FinishedAt
    (fun x s => put (s_Status s) (Running s) (Paused s) (Restarting s) (OOMKilled s) (ExitCode s) (StartedAt s) x (Health s)) dec_string v
  else if same_name k "Health" then in_field Health
    (fun x s => put (s_Status s) (Running s) (Paused s) (Restarting s) (OOMKilled s) (ExitCode s) (StartedAt s) (FinishedAt s) x)
    (dec_pointer zero_health dec_health) v
  else id).

Definition dec_host_config : jval -> dec containerHostConfig -> dec containerHostConfig := dec_struct (fun k v =>
  if same_name k "NanoCpus" then in_field NanoCPUs (fun x h => mkHostConfig x (CpuQuota h) (CpuPeriod h)) dec_int v
  else if same_name k "CpuQuota" then in_field CpuQuota (fun x h => mkHostConfig (NanoCPUs h) x (CpuPeriod h)) dec_int v
  else if same_name k "CpuPeriod" then in_field CpuPeriod (fun x h => mkHostConfig (NanoCPUs h) (CpuQuota h) x) dec_int v
  else id).
Definition dec_inspect : jval -> dec containerInspect -> dec containerInspect := dec_struct (fun k v =>
  if same_name k "State" then in_field i_State (fun x i => mkInspect x (HostConfig i) (RestartCount i)) dec_state v
  else if same_name k "HostConfig" then in_field HostConfig (fun x i => mkInspect (i_State i) x (RestartCount i)) dec_host_config v
  else if same_name k "RestartCount" then in_field RestartCount (fun x i => mkInspect (i_State i) (HostConfig i) x) dec_int v
  else id).

(** Every number of a value fits a [float64]. *)
Fixpoint numbers_fit (v : jval) : bool :=
  match v with
  | VNum lit => bool_decide (is_Some (ParseFloat lit))
  | VArr l => forallb numbers_fit l
  | VObj l => forallb (fun p => numbers_fit p.2) l
  | _ => true
  end.
Definition dec_any (v : jval) (d : dec stat_value) : dec stat_value :=
  match v with
  | VNum lit => match ParseFloat lit with Some f => (StatFloat f, d.2) | None => wrong d end
  | _ => (StatOther, d.2 && numbers_fit v)
  end.

Definition dec_throttling : jval -> dec throttlingData -> dec throttlingData := dec_struct (fun k v =>
  if same_name k "periods" then in_field Periods (fun x t => mkThrottling x (ThrottledPeriods t) (ThrottledTime t)) dec_u64 v
  else if same_name k "throttled_periods" then in_field ThrottledPeriods (fun x t => mkThrottling (Periods t) x (ThrottledTime t)) dec_u64 v
  else if same_name k "throttled_time" then in_field ThrottledTime (fun x t => mkThrottling (Periods t) (ThrottledPeriods t) x) dec_u64 v
  else id).
Definition dec_cpu_usage : jval -> dec cpuUsage -> dec cpuUsage := dec_struct (fun k v =>
  if same_name k "total_usage" then in_field TotalUsage (fun x u => mkCpuUsage x (PercpuUsage u)) dec_u64 v
  else if same_name k "percpu_usage" then in_field PercpuUsage (fun x u => mkCpuUsage (TotalUsage u) x) (dec_slice 0 dec_u64) v
  else id).
Definition dec_cpu : jval -> dec cpuStats -> dec cpuStats := dec_struct (fun k v =>
  if same_name k "cpu_usage" then
    in_field CPUUsage (fun x c => mkCpuStats x (SystemCPUUsage c) (OnlineCPUs c) (ThrottlingData c)) dec_cpu_usage v
  else if same_name k "system_cpu_usage" then
    in_field SystemCPUUsage (fun x c => mkCpuStats (CPUUsage c) x (OnlineCPUs c) (ThrottlingData c)) dec_u64 v
  else if same_name k "online_cpus" then
    in_field OnlineCPUs (fun x c => mkCpuStats (CPUUsage c) (SystemCPUUsage c) x (ThrottlingData c)) (dec_uint max_u32) v
  else if same_name k "throttling_data" then
    in_field ThrottlingData (fun x c => mkCpuStats (CPUUsage c) (SystemCPUUsage c) (OnlineCPUs c) x) dec_throttling v
  else id).
Definition dec_memory : jval -> dec memoryStats -> dec memoryStats := dec_struct (fun k v =>
  if same_name k "usage" then in_field Usage (fun x m => mkMemoryStats x (Limit m) (Stats m)) dec_u64 v
  else if same_name k "limit" then in_field Limit (fun x m => mkMemoryStats (Usage m) x (Stats m)) dec_u64 v
  else if same_name k "stats" then in_field Stats (fun x m => mkMemoryStats (Usage m) (Limit m) x) (dec_map StatOther dec_any) v
  else id).
Definition dec_stats : jval -> dec containerStats -> dec containerStats := dec_struct (fun k v =>
  if same_name k "cpu_stats" then in_field CPUStats (fun x s => mkStats x (PreCPUStats s) (MemoryStats s)) dec_cpu v
  else if same_name k "precpu_stats" then in_field PreCPUStats (fun x s => mkStats (CPUStats s) x (MemoryStats s)) dec_cpu v
  else if same_name k "memory_stats" then in_field MemoryStats (fun x s => mkStats (CPUStats s) (PreCPUStats s) x) dec_memory v
  else id).
(** [versionResponse]. *)
Definition dec_version : jval -> dec string -> dec string := dec_struct (fun k v =>
  if same_name k "ApiVersion" then dec_string v else id).

(** ** Requests *)

(** [http.Client]: the socket its transport dials, if any, and the timeout. *)
Record http_client := mkHttpClient { dials_unix : option string; client_Timeout : Z }.

Inductive get_result := GetFailed (err : string) | GotResponse (StatusCode : Z) (body : stream).

Class DockerHttp (W : Type) := {
  http_get : http_client -> string -> W -> get_result * W;
  docker_now : W -> Z
}.

Definition newDockerHTTPClient (socket : string) (timeout : Z) : http_client * string :=
  if HasPrefix socket "http://" || HasPrefix socket "https://" then (mkHttpClient None timeout, socket)
  else (mkHttpClient (Some socket) timeout, "http://localhost").

Definition truncate (s : string) (n : Z) : string :=
  if RuneCount s <=? n then s else of_runes (take (Z.to_nat n) (runes s)) +:+ "...".

(** Where requests go: the client, the base of the URLs and the version in them. *)
Record endpoint := mkEndpoint { ep_httpClient : http_client; ep_baseURL : string; ep_apiVersion : string }.
Definition apiURL (e : endpoint) (path : string) : string := ep_baseURL e +:+ "/v" +:+ ep_apiVersion e +:+ path.

Definition list_path : string := "/containers/json?all=true".
Definition inspect_path (id : string) : string := "/containers/" +:+ id +:+ "/json".
Definition stats_path (id : string) : string := "/containers/" +:+ id +:+ "/stats?stream=false".

(** [io.LimitReader]. *)
Definition limited (n : Z) (s : stream) : stream :=
  if slen (delivered s) <? n then s else mkStream (stake (Z.to_nat n) (delivered s)) None.

(** What the version response says; [None] when it cannot be read. *)
Definition version_of (r : get_result) : option string :=
  match r with
  | GotResponse _ (mkStream body None) =>
    match Unmarshal "" dec_version body with
    | Some v => if decide (v = "") then None else Some v
    | None => None
    end
  | _ => None
  end.

Section requests.
Context {W : Type} `{!DockerHttp W}.
(** The text of the error of [Decode] into a type; it is not modelled further. *)
Variable decode_error : string -> stream -> string.

Definition fetch (c : http_client) (url : string) : io W get_result := io_lift (http_get c url).

(** The version an instance uses from now on. *)
Definition negotiateAPIVersion (c : http_client) (baseURL : string) : io W string :=
  r ← fetch c (baseURL +:+ "/version");
  io_ret (default "1.25" (version_of r)).

Definition get_json {T} (zero : T) (elem : jval -> dec T -> dec T) (what type path : string) (e : endpoint) : io W (res string T) :=
  r ← fetch (ep_httpClient e) (apiURL e path);
  io_ret match r with
  | GetFailed err => Bad err
  | GotResponse code body =>
    if negb (code =? 200) then Bad ("HTTP " +:+ itoa code +:+ ": " +:+ truncate (delivered body) 200)
    else
      match Decode zero elem body with
      | Some v => Good v
      | None => Bad ("decode " +:+ what +:+ " response: " +:+ decode_error type body)
      end
  end.

Definition listContainers : endpoint -> io W (res string (list containerListEntry)) :=
  get_json [] (dec_slice zero_entry dec_entry) "list" "[]docker.containerListEntry" list_path.
Definition inspectContainer (e : endpoint) (id : string) : io W (res string containerInspect) :=
  get_json zero_inspect dec_inspect "inspect" "docker.containerInspect" (inspect_path id) e.
Definition getContainerStats (e : endpoint) (id : string) : io W (res string containerStats) :=
  get_json zero_stats dec_stats "stats" "docker.containerStats" (stats_path id) e.
End requests.
