(* ===== verification/Docker.v ===== *)
(** * The Docker check (plugins/docker/docker.go)

    Settings, the containers that match the targets, the checks of one
    container and the gathering.  The state is the world, the queue (what was
    pushed, in order), the negotiated version and what is remembered of the
    restarts of each container. *)
From S2P Require Import Prelude GoStr GoLib GoConv GoFmt GoIo JsonDec Types Filter Pushing DockerApi.
#[local] Open Scope Z_scope.
#[local] Open Scope go_scope.

(** ** Helpers *)
Definition shortContainerID (id : string) : string := if 12 <? slen id then stake 12 id else id.
Definition containerName (c : containerListEntry) : string :=
  match Names c with [] => shortContainerID (Id c) | n :: _ => TrimPrefix n "/" end.

Definition isActiveState (state : string) : bool := bool_decide (state ∈ ["running"; "paused"; "restarting"]).

Definition f64_1e9 : f64 := f64_of_Z 1000000000.

Definition getAllocatedCPUs (hc : containerHostConfig) : f64 :=
  if 0 <? NanoCPUs hc then f64_div (f64_of_Z (NanoCPUs hc)) f64_1e9
  else if (0 <? CpuQuota hc) && (0 <? CpuPeriod hc) then f64_div (f64_of_Z (CpuQuota hc)) (f64_of_Z (CpuPeriod hc))
  else f64_zero.

(** [uint64(f)], as amd64 computes it: from 2^63 on by a subtraction, below it
    the bits of [int64(f)]. *)
Definition f64_to_uint64 (f : f64) : Z :=
  let two63 := f64_of_Z (2 ^ 63) in
  if SFleb two63 f then u64 (f64_to_int64 (f64_sub f two63) + 2 ^ 63) else u64 (f64_to_int64 f).

(** [json.Number.Int64] without its error: a number out of range is the nearest
    bound. *)
Definition number_int64 (lit : string) : Z :=
  match ParseInt lit with
  | Good i => i
  | Bad ErrRange => if HasPrefix lit "-" then min_i64 else max_i64
  | Bad ErrSyntax => 0
  end.
Definition getStatUint64 (stats : gmap string stat_value) (key : string) : Z :=
  match stats !! key with
  | Some (StatFloat n) => f64_to_uint64 n
  | Some (StatNumber n) => u64 (number_int64 n)
  | _ => 0
  end.
Definition getFileCache (m : memoryStats) : Z :=
  let get := getStatUint64 (Stats m) in
  if 0 <? get "inactive_file" then get "inactive_file"
  else if 0 <? get "total_inactive_file" then get "total_inactive_file"
  else if 0 <? get "cache" then get "cache"
  else 0.

(** [math.Round]: to the nearest integer, half away from zero. *)
Definition f64_round (f : f64) : f64 :=
  match f with
  | S754_finite s m e =>
    if 0 <=? e then f
    else
      match (2 * Z.pos m + 2 ^ (- e)) / (2 * 2 ^ (- e)) with
      | Z.pos q => if s then SFopp (f64_of_Z (Z.pos q)) else f64_of_Z (Z.pos q)
      | _ => S754_zero s
      end
  | _ => f
  end.

Definition humanBytes (b : Z) : string :=
  let kib := 1024 in
  let mib := kib * 1024 in
  let gib := mib * 1024 in
  let per (u : Z) := f64_div (f64_of_Z b) (f64_of_Z u) in
  if gib <=? b then FormatFixed 1 (f64_div (f64_round (f64_mul (per gib) (f64_of_Z 10))) (f64_of_Z 10)) +:+ " GiB"
  else if mib <=? b then FormatFixed 0 (f64_round (per mib)) +:+ " MiB"
  else if kib <=? b then FormatFixed 0 (f64_round (per kib)) +:+ " KiB"
  else itoa b +:+ " B".

(** A smaller unit is shown when it is not zero. *)
Definition unit_part (n : Z) (unit : string) : string := if 0 <? n then " " +:+ itoa n +:+ unit else "".
Definition humanDuration (d : Z) : string :=
  let d := if d <? 0 then i64 (- d) else d in
  let totalSec := f64_to_int64 (Duration_Seconds d) in
  let days := go_div totalSec 86400 in
  let hours := go_div (Z.rem totalSec 86400) 3600 in
  let minutes := go_div (Z.rem totalSec 3600) 60 in
  let seconds := Z.rem totalSec 60 in
  if 0 <? days then itoa days +:+ "d" +:+ unit_part hours "h" +:+ unit_part minutes "m"
  else if 0 <? hours then itoa hours +:+ "h" +:+ unit_part minutes "m" +:+ unit_part seconds "s"
  else if 0 <? minutes then itoa minutes +:+ "m" +:+ unit_part seconds "s"
  else itoa seconds +:+ "s".

(** ** Settings *)
Record RestartDetectedCheck := mkRestartDetected { Window : Z; r_WarnGe : Z; r_CriticalGe : Z }.
Record UsageCheck := mkUsageCheck { u_WarnGe : f64; u_CriticalGe : f64 }.

(** The settings, and what [Init] derives from them. *)
Record Instance := mkInstance {
  Socket : string; cfg_APIVersion : string; Timeout : Z; Targets : list string; Concurrency : Z; MaxContainers : Z;
  RestartDetected : RestartDetectedCheck; CpuUsage : UsageCheck; MemoryUsage : UsageCheck;
  httpClient : http_client; baseURL : string; explicitNames : gset string; glob_filter : option Filter
}.

(** What is remembered of a container. *)
Record restartRecord := mkRestartRecord { count : Z; timestamp : Z }.
Record containerRestartState := mkRestartState { lastRestartCount : Z; initialized : bool; records : list restartRecord }.
Definition zero_restarts : containerRestartState := mkRestartState 0 false [].

Section init.
Variable is_print : Z -> bool.
Variable glob_Compile : string -> res string (string -> bool).
Variable regexp_Compile : string -> res string (string -> bool).
Variable windows : bool.

Definition usage_conflict (u : UsageCheck) : bool :=
  f64_pos (u_WarnGe u) && f64_pos (u_CriticalGe u) && SFleb (u_CriticalGe u) (u_WarnGe u).
Definition usage_error (name : string) (u : UsageCheck) : string :=
  name +:+ ".warn_ge(" +:+ FormatFixed 1 (u_WarnGe u) +:+ ") must be less than "
  +:+ name +:+ ".critical_ge(" +:+ FormatFixed 1 (u_CriticalGe u) +:+ ")".

(** The instance and the version it starts with; the restart states are empty. *)
Definition Init (ins : Instance) : res string (Instance * string) :=
  let socket :=
    if decide (Socket ins = "") then (if windows then "http://localhost:2375" else "/var/run/docker.sock") else Socket ins in
  let socket := TrimRight1 "/" socket in
  let timeout := if Timeout ins <=? 0 then 10 * Second else Timeout ins in
  let concurrency := if Concurrency ins <=? 0 then 5 else Concurrency ins in
  let maxContainers := if MaxContainers ins <=? 0 then 100 else MaxContainers ins in
  let rd := RestartDetected ins in
  let window := if Window rd =? 0 then 10 * Minute else Window rd in
  if window <? Minute then Bad "restart_detected.window must be >= 1m"
  else if (0 <? r_WarnGe rd) && (0 <? r_CriticalGe rd) && (r_CriticalGe rd <=? r_WarnGe rd) then
    Bad ("restart_detected.warn_ge(" +:+ itoa (r_WarnGe rd) +:+ ") must be less than restart_detected.critical_ge("
         +:+ itoa (r_CriticalGe rd) +:+ ")")
  else if usage_conflict (CpuUsage ins) then Bad (usage_error "cpu_usage" (CpuUsage ins))
  else if usage_conflict (MemoryUsage ins) then Bad (usage_error "memory_usage" (MemoryUsage ins))
  else
    let globs := filter (fun t => HasMeta t = true) (Targets ins) in
    match Compile is_print glob_Compile regexp_Compile globs with
    | Bad err => Bad ("invalid glob pattern in targets: " +:+ err)
    | Good gf =>
      let '(client, base) := newDockerHTTPClient socket timeout in
      Good (mkInstance socket (cfg_APIVersion ins) timeout (Targets ins) concurrency maxContainers
              (mkRestartDetected window (r_WarnGe rd) (r_CriticalGe rd)) (CpuUsage ins) (MemoryUsage ins)
              client base (list_to_set (filter (fun t => HasMeta t = false) (Targets ins))) gf,
            cfg_APIVersion ins)
    end.
End init.

(** ** Matching *)
Definition wanted (ins : Instance) (c : containerListEntry) : bool :=
  let name := containerName c in
  if bool_decide (name ∈ explicitNames ins) then true
  else match glob_filter ins with Some f => isActiveState (State c) && Match f name | None => false end.

(** The loop over the containers, with the names seen so far. *)
Fixpoint match_loop (ins : Instance) (seen : gset string) (containers : list containerListEntry) : list containerListEntry :=
  match containers with
  | [] => []
  | c :: containers' =>
    if wanted ins c && negb (bool_decide (containerName c ∈ seen))
    then c :: match_loop ins ({[containerName c]} ∪ seen) containers'
    else match_loop ins seen containers'
  end.
Definition matchTargets (ins : Instance) (containers : list containerListEntry) : list containerListEntry :=
  match_loop ins ∅ containers.

(** ** Events *)
Definition warning (e : Event) (desc : string) : Event := SetDescription (SetEventStatus e EventStatusWarning) desc.

Definition buildEvent (check target : string) : Event := BuildEvent [attrs_of [("check", check); ("target", target)]].
Definition given (k v : string) : list (string * string) := if decide (v = "") then [] else [(k, v)].
Definition buildContainerEvent (check name shortID image : string) : Event :=
  SetAttrs (BuildEvent [attrs_of [("check", check); ("target", name)]])
    (attrs_of (given "container_id" shortID ++ given "container_image" image)).


Section checks.
Variable is_print : Z -> bool.
(** [time.Parse(time.RFC3339Nano, s)] in nanoseconds since 1970, the local time
    zone as an offset and as an abbreviation. *)
Variable parse_time : string -> option Z.
Variables (zone : Z -> Z) (zone_name : Z -> string).
Variable ins : Instance.

Notation quoted := (Quote is_print).

(** *** The state of the container *)
Definition checkContainerRunning (c : containerListEntry) (name shortID : string) : Event :=
  let event := SetCurrentValue (SetAttrs (buildContainerEvent "docker::container_running" name shortID (Image c))
    (attrs_of [("state", State c); ("status", Status c);
               ("threshold_desc", "Warning: paused/restarting, Critical: not running")])) (State c) in
  if decide (State c = "running") then SetDescription event ("container " +:+ quoted name +:+ " is running")
  else if decide (State c = "paused") then warning event ("container " +:+ quoted name +:+ " is paused")
  else if decide (State c = "restarting") then warning event ("container " +:+ quoted name +:+ " is restarting")
  else
    critical event ("container " +:+ quoted name +:+ " is not running (state: " +:+ State c
      +:+ (if bool_decide (State c = "exited") || bool_decide (State c = "dead") then ", status: " +:+ Status c else "")
      +:+ ")").

(** *** Restarts *)
Definition restarts_enabled : bool := (0 <? r_WarnGe (RestartDetected ins)) || (0 <? r_CriticalGe (RestartDetected ins)).

(** The count against the last one; a smaller one is a new container. *)
Definition count_restarts (now currentCount : Z) (state : containerRestartState) : containerRestartState :=
  if negb (initialized state) then mkRestartState currentCount true (records state)
  else
    let delta := currentCount ⊟ lastRestartCount state in
    if delta <? 0 then mkRestartState currentCount (initialized state) []
    else if 0 <? delta
    then mkRestartState currentCount (initialized state) (records state ++ [mkRestartRecord delta now])
    else state.
Definition expire (cutoff : Z) (state : containerRestartState) : containerRestartState :=
  mkRestartState (lastRestartCount state) (initialized state) (filter (fun r => cutoff < timestamp r) (records state)).
(** One observation. *)
Definition observe (window now currentCount : Z) (state : containerRestartState) : containerRestartState :=
  expire (now - window) (count_restarts now currentCount state).
Definition restartsInWindow (state : containerRestartState) : Z := fold_left (fun n r => n ⊞ count r) (records state) 0.

Definition zero_time : Z := -62135596800 * Second.
Definition parseDockerTime (s : string) : option Z :=
  if bool_decide (s = "") || bool_decide (s = "0001-01-01T00:00:00Z") then None
  else match parse_time s with Some t => if t =? zero_time then None else Some t | None => None end.
Definition time_attr (k s : string) : list (string * string) :=
  match parseDockerTime s with
  | Some t => [(k, FormatDateTime zone (t / Second) +:+ " " +:+ zone_name (t / Second))]
  | None => []
  end.

Definition restart_parts : list string :=
  (if 0 <? r_WarnGe (RestartDetected ins) then ["Warning ≥ " +:+ itoa (r_WarnGe (RestartDetected ins))] else [])
  ++ (if 0 <? r_CriticalGe (RestartDetected ins) then ["Critical ≥ " +:+ itoa (r_CriticalGe (RestartDetected ins))] else []).

Definition oom_text (s : containerState) : string :=
  if OOMKilled s then " (OOM killed, exit code: " +:+ itoa (ExitCode s) +:+ ")" else "".

(** The event of [n] restarts in the window. *)
Definition restart_event (detail : containerInspect) (name shortID image : string) (n : Z) : Event :=
  let rd := RestartDetected ins in
  let st := i_State detail in
  let window := humanDuration (Window rd) in
  let attrs :=
    [("restarts_in_window", itoa n); ("window", window); ("restart_count", itoa (RestartCount detail));
     ("exit_code", itoa (ExitCode st))]
    ++ (if OOMKilled st then [("oom_killed", "true")] else [])
    ++ time_attr "started_at" (StartedAt st) ++ time_attr "finished_at" (FinishedAt st) in
  let event := thresholds_attr restart_parts
    (SetCurrentValue (SetAttrs (buildContainerEvent "docker::restart_detected" name shortID image) (attrs_of attrs)) (itoa n)) in
  let desc := "container " +:+ quoted name +:+ " restarted " +:+ itoa n +:+ " times in last " +:+ window in
  if (0 <? r_CriticalGe rd) && (r_CriticalGe rd <=? n)
  then critical event (desc +:+ ", above critical threshold " +:+ itoa (r_CriticalGe rd) +:+ oom_text st)
  else if (0 <? r_WarnGe rd) && (r_WarnGe rd <=? n)
  then warning event (desc +:+ ", above warning threshold " +:+ itoa (r_WarnGe rd) +:+ oom_text st)
  else SetDescription event desc.

Definition checkRestartDetected (now : Z) (detail : containerInspect) (name shortID image : string) (state : containerRestartState)
  : list Event * containerRestartState :=
  if negb restarts_enabled then ([], state)
  else
    let state := observe (Window (RestartDetected ins)) now (RestartCount detail) state in
    ([restart_event detail name shortID image (restartsInWindow state)], state).

(** *** Health *)
Definition last_output (h : containerHealth) : list (string * string) :=
  match last (Log h) with
  | Some l => [("health_last_output", truncate (TrimSpace (Output l)) 200)]
  | None => []
  end.
Definition checkHealthStatus (detail : containerInspect) (name shortID image : string) : list Event :=
  match Health (i_State detail) with
  | None => []
  | Some health =>
    let unhealthy := bool_decide (h_Status health = "unhealthy") in
    let attrs :=
      [("health_status", h_Status health)]
      ++ (if unhealthy then ("health_failing_streak", itoa (FailingStreak health)) :: last_output health else [])
      ++ [("threshold_desc", "Critical: health ≠ healthy")] in
    let event := SetCurrentValue
      (SetAttrs (buildContainerEvent "docker::health_status" name shortID image) (attrs_of attrs)) (h_Status health) in
    let desc := "container " +:+ quoted name +:+ " health check: " +:+ h_Status health in
    [if unhealthy then critical event (desc +:+ " (failing streak: " +:+ itoa (FailingStreak health) +:+ ")")
     else SetDescription event desc]
  end.

(** *** CPU and memory *)
Definition usage_enabled (u : UsageCheck) : bool := f64_pos (u_WarnGe u) || f64_pos (u_CriticalGe u).
Definition usage_off (u : UsageCheck) : bool := SFleb (u_WarnGe u) f64_zero && SFleb (u_CriticalGe u) f64_zero.
Definition percent0 (f : f64) : string := FormatFixed 0 f +:+ "%".
Definition percent1 (f : f64) : string := FormatFixed 1 f +:+ "%".
Definition usage_parts (u : UsageCheck) : list string :=
  (if f64_pos (u_WarnGe u) then ["Warning ≥ " +:+ percent0 (u_WarnGe u)] else [])
  ++ (if f64_pos (u_CriticalGe u) then ["Critical ≥ " +:+ percent0 (u_CriticalGe u)] else []).

(** The verdict on a percentage; [desc] says what it is a percentage of. *)
Definition usage_verdict (u : UsageCheck) (percent : f64) (desc : string) (event : Event) : Event :=
  let status := EvaluateGeThreshold percent (u_WarnGe u) (u_CriticalGe u) in
  let event := SetEventStatus (thresholds_attr (usage_parts u) event) status in
  SetDescription event
    (if decide (status = EventStatusCritical) then desc +:+ ", above critical threshold " +:+ percent0 (u_CriticalGe u)
     else if decide (status = EventStatusWarning) then desc +:+ ", above warning threshold " +:+ percent0 (u_WarnGe u)
     else desc).

(** CPUs that count; [len] is converted to 32 bits. *)
Definition online_cpus (c : cpuStats) : Z :=
  if OnlineCPUs c =? 0 then zlen (PercpuUsage (CPUUsage c)) mod 2 ^ 32 else OnlineCPUs c.

(** The percentage and the text of the limit; [None] when nothing can be said. *)
Definition cpu_percent (stats : containerStats) (detail : containerInspect) : option (f64 * string) :=
  let cpuDelta := u64 (TotalUsage (CPUUsage (CPUStats stats)) - TotalUsage (CPUUsage (PreCPUStats stats))) in
  let systemDelta := u64 (SystemCPUUsage (CPUStats stats) - SystemCPUUsage (PreCPUStats stats)) in
  let onlineCPUs := online_cpus (CPUStats stats) in
  if (systemDelta =? 0) || (onlineCPUs =? 0) then None
  else
    let cpuCores := f64_mul (f64_div (f64_of_Z cpuDelta) (f64_of_Z systemDelta)) (f64_of_Z onlineCPUs) in
    let allocated := getAllocatedCPUs (HostConfig detail) in
    Some (if f64_pos allocated
          then (f64_mul (f64_div cpuCores allocated) (f64_of_Z 100), FormatFixed 1 allocated +:+ " cores")
          else (f64_mul (f64_div cpuCores (f64_of_Z onlineCPUs)) (f64_of_Z 100), itoa onlineCPUs +:+ " cores (unlimited)")).

Definition throttled_attrs (td : throttlingData) : list (string * string) :=
  if (0 <? ThrottledPeriods td) || (0 <? ThrottledTime td)
  then [("cpu_throttled_periods", itoa (ThrottledPeriods td));
        ("cpu_throttled_time", FormatFixed 1 (f64_div (f64_of_Z (ThrottledTime td)) f64_1e9) +:+ "s")]
  else [].

Definition checkCpuUsage (stats : containerStats) (detail : containerInspect) (name shortID image : string) : list Event :=
  if usage_off (CpuUsage ins) then []
  else
    match cpu_percent stats detail with
    | None => []
    | Some (percent, limit) =>
      let event := SetCurrentValue (SetAttrs (buildContainerEvent "docker::cpu_usage" name shortID image)
        (attrs_of ([("cpu_percent", percent1 percent); ("cpu_limit", limit); ("online_cpus", itoa (online_cpus (CPUStats stats)))]
                   ++ throttled_attrs (ThrottlingData (CPUStats stats))))) (percent1 percent) in
      [usage_verdict (CpuUsage ins) percent
         ("container " +:+ quoted name +:+ " CPU usage " +:+ percent1 percent +:+ " of " +:+ limit) event]
    end.

(** What is used without the file cache. *)
Definition actual_usage (m : memoryStats) : Z :=
  let fileCache := getFileCache m in if fileCache <? Usage m then Usage m - fileCache else 0.
Definition memory_percent (m : memoryStats) : f64 :=
  f64_mul (f64_div (f64_of_Z (actual_usage m)) (f64_of_Z (Limit m))) (f64_of_Z 100).

Definition checkMemoryUsage (stats : containerStats) (name shortID image : string) : list Event :=
  let m := MemoryStats stats in
  if usage_off (MemoryUsage ins) then []
  else if (Limit m =? 0) || (2 ^ 50 <? Limit m) then []
  else
    let percent := memory_percent m in
    let used := humanBytes (actual_usage m) in
    let limit := humanBytes (Limit m) in
    let event := SetCurrentValue (SetAttrs (buildContainerEvent "docker::memory_usage" name shortID image)
      (attrs_of [("memory_percent", percent1 percent); ("memory_used", used); ("memory_limit", limit)])) (percent1 percent) in
    [usage_verdict (MemoryUsage ins) percent
       ("container " +:+ quoted name +:+ " memory usage " +:+ percent1 percent +:+ " (" +:+ used +:+ " / " +:+ limit +:+ ")") event].
End checks.

(** ** The gathering *)
Record dstate (W : Type) := mkD {
  d_world : W; d_events : list Event; apiVersion : string; restartStates : gmap string containerRestartState
}.
Arguments mkD {W} d_world d_events apiVersion restartStates.
Arguments d_world {W} d.
Arguments d_events {W} d.
Arguments apiVersion {W} d.
Arguments restartStates {W} d.

Section gather.
Context {W : Type} `{!DockerHttp W}.
Variable is_print : Z -> bool.
Variable decode_error : string -> stream -> string.
Variable parse_time : string -> option Z.
Variables (zone : Z -> Z) (zone_name : Z -> string).
Variable ins : Instance.

Notation quoted := (Quote is_print).

Definition on_world {A} (m : io W A) : io (dstate W) A := fun s =>
  let '(r, w) := m (d_world s) in (r, mkD w (d_events s) (apiVersion s) (restartStates s)).
Definition push (evs : list Event) : io (dstate W) unit :=
  io_modify (fun s => mkD (d_world s) (d_events s ++ evs) (apiVersion s) (restartStates s)).
Definition set_restarts (f : gmap string containerRestartState -> gmap string containerRestartState) : io (dstate W) unit :=
  io_modify (fun s => mkD (d_world s) (d_events s) (apiVersion s) (f (restartStates s))).
Definition clock : io (dstate W) Z := io_gets (fun s => docker_now (d_world s)).
(** A request with the version negotiated. *)
Definition request {A} (m : endpoint -> io W A) : io (dstate W) A :=
  v ← io_gets apiVersion; on_world (m (mkEndpoint (httpClient ins) (baseURL ins) v)).

Definition negotiate : io (dstate W) unit :=
  v ← io_gets apiVersion;
  when (bool_decide (v = ""))
    (v ← on_world (negotiateAPIVersion (httpClient ins) (baseURL ins));
     io_modify (fun s => mkD (d_world s) (d_events s) v (restartStates s))).

Definition engine_event : Event := buildEvent "docker::container_running" "docker-engine".
Definition not_found_event (name : string) : Event :=
  critical (buildEvent "docker::container_running" name) ("container " +:+ quoted name +:+ " not found").

(** *** One container *)
Section container.
Variable c : containerListEntry.
Notation name := (containerName c).
Notation shortID := (shortContainerID (Id c)).

Definition check_restarts (detail : containerInspect) : io (dstate W) unit :=
  now ← clock;
  states ← io_gets restartStates;
  let '(evs, state) := checkRestartDetected is_print parse_time zone zone_name ins now detail name shortID (Image c)
                         (default zero_restarts (states !! name)) in
  _ ← push evs;
  set_restarts (<[name := state]>).

Definition stats_failed (check err : string) : Event :=
  critical (buildContainerEvent check name shortID (Image c)) ("failed to get container stats for " +:+ quoted name +:+ ": " +:+ err).

Definition check_stats (detail : containerInspect) : io (dstate W) unit :=
  r ← request (fun e => getContainerStats decode_error e (Id c));
  match r with
  | Bad err =>
    _ ← when (usage_enabled (CpuUsage ins)) (push [stats_failed "docker::cpu_usage" err]);
    when (usage_enabled (MemoryUsage ins)) (push [stats_failed "docker::memory_usage" err])
  | Good stats =>
    _ ← push (checkCpuUsage is_print ins stats detail name shortID (Image c));
    push (checkMemoryUsage is_print ins stats name shortID (Image c))
  end.

Definition needStats : bool := usage_enabled (CpuUsage ins) || usage_enabled (MemoryUsage ins).

Definition check_container : io (dstate W) unit :=
  _ ← push [checkContainerRunning is_print c name shortID];
  r ← request (fun e => inspectContainer decode_error e (Id c));
  match r with
  | Bad err =>
    push [critical (buildContainerEvent "docker::container_running" name shortID (Image c))
            ("failed to inspect container " +:+ quoted name +:+ ": " +:+ err)]
  | Good detail =>
    _ ← check_restarts detail;
    when (bool_decide (State c = "running"))
      (_ ← push (checkHealthStatus is_print detail name shortID (Image c));
       when needStats (check_stats detail))
  end.
End container.

(** The goroutine of a container; [what] is the text of a panic. *)
Definition container_goroutine (what : string) (c : containerListEntry) : io (dstate W) unit := fun s =>
  match check_container c s with
  | (Ret _, s) => (Ret tt, s)
  | (Panic, s) => push [critical (buildEvent "docker::panic" (containerName c)) ("panic during check: " +:+ what)] s
  end.

(** *** All containers *)

(** The containers that are checked; the event when there are too many.  [Init]
    makes the limit positive. *)
Definition limit_matched (matched : list containerListEntry) : list Event * list containerListEntry :=
  if MaxContainers ins <? zlen matched
  then ([warning engine_event ("matched " +:+ itoa (zlen matched) +:+ " containers, exceeding max_containers "
           +:+ itoa (MaxContainers ins) +:+ ", only checking first " +:+ itoa (MaxContainers ins))],
        take (Z.to_nat (MaxContainers ins)) matched)
  else ([], matched).

Definition missing_names (checked : list containerListEntry) : gset string :=
  explicitNames ins ∖ list_to_set (map containerName checked).

(** The states of the goroutines are made before they start. *)
Definition prefetch (checked : list containerListEntry) (states : gmap string containerRestartState)
  : gmap string containerRestartState :=
  foldr (fun c m => m ∪ {[containerName c := zero_restarts]}) states checked.
Definition forget_removed (containers : list containerListEntry) (states : gmap string containerRestartState)
  : gmap string containerRestartState :=
  filter (fun p => p.1 ∈ map containerName containers) states.

(** [visit] is the order in which the set of names is looped over, [schedule]
    the order in which the goroutines run; each has its own state, they share
    the queue and the daemon. *)
Variable what : string.
Variable visit : gset string -> list string.
Variable schedule : list containerListEntry -> list containerListEntry.

Definition gather_listed (containers : list containerListEntry) : io (dstate W) unit :=
  _ ← push [SetDescription engine_event
              ("Docker Engine is reachable, " +:+ itoa (zlen containers) +:+ " containers found")];
  let '(evs, checked) := limit_matched (matchTargets ins containers) in
  _ ← push evs;
  _ ← push (map not_found_event (visit (missing_names checked)));
  _ ← set_restarts (prefetch checked);
  _ ← io_each (container_goroutine what) (schedule checked);
  set_restarts (forget_removed containers).

Definition Gather : io (dstate W) unit :=
  if bool_decide (Targets ins = []) then io_ret tt
  else
    _ ← negotiate;
    r ← request (listContainers decode_error);
    match r with
    | Bad err => push [critical engine_event ("failed to list containers: " +:+ err)]
    | Good containers => gather_listed containers
    end.
End gather.
