(* ===== verification/DockerDiagnose.v ===== *)
(** * The diagnosis tools of the Docker plugin (plugins/docker/diagnose.go)

    The client of the tools and the texts the AI gets: the list of all
    containers, the state of one. *)
From S2P Require Import Prelude GoStr GoLib GoConv GoFmt GoIo GoJson JsonDec Types DockerApi Docker.
#[local] Open Scope Z_scope.
#[local] Open Scope go_scope.

Definition diagnoseTimeout : Z := 10 * Second.
Definition defaultAPIVersion : string := "1.25".
Definition maxDiagContainers : Z := 200.

Definition limit_body (n : Z) (r : get_result) : get_result :=
  match r with GotResponse code body => GotResponse code (limited n body) | GetFailed err => GetFailed err end.

(** ** The reference the AI gives *)
Definition refused_rune (r : Z) : bool := (r <? 32) || bool_decide (r ∈ [59; 124; 38; 36; 96]).

Section tools.
Context {W : Type} `{!DockerHttp W}.
Variable is_print : Z -> bool.
Variable decode_error : string -> stream -> string.
Variable windows : bool.

(** [%q] of a rune that is refused. *)
Definition QuoteRune (r : Z) : string := "'" +:+ quote_rune is_print (r, encode_rune r) +:+ "'".

(** [None] when the reference is accepted. *)
Definition validateContainerRef (name : string) : option string :=
  if 128 <? slen name then Some "container name/ID too long (max 128)"
  else if Contains name ".." then Some "container name must not contain '..'"
  else
    match List.find refused_rune (runes name) with
    | Some r => Some ("container name contains invalid character " +:+ QuoteRune r)
    | None => None
    end.

(** ** The client *)
Definition negotiateVersion (c : http_client) (baseURL : string) : io W string :=
  r ← fetch c (baseURL +:+ "/version");
  io_ret (default defaultAPIVersion (version_of (limit_body (2 ^ 20) r))).

Definition newDiagClient (socket : string) : io W (res string endpoint) :=
  let socket :=
    if decide (socket = "") then (if windows then "http://localhost:2375" else "/var/run/docker.sock") else socket in
  if Contains socket ".." then e_err "socket path must not contain '..'"
  else
    let '(client, baseURL) := newDockerHTTPClient socket diagnoseTimeout in
    v ← negotiateVersion client baseURL;
    e_ok (mkEndpoint client baseURL v).

Definition diag_get {T} (zero : T) (elem : jval -> dec T -> dec T) (what type path : string) (dc : endpoint) : io W (res string T) :=
  r ← fetch (ep_httpClient dc) (apiURL dc path);
  io_ret match r with
  | GetFailed err => Bad ("docker API: " +:+ err)
  | GotResponse code body =>
    if negb (code =? 200)
    then Bad ("docker API HTTP " +:+ itoa code +:+ ": " +:+ TrimSpace (delivered (limited 4096 body)))
    else
      let body := limited (4 * 2 ^ 20) body in
      match Decode zero elem body with
      | Some v => Good v
      | None => Bad ("decode " +:+ what +:+ ": " +:+ decode_error type body)
      end
  end.
Definition diag_list : endpoint -> io W (res string (list containerListEntry)) :=
  diag_get [] (dec_slice zero_entry dec_entry) "container list" "[]docker.containerListEntry" list_path.
Definition diag_inspect (dc : endpoint) (id : string) : io W (res string containerInspect) :=
  diag_get zero_inspect dec_inspect "inspect" "docker.containerInspect" (inspect_path id) dc.

(** ** docker_ps *)
Definition ps_line (id state status name : string) : string :=
  pad_right 14 id +:+ "  " +:+ pad_right 10 state +:+ "  " +:+ pad_right 30 status +:+ "  " +:+ name +:+ newline.
Definition ps_text (containers : list containerListEntry) : string :=
  let total := itoa (zlen containers) in
  "Total containers: " +:+ total +:+ newline +:+ newline +:+ ps_line "ID" "STATE" "STATUS" "NAME" +:+
  concat_lines (map (fun c => ps_line (shortContainerID (Id c)) (State c) (Status c) (containerName c))
                  (take (Z.to_nat maxDiagContainers) containers)) +:+
  (if maxDiagContainers <? zlen containers
   then newline +:+ "...[showing " +:+ itoa maxDiagContainers +:+ " of " +:+ total +:+ " containers]" +:+ newline else "").

Definition execDockerPs (args : gmap string string) : io W (res string string) :=
  dc ←? newDiagClient (default "" (args !! "socket"));
  containers ←? diag_list dc;
  if decide (containers = []) then e_ok "No containers found." else e_ok (ps_text containers).

(** ** docker_inspect *)
Definition shown_if (b : bool) (line : string) : string := if b then line +:+ newline else "".
Definition check_output (l : containerHealthLog) : string :=
  let out := TrimSpace (Output l) in
  "    " +:+ (if 200 <? slen out then stake 200 out +:+ "..." else out) +:+ newline.
Definition health_text (h : containerHealth) : string :=
  let recent := drop (length (Log h) - 3) (Log h) in
  newline +:+ "Health:" +:+ newline +:+
  "  Status:        " +:+ h_Status h +:+ newline +:+
  "  FailingStreak: " +:+ itoa (FailingStreak h) +:+ newline +:+
  (if decide (recent = []) then "" else "  Recent checks:" +:+ newline +:+ concat_lines (map check_output recent)).

Definition inspect_text (name : string) (detail : containerInspect) : string :=
  let s := i_State detail in
  "Container:    " +:+ name +:+ newline +:+
  "Status:       " +:+ s_Status s +:+ newline +:+
  "Running:      " +:+ (if Running s then "true" else "false") +:+ newline +:+
  shown_if (Paused s) "Paused:       true" +:+
  shown_if (Restarting s) "Restarting:   true" +:+
  shown_if (OOMKilled s) "OOMKilled:    true" +:+
  shown_if (negb (ExitCode s =? 0)) ("ExitCode:     " +:+ itoa (ExitCode s)) +:+
  shown_if (0 <? RestartCount detail) ("RestartCount: " +:+ itoa (RestartCount detail)) +:+
  shown_if (negb (bool_decide (StartedAt s = ""))) ("StartedAt:    " +:+ StartedAt s) +:+
  shown_if (negb (bool_decide (FinishedAt s = "")) && negb (bool_decide (FinishedAt s = "0001-01-01T00:00:00Z")))
    ("FinishedAt:   " +:+ FinishedAt s) +:+
  (match Health s with Some h => health_text h | None => "" end).

Definition execDockerInspect (args : gmap string string) : io W (res string string) :=
  let name := TrimSpace (default "" (args !! "name")) in
  if decide (name = "") then e_err "name parameter is required"
  else
    match validateContainerRef name with
    | Some err => e_err err
    | None =>
      dc ←? newDiagClient (default "" (args !! "socket"));
      detail ←? diag_inspect dc name;
      e_ok (inspect_text name detail)
    end.
End tools.
