(* ===== verification/DockerProps.v ===== *)
(** * Properties of the Docker check

    Restarts in a window, which containers match, what a gathering reports,
    remembers and asks the daemon. *)
From S2P Require Import Prelude GoStr GoLib GoConv GoFmt GoIo GoJson JsonDec Types Filter Pushing DockerApi Docker DockerDiagnose.
#[local] Open Scope Z_scope.
#[local] Open Scope go_scope.

(** ** Restarts in the window *)

(** Observations are pairs of a time and a count. *)
Definition observe_all (window : Z) (obs : list (Z * Z)) (st : containerRestartState) : containerRestartState :=
  fold_left (fun st o => observe window o.1 o.2 st) obs st.

Definition last_time (obs : list (Z * Z)) : Z := default 0 (fst <$> last obs).
Definition last_count (obs : list (Z * Z)) : Z := default 0 (snd <$> last obs).

(** The increments of a run that starts after a count of [prev]. *)
Fixpoint increments (prev : Z) (run : list (Z * Z)) : list restartRecord :=
  match run with
  | [] => []
  | (t, c) :: run' => (if prev <? c then [mkRestartRecord (c - prev) t] else []) ++ increments c run'
  end.

(** A count that fits [int] and is not negative. *)
Definition is_count (o : Z * Z) : Prop := 0 <= o.2 <= max_i64.

Lemma last_count_snoc obs t c : last_count (obs ++ [(t, c)]) = c.
Proof. unfold last_count. by rewrite last_snoc. Qed.
Lemma last_time_snoc obs t c : last_time (obs ++ [(t, c)]) = t.
Proof. unfold last_time. by rewrite last_snoc. Qed.

Lemma increments_app prev r1 r2 :
  increments prev (r1 ++ r2) = increments prev r1 ++ increments (default prev (snd <$> last r1)) r2.
Proof.
  revert prev. induction r1 as [|[t c] r1 IH]; intros prev; [done|]. cbn [app increments]. rewrite IH, app_assoc.
  f_equal. rewrite last_cons. by destruct (last r1).
Qed.

Lemma increments_times P prev run : (forall o, o ∈ run -> P o.1) -> Forall (fun r => P (timestamp r)) (increments prev run).
Proof.
  revert prev. induction run as [|[t c] run IH]; intros prev H; [constructor|]. cbn. apply Forall_app. split.
  - destruct (prev <? c); [|constructor]. constructor; [|constructor]. apply (H (t, c)). left.
  - apply IH. intros o Ho. apply H. by right.
Qed.

Lemma filter_filter_le (a b : Z) (l : list restartRecord) : a <= b ->
  filter (fun r => b < timestamp r) (filter (fun r => a < timestamp r) l) = filter (fun r => b < timestamp r) l.
Proof.
  intros H. induction l as [|r l IH]; [done|]. destruct (decide (a < timestamp r)).
  - rewrite filter_cons_True by done. destruct (decide (b < timestamp r)).
    + by rewrite !filter_cons_True, IH.
    + by rewrite !filter_cons_False, IH.
  - rewrite !filter_cons_False by lia. done.
Qed.

(** One observation of a count that did not fall. *)
Lemma observe_grows window t c st :
  0 < window -> initialized st = true -> 0 <= lastRestartCount st <= c -> c <= max_i64 ->
  observe window t c st =
    mkRestartState c true (filter (fun r => t - window < timestamp r) (records st ++ increments (lastRestartCount st) [(t, c)])).
Proof.
  intros Hw Hi Hc Hm. unfold observe, count_restarts. rewrite Hi. cbn [negb].
  rewrite i64_id by (unfold in_i64, min_i64, max_i64 in *; lia). rewrite (proj2 (Z.ltb_ge _ _)) by lia.
  cbn [increments]. rewrite app_nil_r. destruct (Z.ltb_spec 0 (c - lastRestartCount st)).
  - by rewrite (proj2 (Z.ltb_lt _ _)) by lia.
  - rewrite (proj2 (Z.ltb_ge _ _)), app_nil_r by lia. unfold expire. rewrite Hi. f_equal. lia.
Qed.

(** One observation after another in the life of a container. *)
Definition later (a b : Z * Z) : Prop := a.1 <= b.1 /\ a.2 <= b.2.

(** A run of counts that do not fall, from the first one on. *)
Lemma observe_run window t0 c0 run :
  0 < window -> StronglySorted later ((t0, c0) :: run) -> Forall is_count ((t0, c0) :: run) ->
  observe_all window run (mkRestartState c0 true []) =
    mkRestartState (last_count ((t0, c0) :: run)) true
      (filter (fun r => last_time ((t0, c0) :: run) - window < timestamp r) (increments c0 run)).
Proof.
  intros Hw. induction run as [|[t c] run IH] using rev_ind; intros Hs Hb; [done|].
  rewrite app_comm_cons in Hs, Hb |- *. rewrite last_count_snoc, last_time_snoc.
  apply Forall_app in Hb as [Hb Hc]. apply Forall_inv in Hc.
  pose proof (StronglySorted_app_1_l _ _ _ Hs) as Hs1.
  assert (exists t1 c1, last ((t0, c0) :: run) = Some (t1, c1)) as (t1 & c1 & El).
  { destruct (last ((t0, c0) :: run)) as [[t1 c1]|] eqn:E; [eauto|by apply last_None in E]. }
  assert (later (t1, c1) (t, c)) as [Ht Hc1].
  { eapply (StronglySorted_app_1_elem_of later); [exact Hs| |set_solver]. by apply last_Some_elem_of. }
  assert (is_count (t1, c1)) as Hb1 by (eapply Forall_forall; [exact Hb|]; by apply last_Some_elem_of).
  unfold observe_all. rewrite fold_left_app. fold (observe_all window run (mkRestartState c0 true [])).
  assert (last_count ((t0, c0) :: run) = c1 /\ last_time ((t0, c0) :: run) = t1) as [El1 El2]
    by (unfold last_count, last_time; by rewrite El).
  rewrite IH, El1, El2 by done. unfold is_count in *. cbn [fold_left fst snd] in *.
  rewrite observe_grows by (done || (cbn [lastRestartCount]; lia)). cbn [records lastRestartCount].
  assert (default c0 (snd <$> last run) = c1) as Ed by (rewrite last_cons in El; destruct (last run) as [[]|]; by simplify_eq/=).
  rewrite increments_app, Ed. f_equal. rewrite !filter_app. by rewrite filter_filter_le by lia.
Qed.

(** The sum of the increments of a run. *)
Definition total (l : list restartRecord) : Z := foldr (fun r n => count r + n) 0 l.

Lemma total_nonneg l : Forall (fun r => 0 <= count r) l -> 0 <= total l.
Proof. unfold total. induction 1; cbn; lia. Qed.

Lemma restarts_total l n : Forall (fun r => 0 <= count r) l -> 0 <= n -> n + total l <= max_i64 ->
  fold_left (fun n r => n ⊞ count r) l n = n + total l.
Proof.
  intros Hl. revert n. induction Hl as [|r l Hr Hl IH]; intros n Hn Hm; cbn in *; [lia|].
  pose proof (total_nonneg _ Hl) as Ht. unfold total in *.
  rewrite i64_id by (unfold in_i64, min_i64, max_i64 in *; lia). rewrite IH by lia. lia.
Qed.

Lemma increments_pos prev run : Forall (fun r => 0 <= count r) (increments prev run).
Proof.
  revert prev. induction run as [|[t c] run IH]; intros prev; [constructor|]. cbn. apply Forall_app. split; [|apply IH].
  destruct (Z.ltb_spec prev c); [|constructor]. constructor; [cbn; lia|constructor].
Qed.

Lemma increments_total t0 c0 run : StronglySorted later ((t0, c0) :: run) ->
  total (increments c0 run) = last_count ((t0, c0) :: run) - c0.
Proof.
  revert t0 c0. induction run as [|[t c] run IH]; intros t0 c0 Hs; [unfold last_count; cbn; lia|].
  apply StronglySorted_inv in Hs as [Hs Hl]. apply Forall_inv in Hl as [_ Hl]. cbn [fst snd] in Hl.
  assert (last_count ((t0, c0) :: (t, c) :: run) = last_count ((t, c) :: run)) as -> by done.
  specialize (IH t c Hs). cbn [increments]. destruct (Z.ltb_spec c0 c); cbn [app total foldr count]; unfold total in IH; lia.
Qed.

Lemma last_count_is obs : Forall is_count obs -> is_count (0, last_count obs).
Proof.
  intros Hb. unfold last_count. destruct (last obs) as [o|] eqn:E; [|done].
  eapply Forall_forall in Hb; [|by apply last_Some_elem_of]. done.
Qed.

(** What is remembered is the last count, whatever came before. *)
Lemma observe_all_last window obs : Forall is_count obs -> obs <> [] ->
  lastRestartCount (observe_all window obs zero_restarts) = last_count obs /\
  initialized (observe_all window obs zero_restarts) = true.
Proof.
  intros Hb. induction obs as [|[t c] obs IH] using rev_ind; [done|]. intros _.
  apply Forall_app in Hb as [Hb Hc]. apply Forall_inv in Hc. unfold observe_all. rewrite fold_left_app. cbn [fold_left fst snd].
  fold (observe_all window obs zero_restarts). rewrite last_count_snoc. unfold observe, expire, count_restarts.
  destruct (decide (obs = [])) as [->|Hne]; [done|]. destruct (IH Hb Hne) as [El Ei]. rewrite El, Ei. cbn [negb].
  pose proof (last_count_is obs Hb) as Hl.
  unfold is_count in *. cbn [snd] in *. rewrite i64_id by (unfold in_i64, min_i64, max_i64 in *; lia).
  destruct (Z.ltb_spec (c - last_count obs) 0); [done|]. destruct (Z.ltb_spec 0 (c - last_count obs)); [done|].
  cbn. split; [lia|done].
Qed.

(** The first observation of a container starts over. *)
Lemma observe_first window before t0 c0 : Forall is_count (before ++ [(t0, c0)]) ->
  before = [] \/ c0 < last_count before ->
  observe_all window (before ++ [(t0, c0)]) zero_restarts = mkRestartState c0 true [].
Proof.
  intros Hb Hnew. unfold observe_all. rewrite fold_left_app. cbn [fold_left fst snd].
  fold (observe_all window before zero_restarts). unfold observe, count_restarts.
  destruct Hnew as [->|Hlt]; [done|]. destruct (decide (before = [])) as [->|Hne]; [done|].
  apply Forall_app in Hb as [Hb Hc]. apply Forall_inv in Hc.
  destruct (observe_all_last window before Hb Hne) as [El Ei]. rewrite El, Ei. cbn [negb].
  pose proof (last_count_is before Hb) as [_ Hl]. destruct Hc as [Hc1 Hc2]. cbn [snd] in *. rewrite i64_id by (unfold in_i64, min_i64, max_i64 in *; lia).
  by rewrite (proj2 (Z.ltb_lt _ _)) by lia.
Qed.

Lemma last_exists {A} (x : A) l : exists y, last (x :: l) = Some y.
Proof. destruct (last (x :: l)) eqn:E; [eauto|by apply last_None in E]. Qed.

(** Observations up to the cutoff leave no increment in the window. *)
Lemma old_increments_expire t0 c0 old cutoff : StronglySorted later ((t0, c0) :: old) ->
  last_time ((t0, c0) :: old) <= cutoff \/ old = [] ->
  filter (fun r => cutoff < timestamp r) (increments c0 old) = [].
Proof.
  intros Hs [Hl| ->]; [|done]. apply filter_none, (increments_times (fun t => ~ cutoff < t)). intros [t c] Ho. cbn.
  destruct (last_exists (t0, c0) old) as [[t1 c1] El]. unfold last_time in Hl. rewrite El in Hl. cbn in Hl.
  enough (t <= t1) by lia.
  assert ((t0, c0) :: old = removelast ((t0, c0) :: old) ++ [(t1, c1)]) as E.
  { rewrite (app_removelast_last (0, 0)) at 1 by done. f_equal. f_equal. apply last_Some in El as [l' El]. rewrite El. by rewrite List.last_last. }
  assert ((t, c) ∈ removelast ((t0, c0) :: old) ++ [(t1, c1)]) as Hin by (rewrite <- E; by right).
  rewrite E in Hs. apply elem_of_app in Hin as [Hin|Hin].
  - by destruct (StronglySorted_app_1_elem_of later _ _ _ _ Hs Hin (list_elem_of_here _ _)).
  - apply list_elem_of_singleton in Hin. injection Hin as -> ->. done.
Qed.

(** C32: The restarts counted in the window are the restart count now less the count at the last
    observation before the window, or at the first one of this container when the window holds
    them all; a count that falls starts over. *)
Theorem docker_restarts_in_window window before old recent
    (Hw : 0 < window) (Hb : Forall is_count (before ++ old ++ recent)) (Hs : StronglySorted later (old ++ recent))
    (Hnew : before = [] \/ default 0 (snd <$> head old) < last_count before)
    (Hold : last_time old <= last_time (old ++ recent) - window \/ length old = 1%nat) (Hne : old <> [])
    (Hrecent : Forall (fun o => last_time (old ++ recent) - window < o.1) recent) :
  restartsInWindow (observe_all window (before ++ old ++ recent) zero_restarts)
  = last_count (old ++ recent) - last_count old.
Proof.
  destruct old as [|[t0 c0] old]; [done|]. cbn [head fmap option_fmap option_map default from_option snd] in Hnew.
  destruct (last_exists (t0, c0) old) as [[t1 c1] El].
  assert (last_count ((t0, c0) :: old) = c1) as El1 by (unfold last_count; by rewrite El).
  set (cutoff := last_time (((t0, c0) :: old) ++ recent) - window) in *.
  apply StronglySorted_app in Hs as Hs'. destruct Hs' as (Hbetween & Hso & Hsr).
  assert (last_count ((t1, c1) :: recent) = last_count (((t0, c0) :: old) ++ recent)) as Elc.
  { unfold last_count. rewrite last_app, last_cons, El. by destruct (last recent). }
  assert (StronglySorted later ((t1, c1) :: recent)) as Hs1.
  { constructor; [done|]. apply Forall_forall. intros o Ho. apply Hbetween; [by apply last_Some_elem_of|done]. }
  change (before ++ ((t0, c0) :: old) ++ recent) with (before ++ [(t0, c0)] ++ (old ++ recent)) in *.
  rewrite app_assoc in Hb |- *. apply Forall_app in Hb as [Hb0 Hb1].
  unfold observe_all. rewrite fold_left_app. fold (observe_all window (before ++ [(t0, c0)]) zero_restarts).
  rewrite observe_first by done. fold (observe_all window (old ++ recent) (mkRestartState c0 true [])).
  apply Forall_app in Hb0 as [_ Hb0]. apply Forall_inv in Hb0.
  rewrite (observe_run window t0) by (done || by constructor). unfold restartsInWindow. cbn [records].
  change ((t0, c0) :: old ++ recent) with (((t0, c0) :: old) ++ recent). fold cutoff.
  assert (default c0 (snd <$> last old) = c1) as Ed by (rewrite last_cons in El; destruct (last old) as [[]|]; by simplify_eq/=).
  rewrite increments_app, Ed, filter_app, (old_increments_expire t0) by (done || (destruct Hold as [?|Hone]; [by left|right; by destruct old])).
  rewrite filter_all by (apply (increments_times (fun t => cutoff < t)); by apply Forall_forall). cbn [app].
  pose proof (increments_total t1 c1 recent Hs1) as Htot. rewrite El1. rewrite restarts_total, Htot, Elc; [cbn [app]; lia|apply increments_pos|lia|].
  assert (Forall is_count (((t0, c0) :: old) ++ recent)) as Hall by by constructor.
  pose proof (last_count_is _ Hall) as Hc2. pose proof (last_count_is _ (proj1 (proj1 (Forall_app _ _ _) Hall))) as Hc1.
  rewrite El1 in Hc1. rewrite Htot, Elc. unfold is_count in *. cbn [snd] in *. lia.
Qed.

(** ** Which containers match *)

Definition names (l : list containerListEntry) : list string := map containerName l.

Lemma match_loop_spec ins seen l c : c ∈ match_loop ins seen l <->
  exists l1 l2, l = l1 ++ c :: l2 /\ wanted ins c = true /\ containerName c ∉ seen /\
    forall c', c' ∈ l1 -> wanted ins c' = true -> containerName c' <> containerName c.
Proof.
  revert seen. induction l as [|x l IH]; intros seen; cbn [match_loop].
  { split; [by intros ?%not_elem_of_nil|]. by intros ([|] & ? & ? & _). }
  assert (forall P, (exists l1 l2, x :: l = l1 ++ c :: l2 /\ P l1) <-> (c = x /\ P []) \/ exists l1 l2, l = l1 ++ c :: l2 /\ P (x :: l1)) as Hsplit.
  { intros P. split.
    - intros ([|y l1] & l2 & [= -> ->] & HP); [by left|]. right. eauto.
    - intros [[-> HP]|(l1 & l2 & -> & HP)]; [by exists [], l|by exists (x :: l1), l2]. }
  rewrite Hsplit. clear Hsplit.
  destruct (wanted ins x) eqn:Ew; [case_bool_decide as Hx|]; cbn [andb negb].
  - rewrite IH. split.
    + intros (l1 & l2 & -> & Hc & Hn & Hl). right. exists l1, l2. split; [done|]. split; [done|]. split; [done|].
      intros c' [->|Hc']%elem_of_cons Hw; [congruence|by apply Hl].
    + intros [(-> & _ & Hn & _)|(l1 & l2 & -> & Hc & Hn & Hl)]; [done|]. exists l1, l2. split_and!; try done.
      intros c' Hc'. apply Hl. by right.
  - rewrite elem_of_cons, IH. split.
    + intros [->|(l1 & l2 & -> & Hc & Hn & Hl)].
      * left. split; [done|]. split; [done|]. split; [done|]. by intros c' ?%not_elem_of_nil.
      * right. exists l1, l2. split; [done|]. split; [done|]. split; [set_solver|].
        intros c' [->|Hc']%elem_of_cons Hw; [set_solver|by apply Hl].
    + intros [[-> _]|(l1 & l2 & -> & Hc & Hn & Hl)]; [by left|]. right. exists l1, l2. split; [done|]. split; [done|]. split.
      * assert (containerName x <> containerName c) by (apply Hl; [left|done]). set_solver.
      * intros c' Hc'. apply Hl. by right.
  - rewrite IH. split.
    + intros (l1 & l2 & -> & Hc & Hn & Hl). right. exists l1, l2. split; [done|]. split; [done|]. split; [done|].
      intros c' [->|Hc']%elem_of_cons Hw; [congruence|by apply Hl].
    + intros [(-> & Hc & _)|(l1 & l2 & -> & Hc & Hn & Hl)]; [congruence|]. exists l1, l2. split_and!; try done.
      intros c' Hc'. apply Hl. by right.
Qed.

Lemma match_loop_sublist ins seen l : match_loop ins seen l `sublist_of` l.
Proof.
  revert seen. induction l as [|x l IH]; intros seen; cbn [match_loop]; [done|].
  destruct (_ && _); [by apply sublist_skip|by apply sublist_cons].
Qed.

Lemma match_loop_NoDup ins seen l : NoDup (names (match_loop ins seen l)).
Proof.
  revert seen. induction l as [|x l IH]; intros seen; cbn [match_loop]; [constructor|].
  destruct (_ && _); [|apply IH]. cbn. constructor; [|apply IH].
  intros (c & En & Hc%match_loop_spec)%list_elem_of_fmap. destruct Hc as (l1 & l2 & _ & _ & Hn & _). set_solver.
Qed.

(** The containers that are checked are, of each name, the first one that is wanted. *)
Theorem docker_matchTargets_first ins l :
  matchTargets ins l `sublist_of` l /\ NoDup (names (matchTargets ins l)) /\
  forall c, c ∈ matchTargets ins l <-> exists l1 l2, l = l1 ++ c :: l2 /\ wanted ins c = true /\
    forall c', c' ∈ l1 -> wanted ins c' = true -> containerName c' <> containerName c.
Proof.
  split; [apply match_loop_sublist|]. split; [apply match_loop_NoDup|]. intros c. unfold matchTargets. rewrite match_loop_spec.
  split; intros (l1 & l2 & H); exists l1, l2; [naive_solver|]. split_and!; [naive_solver|naive_solver|set_solver|naive_solver].
Qed.

(** After [Init] a container is wanted when a target is its name, or when it is
    active and a pattern matches its name. *)
Theorem docker_wanted is_print glob_Compile regexp_Compile windows ins0 ins version c
    (Hglob : glob_documented glob_Compile) (Hsafe : Forall brace_safe (filter (fun t => HasMeta t = true) (Targets ins0)))
    (Hi : Init is_print glob_Compile regexp_Compile windows ins0 = Good (ins, version)) :
  wanted ins c = true <->
  (containerName c ∈ Targets ins0 /\ HasMeta (containerName c) = false) \/
  (isActiveState (State c) = true /\
   exists p, p ∈ Targets ins0 /\ HasMeta p = true /\ pattern_matches glob_Compile regexp_Compile p (containerName c) = true).
Proof.
  revert Hi. unfold Init. cbv zeta. destruct (_ <? Minute); [done|]. destruct (_ && _ && _); [done|].
  destruct (usage_conflict (CpuUsage ins0)); [done|]. destruct (usage_conflict (MemoryUsage ins0)); [done|].
  destruct (Compile is_print glob_Compile regexp_Compile (filter (fun t => HasMeta t = true) (Targets ins0))) as [gf|] eqn:Ec; [|done].
  destruct (newDockerHTTPClient _ _) as [client base]. intros [= <- <-]. unfold wanted. cbn [explicitNames glob_filter].
  case_bool_decide as Hx; rewrite elem_of_list_to_set, list_elem_of_filter in Hx; [tauto|].
  assert (match gf with Some f => Match f (containerName c) | None => false end = true <->
          exists p, p ∈ Targets ins0 /\ HasMeta p = true /\ pattern_matches glob_Compile regexp_Compile p (containerName c) = true) as Hm.
  { transitivity (existsb (fun p => pattern_matches glob_Compile regexp_Compile p (containerName c))
                    (filter (fun t => HasMeta t = true) (Targets ins0)) = true).
    - destruct gf as [f|]; [by rewrite (Compile_matches_any is_print glob_Compile regexp_Compile _ f _ Hglob Hsafe Ec)|].
      by rewrite (Compile_nil _ _ _ _ Ec).
    - rewrite existsb_exists. setoid_rewrite <- list_elem_of_In. setoid_rewrite list_elem_of_filter. naive_solver. }
  destruct gf as [f|]; [rewrite andb_true_iff|]; naive_solver.
Qed.

(** ** What a gathering reports *)

(** A check and the container (or the engine) it is about. *)
Definition key : Type := string * string.
Definition is_event (k : key) (e : Event) : Prop := event_of k.2 k.1 e.

Definition running_key (name : string) : key := ("docker::container_running", name).
Definition engine_key : key := running_key "docker-engine".
Definition opt (b : bool) (k : key) : list key := if b then [k] else [].

#[export] Instance dstate_pushing {W} : Pushing (dstate W) := d_events.

Lemma builds_event check name shortID image : is_event (check, name) (buildContainerEvent check name shortID image).
Proof. done. Qed.

Lemma usage_verdict_is k u p d e : is_event k e -> is_event k (usage_verdict u p d e).
Proof. unfold usage_verdict, thresholds_attr. cbv zeta. by destruct (decide (usage_parts u = [])). Qed.

Section reports.
Context {W : Type} `{!DockerHttp W}.
Variable is_print : Z -> bool.
Variable decode_error : string -> stream -> string.
Variable parse_time : string -> option Z.
Variables (zone : Z -> Z) (zone_name : Z -> string).
Variable ins : Instance.
Notation reports := (reports (S := dstate W) is_event).
Notation silent := (silent (S := dstate W)).

Lemma docker_reports_push keys evs : Forall2 is_event keys evs -> reports (eq keys) (push evs).
Proof. intros He. by eapply (reports_adds _ _ keys evs). Qed.
Lemma docker_reports_one k e : is_event k e -> reports (eq [k]) (push [e]).
Proof. intros He. apply docker_reports_push. by constructor. Qed.

Lemma docker_reports_none : reports (eq []) (push []).
Proof. by apply docker_reports_push. Qed.

Lemma docker_silent_world {A} (m : io W A) : silent (on_world m).
Proof. intros g a g'. unfold on_world. destruct (m (d_world g)) as [r w]. by intros [= -> <-]. Qed.
Lemma docker_silent_request {A} (m : endpoint -> io W A) : silent (request ins m).
Proof. apply silent_bind; [apply silent_gets|]. intros v. apply docker_silent_world. Qed.
Lemma docker_silent_restarts f : silent (set_restarts f).
Proof. by intros s a s' [= <- <-]. Qed.
#[local] Hint Resolve docker_silent_world docker_silent_request docker_silent_restarts : reports.

(** ** One container *)
Section container.
Variable c : containerListEntry.
Notation name := (containerName c).

Lemma docker_check_restarts_reports detail :
  reports (eq (opt (restarts_enabled ins) ("docker::restart_detected", name)))
    (check_restarts is_print parse_time zone zone_name ins c detail).
Proof.
  apply reports_silent; [apply silent_gets|]. intros now. apply reports_silent; [apply silent_gets|]. intros states.
  unfold checkRestartDetected. destruct (restarts_enabled ins); cbn [negb].
  - eapply (reports_bind _ (eq [_]) (eq [])); [apply docker_reports_one| |by intros ? ? <- <-].
    + unfold restart_event, thresholds_attr. cbv zeta. by repeat case_match.
    + intros _. eapply reports_weaken; [eapply (reports_adds _ _ [] [])|done]; [|constructor|done]. intros s. by rewrite app_nil_r.
  - eapply (reports_bind _ (eq []) (eq [])); [by apply docker_reports_push| |by intros ? ? <- <-].
    intros _. eapply (reports_adds _ _ [] []); [|constructor|done]. intros s. by rewrite app_nil_r.
Qed.

(** Numbers that the checks can say something about. *)
Definition cpu_known (stats : containerStats) : bool :=
  negb (u64 (SystemCPUUsage (CPUStats stats) - SystemCPUUsage (PreCPUStats stats)) =? 0) && negb (online_cpus (CPUStats stats) =? 0).
Definition memory_known (stats : containerStats) : bool :=
  negb (Limit (MemoryStats stats) =? 0) && (Limit (MemoryStats stats) <=? 2 ^ 50).

(** What the numbers of a container give, by what the daemon answered. *)
Definition stats_keys (r : go (res string containerStats)) : list key :=
  match r with
  | Ret (Good stats) =>
    opt (negb (usage_off (CpuUsage ins)) && cpu_known stats) ("docker::cpu_usage", name)
    ++ opt (negb (usage_off (MemoryUsage ins)) && memory_known stats) ("docker::memory_usage", name)
  | _ => opt (usage_enabled (CpuUsage ins)) ("docker::cpu_usage", name)
         ++ opt (usage_enabled (MemoryUsage ins)) ("docker::memory_usage", name)
  end.

(** The keys of a container whose goroutine starts on a state: whether it runs;
    then that it cannot be inspected or, when it can, its restarts if they are
    checked and, if it runs, its health if it has a health check and the usages
    that are configured. *)
Definition container_keys (s : dstate W) : list key :=
  let '(inspected, s1) := request ins (fun e => inspectContainer decode_error e (Id c)) s in
  let numbers := (request ins (fun e => getContainerStats decode_error e (Id c)) s1).1 in
  running_key name ::
  match inspected with
  | Ret (Good detail) =>
    opt (restarts_enabled ins) ("docker::restart_detected", name)
    ++ (if bool_decide (State c = "running") then
          opt (bool_decide (Health (i_State detail) <> None)) ("docker::health_status", name)
          ++ (if usage_enabled (CpuUsage ins) || usage_enabled (MemoryUsage ins) then stats_keys numbers else [])
        else [])
  | _ => [running_key name]
  end.

(** A request depends on the world and the version only. *)
Lemma request_same {A} (m : endpoint -> io W A) s1 s2 : d_world s1 = d_world s2 -> apiVersion s1 = apiVersion s2 ->
  (request ins m s1).1 = (request ins m s2).1 /\ d_world (request ins m s1).2 = d_world (request ins m s2).2
  /\ apiVersion (request ins m s1).2 = apiVersion (request ins m s2).2.
Proof.
  intros Hw Hv. unfold request, io_gets, on_world, mbind, io_mbind, io_bind. rewrite Hw, Hv.
  by destruct (m _ (d_world s2)) as [[a|] w].
Qed.

Lemma container_keys_same s1 s2 : d_world s1 = d_world s2 -> apiVersion s1 = apiVersion s2 -> container_keys s1 = container_keys s2.
Proof.
  intros Hw Hv. unfold container_keys.
  destruct (request_same (fun e => inspectContainer decode_error e (Id c)) s1 s2 Hw Hv) as (E & Hw' & Hv').
  destruct (request ins _ s1) as [r1 s1'], (request ins _ s2) as [r2 s2']. cbn [fst snd] in *. subst r2.
  by rewrite (proj1 (request_same _ s1' s2' Hw' Hv')).
Qed.

Lemma docker_check_stats_reports detail g g' : check_stats is_print decode_error ins c detail g = (Ret tt, g') ->
  exists evs, d_events g' = d_events g ++ evs /\
    Forall2 is_event (stats_keys (request ins (fun e => getContainerStats decode_error e (Id c)) g).1) evs.
Proof.
  unfold check_stats. intros H. apply io_bind_inv in H as (r & g1 & Hr & H). rewrite Hr. cbn [fst].
  pose proof (docker_silent_request _ _ _ _ Hr) as Hg. unfold pushed, dstate_pushing in Hg. rewrite <- Hg.
  assert (forall l (m : io (dstate W) unit), reports (eq l) m -> m g1 = (Ret tt, g') ->
    exists evs, d_events g' = d_events g1 ++ evs /\ Forall2 is_event l evs) as Hl.
  { intros l m Hm E. destruct (Hm _ _ _ E) as (? & evs & ? & ? & <-). by exists evs. }
  revert H. destruct r as [stats|err]; apply Hl; clear Hl; unfold stats_keys.
  - apply reports_seq.
    + unfold checkCpuUsage, cpu_percent, cpu_known. destruct (usage_off (CpuUsage ins)); [apply docker_reports_none|]. cbv zeta. cbn [negb andb].
      destruct (u64 (SystemCPUUsage _ - _) =? 0); [apply docker_reports_none|]. destruct (online_cpus _ =? 0); [apply docker_reports_none|].
      cbn [orb negb andb]. case_match; by apply (docker_reports_one ("docker::cpu_usage", name)), usage_verdict_is.
    + unfold checkMemoryUsage, memory_known. destruct (usage_off (MemoryUsage ins)); [apply docker_reports_none|]. cbv zeta. cbn [negb andb].
      rewrite Z.leb_antisym. destruct (Limit _ =? 0); [apply docker_reports_none|]. destruct (2 ^ 50 <? _); [apply docker_reports_none|].
      cbn [orb negb andb]. by apply (docker_reports_one ("docker::memory_usage", name)), usage_verdict_is.
  - apply reports_seq; apply reports_when; intros _;
      [by apply (docker_reports_one ("docker::cpu_usage", name))|by apply (docker_reports_one ("docker::memory_usage", name))].
Qed.

Lemma docker_health_reports detail :
  reports (eq (opt (bool_decide (Health (i_State detail) <> None)) ("docker::health_status", name)))
    (push (checkHealthStatus is_print detail name (shortContainerID (Id c)) (Image c))).
Proof.
  unfold checkHealthStatus. destruct (Health (i_State detail)) as [h|]; [|apply docker_reports_none].
  rewrite bool_decide_eq_true_2 by done. apply (docker_reports_one ("docker::health_status", name)). cbv zeta. by case_bool_decide.
Qed.

Lemma check_restarts_stays detail g g' : check_restarts is_print parse_time zone zone_name ins c detail g = (Ret tt, g') ->
  d_world g' = d_world g /\ apiVersion g' = apiVersion g.
Proof.
  unfold check_restarts. intros H. apply io_bind_inv in H as (now & ? & [= <- <-] & H). apply io_bind_inv in H as (st & ? & [= <- <-] & H).
  destruct (checkRestartDetected _ _ _ _ _ _ _ _ _ _ _) as [evs st']. apply io_bind_inv in H as ([] & ? & [= <-] & [= <-]). done.
Qed.

Lemma check_container_reports g g' : check_container is_print decode_error parse_time zone zone_name ins c g = (Ret tt, g') ->
  exists evs, d_events g' = d_events g ++ evs /\ Forall2 is_event (container_keys g) evs.
Proof.
  unfold check_container. intros H. apply io_bind_inv in H as ([] & g0 & [= <-] & H). apply io_bind_inv in H as (r & g1 & Hr & H).
  pose proof (docker_silent_request _ _ _ _ Hr) as Hg. unfold pushed, dstate_pushing in Hg. cbn [d_events] in Hg.
  destruct (request_same (fun e => inspectContainer decode_error e (Id c)) g
    (mkD (d_world g) (d_events g ++ [checkContainerRunning is_print c name (shortContainerID (Id c))]) (apiVersion g) (restartStates g)))
    as (E & Ew & Ev); [done..|]. rewrite Hr in E, Ew, Ev. cbn [fst snd] in E, Ew, Ev.
  unfold container_keys. destruct (request ins _ g) as [inspected s1]. cbn [fst snd] in E, Ew, Ev. subst inspected.
  assert (is_event (running_key name) (checkContainerRunning is_print c name (shortContainerID (Id c)))) as Hrun
    by (unfold checkContainerRunning; cbv zeta; by repeat case_decide).
  assert (forall more, (exists evs, d_events g' = d_events g1 ++ evs /\ Forall2 is_event more evs) ->
    exists evs, d_events g' = d_events g ++ evs /\ Forall2 is_event (running_key name :: more) evs) as Hmore.
  { intros more (evs & He & Hm). eexists. split; [by rewrite He, Hg, <- app_assoc|]. by constructor. }
  apply Hmore. clear Hmore Hrun Hg Hr. destruct r as [detail|err]; cycle 1.
  { injection H as <-. eexists. split; [reflexivity|]. by repeat constructor. }
  apply io_bind_inv in H as ([] & g2 & Hc & H). destruct (check_restarts_stays _ _ _ Hc) as [Hw Hv].
  destruct (docker_check_restarts_reports detail _ _ _ Hc) as (? & evs1 & He1 & Hk1 & <-). unfold pushed, dstate_pushing in He1.
  assert (forall more, (exists evs, d_events g' = d_events g2 ++ evs /\ Forall2 is_event more evs) ->
    exists evs, d_events g' = d_events g1 ++ evs /\
      Forall2 is_event (opt (restarts_enabled ins) ("docker::restart_detected", name) ++ more) evs) as Hmore.
  { intros more (evs & He & Hm). exists (evs1 ++ evs). rewrite He, He1, <- app_assoc. split; [done|by apply Forall2_app]. }
  apply Hmore. clear Hmore Hk1 He1 Hc evs1. destruct (bool_decide (State c = "running")); cbn [when] in H; cycle 1.
  { injection H as <-. exists []. by rewrite app_nil_r. }
  apply io_bind_inv in H as ([] & g3 & Hh & H). destruct (docker_health_reports detail _ _ _ Hh) as (? & evs2 & He2 & Hk2 & <-).
  unfold pushed, dstate_pushing in He2. injection Hh as Hh. change (needStats ins) with (usage_enabled (CpuUsage ins) || usage_enabled (MemoryUsage ins)) in H.
  destruct (_ || _); cbn [when] in H; [|injection H as <-; exists evs2; by rewrite app_nil_r].
  destruct (docker_check_stats_reports _ _ _ H) as (evs3 & He3 & Hk3). exists (evs2 ++ evs3).
  rewrite He3, He2, <- app_assoc. split; [done|]. apply Forall2_app; [done|].
  rewrite (proj1 (request_same _ s1 g3 ltac:(subst g3; cbn; congruence) ltac:(subst g3; cbn; congruence))). exact Hk3.
Qed.

Lemma returns_world {A} (m : io W A) : returns m -> returns (on_world m).
Proof. intros Hm s. destruct (Hm (d_world s)) as (a & w & E). unfold on_world. rewrite E. eauto. Qed.
Lemma returns_request {A} (m : endpoint -> io W A) : (forall e, returns (m e)) -> returns (request ins m).
Proof. intros Hm. apply returns_bind; [apply returns_gets|]. intros v. by apply returns_world. Qed.
Lemma returns_get_json {T} (zero : T) elem k ty path e : returns (get_json decode_error zero elem k ty path e).
Proof. apply returns_bind; [apply returns_lift|]. intros r. apply returns_ret. Qed.
#[local] Hint Resolve returns_world returns_request returns_get_json : returns.

Lemma check_container_returns : returns (check_container is_print decode_error parse_time zone zone_name ins c).
Proof.
  apply returns_bind; [apply returns_modify|]. intros _.
  apply returns_bind; [apply returns_request; intros e; apply returns_get_json|]. intros [detail|err]; [|apply returns_modify].
  apply returns_bind.
  { apply returns_bind; [apply returns_gets|]. intros now. apply returns_bind; [apply returns_gets|]. intros states.
    destruct (checkRestartDetected _ _ _ _ _ _ _ _ _ _ _) as [evs st]. apply returns_bind; [apply returns_modify|].
    intros _. apply returns_modify. }
  intros _. apply returns_when, returns_bind; [apply returns_modify|]. intros _. apply returns_when.
  apply returns_bind; [apply returns_request; intros e; apply returns_get_json|].
  intros [stats|err]; (apply returns_bind; [|intros _]); try apply returns_when; apply returns_modify.
Qed.

(** No check of a container panics: the recovery of its goroutine is never used. *)
Lemma container_goroutine_runs what s s' :
  container_goroutine is_print decode_error parse_time zone zone_name ins what c s = (Ret tt, s') <->
  check_container is_print decode_error parse_time zone zone_name ins c s = (Ret tt, s').
Proof.
  unfold container_goroutine. destruct (check_container_returns s) as ([] & s1 & E). by rewrite E.
Qed.
End container.

Lemma container_goroutine_returns what c :
  returns (container_goroutine is_print decode_error parse_time zone zone_name ins what c).
Proof.
  intros s. destruct (check_container_returns c s) as ([] & s' & E). exists tt, s'. by apply container_goroutine_runs.
Qed.
(** The keys of the containers, each on the state that the one before left. *)
Fixpoint each_keys (what : string) (l : list containerListEntry) (s : dstate W) : list (list key) :=
  match l with
  | [] => []
  | c :: l' =>
    container_keys c s :: each_keys what l' (container_goroutine is_print decode_error parse_time zone zone_name ins what c s).2
  end.

Lemma each_container_reports what l : forall s r s',
  io_each (container_goroutine is_print decode_error parse_time zone zone_name ins what) l s = (Ret r, s') ->
  exists evs, d_events s' = d_events s ++ evs /\ Forall2 is_event (concat (each_keys what l s)) evs.
Proof.
  induction l as [|c l IH]; intros s r s' H; [injection H as _ <-; exists []; by rewrite app_nil_r|].
  cbn [io_each] in H. apply io_bind_inv in H as ([] & s1 & Hc & H). apply io_bind_inv in H as (r' & s2 & Hl & [= _ <-]).
  cbn [each_keys concat]. rewrite Hc. cbn [snd]. apply container_goroutine_runs in Hc.
  destruct (check_container_reports _ _ _ Hc) as (e1 & He1 & Hk1). destruct (IH _ _ _ Hl) as (e2 & He2 & Hk2).
  exists (e1 ++ e2). rewrite He2, He1, <- app_assoc. split; [done|by apply Forall2_app].
Qed.
End reports.

Section gathering.
Context {W : Type} `{!DockerHttp W}.
Variable is_print : Z -> bool.
Variable decode_error : string -> stream -> string.
Variable parse_time : string -> option Z.
Variables (zone : Z -> Z) (zone_name : Z -> string).
Variable what : string.
Variable visit : gset string -> list string.
Variable schedule : list containerListEntry -> list containerListEntry.

(** The set is visited whole, every goroutine runs. *)
Hypothesis visit_all : forall names, visit names ≡ₚ elements names.
Hypothesis schedule_all : forall l, schedule l ≡ₚ l.

Notation gather := (Gather is_print decode_error parse_time zone zone_name).
Notation listed := (gather_listed is_print decode_error parse_time zone zone_name).

(** What a gathering asks first. *)
Definition list_answer (ins : Instance) : io (dstate W) (res string (list containerListEntry)) :=
  _ ← negotiate ins; request ins (listContainers decode_error).

(** The containers that are checked. *)
Definition checked (ins : Instance) (containers : list containerListEntry) : list containerListEntry :=
  take (Z.to_nat (MaxContainers ins)) (matchTargets ins containers).

Lemma limit_matched_checked ins containers : 0 < MaxContainers ins ->
  (limit_matched ins (matchTargets ins containers)).2 = checked ins containers.
Proof.
  intros Hm. unfold limit_matched, checked. destruct (Z.ltb_spec (MaxContainers ins) (zlen (matchTargets ins containers))); [done|].
  cbn. rewrite firstn_all2; [done|]. unfold zlen in *. lia.
Qed.

Lemma docker_limit_event ins matched :
  Forall2 is_event (opt (MaxContainers ins <? zlen matched) engine_key) (limit_matched ins matched).1.
Proof. unfold limit_matched. destruct (_ <? _); repeat constructor. Qed.

Lemma docker_not_found_events l : Forall2 is_event (map running_key l) (map (not_found_event is_print) l).
Proof. induction l as [|n l IH]; [constructor|]. by constructor. Qed.

(** The keys of a gathering over the containers listed, the last ones those of
    the containers checked. *)
Lemma docker_listed_reports ins containers s s' : 0 < MaxContainers ins ->
  listed ins what visit schedule containers s = (Ret tt, s') ->
  exists evs s2, d_events s' = d_events s ++ evs /\ d_world s2 = d_world s /\ apiVersion s2 = apiVersion s /\
    Forall2 is_event ([engine_key] ++ opt (MaxContainers ins <? zlen (matchTargets ins containers)) engine_key
      ++ map running_key (visit (missing_names ins (checked ins containers)))
      ++ concat (each_keys is_print decode_error parse_time zone zone_name ins what (schedule (checked ins containers)) s2)) evs.
Proof.
  intros Hm. unfold gather_listed. pose proof (limit_matched_checked ins containers Hm) as El.
  pose proof (docker_limit_event ins (matchTargets ins containers)) as Hl.
  destruct (limit_matched ins (matchTargets ins containers)) as [evs l]. cbn [fst snd] in *. subst l. intros H.
  apply io_bind_inv in H as ([] & ? & [= <-] & H). do 3 apply io_bind_inv in H as ([] & ? & [= <-] & H).
  cbn [d_events d_world apiVersion restartStates] in H. apply io_bind_inv in H as (r & s4 & Hr & [= <-]). cbn [d_events].
  match type of Hr with io_each _ _ ?s = _ => set (s3 := s) in * end.
  destruct (each_container_reports _ _ _ _ _ _ _ _ _ _ _ Hr) as (own & He & Hk).
  eexists _, s3. split; [rewrite He; unfold s3; cbn [d_events]; rewrite <- !app_assoc; reflexivity|]. split; [done|]. split; [done|].
  apply Forall2_app; [by repeat constructor|]. apply Forall2_app; [done|]. apply Forall2_app; [apply docker_not_found_events|done].
Qed.

Lemma docker_listed_returns ins containers : returns (listed ins what visit schedule containers).
Proof.
  unfold gather_listed. apply returns_bind; [apply returns_modify|]. intros _.
  destruct (limit_matched ins (matchTargets ins containers)) as [evs l].
  repeat (apply returns_bind; [apply returns_modify|]; intros _).
  apply returns_bind; [apply returns_each; intros c; apply container_goroutine_returns|]. intros _. apply returns_modify.
Qed.

Lemma list_answer_returns ins : returns (list_answer ins).
Proof.
  apply returns_bind; [|intros _; apply returns_request; intros e; apply returns_get_json].
  apply returns_bind; [apply returns_gets|]. intros v. apply returns_when, returns_bind; [|intros; apply returns_modify].
  apply returns_world, returns_bind; [apply returns_lift|intros r; apply returns_ret].
Qed.
Lemma list_answer_silent ins : silent (list_answer ins).
Proof.
  apply silent_bind; [|intros _; apply docker_silent_request]. apply silent_bind; [apply silent_gets|]. intros v.
  destruct (bool_decide (v = "")); [|apply silent_ret]. apply silent_bind; [apply docker_silent_world|].
  intros v'. by intros s a s' [= <- <-].
Qed.

Lemma Gather_answer ins s r s1 : Targets ins <> [] -> list_answer ins s = (Ret r, s1) ->
  gather ins what visit schedule s =
  match r with
  | Bad err => push [critical engine_event ("failed to list containers: " +:+ err)] s1
  | Good containers => listed ins what visit schedule containers s1
  end.
Proof.
  intros Ht. unfold list_answer, Gather. rewrite bool_decide_eq_false_2 by done.
  unfold mbind, io_mbind, io_bind. destruct (negotiate ins s) as [[[]|] s0]; [|done]. intros E. rewrite E. by destruct r.
Qed.

(** C33: A gathering returns.  When the containers cannot be listed it reports the
    engine; otherwise the engine (twice when there are too many), every
    container that is named and not checked, and of each container that is
    checked, in some order, exactly the checks that apply to it by what the
    daemon answers: whether it runs, that it cannot be inspected or else the
    restarts, health and usages that are configured and known. *)
Theorem docker_gather_reports ins s (Hm : 0 < MaxContainers ins) (Ht : Targets ins <> []) :
  exists r s1 s' evs keys,
    list_answer ins s = (Ret r, s1) /\ gather ins what visit schedule s = (Ret tt, s') /\
    d_events s' = d_events s ++ evs /\ Forall2 is_event keys evs /\
    match r with
    | Bad _ => keys = [engine_key]
    | Good containers => exists missing order s2,
        keys = [engine_key] ++ opt (MaxContainers ins <? zlen (matchTargets ins containers)) engine_key
               ++ map running_key missing ++ concat (each_keys is_print decode_error parse_time zone zone_name ins what order s2) /\
        d_world s2 = d_world s1 /\ apiVersion s2 = apiVersion s1 /\
        order ≡ₚ checked ins containers /\ NoDup missing /\
        (forall name, name ∈ explicitNames ins <-> name ∈ missing \/ name ∈ explicitNames ins /\ name ∈ names (checked ins containers))
        /\ (forall name, name ∈ missing -> name ∉ names (checked ins containers))
    end.
Proof.
  destruct (list_answer_returns ins s) as (r & s1 & E). exists r, s1. pose proof (Gather_answer ins s r s1 Ht E) as Eg.
  pose proof (list_answer_silent ins s r s1 E) as Es. change (d_events s1 = d_events s) in Es. destruct r as [containers|err].
  - destruct (docker_listed_returns ins containers s1) as ([] & s' & E').
    destruct (docker_listed_reports ins containers s1 s' Hm E') as (evs & s2 & He & Hw & Hv & Hk).
    exists s', evs. eexists. split; [done|]. split; [by rewrite Eg|]. split; [by rewrite <- Es|]. split; [exact Hk|].
    exists (visit (missing_names ins (checked ins containers))), (schedule (checked ins containers)), s2.
    split; [done|]. split; [done|]. split; [done|]. split; [apply schedule_all|].
    assert (forall name, name ∈ visit (missing_names ins (checked ins containers)) <->
              name ∈ explicitNames ins /\ name ∉ names (checked ins containers)) as Hn.
    { intros name. rewrite visit_all, elem_of_elements. unfold missing_names, names. set_solver. }
    split; [rewrite visit_all; apply NoDup_elements|]. setoid_rewrite Hn.
    split; [|tauto]. intros name. destruct (decide (name ∈ names (checked ins containers))); tauto.
  - exists (push [critical engine_event ("failed to list containers: " +:+ err)] s1).2.
    exists [critical engine_event ("failed to list containers: " +:+ err)], [engine_key].
    split; [done|]. split; [by rewrite Eg|]. split; [cbn; by rewrite Es|]. split; [|done]. by constructor.
Qed.
End gathering.

(** ** What is remembered of the restarts *)

Section remembered.
Context {W : Type} `{!DockerHttp W}.
Variable is_print : Z -> bool.
Variable decode_error : string -> stream -> string.
Variable parse_time : string -> option Z.
Variables (zone : Z -> Z) (zone_name : Z -> string).
Variable ins : Instance.
Notation states := (restartStates (W := W)).

(** One gathering on the state of a container: nothing, or one observation. *)
Definition observed (st st' : containerRestartState) : Prop :=
  st' = st \/ (restarts_enabled ins = true /\ exists now n, st' = observe (Window (RestartDetected ins)) now n st).

Lemma stays_push evs : stays states (push evs).
Proof. by apply stays_modify. Qed.
Lemma stays_world {A} (m : io W A) : stays states (on_world m).
Proof. intros s a s'. unfold on_world. destruct (m (d_world s)) as [r w]. by intros [= -> <-]. Qed.
Lemma stays_request {A} (m : endpoint -> io W A) : stays states (request ins m).
Proof. apply stays_bind; [apply stays_gets|]. intros v. apply stays_world. Qed.

Lemma check_stats_stays c detail : stays states (check_stats is_print decode_error ins c detail).
Proof.
  apply stays_bind; [apply stays_request|]. intros [stats|err];
    (apply stays_bind; [|intros _]); try apply stays_when; apply stays_push.
Qed.

Lemma check_container_observes c s st s' :
  check_container is_print decode_error parse_time zone zone_name ins c s = (Ret tt, s') ->
  states s !! containerName c = Some st ->
  exists st', observed st st' /\ states s' = <[containerName c := st']> (states s).
Proof.
  intros H Hst. unfold check_container in H. apply io_bind_inv in H as ([] & s1 & H1 & H).
  apply stays_push in H1. apply io_bind_inv in H as (r & s2 & H2 & H). apply stays_request in H2.
  rewrite <- H1, <- H2 in *. clear H1 H2 s s1. destruct r as [detail|err].
  2:{ apply stays_push in H. exists st. split; [by left|]. by rewrite H, insert_id. }
  apply io_bind_inv in H as ([] & s3 & H1 & H).
  assert (states s' = states s3) as ->.
  { revert H. apply (stays_when states), stays_bind; [apply stays_push|]. intros _. apply stays_when, check_stats_stays. }
  clear H. unfold check_restarts in H1. apply io_bind_inv in H1 as (now & ? & [= <- <-] & H1).
  apply io_bind_inv in H1 as (sts & ? & [= <- <-] & H1). rewrite Hst in H1. cbn [default from_option] in H1. unfold id in H1.
  unfold checkRestartDetected in H1. destruct (restarts_enabled ins) eqn:Er; cbn [negb] in H1;
    apply io_bind_inv in H1 as ([] & s1 & H0 & [= <-]); apply stays_push in H0; cbn [restartStates]; rewrite H0.
  - eexists. split; [right; split; [done|]; by eexists _, _|done].
  - exists st. by split; [left|].
Qed.

Lemma each_observes what l s s' a : NoDup (names l) -> (forall c, c ∈ l -> is_Some (states s !! containerName c)) ->
  io_each (container_goroutine is_print decode_error parse_time zone zone_name ins what) l s = (Ret a, s') ->
  (forall n, n ∉ names l -> states s' !! n = states s !! n) /\
  (forall n, n ∈ names l -> exists st st', states s !! n = Some st /\ states s' !! n = Some st' /\ observed st st').
Proof.
  revert s a. induction l as [|c l IH]; intros s a Hn Hs; cbn [io_each].
  { intros [= <- <-]. split; [done|]. by intros n ?%not_elem_of_nil. }
  intros H. apply io_bind_inv in H as ([] & s1 & H1 & H). apply io_bind_inv in H as (ys & s2 & H2 & [= <- <-]).
  apply container_goroutine_runs in H1. destruct (Hs c) as [st Hst]; [left|].
  destruct (check_container_observes c s st s1 H1 Hst) as (st' & Ho & E). cbn [names map] in Hn. apply NoDup_cons in Hn as [Hc Hn].
  destruct (IH s1 ys Hn) as [I1 I2]; [|exact H2|].
  { intros c' Hc'. rewrite E, lookup_insert_is_Some'. right. apply Hs. by right. }
  assert (forall n, n <> containerName c -> states s1 !! n = states s !! n) as Hne
    by (intros n Hne; rewrite E; by apply lookup_insert_ne).
  split.
  - intros n Hnin. rewrite I1, Hne; [done| |]; set_solver.
  - intros n Hin. destruct (decide (n = containerName c)) as [->|Hnc].
    + exists st, st'. split; [done|]. split; [|done]. rewrite I1, E by done. by apply lookup_insert_eq.
    + destruct (I2 n) as (st1 & st2 & E1 & E2 & Ho2); [set_solver|]. exists st1, st2. rewrite <- Hne by done. done.
Qed.
End remembered.

Lemma prefetch_lookup l m n :
  prefetch l m !! n = match m !! n with Some st => Some st | None => if bool_decide (n ∈ names l) then Some zero_restarts else None end.
Proof.
  induction l as [|c l IH]; cbn [prefetch foldr]; [by destruct (m !! n)|]. fold (prefetch l m).
  rewrite lookup_union, IH. destruct (m !! n) as [st|] eqn:E; [by destruct ({[_ := _]} !! n)|].
  destruct (decide (n = containerName c)) as [->|Hne].
  - rewrite lookup_singleton_eq. rewrite (bool_decide_eq_true_2 (containerName c ∈ names (c :: l))) by left.
    by case_bool_decide.
  - rewrite lookup_singleton_ne by done. cbn [names map]. destruct (decide (n ∈ names l)) as [Hin|Hin].
    + by rewrite !bool_decide_eq_true_2 by (done || by right).
    + by rewrite !bool_decide_eq_false_2 by set_solver.
Qed.


Lemma checked_sub ins containers c : c ∈ checked ins containers -> c ∈ matchTargets ins containers.
Proof. unfold checked. apply subseteq_take. Qed.
Lemma checked_NoDup ins containers : NoDup (names (checked ins containers)).
Proof.
  unfold checked, names. rewrite fmap_take. eapply sublist_NoDup; [|apply sublist_take]. apply match_loop_NoDup.
Qed.
Lemma checked_listed ins containers name : name ∈ names (checked ins containers) -> name ∈ names containers.
Proof.
  intros (c & -> & Hc)%list_elem_of_fmap. apply checked_sub in Hc. apply (list_elem_of_fmap_2 containerName).
  eapply elem_of_submseteq; [exact Hc|]. apply sublist_submseteq, match_loop_sublist.
Qed.

(** A gathering forgets the containers that are gone, leaves alone what it remembers of those
    it does not check, and makes at most one observation of each of the others. *)
Theorem docker_gather_restarts {W} `{!DockerHttp W} is_print decode_error parse_time zone zone_name what visit schedule
    ins (s s1 s' : dstate W) containers
    (Hschedule : forall l, schedule l ≡ₚ l) (Hm : 0 < MaxContainers ins) (Ht : Targets ins <> [])
    (Hl : list_answer decode_error ins s = (Ret (Good containers), s1))
    (Hg : Gather is_print decode_error parse_time zone zone_name ins what visit schedule s = (Ret tt, s')) :
  forall name,
    (name ∉ names containers -> restartStates s' !! name = None) /\
    (name ∈ names containers -> name ∉ names (checked ins containers) -> restartStates s' !! name = restartStates s !! name) /\
    (name ∈ names (checked ins containers) -> exists st',
       restartStates s' !! name = Some st' /\ observed ins (default zero_restarts (restartStates s !! name)) st').
Proof.
  rewrite (Gather_answer _ _ _ _ _ _ _ _ ins s _ s1 Ht Hl) in Hg.
  assert (restartStates s1 = restartStates s) as E1.
  { revert Hl. apply (stays_bind restartStates); [|intros _; apply stays_request].
    apply stays_bind; [apply stays_gets|]. intros v. apply stays_when, stays_bind; [apply stays_world|].
    intros v'. by apply stays_modify. }
  unfold gather_listed in Hg. apply io_bind_inv in Hg as ([] & s2 & [= <-] & Hg).
  pose proof (limit_matched_checked ins containers Hm) as El.
  destruct (limit_matched ins (matchTargets ins containers)) as [evs l]. cbn [snd] in El. subst l.
  apply io_bind_inv in Hg as ([] & s2 & [= <-] & Hg). apply io_bind_inv in Hg as ([] & s2 & [= <-] & Hg).
  apply io_bind_inv in Hg as ([] & s2 & [= <-] & Hg). apply io_bind_inv in Hg as (ys & s2 & Hg & [= <-]).
  apply each_observes in Hg as [H1 H2]; cbn [restartStates] in *.
  - rewrite E1 in *. intros name.
    assert (name ∈ names (schedule (checked ins containers)) <-> name ∈ names (checked ins containers)) as Hiff
      by (unfold names; by rewrite Hschedule).
    assert (name ∈ names containers -> forget_removed containers (restartStates s2) !! name = restartStates s2 !! name) as Hf.
    { intros Hn. unfold forget_removed. apply option_eq. intros st. rewrite map_lookup_filter_Some. naive_solver. }
    split_and!.
    + intros Hn. apply map_lookup_filter_None. right. intros st _. done.
    + intros Hn Hc. rewrite Hf, H1, prefetch_lookup, bool_decide_eq_false_2 by (done || by rewrite Hiff).
      by destruct (restartStates s !! name).
    + intros Hc. destruct (H2 name) as (st & st' & Ea & Eb & Ho); [by apply Hiff|]. exists st'.
      rewrite Hf by by eapply checked_listed. split; [done|].
      rewrite prefetch_lookup, bool_decide_eq_true_2 in Ea by done.
      destruct (restartStates s !! name); by simplify_eq/=.
  - unfold names. rewrite Hschedule. exact (checked_NoDup ins containers).
  - intros c Hc. rewrite Hschedule in Hc. rewrite prefetch_lookup. destruct (restartStates s1 !! containerName c); [done|].
    rewrite bool_decide_eq_true_2; [done|]. by apply (list_elem_of_fmap_2 containerName).
Qed.

(** ** What a gathering asks the daemon *)

(** The requests on any daemon, last one first. *)
#[export] Instance logged_http {W} `{!DockerHttp W} : DockerHttp (W * list (http_client * string)) := {|
  http_get c url w := let '(r, w') := http_get c url w.1 in (r, (w', (c, url) :: w.2));
  docker_now w := docker_now w.1
|}.

(** The version, the list, and the state and statistics of containers that are
    wanted: statistics only of running ones and only for a check that needs them. *)
Inductive asks (ins : Instance) : http_client * string -> Prop :=
| asks_version : asks ins (httpClient ins, baseURL ins +:+ "/version")
| asks_list v : asks ins (httpClient ins, apiURL (mkEndpoint (httpClient ins) (baseURL ins) v) list_path)
| asks_inspect v c : wanted ins c = true ->
    asks ins (httpClient ins, apiURL (mkEndpoint (httpClient ins) (baseURL ins) v) (inspect_path (Id c)))
| asks_stats v c : wanted ins c = true -> State c = "running" -> needStats ins = true ->
    asks ins (httpClient ins, apiURL (mkEndpoint (httpClient ins) (baseURL ins) v) (stats_path (Id c))).

Section asked.
Context {W : Type} `{!DockerHttp W}.
Variable is_print : Z -> bool.
Variable decode_error : string -> stream -> string.
Variable parse_time : string -> option Z.
Variables (zone : Z -> Z) (zone_name : Z -> string).
Variable ins : Instance.
Variable log0 : list (http_client * string).

Definition asked_since (w : W * list (http_client * string)) : Prop := exists new, w.2 = new ++ log0 /\ Forall (asks ins) new.
Notation J := (fun s : dstate (W * list (http_client * string)) => asked_since (d_world s)).

Lemma asks_fetch c url : asks ins (c, url) -> keeps asked_since (fetch c url).
Proof.
  intros Ha w (new & E & Hf). unfold fetch, io_lift. cbn. destruct (http_get c url w.1) as [r w']. cbn.
  exists ((c, url) :: new). split; [cbn; by rewrite E|by constructor].
Qed.
Lemma asks_get_json {T} (zero : T) elem k ty path e :
  asks ins (ep_httpClient e, apiURL e path) -> keeps asked_since (get_json decode_error zero elem k ty path e).
Proof. intros Ha. apply keeps_bind; [by apply asks_fetch|]. intros r. apply keeps_ret. Qed.

Lemma keeps_docker_world {A} (m : io (W * list (http_client * string)) A) : keeps asked_since m -> keeps J (on_world m).
Proof. intros Hm s Hs. unfold on_world. specialize (Hm (d_world s) Hs). by destruct (m (d_world s)) as [r w]. Qed.
Lemma keeps_request {A} (m : endpoint -> io (W * list (http_client * string)) A) :
  (forall v, keeps asked_since (m (mkEndpoint (httpClient ins) (baseURL ins) v))) -> keeps J (request ins m).
Proof. intros Hm. apply keeps_bind; [apply keeps_gets|]. intros v. by apply keeps_docker_world. Qed.
Lemma keeps_docker_push evs : keeps J (push evs).
Proof. by apply keeps_modify. Qed.
Lemma keeps_docker_when b (m : io (dstate (W * list (http_client * string))) unit) : (b = true -> keeps J m) -> keeps J (when b m).
Proof. destruct b; [auto|]. intros _. apply keeps_ret. Qed.
#[local] Hint Resolve keeps_docker_push : keeps.

Lemma check_container_asks c : wanted ins c = true ->
  keeps J (check_container is_print decode_error parse_time zone zone_name ins c).
Proof.
  intros Hw. apply keeps_bind; [auto with keeps|]. intros _.
  apply keeps_bind; [apply keeps_request; intros v; by apply asks_get_json, asks_inspect|]. intros [detail|err]; [|auto with keeps].
  apply keeps_bind.
  { apply keeps_bind; [apply keeps_gets|]. intros now. apply keeps_bind; [apply keeps_gets|]. intros states.
    destruct (checkRestartDetected _ _ _ _ _ _ _ _ _ _ _) as [evs st]. apply keeps_bind; [auto with keeps|].
    intros _. by apply keeps_modify. }
  intros _. apply keeps_docker_when. intros Hr. zbool. apply keeps_bind; [auto with keeps|]. intros _.
  apply keeps_docker_when. intros Hn.
  apply keeps_bind; [apply keeps_request; intros v; by apply asks_get_json, asks_stats|].
  intros [stats|err]; (apply keeps_bind; [|intros _]); try (apply keeps_docker_when; intros _); auto with keeps.
Qed.

Lemma goroutine_asks what c : wanted ins c = true ->
  keeps J (container_goroutine is_print decode_error parse_time zone zone_name ins what c).
Proof.
  intros Hw s Hs. pose proof (check_container_asks c Hw s Hs) as H. unfold container_goroutine.
  by destruct (check_container _ _ _ _ _ _ _ _) as [[[]|] s'].
Qed.

Lemma keeps_each_in {S A B} (I : S -> Prop) (f : A -> io S B) l : Forall (fun a => keeps I (f a)) l -> keeps I (io_each f l).
Proof.
  induction 1 as [|x l Hx _ IH]; cbn; [apply keeps_ret|].
  apply keeps_bind; [done|]. intros y. apply keeps_bind; [done|]. intros ys. apply keeps_ret.
Qed.
End asked.

(** Whatever the daemon answers, a gathering only reads: it asks for the version, the list, and
    the state and statistics of containers that are wanted. *)
Theorem docker_gather_only_reads {W} `{!DockerHttp W} is_print decode_error parse_time zone zone_name what visit schedule
    ins (s : dstate (W * list (http_client * string))) (Hschedule : forall l, schedule l ≡ₚ l) :
  exists new,
    (d_world (Gather is_print decode_error parse_time zone zone_name ins what visit schedule s).2).2 = new ++ (d_world s).2 /\
    Forall (asks ins) new.
Proof.
  enough (keeps (fun s' => asked_since ins (d_world s).2 (d_world s'))
    (Gather is_print decode_error parse_time zone zone_name ins what visit schedule)) as H.
  { apply H. exists []. by split; [|constructor]. }
  unfold Gather. destruct (bool_decide (Targets ins = [])); [apply keeps_ret|].
  apply keeps_bind.
  { apply keeps_bind; [apply keeps_gets|]. intros v. apply keeps_docker_when. intros _.
    apply keeps_bind; [|intros v'; by apply keeps_modify]. apply keeps_docker_world.
    apply keeps_bind; [apply asks_fetch, asks_version|intros r; apply keeps_ret]. }
  intros _. apply keeps_bind; [apply keeps_request; intros v; apply asks_get_json, asks_list|].
  intros [containers|err]; [|apply keeps_docker_push].
  apply keeps_bind; [apply keeps_docker_push|]. intros _.
  destruct (limit_matched ins (matchTargets ins containers)) as [evs l] eqn:El.
  do 3 (apply keeps_bind; [by apply keeps_modify|]; intros _).
  apply keeps_bind; [|intros ys; by apply keeps_modify]. apply keeps_each_in, Forall_forall. intros c Hc.
  apply goroutine_asks. rewrite Hschedule in Hc. assert (c ∈ matchTargets ins containers) as Hm.
  { unfold limit_matched in El. destruct (_ <? _); injection El as <- <-; [by eapply subseteq_take|done]. }
  apply docker_matchTargets_first in Hm. naive_solver.
Qed.

(** ** A concrete daemon *)

Record daemon := mkDaemon { answers : list (string * jval); now_is : Z }.
#[export] Instance scripted_daemon : DockerHttp daemon := {|
  http_get _ url w :=
    (match List.find (fun p => bool_decide (p.1 = url)) (answers w) with
     | Some (_, v) => GotResponse 200 (mkStream (json_Marshal v) None)
     | None => GotResponse 404 (mkStream "no such container" None)
     end, w);
  docker_now w := now_is w
|}.

Definition entry_value (id name state : string) : jval :=
  VObj [("Id", VStr id); ("Names", VArr [VStr ("/" +:+ name)]); ("Image", VStr "nginx:1.25"); ("State", VStr state);
        ("Status", VStr "Up 3 hours")].
Definition inspect_value (restarts : Z) : jval :=
  VObj [("State", VObj [("Status", VStr "running"); ("Running", VBool true);
                        ("Health", VObj [("Status", VStr "unhealthy"); ("FailingStreak", VNum "4");
                                         ("Log", VArr [VObj [("Output", VStr "connection refused")]])])]);
        ("HostConfig", VObj [("NanoCpus", VNum "2000000000")]); ("RestartCount", VNum (itoa restarts))].
Definition cpu_value (total system : Z) : jval :=
  VObj [("cpu_usage", VObj [("total_usage", VNum (itoa total))]); ("system_cpu_usage", VNum (itoa system)); ("online_cpus", VNum "4")].
Definition stats_value : jval :=
  VObj [("cpu_stats", cpu_value 1800000000 8000000000); ("precpu_stats", cpu_value 0 4000000000);
        ("memory_stats", VObj [("usage", VNum "314572800"); ("limit", VNum "536870912");
                               ("stats", VObj [("inactive_file", VNum "52428800")])])].

Definition ex_settings : Instance :=
  mkInstance "" "1.43" 0 ["web"; "gone"; "app*"] 0 0 (mkRestartDetected 0 3 5)
    (mkUsageCheck (f64_of_Z 80) (f64_of_Z 95)) (mkUsageCheck f64_zero (f64_of_Z 95)) (mkHttpClient None 0) "" ∅ None.
Definition no_print : Z -> bool := fun _ => true.
Definition ex_docker : Instance :=
  match Init no_print tiny_glob tiny_regexp false ex_settings with Good (ins, _) => ins | Bad _ => ex_settings end.
Definition ex_url (path : string) : string := "http://localhost/v1.43" +:+ path.
Definition ex_daemon : daemon :=
  mkDaemon [(ex_url list_path, VArr [entry_value "c1" "web" "running"; entry_value "c2" "db" "exited"; entry_value "c3" "app-1" "paused"]);
            (ex_url (inspect_path "c1"), inspect_value 7); (ex_url (stats_path "c1"), stats_value)] (2000 * Second).
(** Five restarts were seen 100 seconds before, two more are due. *)
Definition ex_state : dstate daemon :=
  mkD ex_daemon [] "1.43" (<["web" := mkRestartState 5 true [mkRestartRecord 1 (1900 * Second)]]> {["old" := zero_restarts]}).
Definition no_times (s : string) : option Z := None.
Definition ex_gather : io (dstate daemon) unit :=
  Gather no_print (fun _ _ => "bad body") no_times (fun _ => 0) (fun _ => "UTC") ex_docker "boom" elements id.
Definition shown (e : Event) : string * string * string := (check_of e, target_of e, EventStatus e).

Example ex_gather_shown : map shown (d_events (ex_gather ex_state).2) =
  [("docker::container_running", "docker-engine", "Ok"); ("docker::container_running", "gone", "Critical");
   ("docker::container_running", "web", "Ok"); ("docker::restart_detected", "web", "Warning");
   ("docker::health_status", "web", "Critical"); ("docker::cpu_usage", "web", "Warning"); ("docker::memory_usage", "web", "Ok");
   ("docker::container_running", "app-1", "Warning"); ("docker::container_running", "app-1", "Critical")].
Proof. vm_compute. reflexivity. Qed.
Example ex_gather_texts : map Description (filter (fun e => target_of e = "web") (d_events (ex_gather ex_state).2)) =
  [("container " +:+ Quote no_print "web" +:+ " is running");
   ("container " +:+ Quote no_print "web" +:+ " restarted 3 times in last 10m, above warning threshold 3");
   ("container " +:+ Quote no_print "web" +:+ " health check: unhealthy (failing streak: 4)");
   ("container " +:+ Quote no_print "web" +:+ " CPU usage 90.0% of 2.0 cores, above warning threshold 80%");
   ("container " +:+ Quote no_print "web" +:+ " memory usage 48.8% (250 MiB / 512 MiB)")].
Proof. vm_compute. reflexivity. Qed.

(** ** Witnesses *)

(** A container that was recreated, and three restarts since the last
    observation before the window. *)
Lemma docker_restarts_in_window_witness :
  restartsInWindow (observe_all 600 ([(0, 7)] ++ [(100, 2); (200, 3)] ++ [(900, 5); (1000, 6)]) zero_restarts) = 3.
Proof.
  rewrite (docker_restarts_in_window 600 [(0, 7)] [(100, 2); (200, 3)] [(900, 5); (1000, 6)]); [reflexivity|lia| | | | | |].
  - repeat (constructor; [vm_compute; split; discriminate|]). constructor.
  - repeat (constructor; [|repeat (constructor; [split; cbn; lia|]); constructor]). constructor.
  - right. reflexivity.
  - left. vm_compute. discriminate.
  - discriminate.
  - repeat (constructor; [reflexivity|]). constructor.
Defined.

Lemma docker_gather_reports_witness :
  exists r s1 s' evs keys,
    list_answer (fun _ _ => "bad body") ex_docker ex_state = (Ret r, s1) /\ ex_gather ex_state = (Ret tt, s') /\
    d_events s' = evs /\ Forall2 is_event keys evs /\ length keys = 9%nat.
Proof.
  destruct (docker_gather_reports no_print (fun _ _ => "bad body") no_times (fun _ => 0) (fun _ => "UTC") "boom" elements id
    (fun _ => reflexivity _) (fun _ => reflexivity _) ex_docker ex_state) as (r & s1 & s' & evs & keys & Ha & Hg & He & Hk & _).
  - reflexivity.
  - discriminate.
  - exists r, s1, s', evs, keys. split; [exact Ha|]. split; [exact Hg|]. split; [exact He|]. split; [exact Hk|].
    rewrite (Forall2_length _ _ _ Hk). cbn [d_events ex_state app] in He. rewrite <- He.
    change s' with (Ret tt, s').2. unfold ex_gather in Hg. rewrite <- Hg. vm_compute. reflexivity.
Defined.

Lemma docker_gather_restarts_witness :
  exists s1 s', list_answer (fun _ _ => "bad body") ex_docker ex_state =
      (Ret (Good [mkEntry "c1" ["/web"] "nginx:1.25" "running" "Up 3 hours"; mkEntry "c2" ["/db"] "nginx:1.25" "exited" "Up 3 hours";
                  mkEntry "c3" ["/app-1"] "nginx:1.25" "paused" "Up 3 hours"]), s1) /\
    ex_gather ex_state = (Ret tt, s') /\ restartStates s' !! "old" = None /\
    exists st', restartStates s' !! "web" = Some st' /\
      observed ex_docker (mkRestartState 5 true [mkRestartRecord 1 (1900 * Second)]) st'.
Proof.
  exists (list_answer (fun _ _ => "bad body") ex_docker ex_state).2, (ex_gather ex_state).2.
  assert (list_answer (fun _ _ => "bad body") ex_docker ex_state =
      (Ret (Good [mkEntry "c1" ["/web"] "nginx:1.25" "running" "Up 3 hours"; mkEntry "c2" ["/db"] "nginx:1.25" "exited" "Up 3 hours";
                  mkEntry "c3" ["/app-1"] "nginx:1.25" "paused" "Up 3 hours"]),
       (list_answer (fun _ _ => "bad body") ex_docker ex_state).2)) as Hl by (vm_compute; reflexivity).
  assert (ex_gather ex_state = (Ret tt, (ex_gather ex_state).2)) as Hg by (vm_compute; reflexivity).
  split; [exact Hl|]. split; [exact Hg|].
  pose proof (docker_gather_restarts no_print (fun _ _ => "bad body") no_times (fun _ => 0) (fun _ => "UTC") "boom" elements id
    ex_docker ex_state _ _ _ (fun _ => reflexivity _) eq_refl ltac:(discriminate) Hl Hg) as H.
  split.
  - apply (H "old"). apply (bool_decide_unpack _). vm_compute. exact I.
  - apply (H "web"). apply (bool_decide_unpack _). vm_compute. exact I.
Defined.

(** ** Departures from the intention *)

(** With one container too many the engine is reported as reachable and as a
    warning under the same labels, so that each gathering recovers the alert it
    raises; the container left out, which runs, is reported as not found. *)
Definition ex_limited : Instance :=
  match Init no_print tiny_glob tiny_regexp false (mkInstance "" "1.43" 0 ["web"; "api"] 0 1 (mkRestartDetected 0 0 0)
          (mkUsageCheck f64_zero f64_zero) (mkUsageCheck f64_zero f64_zero) (mkHttpClient None 0) "" ∅ None)
  with Good (ins, _) => ins | Bad _ => ex_settings end.
Theorem too_many_containers :
  let s := mkD (mkDaemon [(ex_url list_path, VArr [entry_value "c1" "web" "running"; entry_value "c2" "api" "running"]);
                          (ex_url (inspect_path "c1"), inspect_value 0)] 0) [] "1.43" ∅ in
  let s' := (Gather no_print (fun _ _ => "bad body") no_times (fun _ => 0) (fun _ => "UTC") ex_limited "boom" elements id s).2 in
  exists ok limit missing more, d_events s' = ok :: limit :: missing :: more /\
    Labels ok = Labels limit /\ EventStatus ok = EventStatusOk /\ EventStatus limit = EventStatusWarning /\
    EventStatus missing = EventStatusCritical /\ Description missing = "container " +:+ Quote no_print "api" +:+ " not found".
Proof. eexists _, _, _, _. vm_compute. split_and!; reflexivity. Qed.

(** A container that cannot be inspected is reported twice under the same labels:
    with its state and as critical. *)
Theorem inspect_failure_contradicts : exists state failed,
  filter (fun e => target_of e = "app-1") (d_events (ex_gather (mkD ex_daemon [] "1.43" ∅)).2) = [state; failed] /\
  Labels state = Labels failed /\ EventStatus state <> EventStatusCritical /\ EventStatus failed = EventStatusCritical.
Proof. eexists _, _. vm_compute. split_and!; try reflexivity. discriminate. Qed.

(** A container restarted between the two samples has used less than before: the
    difference wraps around and an idle container is critical. *)
Theorem cpu_delta_wraps :
  let stats := mkStats (mkCpuStats (mkCpuUsage 0 []) 2000000000 4 (mkThrottling 0 0 0))
                 (mkCpuStats (mkCpuUsage 1 []) 1000000000 4 (mkThrottling 0 0 0)) (mkMemoryStats 0 0 ∅) in
  map EventStatus (checkCpuUsage no_print ex_docker stats zero_inspect "web" "c1" "nginx") = [EventStatusCritical].
Proof. vm_compute. reflexivity. Qed.

(** The version chosen when the daemon could not be asked stays. *)
Theorem failed_negotiation_sticks {W} `{!DockerHttp W} ins (s : dstate W) err w :
  apiVersion s = "" -> http_get (httpClient ins) (baseURL ins +:+ "/version") (d_world s) = (GetFailed err, w) ->
  exists s', negotiate ins s = (Ret tt, s') /\ apiVersion s' = "1.25" /\ negotiate ins s' = (Ret tt, s').
Proof.
  intros Hv E. exists (mkD w (d_events s) "1.25" (restartStates s)). split; [|done].
  assert (on_world (negotiateAPIVersion (httpClient ins) (baseURL ins)) s
          = (Ret "1.25", mkD w (d_events s) (apiVersion s) (restartStates s))) as En.
  { unfold on_world, negotiateAPIVersion, mbind, io_mbind, io_bind, fetch, io_lift. by rewrite E. }
  unfold negotiate, mbind, io_mbind. erewrite io_bind_Ret by reflexivity. rewrite bool_decide_eq_true_2 by done. cbn [when].
  by erewrite io_bind_Ret by exact En.
Qed.

(** A reference with a query or a fragment is accepted: the request goes to
    another resource of the daemon than the state of a container. *)
Theorem reference_leaves_the_path :
  validateContainerRef no_print "web/archive?path=/etc/passwd#" = None /\
  apiURL (mkEndpoint (mkHttpClient None 0) "http://localhost" "1.43") (inspect_path "web/archive?path=/etc/passwd#")
  = "http://localhost/v1.43/containers/web/archive?path=/etc/passwd#/json".
Proof. split; vm_compute; reflexivity. Qed.

(** The output of a check is cut after 200 bytes, inside a character. *)
Theorem health_output_cut_in_rune :
  let out := concat_lines (repeat "a" 199) +:+ "é" in
  ValidString out = true /\ ValidString (check_output (mkHealthLog out)) = false.
Proof. split; vm_compute; reflexivity. Qed.
