(* ===== verification/FileCheck.v ===== *)
(** * The file check (plugins/filecheck/filecheck.go)

    Whether files exist, when they were modified and whether their contents
    changed.  What a gathering sees of the file system is an argument; what is
    remembered is the digest of each file read so far. *)
From S2P Require Import Prelude GoStr GoLib Types GoFmt Filter Record Pushing.
#[local] Open Scope Z_scope.
#[local] Open Scope go_scope.

Definition defaultMaxFileSize : Z := 50 * MB.
Definition maxDisplayFiles : Z := 20.
Definition maxWalkFiles : Z := 10000.

(** ** Settings *)
Record MtimeCheck := mkMtime { m_Severity : string; Mode : string; TimeSpan : Z }.
Record ChecksumCheck := mkChecksum { c_Severity : string; MaxFileSize : Z }.
Record Instance := mkInstance { Targets : list string; Mtime : MtimeCheck; Checksum : ChecksumCheck; Existence : string }.

Definition Init_Mtime (m : MtimeCheck) : res string MtimeCheck :=
  if decide (m_Severity m = "") then Good m
  else
    let span := if TimeSpan m =? 0 then 3 * Minute else TimeSpan m in
    let mode := if decide (Mode m = "") then "changed" else Mode m in
    if decide (mode <> "changed" /\ mode <> "stale")
    then Bad ("mtime mode must be 'changed' or 'stale', got '" +:+ mode +:+ "'")
    else Good (mkMtime (m_Severity m) mode span).

Definition Init (ins : Instance) : res string Instance :=
  match Targets ins with
  | [] => Bad "targets is empty"
  | _ =>
    match Init_Mtime (Mtime ins) with
    | Bad err => Bad err
    | Good m =>
      let c := Checksum ins in
      let c := if negb (bool_decide (c_Severity c = "")) && (MaxFileSize c =? 0)
               then mkChecksum (c_Severity c) defaultMaxFileSize else c in
      Good (mkInstance (Targets ins) m c (Existence ins))
    end
  end.

(** ** What is seen of the file system *)

(** The result of [os.Stat]; [ModTime] in Unix nanoseconds. *)
Inductive stat :=
| Found (isDir : bool) (size ModTime : Z)
| NotExist (err : string)
| Failed (err : string).

(** What [filepath.WalkDir] finds: an entry that is not a directory, or the
    entries of a directory that were read, in order. *)
Inductive tree := Leaf | Dir (entries : list (string * tree)).

(** One gathering, step by step: the targets and the matches of the patterns
    when they are looked at; the trees that are walked (none when the root has
    gone), whose root is not followed when it is a link; and each resolved file
    at the time of the check of its time and of its contents.  An error of
    [Glob] is that of the pattern. *)
Record View := mkView {
  at_target : string -> stat;
  at_glob : string -> option (list string);
  at_match : string -> stat;
  at_tree : string -> option tree;
  at_mtime : string -> stat;
  at_checksum : string -> stat;
  contents : string -> res string string;
  now : Z
}.

(** ** Resolving the targets *)

(** [files], in order, and [seen]. *)
Definition found : Type := list string * gset string.

Definition addUnique (path : string) (f : found) : found :=
  if bool_decide (path ∈ f.2) then f else (f.1 ++ [path], {[path]} ∪ f.2).

(** The function that walks: whether it ends the walk. *)
Definition visit (path : string) (isDir : bool) (f : found) : bool * found :=
  if isDir then (false, f)
  else if maxWalkFiles <=? zlen f.1 then (true, f)
  else (false, addUnique path f).

Fixpoint walk_tree (path : string) (t : tree) (f : found) : bool * found :=
  match t with
  | Leaf => visit path false f
  | Dir entries =>
    let '(stop, f) := visit path true f in
    if stop then (true, f)
    else
      (fix walk_entries (l : list (string * tree)) (f : found) : bool * found :=
         match l with
         | [] => (false, f)
         | (name, t') :: l' =>
           let '(stop, f) := walk_tree (JoinPath [path; name]) t' f in
           if stop then (true, f) else walk_entries l' f
         end) entries f
  end.

Definition walkDir (v : View) (dir : string) (f : found) : found :=
  match at_tree v dir with None => f | Some t => (walk_tree dir t f).2 end.

Definition collectPath (v : View) (f : found) (path : string) : found :=
  if maxWalkFiles <=? zlen f.1 then f
  else
    match at_match v path with
    | Found true _ _ => walkDir v path f
    | Found false _ _ => addUnique path f
    | NotExist _ | Failed _ => f
    end.

(** Files, missing targets, errors. *)
Record Resolved := mkResolved { r_found : found; missing : list string; accessErrors : list string }.

Definition resolve_target (v : View) (r : Resolved) (target : string) : Resolved :=
  match at_target v target with
  | Found isDir _ _ =>
    let f := r_found r in
    mkResolved (if isDir then walkDir v target f else addUnique target f) (missing r) (accessErrors r)
  | Failed err => mkResolved (r_found r) (missing r) (accessErrors r ++ [target +:+ ": " +:+ err])
  | NotExist _ =>
    if ContainsAny target "*?[" then
      match at_glob v target with
      | None => r
      | Some [] => mkResolved (r_found r) (missing r ++ [target]) (accessErrors r)
      | Some matches => mkResolved (fold_left (collectPath v) matches (r_found r)) (missing r) (accessErrors r)
      end
    else mkResolved (r_found r) (missing r ++ [target]) (accessErrors r)
  end.

Definition resolve_all (ins : Instance) (v : View) : Resolved :=
  fold_left (resolve_target v) (Targets ins) (mkResolved ([], ∅) [] []).

Definition resolveTargets (ins : Instance) (v : View) : list string * list string * list string :=
  let r := resolve_all ins v in
  let files := (r_found r).1 in
  let files := if maxWalkFiles <? zlen files then take (Z.to_nat maxWalkFiles) files else files in
  (files, missing r, accessErrors r).

Definition targetLabel (ins : Instance) : string := Join (Targets ins) ",".

(** ** Descriptions *)
Definition line (s : string) : string := "  " +:+ s +:+ newline.
Definition more (n shown : Z) (what : string) : string :=
  if shown <? n then "  ... and " +:+ itoa (n - shown) +:+ " more" +:+ what +:+ newline else "".

Definition appendAccessErrors (errs : list string) : string :=
  match errs with
  | [] => ""
  | _ =>
    newline +:+ itoa (zlen errs) +:+ " files could not be accessed:" +:+ newline
    +:+ concat_lines (map line (take 5 errs)) +:+ more (zlen errs) 5 ""
  end.
Definition listing (shown : list string) : string :=
  concat_lines (map line (take (Z.to_nat maxDisplayFiles) shown)) +:+ more (zlen shown) maxDisplayFiles " files".

(** ** The checks *)
Section checks.
Variable ins : Instance.

Definition base (check : string) : Event :=
  BuildEvent [attrs_of [("check", check); ("target", targetLabel ins)]].
Definition ok_event (check desc : string) : Event := SetDescription (SetEventStatus (base check) EventStatusOk) desc.

Definition checkExistence (missing accessErrors : list string) : Event :=
  if bool_decide (missing = []) && bool_decide (accessErrors = []) then ok_event "filecheck::existence" "all targets exist"
  else
    let threshold := ("threshold_desc", Existence ins +:+ ": target files missing") in
    let event :=
      SetAttrs (base "filecheck::existence")
        (attrs_of (if 0 <? zlen missing then [("missing_count", itoa (zlen missing)); threshold] else [threshold])) in
    SetDescription (SetEventStatus event (Existence ins))
      ((if 0 <? zlen missing then itoa (zlen missing) +:+ " targets missing:" +:+ newline +:+ concat_lines (map line missing) else "")
       +:+ appendAccessErrors accessErrors).

(** The files whose age matches, with their times, and the errors. *)
Fixpoint match_mtimes (v : View) (files : list string) : list (string * Z) * list string :=
  match files with
  | [] => ([], [])
  | fp :: files' =>
    let '(matched, errs) := match_mtimes v files' in
    match at_mtime v fp with
    | Failed err | NotExist err => (matched, (fp +:+ ": " +:+ err) :: errs)
    | Found _ _ mtime =>
      let age := time_sub (now v) mtime in
      let hit := if decide (Mode (Mtime ins) = "stale") then TimeSpan (Mtime ins) <? age else age <? TimeSpan (Mtime ins) in
      (if hit then (fp, mtime) :: matched else matched, errs)
    end
  end.

Variable zone : Z -> Z.

Definition checkMtime (v : View) (files : list string) : Event :=
  let '(matched, errs) := match_mtimes v files in
  let m := Mtime ins in
  let span := Duration_String (TimeSpan m) in
  match matched with
  | [] =>
    ok_event "filecheck::mtime"
      ((if decide (Mode m = "stale") then "all files updated within " +:+ span else "files not changed") +:+ appendAccessErrors errs)
  | _ =>
    let threshold :=
      if decide (Mode m = "changed") then m_Severity m +:+ ": file changed within " +:+ span
      else m_Severity m +:+ ": file not updated within " +:+ span in
    let event :=
      SetAttrs (base "filecheck::mtime")
        (attrs_of [("matched_count", itoa (zlen matched)); ("mode", Mode m); ("time_span", span); ("threshold_desc", threshold)]) in
    SetDescription (SetEventStatus event (m_Severity m))
      (itoa (zlen matched)
       +:+ (if decide (Mode m = "stale") then " files not updated for more than " else " files changed within ") +:+ span +:+ ":" +:+ newline
       +:+ listing (map (fun f => f.1 +:+ " (" +:+ FormatDateTime zone (f.2 / Second) +:+ ")") matched)
       +:+ appendAccessErrors errs)
  end.

Definition sha256File (v : View) (path : string) : res string string :=
  match contents v path with
  | Bad err => Bad err
  | Good s => Good (EncodeToString (sha256_Sum s))
  end.

(** What the check learns of a file: an error, nothing (it is too large), or
    its digest. *)
Definition read_digest (v : View) (fp : string) : res string (option string) :=
  match at_checksum v fp with
  | Failed err | NotExist err => Bad (fp +:+ ": " +:+ err)
  | Found _ size _ =>
    if MaxFileSize (Checksum ins) <? size then Good None
    else match sha256File v fp with Bad err => Bad (fp +:+ ": " +:+ err) | Good hash => Good (Some hash) end
  end.

(** The files that changed with their digests, the errors, [prevChecksums]. *)
Fixpoint compare_digests (v : View) (files : list string) (prev : gmap string string)
  : list (string * string) * list string * gmap string string :=
  match files with
  | [] => ([], [], prev)
  | fp :: files' =>
    match read_digest v fp with
    | Bad err => let '(changed, errs, prev) := compare_digests v files' prev in (changed, err :: errs, prev)
    | Good None => compare_digests v files' prev
    | Good (Some hash) =>
      let differs := match prev !! fp with Some old => negb (bool_decide (old = hash)) | None => false end in
      let '(changed, errs, prev) := compare_digests v files' (<[fp := hash]> prev) in
      (if differs then (fp, hash) :: changed else changed, errs, prev)
    end
  end.

Definition checksum_event (changed : list (string * string)) (errs : list string) : Event :=
  match changed with
  | [] => ok_event "filecheck::checksum" ("file checksums unchanged" +:+ appendAccessErrors errs)
  | _ =>
    let event :=
      SetAttrs (base "filecheck::checksum")
        (attrs_of [("changed_count", itoa (zlen changed)); ("threshold_desc", c_Severity (Checksum ins) +:+ ": file checksum changed")]) in
    SetDescription (SetEventStatus event (c_Severity (Checksum ins)))
      (itoa (zlen changed) +:+ " file checksums changed:" +:+ newline
       +:+ listing (map (fun f => f.1 +:+ " (sha256: " +:+ stake 16 f.2 +:+ "...)") changed)
       +:+ appendAccessErrors errs)
  end.

Definition checkChecksum (v : View) (files : list string) (prev : gmap string string) : Event * gmap string string :=
  let '(changed, errs, prev) := compare_digests v files prev in (checksum_event changed errs, prev).

Definition enabled (severity : string) : bool := negb (bool_decide (severity = "")).

(** The events, in order, and [prevChecksums] afterwards. *)
Definition Gather (v : View) (prev : gmap string string) : list Event * gmap string string :=
  let '(files, missing, accessErrors) := resolveTargets ins v in
  let e1 := if enabled (Existence ins) then [checkExistence missing accessErrors] else [] in
  let e2 := if enabled (m_Severity (Mtime ins)) then [checkMtime v files] else [] in
  if enabled (c_Severity (Checksum ins)) then
    let '(e3, prev) := checkChecksum v files prev in (e1 ++ e2 ++ [e3], prev)
  else (e1 ++ e2, prev).
End checks.

(** * Properties

    The files that are checked are the first ones that the targets stand for;
    a changed digest is reported by the gathering that reads it, once. *)
(** ** What the targets stand for *)

(** The files under a path. *)
Fixpoint leaves (path : string) (t : tree) : list string :=
  match t with
  | Leaf => [path]
  | Dir entries =>
    (fix entry_leaves (l : list (string * tree)) : list string :=
       match l with
       | [] => []
       | (name, t') :: l' => leaves (JoinPath [path; name]) t' ++ entry_leaves l'
       end) entries
  end.

Definition under (v : View) (dir : string) : list string := from_option (leaves dir) [] (at_tree v dir).
Definition match_files (v : View) (path : string) : list string :=
  match at_match v path with Found true _ _ => under v path | Found false _ _ => [path] | _ => [] end.
Definition target_files (v : View) (target : string) : list string :=
  match at_target v target with
  | Found true _ _ => under v target
  | Found false _ _ => [target]
  | Failed _ => []
  | NotExist _ =>
    if ContainsAny target "*?[" then concat (map (match_files v) (default [] (at_glob v target))) else []
  end.
Definition is_missing (v : View) (target : string) : bool :=
  match at_target v target with
  | NotExist _ => if ContainsAny target "*?[" then bool_decide (at_glob v target = Some []) else true
  | _ => false
  end.
Definition access_error (v : View) (target : string) : option string :=
  match at_target v target with Failed err => Some (target +:+ ": " +:+ err) | _ => None end.

(** Each path at its first place. *)
Definition add_all (l : list string) (f : found) : found := fold_left (fun f p => addUnique p f) l f.
Definition distinct (l : list string) : list string := (add_all l ([], ∅)).1.

Lemma add_all_app l k f : add_all (l ++ k) f = add_all k (add_all l f).
Proof. apply fold_left_app. Qed.

Lemma addUnique_grows p f : exists k, (addUnique p f).1 = f.1 ++ k.
Proof. unfold addUnique. case_bool_decide; [exists []; by rewrite app_nil_r|by exists [p]]. Qed.
Lemma add_all_grows l f : exists k, (add_all l f).1 = f.1 ++ k.
Proof.
  revert f. induction l as [|p l IH]; intros f; [exists []; by rewrite app_nil_r|].
  destruct (addUnique_grows p f) as [k1 E1]. destruct (IH (addUnique p f)) as [k2 E2].
  exists (k1 ++ k2). change (add_all (p :: l) f) with (add_all l (addUnique p f)). by rewrite E2, E1, app_assoc.
Qed.

(** [seen] is what was added, once. *)
Definition found_ok (f : found) : Prop := NoDup f.1 /\ forall p, p ∈ f.2 <-> p ∈ f.1.

Lemma addUnique_ok p f : found_ok f -> found_ok (addUnique p f).
Proof.
  intros [Hn Hs]. unfold addUnique. case_bool_decide as E; [done|]. split; cbn.
  - apply NoDup_app. split; [done|]. split; [|apply NoDup_singleton].
    intros x Hx H. apply list_elem_of_singleton in H as ->. apply E. by apply Hs.
  - intros q. rewrite elem_of_union, elem_of_singleton, Hs, elem_of_app, list_elem_of_singleton. tauto.
Qed.
Lemma add_all_ok l f : found_ok f -> found_ok (add_all l f).
Proof. revert f. induction l as [|p l IH]; intros f H; [done|]. apply IH. by apply addUnique_ok. Qed.

Lemma empty_ok : found_ok ([], ∅).
Proof. split; [constructor|]. intros p. cbn. set_solver. Qed.

Lemma addUnique_elem p q f : found_ok f -> q ∈ (addUnique p f).1 <-> q = p \/ q ∈ f.1.
Proof.
  intros [_ Hs]. unfold addUnique. case_bool_decide as E; cbn.
  - split; [by right|]. intros [->|?]; [by apply Hs|done].
  - rewrite elem_of_app, list_elem_of_singleton. tauto.
Qed.
Lemma add_all_elem l q f : found_ok f -> q ∈ (add_all l f).1 <-> q ∈ l \/ q ∈ f.1.
Proof.
  revert f. induction l as [|p l IH]; intros f Hf; [split; [by right|by intros [?%elem_of_nil|?]]|].
  change (add_all (p :: l) f) with (add_all l (addUnique p f)).
  rewrite IH by by apply addUnique_ok. rewrite addUnique_elem, elem_of_cons by done. tauto.
Qed.
Lemma distinct_elem l q : q ∈ distinct l <-> q ∈ l.
Proof. unfold distinct. rewrite add_all_elem by apply empty_ok. cbn. rewrite elem_of_nil. tauto. Qed.
Lemma distinct_NoDup l : NoDup (distinct l).
Proof. apply (add_all_ok l _ empty_ok). Qed.

(** ** Up to the limit, the code finds what the targets stand for *)
Definition limit : nat := Z.to_nat maxWalkFiles.

(** The same files, or more than the limit with the same first ones. *)
Definition agree (f g : found) : Prop :=
  f = g \/ (maxWalkFiles <= zlen f.1 /\ maxWalkFiles <= zlen g.1 /\ take limit f.1 = take limit g.1).

Lemma limit_Z : Z.of_nat limit = maxWalkFiles.
Proof. done. Qed.
#[local] Opaque limit.

Lemma take_grown (f g : found) : maxWalkFiles <= zlen f.1 -> (exists k, g.1 = f.1 ++ k) ->
  maxWalkFiles <= zlen g.1 /\ take limit g.1 = take limit f.1.
Proof.
  intros Hf [k ->]. rewrite zlen_app. pose proof (zlen_nonneg k). split; [lia|].
  pose proof limit_Z. unfold zlen in *. rewrite take_app_le by lia. done.
Qed.

Lemma agree_full_r f g l : agree f g -> maxWalkFiles <= zlen f.1 -> agree f (add_all l g).
Proof.
  intros Ha Hf. right. destruct Ha as [->|(H1 & H2 & H3)].
  - destruct (take_grown g _ Hf (add_all_grows l g)). split_and!; done.
  - destruct (take_grown g _ H2 (add_all_grows l g)) as [? E]. split_and!; [done..|]. by rewrite E.
Qed.

Lemma agree_addUnique p f g : agree f g -> agree (addUnique p f) (addUnique p g).
Proof.
  intros [->|(H1 & H2 & H3)]; [by left|]. right.
  destruct (take_grown f _ H1 (addUnique_grows p f)) as [? E1], (take_grown g _ H2 (addUnique_grows p g)) as [? E2].
  split_and!; [done..|]. by rewrite E1, E2.
Qed.

Lemma agree_visit p f g : agree f g ->
  agree (visit p false f).2 (addUnique p g) /\ ((visit p false f).1 = true -> maxWalkFiles <= zlen (visit p false f).2.1).
Proof.
  intros Ha. unfold visit. destruct (Z.leb_spec maxWalkFiles (zlen f.1)); cbn.
  - split; [|done]. by apply (agree_full_r f g [p]).
  - split; [by apply agree_addUnique|done].
Qed.

(** A walk finds the leaves; it ends early only at the limit. *)
Definition walks (path : string) (t : tree) : Prop := forall f g, agree f g ->
  agree (walk_tree path t f).2 (add_all (leaves path t) g) /\
  ((walk_tree path t f).1 = true -> maxWalkFiles <= zlen (walk_tree path t f).2.1).

Fixpoint tree_size (t : tree) : nat :=
  match t with
  | Leaf => 1
  | Dir entries =>
    S ((fix sizes (l : list (string * tree)) : nat := match l with [] => O | (_, t') :: l' => (tree_size t' + sizes l')%nat end) entries)
  end.
Lemma tree_size_pos t : (0 < tree_size t)%nat.
Proof. destruct t; cbn; lia. Qed.

Lemma walk_tree_agrees n : forall path t, (tree_size t <= n)%nat -> walks path t.
Proof.
  induction n as [|n IH]; intros path t Hn; [pose proof (tree_size_pos t); lia|].
  destruct t as [|entries]; intros f g Ha; [by apply agree_visit|]. cbn -[JoinPath]. cbn -[JoinPath] in Hn.
  apply le_S_n in Hn. revert f g Ha. induction entries as [|[name t] entries IHl]; intros f g Ha; [by split|].
  pose proof (tree_size_pos t). destruct (IH (JoinPath [path; name]) t ltac:(lia) f g Ha) as [H1 H2]. cbn -[JoinPath].
  destruct (walk_tree (JoinPath [path; name]) t f) as [stop f'] eqn:E. cbn [fst snd] in *.
  rewrite add_all_app. destruct stop.
  - split; [|auto]. apply agree_full_r; auto.
  - apply IHl; [|done]. lia.
Qed.

Lemma walkDir_agrees v dir f g : agree f g -> agree (walkDir v dir f) (add_all (under v dir) g).
Proof.
  intros Ha. unfold walkDir, under. destruct (at_tree v dir) as [t|]; [|done].
  by apply (walk_tree_agrees (tree_size t)).
Qed.

Lemma collectPath_agrees v path f g : agree f g -> agree (collectPath v f path) (add_all (match_files v path) g).
Proof.
  intros Ha. unfold collectPath, match_files. destruct (Z.leb_spec maxWalkFiles (zlen f.1)).
  - by apply agree_full_r.
  - destruct (at_match v path) as [[|] ? ?| |]; [by apply walkDir_agrees|by apply agree_addUnique|done..].
Qed.

Lemma collect_all_agrees v ms f g : agree f g ->
  agree (fold_left (collectPath v) ms f) (add_all (concat (map (match_files v) ms)) g).
Proof.
  revert f g. induction ms as [|m ms IH]; intros f g Ha; [done|]. cbn. rewrite add_all_app.
  apply IH. by apply collectPath_agrees.
Qed.

Lemma resolve_target_agrees v r target g : agree (r_found r) g ->
  let r' := resolve_target v r target in
  agree (r_found r') (add_all (target_files v target) g) /\
  missing r' = missing r ++ filter (fun t => is_missing v t = true) [target] /\
  accessErrors r' = accessErrors r ++ omap (access_error v) [target].
Proof.
  intros Ha. unfold resolve_target, target_files. cbn [omap list_omap]. unfold access_error.
  assert (filter (fun t => is_missing v t = true) [target] = if is_missing v target then [target] else []) as ->.
  { destruct (is_missing v target) eqn:E; [by rewrite filter_cons_True|]. by rewrite filter_cons_False by congruence. }
  unfold is_missing. destruct (at_target v target) as [[|] ? ?|err|err]; cbn; rewrite ?app_nil_r.
  - split_and!; [by apply walkDir_agrees|done..].
  - split_and!; [by apply agree_addUnique|done..].
  - destruct (ContainsAny target "*?["); [|done].
    destruct (at_glob v target) as [[|m ms]|]; cbn; rewrite ?app_nil_r; [done| |done].
    split_and!; [by apply (collect_all_agrees v (m :: ms))|done..].
  - done.
Qed.

Lemma resolve_all_agrees v targets r g : agree (r_found r) g ->
  let r' := fold_left (resolve_target v) targets r in
  agree (r_found r') (add_all (concat (map (target_files v) targets)) g) /\
  missing r' = missing r ++ filter (fun t => is_missing v t = true) targets /\
  accessErrors r' = accessErrors r ++ omap (access_error v) targets.
Proof.
  revert r g. induction targets as [|t targets IH]; intros r g Ha; [by rewrite !app_nil_r|].
  destruct (resolve_target_agrees v r t g Ha) as (H1 & H2 & H3). cbn [fold_left map concat]. rewrite add_all_app.
  destruct (IH _ _ H1) as (I1 & I2 & I3). split; [done|]. rewrite I2, I3, H2, H3, <- !app_assoc.
  change (t :: targets) with ([t] ++ targets). by rewrite filter_app, omap_app.
Qed.

(** C36: the files that are checked are the first 10000 distinct files that the
    targets stand for (themselves, the files under a directory, those that a
    pattern matches), in order; the missing targets are those that do not exist
    and, for patterns, match nothing; the errors are those of the targets that
    cannot be looked at. *)
Theorem resolveTargets_first_files ins v :
  resolveTargets ins v =
    (take limit (distinct (concat (map (target_files v) (Targets ins)))),
     filter (fun t => is_missing v t = true) (Targets ins), omap (access_error v) (Targets ins)).
Proof.
  unfold resolveTargets, resolve_all.
  destruct (resolve_all_agrees v (Targets ins) (mkResolved ([], ∅) [] []) ([], ∅) ltac:(by left)) as (H1 & -> & ->).
  cbn [missing accessErrors app]. f_equal. f_equal. fold (distinct (concat (map (target_files v) (Targets ins)))) in *.
  change (add_all ?l ([], ∅)).1 with (distinct l) in *. unfold distinct.
  set (g := add_all _ _) in *. set (f := r_found _) in *. clearbody f g. clear v ins. pose proof limit_Z as Hl.
  change (Z.to_nat maxWalkFiles) with limit. destruct (Z.ltb_spec maxWalkFiles (zlen f.1)) as [Hlt|Hle].
  - destruct H1 as [->|(_ & _ & H)]; done.
  - assert (take limit f.1 = f.1) as Hf by (apply take_ge; unfold zlen in *; lia).
    destruct H1 as [->|(_ & _ & H)]; [done|]. by rewrite <- H.
Qed.

Lemma resolved_NoDup ins v : NoDup (resolveTargets ins v).1.1.
Proof. rewrite resolveTargets_first_files. cbn. eapply sublist_NoDup; [apply distinct_NoDup|apply sublist_take]. Qed.

(** ** Digests over the gatherings *)

(** The digest that a gathering reads of a file. *)
Definition reading (ins : Instance) (v : View) (fp : string) : option string :=
  if bool_decide (fp ∈ (resolveTargets ins v).1.1) then
    match read_digest ins v fp with Good d => d | Bad _ => None end
  else None.

(** The last one that was read. *)
Fixpoint last_reading (ins : Instance) (vs : list View) (fp : string) : option string :=
  match vs with
  | [] => None
  | v :: vs' => match last_reading ins vs' fp with Some d => Some d | None => reading ins v fp end
  end.

Definition remembered (ins : Instance) (zone : Z -> Z) (vs : list View) : gmap string string :=
  fold_left (fun prev v => (Gather ins zone v prev).2) vs ∅.

Definition digest_in (ins : Instance) (v : View) (files : list string) (fp : string) : option string :=
  if bool_decide (fp ∈ files) then match read_digest ins v fp with Good d => d | Bad _ => None end else None.

Lemma digest_in_cons ins v fp files q : fp ∉ files ->
  digest_in ins v (fp :: files) q =
    if decide (q = fp) then match read_digest ins v fp with Good d => d | Bad _ => None end
    else digest_in ins v files q.
Proof.
  intros Hn. unfold digest_in. destruct (decide (q = fp)) as [->|Hq]; [by rewrite bool_decide_eq_true_2 by set_solver|].
  destruct (decide (q ∈ files)); [by rewrite !bool_decide_eq_true_2 by set_solver|by rewrite !bool_decide_eq_false_2 by set_solver].
Qed.

Lemma compare_digests_spec ins v files prev changed errs prev' : NoDup files ->
  compare_digests ins v files prev = (changed, errs, prev') ->
  (forall fp, prev' !! fp = match digest_in ins v files fp with Some d => Some d | None => prev !! fp end) /\
  (forall fp h, (fp, h) ∈ changed <-> digest_in ins v files fp = Some h /\ exists old, prev !! fp = Some old /\ old <> h).
Proof.
  intros Hn. revert prev changed errs prev'. induction Hn as [|f files Hf Hn IH]; intros prev changed errs prev'.
  { intros [= <- <- <-]. split; [done|]. intros fp h. split; [by intros ?%elem_of_nil|by intros [? _]]. }
  cbn [compare_digests]. destruct (read_digest ins v f) as [[hash|]|err] eqn:Er.
  - destruct (compare_digests ins v files (<[f:=hash]> prev)) as [[c e] p] eqn:Ec. intros [= <- <- <-].
    destruct (IH _ _ _ _ Ec) as [H1 H2].
    assert (digest_in ins v files f = None) as Hd by (unfold digest_in; by rewrite bool_decide_eq_false_2).
    split.
    + intros fp. rewrite H1, digest_in_cons by done. rewrite Er. destruct (decide (fp = f)) as [->|Hne].
      * by rewrite Hd, lookup_insert_eq.
      * by rewrite lookup_insert_ne by done.
    + intros fp h. rewrite digest_in_cons by done. rewrite Er.
      assert ((fp, h) ∈ c <-> fp <> f /\ digest_in ins v files fp = Some h /\ exists old, prev !! fp = Some old /\ old <> h) as Hc.
      { rewrite H2. destruct (decide (fp = f)) as [->|Hne]; [rewrite Hd; naive_solver|]. rewrite lookup_insert_ne by done. naive_solver. }
      destruct (prev !! f) as [old|] eqn:Eo; [case_bool_decide as Eh; cbn|]; rewrite ?elem_of_cons, Hc;
        destruct (decide (fp = f)) as [->|Hne]; naive_solver.
  - intros Hc. destruct (IH _ _ _ _ Hc) as [H1 H2].
    assert (digest_in ins v files f = None) as Hd by (unfold digest_in; by rewrite bool_decide_eq_false_2).
    split; [intros fp; rewrite H1|intros fp h; rewrite H2]; rewrite digest_in_cons, Er by done;
      destruct (decide (fp = f)) as [->|Hne]; rewrite ?Hd; done.
  - destruct (compare_digests ins v files prev) as [[c e] p] eqn:Ec. intros [= <- <- <-].
    destruct (IH _ _ _ _ Ec) as [H1 H2].
    assert (digest_in ins v files f = None) as Hd by (unfold digest_in; by rewrite bool_decide_eq_false_2).
    split; [intros fp; rewrite H1|intros fp h; rewrite H2]; rewrite digest_in_cons, Er by done;
      destruct (decide (fp = f)) as [->|Hne]; rewrite ?Hd; done.
Qed.

(** The third event of a gathering with the check of the contents. *)
Lemma Gather_checksum ins zone v prev : c_Severity (Checksum ins) <> "" ->
  exists changed errs prev', compare_digests ins v (resolveTargets ins v).1.1 prev = (changed, errs, prev') /\
    last (Gather ins zone v prev).1 = Some (checksum_event ins changed errs) /\ (Gather ins zone v prev).2 = prev'.
Proof.
  intros Hc. unfold Gather, enabled, checkChecksum. destruct (resolveTargets ins v) as [[files m] a] eqn:E. cbn [fst].
  rewrite (bool_decide_eq_false_2 (_ = "")) by done. cbn [negb].
  destruct (compare_digests ins v files prev) as [[changed errs] prev'] eqn:Ec.
  exists changed, errs, prev'. split; [done|]. cbn [fst snd]. split; [|done]. by rewrite app_assoc, last_snoc.
Qed.

Lemma remembered_last ins zone vs fp : c_Severity (Checksum ins) <> "" ->
  remembered ins zone vs !! fp = last_reading ins vs fp.
Proof.
  intros Hc. unfold remembered. assert (forall prev,
    fold_left (fun prev v => (Gather ins zone v prev).2) vs prev !! fp =
    match last_reading ins vs fp with Some d => Some d | None => prev !! fp end) as H.
  { induction vs as [|v vs IH]; intros prev; [done|]. cbn [fold_left last_reading]. rewrite IH.
    destruct (Gather_checksum ins zone v prev Hc) as (changed & errs & prev' & Ec & _ & ->).
    destruct (last_reading ins vs fp); [done|].
    destruct (compare_digests_spec _ _ _ _ _ _ _ (resolved_NoDup ins v) Ec) as [-> _]. done. }
  rewrite H. destruct (last_reading ins vs fp); [done|]. apply lookup_empty.
Qed.

(** C37: after any gatherings, the next one reports in its last event exactly
    the files whose digest it reads and finds other than the last one read,
    however long ago; the event is an alert when there is such a file, and is
    otherwise a recovery. *)
Theorem changed_contents_are_reported ins zone vs v (Hc : c_Severity (Checksum ins) <> "") :
  exists changed errs,
    last (Gather ins zone v (remembered ins zone vs)).1 = Some (checksum_event ins changed errs) /\
    EventStatus (checksum_event ins changed errs) =
      (if decide (changed = []) then EventStatusOk else c_Severity (Checksum ins)) /\
    (forall fp h, (fp, h) ∈ changed <->
       reading ins v fp = Some h /\ exists old, last_reading ins vs fp = Some old /\ old <> h).
Proof.
  destruct (Gather_checksum ins zone v (remembered ins zone vs) Hc) as (changed & errs & prev' & Ec & El & _).
  exists changed, errs. split; [done|]. split; [by destruct changed|].
  intros fp h. destruct (compare_digests_spec _ _ _ _ _ _ _ (resolved_NoDup ins v) Ec) as [_ H].
  rewrite H, remembered_last by done. done.
Qed.

(** ** Times *)

(** The files that the check of the times reports are those that it can
    look at and whose age is on the wrong side of the span: in the mode stale the
    older ones, else the younger ones. *)
Definition mtime_hit (ins : Instance) (v : View) (fp : string) (mtime : Z) : Prop :=
  (exists isDir size, at_mtime v fp = Found isDir size mtime) /\
  let age := time_sub (now v) mtime in
  if decide (Mode (Mtime ins) = "stale") then TimeSpan (Mtime ins) < age else age < TimeSpan (Mtime ins).

Lemma match_mtimes_spec ins v files fp mtime :
  (fp, mtime) ∈ (match_mtimes ins v files).1 <-> fp ∈ files /\ mtime_hit ins v fp mtime.
Proof.
  induction files as [|f files IH]; cbn.
  { split; [by intros ?%elem_of_nil|by intros [?%elem_of_nil _]]. }
  destruct (match_mtimes ins v files) as [matched errs]. cbn in IH. rewrite elem_of_cons.
  assert (forall t b s, at_mtime v f = Found b s t -> mtime_hit ins v f mtime -> t = mtime) as Hf.
  { intros t b s E [(b' & s' & E') _]. rewrite E in E'. congruence. }
  destruct (at_mtime v f) as [b s t|err|err] eqn:E; cbn.
  - assert ((if decide (Mode (Mtime ins) = "stale") then TimeSpan (Mtime ins) <? time_sub (now v) t
            else time_sub (now v) t <? TimeSpan (Mtime ins)) = true <-> mtime_hit ins v f t) as Hh.
    { unfold mtime_hit. rewrite E. case_decide; rewrite Z.ltb_lt; naive_solver. }
    destruct (if decide _ then _ else _).
    + rewrite elem_of_cons, IH. split.
      * intros [[= -> ->]|[Hin H]]; [split; [by left|by apply Hh]|tauto].
      * intros [[->|Hin] H]; [|tauto]. left. f_equal. symmetry. eapply Hf; done.
    + rewrite IH. split; [tauto|]. intros [[->|Hin] H]; [|tauto].
      assert (t = mtime) as -> by (eapply Hf; done). by apply Hh in H.
  - rewrite IH. split; [tauto|]. intros [[->|Hin] H]; [|tauto]. destruct H as [(? & ? & E') _]. by rewrite E in E'.
  - rewrite IH. split; [tauto|]. intros [[->|Hin] H]; [|tauto]. destruct H as [(? & ? & E') _]. by rewrite E in E'.
Qed.

(** the event on the times is an alert exactly when a resolved file is on
    the wrong side of the span (older in the mode stale, else younger); those
    that cannot be looked at do not count. *)
Theorem checkMtime_status ins zone v files :
  EventStatus (checkMtime ins zone v files) = EventStatusOk /\ (forall fp mtime, fp ∈ files -> ~ mtime_hit ins v fp mtime) \/
  EventStatus (checkMtime ins zone v files) = m_Severity (Mtime ins) /\ (exists fp mtime, fp ∈ files /\ mtime_hit ins v fp mtime).
Proof.
  unfold checkMtime. pose proof (match_mtimes_spec ins v files) as H.
  destruct (match_mtimes ins v files) as [[|[fp t] matched] errs]; cbn in H.
  - left. split; [done|]. intros fp mtime Hf Hh. pose proof (proj2 (H fp mtime) (conj Hf Hh)) as Hn. by apply elem_of_nil in Hn.
  - right. split; [done|]. exists fp, t. apply H. by left.
Qed.

(** ** What is pushed *)

Create HintDb filecheck.
Lemma alert_event_of ins check desc status attrs :
  event_of (targetLabel ins) check (SetDescription (SetEventStatus (SetAttrs (base ins check) attrs) status) desc).
Proof. done. Qed.
Lemma ok_event_of ins check desc : event_of (targetLabel ins) check (ok_event ins check desc).
Proof. done. Qed.
#[local] Hint Resolve alert_event_of ok_event_of : filecheck.

Definition checks_of (ins : Instance) : list string :=
  (if enabled (Existence ins) then ["filecheck::existence"] else []) ++
  (if enabled (m_Severity (Mtime ins)) then ["filecheck::mtime"] else []) ++
  (if enabled (c_Severity (Checksum ins)) then ["filecheck::checksum"] else []).

Lemma Gather_events ins zone v prev : events_of (targetLabel ins) (checks_of ins) (Gather ins zone v prev).1.
Proof.
  unfold Gather, checks_of, checkChecksum. destruct (resolveTargets ins v) as [[files m] a].
  assert (event_of (targetLabel ins) "filecheck::existence" (checkExistence ins m a)) as He.
  { unfold checkExistence. destruct (_ && _); auto with filecheck. }
  assert (event_of (targetLabel ins) "filecheck::mtime" (checkMtime ins zone v files)) as Hm.
  { unfold checkMtime. destruct (match_mtimes ins v files) as [[] ?]; auto with filecheck. }
  assert (forall c e, event_of (targetLabel ins) "filecheck::checksum" (checksum_event ins c e)) as Hs.
  { intros [] e; unfold checksum_event; auto with filecheck. }
  unfold events_of. destruct (enabled (Existence ins)), (enabled (m_Severity (Mtime ins))), (enabled (c_Severity (Checksum ins)));
    try destruct (compare_digests ins v files prev) as [[c e] p]; cbn; repeat constructor; first [apply He|apply Hm|apply Hs].
Qed.

(** ** Departures *)

(** A directory that is given through a symbolic link is not walked: the root of
    a walk is looked at without following it, so the link itself is taken for a
    file, whose contents can then not be read. *)
Theorem linked_directory_is_taken_for_a_file ins zone v prev dir size mtime err
    (Ht : Targets ins = [dir]) (Hd : at_target v dir = Found true size mtime) (Hl : at_tree v dir = Some Leaf)
    (Hs : at_checksum v dir = Found true size mtime) (Hr : contents v dir = Bad err)
    (He : Existence ins = "") (Hm : m_Severity (Mtime ins) = "") (Hc : c_Severity (Checksum ins) <> "")
    (Hz : size <= MaxFileSize (Checksum ins)) :
  (resolveTargets ins v).1.1 = [dir] /\
  Gather ins zone v prev = ([checksum_event ins [] [dir +:+ ": " +:+ err]], prev).
Proof.
  assert (resolveTargets ins v = ([dir], [], [])) as E.
  { unfold resolveTargets, resolve_all. rewrite Ht. cbn. unfold resolve_target. rewrite Hd. unfold walkDir. by rewrite Hl. }
  rewrite E. split; [done|]. unfold Gather, enabled, checkChecksum. rewrite E, He, Hm, (bool_decide_eq_false_2 (c_Severity _ = "")) by done.
  cbn [compare_digests]. unfold read_digest, sha256File. rewrite Hs, Hr, (proj2 (Z.ltb_ge _ _)) by done. done.
Qed.

(** A pattern that cannot be read is neither missing nor an error: the
    existence of the targets is confirmed. *)
Theorem bad_pattern_passes_for_existing ins v pattern err (Ht : Targets ins = [pattern])
    (Hn : at_target v pattern = NotExist err) (Hp : ContainsAny pattern "*?[" = true) (Hg : at_glob v pattern = None) :
  resolveTargets ins v = ([], [], []) /\
  (let '(_, missing, errors) := resolveTargets ins v in checkExistence ins missing errors) = ok_event ins "filecheck::existence" "all targets exist".
Proof.
  assert (resolveTargets ins v = ([], [], [])) as ->; [|done].
  unfold resolveTargets, resolve_all. rewrite Ht. cbn. unfold resolve_target. by rewrite Hn, Hp, Hg.
Qed.

(** ** Witnesses *)

Definition demo_view (target : string) (text : string) : View :=
  mkView (fun p => if decide (p = target) then Found false (slen text) 0 else NotExist "file does not exist")
    (fun _ => None) (fun _ => NotExist "") (fun _ => None)
    (fun _ => Found false (slen text) 0) (fun _ => Found false (slen text) 0) (fun _ => Good text) 0.
Definition demo_ins (target : string) : Instance :=
  mkInstance [target] (mkMtime "" "" 0) (mkChecksum "Critical" 1000) "".

Example changed_once :
  let gather text prev := Gather (demo_ins "/etc/x") (fun _ => 0) (demo_view "/etc/x" text) prev in
  let s1 := gather "a" ∅ in let s2 := gather "b" s1.2 in let s3 := gather "b" s2.2 in
  map EventStatus (s1.1 ++ s2.1 ++ s3.1) = ["Ok"; "Critical"; "Ok"].
Proof. vm_compute. reflexivity. Qed.

Lemma changed_contents_are_reported_witness : exists changed errs,
  last (Gather (demo_ins "/etc/x") (fun _ => 0) (demo_view "/etc/x" "b")
          (remembered (demo_ins "/etc/x") (fun _ => 0) [demo_view "/etc/x" "a"])).1
    = Some (checksum_event (demo_ins "/etc/x") changed errs).
Proof.
  destruct (changed_contents_are_reported (demo_ins "/etc/x") (fun _ => 0) [demo_view "/etc/x" "a"] (demo_view "/etc/x" "b"))
    as (changed & errs & H & _); [discriminate|]. by exists changed, errs.
Defined.
