(* ===== verification/Netif.v ===== *)
(** * The network interface check (plugins/netif/netif.go)

    Growth of the error and drop counters of each interface, and the state of
    the links that should be up.  What a gathering sees under [/sys/class/net]
    is an argument; what is kept is the counters of the last gathering. *)
From S2P Require Import Prelude GoStr GoLib Types GoFmt GoConv GoGlob Pushing PluginConfig.
#[local] Open Scope Z_scope.
#[local] Open Scope go_scope.

Definition sysClassNet : string := "/sys/class/net".

(** ** Settings *)
Record DeltaCheck := mkDelta { WarnGe : f64; CriticalGe : f64 }.
Record LinkSpec := mkLink { Interface : string; Severity : string }.
Record Settings := mkSettings {
  Include : list string; Exclude : list string; Errors : DeltaCheck; Drops : DeltaCheck; LinkUp : list LinkSpec
}.

Record ifCounters := mkCounters { rxErrors : Z; txErrors : Z; rxDropped : Z; txDropped : Z }.

Record Instance := mkInstance {
  cfg : Settings; hasErrorCheck : bool; hasDropCheck : bool;
  prevCounters : gmap string ifCounters; initialized : bool
}.

Section init.
Variable is_print : Z -> bool.

Definition validateDeltaCheck (name : string) (dc : DeltaCheck) : option string :=
  if SFltb (WarnGe dc) f64_zero then Some (name +:+ ".warn_ge must be >= 0 (got " +:+ FormatFixed 1 (WarnGe dc) +:+ ")")
  else if SFltb (CriticalGe dc) f64_zero then Some (name +:+ ".critical_ge must be >= 0 (got " +:+ FormatFixed 1 (CriticalGe dc) +:+ ")")
  else if f64_pos (WarnGe dc) && f64_pos (CriticalGe dc) && SFleb (CriticalGe dc) (WarnGe dc)
  then Some (name +:+ ".warn_ge(" +:+ FormatFixed 1 (WarnGe dc) +:+ ") must be less than "
             +:+ name +:+ ".critical_ge(" +:+ FormatFixed 1 (CriticalGe dc) +:+ ")")
  else None.

Definition normalizeSeverity (s : string) : res string string := normalize_severity is_print EventStatusCritical s.

(** The links, normalized, with the place [i] of the first one. *)
Fixpoint init_links (i : Z) (seen : gset string) (links : list LinkSpec) : res string (list LinkSpec) :=
  match links with
  | [] => Good []
  | l :: links' =>
    let name := TrimSpace (Interface l) in
    if decide (name = "") then Bad ("link_up[" +:+ itoa i +:+ "].interface must not be empty")
    else if bool_decide (name ∈ seen) then Bad ("duplicate link_up interface: " +:+ name)
    else
      match normalizeSeverity (Severity l) with
      | Bad err => Bad ("link_up[" +:+ itoa i +:+ "] (" +:+ name +:+ "): " +:+ err)
      | Good sev =>
        match init_links (i + 1) ({[name]} ∪ seen) links' with
        | Bad err => Bad err
        | Good l' => Good (mkLink name sev :: l')
        end
      end
  end.

Fixpoint bad_pattern (kind : string) (pats : list string) : option string :=
  match pats with
  | [] => None
  | pat :: pats' =>
    match Match pat "test" with
    | None => Some ("invalid " +:+ kind +:+ " glob pattern " +:+ Quote is_print pat +:+ ": syntax error in pattern")
    | Some _ => bad_pattern kind pats'
    end
  end.

Definition enabled (dc : DeltaCheck) : bool := f64_pos (WarnGe dc) || f64_pos (CriticalGe dc).

Definition Init (goos : string) (s : Settings) : res string Instance :=
  if negb (bool_decide (goos = "linux")) then Bad ("netif plugin only supports linux (current: " +:+ goos +:+ ")")
  else if negb (enabled (Errors s)) && negb (enabled (Drops s)) && bool_decide (LinkUp s = [])
  then Bad "at least one check must be configured (errors, drops, or link_up)"
  else
    match validateDeltaCheck "errors" (Errors s) with
    | Some err => Bad err
    | None =>
      match validateDeltaCheck "drops" (Drops s) with
      | Some err => Bad err
      | None =>
        match init_links 0 ∅ (LinkUp s) with
        | Bad err => Bad err
        | Good links =>
          match bad_pattern "include" (Include s) with
          | Some err => Bad err
          | None =>
            match bad_pattern "exclude" (Exclude s) with
            | Some err => Bad err
            | None =>
              Good (mkInstance (mkSettings (Include s) (Exclude s) (Errors s) (Drops s) links)
                      (enabled (Errors s)) (enabled (Drops s)) ∅ false)
            end
          end
        end
      end
    end.
End init.

(** ** What is seen of the system *)

(** The entries of the directory, and the files by their paths. *)
Record View := mkView { entries : res string (list string); read_file : string -> file }.

Section view.
Variable is_print : Z -> bool.
Variable v : View.

(** A number, or the error: whether it is that the file does not exist. *)
Definition readUint64File (path : string) : res (bool * string) Z :=
  match read_file v path with
  | Absent err => Bad (true, err)
  | Unreadable err => Bad (false, err)
  | Text s =>
    match ParseUint (TrimSpace s) with
    | Good n => Good n
    | Bad err => Bad (false, NumError is_print "ParseUint" (TrimSpace s) err)
    end
  end.

(** The counter files in the order in which they are read: an interface that has
    gone has no counters and no error. *)
Fixpoint read_counters (base : string) (names : list string) : res string (option (list Z)) :=
  match names with
  | [] => Good (Some [])
  | name :: names' =>
    match readUint64File (JoinPath [base; name]) with
    | Bad (true, _) => Good None
    | Bad (false, err) => Bad err
    | Good n =>
      match read_counters base names' with
      | Good (Some l) => Good (Some (n :: l))
      | r => r
      end
    end
  end.
Definition defaultReadCounters (iface : string) : res string (option ifCounters) :=
  match read_counters (JoinPath [sysClassNet; iface; "statistics"]) ["rx_errors"; "tx_errors"; "rx_dropped"; "tx_dropped"] with
  | Bad err => Bad err
  | Good (Some [a; b; c; d]) => Good (Some (mkCounters a b c d))
  | Good _ => Good None
  end.

Definition defaultReadOperstate (iface : string) : res string string :=
  match read_file v (JoinPath [sysClassNet; iface; "operstate"]) with
  | Absent _ => Good "not_found"
  | Unreadable err => Bad err
  | Text s => Good (TrimSpace s)
  end.

(** An error of a pattern counts as no match. *)
Definition matchAny (name : string) (patterns : list string) : bool :=
  existsb (fun pat => default false (Match pat name)) patterns.
Definition applyFilter (ifaces include exclude : list string) : list string :=
  filter (fun iface => (bool_decide (include = []) || matchAny iface include) && negb (matchAny iface exclude) = true) ifaces.

(** The counters that can be read. *)
Definition current_counters (ifaces : list string) : gmap string ifCounters :=
  fold_left (fun m iface => match defaultReadCounters iface with Good (Some c) => <[iface := c]> m | _ => m end) ifaces ∅.
End view.

(** ** Events *)
Definition safeDelta (current prev : Z) : Z := if prev <=? current then u64 (current - prev) else 0.

Definition deltaOf (currRx prevRx currTx prevTx : Z) : Z := u64 (safeDelta currRx prevRx + safeDelta currTx prevTx).

Definition threshold_parts (dc : DeltaCheck) : list string :=
  (if f64_pos (WarnGe dc) then ["Warning ≥ " +:+ FormatFixed 0 (WarnGe dc)] else [])
  ++ (if f64_pos (CriticalGe dc) then ["Critical ≥ " +:+ FormatFixed 0 (CriticalGe dc)] else []).

Definition emitDeltaEvent (checkLabel kind iface : string) (dc : DeltaCheck) (currRx prevRx currTx prevTx : Z) : Event :=
  let rxDelta := safeDelta currRx prevRx in
  let txDelta := safeDelta currTx prevTx in
  let delta := u64 (rxDelta + txDelta) in
  let total := u64 (currRx + currTx) in
  let event :=
    SetAttrs (BuildEvent [attrs_of [("check", checkLabel); ("target", iface)]])
      (attrs_of [("delta", itoa delta); ("rx", itoa rxDelta); ("tx", itoa txDelta); ("total", itoa total)]) in
  let event := thresholds_attr (threshold_parts dc) (SetCurrentValue event (itoa delta)) in
  let status := EvaluateGeThreshold (f64_of_Z delta) (WarnGe dc) (CriticalGe dc) in
  let grown (which : string) (t : f64) :=
    iface +:+ " has " +:+ itoa delta +:+ " new " +:+ kind +:+ " since last check (rx: " +:+ itoa rxDelta
    +:+ ", tx: " +:+ itoa txDelta +:+ ", total: " +:+ itoa total +:+ "), above " +:+ which +:+ " threshold " +:+ FormatFixed 0 t in
  SetDescription (SetEventStatus event status)
    (if decide (status = EventStatusCritical) then grown "critical" (CriticalGe dc)
     else if decide (status = EventStatusWarning) then grown "warning" (WarnGe dc)
     else iface +:+ " no new " +:+ kind +:+ " (total: " +:+ itoa total +:+ ")").

Definition errors_event (dc : DeltaCheck) (iface : string) (prev curr : ifCounters) : Event :=
  emitDeltaEvent "netif::errors" "errors" iface dc (rxErrors curr) (rxErrors prev) (txErrors curr) (txErrors prev).
Definition drops_event (dc : DeltaCheck) (iface : string) (prev curr : ifCounters) : Event :=
  emitDeltaEvent "netif::drops" "drops" iface dc (rxDropped curr) (rxDropped prev) (txDropped curr) (txDropped prev).

Definition gatherLink (v : View) (spec : LinkSpec) : Event :=
  let iface := Interface spec in
  let event := BuildEvent [attrs_of [("check", "netif::link"); ("target", iface)]] in
  match defaultReadOperstate v iface with
  | Bad err => critical event ("failed to read " +:+ iface +:+ " operstate: " +:+ err)
  | Good operstate =>
    let event :=
      set_attr "threshold_desc" (Severity spec +:+ ": link ≠ up")
        (SetCurrentValue (SetAttrs event (attrs_of [("operstate", operstate); ("expect", "up")])) operstate) in
    if decide (operstate = "not_found") then
      SetDescription (SetEventStatus event (Severity spec)) (iface +:+ " interface not found")
    else if decide (operstate = "up" \/ operstate = "unknown") then
      SetDescription (SetEventStatus event EventStatusOk) (iface +:+ " link is up")
    else
      SetDescription (SetEventStatus event (Severity spec)) (iface +:+ " link is not ready (operstate: " +:+ operstate +:+ ")")
  end.

Section gather.
Variable is_print : Z -> bool.
(** The order in which a map is visited. *)
Variable visit : gmap string ifCounters -> list (string * ifCounters).

Definition with_counters (m : gmap string ifCounters) (ins : Instance) : Instance :=
  mkInstance (cfg ins) (hasErrorCheck ins) (hasDropCheck ins) m true.

(** The events of one interface: none when it has no earlier counters. *)
Definition iface_events (ins : Instance) (x : string * ifCounters) : list Event :=
  let '(iface, curr) := x in
  match prevCounters ins !! iface with
  | None => []
  | Some prev =>
    (if hasErrorCheck ins then [errors_event (Errors (cfg ins)) iface prev curr] else [])
    ++ (if hasDropCheck ins then [drops_event (Drops (cfg ins)) iface prev curr] else [])
  end.

Definition gatherErrorsAndDrops (v : View) (ins : Instance) : list Event * Instance :=
  match entries v with
  | Bad _ => ([], ins)
  | Good allIfaces =>
    let curr := current_counters is_print v (applyFilter allIfaces (Include (cfg ins)) (Exclude (cfg ins))) in
    if initialized ins then (concat (map (iface_events ins) (visit curr)), with_counters curr ins)
    else ([], with_counters curr ins)
  end.

Definition Gather (v : View) (ins : Instance) : list Event * Instance :=
  let '(evs, ins) := if hasErrorCheck ins || hasDropCheck ins then gatherErrorsAndDrops v ins else ([], ins) in
  (evs ++ map (gatherLink v) (LinkUp (cfg ins)), ins).

(** Gatherings one after another. *)
Fixpoint Gathers (vs : list View) (ins : Instance) : list Event * Instance :=
  match vs with
  | [] => ([], ins)
  | v :: vs' => let '(e1, ins) := Gather v ins in let '(e2, ins) := Gathers vs' ins in (e1 ++ e2, ins)
  end.
End gather.

(** * Properties

    Accepted settings are sound; each interface and link is reported once per
    gathering; the growth of a counter is reported once over the gatherings. *)
(** ** Settings *)
Definition sound_delta (dc : DeltaCheck) : Prop :=
  SFltb (WarnGe dc) f64_zero = false /\ SFltb (CriticalGe dc) f64_zero = false /\
  (f64_pos (WarnGe dc) = true -> f64_pos (CriticalGe dc) = true -> SFleb (CriticalGe dc) (WarnGe dc) = false).

Lemma validateDeltaCheck_ok name dc : validateDeltaCheck name dc = None -> sound_delta dc.
Proof.
  unfold validateDeltaCheck, sound_delta. destruct (SFltb (WarnGe dc) f64_zero); [done|].
  destruct (SFltb (CriticalGe dc) f64_zero); [done|]. destruct (f64_pos (WarnGe dc)), (f64_pos (CriticalGe dc)); cbn; try done.
  by destruct (SFleb _ _).
Qed.

Definition sound_link (l : LinkSpec) : Prop :=
  Interface l <> "" /\ alerting (Severity l).

Lemma init_links_ok is_print i seen links l : init_links is_print i seen links = Good l ->
  Forall sound_link l /\ NoDup (map Interface l) /\ (forall x, x ∈ seen -> x ∉ map Interface l) /\ length l = length links.
Proof.
  revert i seen l. induction links as [|k links IH]; intros i seen l; cbn [init_links].
  { intros [= <-]. split_and!; [done|constructor| |done]. by intros x _ ?%elem_of_nil. }
  case_decide as Hne; [done|]. case_bool_decide as Hs; [done|].
  destruct (normalizeSeverity is_print (Severity k)) as [sev|] eqn:Hv; [|done]. apply normalize_severity_ok in Hv. destruct (init_links is_print (i + 1) _ links) as [l'|] eqn:E; [|done].
  intros [= <-]. destruct (IH _ _ _ E) as (H1 & H2 & H3 & H4). cbn [map Interface]. split_and!.
  - by constructor.
  - constructor; [|done]. apply H3. set_solver.
  - intros x Hx. rewrite not_elem_of_cons. split; [set_solver|]. apply H3. set_solver.
  - cbn. by rewrite H4.
Qed.

Lemma bad_pattern_ok is_print kind pats : bad_pattern is_print kind pats = None ->
  Forall (fun p => forall name, is_Some (Match p name)) pats.
Proof.
  induction pats as [|p pats IH]; cbn; [done|]. destruct (Match p "test") as [b|] eqn:E; [|done].
  intros H. constructor; [|auto]. intros name. apply (Match_ok_any p "test"). by rewrite E.
Qed.

(** settings that are accepted are sound: a check is enabled or a link is
    given, thresholds are not negative and a warning threshold is below the
    critical one, links have distinct non-empty names and a severity that
    alerts, and no pattern fails on any interface name, which is why the errors
    of matching can be ignored later on. *)
Theorem Init_accepts_sound is_print goos s ins (H : Init is_print goos s = Good ins) :
  (hasErrorCheck ins = true \/ hasDropCheck ins = true \/ LinkUp (cfg ins) <> []) /\
  sound_delta (Errors (cfg ins)) /\ sound_delta (Drops (cfg ins)) /\
  Forall sound_link (LinkUp (cfg ins)) /\ NoDup (map Interface (LinkUp (cfg ins))) /\
  Forall (fun p => forall name, is_Some (Match p name)) (Include (cfg ins) ++ Exclude (cfg ins)) /\
  initialized ins = false /\ prevCounters ins = ∅.
Proof.
  revert H. unfold Init. case_bool_decide; [|done]. cbn [negb].
  destruct (negb _ && negb _ && _) eqn:Ee; [done|].
  destruct (validateDeltaCheck "errors" (Errors s)) eqn:E1; [done|]. destruct (validateDeltaCheck "drops" (Drops s)) eqn:E2; [done|].
  destruct (init_links is_print 0 ∅ (LinkUp s)) as [links|] eqn:E3; [|done].
  destruct (bad_pattern is_print "include" (Include s)) eqn:E4; [done|]. destruct (bad_pattern is_print "exclude" (Exclude s)) eqn:E5; [done|].
  intros [= <-]. cbn [cfg hasErrorCheck hasDropCheck prevCounters initialized LinkUp Errors Drops Include Exclude].
  apply init_links_ok in E3 as (? & ? & _ & Hlen). split_and!; try done.
  - destruct (enabled (Errors s)); [by left|]. destruct (enabled (Drops s)); [by auto|]. right; right.
    cbn in Ee. case_bool_decide as Hl; [done|]. intros ->. by destruct (LinkUp s).
  - by eapply validateDeltaCheck_ok.
  - by eapply validateDeltaCheck_ok.
  - apply Forall_app. split; by eapply bad_pattern_ok.
Qed.

(** ** One gathering *)
Section gather.
Variable is_print : Z -> bool.
Variable visit : gmap string ifCounters -> list (string * ifCounters).
Hypothesis visit_all : forall m, visit m ≡ₚ map_to_list m.

Lemma visit_NoDup m : NoDup (visit m).*1.
Proof. rewrite visit_all. apply NoDup_fst_map_to_list. Qed.
Lemma visit_map m : list_to_map (visit m) = m.
Proof. rewrite <- (list_to_map_to_list m) at 2. apply list_to_map_proper; [apply visit_NoDup|apply visit_all]. Qed.

(** The label pairs of an event. *)
Definition key_of (e : Event) : string * string := (check_of e, target_of e).

Lemma errors_event_key dc iface p c : key_of (errors_event dc iface p c) = ("netif::errors", iface).
Proof. unfold errors_event, emitDeltaEvent, thresholds_attr. by case_decide. Qed.
Lemma drops_event_key dc iface p c : key_of (drops_event dc iface p c) = ("netif::drops", iface).
Proof. unfold drops_event, emitDeltaEvent, thresholds_attr. by case_decide. Qed.
Lemma gatherLink_key v l : key_of (gatherLink v l) = ("netif::link", Interface l).
Proof. unfold gatherLink. destruct (defaultReadOperstate v (Interface l)); [|done]. by repeat case_decide. Qed.
#[local] Opaque errors_event drops_event gatherLink.

Lemma iface_events_keys ins x :
  map key_of (iface_events ins x) `sublist_of` [("netif::errors", x.1); ("netif::drops", x.1)].
Proof.
  destruct x as [iface c]. unfold iface_events. cbn [fst]. destruct (prevCounters ins !! iface); [|apply sublist_nil_l].
  rewrite map_app. destruct (hasErrorCheck ins); cbn [map app]; [rewrite errors_event_key; apply sublist_skip|apply sublist_cons];
    (destruct (hasDropCheck ins); cbn [map]; [by rewrite drops_event_key|apply sublist_nil_l]).
Qed.

Lemma delta_keys_NoDup ins l : NoDup l.*1 ->
  NoDup (map key_of (concat (map (iface_events ins) l))) /\
  Forall (fun k => k.1 <> "netif::link" /\ k.2 ∈ l.*1) (map key_of (concat (map (iface_events ins) l))).
Proof.
  induction l as [|x l IH]; [cbn; repeat constructor|]. intros [Hx Hl]%NoDup_cons. destruct (IH Hl) as [I1 I2].
  cbn [map concat fmap list_fmap]. rewrite map_app.
  assert (forall k, k ∈ map key_of (iface_events ins x) -> k.1 <> "netif::link" /\ k.2 = x.1) as Hk.
  { intros k Hk. eapply elem_of_sublist in Hk; [|apply iface_events_keys]. rewrite elem_of_cons, list_elem_of_singleton in Hk. by destruct Hk as [->| ->]. }
  split.
  - apply NoDup_app. split_and!; [|intros k Hk1 Hk2|done].
    + eapply sublist_NoDup; [|apply iface_events_keys]. apply NoDup_cons. split; [set_solver|apply NoDup_singleton].
    + apply Hk in Hk1 as [_ Ek]. rewrite Forall_forall in I2. apply I2 in Hk2 as [_ Hk2]. rewrite Ek in Hk2. done.
  - apply Forall_app. split.
    + apply Forall_forall. intros k [? ->]%Hk. split; [done|]. by left.
    + eapply Forall_impl; [exact I2|]. intros k [? ?]. split; [done|]. by right.
Qed.

(** a gathering reports each configured link exactly once, in order, after
    the counters, and no two of its events are of the same check and target. *)
Theorem Gather_reports_once v ins (Hn : NoDup (map Interface (LinkUp (cfg ins)))) :
  NoDup (map key_of (Gather is_print visit v ins).1) /\
  exists deltas, (Gather is_print visit v ins).1 = deltas ++ map (gatherLink v) (LinkUp (cfg ins)) /\
    Forall (fun e => check_of e <> "netif::link") deltas.
Proof.
  assert (exists deltas ins', Gather is_print visit v ins = (deltas ++ map (gatherLink v) (LinkUp (cfg ins)), ins') /\
    (deltas = [] \/ exists m, deltas = concat (map (iface_events ins) (visit m)))) as (deltas & ins' & -> & Hd).
  { unfold Gather, gatherErrorsAndDrops. destruct (hasErrorCheck ins || hasDropCheck ins); [|exists []; eauto].
    destruct (entries v); [|exists []; eauto]. destruct (initialized ins); [|exists []; eauto].
    eexists (concat _), _. split; [reflexivity|]. right. eauto. }
  cbn [fst]. rewrite map_app, map_map, (map_ext _ _ (gatherLink_key v)).
  assert (NoDup (map key_of deltas) /\ Forall (fun k => k.1 <> "netif::link") (map key_of deltas)) as [H1 H2].
  { destruct Hd as [->|[m ->]]; [split; constructor|]. destruct (delta_keys_NoDup ins (visit m) (visit_NoDup m)) as [H1 H2].
    split; [done|]. eapply Forall_impl; [exact H2|]. by intros k [? _]. }
  split; [|exists deltas; split; [done|exact (proj1 (Forall_fmap _ _ _) H2)]].
  apply NoDup_app. split_and!; [done| |].
  - intros k Hk. rewrite Forall_forall in H2. apply H2 in Hk. intros H. apply list_elem_of_In, in_map_iff in H as (l & <- & _). done.
  - rewrite <- map_map with (f := Interface) (g := fun i => ("netif::link", i)). apply NoDup_fmap_2; [|done]. by intros x y [=].
Qed.

(** ** Growth over gatherings *)

(** The events of one interface for the check of its errors. *)
Definition is_errors (iface : string) (e : Event) : bool := bool_decide (key_of e = ("netif::errors", iface)).
Definition errors_of (iface : string) (evs : list Event) : list Event := filter (fun e => is_errors iface e = true) evs.

Lemma errors_of_app iface l k : errors_of iface (l ++ k) = errors_of iface l ++ errors_of iface k.
Proof. apply filter_app. Qed.
Lemma errors_of_none iface l : Forall (fun e => key_of e <> ("netif::errors", iface)) l -> errors_of iface l = [].
Proof.
  intros H. apply filter_none. eapply Forall_impl; [exact H|]. cbn. unfold is_errors. intros e He.
  by rewrite bool_decide_eq_false_2.
Qed.

Definition errors_step (ins : Instance) (iface : string) (curr : option ifCounters) : list Event :=
  match prevCounters ins !! iface, curr with
  | Some p, Some c => [errors_event (Errors (cfg ins)) iface p c]
  | _, _ => []
  end.

Lemma errors_of_iface ins iface name c (He : hasErrorCheck ins = true) :
  errors_of iface (iface_events ins (name, c)) = if decide (name = iface) then errors_step ins iface (Some c) else [].
Proof.
  unfold iface_events, errors_step. rewrite He. destruct (decide (name = iface)) as [->|Hn].
  - destruct (prevCounters ins !! iface) as [p|]; [|done]. rewrite errors_of_app. unfold errors_of at 1.
    rewrite filter_cons_True by (unfold is_errors; by rewrite errors_event_key, bool_decide_eq_true_2).
    rewrite filter_nil. cbn [app]. f_equal. apply errors_of_none. destruct (hasDropCheck ins); repeat constructor. by rewrite drops_event_key.
  - apply errors_of_none. destruct (prevCounters ins !! name); [|constructor]. apply Forall_app. split.
    + constructor; [|constructor]. rewrite errors_event_key. congruence.
    + destruct (hasDropCheck ins); repeat constructor. by rewrite drops_event_key.
Qed.

Lemma errors_of_visit ins iface l (He : hasErrorCheck ins = true) : NoDup l.*1 ->
  errors_of iface (concat (map (iface_events ins) l)) = errors_step ins iface ((list_to_map l : gmap string ifCounters) !! iface).
Proof.
  induction l as [|[name c] l IH]; [intros _; cbn; unfold errors_step; rewrite lookup_empty; by destruct (prevCounters ins !! iface)|].
  intros [Hx Hl]%NoDup_cons. cbn [map concat]. rewrite errors_of_app, IH, errors_of_iface by done. cbn [list_to_map foldr fst].
  destruct (decide (name = iface)) as [->|Hn].
  - assert (errors_step ins iface ((list_to_map l : gmap string ifCounters) !! iface) = []) as ->.
    { rewrite not_elem_of_list_to_map_1 by done. unfold errors_step. by destruct (prevCounters ins !! iface). }
    rewrite app_nil_r. change (uncurry insert (iface, c)) with (insert (M := gmap string ifCounters) iface c). by rewrite lookup_insert_eq.
  - change (uncurry insert (name, c)) with (insert (M := gmap string ifCounters) name c). by rewrite lookup_insert_ne.
Qed.

(** The counters that a gathering reads of an interface, when it can list them. *)
Definition seen (s : Settings) (v : View) (iface : string) : option (option ifCounters) :=
  match entries v with
  | Bad _ => None
  | Good l => Some (current_counters is_print v (applyFilter l (Include s) (Exclude s)) !! iface)
  end.

(** Before the first listing nothing is remembered. *)
Definition started (ins : Instance) : Prop := initialized ins = false -> prevCounters ins = ∅.

Lemma Gather_errors v ins iface (He : hasErrorCheck ins = true) (Hs : started ins) :
  let '(evs, ins') := Gather is_print visit v ins in
  errors_of iface evs = from_option (errors_step ins iface) [] (seen (cfg ins) v iface) /\
  cfg ins' = cfg ins /\ hasErrorCheck ins' = true /\ started ins' /\
  prevCounters ins' !! iface = default (prevCounters ins !! iface) (seen (cfg ins) v iface).
Proof.
  assert (forall l, errors_of iface (map (gatherLink v) l) = []) as Hlinks.
  { intros l. apply errors_of_none. induction l as [|x l IH]; [constructor|]. constructor; [by rewrite gatherLink_key|done]. }
  unfold Gather, gatherErrorsAndDrops, seen. rewrite He. cbn [orb].
  destruct (entries v) as [l|err]; [|by cbn -[errors_of]; rewrite Hlinks]. destruct (initialized ins) eqn:Ei.
  - rewrite errors_of_app, Hlinks, app_nil_r. cbn [from_option]. split; [|done].
    rewrite errors_of_visit by (done || apply visit_NoDup). by rewrite visit_map.
  - cbn -[errors_of]. rewrite Hlinks. split; [|done]. unfold errors_step. rewrite (Hs Ei), lookup_empty. done.
Qed.

(** The events on the errors of an interface: one for each pair of successive
    counters. *)
Lemma Gathers_errors iface vs cs : forall ins p, hasErrorCheck ins = true -> started ins ->
  prevCounters ins !! iface = Some p -> Forall2 (fun v c => seen (cfg ins) v iface = Some (Some c)) vs cs ->
  errors_of iface (Gathers is_print visit vs ins).1 = zip_with (errors_event (Errors (cfg ins)) iface) (p :: cs) cs.
Proof.
  intros ins p He Hs Hp H. revert ins p He Hs Hp H. revert cs. induction vs as [|v vs IH]; intros cs ins p He Hs Hp H.
  { apply Forall2_nil_inv_l in H as ->. done. }
  apply Forall2_cons_inv_l in H as (c & cs' & Hc & H & ->). cbn [Gathers].
  pose proof (Gather_errors v ins iface He Hs) as HG. destruct (Gather is_print visit v ins) as [e1 ins1].
  destruct HG as (E1 & Ecfg & He1 & Hs1 & Hp1). rewrite Hc in E1, Hp1. cbn in E1, Hp1.
  specialize (IH cs' ins1 c He1 Hs1 Hp1). rewrite Ecfg in IH. specialize (IH H).
  destruct (Gathers is_print visit vs ins1) as [e2 ins2]. cbn [fst] in *. rewrite errors_of_app, IH, E1.
  unfold errors_step. by rewrite Hp.
Qed.

(** Counters that only grow and do not overflow together. *)
Definition grows (a b : ifCounters) : Prop := rxErrors a <= rxErrors b /\ txErrors a <= txErrors b.
Definition in_range (c : ifCounters) : Prop := 0 <= rxErrors c /\ 0 <= txErrors c /\ rxErrors c + txErrors c < 2 ^ 64.
Definition errors_total (c : ifCounters) : Z := rxErrors c + txErrors c.

Lemma delta_is_growth a b : in_range a -> in_range b -> grows a b ->
  deltaOf (rxErrors b) (rxErrors a) (txErrors b) (txErrors a) = errors_total b - errors_total a.
Proof.
  unfold in_range, grows, deltaOf, safeDelta, errors_total, u64. intros (? & ? & ?) (? & ? & ?) [? ?].
  rewrite !(proj2 (Z.leb_le _ _)) by done.
  rewrite (Z.mod_small (rxErrors b - _)), (Z.mod_small (txErrors b - _)), Z.mod_small by lia. lia.
Qed.

Definition deltas (c : ifCounters) (cs : list ifCounters) : list Z :=
  zip_with (fun p c => deltaOf (rxErrors c) (rxErrors p) (txErrors c) (txErrors p)) (c :: cs) cs.

Lemma errors_event_delta dc iface p c :
  Attrs (errors_event dc iface p c) ≫= lookup "delta" = Some (itoa (deltaOf (rxErrors c) (rxErrors p) (txErrors c) (txErrors p))).
Proof. Transparent errors_event. unfold errors_event, emitDeltaEvent, thresholds_attr. by case_decide. Qed.
#[local] Opaque errors_event.

Lemma deltas_sum c cs : Forall in_range (c :: cs) -> Sorted grows (c :: cs) ->
  foldr Z.add 0 (deltas c cs) = errors_total (default c (last cs)) - errors_total c.
Proof.
  revert c. induction cs as [|d cs IH]; intros c; [cbn; lia|]. intros [Hc Hr]%Forall_cons Hg.
  inversion_clear Hg as [|? ? Hg' Hd]. inversion_clear Hd. pose proof (Forall_inv Hr).
  change (deltas c (d :: cs)) with (deltaOf (rxErrors d) (rxErrors c) (txErrors d) (txErrors c) :: deltas d cs).
  cbn [foldr]. rewrite IH, delta_is_growth, last_cons by done. destruct (last cs); cbn; lia.
Qed.

(** C38: for an interface whose counters are read in every gathering since the
    start, each gathering after the first reports its errors once, against the
    counters of the gathering before; when the counters only grow, the reported
    deltas add up to the growth since the first one, so that no error is lost or
    counted twice. *)
Theorem growth_is_reported_once v vs c cs ins iface (He : hasErrorCheck ins = true) (Hi : initialized ins = false)
    (Hp : prevCounters ins = ∅) (Hv : Forall2 (fun v c => seen (cfg ins) v iface = Some (Some c)) (v :: vs) (c :: cs)) :
  let evs := errors_of iface (Gathers is_print visit (v :: vs) ins).1 in
  evs = zip_with (errors_event (Errors (cfg ins)) iface) (c :: cs) cs /\
  map (fun e => Attrs e ≫= lookup "delta") evs = map (fun d => Some (itoa d)) (deltas c cs) /\
  (Forall in_range (c :: cs) -> Sorted grows (c :: cs) ->
     foldr Z.add 0 (deltas c cs) = errors_total (default c (last cs)) - errors_total c).
Proof.
  intros evs. assert (evs = zip_with (errors_event (Errors (cfg ins)) iface) (c :: cs) cs) as E.
  { apply Forall2_cons in Hv as [Hv Hvs]. unfold evs. cbn [Gathers].
    pose proof (Gather_errors v ins iface He (fun _ => Hp)) as HG. destruct (Gather is_print visit v ins) as [e1 ins1].
    destruct HG as (E1 & Ecfg & He1 & Hs1 & Hp1). rewrite Hv in E1, Hp1. cbn in E1, Hp1.
    assert (e1' : errors_of iface e1 = []) by (rewrite E1; unfold errors_step; by rewrite Hp, lookup_empty).
    pose proof (Gathers_errors iface vs cs ins1 c He1 Hs1 Hp1) as H. rewrite Ecfg in H. specialize (H Hvs).
    destruct (Gathers is_print visit vs ins1) as [e2 ins2]. cbn [fst] in *. by rewrite errors_of_app, e1', H. }
  split; [done|]. split; [|apply deltas_sum]. rewrite E. clear. unfold deltas. generalize (c :: cs) as l. intros l.
  revert l. induction cs as [|x cs IH]; intros [|y l]; cbn; [done..|]. by rewrite errors_event_delta, IH.
Qed.
End gather.

(** A link is Ok exactly when its state can be read and is up or unknown; else
    the event has the configured severity, or is critical when the state cannot
    be read. *)
Lemma gatherLink_status v l : Severity l <> EventStatusOk ->
  match defaultReadOperstate v (Interface l) with
  | Bad _ => EventStatus (gatherLink v l) = EventStatusCritical
  | Good st => (EventStatus (gatherLink v l) = EventStatusOk <-> st = "up" \/ st = "unknown") /\
               (st <> "up" /\ st <> "unknown" -> EventStatus (gatherLink v l) = Severity l)
  end.
Proof.
  intros Hs. Transparent gatherLink. unfold gatherLink. destruct (defaultReadOperstate v (Interface l)) as [st|err]; [|done].
  case_decide as H1; [|case_decide as H2]; cbn; naive_solver.
Qed.
#[local] Opaque gatherLink.

(** ** Departures *)

(** Growth below the thresholds is described as no growth. *)
Theorem growth_below_threshold_is_denied dc iface p c
    (Hs : EvaluateGeThreshold (f64_of_Z (deltaOf (rxErrors c) (rxErrors p) (txErrors c) (txErrors p))) (WarnGe dc) (CriticalGe dc) = EventStatusOk) :
  Description (errors_event dc iface p c) = iface +:+ " no new errors (total: " +:+ itoa (u64 (rxErrors c + txErrors c)) +:+ ")".
Proof.
  Transparent errors_event. unfold errors_event, emitDeltaEvent. fold (deltaOf (rxErrors c) (rxErrors p) (txErrors c) (txErrors p)).
  cbv zeta. rewrite Hs. unfold thresholds_attr. by case_decide.
Qed.

(** ** Witnesses *)

Definition demo_settings : Settings :=
  mkSettings ["eth*"] ["eth1"] (mkDelta (f64_of_Z 5) (f64_of_Z 100)) (mkDelta f64_zero f64_zero) [mkLink " eth0 " ""].
Definition demo_view (rx : string) : View :=
  mkView (Good ["lo"; "eth0"; "eth1"])
    (fun p => if HasSuffix p "operstate" then Text "down" else if HasSuffix p "rx_errors" then Text rx else Text "0").
Definition demo_ins : Instance :=
  mkInstance (mkSettings ["eth*"] ["eth1"] (mkDelta (f64_of_Z 5) (f64_of_Z 100)) (mkDelta f64_zero f64_zero) [mkLink "eth0" "Critical"])
    true false ∅ false.

Example demo_gathers :
  map (fun e => (EventStatus e, Description e)) (Gathers (fun _ => true) map_to_list [demo_view "1"; demo_view "4"; demo_view "10"] demo_ins).1 =
  [("Critical", "eth0 link is not ready (operstate: down)");
   ("Ok", "eth0 no new errors (total: 4)"); ("Critical", "eth0 link is not ready (operstate: down)");
   ("Warning", "eth0 has 6 new errors since last check (rx: 6, tx: 0, total: 10), above warning threshold 5");
   ("Critical", "eth0 link is not ready (operstate: down)")].
Proof. vm_compute. reflexivity. Qed.

Lemma Init_accepts_sound_witness : Init (fun _ => true) "linux" demo_settings = Good demo_ins /\ sound_delta (Errors (cfg demo_ins)).
Proof.
  assert (Init (fun _ => true) "linux" demo_settings = Good demo_ins) as H by (vm_compute; reflexivity).
  split; [exact H|]. apply (Init_accepts_sound _ _ _ _ H).
Defined.

Lemma Gather_reports_once_witness : NoDup (map key_of (Gather (fun _ => true) map_to_list (demo_view "1") demo_ins).1).
Proof. apply (Gather_reports_once (fun _ => true) map_to_list (fun m => reflexivity _) (demo_view "1") demo_ins). apply NoDup_singleton. Defined.

Lemma growth_is_reported_once_witness :
  map (fun e => Attrs e ≫= lookup "delta")
    (errors_of "eth0" (Gathers (fun _ => true) map_to_list [demo_view "1"; demo_view "4"; demo_view "10"] demo_ins).1) = [Some "3"; Some "6"].
Proof.
  destruct (growth_is_reported_once (fun _ => true) map_to_list (fun m => reflexivity _) (demo_view "1") [demo_view "4"; demo_view "10"]
    (mkCounters 1 0 0 0) [mkCounters 4 0 0 0; mkCounters 10 0 0 0] demo_ins "eth0" eq_refl eq_refl eq_refl) as (_ & H & _).
  - repeat constructor; vm_compute; reflexivity.
  - rewrite H. vm_compute. reflexivity.
Defined.

Lemma growth_below_threshold_is_denied_witness :
  Description (errors_event (mkDelta (f64_of_Z 5) f64_zero) "eth0" (mkCounters 1 0 0 0) (mkCounters 4 0 0 0)) = "eth0 no new errors (total: 4)".
Proof. rewrite growth_below_threshold_is_denied; vm_compute; reflexivity. Defined.
