(* ===== verification/Journaltail.v ===== *)
(** * The journal check (plugins/journaltail/journaltail.go)

    Each gathering runs [journalctl] after the cursor of the one before and
    matches the lines that are new.  The process is a world that answers to its
    arguments. *)
From stdpp Require Import relations.
From S2P Require Import Prelude GoStr GoLib Types GoFmt GoConv GoUrl Filter Pushing.
#[local] Open Scope Z_scope.
#[local] Open Scope go_scope.

(** ** Settings and state *)
Record Instance := mkInstance {
  Units : list string; Priority : string; FilterInclude : list string; FilterExclude : list string;
  MaxLines : Z; Timeout : Z; Severity : string;
  includeFilter : option Filter; excludeFilter : option Filter;
  bin : string; cursor : string; initSince : string
}.
Definition with_cursor (c : string) (i : Instance) : Instance :=
  mkInstance (Units i) (Priority i) (FilterInclude i) (FilterExclude i) (MaxLines i) (Timeout i) (Severity i)
    (includeFilter i) (excludeFilter i) (bin i) c (initSince i).

Section init.
Variable is_print : Z -> bool.
Variable glob_Compile regexp_Compile : string -> res string (string -> bool).
#[local] Abbreviation Compile := (Compile is_print glob_Compile regexp_Compile).

(** [lookPath] is where [journalctl] was found; [now] in Unix seconds. *)
Definition Init (goos : string) (lookPath : res string string) (zone : Z -> Z) (now : Z) (i : Instance) : res string Instance :=
  if negb (bool_decide (goos = "linux")) then Bad ("journaltail plugin only supports linux (current: " +:+ goos +:+ ")")
  else
    match FilterInclude i with
    | [] => Bad "filter_include must be configured"
    | _ =>
      let maxLines := if MaxLines i <=? 0 then 10 else MaxLines i in
      let timeout := if Timeout i =? 0 then 30 * Second else Timeout i in
      match Compile (FilterInclude i) with
      | Bad err => Bad ("failed to compile filter_include: " +:+ err)
      | Good inc =>
        match Compile (FilterExclude i) with
        | Bad err => Bad ("failed to compile filter_exclude: " +:+ err)
        | Good exc =>
          match lookPath with
          | Bad err => Bad ("journalctl not found: " +:+ err)
          | Good bin =>
            let done severity :=
              Good (mkInstance (Units i) (Priority i) (FilterInclude i) (FilterExclude i) maxLines timeout severity
                      inc exc bin (cursor i) (FormatDateTime zone now)) in
            if decide (Severity i = "") then done EventStatusWarning
            else if EventStatusValid (Severity i) then done (Severity i)
            else Bad ("invalid severity " +:+ Quote is_print (Severity i) +:+ ", must be one of: Critical, Warning, Info, Ok")
          end
        end
      end
    end.
End init.

Definition buildTarget (i : Instance) : string :=
  match Units i, FilterInclude i with
  | _ :: _, _ => Join (Units i) ","
  | [], [p] => p
  | [], p :: ps => p +:+ "(+" +:+ itoa (zlen ps) +:+ ")"
  | [], [] => "journaltail"
  end.

Definition buildArgs (i : Instance) : list string :=
  ["--no-pager"; "--no-tail"; "--show-cursor"]
  ++ (if decide (cursor i = "") then ["--since"; initSince i] else ["--after-cursor"; cursor i])
  ++ concat (map (fun u => ["--unit"; u]) (Units i))
  ++ (if decide (Priority i = "") then [] else ["--priority"; Priority i]).

Definition matchLine (i : Instance) (line : string) : bool :=
  match includeFilter i with Some f => Match f line | None => true end
  && negb (match excludeFilter i with Some f => Match f line | None => false end).

(** ** The output *)
Definition cursor_prefix : string := "-- cursor: ".

(** What follows the last [sub] in [s]. *)
Fixpoint after_last (sub s : string) : option string :=
  match s with
  | "" => None
  | String _ s' =>
    match after_last sub s' with
    | Some t => Some t
    | None => if HasPrefix s sub then Some (sdrop (String.length sub) s) else None
    end
  end.

Definition extractCursor (output : string) : string :=
  match after_last cursor_prefix output with
  | None => ""
  | Some rest => TrimSpace (match cut_at nl rest with Some (line, _) => line | None => rest end)
  end.

Definition extractLogLines (output : string) : list string :=
  filter (fun line => ~ (line = "" \/ HasPrefix line "-- " = true)) (split_on nl output).

(** ** Gathering *)
Definition base (target : string) : Event := BuildEvent [attrs_of [("check", "journaltail::match"); ("target", target)]].
Definition buildErrorEvent (target errMsg : string) : Event := critical (base target) errMsg.

Definition attrs (i : Instance) (matched : list string) : list (string * string) :=
  match Units i with [] => [] | _ => [("units", Join (Units i) ", ")] end
  ++ (if decide (Priority i = "") then [] else [("priority", Priority i)])
  ++ match matched with [] => [] | _ => [("matched_count", itoa (zlen matched))] end.

Definition match_description (i : Instance) (matched : list string) : string :=
  "matched " +:+ itoa (zlen matched) +:+ " lines:" +:+ newline
  +:+ concat_lines (map (fun line => line +:+ newline) (take (Z.to_nat (MaxLines i)) matched))
  +:+ (if MaxLines i <? zlen matched then "... and " +:+ itoa (zlen matched - MaxLines i) +:+ " more lines" +:+ newline else "").

Definition match_event (i : Instance) (matched : list string) : Event :=
  let e := SetAttrs (base (buildTarget i)) (attrs_of (attrs i matched)) in
  match matched with
  | [] => e
  | _ => SetDescription (SetEventStatus e (Severity i)) (match_description i matched)
  end.

(** The lines that count, unless the process failed: exit code 1 without a
    message means that there are no entries. *)
Definition read_output (i : Instance) (o : Output) : res string (string * list string) :=
  let stdout := collected maxStdoutBytes (out_chunks o) in
  let stderr := TrimSpace (collected maxStderrBytes (err_chunks o)) in
  let ok := Good (extractCursor stdout, extractLogLines stdout) in
  let failed err := Bad ("journalctl exec failed: " +:+ err +:+ " (stderr: " +:+ stderr +:+ ")") in
  match ended o with
  | TimedOut => Bad ("journalctl timed out after " +:+ Duration_String (Timeout i))
  | Done => ok
  | ExitError code err => if (code =? 1) && bool_decide (stderr = "") then ok else failed err
  | RunError err => failed err
  end.

Definition process_output (i : Instance) (o : Output) : Event * Instance :=
  match read_output i o with
  | Bad err => (buildErrorEvent (buildTarget i) err, i)
  | Good (newCursor, lines) =>
    let matched := filter (fun line => matchLine i line = true) lines in
    (match_event i matched, if decide (newCursor = "") then i else with_cursor newCursor i)
  end.

Section gather.
Context {W : Type} `{!Process W}.

Definition Gather (i : Instance) (w : W) : Event * Instance * W :=
  let '(o, w) := run_process (bin i) (buildArgs i) w in
  let '(e, i) := process_output i o in
  (e, i, w).
End gather.

(** * Properties

    Against a journal that [journalctl] shows as its manual says, the gatherings
    read each entry once and in order, also over failures; what is lost when
    the output does not fit. *)
(** ** Reading what was written *)
Lemma after_last_app sub s t r : after_last sub t = Some r -> after_last sub (s +:+ t) = Some r.
Proof. intros H. induction s as [|c s IH]; [done|]. rewrite sapp_cons. cbn [after_last]. by rewrite IH. Qed.

Lemma after_last_none c sub s : has_byte c s = false -> has_byte c sub = true -> after_last sub s = None.
Proof.
  intros Hs Hsub. induction s as [|a s IH]; [done|]. cbn [after_last]. pose proof Hs as Hs'.
  cbn [has_byte] in Hs'. apply orb_false_iff in Hs' as [_ Hs']. rewrite IH by done.
  destruct (HasPrefix (String a s) sub) eqn:E; [|done]. apply HasPrefix_spec in E as [r E].
  rewrite E, has_byte_app, Hsub in Hs. done.
Qed.

(** ** The journal *)
Record entry := mkEntry { e_cursor : string; e_lines : list string }.

Definition line_ok (l : string) : Prop := l <> "" /\ has_byte nl l = false /\ HasPrefix l "-- " = false.
Definition entry_ok (e : entry) : Prop := e_cursor e <> "" /\ all_chars visible (e_cursor e) = true /\ Forall line_ok (e_lines e).

Definition lines_of (es : list entry) : list string := concat (map e_lines es).

(** What [journalctl --show-cursor] prints for entries. *)
Definition shown (es : list entry) : string :=
  match last es with
  | None => "-- No entries --" +:+ newline
  | Some e => text_of (lines_of es) +:+ cursor_prefix +:+ e_cursor e +:+ newline
  end.

Lemma extractCursor_shown es : Forall entry_ok es -> extractCursor (shown es) = from_option e_cursor "" (last es).
Proof.
  intros Hes. unfold shown. destruct (last es) as [e|] eqn:El; [|by vm_compute].
  assert (entry_ok e) as (_ & Hc & _). { apply last_Some in El as [l ->]. by apply Forall_app in Hes as [_ ?%Forall_inv]. }
  unfold extractCursor. rewrite (after_last_app _ (text_of _) _ (e_cursor e +:+ newline)).
  2:{ assert (after_last cursor_prefix (e_cursor e +:+ newline) = None) as Hn.
      { apply (after_last_none " "%char); [|done]. rewrite has_byte_app, (visible_no " "%char) by done. done. }
      unfold cursor_prefix in *. rewrite !sapp_cons, sapp_nil. revert Hn. generalize (e_cursor e +:+ newline) as t.
      intros t Hn. cbn [after_last]. rewrite Hn. destruct t; vm_compute; reflexivity. }
  change newline with (String nl "") at 1. rewrite cut_at_app by (apply visible_no; done). cbn [from_option]. by apply TrimSpace_no_space.
Qed.

Lemma extractLogLines_text lines t : Forall line_ok lines ->
  extractLogLines (text_of lines +:+ t) = lines ++ extractLogLines t.
Proof.
  unfold extractLogLines. induction 1 as [|l lines (H1 & H2 & H3) Hl IH]; [done|].
  change (text_of (l :: lines)) with ((l +:+ newline) +:+ text_of lines). rewrite !string_app_assoc.
  change (newline +:+ ?x) with (String nl ("" +:+ x)). rewrite sapp_nil, split_on_line by done.
  rewrite filter_cons_True by (rewrite H3; naive_solver). by rewrite IH.
Qed.

Lemma extractLogLines_shown es : Forall entry_ok es -> extractLogLines (shown es) = lines_of es.
Proof.
  intros Hes. unfold shown. destruct (last es) as [e|] eqn:El.
  - rewrite extractLogLines_text.
    + assert (entry_ok e) as (_ & Hc & _). { apply last_Some in El as [l ->]. by apply Forall_app in Hes as [_ ?%Forall_inv]. }
      unfold extractLogLines. rewrite <- string_app_assoc. change newline with (String nl "").
      rewrite split_on_line by (rewrite has_byte_app, (visible_no nl (e_cursor e)) by done; vm_compute; reflexivity).
      rewrite filter_cons_False by (intros Hn; apply Hn; right; apply HasPrefix_spec; exists ("cursor: " +:+ e_cursor e); done).
      change (split_on nl "") with [""]. rewrite filter_cons_False by (intros Hn; apply Hn; by left). apply app_nil_r.
    + clear El. unfold lines_of. induction Hes as [|x l (_ & _ & Hx) Hl IH]; [constructor|]. by apply Forall_app.
  - apply last_None in El as ->. by vm_compute.
Qed.

(** ** Successive gatherings *)

(** The entries after a cursor. *)
Fixpoint after (c : string) (j : list entry) : list entry :=
  match j with
  | [] => []
  | e :: j' => if decide (e_cursor e = c) then j' else after c j'
  end.

Lemma after_split e l k : NoDup (map e_cursor (l ++ e :: k)) -> after (e_cursor e) (l ++ e :: k) = k.
Proof.
  induction l as [|x l IH]; cbn [app map after].
  - intros _. by rewrite decide_True.
  - intros [Hx Hl]%NoDup_cons. rewrite decide_False; [by apply IH|]. intros E. apply Hx. rewrite E.
    apply list_elem_of_In, in_map_iff. exists e. split; [done|]. apply list_elem_of_In. set_solver.
Qed.

(** Whether the run is one that the check does not read. *)
Definition failed (o : Output) : Prop :=
  match ended o with
  | Done => False
  | TimedOut | RunError _ => True
  | ExitError code _ => code <> 1 \/ TrimSpace (collected maxStderrBytes (err_chunks o)) <> ""
  end.

Definition lines_read (i : Instance) (o : Output) : list string :=
  match read_output i o with Good (_, lines) => lines | Bad _ => [] end.

Lemma read_output_shown i o es : Forall entry_ok es -> ~ failed o -> concat_lines (out_chunks o) = shown es ->
  slen (shown es) <= maxStdoutBytes ->
  read_output i o = Good (from_option e_cursor "" (last es), lines_of es).
Proof.
  intros Hes Hf Ho Hs. unfold read_output. rewrite collected_spec, Ho, stake_all by (unfold slen in *; lia || done).
  rewrite extractCursor_shown, extractLogLines_shown by done. unfold failed in Hf. destruct (ended o); try done.
  destruct (Z.eqb_spec code 1), (decide (TrimSpace (collected maxStderrBytes (err_chunks o)) = "")) as [E|E]; try (exfalso; tauto).
  by rewrite bool_decide_eq_true_2.
Qed.
Lemma read_output_failed i o : failed o -> exists err, read_output i o = Bad err.
Proof.
  unfold failed, read_output. destruct (ended o); try done; eauto. intros H.
  destruct ((code =? 1) && _) eqn:E; [|eauto]. zbool. naive_solver.
Qed.

Section journal.
Context {W : Type} `{!Process W}.
Variable i0 : Instance.
(** The entries that the unit and the priority select, so far. *)
Variable journal : W -> list entry.
(** Those that are older than the start of the plugin. *)
Variable older : nat.

Hypothesis start : cursor i0 = "".
Hypothesis journal_ok : forall w, Forall entry_ok (journal w) /\ NoDup (map e_cursor (journal w)).

(** The arguments that ask for entries, and which. *)
Definition options : list string := ["--no-pager"; "--no-tail"; "--show-cursor"].
Definition selection : list string :=
  concat (map (fun u => ["--unit"; u]) (Units i0)) ++ (if decide (Priority i0 = "") then [] else ["--priority"; Priority i0]).
Inductive asks (j : list entry) : list string -> list entry -> Prop :=
| asks_since : asks j (options ++ ["--since"; initSince i0] ++ selection) (drop older j)
| asks_after c : asks j (options ++ ["--after-cursor"; c] ++ selection) (after c j).

(** What the manual says: unless it fails, the program shows the entries that
    it is asked for, and the journal is appended to. *)
Hypothesis shows : forall w args es, asks (journal w) args es ->
  let '(o, w') := run_process (bin i0) args w in
  (~ failed o -> concat_lines (out_chunks o) = shown es) /\ journal w `prefix_of` journal w'.

(** Entries are added, or a gathering runs, whose output fits; the last
    component collects the lines that were read. *)
Inductive step : Instance * W * list string -> Instance * W * list string -> Prop :=
| step_append i w w' seen : journal w `prefix_of` journal w' -> step (i, w, seen) (i, w', seen)
| step_gather i w seen o w1 e i' w' :
    run_process (bin i) (buildArgs i) w = (o, w1) -> (~ failed o -> slen (concat_lines (out_chunks o)) <= maxStdoutBytes) ->
    Gather i w = (e, i', w') -> step (i, w, seen) (i', w', seen ++ lines_read i o).

(** [n] entries were read: the cursor is that of the last one. *)
Definition at_entry (i : Instance) (w : W) (seen : list string) (n : nat) : Prop :=
  let es := drop older (journal w) in
  (older <= length (journal w))%nat /\ (n <= length es)%nat /\
  seen = lines_of (take n es) /\ i = with_cursor (from_option e_cursor "" (last (take n es))) i0.

Lemma prefix_facts (j k : list entry) n : j `prefix_of` k -> (older <= length j)%nat -> (n <= length (drop older j))%nat ->
  (older <= length k)%nat /\ (n <= length (drop older k))%nat /\ take n (drop older k) = take n (drop older j).
Proof.
  intros [l ->] Ho Hn. rewrite length_drop in *. rewrite !length_app. split_and!; [lia|lia|].
  rewrite drop_app_le, take_app_le by (rewrite ?length_drop; lia). done.
Qed.

Lemma at_entry_grow i w w' seen n : journal w `prefix_of` journal w' -> at_entry i w seen n -> at_entry i w' seen n.
Proof.
  unfold at_entry. intros Hp (H1 & H2 & H3 & H4). destruct (prefix_facts _ _ n Hp H1 H2) as (? & ? & ->). done.
Qed.

(** What a gathering asks for is what was not read yet. *)
Lemma asks_rest i w seen n : at_entry i w seen n ->
  asks (journal w) (buildArgs i) (drop n (drop older (journal w))).
Proof.
  intros (H1 & H2 & _ & ->). destruct (journal_ok w) as [Hok Hnd].
  destruct (last (take n (drop older (journal w)))) as [e|] eqn:El; cbn [from_option].
  - apply last_Some in El as [l El]. assert (journal w = (take older (journal w) ++ l) ++ e :: drop n (drop older (journal w))) as Ej.
    { rewrite <- (take_drop older (journal w)) at 1. rewrite <- (take_drop n (drop older (journal w))) at 1.
      rewrite El, <- !app_assoc. done. }
    assert (entry_ok e) as [He _] by (rewrite Ej in Hok; apply Forall_app in Hok as [_ ?%Forall_inv]; done).
    unfold buildArgs. cbn [cursor with_cursor Units Priority initSince]. rewrite decide_False by done.
    replace (drop n (drop older (journal w))) with (after (e_cursor e) (journal w)); [apply (asks_after (journal w) (e_cursor e))|].
    rewrite Ej at 1. apply after_split. by rewrite <- Ej.
  - apply last_None in El. assert (n = O) as ->.
    { apply (f_equal length) in El. rewrite length_take in El. cbn in El. lia. }
    unfold buildArgs. cbn [cursor with_cursor Units Priority initSince]. rewrite decide_True by done. apply asks_since.
Qed.

(** A gathering that does not fail reads the rest. *)
Lemma at_entry_gather i w seen n o w1 e i' w' : at_entry i w seen n ->
  run_process (bin i) (buildArgs i) w = (o, w1) -> (~ failed o -> slen (concat_lines (out_chunks o)) <= maxStdoutBytes) ->
  Gather i w = (e, i', w') ->
  (exists n', at_entry i' w' (seen ++ lines_read i o) n') /\
  (~ failed o -> seen ++ lines_read i o = lines_of (drop older (journal w))).
Proof.
  intros Ha Hr Hs Hg. pose proof (asks_rest _ _ _ _ Ha) as Hq.
  assert (bin i = bin i0) as Hb by (by destruct Ha as (_ & _ & _ & ->)).
  pose proof (shows _ _ _ Hq) as Hd. rewrite <- Hb, Hr in Hd. destruct Hd as [Hd Hp].
  unfold Gather in Hg. rewrite Hr in Hg. destruct (process_output i o) as [e2 i2] eqn:Ep. injection Hg as <- <- <-.
  unfold process_output in Ep. unfold lines_read.
  assert (failed o \/ ~ failed o) as [Hf|Hf] by (unfold failed; destruct (ended o); try tauto; lia || (destruct (decide (code = 1)), (decide (TrimSpace (collected maxStderrBytes (err_chunks o)) = "")); tauto)).
  - destruct (read_output_failed i o Hf) as [err E]. rewrite E in Ep |- *. injection Ep as _ <-. rewrite app_nil_r.
    split; [|done]. exists n. by apply (at_entry_grow i w).
  - specialize (Hd Hf). specialize (Hs Hf). set (rest := drop n (drop older (journal w))) in *. rewrite Hd in Hs.
    assert (Forall entry_ok rest) as Hok by (apply Forall_drop, Forall_drop, journal_ok).
    rewrite (read_output_shown i o rest Hok Hf Hd Hs) in Ep |- *. destruct Ha as (H1 & H2 & -> & ->).
    assert (lines_of (take n (drop older (journal w))) ++ lines_of rest = lines_of (drop older (journal w))) as El.
    { unfold lines_of. rewrite <- concat_app, <- map_app. unfold rest. by rewrite take_drop. }
    rewrite El. split; [|done]. exists (length (drop older (journal w))). apply (at_entry_grow _ w); [done|].
    unfold at_entry. rewrite take_ge by lia. split_and!; [done..|].
    rewrite <- (take_drop n (drop older (journal w))). fold rest. rewrite last_app.
    destruct (last rest) as [x|] eqn:Ex; cbn [from_option] in Ep.
    + apply last_Some in Ex as [l Ex]. assert (entry_ok x) as [Hx _] by (rewrite Ex in Hok; apply Forall_app in Hok as [_ ?%Forall_inv]; done).
      rewrite decide_False in Ep by done. by injection Ep as _ <-.
    + rewrite decide_True in Ep by done. by injection Ep as _ <-.
Qed.
(** C35: whatever well-formed entries are added in between and whichever
    gatherings fail, as long as the output of those that succeed fits in 1 MB,
    the lines that were read are always the first ones since the start, none
    missing and none twice, and a gathering whose process does not fail and whose
    output fits reads all the rest.  Entries have distinct
    cursors of visible characters, and lines that are not empty, hold no line
    break and do not begin with the mark [-- ]; what happens beyond 1 MB is
    [overflow_repeats]. *)
Theorem journal_is_read_once w0 i w seen (Ho : (older <= length (journal w0))%nat)
    (Hr : rtc step (i0, w0, []) (i, w, seen)) :
  seen `prefix_of` lines_of (drop older (journal w)) /\
  (forall o w1 e i' w', run_process (bin i) (buildArgs i) w = (o, w1) ->
     slen (concat_lines (out_chunks o)) <= maxStdoutBytes -> ~ failed o -> Gather i w = (e, i', w') ->
     seen ++ lines_read i o = lines_of (drop older (journal w))).
Proof.
  assert (exists n, at_entry i w seen n) as [n Hn].
  { assert (forall y, rtc step (i0, w0, []) y -> exists n, at_entry y.1.1 y.1.2 y.2 n) as H; [|exact (H _ Hr)].
    clear i w seen Hr. apply (rtc_ind_r (fun y => exists n, at_entry y.1.1 y.1.2 y.2 n)).
    - exists O. unfold at_entry. cbn [fst snd take last from_option].
      split_and!; [done|lia|done|]. unfold with_cursor. rewrite <- start. by destruct i0.
    - intros y z _ Hyz [n Hn]. inversion Hyz as [i w w' seen Hp|i w seen o w1 e i' w' Hrun Hs Hg]; subst.
      + exists n. by eapply at_entry_grow.
      + by destruct (at_entry_gather _ _ _ _ _ _ _ _ _ Hn Hrun Hs Hg) as [? _]. }
  split.
  - destruct Hn as (_ & _ & -> & _). exists (lines_of (drop n (drop older (journal w)))).
    unfold lines_of. by rewrite <- concat_app, <- map_app, take_drop.
  - intros o w1 e i' w' Hrun Hs Hf Hg. by destruct (at_entry_gather _ _ _ _ _ _ _ _ _ Hn Hrun (fun _ => Hs) Hg) as [_ ?]; auto.
Qed.
End journal.

(** a failed run is reported as critical and leaves the cursor; after one
    that did not fail, the event has the configured severity exactly when a line
    matches, and is otherwise a recovery. *)
Theorem process_output_verdict i o :
  let '(e, i') := process_output i o in
  (failed o /\ EventStatus e = EventStatusCritical /\ i' = i) \/
  (~ failed o /\ EventStatus e = (if existsb (matchLine i) (lines_read i o) then Severity i else EventStatusOk) /\
   i' = (let c := extractCursor (collected maxStdoutBytes (out_chunks o)) in if decide (c = "") then i else with_cursor c i)).
Proof.
  assert (forall c lines, read_output i o = Good (c, lines) -> ~ failed o /\ c = extractCursor (collected maxStdoutBytes (out_chunks o))) as Hg.
  { unfold read_output, failed. destruct (ended o); try done; [intros c lines [= <- _]; split; [tauto|done]|].
    destruct ((code =? 1) && _) eqn:E; [|done]. zbool. intros c lines [= <- _]. split; [tauto|done]. }
  assert (forall err, read_output i o = Bad err -> failed o) as Hb.
  { unfold read_output, failed. destruct (ended o); try done. destruct ((code =? 1) && _) eqn:E; [done|]. intros _ _.
    apply andb_false_iff in E as [E|E]; [left; by apply Z.eqb_neq|right; by apply bool_decide_eq_false in E]. }
  unfold process_output, lines_read. destruct (read_output i o) as [[c lines]|err] eqn:E; [right|left; split; [by eapply Hb|done]].
  destruct (Hg _ _ eq_refl) as [Hf Hc]. split; [done|]. split; [|by rewrite Hc].
  assert (EventStatus (match_event i (filter (fun line => matchLine i line = true) lines)) =
    match filter (fun line => matchLine i line = true) lines with [] => EventStatusOk | _ => Severity i end) as ->.
  { unfold match_event. by destruct (filter _ lines). }
  clear. induction lines as [|l lines IH]; [done|]. cbn [existsb]. destruct (matchLine i l) eqn:El.
  - by rewrite filter_cons_True.
  - rewrite filter_cons_False by congruence. exact IH.
Qed.

(** ** Departures *)

(** An output that does not fit loses the line of the cursor: the cursor stays,
    and the next gathering asks for the same entries again. *)
Theorem overflow_repeats i o (Hd : ended o = Done)
    (Hc : after_last cursor_prefix (stake (Z.to_nat maxStdoutBytes) (concat_lines (out_chunks o))) = None) :
  (process_output i o).2 = i.
Proof.
  unfold process_output, read_output. rewrite Hd, collected_spec by done. unfold extractCursor. rewrite Hc.
  by rewrite decide_True.
Qed.

(** ** Witnesses *)
Definition demo_ins : Instance :=
  mkInstance ["sshd"] "" ["*"] [] 10 (30 * Second) "Warning" None None "/usr/bin/journalctl" "" "2026-01-01 00:00:00".
Definition demo_journal : list entry := [mkEntry "s=1" ["old"]; mkEntry "s=2" ["first"; " more"]; mkEntry "s=3" ["second"]].

(** A journal that grows up to the three entries: the world is their number. *)
#[export] Instance demo_process : Process nat := fun _ args w =>
  let j := take w demo_journal in
  let es := match drop 3 args with
            | opt :: c :: _ => if decide (opt = "--since") then drop 1 j else after c j
            | _ => []
            end in
  (mkOutput [shown es] [] Done, w).

Lemma demo_ok w : Forall entry_ok (take w demo_journal) /\ NoDup (map e_cursor (take w demo_journal)).
Proof.
  split.
  - apply Forall_take. repeat constructor; done.
  - destruct w as [|[|[|w]]]; cbn; try rewrite take_nil; cbn; repeat constructor; set_solver.
Qed.
Lemma demo_shows w args es : asks demo_ins 1 (take w demo_journal) args es ->
  let '(o, w') := run_process (bin demo_ins) args w in
  (~ failed o -> concat_lines (out_chunks o) = shown es) /\ take w demo_journal `prefix_of` take w' demo_journal.
Proof. intros [|c]; cbn; (split; [intros _; by rewrite string_app_nil_r|done]). Qed.

Lemma journal_is_read_once_witness :
  ["first"; " more"] ++ lines_read (with_cursor "s=2" demo_ins) (demo_process "" (buildArgs (with_cursor "s=2" demo_ins)) 3%nat).1
    = ["first"; " more"; "second"].
Proof.
  destruct (@journal_is_read_once nat demo_process demo_ins (fun w => take w demo_journal) 1%nat eq_refl demo_ok demo_shows 1%nat (with_cursor "s=2" demo_ins) 3%nat ["first"; " more"])
    as [_ H].
  - cbn. lia.
  - eapply rtc_l; [apply (step_append _ _ _ 2%nat); by exists [mkEntry "s=2" ["first"; " more"]]|].
    eapply rtc_l; [eapply step_gather; [reflexivity|by vm_compute|reflexivity]|].
    eapply rtc_l; [apply (step_append _ _ _ 3%nat); by exists [mkEntry "s=3" ["second"]]|].
    assert (forall a b : Instance * nat * list string, a = b -> rtc (step (fun w => take w demo_journal)) a b) as Hrefl by (intros ? ? ->; apply rtc_refl).
    apply Hrefl. vm_compute. reflexivity.
  - eapply H; [reflexivity| |by intros []|reflexivity]. by vm_compute.
Defined.

(** A line that fills the buffer. *)
Fixpoint long_line (n : nat) : string := match n with O => "" | S n' => String "a" (long_line n') end.
Lemma long_line_length n : String.length (long_line n) = n.
Proof. induction n; cbn; congruence. Qed.
Lemma long_line_space n : has_byte " " (long_line n) = false.
Proof. by induction n. Qed.

Lemma overflow_repeats_witness :
  let o := mkOutput [long_line (Z.to_nat maxStdoutBytes) +:+ newline +:+ cursor_prefix +:+ "s=2" +:+ newline] [] Done in
  (process_output demo_ins o).2 = demo_ins.
Proof.
  cbv zeta. apply overflow_repeats; [reflexivity|]. cbn [out_chunks concat_lines foldr]. rewrite string_app_nil_r.
  rewrite stake_app by (rewrite long_line_length; lia). rewrite stake_all by (rewrite long_line_length; lia).
  apply (after_last_none " "%char); [apply long_line_space|reflexivity].
Defined.
