(* ===== verification/Exec.v ===== *)
(** * The exec check (plugins/exec/exec.go)

    Runs commands and turns what they print into events: JSON events as they
    are, or the status line of a Nagios plugin.  What a command does when it is
    run is an argument, as is the order in which the goroutines push. *)
From S2P Require Import Prelude GoStr GoLib Types GoFmt GoConv GoJson GoJsonProps JsonDec Shell Backends BackendsProps Pushing.
#[local] Open Scope Z_scope.
#[local] Open Scope go_scope.

Abbreviation limitedWriter := limitedBuffer.

Record Instance := mkInstance {
  Commands : list string; Timeout : Z; Concurrency : Z; Mode : string; EnvVars : gomap string
}.

Definition Init (ins : Instance) : res string Instance :=
  if bool_decide (Commands ins = []) then Good ins
  else
    let mode := if decide (Mode ins = "") then "json" else Mode ins in
    if bool_decide (mode <> "json") && bool_decide (mode <> "nagios")
    then Bad ("mode must be 'json' or 'nagios', got '" +:+ mode +:+ "'")
    else
      Good (mkInstance (Commands ins) (if Timeout ins =? 0 then 10 * Second else Timeout ins)
              (if Concurrency ins =? 0 then 5 else Concurrency ins) mode (EnvVars ins)).

Definition space : ascii := " "%char.
Definition carriage_return : ascii := ascii_of_N 13.

(** [strings.SplitN(s, c, 2)]. *)
Definition split2 (c : ascii) (s : string) : string * option string :=
  match cut_at c s with Some (a, b) => (a, Some b) | None => (s, None) end.

(** ** Events *)
Definition base (check command : string) : Event := BuildEvent [attrs_of [("check", check); ("target", command)]].

Definition truncateUTF8 (b : string) (max : Z) : string :=
  if slen b <=? max then b else ToValidUTF8 (stake (Z.to_nat max) b) "" +:+ "... (truncated)".

Definition buildErrorEvent (command err output : string) : Event :=
  critical (base "exec::error" command)
    ("command exec failed: " +:+ err +:+ (if 0 <? slen output then newline +:+ truncateUTF8 output 1024 else "")).

Definition combineOutput (stdout stderr : string) : string :=
  if slen stdout =? 0 then stderr else if slen stderr =? 0 then stdout else stdout +:+ newline +:+ stderr.

(** ** Running a command *)
Section run.
Variable windows : bool.

Fixpoint without (c : ascii) (s : string) : string :=
  match s with
  | "" => ""
  | String a s' => if decide (a = c) then without c s' else String a (without c s')
  end.
Definition RemoveWindowsCarriageReturns (s : string) : string := if windows then without carriage_return s else s.

Definition shell_error_text (err : shell_error) : string :=
  match err with
  | UnterminatedSingleQuoteError => "Unterminated single-quoted string"
  | UnterminatedDoubleQuoteError => "Unterminated double-quoted string"
  | UnterminatedEscapeError => "Unterminated backslash-escape"
  end.

(** The variables that are added to the environment, in the order of the map;
    without any the environment is inherited. *)
Variable visit : gmap string string -> list (string * string).
Definition env_of (ins : Instance) : list string :=
  map (fun '(k, v) => k +:+ "=" +:+ v) (visit (default ∅ (EnvVars ins))).

(** Output, errors, exit code and error of a run; [start] is what the words do
    with an environment. *)
Record run_result := mkRun { r_stdout : string; r_stderr : string; exitCode : Z; r_err : option string }.
Definition runCommand (ins : Instance) (start : list string -> list string -> Output) (command : string) : run_result :=
  match QuoteSplit windows command with
  | Some ((_ :: _) as words, None) =>
    let o := start (env_of ins) words in
    let out := RemoveWindowsCarriageReturns (collected maxStdoutBytes (out_chunks o)) in
    let err := RemoveWindowsCarriageReturns (collected maxStderrBytes (err_chunks o)) in
    match ended o with
    | TimedOut => mkRun out err (-1) (Some ("command timed out after " +:+ Duration_String (Timeout ins)))
    | ExitError code _ => mkRun out err code None
    | RunError e => mkRun "" err (-1) (Some e)
    | Done => mkRun out err 0 None
    end
  | Some (_, e) => mkRun "" "" (-1) (Some ("unable to parse command: " +:+ match e with Some e => shell_error_text e | None => "<nil>" end))
  | None => mkRun "" "" (-1) None
  end.

(** ** Nagios plugins *)
Definition nagiosExitCodeToStatus (code : Z) : string :=
  if code =? 0 then EventStatusOk else if code =? 1 then EventStatusWarning else EventStatusCritical.

(** The status line, the performance data and the long text. *)
Definition nagios_parts (stdout : string) : string * string * string :=
  let '(first, rest) := split2 nl (TrimSpace stdout) in
  let '(status, perf) := split2 "|"%char first in
  (TrimSpace status, TrimSpace (default "" perf), TrimSpace (default "" rest)).

Definition given (k v : string) : list (string * string) := if decide (v = "") then [] else [(k, v)].

Definition gatherNagios (command stdout : string) (code : Z) : Event :=
  let '(statusLine, perfData, longText) := nagios_parts stdout in
  let attrs := ("exit_code", itoa code) :: given "status" statusLine ++ given "perfdata" perfData in
  let desc := if decide (statusLine = "") then "exit code " +:+ itoa code else statusLine in
  SetDescription
    (SetEventStatus (SetAttrs (base "exec::nagios" command) (attrs_of attrs)) (nagiosExitCodeToStatus code))
    (desc +:+ (if decide (longText = "") then "" else newline +:+ longText)).

(** ** JSON events *)
Definition dec_gomap (v : jval) (d : dec (gomap string)) : dec (gomap string) :=
  match v with
  | VNull => (None, d.2)
  | VObj _ => let '(m, ok) := dec_map "" dec_string v (default ∅ d.1, d.2) in (Some m, ok)
  | _ => wrong d
  end.

Definition zero_event : Event := mkEvent 0 "" "" None None "" "" 0 0 0.
Definition with_format (f : string) (e : Event) : Event :=
  mkEvent (EventTime e) (EventStatus e) (AlertKey e) (Labels e) (Attrs e) (Description e) f (FirstFireTime e) (NotifyCount e) (LastSent e).
Definition event_field (k : string) (v : jval) (d : dec Event) : dec Event :=
  if same_name k "event_time" then in_field EventTime with_EventTime dec_int v d
  else if same_name k "event_status" then in_field EventStatus with_EventStatus dec_string v d
  else if same_name k "alert_key" then in_field AlertKey with_AlertKey dec_string v d
  else if same_name k "labels" then in_field Labels with_Labels dec_gomap v d
  else if same_name k "attrs" then in_field Attrs with_Attrs dec_gomap v d
  else if same_name k "description" then in_field Description with_Description dec_string v d
  else if same_name k "description_format" then in_field DescriptionFormat with_format dec_string v d
  else d.
Definition dec_events : jval -> dec (list (option Event)) -> dec (list (option Event)) :=
  dec_slice None (dec_pointer zero_event (dec_struct event_field)).

(** The error of [Unmarshal] on a text. *)
Variable unmarshal_error : string -> string.

Definition with_status (e : Event) : Event := if decide (EventStatus e = "") then SetEventStatus e EventStatusCritical else e.

Definition gatherJSON (command stdout : string) (code : Z) : list Event :=
  if negb (code =? 0) then [buildErrorEvent command ("non-zero exit code " +:+ itoa code) stdout]
  else if slen stdout =? 0 then [buildErrorEvent command "command produced no output" ""]
  else
    match Unmarshal [] dec_events stdout with
    | None => [buildErrorEvent command ("failed to parse JSON: " +:+ unmarshal_error stdout) stdout]
    | Some events => map with_status (omap id events)
    end.

(** ** Gathering *)

(** The events of one command, in order. *)
Definition gather (ins : Instance) (start : list string -> list string -> Output) (command : string) : list Event :=
  let r := runCommand ins start command in
  match r_err r with
  | Some err => [buildErrorEvent command err (combineOutput (r_stdout r) (r_stderr r))]
  | None =>
    if decide (Mode ins = "nagios") then [gatherNagios command (r_stdout r) (exitCode r)]
    else gatherJSON command (r_stdout r) (exitCode r)
  end.

(** The commands: patterns are expanded, what matches nothing stays. *)
Definition expand (glob : string -> option (list string)) (pattern : string) : list string :=
  let '(cmd, args) := split2 space pattern in
  match glob cmd with
  | None => []
  | Some [] => [pattern]
  | Some matches => map (fun m => match args with Some a => m +:+ " " +:+ a | None => m end) matches
  end.
Definition expand_all (glob : string -> option (list string)) (ins : Instance) : list string :=
  concat (map (expand glob) (Commands ins)).

(** The goroutines push into one queue: each keeps its order. *)
Inductive interleaving {A} : list (list A) -> list A -> Prop :=
| all_pushed ls : Forall (fun l => l = []) ls -> interleaving ls []
| pushes i x l ls r : ls !! i = Some (x :: l) -> interleaving (<[i := l]> ls) r -> interleaving ls (x :: r).

(** [start n] is what the command of the goroutine [n] does. *)
Definition Gather (glob : string -> option (list string)) (start : nat -> list string -> list string -> Output) (ins : Instance) (evs : list Event) : Prop :=
  interleaving (imap (fun n command => gather ins (start n) command) (expand_all glob ins)) evs.
End run.

(** * Properties

    Events that a script prints as the agent itself writes them are pushed as
    they are; a Nagios plugin gives one event with the status of its exit code;
    the failures that are reported never recover. *)
(** ** Reading events back *)

Lemma dec_gomap_value m ok : dec_gomap (map_value m) (None, ok) = (Some m, ok).
Proof.
  pose proof (dec_map_back "" dec_string VStr m ok ltac:(done)) as H. change (VObj (sorted_members "" VStr m)) with (map_value m) in H.
  change (dec_gomap (map_value m) (None, ok)) with (let '(x, k) := dec_map "" dec_string (map_value m) (∅, ok) in (Some x, k) : dec (gomap string)).
  by rewrite H.
Qed.

(** An event as a script can give it: nothing of the internal fields, and no
    empty map of attributes, which is left out when it is written. *)
Definition plain_event (e : Event) : Prop :=
  utf8_event e /\ in_i64 (EventTime e) /\ Attrs e <> Some ∅ /\ FirstFireTime e = 0 /\ NotifyCount e = 0 /\ LastSent e = 0.

Lemma event_fields v d :
  event_field "event_time" v d = in_field EventTime with_EventTime dec_int v d /\
  event_field "event_status" v d = in_field EventStatus with_EventStatus dec_string v d /\
  event_field "alert_key" v d = in_field AlertKey with_AlertKey dec_string v d /\
  event_field "labels" v d = in_field Labels with_Labels dec_gomap v d /\
  event_field "attrs" v d = in_field Attrs with_Attrs dec_gomap v d /\
  event_field "description" v d = in_field Description with_Description dec_string v d /\
  event_field "description_format" v d = in_field DescriptionFormat with_format dec_string v d.
Proof. split_and!; reflexivity. Qed.

Lemma dec_event_value e : plain_event e -> dec_struct event_field (event_value e) (zero_event, true) = (e, true).
Proof.
  intros (_ & Ht & Ha & Hf & Hn & Hl). destruct e as [time status key labels attrs desc format f n l].
  cbn [EventTime Attrs FirstFireTime NotifyCount LastSent] in *. subst f n l.
  assert (forall (m : gomap string) ok, dec_gomap (gomap_value m) (None, ok) = (m, ok)) as Hm.
  { intros [m|] ok; [apply dec_gomap_value|done]. }
  assert (dec_int (VNum (itoa time)) (0, true) = (time, true)) as Hi.
  { unfold dec_int. change (ParseInt (itoa time)) with (Atoi (itoa time)). by rewrite Atoi_itoa. }
  unfold event_value, dec_struct. cbn [EventTime EventStatus AlertKey Labels Attrs Description DescriptionFormat app].
  cbn [fold_left]. pose proof event_fields as F.
  rewrite (proj1 (F _ _)). unfold in_field at 1. cbn [fst snd EventTime zero_event]. rewrite Hi.
  rewrite (proj1 (proj2 (F _ _))). unfold in_field at 1. cbn [dec_string fst snd].
  rewrite (proj1 (proj2 (proj2 (F _ _)))). unfold in_field at 1. cbn [dec_string fst snd].
  rewrite (proj1 (proj2 (proj2 (proj2 (F _ _))))). unfold in_field at 1.
  cbn [fst snd Labels with_AlertKey with_EventStatus with_EventTime zero_event]. rewrite Hm. cbn [with_Labels].
  assert (forall es : list (string * jval), forall d ok, Attrs d = None ->
    fold_left (fun d '(k, v) => event_field k v d) ((if gomap_len attrs =? 0 then [] else [("attrs", gomap_value attrs)]) ++ es) (d, ok)
      = fold_left (fun d '(k, v) => event_field k v d) es (with_Attrs attrs d, ok)) as Hattrs.
  { intros es d ok Hd. destruct (Z.eqb_spec (gomap_len attrs) 0) as [E|E].
    - assert (attrs = None) as ->; [|by destruct d; cbn in Hd; subst].
      destruct attrs as [m|]; [|done]. cbn in E. exfalso. apply Ha. f_equal. apply map_size_empty_iff. lia.
    - cbn [app fold_left]. rewrite (proj1 (proj2 (proj2 (proj2 (proj2 (F _ _)))))). unfold in_field. cbn [fst snd]. by rewrite Hd, Hm. }
  rewrite Hattrs by done. cbn [app fold_left].
  rewrite (proj1 (proj2 (proj2 (proj2 (proj2 (proj2 (F _ _))))))). unfold in_field at 1. cbn [dec_string fst snd with_Description with_Attrs].
  case_decide as Hd; [by subst|]. cbn [fold_left].
  rewrite (proj2 (proj2 (proj2 (proj2 (proj2 (proj2 (F _ _))))))). done.
Qed.

Lemma dec_events_value es : Forall plain_event es ->
  dec_events (VArr (map event_value es)) ([], true) = (map Some es, true).
Proof.
  intros H. unfold dec_events, dec_slice. cbn [fst snd]. match goal with |- fold_left ?g _ _ = _ => set (f := g) end.
  assert (forall acc, fold_left f (map event_value es) (acc, true) = (acc ++ map Some es, true)) as Hf; [|exact (Hf [])].
  induction H as [|e es He Hes IH]; intros acc; [by rewrite app_nil_r|]. cbn [map fold_left]. unfold f at 2.
  assert (dec_pointer zero_event (dec_struct event_field) (event_value e) (None, true) = (Some e, true)) as ->.
  { unfold dec_pointer. cbn [fst snd default]. rewrite dec_event_value by done. by unfold event_value. }
  cbn [fst snd andb]. rewrite IH. by rewrite <- app_assoc.
Qed.

(** C40: a script that prints events as the agent itself writes them has them
    pushed as they are, in order, with the status critical where there is none. *)
Theorem printed_events_are_pushed unmarshal_error command es (H : Forall plain_event es) :
  gatherJSON unmarshal_error command (json_Marshal (VArr (map event_value es))) 0 = map with_status es.
Proof.
  unfold gatherJSON. cbn [Z.eqb negb].
  assert (json_Unmarshal (json_Marshal (VArr (map event_value es))) = Some (VArr (map event_value es))) as Hu.
  { apply Marshal_Unmarshal, (json_ok_mono 3); [|by apply Nat.leb_le]. constructor. apply Forall_fmap.
    eapply Forall_impl; [exact H|]. intros e (He & _). by apply event_body_ok. }
  assert (slen (json_Marshal (VArr (map event_value es))) =? 0 = false) as ->.
  { apply Z.eqb_neq. cbn [json_Marshal]. rewrite slen_app. change (slen "[") with 1. pose proof (slen_nonneg (Join (map json_Marshal (map event_value es)) "," +:+ "]")). lia. }
  unfold Unmarshal. rewrite Hu, dec_events_value by done. f_equal. clear. induction es as [|e es IH]; [done|]. cbn. by rewrite IH.
Qed.

(** ** Goroutines *)
Lemma interleaving_elem {A} (ls : list (list A)) r : interleaving ls r -> r ≡ₚ concat ls.
Proof.
  induction 1 as [ls H|i x l ls r Hi _ IH].
  - induction H as [|l ls -> _ IH]; [done|exact IH].
  - rewrite IH. clear IH r. revert i Hi. induction ls as [|k ls IH]; intros [|i] Hi; cbn in Hi; [done..| |].
    + injection Hi as ->. done.
    + cbn. rewrite Permutation_middle. by rewrite IH.
Qed.

Section gather.
Variable windows : bool.
Variable visit : gmap string string -> list (string * string).
Variable unmarshal_error : string -> string.
#[local] Abbreviation gather := (gather windows visit unmarshal_error).
#[local] Abbreviation Gather := (Gather windows visit unmarshal_error).

(** The words of a command, and the run that they start. *)
Lemma runCommand_ok ins start command words : QuoteSplit windows command = Some (words, None) -> words <> [] ->
  let o := start (env_of visit ins) words in
  forall code, (ended o = Done /\ code = 0 \/ exists err, ended o = ExitError code err) ->
  runCommand windows visit ins start command =
    mkRun (RemoveWindowsCarriageReturns windows (collected maxStdoutBytes (out_chunks o)))
          (RemoveWindowsCarriageReturns windows (collected maxStderrBytes (err_chunks o))) code None.
Proof.
  intros Hq Hw o code Hc. unfold runCommand. rewrite Hq. destruct words as [|w words]; [done|]. fold o.
  destruct Hc as [[-> ->]|[err ->]]; done.
Qed.

(** in the mode of Nagios each command gives exactly one event, whose target
    is the command: the status of the exit code when the command ran, else the
    critical event of the check exec::error. *)
Theorem nagios_one_event_each glob start ins evs (Hm : Mode ins = "nagios") (Hg : Gather glob start ins evs) :
  exists per_command, evs ≡ₚ per_command /\
    Forall2 (fun command e => target_of e = command /\
        (check_of e = "exec::nagios" /\ (exists code, EventStatus e = nagiosExitCodeToStatus code /\ Attrs e ≫= lookup "exit_code" = Some (itoa code)) \/
         check_of e = "exec::error" /\ EventStatus e = EventStatusCritical))
      (expand_all glob ins) per_command.
Proof.
  set (one n command := let r := runCommand windows visit ins (start n) command in
     match r_err r with Some err => buildErrorEvent command err (combineOutput (r_stdout r) (r_stderr r)) | None => gatherNagios command (r_stdout r) (exitCode r) end).
  exists (imap one (expand_all glob ins)). split.
  - rewrite (interleaving_elem _ _ Hg). generalize (expand_all glob ins) as cs. intros cs. clear Hg.
    assert (forall start0 : nat -> list string -> list string -> Output, concat (imap (fun n command => gather ins (start0 n) command) cs)
      = imap (fun n command => let r := runCommand windows visit ins (start0 n) command in
     match r_err r with Some err => buildErrorEvent command err (combineOutput (r_stdout r) (r_stderr r)) | None => gatherNagios command (r_stdout r) (exitCode r) end) cs) as H; [|by rewrite H].
    induction cs as [|c cs IH]; intros start0; [done|]. rewrite !imap_cons. cbn [concat]. unfold compose.
    rewrite (IH (fun n => start0 (S n))). unfold gather. cbv zeta. rewrite (decide_True _ _ Hm). by destruct (r_err _).
  - generalize (expand_all glob ins) as cs. intros cs. apply Forall2_same_length_lookup. split; [by rewrite length_imap|].
    intros i command e Hc He. rewrite list_lookup_imap, Hc in He. injection He as <-. unfold one. cbv zeta.
    destruct (r_err (runCommand windows visit ins (start i) command)) as [err|].
    + split; [done|]. right. done.
    + unfold gatherNagios. destruct (nagios_parts _) as [[statusLine perfData] longText]. split; [done|]. left. split; [done|].
      exists (exitCode (runCommand windows visit ins (start i) command)). split; [done|].
      set (c := exitCode _). set (rest := given "status" statusLine ++ given "perfdata" perfData).
      change (copy_into (attrs_of (("exit_code", itoa c) :: rest)) ∅ !! "exit_code" = Some (itoa c)).
      rewrite copy_into_lookup. cbn [mbind option_bind list_to_map foldr].
      change (uncurry insert ("exit_code", itoa c)) with (insert (M := gmap string string) "exit_code" (itoa c)). by rewrite lookup_insert_eq.
Qed.
End gather.

(** ** Departures *)

(** The failure of a command is never reported as over: of the check
    exec::error the plugin itself makes critical events only, however the next
    runs end. *)
Theorem exec_error_never_recovers windows visit unmarshal_error ins start command e
    (He : e ∈ gather windows visit unmarshal_error ins start command) (Hc : check_of e = "exec::error") :
  EventStatus e = EventStatusCritical \/
  exists events, Unmarshal [] dec_events (r_stdout (runCommand windows visit ins start command)) = Some events /\ e ∈ map with_status (omap id events).
Proof.
  revert He. unfold gather. destruct (r_err _) as [err|]; [intros ->%list_elem_of_singleton; by left|].
  case_decide as Hm.
  - intros ->%list_elem_of_singleton. exfalso. revert Hc. unfold gatherNagios. by destruct (nagios_parts _) as [[? ?] ?].
  - unfold gatherJSON. destruct (negb _); [intros ->%list_elem_of_singleton; by left|].
    destruct (slen _ =? 0); [intros ->%list_elem_of_singleton; by left|].
    destruct (Unmarshal [] dec_events _) as [events|]; [|intros ->%list_elem_of_singleton; by left]. intros H. right. by exists events.
Qed.

(** ** Witnesses *)
Definition demo_ins : Instance := mkInstance ["/opt/check.sh -w 5"] (10 * Second) 5 "nagios" None.
Definition demo_start (n : nat) (env words : list string) : Output :=
  mkOutput ["WARNING: load 6"; " | load=6" +:+ newline; "details" +:+ newline] [] (ExitError 1 "exit status 1").
Definition no_glob (p : string) : option (list string) := Some [].
Definition demo_event : Event := mkEvent 0 "" "" (Some {["check" := "my::check"]}) None "done" "" 0 0 0.

Example demo_nagios :
  map (fun e => (EventStatus e, Description e)) (gather false map_to_list (fun _ => "") demo_ins (demo_start 0) "/opt/check.sh -w 5")
  = [("Warning", "WARNING: load 6" +:+ newline +:+ "details")].
Proof. vm_compute. reflexivity. Qed.

Lemma nagios_one_event_each_witness : exists evs per_command,
  Gather false map_to_list (fun _ => "") no_glob demo_start demo_ins evs /\ evs ≡ₚ per_command /\ length per_command = 1%nat.
Proof.
  set (l := gather false map_to_list (fun _ => "") demo_ins (demo_start 0) "/opt/check.sh -w 5").
  assert (Gather false map_to_list (fun _ => "") no_glob demo_start demo_ins l) as Hg.
  { unfold Gather. change (expand_all no_glob demo_ins) with ["/opt/check.sh -w 5"]. cbn [imap].
    change l with (hd zero_event l :: []). apply (pushes 0 _ []); [reflexivity|]. apply all_pushed. by constructor. }
  destruct (nagios_one_event_each false map_to_list (fun _ => "") no_glob demo_start demo_ins l eq_refl Hg) as (p & Hp & HF).
  exists l, p. split; [exact Hg|]. split; [exact Hp|]. by apply Forall2_length in HF.
Defined.

Lemma printed_events_are_pushed_witness :
  gatherJSON (fun _ => "") "cmd" (json_Marshal (VArr [event_value demo_event])) 0 = [SetEventStatus demo_event EventStatusCritical].
Proof.
  apply (printed_events_are_pushed (fun _ => "") "cmd" [demo_event]). constructor; [|constructor].
  split_and!; try done. assert (forall s, ValidString s = true -> utf8 s) as Hs by apply ValidString_utf8.
  constructor; try (apply Hs; vm_compute; reflexivity); cbn; [|by apply map_Forall_empty].
  apply map_Forall_singleton. split; apply Hs; vm_compute; reflexivity.
Defined.

Lemma exec_error_never_recovers_witness : exists e,
  e ∈ gather false map_to_list (fun _ => "") demo_ins (fun _ _ => mkOutput [] [] TimedOut) "/opt/x" /\ EventStatus e = EventStatusCritical.
Proof.
  eexists. split; [by left|].
  edestruct (exec_error_never_recovers false map_to_list (fun _ => "") demo_ins (fun _ _ => mkOutput [] [] TimedOut) "/opt/x") as [H|[es [H _]]];
    [by left|reflexivity|exact H|vm_compute in H; discriminate H].
Defined.
