(* ===== verification/Ntp.v ===== *)
(** * The NTP check (plugins/ntp/ntp.go)

    What chronyc, ntpq or timedatectl print of the clock, the checks of the
    synchronisation, the offset and the stratum. *)
From S2P Require Import Prelude GoStr GoLib Types GoFmt GoConv JsonDec GoUrl Pushing.
#[local] Open Scope Z_scope.
#[local] Open Scope go_scope.

Inductive tool := chrony | ntpd | timedatectl.
Definition mode_name (m : tool) : string := match m with chrony => "chrony" | ntpd => "ntpd" | timedatectl => "timedatectl" end.

Record Settings := mkSettings {
  Mode : string; Timeout : Z; Severity : string;
  o_WarnGe : Z; o_CriticalGe : Z; s_WarnGe : Z; s_CriticalGe : Z
}.
Record Instance := mkInstance { cfg : Settings; detectedMode : tool; bin : string }.

(** ** Init *)
Section init.
Variable is_print : Z -> bool.
Variable LookPath : string -> res string string.

Definition tool_file (m : tool) : string := match m with chrony => "chronyc" | ntpd => "ntpq" | timedatectl => "timedatectl" end.
Definition autoDetect : res string (tool * string) :=
  match LookPath (tool_file chrony) with
  | Good bin => Good (chrony, bin)
  | Bad _ =>
    match LookPath (tool_file ntpd) with
    | Good bin => Good (ntpd, bin)
    | Bad _ =>
      match LookPath (tool_file timedatectl) with
      | Good bin => Good (timedatectl, bin)
      | Bad _ => Bad "no NTP tool found (tried chronyc, ntpq, timedatectl)"
      end
    end
  end.
Definition chosen (m : tool) : res string (tool * string) :=
  match LookPath (tool_file m) with
  | Good bin => Good (m, bin)
  | Bad err => Bad (tool_file m +:+ " not found: " +:+ err)
  end.
Definition find_tool (mode : string) : res string (tool * string) :=
  let mode := TrimSpace mode in
  let mode := if decide (mode = "") then "auto" else mode in
  if decide (mode = "auto") then autoDetect
  else if decide (mode = "chrony") then chosen chrony
  else if decide (mode = "ntpd") then chosen ntpd
  else if decide (mode = "timedatectl") then chosen timedatectl
  else Bad ("invalid mode " +:+ Quote is_print mode +:+ ", must be one of: auto, chrony, ntpd, timedatectl").

Definition crossed (warn crit : Z) : bool := (0 <? warn) && (0 <? crit) && (crit <=? warn).

Definition Init (goos : string) (s : Settings) : res string Instance :=
  if negb (bool_decide (goos = "linux")) then Bad ("ntp plugin only supports linux (current: " +:+ goos +:+ ")")
  else
    let timeout := if Timeout s =? 0 then 10 * Second else Timeout s in
    if negb (bool_decide (Severity s = "")) && negb (EventStatusValid (Severity s))
    then Bad ("invalid sync.severity " +:+ Quote is_print (Severity s))
    else if crossed (o_WarnGe s) (o_CriticalGe s)
    then Bad ("offset.warn_ge(" +:+ Duration_String (o_WarnGe s) +:+ ") must be less than offset.critical_ge(" +:+ Duration_String (o_CriticalGe s) +:+ ")")
    else if crossed (s_WarnGe s) (s_CriticalGe s)
    then Bad ("stratum.warn_ge(" +:+ itoa (s_WarnGe s) +:+ ") must be less than stratum.critical_ge(" +:+ itoa (s_CriticalGe s) +:+ ")")
    else
      match find_tool (Mode s) with
      | Bad err => Bad err
      | Good (m, bin) =>
        let severity := if decide (Severity s = "") then EventStatusCritical else Severity s in
        Good (mkInstance (mkSettings (Mode s) timeout severity (o_WarnGe s) (o_CriticalGe s) (s_WarnGe s) (s_CriticalGe s)) m bin)
      end.
End init.

(** ** What the tools print *)
Record ntpResult := mkResult { synced : bool; offset : Z; stratum : Z; source : string; extra : gmap string string }.
Definition no_result : ntpResult := mkResult false 0 0 "" ∅.
Definition set_synced (b : bool) (r : ntpResult) : ntpResult := mkResult b (offset r) (stratum r) (source r) (extra r).
Definition set_offset (o : Z) (r : ntpResult) : ntpResult := mkResult (synced r) o (stratum r) (source r) (extra r).
Definition set_stratum (n : Z) (r : ntpResult) : ntpResult := mkResult (synced r) (offset r) n (source r) (extra r).
Definition set_source (s : string) (r : ntpResult) : ntpResult := mkResult (synced r) (offset r) (stratum r) s (extra r).
Definition set_extra (k v : string) (r : ntpResult) : ntpResult := mkResult (synced r) (offset r) (stratum r) (source r) (<[k := v]> (extra r)).


(** A line of a key and a value, trimmed. *)
Definition key_value (sep : ascii) (line : string) : option (string * string) :=
  match cut_at sep line with Some (k, v) => Some (TrimSpace k, TrimSpace v) | None => None end.

Definition parseChronyOffset (val : string) : Z :=
  match Fields val with
  | x :: _ :: _ :: _ =>
    match strconv_ParseFloat x with
    | Bad _ => 0
    | Good f => f64_to_int64 (f64_mul (if Contains val "slow" then SFopp f else f) (f64_of_Z Second))
    end
  | _ => 0
  end.

(** The first text in parentheses, unless a parenthesis is closed before. *)
Definition in_parentheses (val : string) : option string :=
  match cut_at "("%char val with
  | Some (before, rest) => if has_byte ")"%char before then None else option_map fst (cut_at ")"%char rest)
  | None => None
  end.

Definition chrony_line (r : ntpResult) (line : string) : ntpResult :=
  match key_value ":"%char line with
  | None => r
  | Some (key, val) =>
    if decide (key = "Reference ID") then
      set_extra "reference_id" val (match in_parentheses val with Some s => set_source s r | None => r end)
    else if decide (key = "Stratum") then match Atoi val with Good n => set_stratum n r | Bad _ => r end
    else if decide (key = "System time") then set_extra "system_time" val (set_offset (parseChronyOffset val) r)
    else if decide (key = "Last offset") then set_extra "last_offset" val r
    else if decide (key = "RMS offset") then set_extra "rms_offset" val r
    else if decide (key = "Leap status") then set_synced (bool_decide (val = "Normal")) (set_extra "leap_status" val r)
    else r
  end.
Definition parseChronyTracking (data : string) : ntpResult := fold_left chrony_line (split_on nl data) no_result.

Definition Millisecond : Z := 1000000.
Definition peer_fields (fields : list string) (r : ntpResult) : ntpResult :=
  let nth i := default "" (fields !! i) in
  let r := set_source (nth 0%nat) r in
  let r := match Atoi (nth 2%nat) with Good n => set_stratum n r | Bad _ => r end in
  let r := match strconv_ParseFloat (nth 8%nat) with
           | Good f => set_offset (f64_to_int64 (f64_mul f (f64_of_Z Millisecond))) r
           | Bad _ => r
           end in
  set_extra "refid" (nth 1%nat) (set_extra "jitter" (nth 9%nat +:+ "ms") (set_extra "delay" (nth 7%nat +:+ "ms") r)).

(** The first complete line of the peer that is marked by a star. *)
Fixpoint ntpq_lines (lines : list string) (r : ntpResult) : ntpResult :=
  match lines with
  | [] => r
  | line :: lines' =>
    match TrimSpace line with
    | String c rest =>
      if decide (c = "*"%char) then
        let r := set_synced true r in
        let fields := Fields rest in
        if zlen fields <? 10 then ntpq_lines lines' r else peer_fields fields r
      else ntpq_lines lines' r
    | "" => ntpq_lines lines' r
    end
  end.
Definition parseNtpqOutput (data : string) : ntpResult := ntpq_lines (split_on nl data) no_result.

Definition timedatectl_line (r : ntpResult) (line : string) : ntpResult :=
  match key_value "="%char line with
  | None => r
  | Some (key, val) =>
    if decide (key = "NTP") then set_extra "ntp_enabled" val r
    else if decide (key = "NTPSynchronized") then set_extra "ntp_synchronized" val (set_synced (bool_decide (val = "yes")) r)
    else r
  end.
Definition parseTimedatectl (data : string) : ntpResult := fold_left timedatectl_line (split_on nl data) no_result.

Definition tool_args (m : tool) : list string :=
  match m with chrony => ["-n"; "tracking"] | ntpd => ["-pn"] | timedatectl => ["show"] end.
Definition tool_command (m : tool) : string :=
  match m with chrony => "chronyc tracking" | ntpd => "ntpq -pn" | timedatectl => "timedatectl show" end.
Definition parse_tool (m : tool) : string -> ntpResult :=
  match m with chrony => parseChronyTracking | ntpd => parseNtpqOutput | timedatectl => parseTimedatectl end.

Definition query_result (ins : Instance) (o : Output) : res string ntpResult :=
  let m := detectedMode ins in
  let failed err := Bad (tool_command m +:+ " failed: " +:+ err +:+ " (stderr: " +:+ TrimSpace (concat_lines (err_chunks o)) +:+ ")") in
  match ended o with
  | TimedOut => Bad (tool_command m +:+ " timed out after " +:+ Duration_String (Timeout (cfg ins)))
  | ExitError _ err | RunError err => failed err
  | Done => Good (parse_tool m (concat_lines (out_chunks o)))
  end.

(** ** The checks *)
Section checks.
Variable ins : Instance.

Definition base (check : string) : Event := BuildEvent [attrs_of [("check", check); ("target", "ntp")]].

Definition attrLabels (r : ntpResult) : gmap string string :=
  extra r ∪ list_to_map
    (("mode", mode_name (detectedMode ins))
     :: (if decide (source r = "") then [] else [("source", source r)])
     ++ (if 0 <? stratum r then [("stratum", itoa (stratum r))] else [])).

Definition checkSync (r : ntpResult) : Event :=
  let event := set_attr "threshold_desc" (Severity (cfg ins) +:+ ": NTP not synchronized") (SetAttrs (base "ntp::sync") (Some (attrLabels r))) in
  let event := SetCurrentValue event (if synced r then "synced" else "not synced") in
  let mode := mode_name (detectedMode ins) in
  if synced r then
    SetDescription event ("NTP synchronized (mode: " +:+ mode +:+ (if decide (source r = "") then "" else ", source: " +:+ source r) +:+ ")")
  else
    SetDescription (SetEventStatus event (Severity (cfg ins)))
      ("NTP not synchronized (mode: " +:+ mode +:+ match extra r !! "leap_status" with Some l => ", leap status: " +:+ l | None => "" end
       +:+ "), clock may be drifting").

(** A value against two thresholds, which are off when they are not positive. *)
Definition judged (event : Event) (value warn crit : Z) (text_crit text_warn text_ok : string) : Event :=
  if (0 <? crit) && (crit <=? value) then critical event text_crit
  else if (0 <? warn) && (warn <=? value) then SetDescription (SetEventStatus event EventStatusWarning) text_warn
  else SetDescription event text_ok.
Definition parts (show : Z -> string) (warn crit : Z) : list string :=
  (if 0 <? warn then ["Warning ≥ " +:+ show warn] else []) ++ (if 0 <? crit then ["Critical ≥ " +:+ show crit] else []).

Definition absOffset (r : ntpResult) : Z := f64_to_int64 (SFabs (f64_of_Z (offset r))).

Definition checkOffset (r : ntpResult) : list Event :=
  let warn := o_WarnGe (cfg ins) in let crit := o_CriticalGe (cfg ins) in
  if ((warn =? 0) && (crit =? 0)) || negb (synced r) then []
  else
    let abs := absOffset r in
    let attrs := <["offset" := Duration_String (offset r)]> (<["abs_offset" := Duration_String abs]> (attrLabels r)) in
    let event := SetCurrentValue (SetAttrs (base "ntp::offset") (Some attrs)) (Duration_String abs) in
    let event := thresholds_attr (parts Duration_String warn crit) event in
    let text t := "time offset " +:+ Duration_String abs +:+ t in
    [judged event abs warn crit (text (" >= critical threshold " +:+ Duration_String crit))
       (text (" >= warning threshold " +:+ Duration_String warn)) (text ", everything is ok")].

Definition checkStratum (r : ntpResult) : list Event :=
  let warn := s_WarnGe (cfg ins) in let crit := s_CriticalGe (cfg ins) in
  if ((warn =? 0) && (crit =? 0)) || negb (synced r) then []
  else
    let event := SetCurrentValue (SetAttrs (base "ntp::stratum") (Some (<["stratum" := itoa (stratum r)]> (attrLabels r)))) (itoa (stratum r)) in
    let event := thresholds_attr (parts itoa warn crit) event in
    let text t := "NTP stratum " +:+ itoa (stratum r) +:+ t in
    [judged event (stratum r) warn crit (text (" >= critical threshold " +:+ itoa crit +:+ " (time source unreliable)"))
       (text (" >= warning threshold " +:+ itoa warn +:+ " (time source may be unreliable)")) (text ", everything is ok")].

Definition buildErrorEvent (errMsg : string) : Event :=
  SetDescription (SetEventStatus (SetAttrs (base "ntp::sync") (attrs_of [("mode", mode_name (detectedMode ins))])) (Severity (cfg ins))) errMsg.

Definition with_offsets (m : tool) : bool := match m with timedatectl => false | _ => true end.

Definition Gather (o : Output) : list Event :=
  match query_result ins o with
  | Bad err => [buildErrorEvent ("NTP query failed (" +:+ mode_name (detectedMode ins) +:+ "): " +:+ err)]
  | Good r => checkSync r :: (if with_offsets (detectedMode ins) then checkOffset r ++ checkStratum r else [])
  end.
End checks.

(** A gathering runs the tool. *)
Definition Gather_run {W} `{!Process W} (ins : Instance) (w : W) : list Event * W :=
  let '(o, w) := run_process (bin ins) (tool_args (detectedMode ins)) w in (Gather ins o, w).

(** * Properties

    Which events a gathering makes of what the tool prints, and their verdicts;
    the report of chronyc is read back. *)
(** ** The report of chronyc *)
(** A key with its padding, and a value that needs no trimming. *)
Lemma key_value_line k pad v : has_byte ":" (k +:+ pad) = false -> TrimSpace (k +:+ pad) = k -> TrimSpace v = v ->
  key_value ":" (k +:+ pad +:+ String ":" (String " " v)) = Some (k, v).
Proof. intros Hk Ht Hv. unfold key_value. by rewrite <- string_app_assoc, cut_at_app, Ht, TrimSpace_space, Hv. Qed.

(** What chronyc says of a clock. *)
Record tracking := mkTracking { t_id : string; t_address : string; t_stratum : Z; t_seconds : string; t_slow : bool; t_leap : string }.
Definition tracking_lines (t : tracking) : list string :=
  ["Reference ID    : " +:+ t_id t +:+ " (" +:+ t_address t +:+ ")";
   "Stratum         : " +:+ itoa (t_stratum t);
   "System time     : " +:+ t_seconds t +:+ " seconds " +:+ (if t_slow t then "slow" else "fast") +:+ " of NTP time";
   "Leap status     : " +:+ t_leap t].
Definition tracking_report (t : tracking) : string := text_of (tracking_lines t).

Definition clean_word (w : string) : Prop := word w /\ has_byte "(" w = false /\ has_byte ")" w = false.

Record tracking_ok (t : tracking) : Prop := {
  ok_id : clean_word (t_id t);
  ok_address : clean_word (t_address t);
  ok_stratum : in_i64 (t_stratum t);
  ok_seconds : word (t_seconds t) /\ has_byte "w" (t_seconds t) = false;
  ok_leap : TrimSpace (t_leap t) = t_leap t /\ has_byte nl (t_leap t) = false
}.

(** The seconds of the report as nanoseconds: negative when the clock is slow. *)
Definition reported_offset (t : tracking) : Z :=
  match strconv_ParseFloat (t_seconds t) with
  | Good f => f64_to_int64 (f64_mul (if t_slow t then SFopp f else f) (f64_of_Z Second))
  | Bad _ => 0
  end.

Lemma parseChronyOffset_text w (slow : bool) : word w -> has_byte "w" w = false ->
  parseChronyOffset (w +:+ " seconds " +:+ (if slow then "slow" else "fast") +:+ " of NTP time") =
    match strconv_ParseFloat w with
    | Good f => f64_to_int64 (f64_mul (if slow then SFopp f else f) (f64_of_Z Second))
    | Bad _ => 0
    end.
Proof.
  intros Hw Hn. unfold parseChronyOffset.
  assert (w +:+ " seconds " +:+ (if slow then "slow" else "fast") +:+ " of NTP time" = Join [w; "seconds"; if slow then "slow" else "fast"; "of"; "NTP"; "time"] " ") as E.
  { cbn [Join]. by destruct slow. }
  rewrite E, Fields_Join by (repeat apply Forall_cons_2; try apply Forall_nil_2; try done; by destruct slow). rewrite <- E.
  assert (Contains (w +:+ " seconds " +:+ (if slow then "slow" else "fast") +:+ " of NTP time") "slow" = slow) as ->; [|done].
  destruct slow.
  - rewrite <- string_app_assoc. apply Contains_mid.
  - apply (Contains_byte "w"); [|done]. rewrite has_byte_app, Hn. by vm_compute.
Qed.

(** a report of chronyc is read back: the clock counts as synchronised
    exactly when its leap status is Normal, and address, stratum and offset are
    those of the report. *)
Theorem tracking_read_back t (H : tracking_ok t) :
  let r := parseChronyTracking (tracking_report t) in
  synced r = bool_decide (t_leap t = "Normal") /\ source r = t_address t /\ stratum r = t_stratum t /\
  offset r = reported_offset t /\ extra r !! "leap_status" = Some (t_leap t).
Proof.
  destruct H as [[Hi [Hi1 Hi2]] [Ha [Ha1 Ha2]] Hs [Hw Hw2] [Hl Hl2]]. intros r. subst r.
  assert (forall w, word w -> has_byte nl w = false) as Hnl by (intros w [_ ?]; by apply visible_no).
  unfold parseChronyTracking, tracking_report. rewrite split_text_of.
  2:{ unfold tracking_lines. repeat apply Forall_cons_2; try apply Forall_nil_2; rewrite !has_byte_app, ?(Hnl (t_id t)), ?(Hnl (t_address t)), ?(Hnl (t_seconds t)), ?Hl2, ?(Hnl (itoa _)) by (done || apply word_itoa); try done. by destruct (t_slow t). }
  assert (key_value ":" ("Reference ID    : " +:+ t_id t +:+ " (" +:+ t_address t +:+ ")") = Some ("Reference ID", t_id t +:+ " (" +:+ t_address t +:+ ")")) as E1.
  { apply (key_value_line "Reference ID" "    "); [done|done|]. rewrite <- !string_app_assoc, string_app_assoc. rewrite string_app_assoc.
    change ")" with (String ")" ""). rewrite <- (string_app_assoc " ("). by apply trimmed_between. }
  assert (key_value ":" ("Stratum         : " +:+ itoa (t_stratum t)) = Some ("Stratum", itoa (t_stratum t))) as E2.
  { apply (key_value_line "Stratum" "         "); [done|done|]. apply word_trimmed, word_itoa. }
  set (time := t_seconds t +:+ " seconds " +:+ (if t_slow t then "slow" else "fast") +:+ " of NTP time").
  assert (key_value ":" ("System time     : " +:+ time) = Some ("System time", time)) as E3.
  { apply (key_value_line "System time" "     "); [done|done|]. unfold time.
    assert (t_seconds t +:+ " seconds " +:+ (if t_slow t then "slow" else "fast") +:+ " of NTP time"
            = t_seconds t +:+ (" seconds " +:+ (if t_slow t then "slow" else "fast") +:+ " of NTP tim") +:+ String "e" "") as -> by (by rewrite !string_app_assoc; destruct (t_slow t)).
    by apply trimmed_between. }
  assert (key_value ":" ("Leap status     : " +:+ t_leap t) = Some ("Leap status", t_leap t)) as E4.
  { by apply (key_value_line "Leap status" "     "). }
  assert (in_parentheses (t_id t +:+ " (" +:+ t_address t +:+ ")") = Some (t_address t)) as Ep.
  { unfold in_parentheses. change (" (" +:+ ?x) with (String " " (String "(" x)).
    change (String " " (String "(" ?x)) with (" " +:+ String "(" x). rewrite <- string_app_assoc, cut_at_app by (rewrite has_byte_app, Hi1; done).
    rewrite has_byte_app, Hi2. cbn [orb has_byte]. by rewrite cut_at_app. }
  assert (forall r, chrony_line r ("Reference ID    : " +:+ t_id t +:+ " (" +:+ t_address t +:+ ")")
    = set_extra "reference_id" (t_id t +:+ " (" +:+ t_address t +:+ ")") (set_source (t_address t) r)) as L1 by (intros r; unfold chrony_line; by rewrite E1, Ep).
  assert (forall r, chrony_line r ("Stratum         : " +:+ itoa (t_stratum t)) = set_stratum (t_stratum t) r) as L2
    by (intros r; unfold chrony_line; by rewrite E2, Atoi_itoa).
  assert (parseChronyOffset time = reported_offset t) as Eo by (by apply parseChronyOffset_text).
  assert (forall r, chrony_line r ("System time     : " +:+ time) = set_extra "system_time" time (set_offset (reported_offset t) r)) as L3
    by (intros r; unfold chrony_line; rewrite E3, <- Eo; reflexivity).
  assert (forall r, chrony_line r ("Leap status     : " +:+ t_leap t) = set_synced (bool_decide (t_leap t = "Normal")) (set_extra "leap_status" (t_leap t) r)) as L4
    by (intros r; unfold chrony_line; by rewrite E4).
  unfold tracking_lines. cbn [app fold_left]. fold time. rewrite L1, L2, L3, L4. change (chrony_line ?r "") with r. by split_and!.
Qed.

(** ** Events *)
Definition verdict (value warn crit : Z) : string :=
  if (0 <? crit) && (crit <=? value) then EventStatusCritical
  else if (0 <? warn) && (warn <=? value) then EventStatusWarning else EventStatusOk.

Lemma judged_event check event v w c a b d : event_of "ntp" check event -> EventStatus event = EventStatusOk ->
  event_of "ntp" check (judged event v w c a b d) /\ EventStatus (judged event v w c a b d) = verdict v w c.
Proof. intros He Hs. unfold judged, verdict. destruct (_ && _); [done|]. by destruct (_ && _). Qed.

(** The checks of a gathering: the synchronisation always; offset and stratum of a
    clock that is synchronised, when they are enabled and the tool tells them. *)
Definition offset_due (ins : Instance) (r : ntpResult) : bool :=
  with_offsets (detectedMode ins) && negb ((o_WarnGe (cfg ins) =? 0) && (o_CriticalGe (cfg ins) =? 0)) && synced r.
Definition stratum_due (ins : Instance) (r : ntpResult) : bool :=
  with_offsets (detectedMode ins) && negb ((s_WarnGe (cfg ins) =? 0) && (s_CriticalGe (cfg ins) =? 0)) && synced r.

(** a gathering reports the synchronisation once: Ok when the tool answered
    and the clock is synchronised, else with the configured severity; and then,
    when they are due, the offset and the stratum once each, with the status
    that their thresholds give. *)
Theorem ntp_gather_reports ins o :
  match query_result ins o with
  | Bad _ => exists e, Gather ins o = [e] /\ event_of "ntp" "ntp::sync" e /\ EventStatus e = Severity (cfg ins)
  | Good r => exists e offsets strata, Gather ins o = e :: offsets ++ strata /\
      event_of "ntp" "ntp::sync" e /\ EventStatus e = (if synced r then EventStatusOk else Severity (cfg ins)) /\
      events_of "ntp" (if offset_due ins r then ["ntp::offset"] else []) offsets /\
      Forall (fun e => EventStatus e = verdict (absOffset r) (o_WarnGe (cfg ins)) (o_CriticalGe (cfg ins))) offsets /\
      events_of "ntp" (if stratum_due ins r then ["ntp::stratum"] else []) strata /\
      Forall (fun e => EventStatus e = verdict (stratum r) (s_WarnGe (cfg ins)) (s_CriticalGe (cfg ins))) strata
  end.
Proof.
  unfold Gather. destruct (query_result ins o) as [r|err]; [|eexists; split; [done|done]].
  assert (event_of "ntp" "ntp::sync" (checkSync ins r) /\ EventStatus (checkSync ins r) = if synced r then EventStatusOk else Severity (cfg ins)) as [He Hs].
  { unfold checkSync. by destruct (synced r). }
  unfold offset_due, stratum_due. destruct (with_offsets (detectedMode ins)); cbn [andb].
  2:{ exists (checkSync ins r), [], []. split_and!; try done; constructor. }
  assert (events_of "ntp" (if negb ((o_WarnGe (cfg ins) =? 0) && (o_CriticalGe (cfg ins) =? 0)) && synced r then ["ntp::offset"] else []) (checkOffset ins r)
    /\ Forall (fun e => EventStatus e = verdict (absOffset r) (o_WarnGe (cfg ins)) (o_CriticalGe (cfg ins))) (checkOffset ins r)) as [? ?].
  { unfold checkOffset. destruct ((o_WarnGe _ =? 0) && _), (synced r); cbn [orb negb andb]; try (split; by constructor).
    split; (constructor; [|constructor]);
      [refine (proj1 (judged_event "ntp::offset" _ _ _ _ _ _ _ _ _))|refine (proj2 (judged_event "ntp::offset" _ _ _ _ _ _ _ _ _))]; first [by apply thresholds_attr_event|by rewrite thresholds_attr_status]. }
  assert (events_of "ntp" (if negb ((s_WarnGe (cfg ins) =? 0) && (s_CriticalGe (cfg ins) =? 0)) && synced r then ["ntp::stratum"] else []) (checkStratum ins r)
    /\ Forall (fun e => EventStatus e = verdict (stratum r) (s_WarnGe (cfg ins)) (s_CriticalGe (cfg ins))) (checkStratum ins r)) as [? ?].
  { unfold checkStratum. destruct ((s_WarnGe _ =? 0) && _), (synced r); cbn [orb negb andb]; try (split; by constructor).
    split; (constructor; [|constructor]);
      [refine (proj1 (judged_event "ntp::stratum" _ _ _ _ _ _ _ _ _))|refine (proj2 (judged_event "ntp::stratum" _ _ _ _ _ _ _ _ _))]; first [by apply thresholds_attr_event|by rewrite thresholds_attr_status]. }
  exists (checkSync ins r), (checkOffset ins r), (checkStratum ins r). split_and!; [reflexivity|exact He|exact Hs|assumption..].
Qed.

(** ** Departures *)

(** On the day of a leap second chronyc reports a synchronised clock as Insert
    second or Delete second; the check takes it for one that is not. *)
Theorem leap_second_alarms t (H : tracking_ok t) (Hl : t_leap t = "Insert second" \/ t_leap t = "Delete second") ins
    (Hm : detectedMode ins = chrony) :
  EventStatus (checkSync ins (parseChronyTracking (tracking_report t))) = Severity (cfg ins).
Proof.
  destruct (tracking_read_back t H) as [Hs _]. unfold checkSync. rewrite Hs.
  rewrite bool_decide_eq_false_2 by (destruct Hl as [-> | ->]; discriminate). done.
Qed.

(** ** Witnesses *)
Definition demo : tracking := mkTracking "0A000001" "10.0.0.1" 3 "0.000012345" true "Insert second".
Lemma demo_tracking_ok : tracking_ok demo.
Proof.
  assert (forall w, bool_decide (w = "") = false -> all_chars visible w = true -> word w) as Hw.
  { intros w H ?. split; [by apply bool_decide_eq_false in H|done]. }
  constructor; [split; [by apply Hw|done]|split; [by apply Hw|done]|done|split; [by apply Hw|done]|split; vm_compute; reflexivity].
Defined.

Lemma tracking_read_back_witness :
  synced (parseChronyTracking (tracking_report demo)) = false /\ offset (parseChronyTracking (tracking_report demo)) = -12345.
Proof.
  destruct (tracking_read_back demo demo_tracking_ok) as (Hs & _ & _ & Ho & _). split; [rewrite Hs; reflexivity|rewrite Ho; vm_compute; reflexivity].
Defined.

Lemma leap_second_alarms_witness :
  EventStatus (checkSync (mkInstance (mkSettings "" 1 "Critical" 0 0 0 0) chrony "/usr/bin/chronyc") (parseChronyTracking (tracking_report demo))) = "Critical".
Proof. apply (leap_second_alarms demo demo_tracking_ok); [by left|reflexivity]. Defined.

Example ntpq_ex :
  let r := parseNtpqOutput ("     remote           refid      st t when poll reach   delay   offset  jitter" +:+ newline
     +:+ "*10.0.0.2        .GPS.            1 u   33   64  377    0.310   -0.250   0.012" +:+ newline) in
  (synced r, source r, stratum r, offset r, extra r !! "delay") = (true, "10.0.0.2", 1, -250000, Some "0.310ms").
Proof. vm_compute. reflexivity. Qed.
