(* ===== verification/Mount.v ===== *)
(** * The mount check (plugins/mount/mount.go)

    Whether file systems are mounted as configured and as [/etc/fstab] says:
    parsing of both tables, the verdict on a mount point, the gathering. *)
From S2P Require Import Prelude GoStr GoLib Types GoFmt GoConv Pushing PluginConfig.
#[local] Open Scope Z_scope.
#[local] Open Scope go_scope.

Record MountSpec := mkSpec { Path : string; FSType : string; Options : list string; Severity : string }.
Record FstabCheck := mkFstab { Enabled : bool; f_Severity : string; ExcludeFSTypes : list string; ExcludePaths : list string }.
Record Instance := mkInstance { Mounts : list MountSpec; Fstab : FstabCheck }.

(** ** Init *)
Section init.
Variable is_print : Z -> bool.

Definition normalizeSeverity (s : string) : res string string := normalize_severity is_print EventStatusWarning s.

Fixpoint init_options (at_ : string) (j : Z) (opts : list string) : res string (list string) :=
  match opts with
  | [] => Good []
  | o :: opts' =>
    if decide (TrimSpace o = "") then Bad (at_ +:+ ".options[" +:+ itoa j +:+ "]: option must not be empty")
    else match init_options at_ (j + 1) opts' with Bad err => Bad err | Good l => Good (TrimSpace o :: l) end
  end.

(** The mount [i] of the settings, against the paths that were seen. *)
Definition init_mount (i : Z) (seen : gset string) (m : MountSpec) : res string MountSpec :=
  let at_ := "mounts[" +:+ itoa i +:+ "]" in
  let path := TrimSpace (Path m) in
  if decide (path = "") then Bad (at_ +:+ ": path must not be empty")
  else if negb (HasPrefix path "/") then Bad (at_ +:+ ": path must be absolute (start with /), got " +:+ Quote is_print path)
  else
    let path := if 1 <? slen path then TrimRight1 slash path else path in
    if bool_decide (path ∈ seen) then Bad (at_ +:+ ": duplicate mount path " +:+ Quote is_print path)
    else
      match init_options at_ 0 (Options m) with
      | Bad err => Bad err
      | Good opts =>
        match normalizeSeverity (Severity m) with
        | Bad err => Bad (at_ +:+ " (path=" +:+ path +:+ "): " +:+ err)
        | Good sev => Good (mkSpec path (TrimSpace (ToLower (FSType m))) opts sev)
        end
      end.

Fixpoint init_mounts (i : Z) (seen : gset string) (ms : list MountSpec) : res string (list MountSpec) :=
  match ms with
  | [] => Good []
  | m :: ms' =>
    match init_mount i seen m with
    | Bad err => Bad err
    | Good m => match init_mounts (i + 1) ({[Path m]} ∪ seen) ms' with Bad err => Bad err | Good l => Good (m :: l) end
    end
  end.

Definition init_fstab (f : FstabCheck) : res string FstabCheck :=
  if negb (Enabled f) then Good f
  else
    match normalizeSeverity (f_Severity f) with
    | Bad err => Bad ("fstab.severity: " +:+ err)
    | Good sev =>
      Good (mkFstab true sev
        (match ExcludeFSTypes f with [] => ["tmpfs"; "devtmpfs"; "squashfs"; "overlay"] | l => l end)
        (map TrimSpace (ExcludePaths f)))
    end.

Definition Init (goos : string) (ins : Instance) : res string Instance :=
  if negb (bool_decide (goos = "linux")) then Bad ("mount plugin only supports linux (current: " +:+ goos +:+ ")")
  else
    match init_mounts 0 ∅ (Mounts ins) with
    | Bad err => Bad err
    | Good ms => match init_fstab (Fstab ins) with Bad err => Bad err | Good f => Good (mkInstance ms f) end
    end.
End init.

(** ** Parsing *)
Definition backslash : ascii := byte 92.
Definition octal_digit (c : ascii) : option Z :=
  if in_range 48 55 (byte_val c) then Some (byte_val c - 48) else None.

(** [ParseUint(oct, 8, 8)] of three bytes. *)
Definition octal_byte (a b c : ascii) : option ascii :=
  match octal_digit a, octal_digit b, octal_digit c with
  | Some x, Some y, Some z => let v := (x * 8 + y) * 8 + z in if v <? 256 then Some (byte v) else None
  | _, _, _ => None
  end.

Fixpoint unescape (s : string) : string :=
  match s with
  | String c s' =>
    match s' with
    | String x (String y (String z rest)) =>
      if decide (c = backslash) then
        match octal_byte x y z with
        | Some v => String v (unescape rest)
        | None => String c (unescape s')
        end
      else String c (unescape s')
    | _ => String c (unescape s')
    end
  | "" => ""
  end.
Definition unescapeOctal (s : string) : string := if negb (has_byte backslash s) then s else unescape s.

Definition comma : ascii := ","%char.

(** The fields of the lines that are not empty, not comments and have four. *)
Definition table_line (line : string) : option (list string) :=
  let line := TrimSpace line in
  if bool_decide (line = "") || HasPrefix line "#" then None
  else let fields := Fields line in if zlen fields <? 4 then None else Some fields.

Record mountEntry := mkEntry { device : string; fsType : string; options : gset string; rawOptions : string }.

Definition add_mount (m : gmap string mountEntry) (line : string) : gmap string mountEntry :=
  match table_line line with
  | Some (d :: p :: t :: o :: _) => <[unescapeOctal p := mkEntry d t (list_to_set (split_on comma o)) o]> m
  | _ => m
  end.
Definition parseMountLines (content : string) : gmap string mountEntry := fold_left add_mount (split_on nl content) ∅.

Record fstabEntry := mkFstabEntry { f_device : string; mountPoint : string; f_fsType : string; f_options : list string }.
Definition fstab_line (line : string) : option fstabEntry :=
  match table_line line with
  | Some (d :: p :: t :: o :: _) => Some (mkFstabEntry d (unescapeOctal p) t (split_on comma o))
  | _ => None
  end.
Definition parseFstabLines (content : string) : list fstabEntry := omap fstab_line (split_on nl content).

Definition hasOption (opts : list string) (target : string) : bool := bool_decide (target ∈ opts).

(** ** The verdict on a mount point *)
Definition base (target : string) : Event := BuildEvent [attrs_of [("check", "mount::compliance"); ("target", target)]].

Definition formatNotMounted (spec : MountSpec) : string :=
  if decide (FSType spec = "") then Path spec +:+ " is not mounted"
  else Path spec +:+ " is not mounted (expected " +:+ FSType spec +:+ ")".
Definition formatExpect (spec : MountSpec) : string :=
  let parts := (if decide (FSType spec = "") then [] else [FSType spec])
               ++ (if decide (Options spec = []) then [] else [Join (Options spec) ","]) in
  if decide (parts = []) then "mounted" else Join parts ", ".

Definition missing_options (spec : MountSpec) (e : mountEntry) : list string :=
  filter (fun o => o ∉ options e) (Options spec).

Definition verdict (spec : MountSpec) (actual threshold status desc : string) : Event :=
  SetDescription
    (SetEventStatus
       (SetAttrs (base (Path spec))
          (attrs_of [("actual", actual); ("expect", formatExpect spec); ("threshold_desc", Severity spec +:+ ": " +:+ threshold)]))
       status) desc.

Definition checkMount (mountMap : gmap string mountEntry) (spec : MountSpec) : Event :=
  match mountMap !! Path spec with
  | None => verdict spec "not mounted" "not mounted" (Severity spec) (formatNotMounted spec)
  | Some entry =>
    let actual := fsType entry +:+ ", " +:+ rawOptions entry in
    if decide (FSType spec <> "" /\ fsType entry <> FSType spec) then
      verdict spec actual ("fstype ≠ " +:+ FSType spec) (Severity spec)
        (Path spec +:+ " is mounted as " +:+ fsType entry +:+ ", expected " +:+ FSType spec)
    else
      match missing_options spec entry with
      | _ :: _ as missing =>
        verdict spec actual "missing mount options" (Severity spec)
          (Path spec +:+ " is missing mount options: " +:+ Join missing ", " +:+ " (actual: " +:+ rawOptions entry +:+ ")")
      | [] =>
        verdict spec actual "mount compliance check" EventStatusOk
          (Path spec +:+ " is mounted as " +:+ fsType entry
           +:+ (if decide (Options spec = []) then "" else " with expected options (" +:+ Join (Options spec) ", " +:+ ")"))
      end
  end.

(** ** Gathering *)

(** The entries of the table that are to be checked. *)
Definition fstab_wanted (ins : Instance) (e : fstabEntry) : bool :=
  negb (bool_decide (mountPoint e = "none") || bool_decide (f_fsType e = "swap"))
  && negb (bool_decide (f_fsType e ∈ map ToLower (ExcludeFSTypes (Fstab ins))) || bool_decide (mountPoint e ∈ ExcludePaths (Fstab ins)))
  && negb (hasOption (f_options e) "noauto")
  && negb (bool_decide (mountPoint e ∈ map Path (Mounts ins))).
Definition fstab_spec (ins : Instance) (e : fstabEntry) : MountSpec := mkSpec (mountPoint e) (f_fsType e) [] (f_Severity (Fstab ins)).

Definition checkFstabMounts (ins : Instance) (fstab : file) (mountMap : gmap string mountEntry) : list Event :=
  match fstab with
  | Absent _ => []
  | Unreadable err => [critical (base "fstab") ("failed to read /etc/fstab: " +:+ err)]
  | Text s =>
    map (fun e => checkMount mountMap (fstab_spec ins e)) (filter (fun e => fstab_wanted ins e = true) (parseFstabLines s))
  end.

(** [mounts] is what was read of [/proc/mounts]. *)
Definition Gather (ins : Instance) (mounts : res string string) (fstab : file) : list Event :=
  match mounts with
  | Bad err => [critical (base "mounts") ("failed to parse /proc/mounts: " +:+ err)]
  | Good s =>
    let mountMap := parseMountLines s in
    map (checkMount mountMap) (Mounts ins) ++ (if Enabled (Fstab ins) then checkFstabMounts ins fstab mountMap else [])
  end.

(** * Properties

    The tables of the kernel are read back as they were written; a mount point
    is in order exactly when it complies; what is accepted is sound; three
    kinds of entries of [/etc/fstab] are misjudged. *)
(** ** The tables *)

(** How the kernel writes a name: the separators and the backslash as three
    octal digits. *)
Definition escaped (c : ascii) : bool := bool_decide (c ∈ [" "%char; byte 9; nl; backslash]).
Definition octal (c : ascii) : string :=
  let v := byte_val c in
  String backslash (String (byte (48 + v / 64)) (String (byte (48 + v / 8 mod 8)) (String (byte (48 + v mod 8)) ""))).
Fixpoint mangle (s : string) : string :=
  match s with "" => "" | String c s' => (if escaped c then octal c else String c "") +:+ mangle s' end.

Lemma unescape_octal c s : escaped c = true -> unescape (octal c +:+ s) = String c (unescape s).
Proof.
  intros H. apply bool_decide_eq_true in H. repeat (apply elem_of_cons in H as [->|H]; [reflexivity|]). by apply elem_of_nil in H.
Qed.

Lemma unescape_not_backslash c s : c <> backslash -> unescape (String c s) = String c (unescape s).
Proof.
  intros Hc. destruct s as [|x [|y [|z s]]]; try reflexivity. cbn [unescape]. by rewrite decide_False.
Qed.

Lemma unescape_mangle s : unescape (mangle s) = s.
Proof.
  induction s as [|c s IH]; [done|]. cbn [mangle]. destruct (escaped c) eqn:E.
  - by rewrite unescape_octal, IH.
  - change (String c "" +:+ ?t) with (String c t). rewrite unescape_not_backslash, IH; [done|]. intros ->. by vm_compute in E.
Qed.

Lemma unescape_no_backslash s : has_byte backslash s = false -> unescape s = s.
Proof.
  induction s as [|c s IH]; [done|]. cbn [has_byte]. intros [Hc Hs]%orb_false_iff. apply bool_decide_eq_false in Hc.
  by rewrite unescape_not_backslash, IH.
Qed.

Lemma unescapeOctal_mangle s : unescapeOctal (mangle s) = s.
Proof.
  unfold unescapeOctal. destruct (has_byte backslash (mangle s)) eqn:E; cbn [negb]; [apply unescape_mangle|].
  rewrite <- (unescape_mangle s) at 2. by rewrite unescape_no_backslash.
Qed.

(** The characters of a mount point: visible ones, and those that are escaped. *)
Definition name_char (c : ascii) : bool := visible c || escaped c.
Lemma mangle_visible s : all_chars name_char s = true -> all_chars visible (mangle s) = true.
Proof.
  induction s as [|c s IH]; [done|]. cbn [all_chars mangle]. intros [Hc Hs]%andb_true_iff. rewrite all_chars_app, IH by done.
  rewrite andb_true_r. destruct (escaped c) eqn:E.
  - apply bool_decide_eq_true in E. repeat (apply elem_of_cons in E as [->|E]; [reflexivity|]). by apply elem_of_nil in E.
  - unfold name_char in Hc. rewrite E, orb_false_r in Hc. cbn [all_chars]. by rewrite Hc.
Qed.

(** A mount as the kernel has it, and its line. *)
Record mount := mkMount { m_device : string; m_point : string; m_type : string; m_options : string }.
Definition fields_of (m : mount) : list string := [m_device m; mangle (m_point m); m_type m; m_options m; "0"; "0"].
Definition mount_line (m : mount) : string := Join (fields_of m) " ".
Definition table (ms : list mount) : string := concat_lines (map (fun m => mount_line m +:+ newline) ms).
Definition entry_of (m : mount) : mountEntry := mkEntry (m_device m) (m_type m) (list_to_set (split_on comma (m_options m))) (m_options m).

Definition mount_ok (m : mount) : Prop :=
  word (m_device m) /\ HasPrefix (m_device m) "#" = false /\
  m_point m <> "" /\ all_chars name_char (m_point m) = true /\ word (m_type m) /\ word (m_options m).

Lemma fields_words m : mount_ok m -> Forall word (fields_of m).
Proof.
  intros (? & _ & Hp & Hc & ? & ?). unfold fields_of. assert (word (mangle (m_point m))) as Hm.
  { split; [|by apply mangle_visible]. destruct (m_point m) as [|c p]; [done|]. cbn [mangle].
    destruct (escaped c); unfold octal; rewrite sapp_cons; done. }
  rewrite !Forall_cons, Forall_nil. by split_and!.
Qed.

Lemma mount_line_shape m : mount_ok m -> exists c s, mount_line m = String c s +:+ String "0" "" /\ visible c = true /\ c <> "#"%char.
Proof.
  intros (Hd & Hh & _). destruct Hd as [Hne Hv]. unfold mount_line, fields_of. destruct (m_device m) as [|c d] eqn:E; [done|].
  exists c, (d +:+ " " +:+ mangle (m_point m) +:+ " " +:+ m_type m +:+ " " +:+ m_options m +:+ " 0 "). split_and!.
  - cbn [Join]. repeat first [rewrite string_app_assoc|rewrite sapp_cons|rewrite sapp_nil]. reflexivity.
  - cbn [all_chars] in Hv. by apply andb_true_iff in Hv as [? _].
  - intros ->. cbn in Hh. by destruct d.
Qed.

Lemma table_line_mount m : mount_ok m -> table_line (mount_line m) = Some (fields_of m).
Proof.
  intros Hm. destruct (mount_line_shape m Hm) as (c & s & E & Hc & Hh). unfold table_line.
  rewrite E, TrimSpace_ends, <- E by done.
  assert (HasPrefix (mount_line m) "#" = false) as ->.
  { apply not_true_is_false. intros [r Ep]%HasPrefix_spec. rewrite E, sapp_cons in Ep. cbn in Ep. by injection Ep as -> _. }
  rewrite bool_decide_eq_false_2 by (rewrite E; done). unfold mount_line. by rewrite Fields_Join by (by apply fields_words).
Qed.

Lemma mount_line_no_nl m : mount_ok m -> has_byte nl (mount_line m) = false.
Proof.
  intros Hm. unfold mount_line. induction (fields_words m Hm) as [|w ws [_ Hw] Hws IH]; [done|].
  assert (has_byte nl w = false) as Hn by (by apply visible_no). destruct ws; [done|].
  change (Join (w :: s :: ws) " ") with (w +:+ " " +:+ Join (s :: ws) " "). by rewrite !has_byte_app, Hn, IH.
Qed.

(** whatever characters of ASCII the mount points hold, the table of the
    kernel is read back: the mount that counts for a point is the last one. *)
Theorem mounts_round_trip ms (H : Forall mount_ok ms) :
  parseMountLines (table ms) = fold_left (fun t m => <[m_point m := entry_of m]> t) ms ∅.
Proof.
  unfold parseMountLines. generalize (∅ : gmap string mountEntry) as t. induction H as [|m ms Hm Hms IH]; intros t; [done|].
  change (table (m :: ms)) with ((mount_line m +:+ newline) +:+ table ms). rewrite string_app_assoc.
  change (newline +:+ ?x) with (String nl ("" +:+ x)). rewrite sapp_nil, split_on_line by (by apply mount_line_no_nl).
  cbn [fold_left]. rewrite <- IH. f_equal. unfold add_mount. rewrite table_line_mount by done. unfold fields_of.
  by rewrite unescapeOctal_mangle.
Qed.

(** A line of fstab: an entry, or a comment, or an empty line. *)
Definition fstab_text (ls : list (string + mount)) : string :=
  concat_lines (map (fun l => match l with inl c => c | inr m => mount_line m end +:+ newline) ls).
Definition fstab_ok (l : string + mount) : Prop :=
  match l with inl c => has_byte nl c = false /\ table_line c = None | inr m => mount_ok m end.
Definition fstab_entry (m : mount) : fstabEntry := mkFstabEntry (m_device m) (m_point m) (m_type m) (split_on comma (m_options m)).

(** the entries of fstab are read back, in order, between comments and empty lines. *)
Theorem fstab_round_trip ls (H : Forall fstab_ok ls) :
  parseFstabLines (fstab_text ls) = omap (fun l => match l with inl _ => None | inr m => Some (fstab_entry m) end) ls.
Proof.
  unfold parseFstabLines. induction H as [|l ls Hl Hls IH]; [done|].
  change (fstab_text (l :: ls)) with ((match l with inl c => c | inr m => mount_line m end +:+ newline) +:+ fstab_text ls).
  rewrite string_app_assoc. change (newline +:+ ?x) with (String nl ("" +:+ x)). rewrite sapp_nil.
  rewrite split_on_line by (destruct l; [apply Hl|by apply mount_line_no_nl]). cbn [omap list_omap]. unfold fstab_line at 1.
  destruct l as [c|m].
  - destruct Hl as [_ ->]. exact IH.
  - rewrite table_line_mount by done. unfold fields_of. rewrite unescapeOctal_mangle. by rewrite IH.
Qed.

(** ** The verdict *)
Definition complies (spec : MountSpec) (e : mountEntry) : Prop :=
  (FSType spec = "" \/ fsType e = FSType spec) /\ Forall (fun o => o ∈ options e) (Options spec).

Lemma checkMount_event t spec : event_of (Path spec) "mount::compliance" (checkMount t spec).
Proof. unfold checkMount. destruct (t !! Path spec); [|done]. case_decide; [done|]. by destruct (missing_options _ _). Qed.

Lemma missing_none spec e : missing_options spec e = [] <-> Forall (fun o => o ∈ options e) (Options spec).
Proof.
  unfold missing_options. split.
  - intros H. apply Forall_forall. intros o Ho. destruct (decide (o ∈ options e)) as [|Hn]; [done|].
    assert (o ∈ filter (fun o => o ∉ options e) (Options spec)) as Hf by (by apply list_elem_of_filter). rewrite H in Hf. by apply elem_of_nil in Hf.
  - intros H. apply filter_none. eapply Forall_impl; [exact H|]. cbn. intros o Ho Hn. by apply Hn.
Qed.

Lemma checkMount_status t spec :
  (exists e, t !! Path spec = Some e /\ complies spec e) /\ EventStatus (checkMount t spec) = EventStatusOk \/
  ~ (exists e, t !! Path spec = Some e /\ complies spec e) /\ EventStatus (checkMount t spec) = Severity spec.
Proof.
  unfold checkMount, complies. destruct (t !! Path spec) as [e|]; [|right; split; [by intros (? & ? & _)|done]].
  case_decide as Ht; [right; split; [intros (e' & [= <-] & [?|?] & _); tauto|done]|].
  pose proof (missing_none spec e) as Hm. destruct (missing_options spec e) as [|o l].
  - left. split; [|done]. exists e. split; [done|]. split; [|by apply Hm].
    destruct (decide (FSType spec = "")); [by left|]. right. apply dec_stable. tauto.
  - right. split; [|done]. intros (e' & [= <-] & _ & Ho). by apply Hm in Ho.
Qed.

(** The specifications that a gathering checks. *)
Definition specs_of (ins : Instance) (fstab : string) : list MountSpec :=
  Mounts ins ++ (if Enabled (Fstab ins) then map (fstab_spec ins) (filter (fun e => fstab_wanted ins e = true) (parseFstabLines fstab)) else []).

(** C39: when both tables can be read, a gathering reports each configured mount
    and each wanted entry of [/etc/fstab] once and in order; an event is Ok
    exactly when the last mount on that point has the expected type and options,
    and has the configured severity otherwise. *)
Theorem Gather_judges_mounts ins ms fstab (H : Forall mount_ok ms) (Ha : Forall (fun s => Severity s <> EventStatusOk) (specs_of ins fstab)) :
  let mounted := fold_left (fun t m => <[m_point m := entry_of m]> t) ms (∅ : gmap string mountEntry) in
  Forall2 (fun spec e =>
      event_of (Path spec) "mount::compliance" e /\
      (EventStatus e = EventStatusOk <-> exists m, mounted !! Path spec = Some m /\ complies spec m) /\
      (EventStatus e = EventStatusOk \/ EventStatus e = Severity spec))
    (specs_of ins fstab) (Gather ins (Good (table ms)) (Text fstab)).
Proof.
  intros mounted. assert (Gather ins (Good (table ms)) (Text fstab) = map (checkMount mounted) (specs_of ins fstab)) as ->.
  { unfold Gather, specs_of. cbn zeta. rewrite (mounts_round_trip ms H). fold mounted. rewrite map_app. f_equal.
    destruct (Enabled (Fstab ins)); [|done]. unfold checkFstabMounts. by rewrite map_map. }
  induction Ha as [|spec l Hs Hl IH]; constructor; [|done].
  split; [apply checkMount_event|]. destruct (checkMount_status mounted spec) as [[H1 H2]|[H1 H2]]; rewrite H2.
  - split; [tauto|by left].
  - split; [tauto|by right].
Qed.

(** ** Settings *)
Lemma init_options_ok at_ j opts l : init_options at_ j opts = Good l -> Forall (fun o => o <> "") l.
Proof.
  revert j l. induction opts as [|o opts IH]; intros j l; cbn; [by intros [= <-]|]. case_decide; [done|].
  destruct (init_options at_ (j + 1) opts) eqn:E; [|done]. intros [= <-]. constructor; [done|by eapply IH].
Qed.

Definition sound_mount (m : MountSpec) : Prop := alerting (Severity m) /\ Forall (fun o => o <> "") (Options m).

Lemma init_mounts_ok is_print i seen ms l : init_mounts is_print i seen ms = Good l ->
  Forall sound_mount l /\ NoDup (map Path l) /\ (forall p, p ∈ seen -> p ∉ map Path l).
Proof.
  revert i seen l. induction ms as [|m ms IH]; intros i seen l; cbn [init_mounts].
  { intros [= <-]. split_and!; [done|constructor|]. by intros p _ ?%elem_of_nil. }
  destruct (init_mount is_print i seen m) as [m'|] eqn:Em; [|done].
  destruct (init_mounts is_print (i + 1) ({[Path m']} ∪ seen) ms) as [l'|] eqn:E; [|done]. intros [= <-].
  destruct (IH _ _ _ E) as (H1 & H2 & H3). revert Em. unfold init_mount. case_decide; [done|].
  destruct (negb _); [done|]. case_bool_decide as Hs; [done|].
  destruct (init_options _ 0 (Options m)) as [opts|] eqn:Eo; [|done].
  destruct (normalizeSeverity is_print (Severity m)) as [sev|] eqn:Ev; [|done]. intros [= <-]. cbn [map Path] in *.
  apply normalize_severity_ok in Ev. apply init_options_ok in Eo. split_and!.
  - by constructor.
  - constructor; [|done]. apply H3. set_solver.
  - intros p Hp. rewrite not_elem_of_cons. split; [set_solver|]. apply H3. set_solver.
Qed.

(** settings that are accepted name each mount point once, with severities
    that alert and options that are not empty. *)
Theorem mount_Init_sound is_print goos ins ins' (H : Init is_print goos ins = Good ins') :
  Forall sound_mount (Mounts ins') /\ NoDup (map Path (Mounts ins')) /\
  (Enabled (Fstab ins') = true -> alerting (f_Severity (Fstab ins')) /\ ExcludeFSTypes (Fstab ins') <> []).
Proof.
  revert H. unfold Init. case_bool_decide; [|done]. cbn [negb].
  destruct (init_mounts is_print 0 ∅ (Mounts ins)) as [ms|] eqn:E; [|done].
  destruct (init_fstab is_print (Fstab ins)) as [f|] eqn:Ef; [|done]. intros [= <-]. cbn [Mounts Fstab].
  apply init_mounts_ok in E as (? & ? & _). split_and!; [done..|]. revert Ef. unfold init_fstab.
  destruct (Enabled (Fstab ins)) eqn:Ee; cbn [negb]; [|by intros [= <-]; rewrite Ee].
  destruct (normalizeSeverity is_print _) as [sev|] eqn:Ev; [|done]. intros [= <-] _. apply normalize_severity_ok in Ev.
  split; [done|]. cbn. by destruct (ExcludeFSTypes (Fstab ins)).
Qed.

(** ** Departures *)

(** A path of slashes only becomes the empty path, which is never mounted. *)
Theorem path_of_slashes_vanishes is_print :
  Init is_print "linux" (mkInstance [mkSpec "//" "" [] ""] (mkFstab false "" [] [])) =
  Good (mkInstance [mkSpec "" "" [] "Warning"] (mkFstab false "" [] [])).
Proof. reflexivity. Qed.

(** A bind mount has the type none in [/etc/fstab] and the type of its file
    system in the table of the kernel: it is reported although it is mounted. *)
Theorem bind_mount_is_reported ins e t m (Ht : f_fsType e = "none") (Hm : t !! mountPoint e = Some m) (Hn : fsType m <> "none") :
  EventStatus (checkMount t (fstab_spec ins e)) = f_Severity (Fstab ins) /\
  Description (checkMount t (fstab_spec ins e)) = mountPoint e +:+ " is mounted as " +:+ fsType m +:+ ", expected none".
Proof.
  unfold checkMount, fstab_spec. cbn [Path FSType Severity]. rewrite Hm, Ht, decide_True by (split; [discriminate|done]). done.
Qed.

(** ** Witnesses *)
Definition demo_mounts : list mount := [mkMount "/dev/sda1" "/" "ext4" "rw,relatime"; mkMount "/dev/sdb1" "/my data" "xfs" "rw,noexec"].
Definition demo_ins : Instance :=
  mkInstance [mkSpec "/my data" "xfs" ["noexec"] "Warning"; mkSpec "/tmp" "tmpfs" [] "Critical"] (mkFstab true "Warning" ["tmpfs"] []).
Definition demo_fstab : string :=
  "# a comment" +:+ newline +:+ "/dev/sda1 / ext4 defaults 0 1" +:+ newline +:+ "/home /srv/home none bind 0 0" +:+ newline.

Example demo_table : table demo_mounts = "/dev/sda1 / ext4 rw,relatime 0 0" +:+ newline +:+ "/dev/sdb1 /my\040data xfs rw,noexec 0 0" +:+ newline.
Proof. reflexivity. Qed.
Example demo_gather :
  map (fun e => (EventStatus e, Description e)) (Gather demo_ins (Good (table demo_mounts)) (Text demo_fstab)) =
  [("Ok", "/my data is mounted as xfs with expected options (noexec)"); ("Critical", "/tmp is not mounted (expected tmpfs)");
   ("Ok", "/ is mounted as ext4"); ("Warning", "/srv/home is not mounted (expected none)")].
Proof. vm_compute. reflexivity. Qed.

(** [demo_fstab] as the text of its entries. *)
Lemma fstab_round_trip_witness :
  parseFstabLines demo_fstab = [mkFstabEntry "/dev/sda1" "/" "ext4" ["defaults"]; mkFstabEntry "/home" "/srv/home" "none" ["bind"]]
  /\ parseFstabLines (fstab_text [inl "# a comment"; inr (mkMount "/dev/sdb1" "/my data" "xfs" "rw,noexec")])
     = [mkFstabEntry "/dev/sdb1" "/my data" "xfs" ["rw"; "noexec"]].
Proof.
  split; [vm_compute; reflexivity|].
  apply (fstab_round_trip [inl "# a comment"; inr (mkMount "/dev/sdb1" "/my data" "xfs" "rw,noexec")]).
  repeat apply Forall_cons_2; [..|apply Forall_nil_2]; cbn; (split_and!; try done); vm_compute; split; done.
Defined.

Lemma demo_mounts_ok : Forall mount_ok demo_mounts.
Proof.
  assert (forall w, bool_decide (w = "") = false -> all_chars visible w = true -> word w) as Hw.
  { intros w H ?. split; [by apply bool_decide_eq_false in H|done]. }
  repeat apply Forall_cons_2; [..|apply Forall_nil_2];
    (split_and!; [by apply Hw|done|done|done|by apply Hw|by apply Hw]).
Defined.

Lemma mounts_round_trip_witness : parseMountLines (table demo_mounts) !! "/my data" = Some (mkEntry "/dev/sdb1" "xfs" {["noexec"; "rw"]} "rw,noexec").
Proof. rewrite (mounts_round_trip demo_mounts demo_mounts_ok). vm_compute. reflexivity. Defined.

Lemma Gather_judges_mounts_witness : exists P, Forall2 P (specs_of demo_ins demo_fstab) (Gather demo_ins (Good (table demo_mounts)) (Text demo_fstab)).
Proof.
  eexists. apply (Gather_judges_mounts demo_ins demo_mounts demo_fstab demo_mounts_ok).
  vm_compute. repeat constructor; discriminate.
Defined.

Lemma mount_Init_sound_witness : NoDup (map Path [mkSpec "/data" "ext4" ["rw"] "Warning"]).
Proof.
  apply (mount_Init_sound (fun _ => true) "linux" (mkInstance [mkSpec " /data/ " "EXT4" [" rw"] ""] (mkFstab false "" [] []))
    (mkInstance [mkSpec "/data" "ext4" ["rw"] "Warning"] (mkFstab false "" [] []))). vm_compute. reflexivity.
Defined.

Lemma bind_mount_is_reported_witness :
  EventStatus (checkMount {["/srv/home" := mkEntry "/dev/sda1" "ext4" ∅ "rw"]} (fstab_spec demo_ins (mkFstabEntry "/home" "/srv/home" "none" ["bind"]))) = "Warning".
Proof. apply (bind_mount_is_reported demo_ins (mkFstabEntry "/home" "/srv/home" "none" ["bind"]) {["/srv/home" := mkEntry "/dev/sda1" "ext4" ∅ "rw"]} (mkEntry "/dev/sda1" "ext4" ∅ "rw")); [reflexivity|reflexivity|discriminate]. Defined.
