(* ===== verification/HostChecks.v ===== *)
(** * Checks of single values of the host

    Shares in percent of a limit (plugins/conntrack, filefd, neigh), memory and
    processors (mem, cpu), states of connections and overflows of listening
    sockets (tcpstate, sockstat), the time since the start (uptime), parameters
    of the kernel (sysctl), security modules (secmod), the identity of the host
    (hostident).  The files of the kernel and what gopsutil answers are
    arguments. *)
From S2P Require Import Prelude GoStr GoLib Types GoFmt GoConv JsonDec GoUrl Pushing PluginConfig.
#[local] Open Scope Z_scope.
#[local] Open Scope go_scope.

(** ** Thresholds *)
Record GeCheck := mkGe { WarnGe : f64; CriticalGe : f64 }.

Definition f64_100 : f64 := f64_of_Z 100.
Definition ge_off (c : GeCheck) : bool := SFeqb (WarnGe c) f64_zero && SFeqb (CriticalGe c) f64_zero.
Definition ge_on (c : GeCheck) : bool := f64_pos (WarnGe c) || f64_pos (CriticalGe c).
Definition negative (c : GeCheck) : bool := SFltb (WarnGe c) f64_zero || SFltb (CriticalGe c) f64_zero.
Definition out_of_percent (c : GeCheck) : bool :=
  SFltb (WarnGe c) f64_zero || SFltb f64_100 (WarnGe c) || SFltb (CriticalGe c) f64_zero || SFltb f64_100 (CriticalGe c).
Definition ge_crossed (c : GeCheck) : bool :=
  f64_pos (WarnGe c) && f64_pos (CriticalGe c) && SFleb (CriticalGe c) (WarnGe c).

Definition percent_range_error (name : string) (c : GeCheck) : option string :=
  if out_of_percent c
  then Some (name +:+ " thresholds must be between 0 and 100 (got warn_ge=" +:+ FormatFixed 1 (WarnGe c)
             +:+ ", critical_ge=" +:+ FormatFixed 1 (CriticalGe c) +:+ ")")
  else None.
Definition order_error (digits : Z) (name : string) (c : GeCheck) : option string :=
  if ge_crossed c
  then Some (name +:+ ".warn_ge(" +:+ FormatFixed digits (WarnGe c) +:+ ") must be less than "
             +:+ name +:+ ".critical_ge(" +:+ FormatFixed digits (CriticalGe c) +:+ ")")
  else None.
Definition first_error (errs : list (option string)) : option string := head (omap id errs).

Definition ge_parts (digits : Z) (unit : string) (c : GeCheck) : list string :=
  (if f64_pos (WarnGe c) then ["Warning ≥ " +:+ FormatFixed digits (WarnGe c) +:+ unit] else [])
  ++ (if f64_pos (CriticalGe c) then ["Critical ≥ " +:+ FormatFixed digits (CriticalGe c) +:+ unit] else []).

Definition event_on (check target : string) : Event := BuildEvent [attrs_of [("check", check); ("target", target)]].
Definition percent_text (f : f64) : string := FormatFixed 1 f +:+ "%".

Definition linux_only (plugin goos : string) : option string :=
  if decide (goos = "linux") then None else Some (plugin +:+ " plugin only supports linux (current: " +:+ goos +:+ ")").

(** ** A share of a limit: conntrack, filefd, neigh *)

(** What the three plugins differ in. *)
Record Table := mkTable {
  t_plugin : string; t_setting : string; t_used : string; t_limit : string; t_what : string;
  t_no_limit : string; t_read_error : string
}.
Definition t_check (t : Table) : string := t_plugin t +:+ "::" +:+ t_setting t.
Definition conntrack : Table :=
  mkTable "conntrack" "conntrack_usage" "count" "max" "conntrack usage"
    "nf_conntrack_max is 0, cannot calculate usage" "failed to read conntrack data: ".
Definition filefd : Table :=
  mkTable "filefd" "filefd_usage" "allocated" "max" "filefd usage"
    "file-max is 0, cannot calculate usage" "failed to read file-nr: ".
Definition neigh : Table :=
  mkTable "neigh" "neigh_usage" "entries" "gc_thresh3" "neigh table usage"
    "gc_thresh3 is 0, cannot calculate usage" "failed to read neigh data: ".

Definition usage_Init (t : Table) (goos : string) (c : GeCheck) : option string :=
  first_error [linux_only (t_plugin t) goos; percent_range_error (t_setting t) c; order_error 1 (t_setting t) c].

Definition conntrack_Init : string -> GeCheck -> option string := usage_Init conntrack.
Definition filefd_Init : string -> GeCheck -> option string := usage_Init filefd.
Definition neigh_Init : string -> GeCheck -> option string := usage_Init neigh.

Definition usagePercent (used limit : Z) : f64 := f64_mul (f64_div (f64_of_Z used) (f64_of_Z limit)) f64_100.

Definition usage_event (t : Table) (c : GeCheck) (used limit : Z) : Event :=
  let p := percent_text (usagePercent used limit) in
  let event := SetAttrs (event_on (t_check t) "system")
                 (attrs_of [(t_used t, itoa used); (t_limit t, itoa limit); ("usage_percent", p)]) in
  let event := thresholds_attr (ge_parts 0 "%" c) (SetCurrentValue event p) in
  let status := EvaluateGeThreshold (usagePercent used limit) (WarnGe c) (CriticalGe c) in
  let shown := t_what t +:+ " " +:+ p +:+ " (" +:+ itoa used +:+ "/" +:+ itoa limit +:+ "), " in
  SetDescription (SetEventStatus event status)
    (if decide (status = EventStatusCritical) then shown +:+ "above critical threshold " +:+ FormatFixed 0 (CriticalGe c) +:+ "%"
     else if decide (status = EventStatusWarning) then shown +:+ "above warning threshold " +:+ FormatFixed 0 (WarnGe c) +:+ "%"
     else shown +:+ "everything is ok").

(** The reading is what is used of which limit, or nothing when the table is not there. *)
Definition usage_Gather (t : Table) (c : GeCheck) (reading : res string (option (Z * Z))) : list Event :=
  if ge_off c then []
  else
    match reading with
    | Good None => []
    | Bad err => [critical (event_on (t_check t) "system") (t_read_error t +:+ err)]
    | Good (Some (used, limit)) =>
      if limit =? 0 then [critical (event_on (t_check t) "system") (t_no_limit t)]
      else [usage_event t c used limit]
    end.

Section files.
Variable is_print : Z -> bool.
Variable read_file : string -> file.

(** [strconv.ParseUint(s, 10, 64)] with the text of its error. *)
Definition parse_uint (s : string) : res string Z :=
  match ParseUint s with Good n => Good n | Bad err => Bad (NumError is_print "ParseUint" s err) end.
Definition prefixed {A} (what : string) (r : res string A) : res string A :=
  match r with Good a => Good a | Bad err => Bad (what +:+ err) end.

Definition conntrackPaths : list (string * string) :=
  [("/proc/sys/net/netfilter/nf_conntrack_count", "/proc/sys/net/netfilter/nf_conntrack_max");
   ("/proc/sys/net/ipv4/netfilter/ip_conntrack_count", "/proc/sys/net/ipv4/netfilter/ip_conntrack_max")].

Fixpoint readConntrackFiles (paths : list (string * string)) : res string (option (Z * Z)) :=
  match paths with
  | [] => Good None
  | (countPath, maxPath) :: paths' =>
    match read_file countPath, read_file maxPath with
    | Text count, Text max =>
      match prefixed ("parse " +:+ countPath +:+ ": ") (parse_uint (TrimSpace count)) with
      | Bad err => Bad err
      | Good n =>
        match prefixed ("parse " +:+ maxPath +:+ ": ") (parse_uint (TrimSpace max)) with
        | Bad err => Bad err
        | Good m => Good (Some (n, m))
        end
      end
    | Unreadable err, _ => Bad ("read " +:+ countPath +:+ ": " +:+ err)
    | _, Unreadable err => Bad ("read " +:+ maxPath +:+ ": " +:+ err)
    | _, _ => readConntrackFiles paths'
    end
  end.

(** The text of a file, or what is said when it cannot be read. *)
Definition read_text (path what : string) : res string string :=
  match read_file path with Text s => Good s | Absent err | Unreadable err => Bad (what +:+ err) end.

Definition fileNrPath : string := "/proc/sys/fs/file-nr".
Definition readFileNr : res string (option (Z * Z)) :=
  match read_text fileNrPath ("read " +:+ fileNrPath +:+ ": ") with
  | Bad err => Bad err
  | Good data =>
    match Fields (TrimSpace data) with
    | allocated :: _ :: max :: _ =>
      match prefixed "parse allocated: " (parse_uint allocated) with
      | Bad err => Bad err
      | Good n =>
        match prefixed "parse max: " (parse_uint max) with Bad err => Bad err | Good m => Good (Some (n, m)) end
      end
    | _ => Bad ("unexpected file-nr format: " +:+ Quote is_print (TrimSpace data))
    end
  end.

Definition arpPath : string := "/proc/net/arp".
Definition gcThresh3Path : string := "/proc/sys/net/ipv4/neigh/default/gc_thresh3".
Definition neigh_entries (arp : string) : Z :=
  let content := TrimSpace arp in
  if decide (content = "") then 0 else zlen (split_on nl content) - 1.
Definition readNeighData : res string (option (Z * Z)) :=
  match read_text gcThresh3Path "read gc_thresh3: " with
  | Bad err => Bad err
  | Good thresh3 =>
    match prefixed "parse gc_thresh3: " (parse_uint (TrimSpace thresh3)) with
    | Bad err => Bad err
    | Good limit =>
      match read_text arpPath ("read " +:+ arpPath +:+ ": ") with
      | Bad err => Bad err
      | Good arp => Good (Some (neigh_entries arp, limit))
      end
    end
  end.

Definition conntrack_Gather (c : GeCheck) : list Event := usage_Gather conntrack c (readConntrackFiles conntrackPaths).
Definition filefd_Gather (c : GeCheck) : list Event := usage_Gather filefd c readFileNr.
Definition neigh_Gather (c : GeCheck) : list Event := usage_Gather neigh c readNeighData.
End files.

(** ** Memory and processors (plugins/mem, plugins/cpu) *)

(** An event that says everything is ok until its value reaches a threshold. *)
Definition level_event (digits : Z) (unit : string) (c : GeCheck) (value : f64) (event : Event)
    (describe : string -> string -> string) : Event :=
  let event := thresholds_attr (ge_parts digits unit c) (SetDescription event "everything is ok") in
  let status := EvaluateGeThreshold value (WarnGe c) (CriticalGe c) in
  if decide (status = EventStatusOk) then event
  else
    let '(level, threshold) := if decide (status = EventStatusCritical) then ("critical", CriticalGe c) else ("warning", WarnGe c) in
    SetDescription (SetEventStatus event status) (describe level (FormatFixed digits threshold)).

Record MemInstance := mkMem { MemoryUsage : GeCheck; SwapUsage : GeCheck }.
Record VirtualMemory := mkVM {
  vm_Total : Z; vm_Used : Z; vm_Available : Z; vm_UsedPercent : f64; vm_Buffers : Z; vm_Cached : Z
}.
Record SwapMemory := mkSwap { sw_Total : Z; sw_Used : Z; sw_Free : Z; sw_UsedPercent : f64 }.

Definition mem_Init (ins : MemInstance) : option string :=
  first_error [percent_range_error "memory_usage" (MemoryUsage ins); percent_range_error "swap_usage" (SwapUsage ins);
               order_error 1 "memory_usage" (MemoryUsage ins); order_error 1 "swap_usage" (SwapUsage ins)].

Definition checkMemoryUsage (ins : MemInstance) (vm : res string VirtualMemory) : list Event :=
  if ge_off (MemoryUsage ins) then []
  else
    let event := event_on "mem::memory_usage" "memory" in
    match vm with
    | Bad err => [critical event ("failed to get memory info: " +:+ err)]
    | Good vm =>
      let p := percent_text (vm_UsedPercent vm) in
      let event :=
        SetCurrentValue (SetAttrs event (attrs_of [("total", HumanBytes (vm_Total vm)); ("used", HumanBytes (vm_Used vm));
          ("available", HumanBytes (vm_Available vm)); ("used_percent", p); ("buffers", HumanBytes (vm_Buffers vm));
          ("cached", HumanBytes (vm_Cached vm))])) p in
      [level_event 1 "%" (MemoryUsage ins) (vm_UsedPercent vm) event (fun level threshold =>
         "memory usage " +:+ p +:+ " >= " +:+ level +:+ " threshold " +:+ threshold +:+ "%, total: "
         +:+ HumanBytes (vm_Total vm) +:+ ", available: " +:+ HumanBytes (vm_Available vm))]
    end.

(** Without swap there is nothing to check. *)
Definition checkSwapUsage (ins : MemInstance) (swap : res string SwapMemory) : list Event :=
  if ge_off (SwapUsage ins) then []
  else
    let event := event_on "mem::swap_usage" "memory" in
    match swap with
    | Bad err => [critical event ("failed to get swap info: " +:+ err)]
    | Good sw =>
      if sw_Total sw =? 0 then []
      else
        let p := percent_text (sw_UsedPercent sw) in
        let event :=
          SetCurrentValue (SetAttrs event (attrs_of [("swap_total", HumanBytes (sw_Total sw)); ("swap_used", HumanBytes (sw_Used sw));
            ("swap_free", HumanBytes (sw_Free sw)); ("swap_used_percent", p)])) p in
        [level_event 1 "%" (SwapUsage ins) (sw_UsedPercent sw) event (fun level threshold =>
           "swap usage " +:+ p +:+ " >= " +:+ level +:+ " threshold " +:+ threshold +:+ "%, total: "
           +:+ HumanBytes (sw_Total sw) +:+ ", free: " +:+ HumanBytes (sw_Free sw))]
    end.
Definition mem_Gather (ins : MemInstance) (vm : res string VirtualMemory) (swap : res string SwapMemory) : list Event :=
  checkMemoryUsage ins vm ++ checkSwapUsage ins swap.

Record CpuInstance := mkCpu { Interval : Z; CpuUsage : GeCheck; LoadAverage : GeCheck; Period : string; cpuCores : Z }.

Definition cpu_Init (is_print : Z -> bool) (ins : CpuInstance) (counts : res string Z) : res string CpuInstance :=
  let period := if decide (Period ins = "") then "5m" else Period ins in
  match first_error
    [percent_range_error "cpu_usage" (CpuUsage ins); order_error 1 "cpu_usage" (CpuUsage ins);
     (if negative (LoadAverage ins)
      then Some ("load_average thresholds must be >= 0 (got warn_ge=" +:+ FormatFixed 2 (WarnGe (LoadAverage ins))
                 +:+ ", critical_ge=" +:+ FormatFixed 2 (CriticalGe (LoadAverage ins)) +:+ ")") else None);
     order_error 2 "load_average" (LoadAverage ins);
     (if bool_decide (period ∈ ["1m"; "5m"; "15m"]) then None
      else Some ("load_average.period must be one of: 1m, 5m, 15m (got " +:+ Quote is_print period +:+ ")"))] with
  | Some err => Bad err
  | None =>
    match counts with
    | Bad err => Bad ("failed to get CPU core count: " +:+ err)
    | Good cores => Good (mkCpu (Interval ins) (CpuUsage ins) (LoadAverage ins) period (if cores <=? 0 then 1 else cores))
    end
  end.

Definition checkCpuUsage (ins : CpuInstance) (percents : res string (list f64)) : list Event :=
  if ge_off (CpuUsage ins) then []
  else
    let event := event_on "cpu::cpu_usage" "cpu" in
    match percents with
    | Bad err => [critical event ("failed to get CPU usage: " +:+ err)]
    | Good [] => [critical event "cpu.Percent returned empty result"]
    | Good (usage :: _) =>
      let p := percent_text usage in
      let event := SetCurrentValue (SetAttrs event (attrs_of [("cpu_usage", p); ("cpu_cores", itoa (cpuCores ins))])) p in
      let intervalHint := if 0 <? Interval ins then Duration_String (Interval ins) +:+ " avg" else "interval avg" in
      [level_event 1 "%" (CpuUsage ins) usage event (fun level threshold =>
         "CPU usage " +:+ p +:+ " (" +:+ intervalHint +:+ ") >= " +:+ level +:+ " threshold " +:+ threshold
         +:+ "%, cores: " +:+ itoa (cpuCores ins))]
    end.

(** The averages over one, five and fifteen minutes. *)
Definition checkLoadAverage (ins : CpuInstance) (avg : res string (f64 * f64 * f64)) : list Event :=
  if ge_off (LoadAverage ins) then []
  else
    let event := event_on "cpu::load_average" "cpu" in
    match avg with
    | Bad err => [critical event ("failed to get load average: " +:+ err)]
    | Good (load1, load5, load15) =>
      let rawLoad := if decide (Period ins = "1m") then load1 else if decide (Period ins = "15m") then load15 else load5 in
      let perCoreLoad := f64_div rawLoad (f64_of_Z (cpuCores ins)) in
      let event :=
        SetCurrentValue (SetAttrs event (attrs_of [("load1", FormatFixed 2 load1); ("load5", FormatFixed 2 load5);
          ("load15", FormatFixed 2 load15); ("per_core_load", FormatFixed 2 perCoreLoad);
          ("cpu_cores", itoa (cpuCores ins)); ("period", Period ins)])) (FormatFixed 2 perCoreLoad) in
      [level_event 2 "" (LoadAverage ins) perCoreLoad event (fun level threshold =>
         "load average (" +:+ Period ins +:+ ") per-core " +:+ FormatFixed 2 perCoreLoad +:+ " >= " +:+ level +:+ " threshold "
         +:+ threshold +:+ ", raw load: " +:+ FormatFixed 2 rawLoad +:+ ", cores: " +:+ itoa (cpuCores ins))]
    end.
Definition cpu_Gather (ins : CpuInstance) (percents : res string (list f64)) (avg : res string (f64 * f64 * f64)) : list Event :=
  checkCpuUsage ins percents ++ checkLoadAverage ins avg.

(** ** States of connections (plugins/tcpstate) *)
Record stateCounts := mkCounts { established : Z; closeWait : Z; timeWait : Z }.
Record TcpInstance := mkTcp { CloseWait : GeCheck; TimeWait : GeCheck; hasCloseWaitCheck : bool; hasTimeWaitCheck : bool }.

(** [fmt_g] is the verb [%g]. *)
Definition validateThresholds (fmt_g : f64 -> string) (name : string) (sc : GeCheck) : option string :=
  if SFltb (WarnGe sc) f64_zero then Some (name +:+ ".warn_ge must be non-negative (got " +:+ fmt_g (WarnGe sc) +:+ ")")
  else if SFltb (CriticalGe sc) f64_zero then Some (name +:+ ".critical_ge must be non-negative (got " +:+ fmt_g (CriticalGe sc) +:+ ")")
  else if ge_crossed sc
  then Some (name +:+ ".warn_ge(" +:+ fmt_g (WarnGe sc) +:+ ") must be less than " +:+ name +:+ ".critical_ge(" +:+ fmt_g (CriticalGe sc) +:+ ")")
  else None.

Definition tcpstate_Init (fmt_g : f64 -> string) (goos : string) (closeWait timeWait : GeCheck) : res string TcpInstance :=
  match first_error
    [linux_only "tcpstate" goos;
     (if ge_on closeWait || ge_on timeWait then None else Some "at least one check must be configured (close_wait or time_wait)");
     validateThresholds fmt_g "close_wait" closeWait; validateThresholds fmt_g "time_wait" timeWait] with
  | Some err => Bad err
  | None => Good (mkTcp closeWait timeWait (ge_on closeWait) (ge_on timeWait))
  end.

(** [established] is [None] when it is not known. *)
Definition emitStateEvent (check stateName : string) (count : Z) (sc : GeCheck) (established : option Z) : Event :=
  let event := SetAttrs (event_on check "system")
    (attrs_of (("count", itoa count) :: match established with Some n => if 0 <=? n then [("established", itoa n)] else [] | None => [] end)) in
  let event := thresholds_attr (ge_parts 0 "" sc) (SetCurrentValue event (itoa count)) in
  let status := EvaluateGeThreshold (f64_of_Z count) (WarnGe sc) (CriticalGe sc) in
  let shown := itoa count +:+ " " +:+ stateName +:+ " connections, " in
  SetDescription (SetEventStatus event status)
    (if decide (status = EventStatusCritical) then shown +:+ "above critical threshold " +:+ FormatFixed 0 (CriticalGe sc)
     else if decide (status = EventStatusWarning) then shown +:+ "above warning threshold " +:+ FormatFixed 0 (WarnGe sc)
     else shown +:+ "everything is ok").

Definition tcp_error (ins : TcpInstance) (errMsg : string) : Event :=
  critical (event_on (if hasCloseWaitCheck ins then "tcpstate::close_wait" else "tcpstate::time_wait") "system") errMsg.

Definition gatherViaNetlink (ins : TcpInstance) (states : res string stateCounts) : list Event :=
  match states with
  | Bad err => [tcp_error ins ("failed to query TCP states via netlink: " +:+ err)]
  | Good c =>
    emitStateEvent "tcpstate::close_wait" "CLOSE_WAIT" (closeWait c) (CloseWait ins) (Some (i64 (established c)))
    :: if hasTimeWaitCheck ins
       then [emitStateEvent "tcpstate::time_wait" "TIME_WAIT" (timeWait c) (TimeWait ins) (Some (i64 (established c)))] else []
  end.
Definition gatherViaSockstat (ins : TcpInstance) (tw : res string Z) : list Event :=
  match tw with
  | Bad err => [tcp_error ins ("failed to read sockstat: " +:+ err)]
  | Good n => [emitStateEvent "tcpstate::time_wait" "TIME_WAIT" n (TimeWait ins) None]
  end.
Definition tcpstate_Gather (ins : TcpInstance) (states : res string stateCounts) (tw : res string Z) : list Event :=
  if hasCloseWaitCheck ins then gatherViaNetlink ins states
  else if hasTimeWaitCheck ins then gatherViaSockstat ins tw
  else [].

Definition sockstatPath : string := "/proc/net/sockstat".
(** The value after the first field [name] that is not the last one. *)
Fixpoint value_after (name : string) (fields : list string) : option string :=
  match fields with
  | f :: (v :: _) as rest => if decide (f = name) then Some v else value_after name rest
  | _ => None
  end.
Fixpoint time_wait_in (is_print : Z -> bool) (lines : list string) : res string Z :=
  match lines with
  | [] => Bad ("tw field not found in " +:+ sockstatPath)
  | line :: lines' =>
    if HasPrefix line "TCP:" then
      match value_after "tw" (Fields line) with
      | Some v => prefixed ("parse tw value " +:+ Quote is_print v +:+ ": ") (parse_uint is_print v)
      | None => time_wait_in is_print lines'
      end
    else time_wait_in is_print lines'
  end.
Definition parseSockstatTimeWait (is_print : Z -> bool) (data : string) : res string Z := time_wait_in is_print (split_on nl data).
Definition readSockstatTimeWait (is_print : Z -> bool) (read_file : string -> file) : res string Z :=
  match read_text read_file sockstatPath ("read " +:+ sockstatPath +:+ ": ") with
  | Bad err => Bad err
  | Good data => parseSockstatTimeWait is_print data
  end.

(** ** Overflows of listening sockets (plugins/sockstat) *)
Record SockInstance := mkSock { ListenOverflow : GeCheck; prevOverflows : Z; prevDrops : Z; initialized : bool }.

Definition sockstat_Init (goos : string) (c : GeCheck) : option string :=
  first_error
    [linux_only "sockstat" goos;
     (if negative c then Some ("listen_overflow thresholds must be >= 0 (got warn_ge=" +:+ FormatFixed 1 (WarnGe c)
                               +:+ ", critical_ge=" +:+ FormatFixed 1 (CriticalGe c) +:+ ")") else None);
     order_error 1 "listen_overflow" c].

Definition netstatPath : string := "/proc/net/netstat".

(** The first two lines of TcpExt: the names and the values. *)
Definition tcp_ext (data : string) : option (string * string) :=
  match filter (fun line => HasPrefix line "TcpExt:" = true) (split_on nl data) with
  | header :: values :: _ => Some (header, values)
  | _ => None
  end.
(** The value in the last column with a name. *)
Fixpoint column (name : string) (headers values : list string) : option string :=
  match headers, values with
  | h :: headers', v :: values' =>
    match column name headers' values' with
    | Some w => Some w
    | None => if decide (h = name) then Some v else None
    end
  | _, _ => None
  end.
(** What [strconv.ParseUint] returns next to an error that is ignored. *)
Definition parse_uint_lossy (s : string) : Z :=
  match ParseUint s with Good n => n | Bad ErrRange => max_u64 | Bad ErrSyntax => 0 end.

Definition parse_listen_stats (is_print : Z -> bool) (data : string) : res string (Z * Z) :=
  match tcp_ext data with
  | None => Bad ("TcpExt section not found in " +:+ netstatPath)
  | Some (headerLine, valueLine) =>
    let headers := Fields headerLine in
    let values := Fields valueLine in
    if negb (zlen headers =? zlen values)
    then Bad ("TcpExt header/value count mismatch (" +:+ itoa (zlen headers) +:+ " vs " +:+ itoa (zlen values) +:+ ")")
    else
      match column "ListenOverflows" headers values with
      | None => Bad "ListenOverflows not found in TcpExt"
      | Some v =>
        match prefixed "parse ListenOverflows: " (parse_uint is_print v) with
        | Bad err => Bad err
        | Good overflows => Good (overflows, match column "ListenDrops" headers values with Some v => parse_uint_lossy v | None => 0 end)
        end
      end
  end.
Definition readListenStats (is_print : Z -> bool) (read_file : string -> file) : res string (Z * Z) :=
  match read_text read_file netstatPath ("read " +:+ netstatPath +:+ ": ") with
  | Bad err => Bad err
  | Good data => parse_listen_stats is_print data
  end.

Definition listen_event (delta overflows drops : Z) : Event :=
  SetCurrentValue (SetAttrs (event_on "sockstat::listen_overflow" "system")
    (attrs_of [("delta", itoa delta); ("total_overflows", itoa overflows); ("total_drops", itoa drops)])) (itoa delta).
Definition overflow_event (c : GeCheck) (delta overflows drops : Z) : Event :=
  let event := thresholds_attr (ge_parts 0 "" c) (listen_event delta overflows drops) in
  let status := EvaluateGeThreshold (f64_of_Z delta) (WarnGe c) (CriticalGe c) in
  let grown (which : string) (t : f64) :=
    itoa delta +:+ " new listen overflows since last check (total: " +:+ itoa overflows +:+ "), above " +:+ which +:+ " threshold " +:+ FormatFixed 0 t in
  SetDescription (SetEventStatus event status)
    (if decide (status = EventStatusCritical) then grown "critical" (CriticalGe c)
     else if decide (status = EventStatusWarning) then grown "warning" (WarnGe c)
     else "no new listen overflows (total: " +:+ itoa overflows +:+ "), everything is ok").

Definition sockstat_Gather (reading : res string (Z * Z)) (ins : SockInstance) : list Event * SockInstance :=
  let c := ListenOverflow ins in
  if ge_off c then ([], ins)
  else
    match reading with
    | Bad err => ([critical (event_on "sockstat::listen_overflow" "system") ("failed to read netstat data: " +:+ err)], ins)
    | Good (overflows, drops) =>
      let next := mkSock c overflows drops true in
      if initialized ins then
        ([overflow_event c (if prevOverflows ins <=? overflows then overflows - prevOverflows ins else 0) overflows drops], next)
      else
        ([SetDescription (SetEventStatus (listen_event 0 overflows drops) EventStatusOk)
            ("listen overflow baseline established (total overflows: " +:+ itoa overflows +:+ ")")], next)
    end.

(** ** The time since the start (plugins/uptime) *)
Record RebootCheck := mkReboot { WarnLt : Z; CriticalLt : Z }.

(** [humanDuration]; the seconds go through a [float64]. *)
Definition uptime_humanDuration (d : Z) : string :=
  let d := if d <? 0 then i64 (- d) else d in
  let totalSec := f64_to_int64 (Duration_Seconds d) in
  let days := go_div totalSec 86400 in
  let hours := go_div (Z.rem totalSec 86400) 3600 in
  let minutes := go_div (Z.rem totalSec 3600) 60 in
  let seconds := Z.rem totalSec 60 in
  let more (n : Z) (unit : string) := if 0 <? n then " " +:+ itoa n +:+ unit else "" in
  if 0 <? days then itoa days +:+ "d" +:+ more hours "h" +:+ more minutes "m"
  else if 0 <? hours then itoa hours +:+ "h" +:+ more minutes "m" +:+ more seconds "s"
  else if 0 <? minutes then itoa minutes +:+ "m" +:+ more seconds "s"
  else itoa seconds +:+ "s".

Definition uptime_Init (c : RebootCheck) : option string :=
  if (0 <? WarnLt c) && (0 <? CriticalLt c) && (WarnLt c <=? CriticalLt c)
  then Some ("reboot_detected.warn_lt(" +:+ uptime_humanDuration (WarnLt c) +:+ ") must be greater than reboot_detected.critical_lt("
             +:+ uptime_humanDuration (CriticalLt c) +:+ ")")
  else None.

(** [format_time] is the layout 2006-01-02 15:04:05 MST in the zone of the host;
    a boot time that cannot be read is 0. *)
Definition uptime_Gather (format_time : Z -> string) (c : RebootCheck) (uptime : res string Z) (bootTime : Z) : list Event :=
  let criticalDur := CriticalLt c in
  let warnDur := WarnLt c in
  if (criticalDur =? 0) && (warnDur =? 0) then []
  else
    let event := event_on "uptime::reboot_detected" "system" in
    match uptime with
    | Bad err => [critical event ("failed to get system uptime: " +:+ err)]
    | Good uptimeSec =>
      let uptimeDur := i64 uptimeSec ⊠ Second in
      let uptimeHuman := uptime_humanDuration uptimeDur in
      let parts :=
        (if 0 <? warnDur then ["Warning < " +:+ uptime_humanDuration warnDur] else [])
        ++ (if 0 <? criticalDur then ["Critical < " +:+ uptime_humanDuration criticalDur] else []) in
      let event := SetAttrs event (attrs_of ([("uptime", uptimeHuman); ("uptime_seconds", itoa uptimeSec)]
        ++ (if 0 <? bootTime then [("boot_time", format_time (i64 bootTime))] else [])
        ++ (if (0 <? criticalDur) || (0 <? warnDur) then [("threshold_desc", Join parts ", ")] else []))) in
      let rebooted which t := "system uptime " +:+ uptimeHuman +:+ ", rebooted within " +:+ which +:+ " threshold " +:+ uptime_humanDuration t in
      if (0 <? criticalDur) && (uptimeDur <? criticalDur)
      then [critical event (rebooted "critical" criticalDur)]
      else if (0 <? warnDur) && (uptimeDur <? warnDur)
      then [SetDescription (SetEventStatus event EventStatusWarning) (rebooted "warning" warnDur)]
      else [SetDescription event ("system uptime " +:+ uptimeHuman +:+ ", everything is ok")]
    end.

(** ** Parameters of the kernel (plugins/sysctl) *)
Record ParamSpec := mkParam { Key : string; Op : string; Value : string; p_Severity : string }.

Definition validOps : list string := ["eq"; "ne"; "ge"; "le"; "gt"; "lt"].
Definition opSymbol (op : string) : string :=
  if decide (op = "eq") then "=" else if decide (op = "ne") then "≠" else if decide (op = "ge") then "≥"
  else if decide (op = "le") then "≤" else if decide (op = "gt") then ">" else if decide (op = "lt") then "<" else op.
Definition isNumericOp (op : string) : bool := bool_decide (op ∈ ["ge"; "le"; "gt"; "lt"]).

Section sysctl.
Variable is_print : Z -> bool.
#[local] Abbreviation Quote := (Quote is_print).

Definition validateKey (key : string) : option string :=
  if Contains key "/" then Some ("key " +:+ Quote key +:+ " must not contain '/' (use '.' as separator)")
  else if Contains key ".." then Some ("key " +:+ Quote key +:+ " must not contain '..'")
  else if HasPrefix key "." then Some ("key " +:+ Quote key +:+ " must not start with '.'")
  else if HasSuffix key "." then Some ("key " +:+ Quote key +:+ " must not end with '.'")
  else None.

(** One parameter, at the place [i] of the list. *)
Definition init_param (i : Z) (p : ParamSpec) : res string ParamSpec :=
  let at_ := "param_check.params[" +:+ itoa i +:+ "]" in
  let key := TrimSpace (Key p) in
  if decide (key = "") then Bad (at_ +:+ ": key must not be empty")
  else
    match validateKey key with
    | Some err => Bad (at_ +:+ ": " +:+ err)
    | None =>
      let op := TrimSpace (ToLower (Op p)) in
      let op := if decide (op = "") then "eq" else op in
      let at_ := at_ +:+ " (" +:+ key +:+ ")" in
      if negb (bool_decide (op ∈ validOps))
      then Bad (at_ +:+ ": invalid op " +:+ Quote op +:+ ", must be one of: eq, ne, ge, le, gt, lt")
      else
        let value := TrimSpace (Value p) in
        if decide (value = "") then Bad (at_ +:+ ": value must not be empty")
        else if isNumericOp op && (match strconv_ParseFloat value with Good _ => false | Bad _ => true end)
        then Bad (at_ +:+ ": value " +:+ Quote value +:+ " must be numeric for op " +:+ Quote op)
        else
          match normalize_severity is_print EventStatusWarning (p_Severity p) with
          | Bad err => Bad (at_ +:+ ": " +:+ err)
          | Good sev => Good (mkParam key op value sev)
          end
    end.
Fixpoint init_params (i : Z) (ps : list ParamSpec) : res string (list ParamSpec) :=
  match ps with
  | [] => Good []
  | p :: ps' =>
    match init_param i p with
    | Bad err => Bad err
    | Good p => match init_params (i + 1) ps' with Bad err => Bad err | Good l => Good (p :: l) end
    end
  end.
Definition sysctl_Init (goos : string) (ps : list ParamSpec) : res string (list ParamSpec) :=
  match linux_only "sysctl" goos with
  | Some err => Bad err
  | None => match ps with [] => Bad "param_check.params must not be empty" | _ => init_params 0 ps end
  end.

Fixpoint replace_byte (c d : ascii) (s : string) : string :=
  match s with "" => "" | String a s' => String (if decide (a = c) then d else a) (replace_byte c d s') end.
Definition keyToPath (key : string) : string := "/proc/sys/" +:+ replace_byte "."%char slash key.
Definition normalizeWhitespace (s : string) : string := Join (Fields s) " ".

(** Whole numbers are compared as such, other numbers as doubles. *)
Definition compareNumeric (actual expect : string) : res string comparison :=
  match ParseInt actual, ParseInt expect with
  | Good a, Good b => Good (a ?= b)
  | _, _ =>
    match strconv_ParseFloat actual with
    | Bad _ => Bad ("actual value " +:+ Quote actual +:+ " is not numeric")
    | Good a =>
      match strconv_ParseFloat expect with
      | Bad _ => Bad ("value " +:+ Quote expect +:+ " is not numeric")
      | Good b => Good (if SFltb a b then Lt else if SFltb b a then Gt else Eq)
      end
    end
  end.

Definition compareValues (actual expect op : string) : res string bool :=
  if decide (op = "eq") then Good (bool_decide (normalizeWhitespace actual = normalizeWhitespace expect))
  else if decide (op = "ne") then Good (negb (bool_decide (normalizeWhitespace actual = normalizeWhitespace expect)))
  else
    match compareNumeric actual expect with
    | Bad err => Bad err
    | Good cmp =>
      if decide (op = "ge") then Good (match cmp with Lt => false | _ => true end)
      else if decide (op = "le") then Good (match cmp with Gt => false | _ => true end)
      else if decide (op = "gt") then Good (match cmp with Gt => true | _ => false end)
      else if decide (op = "lt") then Good (match cmp with Lt => true | _ => false end)
      else Bad ("unknown op " +:+ Quote op)
    end.

Definition param_event (p : ParamSpec) : Event :=
  SetAttrs (event_on "sysctl::param_check" (Key p))
    (attrs_of [("expect", Op p +:+ " " +:+ Value p);
               ("threshold_desc", p_Severity p +:+ ": " +:+ Key p +:+ " " +:+ opSymbol (Op p) +:+ " " +:+ Value p)]).

Definition checkParam (read_file : string -> file) (p : ParamSpec) : Event :=
  let path := keyToPath (Key p) in
  match read_file path with
  | Absent _ =>
    SetDescription (SetEventStatus (param_event p) (p_Severity p)) (Key p +:+ ": parameter not found (file " +:+ path +:+ " does not exist)")
  | Unreadable err => critical (param_event p) (Key p +:+ ": failed to read parameter: " +:+ err)
  | Text data =>
    let actual := TrimSpace data in
    let event := SetCurrentValue (SetAttrs (param_event p) (attrs_of [("actual", actual)])) actual in
    match compareValues actual (Value p) (Op p) with
    | Bad err => critical event (Key p +:+ ": comparison error: " +:+ err)
    | Good true =>
      SetDescription (SetEventStatus event EventStatusOk)
        (Key p +:+ " = " +:+ actual +:+ ", matches expectation (" +:+ Op p +:+ " " +:+ Value p +:+ ")")
    | Good false =>
      SetDescription (SetEventStatus event (p_Severity p)) (Key p +:+ " = " +:+ actual +:+ ", expected " +:+ Op p +:+ " " +:+ Value p)
    end
  end.
Definition sysctl_Gather (read_file : string -> file) (ps : list ParamSpec) : list Event := map (checkParam read_file) ps.

(** ** Security modules (plugins/secmod) *)

(** What is expected; the empty text expects nothing. *)
Record ExpectCheck := mkExpect { Expect : string; e_Severity : string }.
Record SecInstance := mkSec { EnforceMode : ExpectCheck; AppArmor : ExpectCheck }.

Definition init_expect (valid : list string) (setting expect_error : string) (c : ExpectCheck) : res string ExpectCheck :=
  if decide (Expect c = "") then Good c
  else if negb (bool_decide (Expect c ∈ valid))
  then Bad (expect_error +:+ " (got " +:+ Quote (Expect c) +:+ ")")
  else
    match normalize_severity is_print EventStatusWarning (e_Severity c) with
    | Bad err => Bad (setting +:+ ".severity: " +:+ err)
    | Good sev => Good (mkExpect (Expect c) sev)
    end.
Definition expect_lower (c : ExpectCheck) : ExpectCheck := mkExpect (TrimSpace (ToLower (Expect c))) (e_Severity c).
Definition secmod_Init (goos : string) (ins : SecInstance) : res string SecInstance :=
  match linux_only "secmod" goos with
  | Some err => Bad err
  | None =>
    match init_expect ["enforcing"; "permissive"; "disabled"] "enforce_mode"
            "enforce_mode.expect must be one of: enforcing, permissive, disabled" (expect_lower (EnforceMode ins)) with
    | Bad err => Bad err
    | Good enforce =>
      match init_expect ["yes"; "no"] "apparmor_enabled" "apparmor_enabled.expect must be one of: yes, no" (expect_lower (AppArmor ins)) with
      | Bad err => Bad err
      | Good apparmor => Good (mkSec enforce apparmor)
      end
    end
  end.

(** A switch of the kernel: what its two values mean; a module that is not there is off. *)
Definition read_switch (read_file : string -> file) (path on_value on off_value off absent : string) : res string string :=
  match read_file path with
  | Absent _ => Good absent
  | Unreadable err => Bad err
  | Text data =>
    let val := TrimSpace data in
    if decide (val = on_value) then Good on
    else if decide (val = off_value) then Good off
    else Bad ("unexpected value in " +:+ path +:+ ": " +:+ Quote val)
  end.
Definition readSELinuxMode (read_file : string -> file) : res string string :=
  read_switch read_file "/sys/fs/selinux/enforce" "1" "enforcing" "0" "permissive" "disabled".
Definition readAppArmorStatus (read_file : string -> file) : res string string :=
  read_switch read_file "/sys/module/apparmor/parameters/enabled" "Y" "yes" "N" "no" "no".

Definition check_expected (event : Event) (what status : string) (c : ExpectCheck) (reading : res string string) : Event :=
  match reading with
  | Bad err => critical event ("failed to read " +:+ what +:+ " status: " +:+ err)
  | Good actual =>
    let event := SetAttrs event (attrs_of [("actual", actual); ("expect", Expect c)]) in
    if decide (actual = Expect c)
    then SetDescription (SetEventStatus event EventStatusOk) (status +:+ " is " +:+ actual +:+ ", matches expectation")
    else SetDescription (SetEventStatus event (e_Severity c)) (status +:+ " is " +:+ actual +:+ ", expected " +:+ Expect c)
  end.
Definition checkEnforceMode (read_file : string -> file) (ins : SecInstance) : Event :=
  check_expected (event_on "secmod::selinux_mode" "selinux") "SELinux" "SELinux mode" (EnforceMode ins) (readSELinuxMode read_file).
Definition checkAppArmor (read_file : string -> file) (ins : SecInstance) : Event :=
  check_expected (event_on "secmod::apparmor_enabled" "apparmor") "AppArmor" "AppArmor" (AppArmor ins) (readAppArmorStatus read_file).
Definition secmod_Gather (read_file : string -> file) (ins : SecInstance) : list Event :=
  (if decide (Expect (EnforceMode ins) = "") then [] else [checkEnforceMode read_file ins])
  ++ (if decide (Expect (AppArmor ins) = "") then [] else [checkAppArmor read_file ins]).

(** ** The identity of the host (plugins/hostident) *)
Record CheckConfig := mkCheck { Enabled : bool; Severity : string }.
Record HostInstance := mkHost {
  HostnameChanged : CheckConfig; IPChanged : CheckConfig;
  baseHostname : string; baseIP : string; hostSeverity : string; ipSeverity : string
}.

Definition parseSeverity (raw : string) : res string string :=
  if decide (raw = "") then Good EventStatusWarning
  else if decide (ToLower raw = "critical") then Good EventStatusCritical
  else if decide (ToLower raw = "warning") then Good EventStatusWarning
  else if decide (ToLower raw = "info") then Good EventStatusInfo
  else Bad ("unsupported severity " +:+ Quote raw +:+ ", must be Critical, Warning, or Info").

(** [os.Hostname] and [config.DetectIP] at the start. *)
Definition init_hostname (hostname : res string string) (ins : HostInstance) : res string HostInstance :=
  if Enabled (HostnameChanged ins) then
    match parseSeverity (Severity (HostnameChanged ins)) with
    | Bad err => Bad ("hostident: hostname_changed.severity: " +:+ err)
    | Good sev =>
      match hostname with
      | Bad err => Bad ("hostident: failed to get baseline hostname: " +:+ err)
      | Good h => Good (mkHost (HostnameChanged ins) (IPChanged ins) h (baseIP ins) sev (ipSeverity ins))
      end
    end
  else Good ins.
Definition init_ip (ip : string) (ins : HostInstance) : res string HostInstance :=
  if Enabled (IPChanged ins) then
    match parseSeverity (Severity (IPChanged ins)) with
    | Bad err => Bad ("hostident: ip_changed.severity: " +:+ err)
    | Good sev =>
      if decide (ip = "") then Bad "hostident: failed to detect baseline IP address"
      else Good (mkHost (HostnameChanged ins) (IPChanged ins) (baseHostname ins) ip (hostSeverity ins) sev)
    end
  else Good ins.
Definition hostident_Init (hostname : res string string) (ip : string) (ins : HostInstance) : res string HostInstance :=
  match init_hostname hostname ins with Bad err => Bad err | Good ins => init_ip ip ins end.

Definition checkHostname (hostname : res string string) (ins : HostInstance) : Event :=
  let event := event_on "hostident::hostname_changed" "system" in
  match hostname with
  | Bad err =>
    SetAttrs (SetDescription (SetEventStatus event (hostSeverity ins)) ("failed to get hostname: " +:+ err))
      (attrs_of [("baseline", baseHostname ins)])
  | Good current =>
    SetAttrs
      (if decide (current = baseHostname ins) then SetDescription event ("hostname " +:+ Quote current +:+ " unchanged")
       else SetDescription (SetEventStatus event (hostSeverity ins))
              ("hostname changed from " +:+ Quote (baseHostname ins) +:+ " to " +:+ Quote current
               +:+ " since catpaw started, consider restarting catpaw"))
      (attrs_of [("baseline", baseHostname ins); ("current", current)])
  end.
Definition checkIP (current : string) (ins : HostInstance) : Event :=
  let event := event_on "hostident::ip_changed" "system" in
  SetAttrs
    (if decide (current = "") then SetDescription (SetEventStatus event (ipSeverity ins)) "failed to detect current IP address"
     else if decide (current = baseIP ins) then SetDescription event ("IP " +:+ current +:+ " unchanged")
     else SetDescription (SetEventStatus event (ipSeverity ins))
            ("IP changed from " +:+ baseIP ins +:+ " to " +:+ current +:+ " since catpaw started, consider restarting catpaw"))
    (attrs_of [("baseline", baseIP ins); ("current", current)]).
Definition hostident_Gather (hostname : res string string) (ip : string) (ins : HostInstance) : list Event :=
  (if Enabled (HostnameChanged ins) then [checkHostname hostname ins] else [])
  ++ (if Enabled (IPChanged ins) then [checkIP ip ins] else []).
End sysctl.

(** * Properties

    What is accepted is sound; each check gives one event with the verdict that
    is due; the tables of the kernel are read back; counters add up. *)

(** ** Tables *)
Lemma usage_event_verdict t c used limit :
  event_of "system" (t_check t) (usage_event t c used limit) /\
  EventStatus (usage_event t c used limit) = EvaluateGeThreshold (usagePercent used limit) (WarnGe c) (CriticalGe c).
Proof. split; [|done]. unfold usage_event. cbn zeta. apply thresholds_attr_event. done. Qed.

Lemma trim_join ws c : space_char c = true -> Forall word ws -> TrimSpace (Join ws (String c "")) = Join ws (String c "").
Proof.
  intros Hc Hws. destruct ws as [|w ws]; [done|]. destruct (exists_last (l := w :: ws)) as (l & x & E); [done|].
  rewrite E in *. clear E w ws. apply Forall_app in Hws as [Hl Hx%Forall_inv]. destruct l as [|w l]; [by apply word_trimmed|].
  destruct (visible_last x Hx) as (s & d & -> & Hd). assert (exists m, Join ((w :: l) ++ [s +:+ String d ""]) (String c "") = w +:+ m +:+ String d "") as [m ->].
  { clear Hl. revert w. induction l as [|v l IH]; intros w.
    - exists (String c s). cbn. done.
    - destruct (IH v) as [m Hm]. exists (String c (v +:+ m)). cbn [app] in *. change (Join (w :: v :: ?r) ?z) with (w +:+ z +:+ Join (v :: r) z).
      rewrite Hm. change (String c (v +:+ m)) with ((String c "" +:+ v) +:+ m). by rewrite !string_app_assoc. }
  apply trimmed_between; [by apply Forall_inv in Hl|done].
Qed.

(** A number as the kernel prints it in a file of its own. *)
Lemma parse_uint_file is_print n : 0 <= n <= max_u64 -> parse_uint is_print (TrimSpace (itoa n +:+ newline)) = Good n.
Proof. intros Hn. rewrite TrimSpace_newline, word_trimmed by apply word_itoa. unfold parse_uint. by rewrite ParseUint_itoa. Qed.

(** The counter and the limit of the kernel are read back. *)
Theorem conntrack_reads_back is_print read_file n m (Hn : 0 <= n <= max_u64) (Hm : 0 <= m <= max_u64)
    (Hc : read_file "/proc/sys/net/netfilter/nf_conntrack_count" = Text (itoa n +:+ newline))
    (Hx : read_file "/proc/sys/net/netfilter/nf_conntrack_max" = Text (itoa m +:+ newline)) :
  readConntrackFiles is_print read_file conntrackPaths = Good (Some (n, m)).
Proof. unfold conntrackPaths. cbn [readConntrackFiles]. rewrite Hc, Hx, !parse_uint_file by done. done. Qed.

Theorem file_nr_reads_back is_print read_file n m u (Hn : 0 <= n <= max_u64) (Hm : 0 <= m <= max_u64)
    (Hr : read_file fileNrPath = Text (Join [itoa n; u; itoa m] (String (byte 9) "") +:+ newline)) (Hu : word u) :
  readFileNr is_print read_file = Good (Some (n, m)).
Proof.
  assert (Forall word [itoa n; u; itoa m]) as Hws by (repeat apply Forall_cons_2; try apply Forall_nil_2; auto using word_itoa).
  unfold readFileNr, read_text. rewrite Hr, TrimSpace_newline, trim_join, Fields_Join_sep by done.
  unfold parse_uint. by rewrite !ParseUint_itoa.
Qed.

(** The table of neighbours has as many entries as lines below its heading. *)
Theorem neigh_counts_rows heading rows (Hn : Forall (fun r => has_byte nl r = false) (heading :: rows))
    (Ht : TrimSpace (Join (heading :: rows) newline) = Join (heading :: rows) newline) (Hh : heading <> "") :
  neigh_entries (Join (heading :: rows) newline +:+ newline) = zlen rows.
Proof.
  unfold neigh_entries. rewrite TrimSpace_newline, Ht, split_on_lines by done.
  rewrite decide_False, zlen_cons; [lia|]. destruct heading; [done|]. by destruct rows.
Qed.

(** ** Connections *)
Lemma value_after_pair name v l1 l2 : name ∉ l1 -> value_after name (l1 ++ name :: v :: l2) = Some v.
Proof.
  induction l1 as [|f l1 IH]; cbn [app value_after]; [by rewrite decide_True|]. intros [Hf Hl]%not_elem_of_cons.
  destruct (l1 ++ name :: v :: l2) eqn:E; [by destruct l1|]. rewrite decide_False by done. by apply IH.
Qed.

(** The line of TCP is found and its field tw is read back. *)
Theorem time_wait_reads_back is_print before l1 l2 after n (Hn : 0 <= n <= max_u64)
    (Hb : Forall (fun l => has_byte nl l = false /\ HasPrefix l "TCP:" = false) before)
    (Hw : Forall word (l1 ++ l2)) (Ht : "tw" ∉ l1) :
  parseSockstatTimeWait is_print (text_of before +:+ Join ("TCP:" :: l1 ++ "tw" :: itoa n :: l2) " " +:+ newline +:+ after) = Good n.
Proof.
  assert (Forall word ("TCP:" :: l1 ++ "tw" :: itoa n :: l2)) as Hws.
  { apply Forall_app in Hw as [H1 H2]. constructor; [done|]. apply Forall_app. split; [done|]. by repeat (constructor; [apply word_itoa || done|]). }
  unfold parseSockstatTimeWait. induction Hb as [|l before [Hl Hp] Hb IH].
  - change (text_of [] +:+ ?x) with x. rewrite newline_app, split_on_line by by apply Join_no_newline. cbn [time_wait_in].
    assert (HasPrefix (Join ("TCP:" :: l1 ++ "tw" :: itoa n :: l2) " ") "TCP:" = true) as ->.
    { apply HasPrefix_spec. destruct l1; cbn [Join app]; eexists; reflexivity. }
    rewrite Fields_Join by done. change ("TCP:" :: l1 ++ "tw" :: itoa n :: l2) with (("TCP:" :: l1) ++ "tw" :: itoa n :: l2).
    rewrite value_after_pair by (by apply not_elem_of_cons). unfold parse_uint. by rewrite ParseUint_itoa.
  - change (text_of (l :: before)) with ((l +:+ newline) +:+ text_of before). rewrite !string_app_assoc.
    rewrite newline_app, split_on_line by done. cbn [time_wait_in]. rewrite Hp. exact IH.
Qed.

(** ** Overflows *)
Lemma column_app name h1 v1 h2 v2 : length h1 = length v1 -> column name h2 v2 <> None ->
  column name (h1 ++ h2) (v1 ++ v2) = column name h2 v2.
Proof.
  revert v1. induction h1 as [|h h1 IH]; intros [|v v1] Hl Hn; try done. cbn [app column].
  rewrite IH by (cbn in Hl; done || lia). by destruct (column name h2 v2).
Qed.
Lemma column_none name hs vs : name ∉ hs -> column name hs vs = None.
Proof.
  revert vs. induction hs as [|h hs IH]; intros [|v vs]; try done. intros [Hh Hs]%not_elem_of_cons. cbn [column].
  by rewrite IH, decide_False.
Qed.
Lemma column_at name h1 v1 h2 v2 v : length h1 = length v1 -> name ∉ h2 ->
  column name (h1 ++ name :: h2) (v1 ++ v :: v2) = Some v.
Proof.
  intros Hl Hn. assert (column name (name :: h2) (v :: v2) = Some v) as E by (cbn [column]; by rewrite column_none, decide_True).
  rewrite column_app, E by (by rewrite ?E). done.
Qed.

Definition netstat_line (ws : list string) : string := Join ("TcpExt:" :: ws) " ".
Lemma netstat_line_ok ws : Forall word ws -> has_byte nl (netstat_line ws) = false /\ HasPrefix (netstat_line ws) "TcpExt:" = true /\
  Fields (netstat_line ws) = "TcpExt:" :: ws.
Proof.
  intros Hws. assert (Forall word ("TcpExt:" :: ws)) as H by by constructor. split; [by apply Join_no_newline|]. split; [|by apply Fields_Join].
  apply HasPrefix_spec. destruct ws; cbn [netstat_line Join]; eexists; reflexivity.
Qed.

(** The counters are read from the columns with their names, wherever they are;
    other sections may come before and after. *)
Theorem listen_stats_read_back is_print before after h1 h2 v1 v2 drops overflows
    (Hb : Forall (fun l => has_byte nl l = false /\ HasPrefix l "TcpExt:" = false) before)
    (Ho : 0 <= overflows <= max_u64) (Hl : length h1 = length v1) (Hl2 : length h2 = length v2)
    (Hh : Forall word (h1 ++ h2)) (Hv : Forall word (v1 ++ v2)) (Hn : "ListenOverflows" ∉ h2) :
  column "ListenDrops" (h1 ++ "ListenOverflows" :: h2) (v1 ++ itoa overflows :: v2) = Some (itoa drops) -> 0 <= drops <= max_u64 ->
  parse_listen_stats is_print
    (text_of before +:+ netstat_line (h1 ++ "ListenOverflows" :: h2) +:+ newline
     +:+ netstat_line (v1 ++ itoa overflows :: v2) +:+ newline +:+ after) = Good (overflows, drops).
Proof.
  intros Hdc Hd. set (hs := h1 ++ "ListenOverflows" :: h2) in *. set (vs := v1 ++ itoa overflows :: v2) in *.
  assert (Forall word hs /\ Forall word vs) as [Hhs Hvs].
  { apply Forall_app in Hh as [? ?], Hv as [? ?]. split; apply Forall_app; (split; [done|]); (constructor; [apply word_itoa || done|done]). }
  destruct (netstat_line_ok hs Hhs) as (H1 & H2 & H3), (netstat_line_ok vs Hvs) as (V1 & V2 & V3).
  unfold parse_listen_stats.
  assert (tcp_ext (text_of before +:+ netstat_line hs +:+ newline +:+ netstat_line vs +:+ newline +:+ after) = Some (netstat_line hs, netstat_line vs)) as ->.
  { unfold tcp_ext. induction Hb as [|l before [Hl1 Hp] Hb IH].
    - change (text_of [] +:+ ?x) with x. rewrite !newline_app.
      rewrite split_on_line, filter_cons_True, split_on_line, filter_cons_True by done. done.
    - change (text_of (l :: before)) with ((l +:+ newline) +:+ text_of before). rewrite !string_app_assoc.
      rewrite newline_app. rewrite split_on_line, filter_cons_False by (done || by rewrite Hp). exact IH. }
  rewrite H3, V3. assert (zlen ("TcpExt:" :: hs) =? zlen ("TcpExt:" :: vs) = true) as ->.
  { apply Z.eqb_eq. rewrite !zlen_cons. unfold hs, vs, zlen. rewrite !length_app. cbn. lia. }
  cbn [negb]. change ("TcpExt:" :: hs) with (("TcpExt:" :: h1) ++ "ListenOverflows" :: h2). change ("TcpExt:" :: vs) with (("TcpExt:" :: v1) ++ itoa overflows :: v2).
  rewrite column_at by (cbn; done || lia). unfold parse_uint. rewrite ParseUint_itoa by done. cbn [prefixed].
  change ((("TcpExt:" :: h1) ++ "ListenOverflows" :: h2)) with ("TcpExt:" :: hs). change (("TcpExt:" :: v1) ++ itoa overflows :: v2) with ("TcpExt:" :: vs).
  cbn [column]. rewrite Hdc. unfold parse_uint_lossy. by rewrite ParseUint_itoa.
Qed.

(** Gatherings one after another. *)
Fixpoint sockstat_Gathers (readings : list (res string (Z * Z))) (ins : SockInstance) : list Event * SockInstance :=
  match readings with
  | [] => ([], ins)
  | r :: readings' =>
    let '(e1, ins) := sockstat_Gather r ins in
    let '(e2, ins) := sockstat_Gathers readings' ins in (e1 ++ e2, ins)
  end.

(** The deltas of the good readings, against [prev]. *)
Fixpoint overflow_deltas (prev : Z) (readings : list (res string (Z * Z))) : list Z :=
  match readings with
  | [] => []
  | Bad _ :: readings' => overflow_deltas prev readings'
  | Good (o, _) :: readings' => (if prev <=? o then o - prev else 0) :: overflow_deltas o readings'
  end.
Definition delta_of (e : Event) : option string := Attrs e ≫= lookup "delta".

Lemma overflow_event_delta c delta o d : delta_of (overflow_event c delta o d) = Some (itoa delta).
Proof. unfold overflow_event, delta_of, thresholds_attr. cbn zeta. by case_decide. Qed.

(** Each gathering pushes one event; its delta is the growth since the last
    reading that succeeded, so that a failed reading loses nothing. *)
Theorem overflow_deltas_reported readings ins (Hc : ge_off (ListenOverflow ins) = false) (Hi : initialized ins = true) :
  omap delta_of (sockstat_Gathers readings ins).1 = map itoa (overflow_deltas (prevOverflows ins) readings) /\
  length (sockstat_Gathers readings ins).1 = length readings.
Proof.
  revert ins Hc Hi. induction readings as [|r readings IH]; intros ins Hc Hi; [done|]. cbn [sockstat_Gathers overflow_deltas].
  unfold sockstat_Gather. rewrite Hc. destruct r as [[o d]|err].
  - rewrite Hi. destruct (IH (mkSock (ListenOverflow ins) o d true) Hc eq_refl) as [H1 H2].
    destruct (sockstat_Gathers readings _) as [e2 i2]. cbn [fst prevOverflows app map omap list_omap length] in *. rewrite overflow_event_delta.
    cbn [app length]. by rewrite H1, H2.
  - destruct (IH ins Hc Hi) as [H1 H2]. destruct (sockstat_Gathers readings ins) as [e2 i2]. cbn [fst app map omap list_omap length] in *.
    change (delta_of (critical ?a ?b)) with (@None string). by rewrite H1, H2.
Qed.

(** Growth below the thresholds is described as no growth. *)
Theorem overflow_below_threshold_is_denied c delta o d
    (Hs : EvaluateGeThreshold (f64_of_Z delta) (WarnGe c) (CriticalGe c) = EventStatusOk) :
  Description (overflow_event c delta o d) = "no new listen overflows (total: " +:+ itoa o +:+ "), everything is ok".
Proof. unfold overflow_event. cbn zeta. rewrite Hs. unfold thresholds_attr. by case_decide. Qed.

(** ** The time since the start *)
Lemma i64_uptime up : 0 <= up <= 9223372036 -> (i64 up ⊠ Second)%go = up * Second.
Proof. intros H. unfold Second. rewrite (i64_id up), i64_id; unfold in_i64, min_i64, max_i64; lia. Qed.

(** The verdict on an uptime, up to 292 years. *)
Lemma uptime_verdict format_time c up boot : 0 <= up <= 9223372036 -> CriticalLt c <> 0 \/ WarnLt c <> 0 ->
  exists e, uptime_Gather format_time c (Good up) boot = [e] /\ event_of "system" "uptime::reboot_detected" e /\
    EventStatus e = (if (0 <? CriticalLt c) && (up * Second <? CriticalLt c) then EventStatusCritical
                     else if (0 <? WarnLt c) && (up * Second <? WarnLt c) then EventStatusWarning else EventStatusOk).
Proof.
  intros Hup Hc. unfold uptime_Gather.
  assert ((CriticalLt c =? 0) && (WarnLt c =? 0) = false) as -> by (apply andb_false_iff; rewrite !Z.eqb_neq; tauto).
  cbn zeta. rewrite (i64_uptime up Hup). destruct ((0 <? CriticalLt c) && _); [by eexists|]. destruct (_ && _); by eexists.
Qed.

(** The longer a host is up, the less severe is the verdict. *)
Theorem uptime_severity_falls format_time c up1 up2 b1 b2 (H1 : 0 <= up1) (H2 : up1 <= up2) (H3 : up2 <= 9223372036)
    (Hc : CriticalLt c <> 0 \/ WarnLt c <> 0) :
  exists e1 e2, uptime_Gather format_time c (Good up1) b1 = [e1] /\ uptime_Gather format_time c (Good up2) b2 = [e2] /\
    SeverityRank (EventStatus e2) <= SeverityRank (EventStatus e1).
Proof.
  destruct (uptime_verdict format_time c up1 b1) as (e1 & E1 & _ & S1); [lia|done|].
  destruct (uptime_verdict format_time c up2 b2) as (e2 & E2 & _ & S2); [lia|done|].
  exists e1, e2. split_and!; [done|done|]. rewrite S1, S2.
  destruct (Z.ltb_spec 0 (CriticalLt c)), (Z.ltb_spec 0 (WarnLt c)); cbn [andb];
    destruct (Z.ltb_spec (up1 * Second) (CriticalLt c)), (Z.ltb_spec (up2 * Second) (CriticalLt c)),
      (Z.ltb_spec (up1 * Second) (WarnLt c)), (Z.ltb_spec (up2 * Second) (WarnLt c)); unfold Second in *; try lia; by vm_compute.
Qed.

(** ** Parameters of the kernel *)
Definition op_holds (op : string) (a b : Z) : bool :=
  if decide (op = "eq") then a =? b else if decide (op = "ne") then negb (a =? b) else if decide (op = "ge") then b <=? a
  else if decide (op = "le") then a <=? b else if decide (op = "gt") then b <? a else a <? b.

Lemma itoa_inj a b : in_i64 a -> in_i64 b -> itoa a = itoa b -> a = b.
Proof. intros Ha Hb E. pose proof (Atoi_itoa a Ha) as H. rewrite E, Atoi_itoa in H by done. congruence. Qed.
Lemma normalizeWhitespace_itoa n : normalizeWhitespace (itoa n) = itoa n.
Proof. unfold normalizeWhitespace. change (itoa n) with (Join [itoa n] " ") at 1. rewrite Fields_Join; [done|]. constructor; [apply word_itoa|done]. Qed.

(** Whole numbers of 64 bits are compared as such by every operator: no
    precision is lost to doubles. *)
Theorem integers_compared_exactly is_print a b op (Ha : in_i64 a) (Hb : in_i64 b) (Ho : op ∈ validOps) :
  compareValues is_print (itoa a) (itoa b) op = Good (op_holds op a b).
Proof.
  assert (bool_decide (itoa a = itoa b) = (a =? b)) as E.
  { destruct (Z.eqb_spec a b) as [->|Hne]; [by apply bool_decide_eq_true|]. apply bool_decide_eq_false. intros H. by apply Hne, itoa_inj. }
  unfold compareValues, compareNumeric. rewrite !normalizeWhitespace_itoa, E.
  change (ParseInt (itoa a)) with (Atoi (itoa a)). change (ParseInt (itoa b)) with (Atoi (itoa b)). rewrite !Atoi_itoa by done.
  unfold op_holds. repeat (apply elem_of_cons in Ho as [-> | Ho]; [|]); try (by apply elem_of_nil in Ho); cbn -[Z.compare];
    unfold Z.leb, Z.ltb; try rewrite (Z.compare_antisym a b); by destruct (a ?= b).
Qed.

Record param_ok (p : ParamSpec) : Prop := {
  ok_key : Key p <> "" /\ Contains (Key p) "/" = false;
  ok_op : Op p ∈ validOps;
  ok_value : Value p <> "" /\ (isNumericOp (Op p) = true -> exists f, strconv_ParseFloat (Value p) = Good f);
  ok_severity : alerting (p_Severity p)
}.

Lemma init_param_ok is_print i p p' : init_param is_print i p = Good p' -> param_ok p'.
Proof.
  unfold init_param. case_decide as Hk; [done|]. destruct (validateKey _ _) as [|] eqn:Ev; [done|].
  cbn zeta. set (op := if decide (TrimSpace (ToLower (Op p)) = "") then "eq" else _). clearbody op.
  destruct (bool_decide (op ∈ validOps)) eqn:Eo; [|done]. cbn [negb]. destruct (decide (TrimSpace (Value p) = "")) as [|Hv]; [done|].
  destruct (isNumericOp op && _) eqn:Ef; [done|]. destruct (normalize_severity _ _ _) as [sev|] eqn:Es; [|done]. intros [= <-].
  constructor; cbn.
  - split; [done|]. revert Ev. unfold validateKey. by destruct (Contains _ "/").
  - by apply bool_decide_eq_true in Eo.
  - split; [done|]. intros Hn. rewrite Hn in Ef. destruct (strconv_ParseFloat _); [eauto|done].
  - by eapply normalize_severity_ok.
Qed.

(** Accepted parameters name a file below /proc/sys, an operator and a value that
    fits it. *)
Theorem sysctl_Init_sound is_print goos ps ps' (H : sysctl_Init is_print goos ps = Good ps') :
  goos = "linux" /\ ps' <> [] /\ length ps' = length ps /\ Forall param_ok ps'.
Proof.
  unfold sysctl_Init, linux_only in H. case_decide as Hg; [|done]. destruct ps as [|p ps]; [done|].
  assert (forall i l l', init_params is_print i l = Good l' -> length l' = length l /\ Forall param_ok l') as Hl.
  { intros i l. revert i. induction l as [|q l IH]; intros i l'; cbn [init_params]; [by intros [= <-]|].
    destruct (init_param is_print i q) as [q'|] eqn:E; [|done]. destruct (init_params is_print (i + 1) l) as [l''|] eqn:El; [|done].
    intros [= <-]. destruct (IH _ _ El) as [H1 H2]. split; [cbn; lia|]. constructor; [by eapply init_param_ok|done]. }
  destruct (Hl _ _ _ H) as [H1 H2]. split_and!; [done| |done|done]. intros ->. done.
Qed.

(** An accepted comparison fails for one reason only: the value of the kernel is
    not a number. *)
Theorem accepted_comparison_errors is_print actual p err (Hp : param_ok p)
    (H : compareValues is_print actual (Value p) (Op p) = Bad err) : err = "actual value " +:+ Quote is_print actual +:+ " is not numeric".
Proof.
  destruct Hp as [_ Ho [_ Hv] _]. revert H. unfold compareValues.
  repeat (apply elem_of_cons in Ho as [Ho | Ho]; [rewrite Ho in Hv |- *; cbn [decide] | ]); try (by apply elem_of_nil in Ho);
    repeat (case_decide; try done); destruct (Hv eq_refl) as [f Hf]; unfold compareNumeric; rewrite Hf;
    destruct (ParseInt actual) as [|], (ParseInt (Value p)) as [|], (strconv_ParseFloat actual) as [|]; try done; by intros [= <-].
Qed.

(** No key reaches a parameter whose path has a dot, such as those of a VLAN
    interface: every dot becomes a slash, and a slash is refused. *)
Theorem dotted_names_are_out_of_reach key : has_byte "."%char (keyToPath key) = false.
Proof.
  unfold keyToPath. rewrite has_byte_app. cbn [orb]. change (has_byte "." "/proc/sys/") with false. cbn [orb].
  induction key as [|c key IH]; [done|]. cbn [replace_byte has_byte]. rewrite IH, orb_false_r. apply bool_decide_eq_false.
  case_decide; [done|by intros ->].
Qed.

(** ** Memory, processors, connections *)
Lemma level_event_status digits unit c value event describe : EventStatus event = EventStatusOk ->
  EventStatus (level_event digits unit c value event describe) = EvaluateGeThreshold value (WarnGe c) (CriticalGe c).
Proof.
  intros He. unfold level_event. cbn zeta. case_decide as Hs; [by rewrite thresholds_attr_status, Hs|].
  by case_decide.
Qed.
Lemma level_event_of target check digits unit c value event describe : event_of target check event ->
  event_of target check (level_event digits unit c value event describe).
Proof.
  intros He. unfold level_event. cbn zeta.
  assert (event_of target check (thresholds_attr (ge_parts digits unit c) (SetDescription event "everything is ok"))) as H by by apply thresholds_attr_event.
  case_decide; [done|]. by case_decide.
Qed.

(** The load is judged per core, over the configured period; what is configured
    decides which of the three averages counts. *)
Theorem load_is_judged_per_core is_print ins ins' counts l1 l5 l15 (H : cpu_Init is_print ins counts = Good ins')
    (Ho : ge_off (LoadAverage ins) = false) :
  exists e, checkLoadAverage ins' (Good (l1, l5, l15)) = [e] /\ event_of "cpu" "cpu::load_average" e /\ 1 <= cpuCores ins' /\
    EventStatus e = EvaluateGeThreshold
      (f64_div (if decide (Period ins = "1m") then l1 else if decide (Period ins = "15m") then l15 else l5) (f64_of_Z (cpuCores ins')))
      (WarnGe (LoadAverage ins)) (CriticalGe (LoadAverage ins)).
Proof.
  unfold cpu_Init in H. cbn zeta in H. destruct (first_error _); [done|]. destruct counts as [cores|]; [|done]. injection H as <-.
  unfold checkLoadAverage. cbn [LoadAverage]. rewrite Ho. cbn zeta. eexists. split; [done|]. split; [by apply level_event_of|].
  split; [cbn; destruct (Z.leb_spec cores 0); lia|]. rewrite level_event_status by done. cbn [Period cpuCores].
  destruct (decide (Period ins = "")) as [->|]; done.
Qed.

Lemma emitStateEvent_verdict check name count sc est :
  event_of "system" check (emitStateEvent check name count sc est) /\
  EventStatus (emitStateEvent check name count sc est) = EvaluateGeThreshold (f64_of_Z count) (WarnGe sc) (CriticalGe sc).
Proof. split; [|done]. unfold emitStateEvent. cbn zeta. apply thresholds_attr_event. by destruct est as [n|]; [destruct (0 <=? n)|]. Qed.

(** A gathering reports the enabled states, each once, or one failure. *)
Theorem tcpstate_Gather_reports fmt_g goos cw tw ins states n (H : tcpstate_Init fmt_g goos cw tw = Good ins) :
  match (if ge_on cw then match states with Good _ => true | Bad _ => false end else match n with Good _ => true | Bad _ => false end) with
  | true => events_of "system" ((if ge_on cw then ["tcpstate::close_wait"] else []) ++ (if ge_on tw then ["tcpstate::time_wait"] else []))
              (tcpstate_Gather ins states n)
  | false => exists err, tcpstate_Gather ins states n = [tcp_error ins err]
  end.
Proof.
  unfold tcpstate_Init, linux_only in H. case_decide; [|done]. cbn [first_error omap list_omap id] in H.
  destruct (ge_on cw || ge_on tw) eqn:E; [|done]. destruct (validateThresholds _ _ cw); [done|]. destruct (validateThresholds _ _ tw); [done|].
  injection H as <-. unfold tcpstate_Gather, gatherViaNetlink, gatherViaSockstat, events_of. cbn [hasCloseWaitCheck hasTimeWaitCheck].
  destruct (ge_on cw).
  - destruct states; [|by eexists]. destruct (ge_on tw); repeat constructor; apply emitStateEvent_verdict.
  - destruct (ge_on tw); [|done]. destruct n; [|by eexists]. constructor; [apply emitStateEvent_verdict|constructor].
Qed.

(** ** Security modules *)
Lemma alerting_not_ok sev : alerting sev -> sev <> EventStatusOk.
Proof. intros Hs ->. by repeat (apply elem_of_cons in Hs as [?|Hs]; [done|]); apply elem_of_nil in Hs. Qed.

Lemma init_expect_ok is_print valid name err c c' : init_expect is_print valid name err c = Good c' -> Expect c' <> "" -> alerting (e_Severity c').
Proof.
  unfold init_expect. case_decide; [by intros [= <-] ?|]. destruct (negb _); [done|].
  destruct (normalize_severity _ _ _) eqn:En; [|done]. intros [= <-] _. by eapply normalize_severity_ok.
Qed.
Lemma check_expected_ok event what status c r : alerting (e_Severity c) ->
  EventStatus (check_expected event what status c r) = EventStatusOk <-> r = Good (Expect c).
Proof.
  intros Hsev%alerting_not_ok. unfold check_expected. destruct r as [x|]; [|done]. case_decide as Hx; cbn; [by rewrite Hx|].
  split; [done|congruence].
Qed.

(** With accepted settings, the event on a module is Ok exactly when the module
    is read and is in the state that is expected. *)
Theorem security_verdict is_print goos ins ins' read_file (H : secmod_Init is_print goos ins = Good ins') :
  (Expect (EnforceMode ins') <> "" ->
    (EventStatus (checkEnforceMode is_print read_file ins') = EventStatusOk <->
     readSELinuxMode is_print read_file = Good (Expect (EnforceMode ins')))) /\
  (Expect (AppArmor ins') <> "" ->
    (EventStatus (checkAppArmor is_print read_file ins') = EventStatusOk <->
     readAppArmorStatus is_print read_file = Good (Expect (AppArmor ins')))).
Proof.
  unfold secmod_Init, linux_only in H. case_decide; [|done].
  destruct (init_expect is_print _ "enforce_mode" _ _) as [a|] eqn:Ea; [|done].
  destruct (init_expect is_print _ "apparmor_enabled" _ _) as [b|] eqn:Eb; [|done]. injection H as <-.
  split; intros He; apply check_expected_ok; cbn [EnforceMode AppArmor] in *; by eapply init_expect_ok.
Qed.

(** ** The identity of the host *)
Lemma parseSeverity_ok is_print raw sev : parseSeverity is_print raw = Good sev -> alerting sev.
Proof. unfold parseSeverity. repeat case_decide; intros [= <-]; vm_compute; tauto || (repeat (try left; try right)). Qed.

(** The hostname is compared with the one of the start, however often it
    changes in between: the event is Ok exactly when it is the same again. *)
Theorem hostname_compared_with_start is_print h ip ins ins' hostname (H : hostident_Init is_print (Good h) ip ins = Good ins')
    (Hon : Enabled (HostnameChanged ins) = true) :
  checkHostname is_print hostname ins' ∈ hostident_Gather is_print hostname ip ins' /\
  (EventStatus (checkHostname is_print hostname ins') = EventStatusOk <-> hostname = Good h).
Proof.
  unfold hostident_Init, init_hostname in H. rewrite Hon in H. destruct (parseSeverity _ _) as [sev|] eqn:Es; [|done].
  apply parseSeverity_ok in Es.
  assert (HostnameChanged ins' = HostnameChanged ins /\ baseHostname ins' = h /\ hostSeverity ins' = sev) as (H1 & H2 & H3).
  { revert H. unfold init_ip. cbn. destruct (Enabled (IPChanged ins)); [|by intros [= <-]]. destruct (parseSeverity _ _); [|done].
    case_decide; [done|]. by intros [= <-]. }
  split; [unfold hostident_Gather; rewrite H1, Hon; apply elem_of_app; left; by apply list_elem_of_singleton|].
  unfold checkHostname. rewrite H2, H3.
  apply alerting_not_ok in Es.
  destruct hostname as [x|]; [case_decide as Hx|]; cbn; [by rewrite Hx| |done]. split; [done|]. intros [= ->]. done.
Qed.
